(* ===== verification/_CoqProject ===== *)
-Q . S2P
Prelude.v
CMem.v
CString.v
Conv.v
Args.v
Printf.v
Scanf.v
Heap.v
BmAlloc.v
Sha.v
Sha1.v
Sha2.v
Nvram.v
Envvar.v
Elf.v
P9.v
Packet.v
Timer.v
Ipv4.v
Arp.v
Udp.v
NetEnds.v
Tftp.v
TftpLoad.v
DhcpOptions.v
Dns.v
Dhcp.v
Engine.v
Forth.v
Dict.v
Words.v
Image.v
EngineRefines.v
StackWords.v
Doubles.v
DoubleWords.v
Catch.v
NumberWords.v
