(* ===== verification/Prelude.v ===== *)
(** * SLOF: verification of the firmware's libraries

    SLOF is the Open Firmware of IBM's PowerPC machines: a Forth engine with
    the C libraries it calls.  This library models the C code that carries logic of
    its own (not the registers of devices) and proves what makes it correct.

    ** The parts and their files

    - Prelude.v (this file): machine integers, the error monad [res], byte
      encodings and lemmas on lists, shared by all.
    - CMem.v: the memory, a finite map from addresses to bytes, with the loads
      and stores of the code.  An access to an address that is not mapped is a
      [Fault].
    - CString.v: lib/libc/string and lib/libc/ctype.
    - Conv.v: strtol, strtoul, atoi, atol and rand of lib/libc/stdlib.
    - Printf.v: vsnprintf and its variants; Scanf.v: vsscanf (lib/libc/stdio).
      They call strtol and strtoul of Conv.v.
    - Heap.v: malloc, free, realloc and memalign of lib/libc/stdlib, on the
      memory sbrk of slof/sbrk.c gives them.
    - BmAlloc.v: the bitmap allocator of slof/allocator.c.
    - Sha.v, Sha1.v, Sha2.v: sha.c, sha256.c and sha512.c of lib/libtpm with the
      definitions of FIPS 180-4 they implement.
    - Nvram.v: the partitions of lib/libnvram/nvram.c; Envvar.v: the variables
      lib/libnvram/envvar.c keeps in one of them, over the state of Nvram.v.
    - Elf.v: the ELF loader of lib/libelf, over the memory, with memmove and
      memset of CString.v.
    - P9.v: the 9P client of lib/libvirtio/p9.c.
    - Packet.v: the headers of lib/libnet, what fills them, and the Internet
      checksum of RFC 1071.
    - Timer.v: set_timer and get_timer of slof/helpers.c, over a clock.
    - Ipv4.v: ethernet.c, ipv4.c, tcp.c and udp.c of lib/libnet as one machine,
      since they call each other both ways: a frame goes up through
      receive_ether, handle_ipv4, handle_udp or handle_icmp, an answer down
      through send_ipv4, which may receive frames while it waits for ARP.
    - Arp.v: the theorems on the ARP table and on resolving an address; Udp.v:
      a message that leaves in a frame, and a frame that reaches handle_udp.
    - NetEnds.v: that the stack ends; Tftp.v: tftp.c over that stack;
      TftpLoad.v: what tftp does with the messages of a server.
    - DhcpOptions.v: the options of lib/libnet/dhcp.c; Dhcp.v: its client, over
      the stack; Dns.v: the resolver of dns.c, which the client sets up and
      asks; Args.v: the arguments of a network boot in args.c, with the parser
      of addresses the client calls.
    - Engine.v: the Forth engine, slof/paflof.c with the primitives of
      prim.code; Forth.v: its specification, a machine with lists for stacks;
      EngineRefines.v: that the first does what the second does.
    - Dict.v: the words of prim.in and engine.in as the cells ref.pl and prep.h
      make of them; Words.v: how to reason about them; Image.v: one memory
      that holds all of them.
    - StackWords.v, Doubles.v, DoubleWords.v, Catch.v, NumberWords.v: what the words
      for stacks, arithmetic, exceptions and numbers as text do.

    ** How the code is modelled

    A C function is a function of the same name.  It takes the state it works
    on (the memory, the static variables of its file as a record) with its
    arguments, and gives back its value with the new state.  The monad [res] has
    three results: [Ok], [Fault] for an access outside of what is mapped (C's
    undefined behaviour), and [OutOfFuel].  Integers are [Z] with their
    conversions ([u8] to [u64], [s32], [s64]) written where the code converts.
    The machine is the 64-bit big-endian PowerPC of make.rules: [int] has 32
    bits, [long], pointers and [size_t] have 64, plain [char] is unsigned.

    A loop with a counter recurses on it.  The other loops have fuel, and the
    theorems say [Ok] where the code returns, so that the fuel is shown to be
    enough: [walk_fuel] (one more than the number of mapped bytes) for a loop that
    walks along the memory, since no walk can go further; the number of bytes of
    the heap for malloc, each turn of which merges two free chunks;
    [walk_turns] (one more than the bytes of the NVRAM) for the walks along its
    partitions; 65538 turns for the loops of the ELF loader, whose counters have
    16 bits.  The one loop that may not end in C, that over the relocations of a
    section with entries of size 0, takes its fuel from the caller.

    ** The network stack

    The record [net U] of Ipv4.v is the static variables of the stack with the
    state [U] of the clients above it, of which the classes [HasTftp], [HasDns] and
    [HasDhcp] tell where the variables of tftp.c, dns.c and dhcp.c are.  A pointer into a packet is the array it points
    into ([ether_packet] of ethernet.c or [ip_heap] of ipv4.c) with an offset,
    since a handler goes on reading a packet another call may have replaced.
    What recv gives is a list of the state, [rxq] (a frame, or [None] for none);
    [clock] is the timer of Timer.v, which the code sets and reads where it does:
    the milliseconds that pass until the next readings of the clock are a list of
    any numbers, and after the list one passes for each reading while the timer
    runs.  What send got is the list [sent], and its value is a function of the frame.  A handler takes the function
    [rx] that receives a frame: receive_ether calls the handlers with itself one
    level of calls lower, and [fuel] is the number of levels.  NetEnds.v gives a
    bound ([budget]): the frames that wait, each counted with a run of the timer
    ([patience], the delays in the list and the milliseconds of a second) since
    handle_tftp sets the timer again for it, and what is left of the run that goes
    on.  It is enough for every loop and every level, and with one run more for each
    retry for the loop of tftp.  So tftp ends when finitely many frames come;
    kept_waiting of TftpLoad.v shows that a server that repeats its answer keeps
    tftp in its loop for as many turns.  The handlers of the
    protocols above UDP and of IPv6 and send_ipv6 are arguments of the stack; Dhcp.v
    gives it handle_dhcp and handle_dns.  A name in a DNS message has a fuel of
    its own, since the code follows a name that refers to itself for ever
    (reference_loop): 300 turns are enough for a name with at most 40 references.

    ** The Forth system

    The machine code of a word is a label of the function engine; [run] of
    Engine.v gives for a label what the code does up to the next jump, and
    [jumps] follows the jumps until the label over, with a number of jumps as
    its fuel.  Where the compiler puts labels, arrays and words is the class
    [Layout].  A definition of engine.in is data, the list of its cells, and its
    meaning is what the machine does with it in a memory that holds the
    dictionary (the class [kernel] of Words.v, an instance of which is Image.v):
    [does K name σ ρ m σ' ρ' m'] says that the word takes the stacks and the
    memory from the first to the second three and goes on behind its call.
    [executes] is a number of steps that is not bounded beforehand, so that the loops of the
    words need no fuel.

    ** What the theorems show

    - Functional correctness: the string functions, strtol, vsnprintf (against
      the text a format stands for) and vsscanf; malloc, free, realloc and
      memalign against an invariant of the heap and the list of its live blocks;
      the bitmap allocator is first fit and free undoes alloc; the ELF loader
      puts every segment where its header says; p9_walk sends the elements that
      fit and tells what is left of the path.
      In the Forth dictionary: multiplication and division of single and double
      cells, ROLL, and the conversion of text to numbers.
    - Equivalence with a standard: sha1, sha256, sha384 and sha512 compute the
      functions of FIPS 180-4 on every message their counters can hold.
    - Refinement: the operations on the bytes of the NVRAM implement operations
      on a list of partitions, and those on a partition a list of variables.
      handle_tftp does the steps of an abstract client, handle_dhcp the reactions of
      a client to the reply a message holds, and handle_dns takes from a message
      what the list of its records says.  The function engine,
      with its stacks in memory, does the steps of the machine with lists.
    - Protocols: tftp loads the file a server sends, with repetitions, timeouts
      and block numbers that wrap around; dhcp_attempt asks for the address it is
      offered and puts the settings of the acknowledgement to use; ARP resolves an address and sends the
      packet that waited; handle_ipv4 puts a packet together whose first fragment
      comes first and whose last comes last; the headers that are sent have valid
      checksums (a UDP datagram of odd length when a zero follows it) and a receiver accepts
      them.
    - Round trips: print_itoa and strtoul, (.) and $NUMBER, alloc and free, the
      options of DHCP, host names and the names of DNS.
    - Safety and termination: vsnprintf stores only inside of its buffer but for
      one byte; the string functions, vsscanf and vsnprintf end on every memory;
      tftp ends on every finite number of frames.
    - Error paths: the results of elf_check_file, of the transactions of 9P, of
      full partitions and exhausted heaps; CATCH and THROW.

    Where the code does not do what it should, the behaviour is the model's as
    well and an example shows it (percent_c_overflow in Printf.v,
    delete_leaves_stale_bytes in Nvram.v, partial_walk_dot in P9.v and others).

    ** Not modelled

    Output (printf to the console); the drivers of USB, network and virtio
    devices, whose logic is in the registers and rings they share with the
    hardware; the primitives of the Forth engine that call the hypervisor, the
    client interface or C functions (ppc64.code, board.code), and the device tree and
    drivers written in Forth; assembler;
    the TPM driver and the event log; IPv6 with DHCPv6, PXE, BootP, ping and
    netload, the callers of the clients of the stack; the clients, with the third-party x86
    emulator.  The variants of nvram.c for RTAS calls and for mapped NVRAM differ
    from the modelled one in the accesses to the storage only. *)

From Stdlib Require Import ZArith Lia.
From stdpp Require Import base list gmap option numbers.

#[global] Open Scope Z_scope.

(** ** Machine integers

    An unsigned [w]-bit value is a [Z] in [0, 2^w); [u8] .. [u64] are the
    conversions to the unsigned types, [s32] and [s64] those to [int] and
    [long].  The firmware is built for 64-bit big-endian PowerPC
    (make.rules: -m64, -mbig): [int] has 32 bits, [long], pointers and
    [size_t] have 64, and plain [char] is unsigned. *)

Definition u8 (x : Z) : Z := x mod 2 ^ 8.
Definition u16 (x : Z) : Z := x mod 2 ^ 16.
Definition u32 (x : Z) : Z := x mod 2 ^ 32.
Definition u64 (x : Z) : Z := x mod 2 ^ 64.

Definition to_signed (w x : Z) : Z :=
  let y := x mod 2 ^ w in if y <? 2 ^ (w - 1) then y else y - 2 ^ w.
Definition s32 (x : Z) : Z := to_signed 32 x.
Definition s64 (x : Z) : Z := to_signed 64 x.

Definition b2z (b : bool) : Z := if b then 1 else 0.

(** Rewriting a machine conversion into its definition. *)
Ltac wunfold := unfold u8, u16, u32, u64, s32, s64, to_signed in *.

Lemma u8_range x : 0 <= u8 x < 256.
Proof. apply Z.mod_pos_bound. lia. Qed.
Lemma u16_range x : 0 <= u16 x < 65536.
Proof. apply Z.mod_pos_bound. lia. Qed.
Lemma u32_range x : 0 <= u32 x < 4294967296.
Proof. apply Z.mod_pos_bound. lia. Qed.
Lemma u64_range x : 0 <= u64 x < 18446744073709551616.
Proof. apply Z.mod_pos_bound. lia. Qed.

Lemma u8_small x : 0 <= x < 256 -> u8 x = x.
Proof. apply Z.mod_small. Qed.
Lemma u16_small x : 0 <= x < 65536 -> u16 x = x.
Proof. apply Z.mod_small. Qed.
Lemma u32_small x : 0 <= x < 4294967296 -> u32 x = x.
Proof. apply Z.mod_small. Qed.
Lemma u64_small x : 0 <= x < 18446744073709551616 -> u64 x = x.
Proof. apply Z.mod_small. Qed.

Lemma to_signed_small w x :
  0 < w -> - 2 ^ (w - 1) <= x < 2 ^ (w - 1) -> to_signed w x = x.
Proof.
  intros Hw Hx. unfold to_signed.
  assert (E : 2 ^ w = 2 * 2 ^ (w - 1)).
  { rewrite <- Z.pow_succ_r by lia. f_equal. lia. }
  pose proof (Z.pow_pos_nonneg 2 (w - 1)).
  destruct (Z.le_gt_cases 0 x).
  - rewrite Z.mod_small by lia. destruct (Z.ltb_spec x (2 ^ (w - 1))); lia.
  - rewrite <- (Z.mod_add x 1 (2 ^ w)), Z.mod_small by lia.
    destruct (Z.ltb_spec (x + 1 * 2 ^ w) (2 ^ (w - 1))); lia.
Qed.

Lemma s32_small x : -2147483648 <= x < 2147483648 -> s32 x = x.
Proof. intros. apply to_signed_small; lia. Qed.
Lemma s64_small x : -9223372036854775808 <= x < 9223372036854775808 -> s64 x = x.
Proof. intros. apply to_signed_small; lia. Qed.

Lemma u64_s64 x : u64 (s64 x) = u64 x.
Proof.
  wunfold. destruct (Z.ltb_spec (x mod 2 ^ 64) (2 ^ (64 - 1))).
  - apply Z.mod_mod. lia.
  - replace (x mod 2 ^ 64 - 2 ^ 64) with (x mod 2 ^ 64 + (-1) * 2 ^ 64) by lia.
    rewrite Z.mod_add by lia. apply Z.mod_mod. lia.
Qed.

Lemma land_range n a b : 0 <= n -> 0 <= a < 2 ^ n -> 0 <= Z.land a b < 2 ^ n.
Proof.
  intros Hn Ha.
  assert (E : Z.land a b = Z.land a b mod 2 ^ n).
  { rewrite <- Z.land_ones by done. rewrite <- Z.land_assoc, (Z.land_comm b), Z.land_assoc.
    by rewrite Z.land_ones, (Z.mod_small a) by done. }
  rewrite E. apply Z.mod_pos_bound. lia.
Qed.

(** Masks with the low bits clear: rounding down. *)
Lemma land_mod_r n x y : 0 <= n -> 0 <= x < 2 ^ n -> Z.land x (y mod 2 ^ n) = Z.land x y.
Proof.
  intros Hn Hx. rewrite <- Z.land_ones by lia. rewrite (Z.land_comm y), Z.land_assoc.
  by rewrite Z.land_ones, Z.mod_small by (done || lia).
Qed.

Lemma land_u64_r x y : 0 <= x < 2 ^ 64 -> Z.land x (u64 y) = Z.land x y.
Proof. by apply land_mod_r. Qed.
Lemma land_u32_r x y : 0 <= x < 2 ^ 32 -> Z.land x (u32 y) = Z.land x y.
Proof. by apply land_mod_r. Qed.

(** A single bit. *)
Lemma land_pow2 x k : 0 <= k -> Z.land x (2 ^ k) = Z.b2z (Z.testbit x k) * 2 ^ k.
Proof.
  intros Hk. apply Z.bits_inj'. intros m Hm. rewrite Z.land_spec, Z.pow2_bits_eqb by done.
  destruct (Z.eqb_spec k m) as [<-|Hne].
  - destruct (Z.testbit x k); cbn [Z.b2z andb]; rewrite ?Z.mul_1_l, ?Z.mul_0_l, ?Z.bits_0; [|done].
    by rewrite Z.pow2_bits_true.
  - rewrite andb_false_r. destruct (Z.testbit x k); cbn [Z.b2z]; rewrite ?Z.mul_1_l, ?Z.mul_0_l, ?Z.bits_0; [|done].
    symmetry. rewrite Z.pow2_bits_eqb by done. by destruct (Z.eqb_spec k m).
Qed.

Lemma align_down k x : 0 <= k -> Z.land x (Z.lnot (2 ^ k - 1)) = x / 2 ^ k * 2 ^ k.
Proof.
  intros Hk. replace (2 ^ k - 1) with (Z.ones k) by (rewrite Z.ones_equiv; lia).
  rewrite <- Z.ldiff_land, Z.ldiff_ones_r by done.
  by rewrite Z.shiftl_mul_pow2, Z.shiftr_div_pow2 by done.
Qed.

Create Rewrite HintDb words.
#[export] Hint Rewrite u8_small u16_small u32_small u64_small s32_small s64_small
  using lia : words.

(** Side conditions of the form [0 <= u8 x < 256]. *)
Ltac wranges :=
  repeat match goal with
  | |- context [u8 ?x] => lazymatch goal with _ : 0 <= u8 x < _ |- _ => fail | _ => pose proof (u8_range x) end
  | |- context [u16 ?x] => lazymatch goal with _ : 0 <= u16 x < _ |- _ => fail | _ => pose proof (u16_range x) end
  | |- context [u32 ?x] => lazymatch goal with _ : 0 <= u32 x < _ |- _ => fail | _ => pose proof (u32_range x) end
  | |- context [u64 ?x] => lazymatch goal with _ : 0 <= u64 x < _ |- _ => fail | _ => pose proof (u64_range x) end
  end.

(** [lia] with division and remainder by constants. *)
Ltac lia_div := Z.to_euclidean_division_equations; lia.

(** ** Partial computations

    [Fault] is an access outside the memory (or array) the code may touch,
    [OutOfFuel] an iteration that did not end within its bound. *)

Inductive res (A : Type) : Type :=
| Ok (a : A)
| Fault
| OutOfFuel.
Arguments Ok {A} a.
Arguments Fault {A}.
Arguments OutOfFuel {A}.

#[export] Instance res_eq_dec {A} `{EqDecision A} : EqDecision (res A).
Proof. solve_decision. Defined.

#[export] Instance res_ret : MRet res := @Ok.
#[export] Instance res_bind : MBind res := fun A B k r =>
  match r with Ok a => k a | Fault => Fault | OutOfFuel => OutOfFuel end.
#[export] Instance res_fmap : FMap res := fun A B f r =>
  match r with Ok a => Ok (f a) | Fault => Fault | OutOfFuel => OutOfFuel end.

Definition of_option {A} (o : option A) : res A :=
  match o with Some a => Ok a | None => Fault end.

(** A computation that ends: with a value or with a fault. *)
Definition terminates {A} (r : res A) : Prop := r <> OutOfFuel.

Ltac res_simpl := cbn [mbind res_bind mret res_ret fmap res_fmap of_option] in *.

Lemma bind_Ok_inv {A B} (r : res A) (k : A -> res B) b :
  (r ≫= k) = Ok b -> exists a, r = Ok a /\ k a = Ok b.
Proof. destruct r; res_simpl; try discriminate. eauto. Qed.

Lemma of_option_inv {A} (o : option A) a : of_option o = Ok a -> o = Some a.
Proof. destruct o; cbn; congruence. Qed.

Lemma of_option_terminates {A} (o : option A) : terminates (of_option o).
Proof. by destruct o. Qed.

Lemma bind_ret {A} (r : res A) : (r ≫= fun a => Ok a) = r.
Proof. by destruct r. Qed.

Lemma terminates_bind {A B} (r : res A) (k : A -> res B) :
  terminates r -> (forall a, r = Ok a -> terminates (k a)) -> terminates (r ≫= k).
Proof. unfold terminates. destruct r; res_simpl; auto. Qed.

Lemma terminates_Ok {A} (a : A) : terminates (Ok a).
Proof. discriminate. Qed.
Lemma terminates_Fault {A} : terminates (@Fault A).
Proof. discriminate. Qed.
#[export] Hint Resolve terminates_Ok terminates_Fault of_option_terminates : core.

(** Take a successful computation apart: every [x ← e; k] in [H] that
    returned gives the equation of [e] and that of [k]. *)
Ltac res_inv H :=
  let H' := fresh H in
  repeat match type of H with
  | (_ ≫= _) = Ok _ =>
      apply bind_Ok_inv in H; destruct H as (? & H' & H); try rename H' into H'
  end.

(** ** Big-endian integers as bytes *)

Fixpoint be_enc (n : nat) (v : Z) : list Z :=
  match n with
  | O => []
  | S k => (v / 256 ^ Z.of_nat k) mod 256 :: be_enc k v
  end.

Definition be_dec (bs : list Z) : Z := foldl (fun a b => a * 256 + b) 0 bs.

Definition byte (b : Z) : Prop := 0 <= b < 256.
#[export] Instance byte_dec b : Decision (byte b).
Proof. unfold byte. apply _. Defined.

Lemma pow256_pos n : 0 < 256 ^ Z.of_nat n.
Proof. apply Z.pow_pos_nonneg; lia. Qed.

Lemma pow256_S n : 256 ^ Z.of_nat (S n) = 256 * 256 ^ Z.of_nat n.
Proof. rewrite Nat2Z.inj_succ, Z.pow_succ_r by lia. reflexivity. Qed.

Lemma be_enc_length n v : length (be_enc n v) = n.
Proof. induction n; simpl; congruence. Qed.

Lemma be_enc_bytes n v : Forall byte (be_enc n v).
Proof. induction n; simpl; constructor; auto. apply Z.mod_pos_bound. lia. Qed.

Lemma foldl_be_acc bs a :
  foldl (fun a b => a * 256 + b) a bs = a * 256 ^ Z.of_nat (length bs) + be_dec bs.
Proof.
  unfold be_dec. revert a. induction bs as [|b bs IH]; intros a; cbn [foldl length].
  { rewrite Z.pow_0_r. lia. }
  rewrite (IH (a * 256 + b)), (IH (0 * 256 + b)), pow256_S. ring.
Qed.

Lemma be_dec_cons b bs : be_dec (b :: bs) = b * 256 ^ Z.of_nat (length bs) + be_dec bs.
Proof. unfold be_dec at 1. cbn [foldl]. rewrite foldl_be_acc. f_equal. Qed.

Lemma be_dec_app bs bs' :
  be_dec (bs ++ bs') = be_dec bs * 256 ^ Z.of_nat (length bs') + be_dec bs'.
Proof. unfold be_dec at 1. rewrite foldl_app. apply foldl_be_acc. Qed.

Lemma be_dec_range bs : Forall byte bs -> 0 <= be_dec bs < 256 ^ Z.of_nat (length bs).
Proof.
  induction 1 as [|b bs Hb _ IH]; [cbn; lia|].
  rewrite be_dec_cons. cbn [length]. rewrite pow256_S. unfold byte in Hb. nia.
Qed.

Lemma be_enc_mod n k v :
  (n <= k)%nat -> be_enc n (v mod 256 ^ Z.of_nat k) = be_enc n v.
Proof.
  revert v. induction n as [|n IH]; intros v Hk; cbn [be_enc]; [done|].
  rewrite IH by lia. f_equal.
  rewrite (Z.mod_eq v (256 ^ Z.of_nat k)) by (pose proof (pow256_pos k); lia).
  replace (Z.of_nat k) with (Z.of_nat n + (1 + (Z.of_nat k - Z.of_nat n - 1))) at 1 by lia.
  rewrite Z.pow_add_r, (Z.pow_add_r 256 1) by lia.
  set (q := v / 256 ^ Z.of_nat k). set (r := 256 ^ (Z.of_nat k - Z.of_nat n - 1)).
  replace (v - 256 ^ Z.of_nat n * (256 ^ 1 * r) * q)
    with (v + (- (256 * r * q)) * 256 ^ Z.of_nat n) by ring.
  rewrite Z.div_add by (pose proof (pow256_pos n); lia).
  replace (- (256 * r * q)) with ((- (r * q)) * 256) by ring.
  apply Z.mod_add. lia.
Qed.

Lemma be_dec_enc n v : be_dec (be_enc n v) = v mod 256 ^ Z.of_nat n.
Proof.
  revert v. induction n as [|n IH]; intros v; cbn [be_enc].
  { cbn. symmetry. apply Z.mod_1_r. }
  rewrite be_dec_cons, be_enc_length, IH, pow256_S, Z.mul_comm.
  rewrite (Z.mul_comm 256), Z.rem_mul_r by (pose proof (pow256_pos n); lia). lia.
Qed.

Lemma be_enc_dec bs : Forall byte bs -> be_enc (length bs) (be_dec bs) = bs.
Proof.
  induction 1 as [|b bs Hb Hbs IH]; [done|]. cbn [length be_enc].
  rewrite be_dec_cons. pose proof (be_dec_range bs Hbs) as Hr.
  unfold byte in Hb. pose proof (pow256_pos (length bs)). f_equal.
  - rewrite (Z.add_comm _ (be_dec bs)), Z.div_add, Z.div_small by lia.
    apply Z.mod_small. lia.
  - rewrite <- (be_enc_mod _ (length bs)) by lia.
    rewrite (Z.add_comm _ (be_dec bs)), Z.mod_add, Z.mod_small by lia. exact IH.
Qed.

(** Little-endian encodings, and the byte swap [__builtin_bswap16/32/64]. *)
Definition le_enc (n : nat) (v : Z) : list Z := rev (be_enc n v).
Definition le_dec (bs : list Z) : Z := be_dec (rev bs).
Definition bswap (n : nat) (v : Z) : Z := be_dec (rev (be_enc n v)).

Lemma Forall_rev' {A} (P : A -> Prop) l : Forall P l -> Forall P (rev l).
Proof. rewrite !Forall_forall. intros H x Hx. apply H, in_rev, Hx. Qed.

Lemma bswap_involutive n v : bswap n (bswap n v) = v mod 256 ^ Z.of_nat n.
Proof.
  unfold bswap. set (l := rev (be_enc n v)).
  assert (Hl : length l = n).
  { unfold l. rewrite length_rev. apply be_enc_length. }
  rewrite <- Hl at 1. rewrite be_enc_dec.
  - unfold l. rewrite rev_involutive. apply be_dec_enc.
  - unfold l. apply Forall_rev', be_enc_bytes.
Qed.

Lemma le_dec_enc n v : le_dec (le_enc n v) = v mod 256 ^ Z.of_nat n.
Proof. unfold le_dec, le_enc. rewrite rev_involutive. apply be_dec_enc. Qed.

Lemma le_enc_dec bs : Forall byte bs -> le_enc (length bs) (le_dec bs) = bs.
Proof.
  intros H. unfold le_enc, le_dec. rewrite <- (length_rev bs).
  rewrite be_enc_dec by (by apply Forall_rev'). apply rev_involutive.
Qed.

Lemma le_enc_length n v : length (le_enc n v) = n.
Proof. unfold le_enc. rewrite length_rev. apply be_enc_length. Qed.

Lemma le_enc_bytes n v : Forall byte (le_enc n v).
Proof. apply Forall_rev', be_enc_bytes. Qed.

(** ** Overwriting a piece of a list *)

Definition splice (bs : list Z) (off : nat) (x : list Z) : list Z :=
  take off bs ++ x ++ drop (off + length x) bs.

Lemma splice_length bs off x : (off + length x <= length bs)%nat -> length (splice bs off x) = length bs.
Proof. intros H. unfold splice. rewrite !length_app, length_take, length_drop. lia. Qed.

Lemma splice_Forall P bs off x : Forall P bs -> Forall P x -> Forall P (splice bs off x).
Proof. intros. unfold splice. rewrite !Forall_app. split_and!; [by apply Forall_take | done | by apply Forall_drop]. Qed.

(** Stores one after the other, from the start. *)
Lemma splice_next bs1 rest x :
  (length x <= length rest)%nat -> splice (bs1 ++ rest) (length bs1) x = (bs1 ++ x) ++ drop (length x) rest.
Proof.
  intros H. unfold splice. rewrite take_app_length, <- app_assoc. do 2 f_equal.
  rewrite drop_app, (drop_ge bs1) by lia. cbn [app]. f_equal. lia.
Qed.

Lemma splice_app pre old post x :
  length x = length old -> splice (pre ++ old ++ post) (length pre) x = pre ++ x ++ post.
Proof.
  intros H. unfold splice. rewrite take_app_length. f_equal. f_equal.
  rewrite drop_app, (drop_ge pre) by lia. cbn [app].
  replace (length pre + length x - length pre)%nat with (length old) by lia. apply drop_app_length.
Qed.

Lemma splice_lookup bs off x i :
  (off + length x <= length bs)%nat ->
  splice bs off x !! i = if decide (off <= i < off + length x)%nat then x !! (i - off)%nat else bs !! i.
Proof.
  intros H. unfold splice. rewrite lookup_app.
  destruct (decide (off <= i < off + length x)%nat).
  - rewrite lookup_take_ge by lia. rewrite length_take, Nat.min_l by lia. by rewrite lookup_app_l by lia.
  - destruct (decide (i < off)%nat).
    + rewrite lookup_take_lt by lia. destruct (bs !! i) eqn:E; [done|]. apply lookup_ge_None in E. lia.
    + rewrite lookup_take_ge by lia. rewrite length_take, Nat.min_l by lia. rewrite lookup_app_r by lia.
      rewrite lookup_drop. f_equal. lia.
Qed.

(** The string a char array holds: what is before the first NUL. *)
Fixpoint upto_nul (bs : list Z) : list Z :=
  match bs with
  | [] => []
  | b :: bs' => if b =? 0 then [] else b :: upto_nul bs'
  end.

Lemma upto_nul_word w : Forall (fun b => 0 < b < 256) w -> upto_nul w = w.
Proof.
  induction 1 as [|b w Hb _ IH]; [done|]. cbn [upto_nul]. destruct (Z.eqb_spec b 0); [lia | by rewrite IH].
Qed.

(** [strncmp(a, b, n) == 0] for strings whose NUL is the end of the list. *)
Fixpoint strncmp_eq (n : nat) (a b : list Z) : bool :=
  match n with
  | O => true
  | S n' =>
      if negb (hd 0 a =? hd 0 b) then false
      else if hd 0 a =? 0 then true
      else strncmp_eq n' (tail a) (tail b)
  end.
