(* ===== verification/CMem.v ===== *)
(** * The C memory

    Byte-addressed memory as a finite map from addresses to byte values, with
    the loads and stores of the widths the code uses.  An access to an address
    the map does not hold is a [Fault]; a store never maps a new address.  The
    machine is big-endian. *)

From Stdlib Require Import ZArith Lia.
From stdpp Require Import base list gmap option numbers fin_maps fin_map_dom.
From S2P Require Import Prelude.

Abbreviation mem := (gmap Z Z).

Definition load8 (m : mem) (p : Z) : res Z := of_option (m !! p).

Definition store8 (m : mem) (p v : Z) : res mem :=
  match m !! p with Some _ => Ok (<[p := u8 v]> m) | None => Fault end.

Fixpoint load_bytes (m : mem) (p : Z) (n : nat) : res (list Z) :=
  match n with
  | O => Ok []
  | S n' => b ← load8 m p; bs ← load_bytes m (p + 1) n'; Ok (b :: bs)
  end.

Fixpoint store_bytes (m : mem) (p : Z) (bs : list Z) : res mem :=
  match bs with
  | [] => Ok m
  | b :: bs' => m' ← store8 m p b; store_bytes m' (p + 1) bs'
  end.

Definition load_be (n : nat) (m : mem) (p : Z) : res Z := be_dec <$> load_bytes m p n.
Definition store_be (n : nat) (m : mem) (p v : Z) : res mem := store_bytes m p (be_enc n v).

Abbreviation load16 := (load_be 2).
Abbreviation load32 := (load_be 4).
Abbreviation load64 := (load_be 8).
Abbreviation store16 := (store_be 2).
Abbreviation store32 := (store_be 4).
Abbreviation store64 := (store_be 8).

(** Upper bound for the steps of a walk over distinct mapped addresses. *)
Definition walk_fuel (m : mem) : nat := S (size m).

(** ** What a piece of memory holds *)

Definition bytes_at (m : mem) (p : Z) (bs : list Z) : Prop :=
  forall i b, bs !! i = Some b -> m !! (p + Z.of_nat i) = Some b.

Definition mapped (m : mem) (p n : Z) : Prop :=
  forall a, p <= a < p + n -> is_Some (m !! a).

(** A NUL-terminated string: [s] followed by a zero byte. *)
Definition cstr (m : mem) (p : Z) (s : list Z) : Prop :=
  bytes_at m p (s ++ [0]) /\ Forall (fun b => 0 < b < 256) s.

(** The effect of writing [bs] at [p], as a total function. *)
Fixpoint write_bytes (m : mem) (p : Z) (bs : list Z) : mem :=
  match bs with
  | [] => m
  | b :: bs' => <[p := b]> (write_bytes m (p + 1) bs')
  end.

(** [m] and [m'] agree outside [lo, hi). *)
Definition same_outside (m m' : mem) (lo hi : Z) : Prop :=
  forall a, a < lo \/ hi <= a -> m' !! a = m !! a.

Lemma bytes_at_nil m p : bytes_at m p [].
Proof. intros i b H. by rewrite lookup_nil in H. Qed.

Lemma bytes_at_cons m p b bs :
  bytes_at m p (b :: bs) <-> m !! p = Some b /\ bytes_at m (p + 1) bs.
Proof.
  split.
  - intros H. split.
    + rewrite <- (H 0%nat b); [f_equal; lia | done].
    + intros i c Hi. rewrite <- (H (S i) c); [f_equal; lia | done].
  - intros [H0 H] [|i] c Hi; simpl in Hi.
    + simplify_eq. rewrite <- H0. f_equal. lia.
    + rewrite <- (H i c Hi). f_equal. lia.
Qed.

Lemma bytes_at_app m p bs1 bs2 :
  bytes_at m p (bs1 ++ bs2) <->
  bytes_at m p bs1 /\ bytes_at m (p + Z.of_nat (length bs1)) bs2.
Proof.
  revert p. induction bs1 as [|b bs1 IH]; intros p; cbn [app length].
  { rewrite Z.add_0_r. pose proof (bytes_at_nil m p). tauto. }
  rewrite !bytes_at_cons, IH.
  replace (p + Z.of_nat (S (length bs1))) with (p + 1 + Z.of_nat (length bs1)) by lia. tauto.
Qed.

Lemma bytes_at_app_l m p bs1 bs2 : bytes_at m p (bs1 ++ bs2) -> bytes_at m p bs1.
Proof. intros H. by apply bytes_at_app in H as [? _]. Qed.

Lemma bytes_at_mapped m p bs : bytes_at m p bs -> mapped m p (Z.of_nat (length bs)).
Proof.
  intros H a Ha. destruct (lookup_lt_is_Some_2 bs (Z.to_nat (a - p))) as [b Hb]; [lia|].
  exists b. rewrite <- (H _ _ Hb). f_equal. lia.
Qed.

Lemma mapped_sub m p n p' n' :
  mapped m p n -> p <= p' -> p' + n' <= p + n -> mapped m p' n'.
Proof. intros H ?? a ?. apply H. lia. Qed.

Lemma mapped_get m p n a : mapped m p n -> p <= a < p + n -> exists b, m !! a = Some b.
Proof. intros H Ha. destruct (H a Ha). eauto. Qed.

Lemma mapped_insert m p n a v : mapped m p n -> mapped (<[a := v]> m) p n.
Proof. intros H b Hb. rewrite lookup_insert. case_decide; eauto. Qed.

Lemma mapped_split m p n1 n2 :
  0 <= n1 -> 0 <= n2 -> mapped m p n1 -> mapped m (p + n1) n2 -> mapped m p (n1 + n2).
Proof.
  intros ?? H1 H2 a Ha. destruct (Z.lt_ge_cases a (p + n1)); [apply H1 | apply H2]; lia.
Qed.

Lemma bytes_at_load8 m p b bs : bytes_at m p (b :: bs) -> load8 m p = Ok b.
Proof. intros [H _]%bytes_at_cons. unfold load8. by rewrite H. Qed.

Lemma bytes_at_nth m p bs i b :
  bytes_at m p bs -> bs !! i = Some b -> load8 m (p + Z.of_nat i) = Ok b.
Proof. intros H Hi. unfold load8. by rewrite (H _ _ Hi). Qed.

Lemma mapped_store8 m p n a v :
  mapped m p n -> p <= a < p + n -> store8 m a v = Ok (<[a := u8 v]> m).
Proof. intros H Ha. unfold store8. by destruct (H a Ha) as [b ->]. Qed.

Lemma load_bytes_spec m p bs : bytes_at m p bs -> load_bytes m p (length bs) = Ok bs.
Proof.
  revert p. induction bs as [|b bs IH]; intros p H; [done|].
  cbn [length load_bytes]. rewrite (bytes_at_load8 _ _ _ _ H). res_simpl.
  apply bytes_at_cons in H as [_ H]. by rewrite (IH _ H).
Qed.

Lemma load_bytes_inv m p n bs :
  load_bytes m p n = Ok bs -> length bs = n /\ bytes_at m p bs.
Proof.
  revert p bs. induction n as [|n IH]; intros p bs H; cbn [load_bytes] in H.
  { simplify_eq. split; [done | apply bytes_at_nil]. }
  apply bind_Ok_inv in H as (b & Hb & H). apply bind_Ok_inv in H as (bs' & Hbs & H).
  simplify_eq. apply IH in Hbs as [<- Hbs]. split; [done|].
  apply bytes_at_cons. split; [|done].
  unfold load8 in Hb. destruct (m !! p); simplify_eq/=. done.
Qed.

Lemma write_bytes_lookup m p bs a :
  write_bytes m p bs !! a =
  if decide (p <= a < p + Z.of_nat (length bs)) then bs !! Z.to_nat (a - p) else m !! a.
Proof.
  revert p. induction bs as [|b bs IH]; intros p; cbn [write_bytes length].
  { case_decide; [lia | done]. }
  destruct (decide (p = a)) as [->|Hne].
  - rewrite lookup_insert_eq, Z.sub_diag. case_decide; [done | lia].
  - rewrite lookup_insert_ne by done. rewrite IH.
    repeat case_decide; try lia; [|done].
    replace (Z.to_nat (a - p)) with (S (Z.to_nat (a - (p + 1)))) by lia. done.
Qed.

Lemma write_bytes_outside m p bs a :
  a < p \/ p + Z.of_nat (length bs) <= a -> write_bytes m p bs !! a = m !! a.
Proof. intros. rewrite write_bytes_lookup. case_decide; [lia | done]. Qed.

Lemma write_bytes_same_outside m p bs :
  same_outside m (write_bytes m p bs) p (p + Z.of_nat (length bs)).
Proof. intros a Ha. by apply write_bytes_outside. Qed.

Lemma write_bytes_at m p bs : bytes_at (write_bytes m p bs) p bs.
Proof.
  intros i b Hi. rewrite write_bytes_lookup.
  pose proof (lookup_lt_Some _ _ _ Hi). case_decide; [|lia].
  rewrite <- Hi. f_equal. lia.
Qed.

Lemma write_bytes_app m p bs1 bs2 :
  write_bytes m p (bs1 ++ bs2) =
  write_bytes (write_bytes m (p + Z.of_nat (length bs1)) bs2) p bs1.
Proof.
  apply map_eq. intros a. rewrite !write_bytes_lookup, length_app.
  repeat case_decide; try lia; try done.
  - by rewrite lookup_app_l by lia.
  - rewrite lookup_app_r by lia. f_equal. lia.
Qed.

Lemma write_bytes_insert_head m p b bs :
  write_bytes (<[p := b]> m) (p + 1) bs = write_bytes m p (b :: bs).
Proof.
  apply map_eq. intros a. rewrite !write_bytes_lookup. cbn [length].
  repeat case_decide; try lia.
  - replace (Z.to_nat (a - p)) with (S (Z.to_nat (a - (p + 1)))) by lia. done.
  - replace (a - p) with 0 by lia. replace a with p by lia. by rewrite lookup_insert_eq.
  - by rewrite lookup_insert_ne by lia.
Qed.

Lemma mapped_write_bytes m p n q bs : mapped m p n -> mapped (write_bytes m q bs) p n.
Proof.
  intros H a Ha. rewrite write_bytes_lookup. case_decide; [|auto].
  apply lookup_lt_is_Some_2. lia.
Qed.

Lemma store_bytes_spec m p bs :
  mapped m p (Z.of_nat (length bs)) ->
  store_bytes m p bs = Ok (write_bytes m p (u8 <$> bs)).
Proof.
  revert m p. induction bs as [|b bs IH]; intros m p H; [done|].
  cbn [store_bytes length fmap list_fmap] in *.
  rewrite (mapped_store8 _ _ _ _ _ H) by lia. res_simpl.
  rewrite IH.
  - by rewrite write_bytes_insert_head.
  - apply mapped_insert. eapply mapped_sub; [exact H | lia | lia].
Qed.

Lemma bytes_at_frame m m' p bs lo hi :
  same_outside m m' lo hi -> bytes_at m p bs ->
  p + Z.of_nat (length bs) <= lo \/ hi <= p -> bytes_at m' p bs.
Proof.
  intros Hs H Hd i b Hi. pose proof (lookup_lt_Some _ _ _ Hi).
  rewrite Hs by lia. auto.
Qed.

Lemma u8_fmap_bytes bs : Forall byte bs -> u8 <$> bs = bs.
Proof.
  induction 1 as [|b bs Hb _ IH]; [done|]. cbn. f_equal; [|exact IH]. by apply u8_small.
Qed.

Lemma load_be_spec n m p bs :
  bytes_at m p bs -> length bs = n -> load_be n m p = Ok (be_dec bs).
Proof. intros H <-. unfold load_be. by rewrite (load_bytes_spec _ _ _ H). Qed.

Lemma store_be_spec n m p v :
  mapped m p (Z.of_nat n) -> store_be n m p v = Ok (write_bytes m p (be_enc n v)).
Proof.
  intros H. unfold store_be.
  rewrite store_bytes_spec by (rewrite be_enc_length; exact H).
  rewrite u8_fmap_bytes by apply be_enc_bytes. done.
Qed.

(** A store followed by a load of the same width gives the value stored. *)
Lemma load_store_be n m p v :
  mapped m p (Z.of_nat n) ->
  (m' ← store_be n m p v; load_be n m' p) = Ok (v mod 256 ^ Z.of_nat n).
Proof.
  intros H. rewrite (store_be_spec _ _ _ _ H). res_simpl.
  rewrite (load_be_spec n _ _ (be_enc n v)).
  - by rewrite be_dec_enc.
  - apply write_bytes_at.
  - apply be_enc_length.
Qed.

(** ** Walks end

    [n] consecutive mapped addresses need a memory of at least [n] bytes. *)
Lemma mapped_size m p n : mapped m p (Z.of_nat n) -> (n <= size m)%nat.
Proof.
  intros H. rewrite <- size_dom.
  set (l := (fun i => p + Z.of_nat i) <$> seq 0 n).
  assert (Hnd : NoDup l).
  { apply NoDup_fmap_2; [intros i j ?; lia | apply NoDup_seq]. }
  replace n with (length l) by (unfold l; by rewrite length_fmap, length_seq).
  rewrite <- (size_list_to_set (C := gset Z)) by exact Hnd.
  apply subseteq_size. intros a Ha. apply elem_of_list_to_set in Ha.
  apply list_elem_of_fmap in Ha as (i & -> & Hi%elem_of_seq).
  apply elem_of_dom, H. lia.
Qed.

Lemma cstr_length m p s : cstr m p s -> (length s < size m)%nat.
Proof.
  intros [H _]. apply bytes_at_mapped, mapped_size in H. rewrite length_app in H. simpl in H. lia.
Qed.

Lemma cstr_cons m p b s : cstr m p (b :: s) -> m !! p = Some b /\ 0 < b < 256 /\ cstr m (p + 1) s.
Proof.
  intros [H Hb]. inversion Hb; subst. apply bytes_at_cons in H as [? ?].
  split; [done | split; [lia | by split]].
Qed.

Lemma cstr_nil m p : cstr m p [] -> m !! p = Some 0.
Proof. intros [H _]. apply bytes_at_cons in H. tauto. Qed.

Lemma cstr_drop m p s k :
  (k <= length s)%nat -> cstr m p s -> cstr m (p + Z.of_nat k) (drop k s).
Proof.
  revert p s. induction k as [|k IH]; intros p s Hk H.
  { by rewrite drop_0, Z.add_0_r. }
  destruct s as [|b s]; cbn [length] in Hk; [lia|]. cbn [drop].
  apply cstr_cons in H as (_ & _ & H).
  replace (p + Z.of_nat (S k)) with (p + 1 + Z.of_nat k) by lia. apply IH; [lia | done].
Qed.

Lemma cstr_head m p s : cstr m p s -> load8 m p = Ok (hd 0 s).
Proof.
  unfold load8. destruct s as [|b s]; intros H.
  - by rewrite (cstr_nil _ _ H).
  - apply cstr_cons in H as [-> _]. done.
Qed.

Lemma cstr_load m p s k b :
  cstr m p s -> s !! k = Some b -> m !! (p + Z.of_nat k) = Some b.
Proof. intros [H _] Hk. apply H. by apply lookup_app_l_Some. Qed.

Lemma cstr_frame m m' p s lo hi :
  same_outside m m' lo hi -> cstr m p s ->
  p + Z.of_nat (length s) < lo \/ hi <= p -> cstr m' p s.
Proof.
  intros Hs [H Hb] Hd. split; [|done]. eapply bytes_at_frame; [exact Hs | exact H |].
  rewrite length_app. simpl. lia.
Qed.

(** A fact checked at every address of a range, as a boolean. *)
Definition mappedb (m : mem) (p : Z) (n : nat) : bool :=
  forallb (fun i => bool_decide (is_Some (m !! (p + Z.of_nat i)))) (seq 0 n).

Lemma mappedb_spec m p n : mappedb m p n = true -> mapped m p (Z.of_nat n).
Proof.
  unfold mappedb. rewrite forallb_forall. intros H a Ha.
  specialize (H (Z.to_nat (a - p))). rewrite in_seq in H.
  replace (p + Z.of_nat (Z.to_nat (a - p))) with a in H by lia.
  eapply bool_decide_eq_true_1, H. lia.
Qed.

Definition bytes_atb (m : mem) (p : Z) (bs : list Z) : bool :=
  bool_decide (load_bytes m p (length bs) = Ok bs).

Lemma bytes_atb_spec m p bs : bytes_atb m p bs = true -> bytes_at m p bs.
Proof. intros H%bool_decide_eq_true_1. by apply load_bytes_inv in H as [_ ?]. Qed.

Definition cstrb (m : mem) (p : Z) (s : list Z) : bool :=
  bytes_atb m p (s ++ [0]) && forallb (fun b => (0 <? b) && (b <? 256)) s.

Lemma cstrb_spec m p s : cstrb m p s = true -> cstr m p s.
Proof.
  unfold cstrb. intros [H Hs]%andb_prop. split; [by apply bytes_atb_spec|].
  apply Forall_forall. rewrite forallb_forall in Hs. intros b Hb.
  apply list_elem_of_In, Hs in Hb. lia.
Qed.

(** Discharge such facts about a concrete memory. *)
Ltac mem_compute :=
  first [ apply bytes_atb_spec; vm_compute; reflexivity
        | apply cstrb_spec; vm_compute; reflexivity
        | apply (mappedb_spec _ _ _); vm_compute; reflexivity ].

(** A loop [F] that moves its pointer [ptr] forward at every turn, and reads
    through it first, ends within [walk_fuel m] turns: [I] is the loop's
    invariant. *)
Lemma walk_ends_lt {X A} (m : mem) (ptr : X -> Z) (I : X -> Prop) (F : nat -> X -> res A) :
  (forall n x, I x -> F (S n) x = OutOfFuel ->
     is_Some (m !! ptr x) /\ exists x', I x' /\ ptr x < ptr x' /\ F n x' = OutOfFuel) ->
  forall x, I x -> terminates (F (walk_fuel m) x).
Proof.
  intros Hstep x HI Hout.
  assert (H : forall n x, I x -> F n x = OutOfFuel ->
    exists s : gset Z, s ⊆ dom m /\ set_Forall (fun a => ptr x <= a) s /\ size s = n).
  { clear x HI Hout. induction n as [|n IH]; intros x HI Hout; [exists ∅; split_and!; [set_solver | by apply set_Forall_empty | done]|].
    destruct (Hstep n x HI Hout) as [H0 (x' & HI' & Hp & Hn)].
    destruct (IH x' HI' Hn) as (s & Hs & Hge & <-).
    exists ({[ptr x]} ∪ s). split_and!.
    - apply elem_of_dom in H0. set_solver.
    - apply set_Forall_union; [by apply set_Forall_singleton|]. intros a Ha. specialize (Hge a Ha). cbn in *. lia.
    - rewrite size_union, size_singleton; [done|]. intros a ->%elem_of_singleton Ha.
      specialize (Hge _ Ha). cbn in Hge. lia. }
  destruct (H _ _ HI Hout) as (s & Hs & _ & E). apply subseteq_size in Hs.
  rewrite size_dom in Hs. unfold walk_fuel in E. lia.
Qed.

Lemma walk_ends {X A} (m : mem) (ptr : X -> Z) (I : X -> Prop) (F : nat -> X -> res A) :
  (forall n x, I x -> F (S n) x = OutOfFuel ->
     is_Some (m !! ptr x) /\ exists x', I x' /\ ptr x' = ptr x + 1 /\ F n x' = OutOfFuel) ->
  forall x, I x -> terminates (F (walk_fuel m) x).
Proof.
  intros Hstep. apply walk_ends_lt with (ptr := ptr). intros n x HI Hx.
  destruct (Hstep n x HI Hx) as [H (x' & HI' & Hp & Hn)]. split; [done|]. exists x'. split_and!; done || lia.
Qed.

Lemma load8_Some m p b : load8 m p = Ok b -> m !! p = Some b.
Proof. unfold load8. destruct (m !! p); cbn; congruence. Qed.

Lemma load8_is_Some m p b : load8 m p = Ok b -> is_Some (m !! p).
Proof. intros H%load8_Some. eauto. Qed.

Lemma load8_terminates m p : terminates (load8 m p).
Proof. unfold load8. destruct (m !! p); done. Qed.

Lemma store8_terminates m p v : terminates (store8 m p v).
Proof. unfold store8. destruct (m !! p); done. Qed.

Lemma load_bytes_terminates m p n : terminates (load_bytes m p n).
Proof.
  revert p. induction n as [|n IH]; intros p; [done|]. cbn [load_bytes].
  apply terminates_bind; [apply load8_terminates | intros b _].
  apply terminates_bind; [apply IH | done].
Qed.

Lemma store8_inv m p v m' :
  store8 m p v = Ok m' -> is_Some (m !! p) /\ m' = <[p := u8 v]> m.
Proof. unfold store8. destruct (m !! p); intros; simplify_eq; eauto. Qed.

#[export] Hint Resolve load8_terminates store8_terminates load_bytes_terminates : core.

(** Two writes in a row. *)
Lemma write_bytes_seq m p bs1 bs2 :
  write_bytes (write_bytes m p bs1) (p + Z.of_nat (length bs1)) bs2 = write_bytes m p (bs1 ++ bs2).
Proof.
  apply map_eq. intros a. rewrite !write_bytes_lookup, length_app.
  repeat case_decide; try lia; try done.
  - rewrite lookup_app_r by lia. f_equal. lia.
  - rewrite lookup_app_l by lia. done.
Qed.

Lemma write_bytes_nil m p : write_bytes m p [] = m.
Proof. done. Qed.

(** ** Frames *)

Lemma same_outside_refl m lo hi : same_outside m m lo hi.
Proof. by intros a _. Qed.

Lemma same_outside_trans m1 m2 m3 lo hi :
  same_outside m1 m2 lo hi -> same_outside m2 m3 lo hi -> same_outside m1 m3 lo hi.
Proof. intros H1 H2 a Ha. by rewrite H2, H1. Qed.

Lemma same_outside_mono m m' lo hi lo' hi' :
  same_outside m m' lo hi -> lo' <= lo -> hi <= hi' -> same_outside m m' lo' hi'.
Proof. intros H ?? a Ha. apply H. lia. Qed.

Lemma store8_frame m p v m' lo hi :
  store8 m p v = Ok m' -> lo <= p < hi -> same_outside m m' lo hi.
Proof. intros [_ ->]%store8_inv Hp a Ha. apply lookup_insert_ne. lia. Qed.

Lemma same_dom_is_Some (m m' : mem) a : dom m = dom m' -> is_Some (m !! a) -> is_Some (m' !! a).
Proof. intros E H%elem_of_dom. apply elem_of_dom. by rewrite <- E. Qed.

Lemma store8_dom m p v m' : store8 m p v = Ok m' -> dom m' = dom m.
Proof.
  intros [H ->]%store8_inv. apply dom_insert_lookup_L. done.
Qed.

(** The effect of stores into [lo, hi): nothing else changes, and no address
    becomes mapped or unmapped. *)
Definition stores (m m' : mem) (lo hi : Z) : Prop := same_outside m m' lo hi /\ dom m' = dom m.

Lemma stores_refl m lo hi : stores m m lo hi.
Proof. split; [apply same_outside_refl | done]. Qed.

Lemma stores_trans m1 m2 m3 lo hi : stores m1 m2 lo hi -> stores m2 m3 lo hi -> stores m1 m3 lo hi.
Proof. intros [H1 E1] [H2 E2]. split; [by eapply same_outside_trans | congruence]. Qed.

Lemma stores_mono m m' lo hi lo' hi' : stores m m' lo hi -> lo' <= lo -> hi <= hi' -> stores m m' lo' hi'.
Proof. intros [H E] ??. split; [by eapply same_outside_mono | done]. Qed.

Lemma store8_stores m p v m' lo hi : store8 m p v = Ok m' -> lo <= p < hi -> stores m m' lo hi.
Proof. intros H Hp. split; [by eapply store8_frame | by eapply store8_dom]. Qed.

Lemma write_bytes_dom m p bs :
  mapped m p (Z.of_nat (length bs)) -> dom (write_bytes m p bs) = dom m.
Proof.
  revert m p. induction bs as [|b bs IH]; intros m p H; [done|]. cbn [write_bytes].
  rewrite dom_insert_lookup_L; [apply IH|]; cbn [length] in H.
  - intros a Ha. apply H. lia.
  - rewrite write_bytes_lookup. case_decide; [lia|]. apply H. lia.
Qed.

Lemma write_bytes_stores m p bs lo hi :
  mapped m p (Z.of_nat (length bs)) -> lo <= p -> p + Z.of_nat (length bs) <= hi ->
  stores m (write_bytes m p bs) lo hi.
Proof.
  intros Hm ??. split; [|by apply write_bytes_dom].
  eapply same_outside_mono; [apply write_bytes_same_outside | lia | lia].
Qed.

Lemma store_bytes_terminates m p bs : terminates (store_bytes m p bs).
Proof.
  revert m p. induction bs as [|b bs IH]; intros m p; [done|]. cbn [store_bytes].
  apply terminates_bind; [auto | intros m' _; apply IH].
Qed.

Lemma store_bytes_dom m p bs m' : store_bytes m p bs = Ok m' -> dom m' = dom m.
Proof.
  revert m p. induction bs as [|b bs IH]; intros m p H; cbn [store_bytes] in H; [by simplify_eq|].
  apply bind_Ok_inv in H as (m1 & H1%store8_dom & H%IH). congruence.
Qed.

#[export] Hint Resolve store_bytes_terminates : core.
