(* ===== verification/CString.v ===== *)
(** * lib/libc/string and lib/libc/ctype

    The string and character functions of the C library, over the memory of
    CMem.  A pointer is its address, NULL is 0.  Loops counted by a [size_t]
    recurse on the count; loops that look for the terminating NUL run with
    [walk_fuel], and [string_loops_end] shows that they never exhaust it. *)

From Stdlib Require Import ZArith Lia.
From stdpp Require Import base list gmap option numbers fin_maps.
From S2P Require Import Prelude CMem.

(** ** ctype *)

Definition isdigit (ch : Z) : bool := (48 <=? ch) && (ch <=? 57).

Definition isprint (ch : Z) : bool := (32 <=? ch) && (ch <? 127).

Definition isspace (ch : Z) : bool :=
  (ch =? 32) || (ch =? 12) || (ch =? 10) || (ch =? 13) || (ch =? 9) || (ch =? 11).

Definition isxdigit (ch : Z) : bool :=
  ((48 <=? ch) && (ch <=? 57)) || ((65 <=? ch) && (ch <=? 70)) || ((97 <=? ch) && (ch <=? 102)).

Definition tolower (c : Z) : Z := if (65 <=? c) && (c <=? 90) then c - 65 + 97 else c.

Definition toupper (cha : Z) : Z := if (97 <=? cha) && (cha <=? 122) then cha - 97 + 65 else cha.

(** ** Memory blocks *)

Fixpoint memchr_loop (m : mem) (ch : Z) (n : nat) (p : Z) : res Z :=
  match n with
  | O => Ok 0
  | S n' => b ← load8 m p; if b =? ch then Ok p else memchr_loop m ch n' (p + 1)
  end.

Definition memchr (m : mem) (ptr c n : Z) : res Z := memchr_loop m (u8 c) (Z.to_nat n) ptr.

Fixpoint memcmp_loop (m : mem) (n : nat) (p1 p2 : Z) : res Z :=
  match n with
  | O => Ok 0
  | S n' =>
      b1 ← load8 m p1; b2 ← load8 m p2;
      if negb (b1 =? b2) then Ok (b1 - b2) else memcmp_loop m n' (p1 + 1) (p2 + 1)
  end.

Definition memcmp (m : mem) (ptr1 ptr2 n : Z) : res Z := memcmp_loop m (Z.to_nat n) ptr1 ptr2.

(** The forward copy loop, shared by memcpy and memmove. *)
Fixpoint copy_up (m : mem) (n : nat) (cdest csrc : Z) : res mem :=
  match n with
  | O => Ok m
  | S n' => b ← load8 m csrc; m' ← store8 m cdest b; copy_up m' n' (cdest + 1) (csrc + 1)
  end.

Fixpoint copy_down (m : mem) (n : nat) (cdest csrc : Z) : res mem :=
  match n with
  | O => Ok m
  | S n' => b ← load8 m csrc; m' ← store8 m cdest b; copy_down m' n' (cdest - 1) (csrc - 1)
  end.

Definition memcpy (m : mem) (dest src n : Z) : res (Z * mem) :=
  m' ← copy_up m (Z.to_nat n) dest src; Ok (dest, m').

Definition memmove (m : mem) (dest src n : Z) : res (Z * mem) :=
  if (src <? dest) && (dest <=? src + n) then
    m' ← copy_down m (Z.to_nat n) (dest + n - 1) (src + n - 1); Ok (dest, m')
  else
    m' ← copy_up m (Z.to_nat n) dest src; Ok (dest, m').

Fixpoint memset_loop (m : mem) (c : Z) (size : nat) (d : Z) : res mem :=
  match size with
  | O => Ok m
  | S size' => m' ← store8 m d (u8 c); memset_loop m' c size' (d + 1)
  end.

Definition memset (m : mem) (dest c size : Z) : res (Z * mem) :=
  m' ← memset_loop m c (Z.to_nat size) dest; Ok (dest, m').

(** ** Strings *)

Fixpoint strlen_loop (fuel : nat) (m : mem) (s len : Z) : res Z :=
  match fuel with
  | O => OutOfFuel
  | S fuel' =>
      b ← load8 m s;
      if negb (b =? 0) then strlen_loop fuel' m (s + 1) (s32 (len + 1)) else Ok (u64 len)
  end.

Definition strlen (m : mem) (s : Z) : res Z := strlen_loop (walk_fuel m) m s 0.

Fixpoint strcpy_loop (fuel : nat) (m : mem) (ptr src : Z) : res mem :=
  match fuel with
  | O => OutOfFuel
  | S fuel' =>
      b ← load8 m src; m' ← store8 m ptr b; c ← load8 m' src;
      if negb (c =? 0) then strcpy_loop fuel' m' (ptr + 1) (src + 1) else Ok m'
  end.

Definition strcpy (m : mem) (dst src : Z) : res (Z * mem) :=
  m' ← strcpy_loop (walk_fuel m) m dst src; Ok (dst, m').

Definition strcat (m : mem) (dst src : Z) : res (Z * mem) :=
  len ← strlen m dst;
  let p := s32 len in
  '(_, m') ← strcpy m (dst + p) src; Ok (dst, m').

Fixpoint strchr_loop (fuel : nat) (m : mem) (s cb : Z) : res Z :=
  match fuel with
  | O => OutOfFuel
  | S fuel' =>
      b ← load8 m s;
      if negb (b =? 0) then if b =? cb then Ok s else strchr_loop fuel' m (s + 1) cb
      else Ok 0
  end.

Definition strchr (m : mem) (s c : Z) : res Z := strchr_loop (walk_fuel m) m s (u8 c).

(** [ptr] runs from [s + k - 1] down to [s]. *)
Fixpoint strrchr_loop (m : mem) (s cb : Z) (k : nat) : res Z :=
  match k with
  | O => Ok 0
  | S k' => let ptr := s + Z.of_nat k' in
      b ← load8 m ptr; if b =? cb then Ok ptr else strrchr_loop m s cb k'
  end.

Definition strrchr (m : mem) (s c : Z) : res Z :=
  len ← strlen m s; strrchr_loop m s (u8 c) (Z.to_nat len).

Fixpoint strcmp_loop (fuel : nat) (m : mem) (s1 s2 : Z) : res Z :=
  match fuel with
  | O => OutOfFuel
  | S fuel' =>
      b1 ← load8 m s1;
      if b1 =? 0 then b2 ← load8 m s2; Ok (b1 - b2) else
      b2 ← load8 m s2;
      if (b2 =? 0) || negb (b1 =? b2) then Ok (b1 - b2)
      else strcmp_loop fuel' m (s1 + 1) (s2 + 1)
  end.

Definition strcmp (m : mem) (s1 s2 : Z) : res Z := strcmp_loop (walk_fuel m) m s1 s2.

Fixpoint strcasecmp_loop (fuel : nat) (m : mem) (s1 s2 : Z) : res Z :=
  match fuel with
  | O => OutOfFuel
  | S fuel' =>
      b1 ← load8 m s1;
      if b1 =? 0 then b2 ← load8 m s2; Ok (b1 - b2) else
      b2 ← load8 m s2;
      if (b2 =? 0) || negb (toupper b1 =? toupper b2) then Ok (b1 - b2)
      else strcasecmp_loop fuel' m (s1 + 1) (s2 + 1)
  end.

Definition strcasecmp (m : mem) (s1 s2 : Z) : res Z := strcasecmp_loop (walk_fuel m) m s1 s2.

(** [n] is the value of the [size_t] parameter when the loop head is reached,
    so the head's [--n > 0] fails at 1; [fin] is what is returned of the two
    bytes the loop stops at, [same] the test it goes on with. *)
Fixpoint strn_loop (same : Z -> Z -> bool) (fin : Z -> Z -> Z)
    (m : mem) (n : nat) (s1 s2 : Z) : res Z :=
  b1 ← load8 m s1;
  if b1 =? 0 then b2 ← load8 m s2; Ok (fin b1 b2) else
  b2 ← load8 m s2;
  if b2 =? 0 then Ok (fin b1 b2) else
  match n with
  | S (S _ as n') => if same b1 b2 then strn_loop same fin m n' (s1 + 1) (s2 + 1) else Ok (fin b1 b2)
  | _ => Ok (fin b1 b2)
  end.

Definition strncmp (m : mem) (s1 s2 n : Z) : res Z :=
  if n <? 1 then Ok 0
  else strn_loop Z.eqb (fun b1 b2 => b1 - b2) m (Z.to_nat n) s1 s2.

Definition strncasecmp (m : mem) (s1 s2 n : Z) : res Z :=
  if n <? 1 then Ok 0
  else strn_loop (fun b1 b2 => toupper b1 =? toupper b2)
         (fun b1 b2 => toupper b1 - toupper b2) m (Z.to_nat n) s1 s2.

Fixpoint strncpy_loop (m : mem) (n : nat) (dst src : Z) : res mem :=
  b ← load8 m src;
  match n with
  | O => Ok m
  | S n' =>
      if negb (b =? 0) then
        m' ← store8 m dst b; strncpy_loop m' n' (dst + 1) (src + 1)
      else memset_loop m 0 n dst
  end.

Definition strncpy (m : mem) (dst src n : Z) : res (Z * mem) :=
  m' ← strncpy_loop m (Z.to_nat n) dst src; Ok (dst, m').

(** [k] is [hay + hlen - pos]. *)
Fixpoint strstr_loop (m : mem) (needle nlen : Z) (k : nat) (pos : Z) : res Z :=
  match k with
  | O => Ok 0
  | S k' =>
      d ← strncmp m pos needle nlen;
      if d =? 0 then Ok pos else strstr_loop m needle nlen k' (pos + 1)
  end.

Definition strstr (m : mem) (hay needle : Z) : res Z :=
  if (hay =? 0) || (needle =? 0) then Ok 0 else
  h ← strlen m hay; n ← strlen m needle;
  let hlen := s32 h in let nlen := s32 n in
  if nlen <? 1 then Ok hay else strstr_loop m needle (u64 nlen) (Z.to_nat hlen) hay.

(** strtok's inner loop: does the byte [b] occur in the pattern at [pp]? *)
Fixpoint tok_in (fuel : nat) (m : mem) (pp b : Z) : res bool :=
  match fuel with
  | O => OutOfFuel
  | S fuel' =>
      c ← load8 m pp;
      if c =? 0 then Ok false else if c =? b then Ok true else tok_in fuel' m (pp + 1) b
  end.

(** The outer loop; the result is [(src, retVal)] at its exit. *)
Fixpoint strtok_loop (fuel : nat) (m : mem) (pattern src retVal : Z) : res (Z * Z * mem) :=
  match fuel with
  | O => OutOfFuel
  | S fuel' =>
      b ← load8 m src;
      if b =? 0 then Ok (src, retVal, m) else
      hit ← tok_in (walk_fuel m) m pattern b;
      if hit : bool then
        m' ← store8 m src 0; strtok_loop fuel' m' pattern (src + 1) retVal
      else if retVal =? 0 then strtok_loop fuel' m pattern (src + 1) src
      else
        prev ← load8 m (src - 1);
        if prev =? 0 then Ok (src, retVal, m) else strtok_loop fuel' m pattern (src + 1) retVal
  end.

(** The static [nxtTok] is passed in and returned: [(retVal, nxtTok, memory)]. *)
Definition strtok (m : mem) (nxtTok src pattern : Z) : res (Z * Z * mem) :=
  let src := if src =? 0 then nxtTok else src in
  '(src', retVal, m') ← strtok_loop (walk_fuel m) m pattern src 0;
  Ok (retVal, src', m').

(** ** Block operations *)

Lemma memset_loop_spec m c n d :
  mapped m d (Z.of_nat n) ->
  memset_loop m c n d = Ok (write_bytes m d (replicate n (u8 c))).
Proof.
  revert m d. induction n as [|n IH]; intros m d H; [done|].
  cbn [memset_loop replicate]. rewrite (mapped_store8 _ _ _ _ _ H) by lia. res_simpl.
  rewrite (u8_small (u8 c)) by apply u8_range. rewrite IH.
  - by rewrite write_bytes_insert_head.
  - apply mapped_insert. eapply mapped_sub; [exact H | lia | lia].
Qed.

Lemma memset_spec m dest c n :
  mapped m dest (Z.of_nat n) ->
  memset m dest c (Z.of_nat n) = Ok (dest, write_bytes m dest (replicate n (u8 c))).
Proof. intros H. unfold memset. rewrite Nat2Z.id, memset_loop_spec by done. done. Qed.

Lemma copy_up_spec m dest src bs :
  bytes_at m src bs -> Forall byte bs -> mapped m dest (Z.of_nat (length bs)) ->
  dest <= src \/ src + Z.of_nat (length bs) <= dest ->
  copy_up m (length bs) dest src = Ok (write_bytes m dest bs).
Proof.
  revert m dest src. induction bs as [|b bs IH]; intros m dest src Hs Hb Hm Hd; [done|].
  inversion Hb; subst. cbn [copy_up length] in *.
  rewrite (bytes_at_load8 _ _ _ _ Hs). res_simpl.
  rewrite (mapped_store8 _ _ _ _ _ Hm) by lia. res_simpl. rewrite u8_small by done.
  rewrite IH; [by rewrite write_bytes_insert_head | | done | | lia].
  - apply bytes_at_cons in Hs as [_ Hs].
    apply (bytes_at_frame m _ _ _ dest (dest + 1)); [|done|lia].
    intros a Ha. apply lookup_insert_ne. lia.
  - apply mapped_insert. eapply mapped_sub; [exact Hm | lia | lia].
Qed.

Lemma copy_down_spec m dest src bs :
  bytes_at m src bs -> Forall byte bs -> mapped m dest (Z.of_nat (length bs)) ->
  src <= dest \/ dest + Z.of_nat (length bs) <= src ->
  copy_down m (length bs) (dest + Z.of_nat (length bs) - 1) (src + Z.of_nat (length bs) - 1)
  = Ok (write_bytes m dest bs).
Proof.
  revert m. induction bs as [|b bs IH] using rev_ind; intros m Hs Hb Hm Hd; [done|].
  apply Forall_app in Hb as [Hb Hc]. inversion Hc; subst.
  rewrite length_app, Nat.add_comm in *. cbn [copy_down length Nat.add] in *.
  apply bytes_at_app in Hs as [Hs Hl].
  replace (src + Z.of_nat (S (length bs)) - 1) with (src + Z.of_nat (length bs)) by lia.
  rewrite (bytes_at_load8 _ _ _ _ Hl). res_simpl.
  rewrite (mapped_store8 _ _ _ _ _ Hm) by lia. res_simpl. rewrite u8_small by done.
  replace (dest + Z.of_nat (S (length bs)) - 1 - 1) with (dest + Z.of_nat (length bs) - 1) by lia.
  rewrite IH.
  - rewrite write_bytes_app. cbn [write_bytes]. repeat f_equal. lia.
  - eapply (bytes_at_frame m _ _ _ (dest + Z.of_nat (length bs)) (dest + Z.of_nat (length bs) + 1));
      [|exact Hs|lia].
    intros a Ha. apply lookup_insert_ne. lia.
  - done.
  - apply mapped_insert. eapply mapped_sub; [exact Hm | lia | lia].
  - lia.
Qed.

Lemma memcpy_spec m dest src bs :
  bytes_at m src bs -> Forall byte bs -> mapped m dest (Z.of_nat (length bs)) ->
  dest <= src \/ src + Z.of_nat (length bs) <= dest ->
  memcpy m dest src (Z.of_nat (length bs)) = Ok (dest, write_bytes m dest bs).
Proof. intros. unfold memcpy. rewrite Nat2Z.id, copy_up_spec by done. done. Qed.

Lemma memmove_spec m dest src bs :
  bytes_at m src bs -> Forall byte bs -> mapped m dest (Z.of_nat (length bs)) ->
  memmove m dest src (Z.of_nat (length bs)) = Ok (dest, write_bytes m dest bs).
Proof.
  intros Hs Hb Hm. unfold memmove. rewrite Nat2Z.id.
  destruct (Z.ltb_spec src dest); cbn [andb].
  1: destruct (Z.leb_spec dest (src + Z.of_nat (length bs))).
  - rewrite copy_down_spec by (done || lia). done.
  - rewrite copy_up_spec by (done || lia). done.
  - rewrite copy_up_spec by (done || lia). done.
Qed.

(** ** Strings *)

(** Lexicographic order on byte strings. *)
Fixpoint bytes_cmp (s1 s2 : list Z) : comparison :=
  match s1, s2 with
  | [], [] => Eq
  | [], _ :: _ => Lt
  | _ :: _, [] => Gt
  | a :: s1', b :: s2' => match a ?= b with Eq => bytes_cmp s1' s2' | c => c end
  end.

Lemma bytes_cmp_Eq s1 s2 : bytes_cmp s1 s2 = Eq <-> s1 = s2.
Proof.
  revert s2. induction s1 as [|a s1 IH]; intros [|b s2]; cbn; try done.
  destruct (Z.compare_spec a b) as [->| |]; try (split; intros; simplify_eq; lia).
  rewrite IH. split; intros; simplify_eq; done.
Qed.

Lemma sub_compare a b : (a - b ?= 0) = (a ?= b).
Proof. destruct (Z.compare_spec a b), (Z.compare_spec (a - b) 0); lia || done. Qed.

Lemma strlen_loop_spec m p s fuel len :
  cstr m p s -> (length s < fuel)%nat -> 0 <= len -> len + Z.of_nat (length s) < 2 ^ 31 ->
  strlen_loop fuel m p len = Ok (len + Z.of_nat (length s)).
Proof.
  revert p fuel len. induction s as [|b s IH]; intros p [|fuel] len H Hf Hl Hn;
    cbn [length] in *; try lia; cbn [strlen_loop]; rewrite (cstr_head _ _ _ H); res_simpl;
    cbn [hd].
  - cbn. rewrite u64_small by lia. f_equal. lia.
  - apply cstr_cons in H as (_ & Hb & H). destruct (Z.eqb_spec b 0); [lia|]. cbn [negb].
    rewrite s32_small by lia. rewrite (IH _ fuel (len + 1) H) by lia. f_equal. lia.
Qed.

Lemma strlen_spec m p s :
  cstr m p s -> Z.of_nat (length s) < 2 ^ 31 -> strlen m p = Ok (Z.of_nat (length s)).
Proof.
  intros H Hn. unfold strlen. pose proof (cstr_length _ _ _ H). unfold walk_fuel.
  rewrite (strlen_loop_spec _ _ _ _ _ H) by lia. f_equal.
Qed.

Lemma strcpy_loop_spec m dst src s fuel :
  cstr m src s -> mapped m dst (Z.of_nat (length s) + 1) -> (length s < fuel)%nat ->
  src + Z.of_nat (length s) < dst \/ dst + Z.of_nat (length s) < src ->
  strcpy_loop fuel m dst src = Ok (write_bytes m dst (s ++ [0])).
Proof.
  revert m dst src fuel.
  induction s as [|b s IH]; intros m dst src [|fuel] H Hm Hf Hd; cbn [length] in *; try lia;
    cbn [strcpy_loop app]; rewrite (cstr_head _ _ _ H); res_simpl; cbn [hd];
    rewrite (mapped_store8 _ _ _ _ _ Hm) by lia; res_simpl.
  - rewrite (u8_small 0) by lia. unfold load8.
    rewrite lookup_insert_ne, (cstr_nil _ _ H) by lia. done.
  - apply cstr_cons in H as (Hl & Hb & H). rewrite u8_small by lia.
    unfold load8. rewrite lookup_insert_ne, Hl by lia. res_simpl.
    destruct (Z.eqb_spec b 0); [lia|]. cbn [negb].
    rewrite IH; [by rewrite write_bytes_insert_head | | | lia | lia].
    + eapply (cstr_frame m _ _ _ dst (dst + 1)); [|exact H|lia].
      intros a Ha. apply lookup_insert_ne. lia.
    + apply mapped_insert. eapply mapped_sub; [exact Hm | lia | lia].
Qed.

Lemma strcpy_spec m dst src s :
  cstr m src s -> mapped m dst (Z.of_nat (length s) + 1) ->
  src + Z.of_nat (length s) < dst \/ dst + Z.of_nat (length s) < src ->
  strcpy m dst src = Ok (dst, write_bytes m dst (s ++ [0])).
Proof.
  intros H Hm Hd. pose proof (cstr_length _ _ _ H). unfold strcpy, walk_fuel.
  rewrite (strcpy_loop_spec _ _ _ _ _ H) by (done || lia). done.
Qed.

(** What the first [n] bytes at [p] hold as a string: [s] is cut at the first
    NUL, or at [n]. *)
Definition cstrn (m : mem) (p : Z) (n : nat) (s : list Z) : Prop :=
  bytes_at m p s /\ Forall (fun b => 0 < b < 256) s /\
  (length s = n \/ (length s < n)%nat /\ m !! (p + Z.of_nat (length s)) = Some 0).

Lemma cstr_cstrn m p n s : cstr m p s -> cstrn m p n (take n s).
Proof.
  intros [[H H0]%bytes_at_app Hb]. split; [|split].
  - rewrite <- (take_drop n s) in H. by apply bytes_at_app in H as [? _].
  - by apply Forall_take.
  - rewrite length_take. destruct (decide (n <= length s)%nat); [left; lia | right].
    rewrite Nat.min_r by lia. split; [lia|]. by apply bytes_at_cons in H0 as [? _].
Qed.

Lemma cstrn_head m p n s : cstrn m p (S n) s -> load8 m p = Ok (hd 0 s).
Proof.
  intros (H & _ & Hl). unfold load8. destruct s as [|b s]; cbn [hd].
  - destruct Hl as [Hl | [_ Hl]]; [done|]. rewrite Z.add_0_r in Hl. by rewrite Hl.
  - by apply bytes_at_cons in H as [-> _].
Qed.

Lemma cstrn_cons m p n b s :
  cstrn m p (S n) (b :: s) -> 0 < b < 256 /\ cstrn m (p + 1) n s.
Proof.
  intros (H & Hb & Hl). inversion Hb; subst. split; [done|].
  apply bytes_at_cons in H as [_ H]. split; [done|]. split; [done|].
  cbn [length] in Hl. destruct Hl as [Hl | [Hl H0]]; [left | right]; [lia|].
  split; [lia|]. rewrite <- H0. f_equal. lia.
Qed.

(** strncmp and strncasecmp compare through a key [f] of the bytes. *)
Section strn.
Context (f : Z -> Z) (Hf0 : f 0 = 0) (Hf : forall b, 0 < b < 256 -> 0 < f b).

Lemma strn_loop_spec m n p1 p2 s1 s2 :
  cstrn m p1 (S n) s1 -> cstrn m p2 (S n) s2 ->
  exists r, strn_loop (fun a b => f a =? f b) (fun a b => f a - f b) m (S n) p1 p2 = Ok r
    /\ (r ?= 0) = bytes_cmp (f <$> s1) (f <$> s2).
Proof using Hf0 Hf.
  revert p1 p2 s1 s2. induction n as [|n IH]; intros p1 p2 s1 s2 H1 H2;
    cbn [strn_loop]; rewrite (cstrn_head _ _ _ _ H1), (cstrn_head _ _ _ _ H2); res_simpl;
    (destruct s1 as [|a s1]; [|apply cstrn_cons in H1 as (Ha & H1)]);
    (destruct s2 as [|b s2]; [|apply cstrn_cons in H2 as (Hb & H2)]);
    cbn [hd fmap list_fmap bytes_cmp];
    repeat match goal with |- context [?x =? 0] => destruct (Z.eqb_spec x 0); [try lia|try lia] end;
    try (eexists; split; [done|]; rewrite sub_compare, ?Hf0;
         first [apply Z.compare_lt_iff; solve [auto] | apply Z.compare_gt_iff; solve [auto] | done]).
  - eexists. split; [done|]. rewrite sub_compare.
    destruct H1 as (_ & _ & [H1 | [H1 _]]); [|lia].
    destruct H2 as (_ & _ & [H2 | [H2 _]]); [|lia].
    apply nil_length_inv in H1, H2. subst. cbn. by destruct (f a ?= f b).
  - destruct (Z.eqb_spec (f a) (f b)) as [E|E].
    + rewrite E, Z.compare_refl. by apply IH.
    + eexists. split; [done|]. rewrite sub_compare.
      destruct (Z.compare_spec (f a) (f b)); done.
Qed.
End strn.

Lemma strncmp_spec m p1 p2 n s1 s2 :
  cstrn m p1 n s1 -> cstrn m p2 n s2 ->
  exists r, strncmp m p1 p2 (Z.of_nat n) = Ok r /\ (r ?= 0) = bytes_cmp s1 s2.
Proof.
  intros H1 H2. unfold strncmp. destruct (Z.ltb_spec (Z.of_nat n) 1) as [Hn|Hn].
  - exists 0. split; [done|].
    destruct H1 as (_ & _ & [H1 | [H1 _]]); [|lia].
    destruct H2 as (_ & _ & [H2 | [H2 _]]); [|lia].
    rewrite (nil_length_inv s1), (nil_length_inv s2) by lia. done.
  - destruct n as [|n]; [lia|]. rewrite Nat2Z.id.
    destruct (strn_loop_spec id eq_refl ltac:(unfold id; lia) m n p1 p2 s1 s2 H1 H2) as (r & E & C).
    exists r. split; [exact E|]. by rewrite !list_fmap_id in C.
Qed.

Lemma toupper_0 : toupper 0 = 0.
Proof. done. Qed.

Lemma toupper_pos b : 0 < b < 256 -> 0 < toupper b.
Proof.
  intros. unfold toupper. destruct (Z.leb_spec 97 b); cbn [andb]; [|lia].
  destruct (_ <=? 122); lia.
Qed.

Lemma strncasecmp_spec m p1 p2 n s1 s2 :
  cstrn m p1 n s1 -> cstrn m p2 n s2 ->
  exists r, strncasecmp m p1 p2 (Z.of_nat n) = Ok r /\
    (r ?= 0) = bytes_cmp (toupper <$> s1) (toupper <$> s2).
Proof.
  intros H1 H2. unfold strncasecmp. destruct (Z.ltb_spec (Z.of_nat n) 1) as [Hn|Hn].
  - exists 0. split; [done|].
    destruct H1 as (_ & _ & [H1 | [H1 _]]); [|lia].
    destruct H2 as (_ & _ & [H2 | [H2 _]]); [|lia].
    rewrite (nil_length_inv s1), (nil_length_inv s2) by lia. done.
  - destruct n as [|n]; [lia|]. rewrite Nat2Z.id.
    apply (strn_loop_spec toupper toupper_0 toupper_pos); done.
Qed.

Lemma strcmp_loop_spec m p1 p2 s1 s2 fuel :
  cstr m p1 s1 -> cstr m p2 s2 -> (length s1 < fuel)%nat ->
  exists r, strcmp_loop fuel m p1 p2 = Ok r /\ (r ?= 0) = bytes_cmp s1 s2.
Proof.
  revert p1 p2 s2 fuel. induction s1 as [|a s1 IH]; intros p1 p2 s2 [|fuel] H1 H2 Hf;
    cbn [length] in Hf; try lia; cbn [strcmp_loop];
    rewrite (cstr_head _ _ _ H1), (cstr_head _ _ _ H2); res_simpl; cbn [hd].
  - exists (0 - hd 0 s2). split; [done|]. rewrite sub_compare. destruct s2 as [|b s2]; [done|].
    apply cstr_cons in H2 as (_ & Hb & _). cbn [hd bytes_cmp]. apply Z.compare_lt_iff; lia.
  - apply cstr_cons in H1 as (_ & Ha & H1). destruct (Z.eqb_spec a 0); [lia|].
    destruct s2 as [|b s2]; cbn [hd].
    + exists (a - 0). split; [done|]. rewrite sub_compare. apply Z.compare_gt_iff; lia.
    + apply cstr_cons in H2 as (_ & Hb & H2). destruct (Z.eqb_spec b 0); [lia|]. cbn [orb].
      destruct (Z.eqb_spec a b) as [->|E]; cbn [negb bytes_cmp].
      * rewrite Z.compare_refl. apply IH; [done..|lia].
      * exists (a - b). split; [done|]. rewrite sub_compare.
        destruct (Z.compare_spec a b); done.
Qed.

Lemma strcasecmp_loop_spec m p1 p2 s1 s2 fuel :
  cstr m p1 s1 -> cstr m p2 s2 -> (length s1 < fuel)%nat ->
  exists r, strcasecmp_loop fuel m p1 p2 = Ok r /\
    (r = 0 <-> (toupper <$> s1) = (toupper <$> s2)).
Proof.
  revert p1 p2 s2 fuel. induction s1 as [|a s1 IH]; intros p1 p2 s2 [|fuel] H1 H2 Hf;
    cbn [length] in Hf; try lia; cbn [strcasecmp_loop];
    rewrite (cstr_head _ _ _ H1), (cstr_head _ _ _ H2); res_simpl; cbn [hd].
  - exists (0 - hd 0 s2). split; [done|]. destruct s2 as [|b s2]; [done|].
    apply cstr_cons in H2 as (_ & Hb & _). cbn [hd fmap list_fmap]. split; [lia | done].
  - apply cstr_cons in H1 as (_ & Ha & H1). destruct (Z.eqb_spec a 0); [lia|].
    destruct s2 as [|b s2]; cbn [hd].
    + exists (a - 0). split; [done|]. cbn. split; [lia | done].
    + apply cstr_cons in H2 as (_ & Hb & H2). destruct (Z.eqb_spec b 0); [lia|]. cbn [orb].
      cbn [fmap list_fmap]. destruct (Z.eqb_spec (toupper a) (toupper b)) as [E|E]; cbn [negb].
      * destruct (IH (p1 + 1) (p2 + 1) s2 fuel H1 H2 ltac:(lia)) as (r & Hr & Hiff).
        exists r. split; [done|]. rewrite Hiff, E. split; intros G; [f_equal; exact G | injection G; auto].
      * exists (a - b). split; [done|]. split; intros G; [|simplify_eq].
        replace b with a in E by lia. done.
Qed.

Lemma strcmp_spec m p1 p2 s1 s2 :
  cstr m p1 s1 -> cstr m p2 s2 ->
  exists r, strcmp m p1 p2 = Ok r /\ (r ?= 0) = bytes_cmp s1 s2.
Proof.
  intros H1 H2. pose proof (cstr_length _ _ _ H1). unfold strcmp, walk_fuel.
  apply strcmp_loop_spec; [done | done | lia].
Qed.

Lemma strncpy_loop_spec m n dst src s :
  cstr m src s -> mapped m dst (Z.of_nat n) ->
  src + Z.of_nat (length s) < dst \/ dst + Z.of_nat n <= src ->
  strncpy_loop m n dst src = Ok (write_bytes m dst (take n (s ++ replicate n 0))).
Proof.
  revert m dst src s. induction n as [|n IH]; intros m dst src s H Hm Hd;
    cbn [strncpy_loop]; rewrite (cstr_head _ _ _ H); res_simpl; [by rewrite take_0|].
  destruct s as [|b s]; cbn [hd app].
  - cbn [Z.eqb negb].
    rewrite take_ge by (rewrite length_replicate; lia).
    by rewrite (memset_loop_spec m 0 (S n) dst Hm).
  - cbn [length] in Hd. apply cstr_cons in H as (_ & Hb & H).
    destruct (Z.eqb_spec b 0); [lia|]. cbn [negb take].
    rewrite (mapped_store8 _ _ _ _ _ Hm) by lia. res_simpl. rewrite u8_small by lia.
    rewrite (IH _ _ _ s).
    + rewrite write_bytes_insert_head. do 3 f_equal.
      rewrite replicate_S_end, app_assoc. symmetry. apply take_app_le.
      rewrite length_app, length_replicate. lia.
    + eapply (cstr_frame m _ _ _ dst (dst + 1)); [|exact H|lia].
      intros a Ha. apply lookup_insert_ne. lia.
    + apply mapped_insert. eapply mapped_sub; [exact Hm | lia | lia].
    + lia.
Qed.

(** ** strstr *)

Definition prefix_at (k : nat) (needle hay : list Z) : Prop :=
  take (length needle) (drop k hay) = needle.

Lemma bytes_cmp_prefix needle s : bytes_cmp (take (length needle) s) needle = Eq <->
  take (length needle) s = needle.
Proof. apply bytes_cmp_Eq. Qed.

Lemma strstr_loop_spec m hay needle h n :
  cstr m hay h -> cstr m needle n ->
  forall k, (k <= length h)%nat ->
  (forall j, (j < length h - k)%nat -> ~ prefix_at j n h) ->
  exists r, strstr_loop m needle (Z.of_nat (length n)) k (hay + Z.of_nat (length h - k)) = Ok r /\
  ((exists j, (j < length h)%nat /\ r = hay + Z.of_nat j /\ prefix_at j n h /\
      forall i, (i < j)%nat -> ~ prefix_at i n h) \/
   r = 0 /\ forall j, (j < length h)%nat -> ~ prefix_at j n h).
Proof.
  intros Hh Hn. induction k as [|k IH]; intros Hk Hno; cbn [strstr_loop].
  { exists 0. split; [done|]. right. split; [done|]. intros j Hj. apply Hno. lia. }
  destruct (strncmp_spec m (hay + Z.of_nat (length h - S k)) needle (length n)
              (take (length n) (drop (length h - S k) h)) (take (length n) n)) as (r & E & C).
  - apply cstr_cstrn, cstr_drop; [lia | done].
  - by apply cstr_cstrn.
  - rewrite (take_ge n) in C by lia. rewrite E. res_simpl.
    destruct (Z.eqb_spec r 0) as [->|Hr].
    + eexists. split; [done|]. left. exists (length h - S k)%nat.
      split; [lia|]. split; [done|]. split; [|done].
      apply bytes_cmp_prefix. by rewrite <- C.
    + replace (hay + Z.of_nat (length h - S k) + 1) with (hay + Z.of_nat (length h - k)) by lia.
      apply IH; [lia|]. intros j Hj.
      destruct (decide (j = length h - S k)%nat) as [->|]; [|apply Hno; lia].
      intros Hp%bytes_cmp_prefix. rewrite Hp in C. by apply Z.compare_eq_iff in C.
Qed.

(** ** strtok *)

Lemma tok_in_spec m pp pat b fuel :
  cstr m pp pat -> (length pat < fuel)%nat -> tok_in fuel m pp b = Ok (bool_decide (b ∈ pat)).
Proof.
  revert pp fuel. induction pat as [|c pat IH]; intros pp [|fuel] H Hf;
    cbn [length] in Hf; try lia; cbn [tok_in]; rewrite (cstr_head _ _ _ H); res_simpl; cbn [hd].
  - rewrite bool_decide_eq_false_2; [done|]. apply not_elem_of_nil.
  - apply cstr_cons in H as (_ & Hc & H). destruct (Z.eqb_spec c 0); [lia|].
    destruct (Z.eqb_spec c b) as [->|Hne].
    + rewrite bool_decide_eq_true_2; [done|]. by left.
    + rewrite (IH _ _ H) by lia. f_equal. apply bool_decide_ext. rewrite elem_of_cons.
      split; [by right | intros [->|]; done].
Qed.

(** The delimiters at [pattern] lie apart from the string of [n] bytes and its
    NUL at [src]. *)
Definition apart (pattern : Z) (pat : list Z) (src : Z) (n : nat) : Prop :=
  pattern + Z.of_nat (length pat) < src \/ src + Z.of_nat n < pattern.

Section strtok.
Context (pattern : Z) (pat : list Z).

Implicit Types s d t r : list Z.

#[local] Abbreviation delims d := (Forall (fun b => b ∈ pat) d).
#[local] Abbreviation token t := (Forall (fun b => b ∉ pat) t).

Lemma tok_in_walk m b : cstr m pattern pat ->
  tok_in (walk_fuel m) m pattern b = Ok (bool_decide (b ∈ pat)).
Proof.
  intros H. apply tok_in_spec; [done|]. unfold walk_fuel.
  pose proof (cstr_length _ _ _ H). lia.
Qed.

Lemma cstr_zero m src b s p q n :
  cstr m p q -> (p + Z.of_nat (length q) < src \/ src < p) ->
  cstr m src (b :: s) -> n = 0 ->
  cstr (<[src := n]> m) p q /\ cstr (<[src := n]> m) (src + 1) s.
Proof.
  intros Hp Hd (_ & _ & H)%cstr_cons ->.
  split; eapply (cstr_frame m _ _ _ src (src + 1)); try done; try lia;
    intros a Ha; apply lookup_insert_ne; lia.
Qed.

(** After the token: skip the delimiters [d]. *)
Lemma strtok_skip m src retVal d r fuel :
  cstr m pattern pat -> cstr m src (d ++ r) -> apart pattern pat src (length (d ++ r)) ->
  delims d -> (r = [] \/ exists b r', r = b :: r' /\ b ∉ pat) ->
  m !! (src - 1) = Some 0 -> retVal <> 0 -> (length (d ++ r) < fuel)%nat ->
  strtok_loop fuel m pattern src retVal =
    Ok (src + Z.of_nat (length d), retVal, write_bytes m src (replicate (length d) 0)).
Proof.
  revert m src fuel. induction d as [|b d IH]; intros m src [|fuel] Hp Hs Ha Hd Hr H0 Hv Hf;
    cbn [length app] in *; try lia; cbn [strtok_loop]; rewrite (cstr_head _ _ _ Hs); res_simpl.
  - destruct Hr as [-> | (b & r' & -> & Hb)]; cbn [hd].
    { cbn. by rewrite Z.add_0_r. }
    pose proof (cstr_cons _ _ _ _ Hs) as (_ & Hb0 & _). destruct (Z.eqb_spec b 0); [lia|].
    rewrite (tok_in_walk _ _ Hp). res_simpl. rewrite bool_decide_eq_false_2 by done.
    destruct (Z.eqb_spec retVal 0); [done|]. unfold load8. rewrite H0. res_simpl. cbn.
    by rewrite Z.add_0_r.
  - inversion Hd; subst. cbn [hd]. pose proof (cstr_cons _ _ _ _ Hs) as (Hl & Hb0 & _).
    destruct (Z.eqb_spec b 0); [lia|].
    rewrite (tok_in_walk _ _ Hp). res_simpl. rewrite bool_decide_eq_true_2 by done.
    unfold store8. rewrite Hl. res_simpl. rewrite (u8_small 0) by lia.
    unfold apart in *. destruct (cstr_zero m src b _ pattern pat 0 Hp ltac:(lia) Hs eq_refl) as [Hp' Hs'].
    rewrite (IH (<[src:=0]> m)) by (done || lia || (rewrite Z.add_simpl_r; apply lookup_insert_eq)).
    rewrite write_bytes_insert_head. cbn [replicate]. do 3 f_equal. lia.
Qed.

(** Inside the token [t]. *)
Lemma strtok_token m src retVal t d r fuel c :
  cstr m pattern pat -> cstr m src (t ++ d ++ r) ->
  apart pattern pat src (length (t ++ d ++ r)) ->
  token t -> delims d -> (r = [] \/ d <> [] /\ exists b r', r = b :: r' /\ b ∉ pat) ->
  m !! (src - 1) = Some c -> c <> 0 -> retVal <> 0 -> (length (t ++ d ++ r) < fuel)%nat ->
  strtok_loop fuel m pattern src retVal =
    Ok (src + Z.of_nat (length t) + Z.of_nat (length d), retVal,
        write_bytes m (src + Z.of_nat (length t)) (replicate (length d) 0)).
Proof.
  revert m src fuel c. induction t as [|b t IH]; intros m src [|fuel] c Hp Hs Ha Ht Hd Hr H0 Hc Hv Hf;
    cbn [length app] in *; try lia; cbn [strtok_loop]; rewrite (cstr_head _ _ _ Hs); res_simpl.
  - rewrite Z.add_0_r. destruct d as [|b d].
    { destruct Hr as [-> | [? _]]; [|done]. cbn. by rewrite Z.add_0_r. }
    inversion Hd; subst. cbn [hd app length] in *.
    pose proof (cstr_cons _ _ _ _ Hs) as (Hl & Hb0 & _). destruct (Z.eqb_spec b 0); [lia|].
    rewrite (tok_in_walk _ _ Hp). res_simpl. rewrite bool_decide_eq_true_2 by done.
    unfold store8. rewrite Hl. res_simpl. rewrite (u8_small 0) by lia.
    unfold apart in *. destruct (cstr_zero m src b _ pattern pat 0 Hp ltac:(lia) Hs eq_refl) as [Hp' Hs'].
    rewrite (strtok_skip _ (src + 1) retVal d r); try done; try lia.
    + rewrite write_bytes_insert_head. cbn [replicate]. do 3 f_equal. lia.
    + unfold apart. lia.
    + destruct Hr as [-> | [_ Hr]]; [by left | by right].
    + rewrite Z.add_simpl_r. apply lookup_insert_eq.
  - inversion Ht; subst. cbn [hd]. pose proof (cstr_cons _ _ _ _ Hs) as (Hl & Hb0 & Hs').
    destruct (Z.eqb_spec b 0); [lia|].
    rewrite (tok_in_walk _ _ Hp). res_simpl. rewrite bool_decide_eq_false_2 by done.
    destruct (Z.eqb_spec retVal 0); [done|]. unfold load8. rewrite H0. res_simpl.
    destruct (Z.eqb_spec c 0); [done|]. unfold apart in *.
    rewrite (IH _ (src + 1) fuel b) by (done || lia || (rewrite Z.add_simpl_r; done)).
    replace (src + 1 + Z.of_nat (length t)) with (src + Z.of_nat (S (length t))) by lia. done.
Qed.

Lemma strtok_loop_spec m src d1 t d2 r fuel :
  0 < src -> cstr m pattern pat -> cstr m src (d1 ++ t ++ d2 ++ r) ->
  apart pattern pat src (length (d1 ++ t ++ d2 ++ r)) ->
  delims d1 -> token t -> delims d2 ->
  (t = [] -> d2 = [] /\ r = []) ->
  (r = [] \/ d2 <> [] /\ exists b r', r = b :: r' /\ b ∉ pat) ->
  (length (d1 ++ t ++ d2 ++ r) < fuel)%nat ->
  let tok := src + Z.of_nat (length d1) in
  strtok_loop fuel m pattern src 0 =
    Ok (tok + Z.of_nat (length t) + Z.of_nat (length d2), if decide (t = []) then 0 else tok,
        write_bytes (write_bytes m src (replicate (length d1) 0))
          (tok + Z.of_nat (length t)) (replicate (length d2) 0)).
Proof.
  revert m src fuel. induction d1 as [|b d1 IH];
    intros m src [|fuel] Hsrc Hp Hs Ha Hd1 Ht Hd2 Ht0 Hr Hf; cbn [length app] in *; try lia;
    cbn [strtok_loop]; rewrite (cstr_head _ _ _ Hs); res_simpl.
  - rewrite Z.add_0_r. cbn [replicate write_bytes]. destruct t as [|b t].
    { destruct (Ht0 eq_refl) as [-> ->]. cbn. by rewrite !Z.add_0_r. }
    inversion Ht; subst. cbn [hd app length] in *. pose proof (cstr_cons _ _ _ _ Hs) as (Hl & Hb0 & Hs').
    destruct (Z.eqb_spec b 0); [lia|].
    rewrite (tok_in_walk _ _ Hp). res_simpl. rewrite bool_decide_eq_false_2 by done.
    unfold apart in *. cbn [Z.eqb]. rewrite decide_False by done.
    rewrite (strtok_token m (src + 1) src t d2 r fuel b) by
      (done || lia || (unfold apart; lia) || (rewrite Z.add_simpl_r; done)).
    replace (src + 1 + Z.of_nat (length t)) with (src + Z.of_nat (S (length t))) by lia. done.
  - inversion Hd1; subst. cbn [hd]. pose proof (cstr_cons _ _ _ _ Hs) as (Hl & Hb0 & _).
    destruct (Z.eqb_spec b 0); [lia|].
    rewrite (tok_in_walk _ _ Hp). res_simpl. rewrite bool_decide_eq_true_2 by done.
    unfold store8. rewrite Hl. res_simpl. rewrite (u8_small 0) by lia.
    unfold apart in *. destruct (cstr_zero m src b _ pattern pat 0 Hp ltac:(lia) Hs eq_refl) as [Hp' Hs'].
    rewrite (IH (<[src:=0]> m) (src + 1)) by (done || lia).
    rewrite write_bytes_insert_head. cbn [replicate].
    replace (src + 1 + Z.of_nat (length d1)) with (src + Z.of_nat (S (length d1))) by lia. done.
Qed.
End strtok.

(** ** Termination *)

Ltac loop_out H := repeat match type of H with
  | context [if ?b then _ else _] => destruct b eqn:?
  | Ok _ = OutOfFuel => discriminate H
  | Fault = OutOfFuel => discriminate H
  end.

(** Every turn of a loop that runs out of fuel has read through its pointer. *)
Lemma out_of_fuel_bind {A B} (r : res A) (k : A -> res B) :
  terminates r -> (r ≫= k) = OutOfFuel -> exists a, r = Ok a /\ k a = OutOfFuel.
Proof. unfold terminates. destruct r; res_simpl; intros; try done. eauto. Qed.

Ltac out_step H b Hb :=
  apply out_of_fuel_bind in H as (b & Hb & H); [|solve [auto]].

Lemma strlen_terminates m s : terminates (strlen m s).
Proof.
  apply (walk_ends m fst (fun _ => True) (fun n x => strlen_loop n m (fst x) (snd x))) with (x := (s, 0));
    [|done].
  intros n [p len] _ H. cbn [fst snd strlen_loop] in *. out_step H b Hb. loop_out H.
  split; [by eapply load8_is_Some|]. by exists (p + 1, s32 (len + 1)).
Qed.

Lemma strchr_terminates m s c : terminates (strchr m s c).
Proof.
  apply (walk_ends m id (fun _ => True) (fun n p => strchr_loop n m p (u8 c))); [|done].
  intros n p _ H. cbn [strchr_loop] in *. out_step H b Hb. loop_out H.
  split; [by eapply load8_is_Some|]. by exists (p + 1).
Qed.

Lemma tok_in_terminates m pp b : terminates (tok_in (walk_fuel m) m pp b).
Proof.
  apply (walk_ends m id (fun _ => True) (fun n p => tok_in n m p b)); [|done].
  intros n p _ H. cbn [tok_in] in *. out_step H c Hc. loop_out H.
  split; [by eapply load8_is_Some|]. by exists (p + 1).
Qed.

Lemma strcmp_terminates m s1 s2 : terminates (strcmp m s1 s2).
Proof.
  apply (walk_ends m fst (fun _ => True) (fun n x => strcmp_loop n m (fst x) (snd x)))
    with (x := (s1, s2)); [|done].
  intros n [p q] _ H. cbn [fst snd strcmp_loop] in *. out_step H b Hb. loop_out H;
    out_step H c Hc; loop_out H.
  split; [by eapply load8_is_Some|]. by exists (p + 1, q + 1).
Qed.

Lemma strcasecmp_terminates m s1 s2 : terminates (strcasecmp m s1 s2).
Proof.
  apply (walk_ends m fst (fun _ => True) (fun n x => strcasecmp_loop n m (fst x) (snd x)))
    with (x := (s1, s2)); [|done].
  intros n [p q] _ H. cbn [fst snd strcasecmp_loop] in *. out_step H b Hb. loop_out H;
    out_step H c Hc; loop_out H.
  split; [by eapply load8_is_Some|]. by exists (p + 1, q + 1).
Qed.

Lemma strn_loop_terminates same fin m n s1 s2 : terminates (strn_loop same fin m n s1 s2).
Proof.
  revert s1 s2. induction n as [|n IH]; intros s1 s2; cbn [strn_loop];
    (apply terminates_bind; [auto | intros b1 _]); destruct (_ =? 0);
    (apply terminates_bind; [auto | intros b2 _]); try done; destruct (_ =? 0); try done.
  destruct n; [done|]. destruct (same b1 b2); [apply IH | done].
Qed.

Lemma strncmp_terminates m s1 s2 n : terminates (strncmp m s1 s2 n).
Proof. unfold strncmp. destruct (_ <? _); [done | apply strn_loop_terminates]. Qed.

Lemma strncasecmp_terminates m s1 s2 n : terminates (strncasecmp m s1 s2 n).
Proof. unfold strncasecmp. destruct (_ <? _); [done | apply strn_loop_terminates]. Qed.

Lemma strcpy_terminates m dst src : terminates (strcpy m dst src).
Proof.
  unfold strcpy. apply terminates_bind; [|done].
  apply (walk_ends m (fun x => snd x) (fun x => dom (fst (fst x)) = dom m)
           (fun n x => strcpy_loop n (fst (fst x)) (snd (fst x)) (snd x)))
    with (x := (m, dst, src)); [|done].
  intros n [[m1 d] p] Hd H. cbn [fst snd strcpy_loop] in *.
  out_step H b Hb. out_step H m2 Hm2. out_step H c Hc. loop_out H. split.
  - eapply same_dom_is_Some; [exact Hd|]. by eapply load8_is_Some.
  - exists (m2, d + 1, p + 1). cbn. apply store8_dom in Hm2. by rewrite Hm2.
Qed.

Lemma strcat_terminates m dst src : terminates (strcat m dst src).
Proof.
  unfold strcat. apply terminates_bind; [apply strlen_terminates | intros len _].
  apply terminates_bind; [apply strcpy_terminates | intros [d m'] _; done].
Qed.

Lemma strrchr_terminates m s c : terminates (strrchr m s c).
Proof.
  unfold strrchr. apply terminates_bind; [apply strlen_terminates | intros len _].
  induction (Z.to_nat len) as [|k IH]; [done|]. cbn [strrchr_loop].
  apply terminates_bind; [auto | intros b _]. by destruct (_ =? _).
Qed.

Lemma strstr_terminates m hay needle : terminates (strstr m hay needle).
Proof.
  unfold strstr. destruct (_ || _); [done|].
  apply terminates_bind; [apply strlen_terminates | intros h _].
  apply terminates_bind; [apply strlen_terminates | intros n _].
  destruct (_ <? _); [done|]. generalize (u64 (s32 n)) as nl, hay as pos. intros nl.
  induction (Z.to_nat (s32 h)) as [|k IH]; intros pos; [done|]. cbn [strstr_loop].
  apply terminates_bind; [apply strncmp_terminates | intros d _]. by destruct (_ =? _).
Qed.

Lemma strtok_terminates m nxt src pattern : terminates (strtok m nxt src pattern).
Proof.
  unfold strtok. apply terminates_bind; [|by intros [[]]]. cbv zeta.
  generalize (if src =? 0 then nxt else src) as p. intros p0.
  apply (walk_ends m (fun x => snd (fst x)) (fun x => dom (fst (fst x)) = dom m)
           (fun n x => strtok_loop n (fst (fst x)) pattern (snd (fst x)) (snd x)))
    with (x := (m, p0, 0)); [|done].
  intros n [[m1 p] r] Hd H. cbn [fst snd strtok_loop] in *.
  apply out_of_fuel_bind in H as (b & Hb & H); [|auto].
  assert (Hp : is_Some (m !! p)).
  { eapply same_dom_is_Some; [exact Hd|]. by eapply load8_is_Some. }
  split; [exact Hp|]. destruct (b =? 0); [discriminate|].
  apply out_of_fuel_bind in H as (hit & Hhit & H); [|apply tok_in_terminates].
  destruct hit.
  - out_step H m2 Hm2. exists (m2, p + 1, r). cbn. apply store8_dom in Hm2. by rewrite Hm2.
  - destruct (r =? 0); [by exists (m1, p + 1, p)|].
    out_step H prev Hprev. destruct (prev =? 0); [discriminate|]. by exists (m1, p + 1, r).
Qed.

(** ** Searching for a character *)

Lemma strchr_loop_spec m p s c fuel :
  cstr m p s -> (length s < fuel)%nat -> 0 < c < 256 ->
  exists r, strchr_loop fuel m p c = Ok r /\
    (r = 0 /\ c ∉ s \/ exists k, r = p + Z.of_nat k /\ s !! k = Some c /\ c ∉ take k s).
Proof.
  revert p fuel. induction s as [|b s IH]; intros p [|fuel] H Hf Hc; cbn [length] in Hf;
    try lia; cbn [strchr_loop]; rewrite (cstr_head _ _ _ H); res_simpl; cbn [hd].
  - exists 0. split; [done|]. left. split; [done | apply not_elem_of_nil].
  - apply cstr_cons in H as (_ & Hb & H). destruct (Z.eqb_spec b 0); [lia|]. cbn [negb].
    destruct (Z.eqb_spec b c) as [->|Hne].
    + exists p. split; [done|]. right. exists 0%nat. split; [lia|]. split; [done | apply not_elem_of_nil].
    + destruct (IH (p + 1) fuel H ltac:(lia) Hc) as (r & E & [[-> Hn] | (k & -> & Hk & Hn)]);
        eexists; (split; [exact E|]).
      * left. split; [done|]. rewrite elem_of_cons. intros [->|]; done.
      * right. exists (S k). split; [lia|]. split; [done|]. cbn [take]. rewrite elem_of_cons.
        intros [->|]; done.
Qed.

Lemma strrchr_loop_spec m p s c k :
  cstr m p s -> (k <= length s)%nat ->
  exists r, strrchr_loop m p c k = Ok r /\
    (r = 0 /\ c ∉ take k s \/
     exists j, (j < k)%nat /\ r = p + Z.of_nat j /\ s !! j = Some c /\
       forall i, (j < i < k)%nat -> s !! i <> Some c).
Proof.
  intros H. induction k as [|k IH]; intros Hk; cbn [strrchr_loop].
  { exists 0. split; [done|]. left. split; [done | apply not_elem_of_nil]. }
  destruct (lookup_lt_is_Some_2 s k) as [b Hb]; [lia|].
  unfold load8. rewrite (cstr_load _ _ _ _ _ H Hb). res_simpl.
  destruct (Z.eqb_spec b c) as [->|Hne].
  - eexists. split; [done|]. right. exists k. split; [lia|]. split; [done|]. split; [done|]. lia.
  - destruct (IH ltac:(lia)) as (r & E & [[-> Hn] | (j & Hj & -> & Hl & Hn)]);
      eexists; (split; [exact E|]).
    + left. split; [done|]. rewrite (take_S_r _ _ _ Hb), elem_of_app.
      intros [? | ->%list_elem_of_singleton]; done.
    + right. exists j. split; [lia|]. split; [done|]. split; [done|]. intros i Hi.
      destruct (decide (i = k)) as [->|]; [rewrite Hb; congruence | apply Hn; lia].
Qed.

Lemma memchr_loop_spec m p bs c :
  bytes_at m p bs ->
  exists r, memchr_loop m c (length bs) p = Ok r /\
    (r = 0 /\ c ∉ bs \/ exists k, r = p + Z.of_nat k /\ bs !! k = Some c /\ c ∉ take k bs).
Proof.
  revert p. induction bs as [|b bs IH]; intros p H; cbn [length memchr_loop].
  { exists 0. split; [done|]. left. split; [done | apply not_elem_of_nil]. }
  rewrite (bytes_at_load8 _ _ _ _ H). res_simpl. apply bytes_at_cons in H as [_ H].
  destruct (Z.eqb_spec b c) as [->|Hne].
  - exists p. split; [done|]. right. exists 0%nat. split; [lia|]. split; [done | apply not_elem_of_nil].
  - destruct (IH (p + 1) H) as (r & E & [[-> Hn] | (k & -> & Hk & Hn)]); eexists; (split; [exact E|]).
    + left. split; [done|]. rewrite elem_of_cons. intros [->|]; done.
    + right. exists (S k). split; [lia|]. split; [done|]. cbn [take]. rewrite elem_of_cons.
      intros [->|]; done.
Qed.

Lemma memcmp_loop_spec m p1 p2 b1 b2 :
  bytes_at m p1 b1 -> bytes_at m p2 b2 -> length b1 = length b2 ->
  exists r, memcmp_loop m (length b1) p1 p2 = Ok r /\ (r ?= 0) = bytes_cmp b1 b2.
Proof.
  revert p1 p2 b2. induction b1 as [|a b1 IH]; intros p1 p2 [|b b2] H1 H2 Hl; cbn [length] in *;
    try lia; cbn [memcmp_loop bytes_cmp]; [by exists 0|].
  rewrite (bytes_at_load8 _ _ _ _ H1), (bytes_at_load8 _ _ _ _ H2). res_simpl.
  apply bytes_at_cons in H1 as [_ H1]. apply bytes_at_cons in H2 as [_ H2].
  destruct (Z.eqb_spec a b) as [->|Hne]; cbn [negb].
  - rewrite Z.compare_refl. apply IH; [done | done | lia].
  - exists (a - b). split; [done|]. rewrite sub_compare. by destruct (Z.compare_spec a b).
Qed.

(** ** The properties of the string library *)

(** C40: memmove copies the old contents of the source block, whatever the
    overlap of the two blocks, changes nothing else and returns [dest]. *)
Theorem memmove_correct m dest src bs :
  bytes_at m src bs -> Forall byte bs -> mapped m dest (Z.of_nat (length bs)) ->
  memmove m dest src (Z.of_nat (length bs)) = Ok (dest, write_bytes m dest bs).
Proof. apply memmove_spec. Qed.


(** strcmp, strncmp, strncasecmp and memcmp return a value whose sign is the
    lexicographic order of the two strings: whole, cut at [n] bytes, cut and
    read in upper case, and of the two blocks.  strcasecmp returns 0 exactly
    when the strings are equal up to case. *)
Theorem compare_order m p1 p2 s1 s2 n b1 b2 :
  cstr m p1 s1 -> cstr m p2 s2 -> bytes_at m p1 b1 -> bytes_at m p2 b2 -> length b1 = length b2 ->
  (exists r, strcmp m p1 p2 = Ok r /\ (r ?= 0) = bytes_cmp s1 s2) /\
  (exists r, strncmp m p1 p2 (Z.of_nat n) = Ok r /\ (r ?= 0) = bytes_cmp (take n s1) (take n s2)) /\
  (exists r, strncasecmp m p1 p2 (Z.of_nat n) = Ok r /\
     (r ?= 0) = bytes_cmp (toupper <$> take n s1) (toupper <$> take n s2)) /\
  (exists r, memcmp m p1 p2 (Z.of_nat (length b1)) = Ok r /\ (r ?= 0) = bytes_cmp b1 b2) /\
  (exists r, strcasecmp m p1 p2 = Ok r /\ (r = 0 <-> toupper <$> s1 = toupper <$> s2)).
Proof.
  intros H1 H2 B1 B2 Hl. split; [|split; [|split; [|split]]].
  - by apply strcmp_spec.
  - apply strncmp_spec; by apply cstr_cstrn.
  - apply strncasecmp_spec; by apply cstr_cstrn.
  - unfold memcmp. rewrite Nat2Z.id. by apply memcmp_loop_spec.
  - apply strcasecmp_loop_spec; [done | done |]. unfold walk_fuel.
    pose proof (cstr_length _ _ _ H1). lia.
Qed.

(** Strcpy and strcat leave the NUL-terminated copy (after the old contents
    for strcat) and strncpy exactly [n] bytes, cut or filled up with NULs, at
    the destination and change nothing else, for blocks that do not overlap. *)
Theorem copy_strings m dst src s d n :
  cstr m src s -> cstr m dst d -> Z.of_nat (length d) < 2 ^ 31 ->
  mapped m dst (Z.of_nat n) -> Z.of_nat (length d) + Z.of_nat (length s) < Z.of_nat n ->
  src + Z.of_nat (length s) < dst \/ dst + Z.of_nat n <= src ->
  strcpy m dst src = Ok (dst, write_bytes m dst (s ++ [0])) /\
  strcat m dst src = Ok (dst, write_bytes m (dst + Z.of_nat (length d)) (s ++ [0])) /\
  strncpy m dst src (Z.of_nat n) = Ok (dst, write_bytes m dst (take n (s ++ replicate n 0))).
Proof.
  intros Hs Hd Hl Hm Hn Ha. split; [|split].
  - apply strcpy_spec; [done | eapply mapped_sub; [exact Hm|lia|lia] | lia].
  - unfold strcat. rewrite (strlen_spec _ _ _ Hd) by done. res_simpl.
    rewrite s32_small by lia. rewrite (strcpy_spec _ _ _ s); [done | done | | lia].
    eapply mapped_sub; [exact Hm|lia|lia].
  - unfold strncpy. rewrite Nat2Z.id, (strncpy_loop_spec _ _ _ _ _ Hs) by (done || lia). done.
Qed.

Lemma strstr_spec m p s pn n :
  cstr m p s -> cstr m pn n -> p <> 0 -> pn <> 0 -> n <> [] -> Z.of_nat (length s) < 2 ^ 31 -> Z.of_nat (length n) < 2 ^ 31 ->
  exists r, strstr m p pn = Ok r /\
     ((exists j, (j < length s)%nat /\ r = p + Z.of_nat j /\ prefix_at j n s /\
        forall i, (i < j)%nat -> ~ prefix_at i n s) \/
      r = 0 /\ forall j, (j < length s)%nat -> ~ prefix_at j n s).
Proof.
  intros Hs Hn Hp Hpn Hne Hl Hln.
  unfold strstr. destruct (Z.eqb_spec p 0), (Z.eqb_spec pn 0); try lia. cbn [orb].
  rewrite (strlen_spec _ _ _ Hs), (strlen_spec _ _ _ Hn) by done. res_simpl.
  rewrite !s32_small, u64_small by lia. destruct n as [|x n]; [done|].
  destruct (Z.ltb_spec (Z.of_nat (length (x :: n))) 1); [cbn [length] in *; lia|].
  rewrite Nat2Z.id.
  destruct (strstr_loop_spec m p pn s (x :: n) Hs Hn (length s) (le_n _)) as (r & E & Hr); [lia|].
  exists r. rewrite Nat.sub_diag, Z.add_0_r in E. by split.
Qed.

Lemma strchr_spec m p s c :
  cstr m p s -> 0 < c < 256 ->
  exists r, strchr m p c = Ok r /\
    (r = 0 /\ c ∉ s \/ exists k, r = p + Z.of_nat k /\ s !! k = Some c /\ c ∉ take k s).
Proof.
  intros Hs Hc. pose proof (cstr_length _ _ _ Hs). unfold strchr. rewrite u8_small by lia.
  apply strchr_loop_spec; [done | unfold walk_fuel; lia | done].
Qed.

(** strchr, strrchr and strstr find the first, the last and the first
    occurrence in the string, memchr the first in the block; NULL otherwise. *)
Theorem search_correct m p s c pn n bs :
  cstr m p s -> cstr m pn n -> bytes_at m p bs -> 0 < p -> 0 < pn -> 0 < c < 256 -> n <> [] ->
  Z.of_nat (length s) < 2 ^ 31 -> Z.of_nat (length n) < 2 ^ 31 ->
  (exists r, strchr m p c = Ok r /\
     (r = 0 /\ c ∉ s \/ exists k, r = p + Z.of_nat k /\ s !! k = Some c /\ c ∉ take k s)) /\
  (exists r, strrchr m p c = Ok r /\
     (r = 0 /\ c ∉ s \/ exists k, r = p + Z.of_nat k /\ s !! k = Some c /\
        forall i, (k < i)%nat -> s !! i <> Some c)) /\
  (exists r, strstr m p pn = Ok r /\
     ((exists j, (j < length s)%nat /\ r = p + Z.of_nat j /\ prefix_at j n s /\
        forall i, (i < j)%nat -> ~ prefix_at i n s) \/
      r = 0 /\ forall j, (j < length s)%nat -> ~ prefix_at j n s)) /\
  (exists r, memchr m p c (Z.of_nat (length bs)) = Ok r /\
     (r = 0 /\ c ∉ bs \/ exists k, r = p + Z.of_nat k /\ bs !! k = Some c /\ c ∉ take k bs)).
Proof.
  intros Hs Hn Hb Hp Hpn Hc Hne Hl Hln. pose proof (cstr_length _ _ _ Hs).
  split; [|split; [|split]].
  - by apply strchr_spec.
  - unfold strrchr. rewrite (strlen_spec _ _ _ Hs) by done. res_simpl.
    rewrite Nat2Z.id, u8_small by lia.
    destruct (strrchr_loop_spec m p s c (length s) Hs (le_n _)) as (r & E & Hr).
    exists r. split; [exact E|]. rewrite firstn_all in Hr. destruct Hr as [Hr | (j & Hj & -> & Hk & Hi)].
    + by left.
    + right. exists j. split; [done|]. split; [done|]. intros i Hi' Hi''.
      pose proof (lookup_lt_Some _ _ _ Hi''). by apply (Hi i).
  - by apply strstr_spec; try lia.
  - unfold memchr. rewrite Nat2Z.id, u8_small by lia. by apply memchr_loop_spec.
Qed.

(** one call of strtok on a string that is delimiters [d1], a token [t],
    delimiters [d2] and a rest [r]: it returns the token's address (NULL when
    there is none), overwrites [d1] and [d2] with NULs and nothing else, and
    leaves the static pointer at the rest. *)
Theorem strtok_correct m nxt src pattern pat d1 t d2 r :
  0 < src -> cstr m pattern pat -> cstr m src (d1 ++ t ++ d2 ++ r) ->
  apart pattern pat src (length (d1 ++ t ++ d2 ++ r)) ->
  Forall (fun b => b ∈ pat) d1 -> Forall (fun b => b ∉ pat) t -> Forall (fun b => b ∈ pat) d2 ->
  (t = [] -> d2 = [] /\ r = []) ->
  (r = [] \/ d2 <> [] /\ exists b r', r = b :: r' /\ b ∉ pat) ->
  let tok := src + Z.of_nat (length d1) in
  strtok m nxt src pattern =
    Ok (if decide (t = []) then 0 else tok,
        tok + Z.of_nat (length t) + Z.of_nat (length d2),
        write_bytes (write_bytes m src (replicate (length d1) 0))
          (tok + Z.of_nat (length t)) (replicate (length d2) 0)).
Proof.
  intros Hsrc Hp Hs Ha Hd1 Ht Hd2 Ht0 Hr tok. unfold strtok.
  destruct (Z.eqb_spec src 0); [lia|]. pose proof (cstr_length _ _ _ Hs).
  rewrite (strtok_loop_spec pattern pat m src d1 t d2 r) by (done || unfold walk_fuel; lia).
  done.
Qed.

(** every string function ends (with a result or at an unmapped address),
    on any memory, whether or not a NUL is found: no walk loops for ever. *)
Theorem string_functions_terminate m p q n c nxt :
  terminates (strlen m p) /\ terminates (strcpy m p q) /\ terminates (strcat m p q) /\
  terminates (strchr m p c) /\ terminates (strrchr m p c) /\ terminates (strcmp m p q) /\
  terminates (strcasecmp m p q) /\ terminates (strncmp m p q n) /\
  terminates (strncasecmp m p q n) /\ terminates (strstr m p q) /\ terminates (strtok m nxt p q).
Proof.
  repeat split; (apply strlen_terminates || apply strcpy_terminates || apply strcat_terminates ||
    apply strchr_terminates || apply strrchr_terminates || apply strcmp_terminates ||
    apply strcasecmp_terminates || apply strncmp_terminates || apply strncasecmp_terminates ||
    apply strstr_terminates || apply strtok_terminates).
Qed.

(** ** The properties at concrete inputs *)

(** "hello, world" at 100, "World" at 120, the delimiters ", " at 130. *)
Definition mem_hello : mem :=
  write_bytes (write_bytes (write_bytes (write_bytes ∅ 100 (replicate 40 0)) 100
    ([104; 101; 108; 108; 111; 44; 32; 119; 111; 114; 108; 100] ++ [0]))
    120 ([87; 111; 114; 108; 100] ++ [0])) 130 ([44; 32] ++ [0]).

Lemma memmove_correct_witness :
  memmove mem_hello 102 100 5 =
  Ok (102, write_bytes mem_hello 102 [104; 101; 108; 108; 111]).
Proof.
  apply (memmove_correct mem_hello 102 100 [104; 101; 108; 108; 111]).
  - mem_compute.
  - repeat constructor; lia.
  - mem_compute.
Defined.

Lemma compare_order_witness :
  exists r, strcmp mem_hello 107 120 = Ok r /\
    (r ?= 0) = bytes_cmp [119; 111; 114; 108; 100] [87; 111; 114; 108; 100].
Proof.
  apply (compare_order mem_hello 107 120 [119; 111; 114; 108; 100] [87; 111; 114; 108; 100] 3 [] []);
    first [mem_compute | reflexivity].
Defined.

Lemma copy_strings_witness :
  strcat mem_hello 100 130 = Ok (100, write_bytes mem_hello 112 ([44; 32] ++ [0])).
Proof.
  apply (copy_strings mem_hello 100 130 [44; 32]
    [104; 101; 108; 108; 111; 44; 32; 119; 111; 114; 108; 100] 15);
    first [mem_compute | vm_compute; intuition congruence].
Defined.

Lemma search_correct_witness :
  exists r, strchr mem_hello 100 108 = Ok r /\
    (r = 0 /\ 108 ∉ [104; 101; 108; 108; 111; 44; 32; 119; 111; 114; 108; 100] \/
     exists k, r = 100 + Z.of_nat k /\
       [104; 101; 108; 108; 111; 44; 32; 119; 111; 114; 108; 100] !! k = Some 108 /\
       108 ∉ take k [104; 101; 108; 108; 111; 44; 32; 119; 111; 114; 108; 100]).
Proof.
  apply (search_correct mem_hello 100 _ 108 130 [44; 32] []);
    first [mem_compute | vm_compute; intuition congruence].
Defined.

Lemma strtok_correct_witness :
  strtok mem_hello 0 100 130 =
  Ok (100, 107, write_bytes mem_hello 105 [0; 0]).
Proof.
  apply (strtok_correct mem_hello 0 100 130 [44; 32] [] [104; 101; 108; 108; 111] [44; 32]
    [119; 111; 114; 108; 100]); try (mem_compute || lia).
  - right. vm_compute. reflexivity.
  - constructor.
  - repeat constructor; apply (bool_decide_unpack _); vm_compute; exact I.
  - repeat constructor; apply (bool_decide_unpack _); vm_compute; exact I.
  - discriminate.
  - right. split; [discriminate|]. eexists _, _. split; [reflexivity|].
    apply (bool_decide_unpack _); vm_compute; exact I.
Defined.

(** strcasecmp stops at bytes that differ up to case but returns the difference
    of the bytes as they are: "hello" sorts after "World", though H < W. *)
Example strcasecmp_sign :
  strcasecmp (write_bytes mem_hello 100 ([104] ++ [0])) 100 120 = Ok 17 /\
  bytes_cmp (toupper <$> [104]) (toupper <$> [87; 111; 114; 108; 100]) = Lt.
Proof. by vm_compute. Qed.

(** strchr and strrchr do not find the terminating NUL itself. *)
Example strchr_nul : strchr mem_hello 100 0 = Ok 0 /\ strrchr mem_hello 100 0 = Ok 0.
Proof. by vm_compute. Qed.
