(* ===== verification/Conv.v ===== *)
(** * lib/libc/stdlib: number conversions and the pseudo-random generator

    strtol, strtoul, atoi, atol (strings in the memory of CMem) and rand.  The
    pointer stored through PTR is the second component of the result.  The
    arithmetic of [long] wraps around at 64 bits. *)

From Stdlib Require Import ZArith Lia.
From stdpp Require Import base list gmap option numbers fin_maps.
From S2P Require Import Prelude CMem CString.

(** The blanks strtol and strtoul skip. *)
Definition is_blank (b : Z) : bool := (b =? 32) || (b =? 9) || (b =? 10) || (b =? 13).

Fixpoint skip_blanks (fuel : nat) (m : mem) (p : Z) : res Z :=
  match fuel with
  | O => OutOfFuel
  | S fuel' => b ← load8 m p; if is_blank b then skip_blanks fuel' m (p + 1) else Ok p
  end.

(** Does "0x" start at [p]?  The second byte is read only after a '0'. *)
Definition at_0x (m : mem) (p : Z) : res bool :=
  b ← load8 m p;
  if b =? 48 then c ← load8 m (p + 1); Ok (c =? 120) else Ok false.

Definition digit_value (b : Z) : option Z :=
  if (48 <=? b) && (b <=? 57) then Some (b - 48)
  else if (97 <=? b) && (b <=? 122) then Some (b - 97 + 10)
  else if (65 <=? b) && (b <=? 90) then Some (b - 65 + 10)
  else None.

(** The digit loop; [wrap] is the conversion to the type of [rval]. *)
Fixpoint digits_loop (wrap : Z -> Z) (fuel : nat) (m : mem) (BASE p rval : Z) : res (Z * Z) :=
  match fuel with
  | O => OutOfFuel
  | S fuel' =>
      b ← load8 m p;
      if b =? 0 then Ok (rval, p) else
      match digit_value b with
      | Some digit =>
          if digit <? BASE then digits_loop wrap fuel' m BASE (p + 1) (wrap (rval * BASE + digit))
          else Ok (rval, p)
      | None => Ok (rval, p)
      end
  end.

(** The base prefix: the effective base and the position after "0x". *)
Definition base_prefix (m : mem) (BASE p : Z) : res (Z * Z) :=
  '(BASE, p) ← (if BASE =? 0 then x ← at_0x m p; Ok (if x : bool then (16, p + 2) else (10, p))
                else Ok (BASE, p));
  if BASE =? 16 then x ← at_0x m p; Ok (if x : bool then (16, p + 2) else (16, p))
  else Ok (BASE, p).

Definition strtol (m : mem) (S BASE : Z) : res (Z * Z) :=
  if (BASE <? 0) || (36 <? BASE) then Ok (0, S) else
  p ← skip_blanks (walk_fuel m) m S;
  b ← load8 m p;
  let negative := b =? 45 in
  let p := if negative then p + 1 else p in
  '(BASE, p) ← base_prefix m BASE p;
  '(rval, p) ← digits_loop s64 (walk_fuel m) m BASE p 0;
  Ok (if negative then s64 (rval * -1) else rval, p).

Definition strtoul (m : mem) (S BASE : Z) : res (Z * Z) :=
  if (BASE <? 0) || (36 <? BASE) then Ok (0, S) else
  p ← skip_blanks (walk_fuel m) m S;
  '(BASE, p) ← base_prefix m BASE p;
  digits_loop u64 (walk_fuel m) m BASE p 0.

Definition atoi (m : mem) (str : Z) : res Z := '(v, _) ← strtol m str 0; Ok (s32 v).

Definition atol (m : mem) (str : Z) : res Z := '(v, _) ← strtol m str 0; Ok v.

(** The static [_rand] is the state. *)
Definition RAND_MAX : Z := 32767.

Definition rand (_rand : Z) : Z * Z :=
  let _rand := u64 (_rand * 1237732973 + 34563) in
  (Z.land (u32 (Z.shiftr _rand 16)) RAND_MAX, _rand).

Definition srand (seed : Z) : Z := u32 seed.

(** ** The value of a digit string *)

Definition digit_in (base b : Z) : Prop := exists d, digit_value b = Some d /\ d < base.

Definition not_digit_head (base : Z) (s : list Z) : Prop :=
  match s with [] => True | b :: _ => forall d, digit_value b = Some d -> base <= d end.

Definition digits_value (base : Z) (ds : list Z) : Z :=
  foldl (fun a b => a * base + default 0 (digit_value b)) 0 ds.

(** A conversion that commutes with the steps of the digit loop. *)
Class Wrap (w : Z -> Z) : Prop := {
  wrap_step : forall a b c, w (w a * b + c) = w (a * b + c);
  wrap_0 : w 0 = 0;
}.

Lemma s64_u64 x : s64 (u64 x) = s64 x.
Proof. wunfold. by rewrite Z.mod_mod by lia. Qed.

Lemma u64_step a b c : u64 (u64 a * b + c) = u64 (a * b + c).
Proof.
  unfold u64. rewrite <- Z.add_mod_idemp_l, Z.mul_mod_idemp_l, Z.add_mod_idemp_l by lia. done.
Qed.

#[export] Instance wrap_u64 : Wrap u64.
Proof. split; [apply u64_step | done]. Qed.

#[export] Instance wrap_s64 : Wrap s64.
Proof.
  split; [|done]. intros a b c. rewrite <- (s64_u64 (s64 a * b + c)), <- (u64_step (s64 a)).
  by rewrite u64_s64, u64_step, s64_u64.
Qed.

Section digits.
Context (wrap : Z -> Z) `{!Wrap wrap}.

Lemma digits_loop_spec m base p ds rest rval fuel :
  cstr m p (ds ++ rest) -> Forall (digit_in base) ds -> not_digit_head base rest ->
  (length (ds ++ rest) < fuel)%nat ->
  digits_loop wrap fuel m base p (wrap rval) =
  Ok (wrap (foldl (fun a b => a * base + default 0 (digit_value b)) rval ds), p + Z.of_nat (length ds)).
Proof using Type*.
  revert p rval fuel. induction ds as [|b ds IH]; intros p rval [|fuel] H Hd Hr Hf;
    cbn [length app] in *; try lia; cbn [digits_loop]; rewrite (cstr_head _ _ _ H); res_simpl.
  - rewrite Z.add_0_r. destruct rest as [|b rest]; cbn [hd]; [done|].
    apply cstr_cons in H as (_ & Hb & _). destruct (Z.eqb_spec b 0); [lia|].
    cbn in Hr. destruct (digit_value b) as [d|]; [|done].
    specialize (Hr d eq_refl). destruct (Z.ltb_spec d base); [lia | done].
  - inversion Hd as [|? ? (d & Hdv & Hlt) Hd']; subst. cbn [hd].
    apply cstr_cons in H as (_ & Hb & H). destruct (Z.eqb_spec b 0); [lia|].
    rewrite Hdv. destruct (Z.ltb_spec d base); [|lia].
    rewrite wrap_step. rewrite (IH (p + 1) _ fuel) by (done || lia).
    cbn [foldl]. rewrite Hdv. cbn [default from_option id]. do 2 f_equal. lia.
Qed.
End digits.

Lemma skip_blanks_spec m p ws s fuel :
  cstr m p (ws ++ s) -> Forall (fun b => is_blank b = true) ws ->
  is_blank (hd 0 s) = false -> (length ws < fuel)%nat ->
  skip_blanks fuel m p = Ok (p + Z.of_nat (length ws)).
Proof.
  revert p fuel. induction ws as [|b ws IH]; intros p [|fuel] H Hw Hs Hf; cbn [length app] in *;
    try lia; cbn [skip_blanks]; rewrite (cstr_head _ _ _ H); res_simpl; cbn [hd].
  - rewrite Hs. f_equal. lia.
  - inversion Hw as [|? ? Hb Hw']; subst. rewrite Hb.
    apply cstr_cons in H as (_ & _ & H). rewrite (IH _ _ H) by (done || lia). f_equal. lia.
Qed.

Lemma at_0x_spec m p s :
  cstr m p s -> at_0x m p = Ok (bool_decide (take 2 s = [48; 120])).
Proof.
  intros H. unfold at_0x. rewrite (cstr_head _ _ _ H). res_simpl. destruct s as [|a s]; [done|].
  cbn [hd take]. apply cstr_cons in H as (_ & Ha & H). destruct (Z.eqb_spec a 48) as [->|Hne].
  - rewrite (cstr_head _ _ _ H). res_simpl. f_equal. destruct s as [|b s]; cbn [hd take]; [done|].
    destruct (Z.eqb_spec b 120) as [->|]; symmetry; [by apply bool_decide_eq_true_2|].
    apply bool_decide_eq_false_2. congruence.
  - f_equal. symmetry. apply bool_decide_eq_false_2. congruence.
Qed.

(** The prefix [pre] a number in base [BASE] may carry before the text [s]. *)
Definition prefix_ok (BASE base : Z) (pre s : list Z) : Prop :=
  (pre = [] /\ take 2 s <> [48; 120] /\ (BASE = 0 /\ base = 10 \/ BASE <> 0 /\ base = BASE)) \/
  (pre = [] /\ BASE <> 0 /\ BASE <> 16 /\ base = BASE) \/
  (pre = [48; 120] /\ take 2 s <> [48; 120] /\ (BASE = 0 \/ BASE = 16) /\ base = 16).

Lemma base_prefix_spec m BASE base p pre s :
  cstr m p (pre ++ s) -> prefix_ok BASE base pre s ->
  base_prefix m BASE p = Ok (base, p + Z.of_nat (length pre)).
Proof.
  intros H Hp. pose proof (at_0x_spec _ _ _ H) as E. unfold base_prefix.
  destruct Hp as [(-> & Hs & Hb) | [(-> & H0 & H16 & ->) | (-> & Hs & Hb & ->)]];
    cbn [app length] in *; rewrite ?Z.add_0_r.
  - rewrite bool_decide_eq_false_2 in E by done.
    destruct Hb as [[-> ->] | [H0 ->]].
    + cbn [Z.eqb]. rewrite E. done.
    + destruct (Z.eqb_spec BASE 0); [done|]. res_simpl.
      destruct (Z.eqb_spec BASE 16) as [->|]; [by rewrite E | done].
  - destruct (Z.eqb_spec BASE 0); [done|]. res_simpl. by destruct (Z.eqb_spec BASE 16).
  - rewrite bool_decide_eq_true_2 in E by done.
    apply cstr_cons in H as (_ & _ & H). apply cstr_cons in H as (_ & _ & H).
    replace (p + 1 + 1) with (p + 2) in H by lia. pose proof (at_0x_spec _ _ _ H) as E2.
    rewrite bool_decide_eq_false_2 in E2 by done.
    destruct Hb as [-> | ->]; cbn [Z.eqb Pos.eqb]; res_simpl; rewrite E; res_simpl; [|done].
    cbn [Z.eqb Pos.eqb]. by rewrite E2.
Qed.

Lemma blank_not_digit base b : digit_in base b -> is_blank b = false.
Proof.
  intros (d & H & _). unfold digit_value in H. unfold is_blank.
  destruct (Z.eqb_spec b 32), (Z.eqb_spec b 9), (Z.eqb_spec b 10), (Z.eqb_spec b 13);
    subst; cbn in H; done.
Qed.

Lemma digits_loop_value wrap `{!Wrap wrap} m base p ds rest :
  cstr m p (ds ++ rest) -> Forall (digit_in base) ds -> not_digit_head base rest ->
  digits_loop wrap (walk_fuel m) m base p 0 =
  Ok (wrap (digits_value base ds), p + Z.of_nat (length ds)).
Proof.
  intros H Hd Hr. pose proof (cstr_length _ _ _ H).
  pose proof (digits_loop_spec wrap m base p ds rest 0 (walk_fuel m) H Hd Hr) as E.
  rewrite wrap_0 in E. apply E. unfold walk_fuel. lia.
Qed.

Lemma skip_blanks_walk m p ws s :
  cstr m p (ws ++ s) -> Forall (fun b => is_blank b = true) ws -> is_blank (hd 0 s) = false ->
  skip_blanks (walk_fuel m) m p = Ok (p + Z.of_nat (length ws)).
Proof.
  intros H Hw Hs. apply (skip_blanks_spec _ _ _ _ _ H Hw Hs).
  pose proof (cstr_length _ _ _ H) as Hl. rewrite length_app in Hl. unfold walk_fuel. lia.
Qed.

Lemma cstr_app_r m p s1 s2 : cstr m p (s1 ++ s2) -> cstr m (p + Z.of_nat (length s1)) s2.
Proof.
  intros H. apply (cstr_drop _ _ _ (length s1)) in H.
  - by rewrite drop_app_length in H.
  - rewrite length_app. lia.
Qed.

Lemma digits_cstr m p ds : Forall (digit_in 10) ds -> bytes_at m p (ds ++ [0]) -> cstr m p ds.
Proof.
  intros Hd Hb. split; [done|]. eapply List.Forall_impl; [|exact Hd]. intros b (d & Hb' & _). unfold digit_value in Hb'.
  repeat case_match; simplify_eq; lia.
Qed.

Lemma strtoul_value m p ws pre ds rest BASE base :
  0 <= BASE <= 36 -> cstr m p (ws ++ pre ++ ds ++ rest) ->
  Forall (fun b => is_blank b = true) ws -> is_blank (hd 0 (pre ++ ds ++ rest)) = false ->
  prefix_ok BASE base pre (ds ++ rest) -> Forall (digit_in base) ds -> not_digit_head base rest ->
  strtoul m p BASE =
  Ok (u64 (digits_value base ds), p + Z.of_nat (length ws + length pre + length ds)).
Proof.
  intros HB H Hw Hb Hp Hd Hr. unfold strtoul.
  destruct (Z.ltb_spec BASE 0), (Z.ltb_spec 36 BASE); try lia. cbn [orb].
  rewrite (skip_blanks_walk _ _ _ _ H Hw Hb). res_simpl. apply cstr_app_r in H.
  rewrite (base_prefix_spec _ _ _ _ _ _ H Hp). res_simpl. apply cstr_app_r in H.
  rewrite (digits_loop_value u64 _ _ _ _ _ H Hd Hr). do 2 f_equal. lia.
Qed.

Lemma strtol_spec m p ws neg pre ds rest BASE base :
  cstr m p (ws ++ (if neg : bool then [45] else []) ++ pre ++ ds ++ rest) ->
  Forall (fun b => is_blank b = true) ws -> is_blank (hd 0 (pre ++ ds ++ rest)) = false ->
  hd 0 (pre ++ ds ++ rest) <> 45 ->
  prefix_ok BASE base pre (ds ++ rest) -> Forall (digit_in base) ds -> not_digit_head base rest ->
  strtol m p BASE =
  if decide (0 <= BASE <= 36) then
    Ok (s64 ((if neg then -1 else 1) * digits_value base ds),
        p + Z.of_nat (length ws + (if neg then 1 else 0) + length pre + length ds))
  else Ok (0, p).
Proof.
  intros H Hw Hb Hm Hp Hd Hr. unfold strtol.
  case_decide as HB; destruct (Z.ltb_spec BASE 0), (Z.ltb_spec 36 BASE); try lia; try done.
  cbn [orb]. rewrite (skip_blanks_walk _ _ _ _ H Hw) by (by destruct neg). res_simpl.
  apply cstr_app_r in H. rewrite (cstr_head _ _ _ H). res_simpl.
  set (p1 := p + Z.of_nat (length ws)) in *.
  assert (E : (hd 0 ((if neg then [45] else []) ++ pre ++ ds ++ rest) =? 45) = neg).
  { destruct neg; [done|]. cbn [app]. by apply Z.eqb_neq. }
  rewrite E. apply cstr_app_r in H.
  replace (if neg then p1 + 1 else p1) with (p1 + Z.of_nat (length (if neg then [45] else [])))
    by (destruct neg; cbn; lia).
  rewrite (base_prefix_spec _ _ _ _ _ _ H Hp). res_simpl. apply cstr_app_r in H.
  rewrite (digits_loop_value s64 _ _ _ _ _ H Hd Hr). res_simpl. f_equal. f_equal.
  - destruct neg; [|by rewrite Z.mul_1_l].
    rewrite <- (Z.add_0_r (s64 _ * -1)), wrap_step, Z.add_0_r. f_equal. lia.
  - unfold p1. destruct neg; cbn [length]; lia.
Qed.

(** C38: on blanks, an optional minus sign, the prefix "0x" where base 0 or 16
    admits it, the longest run [ds] of digits below the base, and a rest, strtol
    returns the value of [ds] with its sign, as a 64-bit [long], and the address
    of the rest; a base outside 0..36 gives 0 and the start of the string. *)
Theorem strtol_value m p ws neg pre ds rest BASE base :
  cstr m p (ws ++ (if neg : bool then [45] else []) ++ pre ++ ds ++ rest) ->
  Forall (fun b => is_blank b = true) ws -> is_blank (hd 0 (pre ++ ds ++ rest)) = false ->
  hd 0 (pre ++ ds ++ rest) <> 45 ->
  prefix_ok BASE base pre (ds ++ rest) -> Forall (digit_in base) ds -> not_digit_head base rest ->
  strtol m p BASE =
  if decide (0 <= BASE <= 36) then
    Ok (s64 ((if neg then -1 else 1) * digits_value base ds),
        p + Z.of_nat (length ws + (if neg then 1 else 0) + length pre + length ds))
  else Ok (0, p).
Proof. apply strtol_spec. Qed.

(** ** The conversions end *)

Lemma skip_blanks_terminates m p : terminates (skip_blanks (walk_fuel m) m p).
Proof.
  apply (walk_ends m id (fun _ => True) (fun n p => skip_blanks n m p)); [|done].
  intros n q _ H. cbn [skip_blanks] in *. out_step H c Hc. loop_out H.
  split; [by eapply load8_is_Some|]. by exists (q + 1).
Qed.

Lemma digits_loop_terminates wrap m base p v : terminates (digits_loop wrap (walk_fuel m) m base p v).
Proof.
  apply (walk_ends m fst (fun _ => True) (fun n x => digits_loop wrap n m base (fst x) (snd x)))
    with (x := (p, v)); [|done].
  intros n [q a] _ H. cbn [fst snd digits_loop] in *. out_step H c Hc. loop_out H.
  split; [by eapply load8_is_Some|]. destruct (digit_value c) as [d|]; [|done]. loop_out H.
  by exists (q + 1, wrap (a * base + d)).
Qed.

Lemma base_prefix_terminates m base p : terminates (base_prefix m base p).
Proof.
  assert (H : forall q, terminates (at_0x m q)).
  { intros q. unfold at_0x. apply terminates_bind; [auto|]. intros b _. destruct (_ =? _); [|done].
    by apply terminates_bind; [auto|]. }
  unfold base_prefix. apply terminates_bind.
  - destruct (base =? 0); [|done]. apply terminates_bind; [apply H|]. by intros [] _.
  - intros [b q] _. destruct (b =? 16); [|done]. apply terminates_bind; [apply H|]. by intros [] _.
Qed.

Lemma strtoul_terminates m p base : terminates (strtoul m p base).
Proof.
  unfold strtoul. destruct (_ || _); [done|].
  apply terminates_bind; [apply skip_blanks_terminates | intros q _].
  apply terminates_bind; [apply base_prefix_terminates | intros [b r] _].
  apply digits_loop_terminates.
Qed.

Lemma strtol_terminates m p base : terminates (strtol m p base).
Proof.
  unfold strtol. destruct (_ || _); [done|].
  apply terminates_bind; [apply skip_blanks_terminates | intros q _].
  apply terminates_bind; [auto | intros b _].
  apply terminates_bind; [apply base_prefix_terminates | intros [b' r] _].
  apply terminates_bind; [apply digits_loop_terminates | by intros [] _].
Qed.

#[export] Hint Resolve strtoul_terminates strtol_terminates : core.

(** " -0x1fg" at 100. *)
Definition mem_number : mem := write_bytes ∅ 100 ([32; 45; 48; 120; 49; 102; 103] ++ [0]).

Lemma strtol_value_witness : strtol mem_number 100 0 = Ok (-31, 106).
Proof.
  apply (strtol_value mem_number 100 [32] true [48; 120] [49; 102] [103] 0 16).
  - mem_compute.
  - repeat constructor.
  - reflexivity.
  - discriminate.
  - right. right. repeat split; [discriminate | by left].
  - repeat constructor; eexists; (split; [reflexivity | lia]).
  - intros d Hd. vm_compute in Hd. injection Hd as <-. lia.
Defined.

(** rand returns a number of 0..RAND_MAX, its state stays an unsigned long. *)
Lemma rand_range s : let '(r, s') := rand s in 0 <= r <= RAND_MAX /\ 0 <= s' < 2 ^ 64.
Proof.
  unfold rand. split; [|apply u64_range]. unfold RAND_MAX.
  change 32767 with (Z.ones 15). rewrite Z.land_ones by lia.
  pose proof (Z.mod_pos_bound (u32 (Z.shiftr (u64 (s * 1237732973 + 34563)) 16)) (2 ^ 15)).
  change (Z.ones 15) with 32767. change (2 ^ 15) with 32768 in *. lia.
Qed.
