(* ===== verification/Args.v ===== *)
(** * lib/libnet/args.c: the arguments of the boot commands

    The functions work on the memory of CMem.v; NULL is the address 0.  Against
    the text stand the list of its arguments, and the numbers of an address. *)

From Stdlib Require Import ZArith Lia ZifyNat.
From stdpp Require Import base list gmap option numbers.
From S2P Require Import Prelude CMem CString Conv.

(** The characters ',', '.' and '\'. *)
Definition COMMA : Z := 44.
Definition DOT : Z := 46.
Definition BACKSLASH : Z := 92.

(** The next ',' or NUL. *)
Fixpoint arg_end (fuel : nat) (m : mem) (arg_str : Z) : res Z :=
  match fuel with
  | O => OutOfFuel
  | S fuel' =>
      c ← load8 m arg_str;
      if negb (c =? COMMA) && negb (c =? 0) then arg_end fuel' m (arg_str + 1) else Ok arg_str
  end.

Fixpoint get_arg_ptr (m : mem) (arg_str : Z) (index : nat) : res Z :=
  match index with
  | O => Ok arg_str
  | S index' =>
      p ← arg_end (walk_fuel m) m arg_str;
      c ← load8 m p;
      if c =? 0 then Ok 0 else get_arg_ptr m (p + 1) index'
  end.

Fixpoint args_count_loop (fuel : nat) (m : mem) (arg_str count : Z) : res Z :=
  match fuel with
  | O => OutOfFuel
  | S fuel' =>
      arg_str ← get_arg_ptr m arg_str 1;
      if arg_str =? 0 then Ok count else args_count_loop fuel' m arg_str (u32 (count + 1))
  end.

Definition get_args_count (m : mem) (arg_str : Z) : res Z := args_count_loop (walk_fuel m) m arg_str 1.

Definition get_arg_length (m : mem) (arg_str : Z) : res Z :=
  p ← arg_end (walk_fuel m) m arg_str; Ok (u32 (p - arg_str)).

Definition argncpy (m : mem) (arg_str : Z) (index : nat) (buffer length : Z) : res (Z * mem) :=
  ptr ← get_arg_ptr m arg_str index;
  if ptr =? 0 then Ok (0, m) else
  len ← get_arg_length m ptr;
  '(r, m) ← strncpy m buffer ptr length;
  if r =? 0 then Ok (0, m) else
  m ← store8 m (buffer + len) 0;
  Ok (buffer, m).

(** ** Addresses *)

Section strtoip.
(** The local array of ten bytes, and the string literal. *)
Context (octet dot : Z).

(** The text of the next number is moved to [octet]: the memory, the end of the
    text, and whether a netmask follows. *)
Definition next_octet (m : mem) (str : Z) (has_nn : bool) : res (option (mem * Z * bool)) :=
  let cut sep has_nn :=
    let len := u32 (to_signed 16 (sep - str)) in
    if 10 <=? len then Ok None else
    '(_, m) ← strncpy m octet str len;
    m ← store8 m (octet + len) 0;
    Ok (Some (m, str + len, has_nn)) in
  p ← strstr m str dot;
  if negb (p =? 0) then cut p has_nn else
  q ← strchr m str BACKSLASH;
  if negb (q =? 0) then cut q true else
  '(_, m) ← strncpy m octet str 9;
  m ← store8 m (octet + 9) 0;
  n ← strlen m octet;
  Ok (Some (m, str + n, has_nn)).

(** The netmask behind a backslash; [netmask] may be NULL. *)
Definition read_netmask (m : mem) (str netmask : Z) : res (option (mem * Z)) :=
  '(_, m) ← strncpy m octet (str + 1) 9;
  m ← store8 m (octet + 9) 0;
  '(v, _) ← strtol m octet 10;
  n ← strlen m octet;
  let res := s32 v in
  if (31 <? res) || (res <? 1) then Ok None else
  m ← (if negb (netmask =? 0) then store_be 4 m netmask (u32 (Z.shiftl 0xFFFFFFFF (32 - res))) else Ok m);
  Ok (Some (m, str + 1 + n)).

Fixpoint strtoip_loop (fuel : nat) (m : mem) (str ip i netmask : Z) (has_nn : bool) : res (Z * mem) :=
  match fuel with
  | O => OutOfFuel
  | S fuel' =>
      c ← load8 m str;
      if c =? 0 then Ok (if i =? 4 then -1 else 0, m) else
      if (3 <? i) || negb (isdigit c) then Ok (0, m) else
      o ← next_octet m str has_nn;
      match o with
      | None => Ok (0, m)
      | Some (m, str, has_nn) =>
          '(v, _) ← strtol m octet 10;
          let res := s32 v in
          if (255 <? res) || (res <? 0) then Ok (0, m) else
          m ← store8 m (ip + i) res;
          c ← load8 m str;
          let str := if c =? DOT then str + 1 else str in
          r ← (if has_nn : bool then read_netmask m str netmask else Ok (Some (m, str)));
          match r with
          | None => Ok (0, m)
          | Some (m, str) => strtoip_loop fuel' m str ip (i + 1) netmask has_nn
          end
      end
  end.

(** At most four numbers are stored. *)
Definition strtoip_netmask (m : mem) (str ip netmask : Z) : res (Z * mem) := strtoip_loop 6 m str ip 0 netmask false.

Definition strtoip (m : mem) (str ip : Z) : res (Z * mem) := strtoip_netmask m str ip 0.
End strtoip.

(** ** Lists of arguments *)

(** The text of a list of arguments. *)
Fixpoint joined (sep : Z) (l : list (list Z)) : list Z :=
  match l with [] => [] | [a] => a | a :: l' => a ++ sep :: joined sep l' end.

Lemma joined_cons sep a l : l <> [] -> joined sep (a :: l) = a ++ sep :: joined sep l.
Proof. by destruct l. Qed.

Lemma arg_end_spec m p a rest fuel : cstr m p (a ++ rest) -> COMMA ∉ a -> hd 0 rest = COMMA \/ rest = [] -> (length a < fuel)%nat ->
  arg_end fuel m p = Ok (p + Z.of_nat (length a)).
Proof.
  revert p fuel. induction a as [|c a IH]; intros p [|fuel] H Hn Hr Hf; cbn [length] in Hf; try lia; cbn [arg_end app length] in *.
  - rewrite (cstr_head _ _ _ H). res_simpl. rewrite Z.add_0_r. destruct Hr as [-> | ->]; reflexivity.
  - apply cstr_cons in H as (Hc & Hb & H). unfold load8. rewrite Hc. res_simpl. apply not_elem_of_cons in Hn as [Hne Hn].
    rewrite (proj2 (Z.eqb_neq c COMMA)), (proj2 (Z.eqb_neq c 0)) by (congruence || lia). cbn [negb andb].
    rewrite (IH (p + 1)) by (done || lia). f_equal. lia.
Qed.

Section arguments.
Context (m : mem).

(** An argument and what follows it. *)
Definition args_at (p : Z) (l : list (list Z)) : Prop :=
  l <> [] /\ cstr m p (joined COMMA l) /\ Forall (fun a => COMMA ∉ a) l /\ 0 < p.

Lemma arg_end_at p a l : args_at p (a :: l) -> arg_end (walk_fuel m) m p = Ok (p + Z.of_nat (length a)).
Proof.
  intros (_ & H & Ha & _). apply Forall_cons_1 in Ha as [Ha _]. destruct (decide (l = [])) as [-> | Hl].
  - cbn [joined] in H. apply (arg_end_spec _ _ a []); [by rewrite app_nil_r | done | by right|]. apply cstr_length in H. unfold walk_fuel. lia.
  - rewrite joined_cons in H by done. apply (arg_end_spec _ _ a _ _ H); [done | by left|].
    apply cstr_length in H. rewrite length_app in H. unfold walk_fuel. lia.
Qed.

Lemma args_at_next p a b l : args_at p (a :: b :: l) ->
  m !! (p + Z.of_nat (length a)) = Some COMMA /\ args_at (p + Z.of_nat (length a) + 1) (b :: l).
Proof.
  intros (_ & H & Ha & Hp). rewrite joined_cons in H by done. apply cstr_app_r in H. apply cstr_cons in H as (Hc & _ & H).
  split; [done|]. apply Forall_cons_1 in Ha as [_ Ha]. split_and!; [done | exact H | exact Ha | lia].
Qed.

Lemma args_at_last p a : args_at p [a] -> m !! (p + Z.of_nat (length a)) = Some 0.
Proof. intros (_ & H & _). cbn [joined] in H. apply cstr_nil. rewrite <- (app_nil_r a) in H. by apply cstr_app_r in H. Qed.

(** The address of an argument of the list at [p]. *)
Fixpoint arg_address (p : Z) (l : list (list Z)) (n : nat) : Z :=
  match l, n with
  | [], _ => 0
  | _ :: _, O => p
  | a :: l', S n' => arg_address (p + Z.of_nat (length a) + 1) l' n'
  end.

Lemma get_arg_ptr_spec n : forall p l, args_at p l -> get_arg_ptr m p n = Ok (arg_address p l n).
Proof.
  induction n as [|n IH]; intros p [|a l] H; try (by destruct H as [[] _]); [done|]. cbn [get_arg_ptr arg_address].
  rewrite (arg_end_at _ _ _ H). res_simpl. unfold load8. destruct l as [|b l].
  - by rewrite (args_at_last _ _ H).
  - destruct (args_at_next _ _ _ _ H) as [-> H2]. res_simpl. by apply IH.
Qed.

Lemma args_count_spec l : forall p fuel count, args_at p l -> (length l <= fuel)%nat -> 0 <= count -> count + Z.of_nat (length l) <= 2 ^ 32 ->
  args_count_loop fuel m p count = Ok (count + Z.of_nat (length l) - 1).
Proof.
  induction l as [|a l IH]; intros p fuel count H Hf H0 Hc; [by destruct H as [[] _]|]. destruct fuel as [|fuel]; [cbn in Hf; lia|].
  cbn [args_count_loop length] in *. rewrite (get_arg_ptr_spec 1 _ _ H). res_simpl. cbn [arg_address]. destruct l as [|b l].
  - cbn [arg_address length]. rewrite Z.eqb_refl. f_equal. lia.
  - destruct (args_at_next _ _ _ _ H) as [_ H2]. cbn [arg_address]. destruct H2 as (? & ? & ? & Hp).
    rewrite (proj2 (Z.eqb_neq _ 0)) by lia. cbn [length] in *. rewrite u32_small, (IH _ fuel) by (done || lia). f_equal. lia.
Qed.

Lemma args_at_nth n : forall p l a, args_at p l -> l !! n = Some a ->
  exists l', args_at (arg_address p l n) (a :: l') /\ p <= arg_address p l n /\
    arg_address p l n + Z.of_nat (length (joined COMMA (a :: l'))) = p + Z.of_nat (length (joined COMMA l)).
Proof.
  induction n as [|n IH]; intros p [|b l] a H Hn; try discriminate; cbn [lookup list_lookup arg_address] in *.
  - injection Hn as ->. by exists l.
  - destruct l as [|c l]; [by destruct n|]. destruct (args_at_next _ _ _ _ H) as [_ H2].
    destruct (IH _ _ _ H2 Hn) as (l' & H' & Hle & E). exists l'. split; [done|]. split; [lia|].
    rewrite E, (joined_cons COMMA b), length_app by done. cbn [length]. lia.
Qed.

Lemma args_at_head p a l : args_at p (a :: l) -> exists rest, joined COMMA (a :: l) = a ++ rest /\ cstr m p (a ++ rest).
Proof.
  intros (_ & H & _). destruct (decide (l = [])) as [-> | Hl]; [exists []; cbn [joined] in *; by rewrite app_nil_r|].
  rewrite joined_cons in * by done. by eexists.
Qed.

Lemma get_arg_length_spec p a l : args_at p (a :: l) -> Z.of_nat (length (joined COMMA (a :: l))) < 2 ^ 32 ->
  get_arg_length m p = Ok (Z.of_nat (length a)).
Proof.
  intros H Hl. unfold get_arg_length. rewrite (arg_end_at _ _ _ H). res_simpl. f_equal. rewrite Z.add_simpl_l. apply u32_small.
  destruct (args_at_head _ _ _ H) as (rest & E & _). rewrite E, length_app in Hl. lia.
Qed.

Lemma arg_address_end n : forall p l, l !! n = None -> arg_address p l n = 0.
Proof. induction n as [|n IH]; intros p [|a l] H; try done. by apply IH. Qed.

Lemma joined_length l : (length l <= S (length (joined COMMA l)))%nat.
Proof. induction l as [|a [|b l] IH]; cbn [joined length] in *; [lia|lia|]. rewrite length_app. cbn [length]. lia. Qed.
End arguments.

(** On the text of a list of arguments get_args_count gives their number, get_arg_ptr the address of each and NULL
    from the end of the list on, and get_arg_length the length of an argument. *)
Theorem arguments_found m p l : args_at m p l -> Z.of_nat (length l) < 2 ^ 32 -> Z.of_nat (length (joined COMMA l)) < 2 ^ 32 ->
  get_args_count m p = Ok (Z.of_nat (length l)) /\
  forall n, match l !! n with
            | Some a => exists q, get_arg_ptr m p n = Ok q /\ q <> 0 /\ bytes_at m q a /\ get_arg_length m q = Ok (Z.of_nat (length a))
            | None => get_arg_ptr m p n = Ok 0
            end.
Proof.
  intros H Hl Hj. split.
  - unfold get_args_count. rewrite (args_count_spec m l p); [f_equal; lia | done | | lia | lia].
    destruct H as (_ & H & _). apply cstr_length in H. pose proof (joined_length l). unfold walk_fuel. lia.
  - intros n. rewrite (get_arg_ptr_spec m n _ _ H). destruct (l !! n) as [a|] eqn:En; [|by rewrite arg_address_end].
    destruct (args_at_nth m n _ _ _ H En) as (l' & H' & Hle & E). exists (arg_address p l n). split; [done|].
    split; [destruct H' as (_ & _ & _ & ?); lia|]. split.
    + destruct (args_at_head _ _ _ _ H') as (rest & _ & [Hb _]). rewrite <- app_assoc in Hb. by apply bytes_at_app_l in Hb.
    + apply (get_arg_length_spec _ _ _ l'); [done|]. destruct H' as (_ & _ & _ & ?), H as (_ & _ & _ & ?). lia.
Qed.

(** argncpy stores the argument with a NUL behind it in a buffer in which it fits, and nothing outside. *)
Theorem argncpy_copies m p l n a buffer len : args_at m p l -> l !! n = Some a -> Z.of_nat (length (joined COMMA l)) < 2 ^ 32 ->
  buffer <> 0 -> mapped m buffer len -> Z.of_nat (length a) < len ->
  buffer + len <= p \/ p + Z.of_nat (length (joined COMMA l)) < buffer ->
  exists m', argncpy m p n buffer len = Ok (buffer, m') /\ bytes_at m' buffer (a ++ [0]) /\ stores m m' buffer (buffer + len).
Proof.
  intros H Hn Hj Hb Hm Ha Hd. destruct (args_at_nth m n _ _ _ H Hn) as (l' & H' & Hle & E). unfold argncpy.
  rewrite (get_arg_ptr_spec m n _ _ H). res_simpl. set (q := arg_address p l n) in *.
  assert (0 < q) by (destruct H' as (_ & _ & _ & ?); lia). rewrite (proj2 (Z.eqb_neq q 0)) by lia.
  rewrite (get_arg_length_spec _ _ _ _ H') by (destruct H as (_ & _ & _ & ?); lia). res_simpl.
  destruct (args_at_head _ _ _ _ H') as (rest & Er & Hq). rewrite Er in E. unfold strncpy.
  assert (Hm' : mapped m buffer (Z.of_nat (Z.to_nat len))) by (by rewrite Z2Nat.id by lia).
  rewrite (strncpy_loop_spec _ _ _ _ _ Hq Hm') by lia. res_simpl. rewrite (proj2 (Z.eqb_neq buffer 0)) by done.
  set (bs := take (Z.to_nat len) _). assert (Lb : length bs = Z.to_nat len).
  { subst bs. rewrite length_take, !length_app, length_replicate. lia. }
  assert (Hs : stores m (write_bytes m buffer bs) buffer (buffer + len)) by (apply write_bytes_stores; rewrite ?Lb; lia || done).
  rewrite (mapped_store8 _ buffer len) by (lia || by apply mapped_write_bytes). res_simpl. eexists. split; [done|]. split.
  - assert (Ebs : bs = a ++ drop (length a) bs).
    { rewrite <- (take_drop (length a) bs) at 1. f_equal. subst bs. rewrite take_take, Nat.min_l by lia. rewrite <- app_assoc. apply take_app_length. }
    intros i b Hi. destruct (decide (i = length a)) as [->|Hne].
    + rewrite lookup_insert_eq. rewrite lookup_app_r, Nat.sub_diag in Hi by lia. exact Hi.
    + rewrite lookup_insert_ne by lia. assert (i < length a)%nat by (apply lookup_lt_Some in Hi; rewrite length_app in Hi; cbn in Hi; lia).
      rewrite lookup_app_l in Hi by done. apply write_bytes_at. rewrite Ebs. by rewrite lookup_app_l.
  - eapply stores_trans; [exact Hs|]. eapply store8_stores; [|instantiate (1 := buffer + Z.of_nat (length a)); lia].
    apply mapped_store8 with (p := buffer) (n := len); [by apply mapped_write_bytes | lia].
Qed.

(** ** Addresses as text *)

Lemma prefix_at_one j c s : prefix_at j [c] s <-> s !! j = Some c.
Proof.
  unfold prefix_at. rewrite <- (Nat.add_0_r j) at 2. rewrite <- lookup_drop. destruct (drop j s) as [|b l]; cbn; split; intros [=]; by subst.
Qed.

Lemma not_digit_in b c ds : Forall (digit_in 10) ds -> b ∈ ds -> digit_value c = None -> b <> c.
Proof.
  intros H Hb Hc ->. apply list_elem_of_lookup_1 in Hb as [i Hi]. destruct (Forall_lookup_1 _ _ _ _ H Hi) as (d & E & _). congruence.
Qed.

Lemma digit_range b : digit_in 10 b -> isdigit b = true.
Proof.
  intros (d & H & Hd). unfold digit_value in H. unfold isdigit, isdigit in *. repeat case_match; simplify_eq; lia.
Qed.

(** A number of an address: at most nine digits. *)
Definition octet_ok (ds : list Z) : Prop :=
  ds <> [] /\ (length ds <= 9)%nat /\ Forall (digit_in 10) ds /\ digits_value 10 ds <= 255.

Lemma octet_free ds c : octet_ok ds -> digit_value c = None -> c ∉ ds.
Proof. intros (_ & _ & H & _) Hc Hin. by apply (not_digit_in c c ds H Hin Hc). Qed.

Lemma decimal_nonneg ds : 0 <= digits_value 10 ds.
Proof.
  unfold digits_value. assert (H : forall acc, 0 <= acc -> 0 <= foldl (fun a b => a * 10 + default 0 (digit_value b)) acc ds); [|by apply H].
  induction ds as [|b ds IH]; intros acc Hacc; [done|]. cbn [foldl]. apply IH.
  destruct (digit_value b) as [d|] eqn:E; cbn; [|lia]. unfold digit_value in E. repeat case_match; simplify_eq; lia.
Qed.

Section text.
Context (octet dot : Z).

(** The text at [str] lies outside the arrays the functions store to. *)
Definition apart_from (lo n str : Z) (s : list Z) : Prop := lo + n <= str \/ str + Z.of_nat (length s) < lo.

Lemma strstr_found m str a rest : cstr m str (a ++ DOT :: rest) -> cstr m dot [DOT] -> str <> 0 -> dot <> 0 ->
  Z.of_nat (length (a ++ DOT :: rest)) < 2 ^ 31 -> DOT ∉ a -> strstr m str dot = Ok (str + Z.of_nat (length a)).
Proof.
  intros Hs Hd Hs0 Hd0 Hl Hn. destruct (strstr_spec _ _ _ _ _ Hs Hd Hs0 Hd0) as (r & E & Hr); [done | done | done|].
  rewrite E. f_equal. destruct Hr as [(j & Hj & -> & Hp%prefix_at_one & Hi) | [_ Hno]].
  - assert (j = length a) as ->; [|done]. destruct (Nat.lt_trichotomy j (length a)) as [Hlt | [? | Hgt]]; [|done|].
    + rewrite lookup_app_l in Hp by done. apply list_elem_of_lookup_2 in Hp. done.
    + destruct (Hi (length a) Hgt). apply prefix_at_one. by apply list_lookup_middle.
  - destruct (Hno (length a)); [rewrite length_app; cbn; lia|]. apply prefix_at_one. by apply list_lookup_middle.
Qed.

Lemma strstr_missing m str s : cstr m str s -> cstr m dot [DOT] -> str <> 0 -> dot <> 0 -> Z.of_nat (length s) < 2 ^ 31 -> DOT ∉ s ->
  strstr m str dot = Ok 0.
Proof.
  intros Hs Hd Hs0 Hd0 Hl Hn. destruct (strstr_spec _ _ _ _ _ Hs Hd Hs0 Hd0) as (r & E & Hr); [done | done | done|].
  rewrite E. f_equal. destruct Hr as [(j & Hj & -> & Hp%prefix_at_one & Hi) | [? _]]; [|done].
  apply list_elem_of_lookup_2 in Hp. done.
Qed.

Lemma strchr_found m str a c rest : cstr m str (a ++ c :: rest) -> 0 < c < 256 -> c ∉ a -> strchr m str c = Ok (str + Z.of_nat (length a)).
Proof.
  intros Hs Hc Hn. destruct (strchr_spec _ _ _ c Hs Hc) as (r & E & [[_ Hno] | (k & -> & Hk & Ht)]); rewrite E; f_equal.
  - destruct Hno. set_solver.
  - assert (k = length a) as ->; [|done]. destruct (Nat.lt_trichotomy k (length a)) as [Hlt | [? | Hgt]]; [|done|].
    + rewrite lookup_app_l in Hk by done. apply list_elem_of_lookup_2 in Hk. done.
    + destruct Ht. apply list_elem_of_lookup_2 with (i := length a). rewrite lookup_take_lt by done. by apply list_lookup_middle.
Qed.

Lemma strchr_missing m str s c : cstr m str s -> 0 < c < 256 -> c ∉ s -> strchr m str c = Ok 0.
Proof.
  intros Hs Hc Hn. destruct (strchr_spec _ _ _ c Hs Hc) as (r & E & [[-> _] | (k & -> & Hk & _)]); rewrite E; [done|].
  apply list_elem_of_lookup_2 in Hk. done.
Qed.

(** The number is in the array [octet]. *)
Definition octet_holds (m : mem) (ds : list Z) (m' : mem) : Prop :=
  exists pad, (length ds + 1 + length pad <= 10)%nat /\ m' = write_bytes m octet (ds ++ 0 :: pad).

Lemma strncpy_octet m str s n : cstr m str s -> mapped m octet 10 -> apart_from octet 10 str s -> (n <= 9)%nat ->
  strncpy m octet str (Z.of_nat n) = Ok (octet, write_bytes m octet (take n (s ++ replicate n 0))) /\
  store8 (write_bytes m octet (take n (s ++ replicate n 0))) (octet + Z.of_nat n) 0 =
    Ok (write_bytes m octet (take n (s ++ replicate n 0) ++ [0])).
Proof.
  intros Hs Hm Ha Hn. unfold strncpy. rewrite Nat2Z.id. rewrite (strncpy_loop_spec m n octet str s Hs).
  - split; [done|]. set (x := take n _). assert (Lx : length x = n).
    { subst x. rewrite length_take, length_app, length_replicate. lia. }
    rewrite (mapped_store8 _ octet 10) by (lia || by apply mapped_write_bytes). f_equal.
    rewrite <- write_bytes_seq, Lx. done.
  - intros a Haa. apply Hm. lia.
  - unfold apart_from in Ha. lia.
Qed.

Lemma octet_cstr m ds m' : octet_holds m ds m' -> Forall (digit_in 10) ds -> cstr m' octet ds.
Proof.
  intros (pad & _ & ->) Hd. apply digits_cstr; [done|]. replace (ds ++ 0 :: pad) with ((ds ++ [0]) ++ pad) by (by rewrite <- app_assoc).
  eapply bytes_at_app_l, write_bytes_at.
Qed.

Lemma octet_value m ds m' : octet_holds m ds m' -> octet_ok ds -> exists q, strtol m' octet 10 = Ok (digits_value 10 ds, q).
Proof.
  intros H (Hne & _ & Hd & Hv). pose proof (octet_cstr _ _ _ H Hd) as Hc. eexists.
  pose proof (strtol_spec m' octet [] false [] ds [] 10 10) as E. cbn [app length] in E. rewrite app_nil_r in E.
  rewrite E; [|done|done| | |by right; left|done|done].
  - rewrite decide_True by lia. rewrite Z.mul_1_l, s64_small; [reflexivity|]. pose proof (decimal_nonneg ds). lia.
  - destruct ds as [|b ds]; [done|]. apply Forall_cons_1 in Hd as [Hd _]. by apply (blank_not_digit 10).
  - destruct ds as [|b ds]; [done|]. apply Forall_cons_1 in Hd as [(d & Hd & _) _]. cbn. intros ->. discriminate.
Qed.

(** The text up to a separator. *)
Lemma cut_octet m str ds c rest : cstr m str (ds ++ c :: rest) -> mapped m octet 10 -> apart_from octet 10 str (ds ++ c :: rest) -> (length ds <= 9)%nat ->
  let len := u32 (to_signed 16 (str + Z.of_nat (length ds) - str)) in
  exists m', octet_holds m ds m' /\ (10 <=? len) = false /\
    ('(_, m) ← strncpy m octet str len; m ← store8 m (octet + len) 0; Ok (Some (m, str + len))) = Ok (Some (m', str + Z.of_nat (length ds))).
Proof.
  intros Hs Hm Ha Hl len. assert (len = Z.of_nat (length ds)) as ->.
  { subst len. rewrite Z.add_simpl_l. replace (to_signed 16 (Z.of_nat (length ds))) with (Z.of_nat (length ds)); [apply u32_small; lia|].
    unfold to_signed. cbn [Z.sub]. rewrite Z.mod_small by lia. by rewrite (proj2 (Z.ltb_lt _ _)) by (cbn; lia). }
  destruct (strncpy_octet m str _ (length ds) Hs Hm Ha Hl) as [E1 E2]. rewrite E1. res_simpl. rewrite E2. res_simpl.
  rewrite <- app_assoc, take_app_length. eexists. split; [|split; [|done]].
  - exists []. split; [cbn; lia | done].
  - apply Z.leb_gt. lia.
Qed.

(** The text up to its end. *)
Lemma copy_octet m str ds : cstr m str ds -> mapped m octet 10 -> apart_from octet 10 str ds -> Forall (digit_in 10) ds -> (length ds <= 9)%nat ->
  exists m', octet_holds m ds m' /\
    ('(_, m) ← strncpy m octet str 9; m ← store8 m (octet + 9) 0; Ok m) = Ok m' /\ strlen m' octet = Ok (Z.of_nat (length ds)).
Proof.
  intros Hs Hm Ha Hd Hl. destruct (strncpy_octet m str _ 9 Hs Hm Ha ltac:(lia)) as [E1 E2]. change (Z.of_nat 9) with 9 in *.
  rewrite E1. res_simpl. rewrite E2. res_simpl. eexists. split; [|split; [done|]].
  - exists (replicate (9 - length ds) 0). rewrite length_replicate. split; [lia|]. f_equal.
    rewrite take_app, take_ge, take_replicate, Nat.min_l, <- app_assoc by lia. f_equal. by rewrite <- replicate_S_end.
  - apply strlen_spec; [|lia]. apply (octet_cstr m); [|done]. exists (replicate (9 - length ds) 0). rewrite length_replicate. split; [lia|]. f_equal.
    rewrite take_app, take_ge, take_replicate, Nat.min_l, <- app_assoc by lia. f_equal. by rewrite <- replicate_S_end.
Qed.
End text.

(** ** The whole address *)

(** Two ranges of addresses have no address in common. *)
Definition disjoint (a n b k : Z) : Prop := a + n <= b \/ b + k <= a.

(** The netmask for a number of bits. *)
Definition netmask_of (bits : Z) : Z := u32 (Z.shiftl 0xFFFFFFFF (32 - bits)).

(** An address, and the number of bits behind a backslash, if there is one. *)
Definition ip_text (l : list (list Z)) (nn : option (list Z)) : list Z :=
  joined DOT l ++ match nn with Some ns => BACKSLASH :: ns | None => [] end.

Definition bits_ok (nn : option (list Z)) : Prop :=
  match nn with Some ns => octet_ok ns /\ 1 <= digits_value 10 ns <= 31 | None => True end.

Section address.
Context (octet dot lo hi ip netmask : Z).
(** The text and the literal lie apart from what is stored. *)
Record places : Prop := {
  pl_lo : 0 < lo; pl_dot : dot <> 0; pl_len : hi - lo <= 2 ^ 31;
  pl_octet_text : disjoint octet 10 lo (hi - lo); pl_ip_text : disjoint ip 4 lo (hi - lo); pl_mask_text : disjoint netmask 4 lo (hi - lo);
  pl_octet_dot : disjoint octet 10 dot 2; pl_ip_dot : disjoint ip 4 dot 2; pl_mask_dot : disjoint netmask 4 dot 2;
  pl_octet_ip : disjoint octet 10 ip 4; pl_octet_mask : disjoint octet 10 netmask 4; pl_ip_mask : disjoint ip 4 netmask 4 }.
Context (P : places).

(** The memory has the arrays and the literal. *)
Record ready (m : mem) : Prop := {
  rd_octet : mapped m octet 10; rd_ip : mapped m ip 4; rd_mask : netmask <> 0 -> mapped m netmask 4; rd_dot : cstr m dot [DOT] }.

(** What is not stored to. *)
Definition elsewhere (a : Z) : Prop :=
  (a < octet \/ octet + 10 <= a) /\ (a < ip \/ ip + 4 <= a) /\ (netmask = 0 \/ a < netmask \/ netmask + 4 <= a).
Definition keeps (m m' : mem) : Prop := (forall a, elsewhere a -> m' !! a = m !! a) /\ dom m' = dom m.

Lemma memory_kept_trans m1 m2 m3 : keeps m1 m2 -> keeps m2 m3 -> keeps m1 m3.
Proof. intros [H1 E1] [H2 E2]. split; [|congruence]. intros a Ha. by rewrite H2, H1. Qed.

Lemma keeps_mapped m m' p n : keeps m m' -> mapped m p n -> mapped m' p n.
Proof. intros [_ E] H a Ha. apply (same_dom_is_Some m); [done | by apply H]. Qed.

Lemma keeps_ready m m' : keeps m m' -> ready m -> ready m'.
Proof using P.
  intros Hk [Ho Hi Hm Hd]. split; try (by eapply keeps_mapped); [intros Hn; eapply keeps_mapped; eauto|].
  destruct Hd as [Hb Hr]. split; [|done]. intros i b Hib. rewrite (proj1 Hk); [by apply Hb|].
  apply lookup_lt_Some in Hib. cbn in Hib. destruct P. unfold disjoint, elsewhere in *. lia.
Qed.

(** A text within the range of the whole text. *)
Definition text_at (m : mem) (str : Z) (s : list Z) : Prop := cstr m str s /\ lo <= str /\ str + Z.of_nat (length s) < hi.

Lemma keeps_text m m' str s : keeps m m' -> text_at m str s -> text_at m' str s.
Proof using P.
  intros [Hk _] ([Hb Hr] & H1 & H2). split; [|done]. split; [|done]. intros i b Hib. rewrite Hk; [by apply Hb|].
  apply lookup_lt_Some in Hib. rewrite length_app in Hib. cbn in Hib. destruct P. unfold disjoint, elsewhere in *. lia.
Qed.

Lemma text_apart m str s : text_at m str s -> apart_from octet 10 str s.
Proof using P. intros (_ & ? & ?). destruct P. unfold disjoint, apart_from in *. lia. Qed.

Lemma octet_keeps m ds m' : ready m -> octet_holds octet m ds m' -> keeps m m'.
Proof.
  intros [Ho _ _ _] (pad & Hl & ->). assert (mapped m octet (Z.of_nat (length (ds ++ 0 :: pad)))).
  { intros a Ha. apply Ho. rewrite length_app in Ha. cbn [length] in Ha. lia. }
  split; [|by apply write_bytes_dom]. intros a [Ha _]. apply write_bytes_outside. rewrite length_app. cbn [length]. lia.
Qed.

(** What a number leaves of the bytes of the address. *)
Lemma octet_ip m ds m' l : octet_holds octet m ds m' -> bytes_at m ip l -> (length l <= 4)%nat -> bytes_at m' ip l.
Proof using P.
  intros (pad & Hl & ->) Hb Hn i b Hi. rewrite write_bytes_outside; [by apply Hb|]. apply lookup_lt_Some in Hi.
  rewrite length_app. cbn [length]. destruct P. unfold disjoint in *. lia.
Qed.

Lemma store_ip m l v : ready m -> bytes_at m ip l -> (length l < 4)%nat -> 0 <= v < 256 ->
  exists m', store8 m (ip + Z.of_nat (length l)) v = Ok m' /\ keeps m m' /\ bytes_at m' ip (l ++ [v]).
Proof.
  intros Hr Hb Hl Hv. eexists. rewrite (mapped_store8 _ ip 4) by (lia || apply Hr). rewrite u8_small by lia. split; [done|]. split.
  - split; [intros a (_ & Ha & _); apply lookup_insert_ne; lia|]. apply dom_insert_lookup_L. apply (rd_ip _ Hr). lia.
  - intros i b Hi. destruct (decide (i = length l)) as [->|].
    + rewrite lookup_app_r, Nat.sub_diag in Hi by lia. injection Hi as <-. apply lookup_insert_eq.
    + assert (i < length l)%nat by (apply lookup_lt_Some in Hi; rewrite length_app in Hi; cbn in Hi; lia).
      rewrite lookup_insert_ne by lia. apply Hb. by rewrite lookup_app_l in Hi.
Qed.

(** The text of a number in front of a dot, a backslash, or the end. *)
Lemma next_octet_dot m str ds rest nn : ready m -> text_at m str (ds ++ DOT :: rest) -> octet_ok ds ->
  exists m', next_octet octet dot m str nn = Ok (Some (m', str + Z.of_nat (length ds), nn)) /\ octet_holds octet m ds m'.
Proof using P.
  intros [Ho _ _ Hd] Ht Hds. pose proof (text_apart _ _ _ Ht) as Ha. destruct Ht as (Hs & H1 & H2). destruct P.
  destruct (cut_octet octet m str ds DOT rest Hs Ho Ha) as (m' & Hm & Hle & E); [apply Hds|].
  exists m'. split; [|done]. unfold next_octet. rewrite (strstr_found dot m str ds rest) by (done || lia || by apply octet_free). res_simpl.
  rewrite (proj2 (Z.eqb_neq _ 0)) by lia. cbn [negb]. rewrite Hle. unfold strncpy in *. 
  destruct (strncpy_loop _ _ _ _) as [m1| |]; res_simpl; [|done..]. destruct (store8 m1 _ _) as [m2| |]; res_simpl; [|done..]. injection E as -> ->. done.
Qed.

Lemma next_octet_backslash m str ds rest nn : ready m -> text_at m str (ds ++ BACKSLASH :: rest) -> octet_ok ds -> DOT ∉ rest ->
  exists m', next_octet octet dot m str nn = Ok (Some (m', str + Z.of_nat (length ds), true)) /\ octet_holds octet m ds m'.
Proof using P.
  intros [Ho _ _ Hd] Ht Hds Hr. pose proof (text_apart _ _ _ Ht) as Ha. destruct Ht as (Hs & H1 & H2). destruct P.
  destruct (cut_octet octet m str ds BACKSLASH rest Hs Ho Ha) as (m' & Hm & Hle & E); [apply Hds|].
  assert (DOT ∉ ds ++ BACKSLASH :: rest).
  { rewrite elem_of_app, elem_of_cons. intros [Hin | [? | ?]]; [|done..]. by apply (octet_free ds DOT Hds). }
  exists m'. split; [|done]. unfold next_octet. rewrite (strstr_missing dot m str (ds ++ BACKSLASH :: rest)) by (done || lia). res_simpl.
  rewrite Z.eqb_refl. cbn [negb]. rewrite (strchr_found m str ds BACKSLASH rest) by (done || by apply octet_free). res_simpl.
  rewrite (proj2 (Z.eqb_neq _ 0)) by lia. cbn [negb]. rewrite Hle. unfold strncpy in *.
  destruct (strncpy_loop _ _ _ _) as [m1| |]; res_simpl; [|done..]. destruct (store8 m1 _ _) as [m2| |]; res_simpl; [|done..]. injection E as -> ->. done.
Qed.

Lemma next_octet_end m str ds nn : ready m -> text_at m str ds -> octet_ok ds ->
  exists m', next_octet octet dot m str nn = Ok (Some (m', str + Z.of_nat (length ds), nn)) /\ octet_holds octet m ds m'.
Proof using P.
  intros [Ho _ _ Hd] Ht Hds. pose proof (text_apart _ _ _ Ht) as Ha. destruct Ht as (Hs & H1 & H2). destruct P.
  destruct (copy_octet octet m str ds Hs Ho Ha) as (m' & Hm & E & El); [apply Hds..|].
  exists m'. split; [|done]. unfold next_octet. rewrite (strstr_missing dot m str ds) by (done || lia || by apply octet_free). res_simpl.
  rewrite Z.eqb_refl. cbn [negb]. rewrite (strchr_missing m str ds) by (done || by apply octet_free). res_simpl. rewrite Z.eqb_refl. cbn [negb].
  unfold strncpy in *. destruct (strncpy_loop _ _ _ _) as [m1| |]; res_simpl; [|done..]. destruct (store8 m1 _ _) as [m2| |]; res_simpl; [|done..].
  injection E as ->. by rewrite El.
Qed.

Lemma read_netmask_spec m str ns : ready m -> text_at m str (BACKSLASH :: ns) -> octet_ok ns -> 1 <= digits_value 10 ns <= 31 ->
  exists m', read_netmask octet m str netmask = Ok (Some (m', str + 1 + Z.of_nat (length ns))) /\ keeps m m' /\
    (forall l, bytes_at m ip l -> (length l <= 4)%nat -> bytes_at m' ip l) /\
    (netmask <> 0 -> load_be 4 m' netmask = Ok (netmask_of (digits_value 10 ns))).
Proof using P.
  intros Hr (Hs & H1 & H2) Hns Hv. apply cstr_cons in Hs as (_ & _ & Hs). cbn [length] in H2.
  assert (Ht : text_at m (str + 1) ns) by (split; [done | lia]). pose proof (text_apart _ _ _ Ht) as Ha.
  destruct (copy_octet octet m (str + 1) ns Hs (rd_octet _ Hr) Ha) as (m1 & Hm & E & El); [apply Hns..|].
  pose proof (octet_keeps _ _ _ Hr Hm) as Hk. destruct (octet_value _ _ _ _ Hm Hns) as [q Eq].
  unfold read_netmask. unfold strncpy in *. destruct (strncpy_loop _ _ _ _) as [m2| |]; res_simpl; [|done..]. destruct (store8 m2 _ _) as [m3| |]; res_simpl; [|done..].
  injection E as ->. rewrite Eq. res_simpl. rewrite El. res_simpl. rewrite s32_small by lia.
  rewrite (proj2 (Z.ltb_ge 31 _)), (proj2 (Z.ltb_ge _ 1)) by lia. cbn [orb]. destruct (Z.eqb_spec netmask 0) as [E0 | Hn0]; cbn [negb]; res_simpl.
  - exists m1. split; [done|]. split; [done|]. split; [|done]. intros l. by apply (octet_ip m ns).
  - pose proof (keeps_mapped _ _ _ _ Hk (rd_mask _ Hr Hn0)) as Hmm.
    assert (Ws : store_be 4 m1 netmask (netmask_of (digits_value 10 ns)) = Ok (write_bytes m1 netmask (be_enc 4 (netmask_of (digits_value 10 ns))))).
    { by apply store_be_spec. }
    unfold netmask_of at 1 in Ws. rewrite Ws. res_simpl. set (v := netmask_of _) in *. eexists. split; [done|]. split; [|split].
    + eapply memory_kept_trans; [exact Hk|]. split; [|by apply write_bytes_dom; rewrite be_enc_length].
      intros a (_ & _ & Hm'). apply write_bytes_outside. rewrite be_enc_length. lia.
    + intros l Hl Hl4 i b Hi. pose proof (octet_ip _ _ _ l Hm Hl Hl4 i b Hi) as E. rewrite write_bytes_outside; [exact E|].
      apply lookup_lt_Some in Hi. rewrite be_enc_length. destruct P. unfold disjoint in *. lia.
    + intros _. rewrite (load_be_spec 4 _ _ (be_enc 4 v)); [|apply write_bytes_at | by rewrite be_enc_length].
      rewrite be_dec_enc. f_equal. apply Z.mod_small. subst v. unfold netmask_of. exact (u32_range _).
Qed.

(** What is known when the loop has ended. *)
Definition parsed (m : mem) (vals : list Z) (nn : option (list Z)) (m' : mem) : Prop :=
  keeps m m' /\ bytes_at m' ip (take 4 vals) /\
  match nn with
  | Some ns => netmask <> 0 -> (length vals <= 4)%nat -> load_be 4 m' netmask = Ok (netmask_of (digits_value 10 ns))
  | None => True
  end.

(** One turn, up to the separator. *)
Lemma strtoip_turn fuel m str vals ds s nn m1 str1 nn1 : ready m -> bytes_at m ip vals -> (length vals < 4)%nat -> octet_ok ds -> text_at m str (ds ++ s) ->
  next_octet octet dot m str nn = Ok (Some (m1, str1, nn1)) -> octet_holds octet m ds m1 ->
  exists m2, keeps m m2 /\ bytes_at m2 ip (vals ++ [digits_value 10 ds]) /\
    strtoip_loop octet dot (S fuel) m str ip (Z.of_nat (length vals)) netmask nn =
      (c ← load8 m2 str1;
       let str := if c =? DOT then str1 + 1 else str1 in
       r ← (if nn1 : bool then read_netmask octet m2 str netmask else Ok (Some (m2, str)));
       match r with
       | None => Ok (0, m2)
       | Some (m, str) => strtoip_loop octet dot fuel m str ip (Z.of_nat (length (vals ++ [digits_value 10 ds]))) netmask nn1
       end).
Proof using P.
  intros Hr Hb Hv Hds (Hs & _) En Hm. pose proof Hds as (Hne & _ & Hdd & Hdv). pose proof (decimal_nonneg ds).
  pose proof (octet_keeps _ _ _ Hr Hm) as Hk. destruct (octet_value _ _ _ _ Hm Hds) as [q Eq].
  destruct (store_ip m1 vals (digits_value 10 ds)) as (m2 & E2 & Hk2 & Hb2);
    [by eapply keeps_ready | eapply octet_ip; [exact Hm | done | lia] | done | lia|].
  exists m2. split; [by eapply memory_kept_trans|]. split; [done|]. cbn [strtoip_loop].
  rewrite (cstr_head _ _ _ Hs). res_simpl. destruct ds as [|b ds]; [done|]. cbn [app hd].
  apply cstr_cons in Hs as (_ & Hb0 & _). rewrite (proj2 (Z.eqb_neq b 0)) by lia. apply Forall_cons_1 in Hdd as [Hd _]. rewrite (digit_range _ Hd).
  rewrite (proj2 (Z.ltb_ge 3 _)) by lia. cbn [negb orb]. rewrite En. res_simpl. rewrite Eq. res_simpl.
  rewrite s32_small by lia. rewrite (proj2 (Z.ltb_ge 255 _)), (proj2 (Z.ltb_ge _ 0)) by lia. cbn [orb]. rewrite E2. res_simpl.
  by rewrite length_app, Nat2Z.inj_add.
Qed.

(** The end of the text. *)
Lemma strtoip_stop fuel m str (vals : list Z) nn : text_at m str [] -> (length vals <= 4)%nat -> fuel <> O ->
  strtoip_loop octet dot fuel m str ip (Z.of_nat (length vals)) netmask nn = Ok (if decide (length vals = 4%nat) then -1 else 0, m).
Proof.
  intros (Hs & _) Hl Hf. destruct fuel as [|fuel]; [done|]. cbn [strtoip_loop]. rewrite (cstr_head _ _ _ Hs). res_simpl. cbn [hd Z.eqb].
  do 2 f_equal. case_decide as Hd; [by rewrite Hd|]. by rewrite (proj2 (Z.eqb_neq _ _)) by lia.
Qed.

Lemma text_at_app m str a s : text_at m str (a ++ s) -> text_at m (str + Z.of_nat (length a)) s.
Proof. intros (Hs & H1 & H2). rewrite length_app in H2. split; [by apply cstr_app_r | lia]. Qed.

Lemma strtoip_loop_spec nn l : bits_ok nn -> forall fuel m str vals, ready m -> l <> [] -> Forall octet_ok l -> text_at m str (ip_text l nn) ->
  bytes_at m ip vals -> (length vals <= 4)%nat -> (6 <= length vals + fuel)%nat ->
  let vals' := vals ++ (digits_value 10 <$> l) in
  exists m', strtoip_loop octet dot fuel m str ip (Z.of_nat (length vals)) netmask false =
      Ok (if decide (length vals' = 4%nat) then -1 else 0, m') /\ parsed m vals' nn m'.
Proof using P.
  intros Hnn. induction l as [|ds l IH]; intros fuel m str vals Hr Hne Hl Ht Hb Hv Hf vals'; [done|]. destruct fuel as [|fuel]; [lia|].
  apply Forall_cons_1 in Hl as [Hds Hl]. assert (El : length vals' = (length vals + S (length l))%nat) by (subst vals'; rewrite length_app; cbn; by rewrite length_fmap).
  destruct (decide (length vals = 4%nat)) as [H4 | H4].
  { exists m. rewrite decide_False by lia. split.
    - destruct Ht as (Hs & _). cbn [strtoip_loop]. rewrite (cstr_head _ _ _ Hs). res_simpl. rewrite H4.
      case_match eqn:E0; [|done]. exfalso. destruct Hds as (Hd0 & _). destruct ds as [|b ds]; [done|]. apply Z.eqb_eq in E0.
      unfold ip_text in *. destruct l; cbn in Hs, E0; apply cstr_cons in Hs as (_ & ? & _); lia.
    - split; [split; [done | done]|]. split; [subst vals'; by rewrite <- H4, take_app_length|]. destruct nn; [lia | done]. }
  destruct (decide (l = [])) as [-> | Hle].
  - subst vals'. cbn [fmap list_fmap length] in *. destruct nn as [ns|]; cbn [ip_text joined] in Ht; unfold ip_text in Ht; cbn [joined] in Ht.
    + destruct Hnn as [Hns Hbits]. destruct (next_octet_backslash m str ds ns false Hr Ht Hds) as (m1 & En & Hm); [by apply octet_free|].
      destruct (strtoip_turn fuel m str vals ds _ _ _ _ _ Hr Hb ltac:(lia) Hds Ht En Hm) as (m2 & Hk & Hb2 & ->).
      apply (text_at_app _ _ ds) in Ht. apply (keeps_text _ _ _ _ Hk) in Ht. pose proof (keeps_ready _ _ Hk Hr) as Hr2.
      rewrite (cstr_head _ _ _ (proj1 Ht)). res_simpl. change (hd 0 (BACKSLASH :: ns) =? DOT) with false. cbv iota zeta.
      destruct (read_netmask_spec m2 _ ns Hr2 Ht Hns Hbits) as (m3 & E3 & Hk3 & Hb3 & Hl3). rewrite E3. res_simpl.
      assert (Ht3 : text_at m3 (str + Z.of_nat (length ds) + 1 + Z.of_nat (length ns)) []).
      { apply (keeps_text _ _ _ _ Hk3), (text_at_app _ _ ns), (text_at_app _ _ [BACKSLASH]). rewrite app_nil_r. exact Ht. }
      rewrite strtoip_stop by (done || lia). exists m3. split; [done|]. split; [by eapply memory_kept_trans|]. split; [|intros Hn0 _; by apply Hl3].
      rewrite take_ge by lia. apply Hb3; [done | lia].
    + rewrite app_nil_r in Ht. destruct (next_octet_end m str ds false Hr Ht Hds) as (m1 & En & Hm).
      rewrite <- (app_nil_r ds) in Ht.
      destruct (strtoip_turn fuel m str vals ds [] _ _ _ _ Hr Hb ltac:(lia) Hds Ht En Hm) as (m2 & Hk & Hb2 & ->).
      apply text_at_app, (keeps_text _ _ _ _ Hk) in Ht. rewrite (cstr_head _ _ _ (proj1 Ht)). res_simpl. cbn [hd]. change (0 =? DOT) with false. cbv iota zeta. res_simpl.
      rewrite strtoip_stop by (done || lia). exists m2. split; [done|]. split; [done|]. split; [by rewrite take_ge by lia | done].
  - unfold ip_text in Ht. rewrite joined_cons, <- app_assoc in Ht by done. cbn [app] in Ht.
    destruct (next_octet_dot m str ds _ false Hr Ht Hds) as (m1 & En & Hm).
    destruct (strtoip_turn fuel m str vals ds _ _ _ _ _ Hr Hb ltac:(lia) Hds Ht En Hm) as (m2 & Hk & Hb2 & ->).
    apply text_at_app, (keeps_text _ _ _ _ Hk) in Ht. rewrite (cstr_head _ _ _ (proj1 Ht)). res_simpl. cbn [hd]. rewrite Z.eqb_refl. cbv iota zeta. res_simpl.
    apply (text_at_app _ _ [DOT]) in Ht. change (Z.of_nat (length [DOT])) with 1 in Ht. pose proof (keeps_ready _ _ Hk Hr) as Hr2.
    destruct (IH fuel m2 _ (vals ++ [digits_value 10 ds]) Hr2 Hle Hl Ht Hb2) as (m' & -> & Hk' & Hb' & Hn'); [rewrite length_app; cbn; lia..|].
    subst vals'. cbn [fmap list_fmap]. rewrite <- app_assoc in *. cbn [app] in *. exists m'. split; [done|]. split; [by eapply memory_kept_trans|]. by split.
Qed.
End address.

(** What strtoip does with any list of numbers: it stores the first four, and
    does not clear them when there are fewer or more (short_address below). *)
Lemma strtoip_stores octet dot lo hi ip netmask m l nn : places octet dot lo hi ip netmask -> ready octet dot ip netmask m ->
  l <> [] -> Forall octet_ok l -> bits_ok nn -> text_at lo hi m lo (ip_text l nn) ->
  exists m', strtoip_netmask octet dot m lo ip netmask = Ok (if decide (length l = 4%nat) then -1 else 0, m') /\
    parsed octet ip netmask m (digits_value 10 <$> l) nn m'.
Proof.
  intros P Hr Hne Hl Hnn Ht. destruct (strtoip_loop_spec octet dot lo hi ip netmask P nn l Hnn 6 m lo [] Hr Hne Hl Ht) as (m' & E & H);
    [by intros i b Hi | cbn; lia.. |]. exists m'. cbn [app] in *. rewrite length_fmap in E. by split.
Qed.

(** C36: Of four numbers up to 255 with dots between them strtoip makes an address, the byte [i] of which is the value of the
    number [i]; the number of bits behind a backslash gives the netmask, if the caller wants it; a list of fewer or more
    numbers is refused.  Nothing is stored to but the arrays. *)
Theorem strtoip_correct octet dot lo hi ip netmask m l nn : places octet dot lo hi ip netmask -> ready octet dot ip netmask m ->
  l <> [] -> Forall octet_ok l -> bits_ok nn -> text_at lo hi m lo (ip_text l nn) ->
  exists m', keeps octet ip netmask m m' /\
    if decide (length l = 4%nat)
    then strtoip_netmask octet dot m lo ip netmask = Ok (-1, m') /\ bytes_at m' ip (digits_value 10 <$> l) /\
      match nn with
      | Some ns => netmask <> 0 -> load_be 4 m' netmask = Ok (netmask_of (digits_value 10 ns))
      | None => True
      end
    else strtoip_netmask octet dot m lo ip netmask = Ok (0, m').
Proof.
  intros P Hr Hne Hl Hnn Ht. destruct (strtoip_stores octet dot lo hi ip netmask m l nn P Hr Hne Hl Hnn Ht) as (m' & E & Hk & Hb & Hm).
  exists m'. split; [done|]. case_decide as H4; [|done]. split; [done|].
  rewrite take_ge in Hb by (rewrite length_fmap; lia). split; [done|].
  destruct nn as [ns|]; [|done]. intros Hn. apply Hm; [done | rewrite length_fmap; lia].
Qed.

(** ** Concrete texts *)

(** The text at 100, the array octet at 200, the address at 240, the netmask at 248, the literal at 20. *)
Definition text_mem (s : list Z) : mem :=
  write_bytes (write_bytes (write_bytes ∅ 200 (replicate 60 0)) 100 (s ++ [0])) 20 [DOT; 0].

(** 10.0.2.15\24 *)
Definition sample_ip : list (list Z) := [[49; 48]; [48]; [50]; [49; 53]].

Lemma strtoip_correct_witness :
  exists m', strtoip_netmask 200 20 (text_mem (ip_text sample_ip (Some [50; 52]))) 100 240 248 = Ok (-1, m') /\
    bytes_at m' 240 [10; 0; 2; 15] /\ load_be 4 m' 248 = Ok 0xFFFFFF00.
Proof.
  destruct (strtoip_correct 200 20 100 120 240 248 (text_mem (ip_text sample_ip (Some [50; 52]))) sample_ip (Some [50; 52]))
    as (m' & _ & E & Hb & Hn).
  - split; unfold disjoint; lia.
  - split; [(apply (mappedb_spec _ 200 10); vm_compute; reflexivity) | (apply (mappedb_spec _ 240 4); vm_compute; reflexivity) | intros _; (apply (mappedb_spec _ 248 4); vm_compute; reflexivity) | mem_compute].
  - discriminate.
  - repeat constructor; try discriminate; cbn; try lia; eexists; (split; [reflexivity | lia]).
  - split; [|cbn; lia]. repeat constructor; try discriminate; cbn; try lia; eexists; (split; [reflexivity | lia]).
  - split; [mem_compute | cbn; lia].
  - exists m'. split; [exact E|]. split; [exact Hb|]. apply Hn. discriminate.
Defined.

(** 10.0.2 and no more: strtoip fails, and the array for the address, which was
    zero, holds the three numbers. *)
Example short_address :
  ('(r, m) ← strtoip_netmask 200 20 (text_mem (ip_text (take 3 sample_ip) None)) 100 240 248;
   bs ← load_bytes m 240 4; Ok (r, bs)) = Ok (0, [10; 0; 2; 0]).
Proof. vm_compute. reflexivity. Qed.

(** netbsd,10.0.2.15,,x at 100 *)
Definition sample_args : list (list Z) := [[110; 101; 116; 98; 115; 100]; [49; 48; 46; 48; 46; 50; 46; 49; 53]; []; [120]].
Definition args_mem : mem := write_bytes (write_bytes ∅ 200 (replicate 16 7)) 100 (joined COMMA sample_args ++ [0]).

Lemma sample_args_at : args_at args_mem 100 sample_args.
Proof. split; [done|]. split; [mem_compute|]. split; [|lia]. repeat constructor; by apply (bool_decide_unpack _). Qed.

Lemma arguments_found_witness : get_args_count args_mem 100 = Ok 4 /\ get_arg_ptr args_mem 100 4 = Ok 0.
Proof.
  destruct (arguments_found args_mem 100 sample_args sample_args_at) as [Hc Hn]; [vm_compute; reflexivity..|].
  split; [exact Hc | exact (Hn 4%nat)].
Defined.

Lemma argncpy_copies_witness :
  exists m', argncpy args_mem 100 1 200 12 = Ok (200, m') /\ bytes_at m' 200 [49; 48; 46; 48; 46; 50; 46; 49; 53; 0] /\ stores args_mem m' 200 212.
Proof.
  apply (argncpy_copies args_mem 100 sample_args 1 [49; 48; 46; 48; 46; 50; 46; 49; 53] 200 12 sample_args_at);
    [reflexivity | vm_compute; reflexivity | lia | (apply (mappedb_spec _ 200 12); vm_compute; reflexivity) | vm_compute; reflexivity | right; vm_compute; reflexivity].
Defined.

(** An argument that is longer than the buffer gets its NUL behind the buffer. *)
Example argncpy_long : (fun x => x.2 !! 209) <$> argncpy args_mem 100 1 200 4 = Ok (Some 0).
Proof. vm_compute. reflexivity. Qed.

(** Only the first character of a number has to be a digit: 1.2.3.4x *)
Example strtoip_accepts : fst <$> strtoip 200 20 (text_mem [49; 46; 50; 46; 51; 46; 52; 120]) 100 240 = Ok (-1).
Proof. vm_compute. reflexivity. Qed.
