(* ===== verification/Printf.v ===== *)
(** * lib/libc/stdio: formatted output

    vsnprintf and its helpers, vsprintf, sprintf and snprintf.  The output
    buffer, the format and the strings printed with %s are in the memory of
    CMem; the local arrays [formstr] and [sizec] and the string literal "0x" are
    lists.  The variable arguments are the list of the 64-bit values va_arg
    reads; reading one more than there are is a [Fault]. *)

From Stdlib Require Import ZArith Lia.
From stdpp Require Import base list gmap option numbers fin_maps.
From S2P Require Import Prelude CMem CString Conv.

(** ** Data *)

Definition convert : list Z :=
  [0x0; 0xFF; 0xFFFF; 0xFFFFFF; 0xFFFFFFFF; 0xFFFFFFFFFF; 0xFFFFFFFFFFFF;
   0xFFFFFFFFFFFFFF; 0xFFFFFFFFFFFFFFFF].

Definition zeichen : list Z := [48; 49; 50; 51; 52; 53; 54; 55; 56; 57; 97; 98; 99; 100; 101; 102].

(** A NUL-terminated string in an array of its own. *)
Definition local_str (s : list Z) : mem := write_bytes ∅ 1 (s ++ [0]).

(** The string argument of print_str: a pointer, or a literal. *)
Inductive strsrc := InMem (p : Z) | Literal (s : list Z).

Definition src_len (m : mem) (s : strsrc) : res Z :=
  match s with InMem p => strlen m p | Literal l => Ok (Z.of_nat (length l)) end.

Definition src_get (m : mem) (s : strsrc) (i : Z) : res Z :=
  match s with InMem p => load8 m (p + i) | Literal l => of_option (l !! Z.to_nat i) end.

(** ** Helpers: they return the new [*buffer] and the memory *)

(** [n] times [**buffer = c; *buffer += 1] while [*buffer - bstart < bufsize]. *)
Fixpoint fill_loop (m : mem) (bstart bufsize c : Z) (n : nat) (buffer : Z) : res (Z * mem) :=
  match n with
  | O => Ok (buffer, m)
  | S n' =>
      if buffer - bstart <? bufsize then
        m' ← store8 m buffer c; fill_loop m' bstart bufsize c n' (buffer + 1)
      else Ok (buffer, m)
  end.

Definition print_str_fill (m : mem) (buffer bufsize : Z) (sizec : list Z) (str c : Z) : res (Z * mem) :=
  '(v, _) ← strtoul (local_str sizec) 1 10;
  let sizei := u32 v in
  l ← strlen m str;
  let len := u32 l in
  if len <? sizei then fill_loop m buffer bufsize c (Z.to_nat (u32 (sizei - len))) buffer
  else Ok (buffer, m).

Fixpoint print_str_loop (fuel : nat) (m : mem) (bstart bufsize : Z) (str : strsrc) (i buffer : Z)
    : res (Z * mem) :=
  match fuel with
  | O => OutOfFuel
  | S fuel' =>
      len ← src_len m str;
      if (i <? len) && (buffer - bstart <? bufsize) then
        b ← src_get m str i; m' ← store8 m buffer b;
        print_str_loop fuel' m' bstart bufsize str (i + 1) (buffer + 1)
      else Ok (buffer, m)
  end.

Definition print_str (m : mem) (buffer bufsize : Z) (str : strsrc) : res (Z * mem) :=
  print_str_loop (walk_fuel m) m buffer bufsize str 0 buffer.

Fixpoint intlen_loop (fuel : nat) (value base i : Z) : res Z :=
  match fuel with
  | O => OutOfFuel
  | S fuel' => if 0 <? value then intlen_loop fuel' (value / base) base (i + 1) else Ok i
  end.

(** 65 turns are enough: a 64-bit value is 0 after 64 divisions by 2 or more. *)
Definition print_intlen (value base : Z) : res Z :=
  i ← intlen_loop 65 value base 0; Ok (if i =? 0 then 1 else i).

(** The do-while loop, [i] counting down; at [i = 0] the index would wrap. *)
Fixpoint itoa_loop (m : mem) (buffer base : Z) (upper : bool) (i : nat) (value : Z) : res mem :=
  match i with
  | O => Fault
  | S i' =>
      z ← of_option (zeichen !! Z.to_nat (value mod base));
      let c := if upper then toupper z else z in
      m' ← store8 m (buffer + Z.of_nat i') c;
      let value := value / base in
      if value =? 0 then Ok m' else itoa_loop m' buffer base upper i' value
  end.

Definition print_itoa (m : mem) (buffer bufsize value base : Z) (upper : bool) : res (Z * (Z * mem)) :=
  if (base <=? 2) || (16 <? base) then Ok (0, (buffer, m)) else
  len ← print_intlen value base;
  if bufsize <? len then Ok (0, (buffer, m)) else
  m' ← itoa_loop m buffer base upper (Z.to_nat len) value;
  Ok (1, (buffer + len, m')).

Definition print_fill (m : mem) (buffer bufsize : Z) (sizec : list Z) (size base c optlen : Z)
    : res (Z * mem) :=
  '(v, _) ← strtoul (local_str sizec) 1 10;
  let sizei := s32 v in
  l ← print_intlen size base;
  let len := s32 (l + optlen) in
  if len <? sizei then fill_loop m buffer bufsize c (Z.to_nat (s32 (sizei - len))) buffer
  else Ok (buffer, m).

(** ** print_format *)

Record fstate := FState {
  fs_buf : Z;            (** *buffer *)
  fs_mem : mem;
  fs_sizec : list Z;     (** sizec[0..i-1] *)
  fs_lmod : Z;           (** length_mod *)
  fs_upper : bool;
}.

Definition SIZEC_LEN : nat := 32.

(** [sizec[k] = x] is in bounds. *)
Definition sizec_ok (s : list Z) : res unit := if decide (length s < SIZEC_LEN)%nat then Ok tt else Fault.

Section format.
Context (start bufsize sign var : Z).

Definition room (buffer : Z) : Z := u64 (bufsize - (buffer - start)).

Definition conv_decimal (c : Z) (s : fstate) : res fstate :=
  _ ← sizec_ok (fs_sizec s);
  let value := u64 var in
  let signBit := u64 (Z.shiftl 1 (fs_lmod s * 8 - 1)) in
  '(b, m, value) ←
    (if negb (c =? 117) && negb (Z.land signBit value =? 0) then
       m ← store8 (fs_mem s) (fs_buf s) 45;
       k ← of_option (convert !! Z.to_nat (fs_lmod s));
       Ok (fs_buf s + 1, m, Z.land (u64 (- value)) k)
     else Ok (fs_buf s, fs_mem s, value));
  '(b, m) ← print_fill m b (room b) (fs_sizec s) value 10 sign 0;
  '(_, (b, m)) ← print_itoa m b (room b) value 10 (fs_upper s);
  Ok (FState b m (fs_sizec s) (fs_lmod s) (fs_upper s)).

(** %x, %X, %o and %O, apart from the assignment to [upper]. *)
Definition conv_masked (base : Z) (s : fstate) : res fstate :=
  _ ← sizec_ok (fs_sizec s);
  k ← of_option (convert !! Z.to_nat (fs_lmod s));
  let value := Z.land (u64 var) k in
  '(b, m) ← print_fill (fs_mem s) (fs_buf s) (room (fs_buf s)) (fs_sizec s) value base sign 0;
  '(_, (b, m)) ← print_itoa m b (room b) value base (fs_upper s);
  Ok (FState b m (fs_sizec s) (fs_lmod s) (fs_upper s)).

Definition conv_pointer (s : fstate) : res fstate :=
  _ ← sizec_ok (fs_sizec s);
  '(b, m) ← print_fill (fs_mem s) (fs_buf s) (room (fs_buf s)) (fs_sizec s) (u64 var) 16 32 2;
  '(b, m) ← print_str m b (room b) (Literal [48; 120]);
  '(_, (b, m)) ← print_itoa m b (room b) (u64 var) 16 (fs_upper s);
  Ok (FState b m (fs_sizec s) (fs_lmod s) (fs_upper s)).

Definition conv_char (s : fstate) : res fstate :=
  _ ← sizec_ok (fs_sizec s);
  '(b, m) ← print_fill (fs_mem s) (fs_buf s) (room (fs_buf s)) (fs_sizec s) 1 10 32 0;
  m ← store8 m b (u64 var);
  Ok (FState (b + 1) m (fs_sizec s) (fs_lmod s) (fs_upper s)).

Definition conv_string (s : fstate) : res fstate :=
  _ ← sizec_ok (fs_sizec s);
  '(b, m) ← print_str_fill (fs_mem s) (fs_buf s) (room (fs_buf s)) (fs_sizec s) (u64 var) 32;
  '(b, m) ← print_str m b (room b) (InMem (u64 var));
  Ok (FState b m (fs_sizec s) (fs_lmod s) (fs_upper s)).

(** The switch on [*form] for the cases that consume one character. *)
Definition conv (c : Z) (s : fstate) : res fstate :=
  if (c =? 117) || (c =? 100) || (c =? 105) then conv_decimal c s                 (* u d i *)
  else if c =? 88 then conv_masked 16                                             (* X *)
    (FState (fs_buf s) (fs_mem s) (fs_sizec s) (fs_lmod s) true)
  else if c =? 120 then conv_masked 16 s                                          (* x *)
  else if (c =? 79) || (c =? 111) then conv_masked 8 s                            (* O o *)
  else if c =? 112 then conv_pointer s                                            (* p *)
  else if c =? 99 then conv_char s                                                (* c *)
  else if c =? 115 then conv_string s                                             (* s *)
  else if c =? 122 then Ok (FState (fs_buf s) (fs_mem s) (fs_sizec s) 8 (fs_upper s)) (* z *)
  else if (48 <=? c) && (c <=? 57) then
    _ ← sizec_ok (fs_sizec s);
    Ok (FState (fs_buf s) (fs_mem s) (fs_sizec s ++ [c]) (fs_lmod s) (fs_upper s))
  else Ok s.

Definition set_lmod (k : Z) (s : fstate) : fstate :=
  FState (fs_buf s) (fs_mem s) (fs_sizec s) k (fs_upper s).

(** The loop over the form string: the NUL is the end of the list, or an
    embedded one. *)
Fixpoint format_loop (form : list Z) (s : fstate) : res fstate :=
  match form with
  | [] => Ok s
  | c :: form' =>
      if negb (c =? 0) && (fs_buf s - start <? bufsize) then
        if c =? 108 then                                                          (* l *)
          match form' with
          | 108 :: form'' => format_loop form'' (set_lmod 8 s)
          | _ => format_loop form' (set_lmod 8 s)
          end
        else if c =? 104 then                                                     (* h *)
          match form' with
          | 104 :: form'' => format_loop form'' (set_lmod 1 s)
          | _ => format_loop form' (set_lmod 2 s)
          end
        else s' ← conv c s; format_loop form' s'
      else Ok s
  end.
End format.

(** [format] is the form string without its NUL; its first character is '%'. *)
Definition print_format (m : mem) (buffer bufsize : Z) (format : list Z) (var : Z)
    : res (Z * (Z * mem)) :=
  let form := tail format in
  let '(sign, form) :=
    match form with
    | c :: form' => if (c =? 48) || (c =? 46) then (48, form') else (32, form)
    | [] => (32, form)
    end in
  s ← format_loop buffer bufsize sign var form (FState buffer m [] 4 false);
  Ok (s32 (fs_buf s - buffer), (fs_buf s, fs_mem s)).

(** ** vsnprintf *)

Definition is_conv (c : Z) : bool :=
  (c =? 100) || (c =? 105) || (c =? 117) || (c =? 120) || (c =? 88) || (c =? 112) ||
  (c =? 99) || (c =? 115) || (c =? 37) || (c =? 79) || (c =? 111).

Definition FORMSTR_LEN : nat := 20.

(** The do-while loop that copies one conversion specification to [formstr]
    (20 bytes); [acc] is what is copied so far, the result also has the pointer
    to the conversion character. *)
Fixpoint scan_form (fuel : nat) (m : mem) (ptr : Z) (acc : list Z) : res (list Z * Z) :=
  match fuel with
  | O => Fault
  | S fuel' =>
      b ← load8 m ptr;
      let acc := acc ++ [b] in
      c ← load8 m (ptr + 1);
      if is_conv c then
        if decide (length acc + 1 < FORMSTR_LEN)%nat then Ok (acc ++ [c], ptr + 1) else Fault
      else scan_form fuel' m (ptr + 1) acc
  end.

Fixpoint vsn_loop (fuel : nat) (m : mem) (bstart bufsize ptr buffer : Z) (arg : list Z)
    : res (Z * mem) :=
  match fuel with
  | O => OutOfFuel
  | S fuel' =>
      b ← load8 m ptr;
      if negb (b =? 0) && (buffer - bstart <? bufsize) then
        if b =? 37 then
          '(formstr, ptr) ← scan_form FORMSTR_LEN m ptr [];
          c ← load8 m ptr;
          if c =? 37 then
            m ← store8 m buffer 37;
            vsn_loop fuel' m bstart bufsize (ptr + 1) (buffer + 1) arg
          else
            match arg with
            | [] => Fault
            | a :: arg' =>
                '(_, (buffer, m)) ←
                  print_format m buffer (u64 (bufsize - (buffer - bstart))) formstr a;
                vsn_loop fuel' m bstart bufsize (ptr + 1) buffer arg'
            end
        else
          m ← store8 m buffer b;
          vsn_loop fuel' m bstart bufsize (ptr + 1) (buffer + 1) arg
      else Ok (buffer, m)
  end.

Definition vsnprintf (m : mem) (buffer bufsize format : Z) (arg : list Z) : res (Z * mem) :=
  if (buffer =? 0) || (bufsize =? 0) then Ok (0, m) else
  '(b, m) ← vsn_loop (walk_fuel m) m buffer (bufsize - 1) format buffer arg;
  m ← store8 m b 0;
  Ok (s32 (b - buffer), m).

Definition vsprintf (m : mem) (buffer format : Z) (arg : list Z) : res (Z * mem) :=
  vsnprintf m buffer 0x7fffffff format arg.

Definition sprintf (m : mem) (buff format : Z) (args : list Z) : res (Z * mem) :=
  if (buff =? 0) || (format =? 0) then Ok (-1, m) else vsprintf m buff format args.

Definition snprintf (m : mem) (buff size format : Z) (args : list Z) : res (Z * mem) :=
  if (buff =? 0) || (format =? 0) then Ok (-1, m) else vsnprintf m buff size format args.

(** ** Digits *)

Definition zchar (upper : bool) (d : Z) : Z :=
  let z := nth (Z.to_nat d) zeichen 0 in if upper then toupper z else z.

(** The number of divisions by [base] that take [v] to 0. *)
Fixpoint nlen (fuel : nat) (base v : Z) : nat :=
  match fuel with
  | O => O
  | S fuel' => if 0 <? v then S (nlen fuel' base (v / base)) else O
  end.

(** The [n] low digits of [v], most significant first. *)
Fixpoint low_digits (n : nat) (base : Z) (upper : bool) (v : Z) : list Z :=
  match n with
  | O => []
  | S n' => low_digits n' base upper (v / base) ++ [zchar upper (v mod base)]
  end.

Definition num_len (base v : Z) : nat := Nat.max 1 (nlen 64 base v).
Definition digits (base : Z) (upper : bool) (v : Z) : list Z := low_digits (num_len base v) base upper v.

Lemma low_digits_length n base upper v : length (low_digits n base upper v) = n.
Proof.
  revert v. induction n as [|n IH]; intros v; [done|]. cbn [low_digits].
  rewrite length_app, IH. cbn. lia.
Qed.

Lemma digits_length base upper v : length (digits base upper v) = num_len base v.
Proof. apply low_digits_length. Qed.

Lemma small_digit d (P : Z -> Prop) :
  0 <= d < 16 -> (forall k, (k < 16)%nat -> P (Z.of_nat k)) -> P d.
Proof. intros Hd H. rewrite <- (Z2Nat.id d) by lia. apply H. lia. Qed.

(** Prove a statement about a digit by going through the 16 of them. *)
Ltac each_digit d :=
  pattern d; apply (small_digit d); [lia|];
  let k := fresh "k" in let Hk := fresh "Hk" in
  intros k Hk; do 16 (destruct k as [|k]; [by vm_compute|]); lia.

Lemma zeichen_lookup d : 0 <= d < 16 -> zeichen !! Z.to_nat d = Some (zchar false d).
Proof. intros H. each_digit d. Qed.

Lemma zchar_upper (upper : bool) d : 0 <= d < 16 ->
  (if upper then toupper (zchar false d) else zchar false d) = zchar upper d.
Proof. intros H. destruct upper; each_digit d. Qed.

Lemma zchar_range upper d : 0 <= d < 16 -> 48 <= zchar upper d < 127.
Proof. intros H. destruct upper; each_digit d. Qed.

Lemma zchar_value upper d : 0 <= d < 16 -> digit_value (zchar upper d) = Some d.
Proof. intros H. destruct upper; each_digit d. Qed.

Lemma zchar_not_x upper d : 0 <= d < 16 -> zchar upper d <> 120.
Proof. intros H. destruct upper; each_digit d. Qed.

Lemma nlen_step fuel base v :
  0 < v -> nlen (S fuel) base v = S (nlen fuel base (v / base)).
Proof. intros. cbn [nlen]. by destruct (Z.ltb_spec 0 v); [|lia]. Qed.

Lemma nlen_0 fuel base v : v <= 0 -> nlen fuel base v = O.
Proof. intros. destruct fuel; [done|]. cbn [nlen]. by destruct (Z.ltb_spec 0 v); [lia|]. Qed.

Lemma div_pow2 v base fuel : 2 <= base -> 0 <= v < 2 ^ Z.of_nat (S fuel) -> 0 <= v / base < 2 ^ Z.of_nat fuel.
Proof.
  intros Hb Hv. rewrite Nat2Z.inj_succ, Z.pow_succ_r in Hv by lia.
  pose proof (Z.div_pos v base). split; [lia|].
  apply Z.div_lt_upper_bound; nia.
Qed.

Lemma intlen_loop_S fuel v base i :
  intlen_loop (S fuel) v base i = if 0 <? v then intlen_loop fuel (v / base) base (i + 1) else Ok i.
Proof. done. Qed.

Lemma intlen_loop_spec fuel base v i :
  2 <= base -> 0 <= v < 2 ^ Z.of_nat fuel ->
  intlen_loop (S fuel) v base i = Ok (i + Z.of_nat (nlen fuel base v)).
Proof.
  revert v i. induction fuel as [|fuel IH]; intros v i Hb Hv.
  - cbn in Hv. replace v with 0 by lia. cbn. f_equal. lia.
  - rewrite intlen_loop_S. destruct (Z.ltb_spec 0 v).
    + rewrite IH by (done || by apply div_pow2). rewrite nlen_step by done. f_equal. lia.
    + rewrite nlen_0 by done. f_equal. lia.
Qed.

Lemma print_intlen_spec base v :
  2 <= base -> 0 <= v < 2 ^ 64 -> print_intlen v base = Ok (Z.of_nat (num_len base v)).
Proof.
  intros Hb Hv. unfold print_intlen. rewrite (intlen_loop_spec 64) by done. res_simpl.
  unfold num_len. f_equal. destruct (Z.eqb_spec (0 + Z.of_nat (nlen 64 base v)) 0); lia.
Qed.

Lemma nlen_le fuel base v : (nlen fuel base v <= fuel)%nat.
Proof.
  revert v. induction fuel as [|fuel IH]; intros v; cbn [nlen]; [done|].
  destruct (0 <? v); [|lia]. specialize (IH (v / base)). lia.
Qed.

Lemma num_len_range base v : (1 <= num_len base v <= 64)%nat.
Proof. unfold num_len. pose proof (nlen_le 64 base v). lia. Qed.

(** Reading the digits back gives the number. *)
Lemma low_digits_value fuel base upper v :
  2 <= base <= 16 -> 0 <= v < 2 ^ Z.of_nat fuel ->
  digits_value base (low_digits (nlen fuel base v) base upper v) = v.
Proof.
  intros Hb. revert v. induction fuel as [|fuel IH]; intros v Hv.
  { cbn in Hv. cbn. lia. }
  destruct (Z.lt_ge_cases 0 v) as [Hp|Hp]; [|rewrite nlen_0 by done; cbn; lia].
  rewrite nlen_step by done. cbn [low_digits]. unfold digits_value. rewrite foldl_app.
  fold (digits_value base (low_digits (nlen fuel base (v / base)) base upper (v / base))).
  rewrite IH by (by apply div_pow2; lia). cbn [foldl].
  pose proof (Z.mod_pos_bound v base). rewrite zchar_value by lia. cbn [default from_option id].
  rewrite (Z.div_mod v base) at 3 by lia. lia.
Qed.

Lemma digits_value_digits base upper v :
  2 <= base <= 16 -> 0 <= v < 2 ^ 64 -> digits_value base (digits base upper v) = v.
Proof.
  intros Hb Hv. unfold digits, num_len. destruct (Z.lt_ge_cases 0 v) as [Hp|Hp].
  - rewrite Nat.max_r by (rewrite nlen_step by done; lia). by apply low_digits_value.
  - replace v with 0 by lia. rewrite nlen_0 by done. cbn [Nat.max low_digits app].
    rewrite Zmod_0_l. by destruct upper.
Qed.

Lemma low_digits_Forall (P : Z -> Prop) n base upper v :
  2 <= base <= 16 -> (forall d, 0 <= d < base -> P (zchar upper d)) ->
  Forall P (low_digits n base upper v).
Proof.
  intros Hb HP. revert v. induction n as [|n IH]; intros v; cbn [low_digits]; [constructor|].
  apply Forall_app. split; [apply IH|]. constructor; [|constructor]. apply HP.
  apply Z.mod_pos_bound. lia.
Qed.

Lemma itoa_loop_spec m buffer base upper fuel v n :
  2 <= base <= 16 -> 0 <= v < 2 ^ Z.of_nat fuel -> n = Nat.max 1 (nlen fuel base v) ->
  mapped m buffer (Z.of_nat n) ->
  itoa_loop m buffer base upper n v = Ok (write_bytes m buffer (low_digits n base upper v)).
Proof.
  intros Hb. revert m v n. induction fuel as [|fuel IH]; intros m v n Hv Hn Hm.
  all: pose proof (Z.mod_pos_bound v base ltac:(lia)) as Hd.
  all: assert (Hstep : forall n', n = S n' ->
    itoa_loop m buffer base upper n v =
      let m' := <[buffer + Z.of_nat n' := zchar upper (v mod base)]> m in
      if v / base =? 0 then Ok m' else itoa_loop m' buffer base upper n' (v / base)).
  1, 3: intros n' ->; cbn [itoa_loop]; rewrite zeichen_lookup by lia; res_simpl;
    rewrite (mapped_store8 _ _ _ _ _ Hm) by lia; res_simpl;
    rewrite zchar_upper by lia; pose proof (zchar_range upper (v mod base)); by rewrite u8_small by lia.
  - cbn in Hn. subst n. cbn in Hv. replace v with 0 in * by lia.
    rewrite (Hstep 0%nat eq_refl). rewrite Z.div_0_l by lia. cbn. rewrite Zmod_0_l.
    by rewrite Z.add_0_r.
  - destruct (Z.lt_ge_cases 0 v) as [Hp|Hp].
    + rewrite nlen_step in Hn by done. destruct n as [|n]; [lia|]. rewrite (Hstep n eq_refl). cbv zeta.
      cbn [low_digits]. rewrite write_bytes_app, low_digits_length. cbn [write_bytes].
      destruct (Z.eqb_spec (v / base) 0) as [E|E].
      * rewrite E, nlen_0 in Hn by done. replace n with 0%nat by lia. done.
      * assert (0 <= v / base < 2 ^ Z.of_nat fuel) as Hq by (apply div_pow2; lia).
        apply IH; [done | |].
        -- assert (nlen fuel base (v / base) <> 0%nat); [|lia].
           destruct fuel as [|f]; [cbn in Hq; lia|]. rewrite nlen_step by lia. done.
        -- apply mapped_insert. eapply mapped_sub; [exact Hm | lia | lia].
    + replace v with 0 in * by lia. rewrite nlen_0 in Hn by lia. subst n.
      rewrite (Hstep 0%nat eq_refl). rewrite Z.div_0_l by lia. cbn. rewrite Zmod_0_l.
      by rewrite Z.add_0_r.
Qed.

(** print_itoa prints the digits, or nothing when they do not fit. *)
Lemma print_itoa_spec m buffer bufsize v base upper :
  2 < base <= 16 -> 0 <= v < 2 ^ 64 -> mapped m buffer (Z.of_nat (num_len base v)) ->
  print_itoa m buffer bufsize v base upper =
  if bufsize <? Z.of_nat (num_len base v) then Ok (0, (buffer, m))
  else Ok (1, (buffer + Z.of_nat (num_len base v), write_bytes m buffer (digits base upper v))).
Proof.
  intros Hb Hv Hm. unfold print_itoa.
  destruct (Z.leb_spec base 2), (Z.ltb_spec 16 base); try lia. cbn [orb].
  rewrite print_intlen_spec by lia. res_simpl. destruct (bufsize <? _); [done|].
  rewrite Nat2Z.id, (itoa_loop_spec _ _ _ _ 64) by (done || lia). done.
Qed.

(** ** What the helpers write *)

Lemma fill_loop_spec m bstart bufsize c n buffer :
  mapped m buffer (Z.of_nat n) -> buffer - bstart + Z.of_nat n <= bufsize ->
  fill_loop m bstart bufsize c n buffer =
  Ok (buffer + Z.of_nat n, write_bytes m buffer (replicate n (u8 c))).
Proof.
  revert m buffer. induction n as [|n IH]; intros m buffer Hm Hb; cbn [fill_loop].
  { by rewrite Z.add_0_r. }
  destruct (Z.ltb_spec (buffer - bstart) bufsize); [|lia].
  rewrite (mapped_store8 _ _ _ _ _ Hm) by lia. res_simpl. rewrite IH.
  - rewrite write_bytes_insert_head. cbn [replicate]. do 2 f_equal. lia.
  - apply mapped_insert. eapply mapped_sub; [exact Hm | lia | lia].
  - lia.
Qed.

Definition width_digits (w : list Z) : Prop := Forall (fun b => 48 <= b <= 57) w.

Lemma digit_value_dec b : 48 <= b <= 57 -> digit_value b = Some (b - 48).
Proof. intros. unfold digit_value. by destruct (Z.leb_spec 48 b), (Z.leb_spec b 57); try lia. Qed.

Lemma local_str_cstr s : Forall (fun b => 0 < b < 256) s -> cstr (local_str s) 1 s.
Proof. intros H. split; [apply write_bytes_at | exact H]. Qed.

Lemma digits_value_nonneg base ds :
  0 <= base -> Forall (fun b => exists d, digit_value b = Some d /\ 0 <= d) ds -> 0 <= digits_value base ds.
Proof.
  intros Hb H. unfold digits_value. assert (forall a, 0 <= a ->
    0 <= foldl (fun a b => a * base + default 0 (digit_value b)) a ds) as G; [|apply G; lia].
  induction H as [|b ds (d & Hd & Hd0) _ IH]; intros a Ha; cbn [foldl]; [done|].
  apply IH. rewrite Hd. cbn. nia.
Qed.

Lemma width_value w :
  width_digits w -> digits_value 10 w < 2 ^ 31 ->
  exists e, strtoul (local_str w) 1 10 = Ok (digits_value 10 w, e) /\ 0 <= digits_value 10 w.
Proof.
  intros Hw Hl. assert (0 <= digits_value 10 w) as Hp.
  { apply digits_value_nonneg; [lia|]. eapply Forall_impl; [exact Hw|]. cbn. intros b Hb.
    rewrite digit_value_dec by done. eexists. split; [done | lia]. }
  eexists. split; [|done].
  rewrite (strtoul_value _ _ [] [] w [] 10 10); [by rewrite u64_small by lia | lia | | constructor | | | | done].
  - cbn [app]. rewrite app_nil_r. apply local_str_cstr. eapply Forall_impl; [exact Hw|]. cbn. lia.
  - cbn [app]. destruct Hw as [|b w Hb Hw]; [done|]. cbn [hd app]. unfold is_blank.
    repeat match goal with |- context [b =? ?k] => destruct (Z.eqb_spec b k); [lia|] end. done.
  - right. left. done.
  - eapply Forall_impl; [exact Hw|]. cbn. intros b Hb. exists (b - 48).
    rewrite digit_value_dec by done. split; [done | lia].
Qed.

(** Padding to width [w] of a text of [n] characters. *)
Definition pad (w : list Z) (n : Z) (c : Z) : list Z := replicate (Z.to_nat (digits_value 10 w - n)) c.

Lemma pad_length w n c : Z.of_nat (length (pad w n c)) = Z.max 0 (digits_value 10 w - n).
Proof. unfold pad. rewrite length_replicate. lia. Qed.

Lemma print_fill_spec m buffer bufsize w size base c optlen :
  width_digits w -> digits_value 10 w < 2 ^ 31 -> 2 <= base -> 0 <= size < 2 ^ 64 ->
  0 <= optlen <= 2 -> 0 <= c < 256 ->
  let out := pad w (Z.of_nat (num_len base size) + optlen) c in
  mapped m buffer (Z.of_nat (length out)) -> Z.of_nat (length out) <= bufsize ->
  print_fill m buffer bufsize w size base c optlen =
  Ok (buffer + Z.of_nat (length out), write_bytes m buffer out).
Proof.
  intros Hw Hl Hb Hs Ho Hc out Hm Hf. unfold print_fill.
  destruct (width_value w Hw Hl) as (e & -> & Hp). res_simpl.
  rewrite print_intlen_spec by done. res_simpl. pose proof (num_len_range base size).
  rewrite !s32_small by lia.
  unfold out in *. rewrite pad_length in *. destruct (Z.ltb_spec (Z.of_nat (num_len base size) + optlen) (digits_value 10 w)).
  - rewrite fill_loop_spec; rewrite ?Z2Nat.id by lia.
    + unfold pad. rewrite u8_small by done. do 2 f_equal. lia.
    + eapply mapped_sub; [exact Hm | lia | lia].
    + lia.
  - unfold pad. rewrite Z2Nat.nonpos by lia. cbn. do 2 f_equal. lia.
Qed.

(** A string source holds [s], and keeps it while [lo, hi) is overwritten. *)
Definition src_holds (m : mem) (lo hi : Z) (str : strsrc) (s : list Z) : Prop :=
  match str with
  | InMem p => cstr m p s /\ Z.of_nat (length s) < 2 ^ 31 /\ (p + Z.of_nat (length s) < lo \/ hi <= p)
  | Literal l => l = s /\ Forall byte s
  end.

Lemma src_holds_write m lo hi str s p bs :
  src_holds m lo hi str s -> lo <= p -> p + Z.of_nat (length bs) <= hi ->
  src_holds (write_bytes m p bs) lo hi str s.
Proof.
  destruct str as [q|l]; cbn; [|done]. intros (H & Hl & Hd) ??. split; [|done].
  eapply cstr_frame; [apply write_bytes_same_outside | exact H | lia].
Qed.

Lemma src_holds_len m lo hi str s : src_holds m lo hi str s -> src_len m str = Ok (Z.of_nat (length s)).
Proof. destruct str as [q|l]; cbn; [intros (H & ? & ?); by apply strlen_spec | intros [-> _]; done]. Qed.

Lemma src_holds_get m lo hi str s i b :
  src_holds m lo hi str s -> s !! i = Some b -> src_get m str (Z.of_nat i) = Ok b /\ byte b.
Proof.
  destruct str as [q|l]; cbn.
  - intros (H & _) Hi. unfold load8. rewrite (cstr_load _ _ _ _ _ H Hi). split; [done|].
    destruct H as [_ H]. rewrite Forall_lookup in H. specialize (H _ _ Hi). unfold byte. cbn in H. lia.
  - intros [-> Hs] Hi. rewrite Nat2Z.id, Hi. split; [done|].
    rewrite Forall_lookup in Hs. by apply Hs in Hi.
Qed.

Lemma print_str_loop_spec m bstart bufsize str s lo hi i buffer fuel :
  src_holds m lo hi str s -> (i <= length s)%nat ->
  lo <= buffer -> buffer + Z.of_nat (length s - i) <= hi ->
  mapped m buffer (Z.of_nat (length s - i)) ->
  buffer - bstart + Z.of_nat (length s - i) <= bufsize -> (length s - i < fuel)%nat ->
  print_str_loop fuel m bstart bufsize str (Z.of_nat i) buffer =
  Ok (buffer + Z.of_nat (length s - i), write_bytes m buffer (drop i s)).
Proof.
  intros Hs Hi Hlo Hhi Hm Hb Hf. remember (length s - i)%nat as n eqn:Hn.
  revert m i buffer fuel Hs Hi Hlo Hhi Hm Hb Hf Hn.
  induction n as [|n IH]; intros m i buffer [|fuel] Hs Hi Hlo Hhi Hm Hb Hf Hn; try lia;
    cbn [print_str_loop]; rewrite (src_holds_len _ _ _ _ _ Hs); res_simpl.
  - destruct (Z.ltb_spec (Z.of_nat i) (Z.of_nat (length s))); [lia|]. cbn [andb].
    rewrite drop_ge by lia. by rewrite Z.add_0_r.
  - destruct (Z.ltb_spec (Z.of_nat i) (Z.of_nat (length s))); [|lia].
    destruct (Z.ltb_spec (buffer - bstart) bufsize); [|lia]. cbn [andb].
    destruct (lookup_lt_is_Some_2 s i) as [b Hsb]; [lia|].
    destruct (src_holds_get _ _ _ _ _ _ _ Hs Hsb) as [-> Hby]. res_simpl.
    rewrite (mapped_store8 _ _ _ _ _ Hm) by lia. res_simpl. rewrite u8_small by done.
    replace (Z.of_nat i + 1) with (Z.of_nat (S i)) by lia. rewrite IH; try lia.
    + rewrite write_bytes_insert_head, <- (drop_S s b i Hsb). do 2 f_equal. lia.
    + apply (src_holds_write m lo hi str s buffer [b]); cbn; done || lia.
    + apply mapped_insert. eapply mapped_sub; [exact Hm | lia | lia].
Qed.

Lemma print_str_spec m bufsize str s lo hi buffer :
  src_holds m lo hi str s -> lo <= buffer -> buffer + Z.of_nat (length s) <= hi ->
  mapped m buffer (Z.of_nat (length s)) -> Z.of_nat (length s) <= bufsize ->
  print_str m buffer bufsize str = Ok (buffer + Z.of_nat (length s), write_bytes m buffer s).
Proof.
  intros Hs Hlo Hhi Hm Hb. pose proof (mapped_size _ _ _ Hm). unfold print_str, walk_fuel.
  rewrite (print_str_loop_spec m buffer bufsize str s lo hi 0%nat) by (rewrite ?Nat.sub_0_r; done || lia).
  by rewrite Nat.sub_0_r, drop_0.
Qed.

Lemma print_str_fill_spec m buffer bufsize w p s c :
  width_digits w -> digits_value 10 w < 2 ^ 31 -> 0 <= c < 256 ->
  cstr m p s -> Z.of_nat (length s) < 2 ^ 31 ->
  let out := pad w (Z.of_nat (length s)) c in
  mapped m buffer (Z.of_nat (length out)) -> Z.of_nat (length out) <= bufsize ->
  print_str_fill m buffer bufsize w p c =
  Ok (buffer + Z.of_nat (length out), write_bytes m buffer out).
Proof.
  intros Hw Hl Hc Hs Hn out Hm Hf. unfold print_str_fill.
  destruct (width_value w Hw Hl) as (e & -> & Hp). res_simpl.
  rewrite (strlen_spec _ _ _ Hs) by done. res_simpl. rewrite !u32_small by lia.
  unfold out in *. rewrite pad_length in *.
  destruct (Z.ltb_spec (Z.of_nat (length s)) (digits_value 10 w)).
  - rewrite u32_small by lia. rewrite fill_loop_spec; rewrite ?Z2Nat.id by lia.
    + unfold pad. rewrite u8_small by done. do 2 f_equal. lia.
    + eapply mapped_sub; [exact Hm | lia | lia].
    + lia.
  - unfold pad. rewrite Z2Nat.nonpos by lia. cbn. do 2 f_equal. lia.
Qed.

(** ** What a conversion prints: the specification *)

(** The value [v] cut to the width of the argument, [k] bytes. *)
Definition cut (k v : Z) : Z := v mod 2 ^ (8 * k).

Definition negative (k v : Z) : bool := Z.testbit v (8 * k - 1).

(** The text of one conversion: [zero] the flag '0' (or '.'), [w] the digits of
    the width, [k] the size of the argument in bytes, [c] the conversion
    character and [v] the argument; [m], [lo] and [hi] say where the strings of
    %s are and what is going to be overwritten. *)
Inductive conv_text (m : mem) (lo hi : Z) (zero : bool) (w : list Z) (k : Z) (v : Z) : Z -> list Z -> Prop :=
| ct_unsigned :
    conv_text m lo hi zero w k v 117
      (pad w (Z.of_nat (num_len 10 v)) (if zero then 48 else 32) ++ digits 10 false v)
| ct_signed c a :
    c = 100 \/ c = 105 -> a = (if negative k v then cut k (- v) else v) ->
    conv_text m lo hi zero w k v c
      ((if negative k v then [45] else []) ++
       pad w (Z.of_nat (num_len 10 a)) (if zero then 48 else 32) ++ digits 10 false a)
| ct_hex c a :
    c = 120 \/ c = 88 -> a = cut k v ->
    conv_text m lo hi zero w k v c
      (pad w (Z.of_nat (num_len 16 a)) (if zero then 48 else 32) ++ digits 16 (c =? 88) a)
| ct_octal c a :
    c = 111 \/ c = 79 -> a = cut k v ->
    conv_text m lo hi zero w k v c
      (pad w (Z.of_nat (num_len 8 a)) (if zero then 48 else 32) ++ digits 8 false a)
| ct_pointer :
    conv_text m lo hi zero w k v 112
      (pad w (Z.of_nat (num_len 16 v) + 2) 32 ++ [48; 120] ++ digits 16 false v)
| ct_char : conv_text m lo hi zero w k v 99 (pad w 1 32 ++ [u8 v])
| ct_string s :
    src_holds m lo hi (InMem v) s ->
    conv_text m lo hi zero w k v 115 (pad w (Z.of_nat (length s)) 32 ++ s).

Lemma convert_lookup k :
  In k [1; 2; 4; 8] -> convert !! Z.to_nat k = Some (Z.ones (8 * k)).
Proof. by intros [<-|[<-|[<-|[<-|[]]]]]. Qed.

Lemma land_convert k v : In k [1; 2; 4; 8] -> Z.land v (Z.ones (8 * k)) = cut k v.
Proof. intros H. apply Z.land_ones. destruct H as [<-|[<-|[<-|[<-|[]]]]]; lia. Qed.

Lemma sign_test k v :
  In k [1; 2; 4; 8] ->
  negb (Z.land (u64 (Z.shiftl 1 (k * 8 - 1))) v =? 0) = negative k v.
Proof.
  intros H. unfold negative. assert (0 <= 8 * k - 1 < 64) as Hk.
  { destruct H as [<-|[<-|[<-|[<-|[]]]]]; lia. }
  rewrite (Z.mul_comm k 8), Z.shiftl_1_l. set (n := 8 * k - 1) in *.
  rewrite u64_small by (pose proof (Z.pow_lt_mono_r 2 n 64); lia).
  destruct (Z.testbit v n) eqn:E.
  - destruct (Z.eqb_spec (Z.land (2 ^ n) v) 0) as [E0|]; [|done].
    assert (Z.testbit (Z.land (2 ^ n) v) n = true); [|rewrite E0, Z.bits_0 in *; done].
    rewrite Z.land_spec, Z.pow2_bits_true, E by lia. done.
  - replace (Z.land (2 ^ n) v) with 0; [done|]. symmetry. apply Z.bits_inj'. intros i Hi.
    rewrite Z.land_spec, Z.bits_0. destruct (Z.eq_dec i n) as [->|].
    + by rewrite E, andb_false_r.
    + rewrite Z.pow2_bits_false by lia. done.
Qed.

Lemma cut_range k v : In k [1; 2; 4; 8] -> 0 <= cut k v < 2 ^ 64.
Proof.
  intros H. unfold cut.
  destruct H as [<-|[<-|[<-|[<-|[]]]]]; match goal with |- _ <= ?x mod ?y < _ => pose proof (Z.mod_pos_bound x y ltac:(lia)); lia end.
Qed.

Lemma cut_u64 k v : In k [1; 2; 4; 8] -> cut k (u64 v) = cut k v.
Proof.
  intros H. unfold cut, u64. apply Z.mod_mod_divide.
  exists (2 ^ (64 - 8 * k)). rewrite <- Z.pow_add_r; [f_equal; lia | |];
    destruct H as [<-|[<-|[<-|[<-|[]]]]]; lia.
Qed.

Section conv.
Context (start bufsize : Z) (m : mem) (lo hi : Z).
Context (Hsz : bufsize < 2 ^ 63).

Lemma room_spec b : start <= b <= start + bufsize -> room start bufsize b = bufsize - (b - start).
Proof using Hsz. intros H. unfold room. apply u64_small. lia. Qed.

(** Padding followed by the digits of a number, whatever comes next. *)
Lemma pad_number {A} (K : Z -> mem -> res A) m1 b w a base (upper : bool) sgn :
  width_digits w -> digits_value 10 w < 2 ^ 31 -> 2 < base <= 16 -> 0 <= a < 2 ^ 64 -> 0 <= sgn < 256 ->
  let out := pad w (Z.of_nat (num_len base a)) sgn ++ digits base upper a in
  start <= b -> b - start + Z.of_nat (length out) <= bufsize ->
  mapped m1 b (Z.of_nat (length out)) ->
  ('(b, m) ← print_fill m1 b (room start bufsize b) w a base sgn 0;
   '(_, (b, m)) ← print_itoa m b (room start bufsize b) a base upper; K b m) =
  K (b + Z.of_nat (length out)) (write_bytes m1 b out).
Proof using Hsz.
  intros Hw Hl Hb Ha Hs out Hst Hf Hm. unfold out in *. clear out.
  rewrite length_app, digits_length in *.
  rewrite (room_spec b), print_fill_spec; rewrite ?Z.add_0_r; try done; try lia.
  - res_simpl. rewrite room_spec by lia. rewrite print_itoa_spec; try done.
    + match goal with |- context [?x <? ?y] => destruct (Z.ltb_spec x y); [lia|] end.
      res_simpl. rewrite write_bytes_seq. f_equal. lia.
    + apply mapped_write_bytes. eapply mapped_sub; [exact Hm | lia | lia].
  - eapply mapped_sub; [exact Hm | lia | lia].
Qed.

Ltac conv_case := unfold conv, conv_decimal, conv_masked, conv_pointer, conv_char, conv_string;
  cbn [Z.eqb Pos.eqb orb andb negb fs_sizec fs_lmod fs_mem fs_buf fs_upper].

Lemma conv_spec b m1 (zero : bool) w k v c out :
  conv_text m lo hi zero w k v c out ->
  (forall p s, src_holds m lo hi (InMem p) s -> src_holds m1 lo hi (InMem p) s) ->
  In k [1; 2; 4; 8] -> 0 <= v < 2 ^ 64 ->
  width_digits w -> digits_value 10 w < 2 ^ 31 -> (length w < SIZEC_LEN)%nat ->
  start <= b -> b - start + Z.of_nat (length out) <= bufsize ->
  lo <= b -> b + Z.of_nat (length out) <= hi -> mapped m1 b (Z.of_nat (length out)) ->
  exists u, conv start bufsize (if zero then 48 else 32) v c (FState b m1 w k false) =
    Ok (FState (b + Z.of_nat (length out)) (write_bytes m1 b out) w k u).
Proof using Hsz.
  intros Hout Hstr Hk Hv Hw Hl Hwl Hst Hf Hlo Hhi Hm.
  assert (Hsg : 0 <= (if zero then 48 else 32) < 256) by (destruct zero; lia).
  assert (Hsz' : sizec_ok w = Ok tt) by (unfold sizec_ok; by rewrite decide_True).
  assert (Hu : u64 v = v) by (apply u64_small; lia).
  destruct Hout as [|c a Hc Ha|c a Hc Ha|c a Hc Ha| | |s Hs].
  - exists false. conv_case. rewrite Hsz'. res_simpl. cbn [Z.eqb Pos.eqb negb andb].
    rewrite Hu. rewrite (pad_number (fun b m => Ok (FState b m w k false))) by done. done.
  - exists false. assert (conv start bufsize (if zero then 48 else 32) v c (FState b m1 w k false) =
      conv_decimal start bufsize (if zero then 48 else 32) v c (FState b m1 w k false)) as ->
      by (by destruct Hc as [-> | ->]).
    conv_case. rewrite Hsz'. res_simpl.
    replace (c =? 117) with false by (by destruct Hc as [-> | ->]). cbn [negb andb].
    rewrite Hu, sign_test by done. destruct (negative k v) eqn:En; res_simpl.
    + cbn [app] in *. rewrite (mapped_store8 _ _ _ _ _ Hm) by (cbn [length]; lia). res_simpl.
      rewrite convert_lookup by done. res_simpl. rewrite land_convert, cut_u64, <- Ha by done.
      cbn [length] in *.
      rewrite (pad_number (fun b m => Ok (FState b m w k false))); try done; try lia.
      * rewrite write_bytes_insert_head. do 2 f_equal. lia.
      * rewrite Ha. by apply cut_range.
      * apply mapped_insert. eapply mapped_sub; [exact Hm | lia | lia].
    + cbn [app] in *. subst a.
      rewrite (pad_number (fun b m => Ok (FState b m w k false))) by done. done.
  - exists (c =? 88).
    assert (conv start bufsize (if zero then 48 else 32) v c (FState b m1 w k false) =
      conv_masked start bufsize (if zero then 48 else 32) v 16 (FState b m1 w k (c =? 88))) as ->
      by (by destruct Hc as [-> | ->]).
    conv_case. rewrite Hsz', convert_lookup by done. res_simpl.
    rewrite Hu, land_convert, <- Ha by done.
    rewrite (pad_number (fun b m => Ok (FState b m w k (c =? 88)))); try done; try lia.
    rewrite Ha. by apply cut_range.
  - exists false.
    assert (conv start bufsize (if zero then 48 else 32) v c (FState b m1 w k false) =
      conv_masked start bufsize (if zero then 48 else 32) v 8 (FState b m1 w k false)) as ->
      by (by destruct Hc as [-> | ->]).
    conv_case. rewrite Hsz', convert_lookup by done. res_simpl.
    rewrite Hu, land_convert, <- Ha by done.
    rewrite (pad_number (fun b m => Ok (FState b m w k false))); try done; try lia.
    rewrite Ha. by apply cut_range.
  - exists false. conv_case. rewrite Hsz', Hu. res_simpl.
    rewrite !length_app, digits_length in *. cbn [length] in *.
    rewrite (room_spec b), print_fill_spec; try done; try lia;
      [|eapply mapped_sub; [exact Hm | lia | lia]].
    res_simpl. rewrite room_spec by lia.
    erewrite (print_str_spec _ _ (Literal [48; 120]) [48; 120] lo hi); cbn [length];
      [|split; [done | repeat constructor; lia] | lia | lia | | lia];
      [|apply mapped_write_bytes; eapply mapped_sub; [exact Hm | lia | lia]].
    res_simpl. rewrite room_spec, print_itoa_spec by
      (lia || (repeat apply mapped_write_bytes; eapply mapped_sub; [exact Hm | lia | lia])).
    match goal with |- context [?x <? ?y] => destruct (Z.ltb_spec x y); [lia|] end. res_simpl.
    rewrite <- (write_bytes_seq _ b _ ([48; 120] ++ _)).
    rewrite <- (write_bytes_seq _ _ [48; 120]). cbn [length]. do 2 f_equal. lia.
  - exists false. conv_case. rewrite Hsz', Hu. res_simpl.
    rewrite length_app in *. cbn [length] in *.
    pose proof (print_fill_spec m1 b (room start bufsize b) w 1 10 32 0) as E.
    change (Z.of_nat (num_len 10 1) + 0) with 1 in E. rewrite E; clear E; try done; try lia.
    + res_simpl.
      rewrite (mapped_store8 _ b (Z.of_nat (length (pad w 1 32) + 1)))
        by (lia || by apply mapped_write_bytes).
      res_simpl. rewrite <- (write_bytes_seq _ _ (pad w 1 32)). cbn [write_bytes].
      do 2 f_equal. lia.
    + eapply mapped_sub; [exact Hm | lia | lia].
    + rewrite room_spec by lia. lia.
  - exists false. conv_case. rewrite Hsz', Hu. res_simpl. apply Hstr in Hs as Hs'.
    rewrite length_app in *. destruct Hs' as (Hc & Hn & Hd).
    rewrite (room_spec b), (print_str_fill_spec _ _ _ _ _ s); try done; try lia;
      [|eapply mapped_sub; [exact Hm | lia | lia]].
    res_simpl. rewrite room_spec by lia.
    erewrite (print_str_spec _ _ (InMem v) s lo hi); [|by apply src_holds_write; [apply Hstr| lia |lia] | lia | lia | | lia];
      [|apply mapped_write_bytes; eapply mapped_sub; [exact Hm | lia | lia]].
    res_simpl. rewrite write_bytes_seq. do 2 f_equal. lia.
Qed.
End conv.

(** The length modifiers and the size they stand for. *)
Inductive lmod_text : list Z -> Z -> Prop :=
| lm_none : lmod_text [] 4
| lm_l : lmod_text [108] 8
| lm_ll : lmod_text [108; 108] 8
| lm_h : lmod_text [104] 2
| lm_hh : lmod_text [104; 104] 1
| lm_z : lmod_text [122] 8.

Lemma lmod_text_size lm k : lmod_text lm k -> In k [1; 2; 4; 8].
Proof. destruct 1; cbn; tauto. Qed.

(** A conversion specification: '%', flag, width, length modifier, character. *)
Definition spec_text (zero : bool) (w lm : list Z) (c : Z) : list Z :=
  37 :: (if zero then [48] else []) ++ w ++ lm ++ [c].

Definition spec_ok (zero : bool) (w lm : list Z) (k : Z) : Prop :=
  width_digits w /\ digits_value 10 w < 2 ^ 31 /\ (zero = false -> hd 0 w <> 48) /\
  lmod_text lm k /\ (length w <= 13)%nat.

Lemma conv_text_char m lo hi zero w k v c out :
  conv_text m lo hi zero w k v c out -> In c [117; 100; 105; 120; 88; 111; 79; 112; 99; 115].
Proof. destruct 1; cbn; lia. Qed.

Section print_format.
Context (start bufsize : Z) (Hb : 0 < bufsize).

Lemma format_loop_width sg v m w acc rest :
  width_digits w -> (length acc + length w < SIZEC_LEN)%nat ->
  format_loop start bufsize sg v (w ++ rest) (FState start m acc 4 false) =
  format_loop start bufsize sg v rest (FState start m (acc ++ w) 4 false).
Proof using Hb.
  revert acc. induction w as [|b w IH]; intros acc Hw Hl; cbn [app].
  { by rewrite app_nil_r. }
  inversion Hw as [|? ? Hd Hw']; subst. cbn [length] in Hl. cbn [format_loop fs_buf].
  destruct (Z.eqb_spec b 0), (Z.ltb_spec (start - start) bufsize), (Z.eqb_spec b 108),
    (Z.eqb_spec b 104); try lia. cbn [negb andb].
  unfold conv. cbn [fs_sizec fs_mem fs_buf fs_lmod fs_upper].
  repeat match goal with |- context [b =? ?k] => destruct (Z.eqb_spec b k); [lia|] end.
  cbn [orb]. destruct (Z.leb_spec 48 b), (Z.leb_spec b 57); try lia. cbn [andb].
  unfold sizec_ok. rewrite decide_True by lia. res_simpl.
  rewrite IH by (done || (rewrite length_app; cbn [length]; lia)).
  by rewrite <- app_assoc.
Qed.

Lemma format_loop_conv sg v m w lm k c :
  lmod_text lm k -> In c [117; 100; 105; 120; 88; 111; 79; 112; 99; 115] ->
  format_loop start bufsize sg v (lm ++ [c]) (FState start m w 4 false) =
  conv start bufsize sg v c (FState start m w k false).
Proof using Hb.
  intros Hlm Hc. assert (Hlt : (start - start <? bufsize) = true) by (apply Z.ltb_lt; lia).
  assert (Ez : forall s, conv start bufsize sg v 122 s = Ok (set_lmod 8 s)) by done.
  repeat (destruct Hc as [<-|Hc];
    [destruct Hlm; cbn -[conv Z.sub Z.ltb]; rewrite ?Hlt; cbn -[conv Z.sub Z.ltb];
     rewrite ?Ez; res_simpl; cbn -[conv Z.sub Z.ltb]; rewrite ?Hlt; cbn -[conv Z.sub Z.ltb];
     apply bind_ret|]).
  destruct Hc.
Qed.
End print_format.

Lemma print_format_spec m lo hi m1 b bufsize zero w lm k c v out :
  spec_ok zero w lm k -> conv_text m lo hi zero w k v c out ->
  (forall p s, src_holds m lo hi (InMem p) s -> src_holds m1 lo hi (InMem p) s) ->
  0 <= v < 2 ^ 64 -> 0 < bufsize < 2 ^ 63 -> Z.of_nat (length out) <= bufsize ->
  lo <= b -> b + Z.of_nat (length out) <= hi -> mapped m1 b (Z.of_nat (length out)) ->
  print_format m1 b bufsize (spec_text zero w lm c) v =
  Ok (s32 (Z.of_nat (length out)), (b + Z.of_nat (length out), write_bytes m1 b out)).
Proof.
  intros (Hw & Hwv & Hz & Hlm & Hwl) Hout Hstr Hv Hsz Hf Hlo Hhi Hm.
  pose proof (conv_text_char _ _ _ _ _ _ _ _ _ Hout) as Hc.
  assert (E : format_loop b bufsize (if zero then 48 else 32) v (w ++ lm ++ [c]) (FState b m1 [] 4 false) =
    conv b bufsize (if zero then 48 else 32) v c (FState b m1 w k false)).
  { rewrite format_loop_width by (done || (cbn [length]; unfold SIZEC_LEN; lia)). cbn [app].
    apply format_loop_conv; [lia | done | done]. }
  destruct (conv_spec b bufsize m lo hi ltac:(lia) b m1 zero w k v c out Hout Hstr
              (lmod_text_size _ _ Hlm) Hv Hw Hwv ltac:(unfold SIZEC_LEN; lia) ltac:(lia) ltac:(lia)
              Hlo Hhi Hm) as [u Hu].
  rewrite Hu in E. unfold print_format, spec_text. cbn [tail].
  assert (Hgo : forall sg, sg = (if zero then 48 else 32) ->
    (s ← format_loop b bufsize sg v (w ++ lm ++ [c]) (FState b m1 [] 4 false);
     Ok (s32 (fs_buf s - b), (fs_buf s, fs_mem s))) =
    Ok (s32 (Z.of_nat (length out)), (b + Z.of_nat (length out), write_bytes m1 b out))).
  { intros sg ->. rewrite E. res_simpl. cbn [fs_buf fs_mem]. do 3 f_equal. lia. }
  destruct zero; cbn [app].
  - cbn [Z.eqb Pos.eqb orb]. by apply Hgo.
  - destruct w as [|d w]; cbn [app hd] in *.
    + destruct Hlm; cbn [app Z.eqb Pos.eqb orb] in *; try (by apply Hgo).
      repeat (destruct Hc as [<-|Hc]; [by apply Hgo|]). destruct Hc.
    + inversion Hw; subst. specialize (Hz eq_refl).
      destruct (Z.eqb_spec d 48), (Z.eqb_spec d 46); try lia. cbn [orb]. by apply Hgo.
Qed.

Lemma scan_form_spec m p b bs c rest acc fuel :
  cstr m p (b :: bs ++ c :: rest) -> Forall (fun x => is_conv x = false) bs -> is_conv c = true ->
  (length acc + length bs + 2 < FORMSTR_LEN)%nat -> (length bs < fuel)%nat ->
  scan_form fuel m p acc = Ok (acc ++ b :: bs ++ [c], p + 1 + Z.of_nat (length bs)).
Proof.
  revert p b acc fuel. induction bs as [|x bs IH]; intros p b acc [|fuel] H Hn Hc Hl Hf;
    cbn [length app] in *; try lia; cbn [scan_form]; rewrite (cstr_head _ _ _ H); res_simpl;
    pose proof (cstr_cons _ _ _ _ H) as (_ & _ & H'); rewrite (cstr_head _ _ _ H'); res_simpl; cbn [hd].
  - rewrite Hc, decide_True by (rewrite length_app; cbn [length]; lia).
    rewrite <- app_assoc, Z.add_0_r. done.
  - inversion Hn as [|? ? Hx Hn']; subst. rewrite Hx.
    rewrite (IH (p + 1) x) by (done || (rewrite length_app; cbn [length]; lia) || lia).
    rewrite <- app_assoc. cbn [app]. do 2 f_equal. lia.
Qed.

Lemma spec_text_scan zero w lm k m lo hi v c out :
  spec_ok zero w lm k -> conv_text m lo hi zero w k v c out ->
  exists bs, spec_text zero w lm c = 37 :: bs ++ [c] /\ Forall (fun x => is_conv x = false) bs /\
    is_conv c = true /\ c <> 37 /\ (length bs <= 16)%nat.
Proof.
  intros (Hw & _ & _ & Hlm & Hl) Hout%conv_text_char.
  exists ((if zero then [48] else []) ++ w ++ lm). split; [|split; [|split; [|split]]].
  - unfold spec_text. by rewrite <- !app_assoc.
  - apply Forall_app. split; [destruct zero; repeat constructor|]. apply Forall_app. split.
    + eapply Forall_impl; [exact Hw|]. cbn. intros b Hb. unfold is_conv.
      repeat match goal with |- context [b =? ?k] => destruct (Z.eqb_spec b k); [lia|] end. done.
    + destruct Hlm; repeat constructor.
  - repeat (destruct Hout as [<-|Hout]; [done|]). destruct Hout.
  - intros ->. repeat (destruct Hout as [E|Hout]; [done|]). destruct Hout.
  - rewrite !length_app. destruct zero, Hlm; cbn [length]; lia.
Qed.

(** ** The text a format describes *)

(** [renders m lo hi fmt args out]: the format [fmt] with the arguments [args]
    stands for the text [out]; [m], [lo] and [hi] as in conv_text. *)
Inductive renders (m : mem) (lo hi : Z) : list Z -> list Z -> list Z -> Prop :=
| r_end args : renders m lo hi [] args []
| r_char b fmt args out :
    0 < b < 256 -> b <> 37 -> renders m lo hi fmt args out ->
    renders m lo hi (b :: fmt) args (b :: out)
| r_percent fmt args out :
    renders m lo hi fmt args out -> renders m lo hi (37 :: 37 :: fmt) args (37 :: out)
| r_conv zero w lm k c v text fmt args out :
    spec_ok zero w lm k -> 0 <= v < 2 ^ 64 -> conv_text m lo hi zero w k v c text ->
    renders m lo hi fmt args out ->
    renders m lo hi (spec_text zero w lm c ++ fmt) (v :: args) (text ++ out).

Lemma vsn_loop_spec m lo hi fmt args out m1 bstart bufsize ptr b fuel :
  renders m lo hi fmt args out -> 
  (forall p s, src_holds m lo hi (InMem p) s -> src_holds m1 lo hi (InMem p) s) ->
  cstr m1 ptr fmt -> ptr + Z.of_nat (length fmt) < lo \/ hi <= ptr ->
  mapped m1 b (Z.of_nat (length out)) -> bstart <= b -> 0 < bufsize < 2 ^ 63 ->
  b - bstart + Z.of_nat (length out) < bufsize -> lo <= b -> b + Z.of_nat (length out) <= hi ->
  (length fmt < fuel)%nat ->
  vsn_loop fuel m1 bstart bufsize ptr b args =
  Ok (b + Z.of_nat (length out), write_bytes m1 b out).
Proof.
  intros Hr. revert m1 ptr b fuel.
  induction Hr as [args|c fmt args out Hc Hne Hr IH|fmt args out Hr IH
                  |zero w lm k c v text fmt args out Hok Hv Hct Hr IH];
    intros m1 ptr b [|fuel] Hstr Hf Hd Hm Hb Hsz Hfit Hlo Hhi Hfu; cbn [length] in *; try lia;
    cbn [vsn_loop].
  - rewrite (cstr_head _ _ _ Hf). res_simpl. cbn. by rewrite Z.add_0_r.
  - rewrite (cstr_head _ _ _ Hf). res_simpl. cbn [hd].
    destruct (Z.eqb_spec c 0), (Z.ltb_spec (b - bstart) bufsize), (Z.eqb_spec c 37); try lia.
    cbn [negb andb]. rewrite (mapped_store8 _ _ _ _ _ Hm) by lia. res_simpl.
    rewrite u8_small by lia. apply cstr_cons in Hf as (_ & _ & Hf).
    rewrite IH; try done; try lia.
    + rewrite write_bytes_insert_head. do 2 f_equal. lia.
    + intros p s Hs%Hstr. apply (src_holds_write m1 lo hi (InMem p) s b [c]); cbn [length]; done || lia.
    + eapply (cstr_frame m1 _ _ _ b (b + 1)); [|exact Hf|lia].
      intros a Ha. apply lookup_insert_ne. lia.
    + apply mapped_insert. eapply mapped_sub; [exact Hm | lia | lia].
  - rewrite (cstr_head _ _ _ Hf). res_simpl. cbn [hd].
    destruct (Z.ltb_spec (b - bstart) bufsize); [|lia]. cbn [Z.eqb Pos.eqb negb andb].
    rewrite (scan_form_spec m1 ptr 37 [] 37 fmt [] FORMSTR_LEN) by (done || (unfold FORMSTR_LEN; cbn; lia)).
    res_simpl. cbn [length]. rewrite Z.add_0_r. apply cstr_cons in Hf as (_ & _ & Hf).
    rewrite (cstr_head _ _ _ Hf). res_simpl. cbn [hd Z.eqb Pos.eqb].
    rewrite (mapped_store8 _ _ _ _ _ Hm) by lia. res_simpl. rewrite u8_small by lia.
    apply cstr_cons in Hf as (_ & _ & Hf). rewrite IH; try done; try lia.
    + rewrite write_bytes_insert_head. do 2 f_equal. lia.
    + intros p s Hs%Hstr. apply (src_holds_write m1 lo hi (InMem p) s b [37]); cbn [length]; done || lia.
    + eapply (cstr_frame m1 _ _ _ b (b + 1)); [|exact Hf|lia].
      intros a Ha. apply lookup_insert_ne. lia.
    + apply mapped_insert. eapply mapped_sub; [exact Hm | lia | lia].
  - destruct (spec_text_scan _ _ _ _ _ _ _ _ _ _ Hok Hct) as (bs & Et & Hbs & Hic & Hc37 & Hbl).
    rewrite length_app in *. assert (Hl : length (spec_text zero w lm c) = S (length bs + 1)).
    { rewrite Et. cbn [length]. rewrite length_app. done. }
    assert (Hf' := Hf). rewrite Et in Hf'. cbn [app] in Hf'. rewrite <- app_assoc in Hf'. cbn [app] in Hf'.
    rewrite (cstr_head _ _ _ Hf'). res_simpl. cbn [hd].
    destruct (Z.ltb_spec (b - bstart) bufsize); [|lia]. cbn [Z.eqb Pos.eqb negb andb].
    rewrite (scan_form_spec m1 ptr 37 bs c fmt [] FORMSTR_LEN Hf') by
      (done || (unfold FORMSTR_LEN; cbn [length]; lia)).
    res_simpl. cbn [app]. rewrite <- Et.
    apply cstr_cons in Hf' as (_ & _ & Hf'). apply cstr_app_r in Hf'.
    rewrite (cstr_head _ _ _ Hf'). res_simpl. cbn [hd]. destruct (Z.eqb_spec c 37); [done|].
    rewrite u64_small by lia.
    rewrite (print_format_spec m lo hi m1 b _ zero w lm k c v text); try done; try lia;
      [|eapply mapped_sub; [exact Hm | lia | lia]].
    res_simpl. apply cstr_cons in Hf' as (_ & _ & Hf').
    rewrite IH; try done; try lia.
    + rewrite write_bytes_seq. do 2 f_equal. lia.
    + intros p s Hs%Hstr. apply src_holds_write; [done | lia | lia].
    + eapply cstr_frame; [apply write_bytes_same_outside | exact Hf' | lia].
    + apply mapped_write_bytes. eapply mapped_sub; [exact Hm | lia | lia].
Qed.

(** ** Bounds and termination, for any format *)

(** From buffer position [b] and memory [m], output was produced up to [b'],
    not past [hi], and the memory changed only in [lo, hi). *)
Definition emits (lo hi b : Z) (m : mem) (r : Z * mem) : Prop :=
  b <= r.1 <= hi /\ stores m r.2 lo hi.

Lemma emits_refl lo hi b m : b <= hi -> emits lo hi b m (b, m).
Proof. intros H. split; cbn; [lia | apply stores_refl]. Qed.

Lemma emits_trans lo hi b m r r' : emits lo hi b m r -> emits lo hi r.1 r.2 r' -> emits lo hi b m r'.
Proof.
  intros [H1 H2] [H3 H4]. split; [lia|]. by eapply stores_trans.
Qed.

Lemma emits_store lo hi b m c m' :
  lo <= b < hi -> store8 m b c = Ok m' -> emits lo hi b m (b + 1, m').
Proof. intros Hb H. split; cbn; [lia|]. by eapply store8_stores. Qed.

Lemma fill_loop_emits lo hi m bstart bufsize c n b r :
  fill_loop m bstart bufsize c n b = Ok r -> lo <= b <= hi -> hi = bstart + bufsize -> emits lo hi b m r.
Proof.
  revert m b. induction n as [|n IH]; intros m b H Hb Hhi; cbn [fill_loop] in H.
  { simplify_eq. apply emits_refl. lia. }
  destruct (Z.ltb_spec (b - bstart) bufsize); [|simplify_eq; apply emits_refl; lia].
  apply bind_Ok_inv in H as (m' & Hm & H).
  eapply (emits_trans _ _ _ _ (b + 1, m')); [eapply emits_store; [lia | done]|].
  apply IH in H; cbn; lia || done.
Qed.

Lemma fill_loop_terminates m bstart bufsize c n b : terminates (fill_loop m bstart bufsize c n b).
Proof.
  revert m b. induction n as [|n IH]; intros m b; cbn [fill_loop]; [done|].
  destruct (_ <? _); [|done]. apply terminates_bind; [auto | intros m' _; apply IH].
Qed.

Lemma print_str_emits lo hi m b bufsize str r :
  print_str m b bufsize str = Ok r -> lo <= b <= hi -> hi = b + bufsize -> emits lo hi b m r.
Proof.
  unfold print_str. generalize (walk_fuel m) as fuel. intros fuel.
  assert (G : forall fuel m i b0 r, print_str_loop fuel m b bufsize str i b0 = Ok r ->
    lo <= b0 <= hi -> hi = b + bufsize -> emits lo hi b0 m r); [|apply G].
  clear. intros fuel. induction fuel as [|fuel IH]; intros m i b0 r H Hb Hhi;
    cbn [print_str_loop] in H; [done|].
  apply bind_Ok_inv in H as (len & _ & H).
  destruct (i <? len); cbn [andb] in H; [|simplify_eq; apply emits_refl; lia].
  destruct (Z.ltb_spec (b0 - b) bufsize); [|simplify_eq; apply emits_refl; lia].
  apply bind_Ok_inv in H as (c & _ & H). apply bind_Ok_inv in H as (m' & Hm & H).
  eapply (emits_trans _ _ _ _ (b0 + 1, m')); [eapply emits_store; [lia | done]|].
  apply IH in H; cbn; lia || done.
Qed.

Lemma src_len_terminates m s : terminates (src_len m s).
Proof. destruct s; [apply strlen_terminates | done]. Qed.

Lemma src_get_terminates m s i : terminates (src_get m s i).
Proof. destruct s; cbn; [auto|]. by destruct (_ !! _). Qed.

Lemma print_str_terminates m b bufsize str : terminates (print_str m b bufsize str).
Proof.
  apply (walk_ends m snd (fun x => dom (fst (fst x)) = dom m)
    (fun n x => print_str_loop n (fst (fst x)) b bufsize str (snd (fst x)) (snd x)))
    with (x := (m, 0, b)); [|done].
  intros n [[m1 i] p] Hd H. cbn [fst snd print_str_loop] in *.
  apply out_of_fuel_bind in H as (len & _ & H); [|apply src_len_terminates].
  loop_out H. apply out_of_fuel_bind in H as (c & _ & H); [|apply src_get_terminates].
  out_step H m' Hm. split.
  - eapply same_dom_is_Some; [exact Hd|]. by apply store8_inv in Hm as [? _].
  - exists (m', i + 1, p + 1). cbn. apply store8_dom in Hm. by rewrite Hm.
Qed.

Lemma print_fill_emits lo hi m b bufsize w size base c optlen r :
  print_fill m b bufsize w size base c optlen = Ok r -> lo <= b <= hi -> hi = b + bufsize ->
  emits lo hi b m r.
Proof.
  intros H Hb Hhi. unfold print_fill in H.
  apply bind_Ok_inv in H as ([v e] & _ & H). apply bind_Ok_inv in H as (l & _ & H).
  destruct (_ <? _); [|simplify_eq; apply emits_refl; lia]. by eapply fill_loop_emits.
Qed.

Lemma print_str_fill_emits lo hi m b bufsize w p c r :
  print_str_fill m b bufsize w p c = Ok r -> lo <= b <= hi -> hi = b + bufsize -> emits lo hi b m r.
Proof.
  intros H Hb Hhi. unfold print_str_fill in H.
  apply bind_Ok_inv in H as ([v e] & _ & H). apply bind_Ok_inv in H as (l & _ & H).
  destruct (_ <? _); [|simplify_eq; apply emits_refl; lia]. by eapply fill_loop_emits.
Qed.

Lemma intlen_terminates v base : 2 <= base -> 0 <= v < 2 ^ 64 -> terminates (print_intlen v base).
Proof. intros Hb Hv. by rewrite print_intlen_spec. Qed.

Lemma print_fill_terminates m b bufsize w size base c optlen :
  2 <= base -> 0 <= size < 2 ^ 64 -> terminates (print_fill m b bufsize w size base c optlen).
Proof.
  intros Hb Hs. unfold print_fill. apply terminates_bind; [auto | intros [v e] _].
  apply terminates_bind; [by apply intlen_terminates | intros l _].
  destruct (_ <? _); [apply fill_loop_terminates | done].
Qed.

Lemma print_str_fill_terminates m b bufsize w p c : terminates (print_str_fill m b bufsize w p c).
Proof.
  unfold print_str_fill. apply terminates_bind; [auto | intros [v e] _].
  apply terminates_bind; [apply strlen_terminates | intros l _].
  destruct (_ <? _); [apply fill_loop_terminates | done].
Qed.

Lemma itoa_loop_frame lo hi m b base upper n v m' :
  itoa_loop m b base upper n v = Ok m' -> lo <= b -> b + Z.of_nat n <= hi -> stores m m' lo hi.
Proof.
  revert m v. induction n as [|n IH]; intros m v H Hlo Hhi; cbn [itoa_loop] in H; [done|].
  apply bind_Ok_inv in H as (z & _ & H). apply bind_Ok_inv in H as (m1 & Hm & H).
  assert (stores m m1 lo hi) by (eapply store8_stores; [exact Hm | lia]).
  destruct (_ =? 0); simplify_eq; [done|].
  eapply stores_trans; [done|]. apply (IH _ _ H); lia.
Qed.

Lemma itoa_loop_terminates m b base upper n v : terminates (itoa_loop m b base upper n v).
Proof.
  revert m v. induction n as [|n IH]; intros m v; cbn [itoa_loop]; [done|].
  apply terminates_bind; [by destruct (_ !! _) | intros z _].
  apply terminates_bind; [auto | intros m' _]. destruct (_ =? 0); [done | apply IH].
Qed.

Lemma print_itoa_emits lo hi m b bufsize v base upper k r :
  print_itoa m b bufsize v base upper = Ok (k, r) -> 2 <= base -> 0 <= v < 2 ^ 64 ->
  lo <= b <= hi -> hi = b + bufsize -> emits lo hi b m r.
Proof.
  intros H Hb Hv Hlo Hhi. unfold print_itoa in H.
  destruct (_ || _); [simplify_eq; apply emits_refl; lia|].
  rewrite print_intlen_spec in H by done. res_simpl. pose proof (num_len_range base v).
  destruct (Z.ltb_spec bufsize (Z.of_nat (num_len base v))); [simplify_eq; apply emits_refl; lia|].
  apply bind_Ok_inv in H as (m' & Hm & H). simplify_eq. split; cbn; [lia|].
  eapply itoa_loop_frame; [exact Hm | lia | rewrite Nat2Z.id; lia].
Qed.

Lemma print_itoa_terminates m b bufsize v base upper :
  2 <= base -> 0 <= v < 2 ^ 64 -> terminates (print_itoa m b bufsize v base upper).
Proof.
  intros Hb Hv. unfold print_itoa. destruct (_ || _); [done|].
  apply terminates_bind; [by apply intlen_terminates | intros l _]. destruct (_ <? _); [done|].
  apply terminates_bind; [apply itoa_loop_terminates | done].
Qed.

Lemma emits_mono lo hi hi' b m r : emits lo hi b m r -> hi <= hi' -> emits lo hi' b m r.
Proof. intros [H1 H2] Hh. split; [lia|]. eapply stores_mono; [done | lia | lia]. Qed.

Lemma land_u64 v k : 0 <= k -> 0 <= Z.land (u64 v) k < 2 ^ 64.
Proof. intros Hk. apply (land_range 64); [lia | apply u64_range]. Qed.

Lemma convert_pos n k : convert !! n = Some k -> 0 <= k.
Proof. do 9 (destruct n as [|n]; [intros; simplify_eq/=; lia|]). done. Qed.

Section conv_bounds.
Context (start bufsize sg v lo hi : Z).
Context (Hlo : lo <= start) (Hsz : 0 <= bufsize < 2 ^ 63) (Hhi : hi - start = bufsize + 0).

Local Lemma room_hi b : start <= b <= hi -> hi = b + room start bufsize b.
Proof using Hsz Hhi. intros Hb. unfold room. rewrite u64_small; lia. Qed.

Ltac fill H := eapply (print_fill_emits lo hi) in H; [|lia | apply room_hi; lia].
Ltac itoa H := eapply (print_itoa_emits lo hi) in H;
  [|lia | first [apply u64_range | apply land_u64; by eapply convert_pos] | lia | apply room_hi; lia].

Lemma conv_decimal_emits c s s' : conv_decimal start bufsize sg v c s = Ok s' ->
  start <= fs_buf s < hi -> emits lo hi (fs_buf s) (fs_mem s) (fs_buf s', fs_mem s').
Proof using Hlo Hsz Hhi.
  intros H Hb. unfold conv_decimal in H. cbv zeta in H.
  apply bind_Ok_inv in H as (_ & _ & H). apply bind_Ok_inv in H as ([[b m] value] & E & H).
  assert (emits lo hi (fs_buf s) (fs_mem s) (b, m) /\ 0 <= value < 2 ^ 64) as [[H1 H2] Hv].
  { destruct (_ && _).
    - apply bind_Ok_inv in E as (m' & Em & E). apply bind_Ok_inv in E as (k & Ek & E). simplify_eq.
      split; [eapply emits_store; [lia | exact Em]|].
      apply of_option_inv in Ek. apply land_u64. by eapply convert_pos.
    - simplify_eq. split; [apply emits_refl; lia | apply u64_range]. }
  cbn [fst snd] in H1, H2. apply bind_Ok_inv in H as ([b1 m1] & E1 & H). fill E1. destruct E1 as [E1 E1']; cbn [fst snd] in *.
  apply bind_Ok_inv in H as ([? [b2 m2]] & E2 & H). simplify_eq; cbn [fs_buf fs_mem].
  eapply (print_itoa_emits lo hi) in E2; [|lia | done | lia | apply room_hi; lia]. destruct E2 as [E2 E2'].
  cbn [fst snd] in *. split; cbn [fst snd]; [lia|]. by do 2 (eapply stores_trans; [done|]).
Qed.

Lemma conv_masked_emits base s s' : conv_masked start bufsize sg v base s = Ok s' -> 2 <= base ->
  start <= fs_buf s < hi -> emits lo hi (fs_buf s) (fs_mem s) (fs_buf s', fs_mem s').
Proof using Hlo Hsz Hhi.
  intros H Hbase Hb. unfold conv_masked in H. cbv zeta in H.
  apply bind_Ok_inv in H as (_ & _ & H). apply bind_Ok_inv in H as (k & Ek & H).
  apply of_option_inv in Ek.
  apply bind_Ok_inv in H as ([b1 m1] & E1 & H). fill E1. destruct E1 as [E1 E1']; cbn [fst snd] in *.
  apply bind_Ok_inv in H as ([? [b2 m2]] & E2 & H). simplify_eq; cbn [fs_buf fs_mem].
  itoa E2. destruct E2 as [E2 E2']. cbn [fst snd] in *. split; cbn [fst snd]; [lia|]. by eapply stores_trans.
Qed.

Lemma conv_emits c s s' : conv start bufsize sg v c s = Ok s' ->
  start <= fs_buf s < hi -> emits lo (hi + 1) (fs_buf s) (fs_mem s) (fs_buf s', fs_mem s').
Proof using Hlo Hsz Hhi.
  intros H Hb. unfold conv in H.
  destruct (_ || _); [eapply emits_mono; [by eapply conv_decimal_emits | lia]|].
  destruct (c =? 88); [apply conv_masked_emits in H; [|lia|done]; eapply emits_mono; [exact H | lia]|].
  destruct (c =? 120); [apply conv_masked_emits in H; [|lia|done]; eapply emits_mono; [exact H | lia]|].
  destruct (_ || _); [apply conv_masked_emits in H; [|lia|done]; eapply emits_mono; [exact H | lia]|].
  destruct (c =? 112); [|destruct (c =? 99); [|destruct (c =? 115)]].
  - unfold conv_pointer in H. apply bind_Ok_inv in H as (_ & _ & H).
    apply bind_Ok_inv in H as ([b1 m1] & E1 & H). fill E1. destruct E1 as [E1 E1']; cbn [fst snd] in *.
    apply bind_Ok_inv in H as ([b2 m2] & E2 & H).
    eapply (print_str_emits lo hi) in E2; [|split; [|lia]; lia | apply room_hi; lia]. destruct E2 as [E2 E2']; cbn [fst snd] in *.
    apply bind_Ok_inv in H as ([? [b3 m3]] & E3 & H). simplify_eq; cbn [fs_buf fs_mem].
    itoa E3. destruct E3 as [E3 E3']. cbn [fst snd] in *. eapply emits_mono with (hi := hi); [|lia]. split; cbn [fst snd]; [lia|].
    do 2 (eapply stores_trans; [done|]). done.
  - unfold conv_char in H. apply bind_Ok_inv in H as (_ & _ & H).
    apply bind_Ok_inv in H as ([b1 m1] & E1 & H). fill E1.
    apply bind_Ok_inv in H as (m2 & E2 & H). simplify_eq; cbn [fs_buf fs_mem].
    eapply emits_trans; [eapply emits_mono; [exact E1 | lia]|]. destruct E1; cbn [fst snd] in *.
    eapply emits_store; [lia | done].
  - unfold conv_string in H. apply bind_Ok_inv in H as (_ & _ & H).
    apply bind_Ok_inv in H as ([b1 m1] & E1 & H).
    eapply (print_str_fill_emits lo hi) in E1; [|split; [|lia]; lia | apply room_hi; lia].
    apply bind_Ok_inv in H as ([b2 m2] & E2 & H). simplify_eq; cbn [fs_buf fs_mem].
    destruct E1; cbn [fst snd] in *. eapply (print_str_emits lo hi) in E2; [|split; [|lia]; lia | apply room_hi; lia].
    destruct E2; cbn [fst snd] in *. eapply emits_mono with (hi := hi); [|lia]. split; cbn [fst snd]; [lia|].
    by eapply stores_trans.
  - destruct (c =? 122); [simplify_eq; apply emits_refl; cbn; lia|].
    destruct (_ && _); [|simplify_eq; apply emits_refl; lia].
    apply bind_Ok_inv in H as (_ & _ & H). simplify_eq. apply emits_refl; cbn; lia.
Qed.
End conv_bounds.

Lemma sizec_ok_terminates s : terminates (sizec_ok s).
Proof. unfold sizec_ok. by case_decide. Qed.

#[export] Hint Resolve sizec_ok_terminates print_str_terminates print_str_fill_terminates : core.

Lemma conv_terminates start bufsize sg v c s : terminates (conv start bufsize sg v c s).
Proof.
  pose proof (u64_range v) as Hv.
  assert (Hd : terminates (conv_decimal start bufsize sg v c s)).
  { unfold conv_decimal. apply terminates_bind; [auto | intros _ _].
    eapply (terminates_bind _ _) ; [|intros [[b m] value] E].
    { destruct (_ && _); [|done]. apply terminates_bind; [auto | intros m' _].
      apply terminates_bind; [auto | done]. }
    assert (0 <= value < 2 ^ 64).
    { destruct (_ && _); [|by simplify_eq]. apply bind_Ok_inv in E as (? & _ & E).
      apply bind_Ok_inv in E as (k & Ek%of_option_inv & E). simplify_eq.
      apply land_u64. by eapply convert_pos. }
    apply terminates_bind; [by apply print_fill_terminates | intros [b1 m1] _].
    apply terminates_bind; [by apply print_itoa_terminates | by intros [? [??]]]. }
  assert (Hm : forall base s, 2 <= base -> terminates (conv_masked start bufsize sg v base s)).
  { intros base s0 Hb. unfold conv_masked. apply terminates_bind; [auto | intros _ _].
    apply terminates_bind; [auto | intros k Ek%of_option_inv].
    assert (0 <= Z.land (u64 v) k < 2 ^ 64) by (apply land_u64; by eapply convert_pos).
    apply terminates_bind; [by apply print_fill_terminates | intros [b1 m1] _].
    apply terminates_bind; [by apply print_itoa_terminates | by intros [? [??]]]. }
  unfold conv. destruct (_ || _); [done|]. destruct (c =? 88); [by apply Hm|].
  destruct (c =? 120); [by apply Hm|]. destruct (_ || _); [by apply Hm|].
  destruct (c =? 112); [|destruct (c =? 99); [|destruct (c =? 115)]].
  - unfold conv_pointer. apply terminates_bind; [auto | intros _ _].
    apply terminates_bind; [by apply print_fill_terminates | intros [b1 m1] _].
    apply terminates_bind; [auto | intros [b2 m2] _].
    apply terminates_bind; [by apply print_itoa_terminates | by intros [? [??]]].
  - unfold conv_char. apply terminates_bind; [auto | intros _ _].
    apply terminates_bind; [by apply print_fill_terminates | intros [b1 m1] _].
    apply terminates_bind; [auto | done].
  - unfold conv_string. apply terminates_bind; [auto | intros _ _].
    apply terminates_bind; [auto | intros [b1 m1] _]. apply terminates_bind; [auto | by intros [??]].
  - destruct (c =? 122); [done|]. destruct (_ && _); [|done]. by apply terminates_bind; [auto|].
Qed.

(** An induction on lists that may drop two elements at a time. *)
Lemma list_ind2 {A} (P : list A -> Prop) :
  P [] -> (forall x l, P l -> P (tail l) -> P (x :: l)) -> forall l, P l.
Proof.
  intros H0 H1 l. cut (P l /\ P (tail l)); [tauto|].
  induction l as [|x l [IH1 IH2]]; [done|]. split; [by apply H1 | done].
Qed.

Lemma format_loop_step start bufsize sg v c form s :
  exists s' form', (form' = form \/ form' = tail form) /\
    fs_buf s' = fs_buf s /\ fs_mem s' = fs_mem s /\
    format_loop start bufsize sg v (c :: form) s =
      if negb (c =? 0) && (fs_buf s - start <? bufsize) then
        if (c =? 108) || (c =? 104) then format_loop start bufsize sg v form' s'
        else s1 ← conv start bufsize sg v c s; format_loop start bufsize sg v form s1
      else Ok s.
Proof.
  cbn [format_loop].
  destruct (Z.eqb_spec c 108) as [->|]; [|destruct (Z.eqb_spec c 104) as [->|]].
  - destruct (decide (hd 0 form = 108)) as [E|E].
    + destruct form as [|x form]; [done|]. cbn in E; subst x. exists (set_lmod 8 s), form. split; [by right|done].
    + exists (set_lmod 8 s), form. do 3 (split; [by auto|]). destruct (_ && _); [|done]. cbn [orb].
      destruct form as [|x form]; [done|]. cbn in E.
      do 7 (destruct x as [|x|x]; try done; try (destruct x as [x|x|]; try done)).
  - destruct (decide (hd 0 form = 104)) as [E|E].
    + destruct form as [|x form]; [done|]. cbn in E; subst x. exists (set_lmod 1 s), form. split; [by right|done].
    + exists (set_lmod 2 s), form. do 3 (split; [by auto|]). destruct (_ && _); [|done]. cbn [orb].
      destruct form as [|x form]; [done|]. cbn in E.
      do 7 (destruct x as [|x|x]; try done; try (destruct x as [x|x|]; try done)).
  - exists s, form. by do 3 (split; [by auto|]).
Qed.

Lemma format_loop_emits start bufsize sg v lo hi form s s' :
  format_loop start bufsize sg v form s = Ok s' -> lo <= start -> 0 <= bufsize < 2 ^ 63 ->
  hi = start + bufsize -> start <= fs_buf s <= hi + 1 ->
  emits lo (hi + 1) (fs_buf s) (fs_mem s) (fs_buf s', fs_mem s').
Proof.
  intros H Hlo Hsz Hhi. revert s H. induction form as [|c form IH1 IH2] using list_ind2; intros s H Hb.
  { simplify_eq/=. apply emits_refl. lia. }
  destruct (format_loop_step start bufsize sg v c form s) as (s1 & form' & Hf & Eb & Em & E).
  rewrite E in H. destruct (negb _); cbn [andb] in H; [|simplify_eq; apply emits_refl; lia].
  destruct (Z.ltb_spec (fs_buf s - start) bufsize); [|simplify_eq; apply emits_refl; lia].
  destruct (_ || _).
  - rewrite <- Eb, <- Em. destruct Hf as [-> | ->]; [apply IH1 | apply IH2]; done || lia.
  - apply bind_Ok_inv in H as (s2 & E2 & H).
    eapply (conv_emits start bufsize sg v lo hi) in E2; try lia.
    eapply emits_trans; [done|]. destruct E2 as [E2 _]. cbn [fst snd] in *. apply IH1; [done | lia].
Qed.

Lemma format_loop_terminates start bufsize sg v form s : terminates (format_loop start bufsize sg v form s).
Proof.
  revert s. induction form as [|c form IH1 IH2] using list_ind2; intros s; [done|].
  destruct (format_loop_step start bufsize sg v c form s) as (s1 & form' & Hf & _ & _ & ->).
  destruct (_ && _); [|done]. destruct (_ || _); [by destruct Hf as [-> | ->]|].
  apply terminates_bind; [apply conv_terminates | auto].
Qed.

Lemma print_format_emits m b bufsize form v n r lo :
  print_format m b bufsize form v = Ok (n, r) -> lo <= b -> 0 <= bufsize < 2 ^ 63 ->
  emits lo (b + bufsize + 1) b m r.
Proof.
  intros H Hlo Hsz. unfold print_format in H. destruct (match tail form with [] => _ | _ => _ end) as [sg f].
  apply bind_Ok_inv in H as (s & H & E). simplify_eq.
  eapply format_loop_emits in H; [exact H | lia | lia | done | cbn; lia].
Qed.

Lemma print_format_terminates m b bufsize form v : terminates (print_format m b bufsize form v).
Proof.
  unfold print_format. destruct (match tail form with [] => _ | _ => _ end) as [sg f].
  apply terminates_bind; [apply format_loop_terminates | done].
Qed.

Lemma scan_form_inv fuel m ptr acc r :
  scan_form fuel m ptr acc = Ok r -> is_Some (m !! ptr) /\ ptr < r.2.
Proof.
  revert ptr acc. induction fuel as [|fuel IH]; intros ptr acc H; cbn [scan_form] in H; [done|].
  apply bind_Ok_inv in H as (b & Hb & H). apply bind_Ok_inv in H as (c & _ & H).
  split; [by eapply load8_is_Some|]. destruct (is_conv c).
  - case_decide; simplify_eq. cbn. lia.
  - apply IH in H. lia.
Qed.

Lemma scan_form_terminates fuel m ptr acc : terminates (scan_form fuel m ptr acc).
Proof.
  revert ptr acc. induction fuel as [|fuel IH]; intros ptr acc; cbn [scan_form]; [done|].
  apply terminates_bind; [auto | intros b _]. apply terminates_bind; [auto | intros c _].
  destruct (is_conv c); [by case_decide | apply IH].
Qed.

Lemma vsn_loop_emits fuel m bstart bufsize ptr b arg r lo hi :
  vsn_loop fuel m bstart bufsize ptr b arg = Ok r -> lo <= bstart -> bstart <= b <= hi + 1 ->
  0 <= bufsize < 2 ^ 63 -> hi = bstart + bufsize -> emits lo (hi + 1) b m r.
Proof.
  intros H Hlo Hb Hsz Hhi. revert m ptr b arg H Hb.
  induction fuel as [|fuel IH]; intros m ptr b arg H Hb; cbn [vsn_loop] in H; [done|].
  apply bind_Ok_inv in H as (c & _ & H). destruct (negb _); cbn [andb] in H; [|simplify_eq; apply emits_refl; lia].
  destruct (Z.ltb_spec (b - bstart) bufsize); [|simplify_eq; apply emits_refl; lia].
  assert (Hstore : forall v m1 ptr, store8 m b v = Ok m1 -> vsn_loop fuel m1 bstart bufsize ptr (b + 1) arg = Ok r ->
    emits lo (hi + 1) b m r).
  { intros v m1 ptr' E H'. eapply (emits_trans _ _ _ _ (b + 1, m1)); [eapply emits_store; [lia | done]|].
    cbn [fst snd]. eapply IH; [done | lia]. }
  destruct (c =? 37); [|apply bind_Ok_inv in H as (m1 & Hm & H); by eapply Hstore].
  apply bind_Ok_inv in H as ([formstr ptr1] & _ & H). apply bind_Ok_inv in H as (c1 & _ & H).
  destruct (c1 =? 37); [apply bind_Ok_inv in H as (m1 & Hm & H); by eapply Hstore|].
  destruct arg as [|a arg]; [done|]. apply bind_Ok_inv in H as ([n [b1 m1]] & Hf & H).
  rewrite u64_small in Hf by lia. eapply (print_format_emits _ _ _ _ _ _ _ lo) in Hf; [|lia|lia].
  replace (b + _ + 1) with (hi + 1) in Hf by lia. eapply emits_trans; [done|].
  destruct Hf as [Hf _]. cbn [fst snd] in *. eapply IH; [done | lia].
Qed.

Lemma vsn_loop_terminates m bstart bufsize ptr b arg :
  bstart <= b <= bstart + bufsize + 1 -> 0 <= bufsize < 2 ^ 63 ->
  terminates (vsn_loop (walk_fuel m) m bstart bufsize ptr b arg).
Proof.
  intros Hb Hsz.
  apply (walk_ends_lt m (fun x => snd (fst (fst x)))
    (fun x => dom (fst (fst (fst x))) = dom m /\ bstart <= snd (fst x) <= bstart + bufsize + 1)
    (fun n x => vsn_loop n (fst (fst (fst x))) bstart bufsize (snd (fst (fst x))) (snd (fst x)) (snd x)))
    with (x := (m, ptr, b, arg)); [|done].
  clear Hb. intros n [[[m1 p] b0] arg0] [Hd Hb] H. clear b arg. rename b0 into b, arg0 into arg. cbn [fst snd vsn_loop] in *.
  out_step H c Hc. assert (is_Some (m !! p)) as Hp by (eapply same_dom_is_Some; [exact Hd | by eapply load8_is_Some]).
  split; [done|]. destruct (negb _); cbn [andb] in H; [|done].
  destruct (Z.ltb_spec (b - bstart) bufsize); [|done].
  assert (Hstore : forall m2 ptr v, p < ptr -> store8 m1 b v = Ok m2 ->
    vsn_loop n m2 bstart bufsize ptr (b + 1) arg = OutOfFuel ->
    exists x' : mem * Z * Z * list Z, (dom x'.1.1.1 = dom m ∧ bstart ≤ x'.1.2 ≤ bstart + bufsize + 1)
      ∧ p < x'.1.1.2 ∧ vsn_loop n x'.1.1.1 bstart bufsize x'.1.1.2 x'.1.2 x'.2 = OutOfFuel).
  { intros m2 p2 v Hlt E%store8_dom H'. exists (m2, p2, b + 1, arg). cbn. split_and!; try done; try lia. congruence. }
  destruct (c =? 37).
  - apply out_of_fuel_bind in H as ([f p1] & Hs & H); [|apply scan_form_terminates].
    apply scan_form_inv in Hs as [_ Hs]. cbn [snd] in Hs. out_step H c1 Hc1. destruct (c1 =? 37).
    + out_step H m2 Hm2. eapply Hstore; [|done..]. lia.
    + destruct arg as [|a arg]; [done|].
      apply out_of_fuel_bind in H as ([k [b1 m2]] & Hf & H); [|apply print_format_terminates].
      rewrite u64_small in Hf by lia. apply (print_format_emits _ _ _ _ _ _ _ bstart) in Hf as [Hf [_ Hdm]]; [|lia|lia].
      cbn [fst snd] in *. exists (m2, p1 + 1, b1, arg). cbn. split_and!; try done; try lia. congruence.
  - out_step H m2 Hm2. eapply Hstore; [|done..]. lia.
Qed.

(** ** Properties *)

Lemma digits_head_char base upper v d rest :
  2 <= base <= 16 -> digits base upper v = d :: rest -> 48 <= d < 127.
Proof.
  intros Hb E. assert (H : Forall (fun c => 48 <= c < 127) (digits base upper v)).
  { apply low_digits_Forall; [done|]. intros x Hx. apply zchar_range. lia. }
  rewrite E in H. by inversion H.
Qed.

Lemma digits_prefix_ok base upper v : 3 <= base <= 16 -> prefix_ok base base [] (digits base upper v ++ []).
Proof.
  intros Hb. destruct (Z.eq_dec base 16) as [->|].
  - left. split; [done|]. split; [|right; lia]. rewrite app_nil_r.
    assert (H : Forall (fun c => c <> 120) (digits 16 upper v)).
    { apply low_digits_Forall; [lia|]. intros x Hx. by apply zchar_not_x. }
    intros E. destruct (digits 16 upper v) as [|a [|b l]]; try done. cbn in E. simplify_eq.
    inversion H as [|? ? _ H']; subst. by inversion H'.
  - right; left. split_and!; done || lia.
Qed.

(** print_itoa followed by a NUL and strtoul are inverse: for every base
    they both support, printing a 64-bit number and reading the text back gives
    the number and the end of the text. *)
Theorem itoa_strtoul_roundtrip m p bufsize v base upper :
  2 < base <= 16 -> 0 <= v < 2 ^ 64 -> Z.of_nat (num_len base v) <= bufsize ->
  mapped m p (Z.of_nat (num_len base v) + 1) ->
  exists q m1 m2,
    print_itoa m p bufsize v base upper = Ok (1, (q, m1)) /\ store8 m1 q 0 = Ok m2 /\
    strtoul m2 p base = Ok (v, q).
Proof.
  intros Hb Hv Hsz Hm. set (n := num_len base v) in *.
  exists (p + Z.of_nat n), (write_bytes m p (digits base upper v)),
    (write_bytes m p (digits base upper v ++ [0])).
  assert (Hl : length (digits base upper v) = n) by apply digits_length.
  split; [|split].
  - rewrite print_itoa_spec by (done || (eapply mapped_sub; [exact Hm | lia | fold n; lia])).
    fold n. destruct (Z.ltb_spec bufsize (Z.of_nat n)); [lia | done].
  - rewrite <- write_bytes_seq, Hl.
    rewrite (mapped_store8 _ p (Z.of_nat n + 1)); [done | | lia]. by apply mapped_write_bytes.
  - assert (Hc : cstr (write_bytes m p (digits base upper v ++ [0])) p ([] ++ [] ++ digits base upper v ++ [])).
    { cbn [app]. rewrite app_nil_r. split; [apply write_bytes_at|].
      apply low_digits_Forall; [lia|]. intros d Hd. pose proof (zchar_range upper d). lia. }
    rewrite (strtoul_value _ _ [] [] (digits base upper v) [] base base); try done.
    + rewrite digits_value_digits by lia. rewrite u64_small by lia. cbn [length]. do 2 f_equal. lia.
    + lia.
    + cbn [app]. rewrite app_nil_r. pose proof (num_len_range base v).
      destruct (digits base upper v) as [|d l] eqn:E; cbn [length] in Hl; [lia|].
      apply digits_head_char in E; [|lia]. cbn [hd]. unfold is_blank.
      repeat match goal with |- context [?a =? ?k] => destruct (Z.eqb_spec a k); [lia|] end. done.
    + cbn [app]. apply digits_prefix_ok. lia.
    + apply low_digits_Forall; [lia|]. intros d Hd. unfold digit_in. exists d.
      split; [apply zchar_value; lia | lia].
Qed.

Lemma itoa_strtoul_roundtrip_witness :
  exists q m1 m2,
    print_itoa (write_bytes ∅ 100 (replicate 9 1)) 100 9 0xDEADBEEF 16 true = Ok (1, (q, m1)) /\
    store8 m1 q 0 = Ok m2 /\ strtoul m2 100 16 = Ok (0xDEADBEEF, q).
Proof.
  apply (itoa_strtoul_roundtrip (write_bytes ∅ 100 (replicate 9 1)) 100 9 0xDEADBEEF 16 true);
    [lia | lia | vm_compute; discriminate | apply (mappedb_spec _ _ 9); by vm_compute].
Defined.

(** C23: snprintf (and vsnprintf, its body) writes exactly the text the format
    and the arguments stand for, then a NUL, changes nothing else and returns the
    length of the text, when the text fits in the buffer and the strings involved
    lie outside of it. *)
Theorem vsnprintf_renders m buf size fmt_ptr fmt args out :
  let n := Z.of_nat (length out) in
  renders m buf (buf + n) fmt args out ->
  cstr m fmt_ptr fmt -> fmt_ptr + Z.of_nat (length fmt) < buf \/ buf + n <= fmt_ptr ->
  buf <> 0 -> fmt_ptr <> 0 -> n + 1 < size < 2 ^ 63 -> n < 2 ^ 31 -> mapped m buf (n + 1) ->
  snprintf m buf size fmt_ptr args = Ok (n, write_bytes m buf (out ++ [0])).
Proof.
  intros n Hr Hf Hd Hb Hp Hn Hn' Hm. unfold snprintf, vsnprintf.
  destruct (Z.eqb_spec buf 0), (Z.eqb_spec fmt_ptr 0), (Z.eqb_spec size 0); try lia. cbn [orb].
  rewrite (vsn_loop_spec m buf (buf + n) fmt args out); try done; try lia;
    [|eapply mapped_sub; [exact Hm | lia | lia] | pose proof (cstr_length _ _ _ Hf); unfold walk_fuel; lia].
  res_simpl. rewrite (mapped_store8 _ buf (n + 1)) by (lia || by apply mapped_write_bytes). res_simpl.
  rewrite s32_small by lia. do 2 f_equal; [lia|]. by rewrite <- write_bytes_seq.
Qed.

(** "x=%04d/%s" with 42 and "ok". *)
Definition demo_mem : mem :=
  write_bytes (write_bytes (write_bytes ∅ 100 (replicate 32 1)) 200
    [120; 61; 37; 48; 52; 100; 47; 37; 115; 0]) 300 [111; 107; 0].

Lemma vsnprintf_renders_witness :
  snprintf demo_mem 100 32 200 [42; 300] =
  Ok (9, write_bytes demo_mem 100 ([120; 61; 48; 48; 52; 50; 47; 111; 107] ++ [0])).
Proof.
  apply (vsnprintf_renders demo_mem 100 32 200 [120; 61; 37; 48; 52; 100; 47; 37; 115] [42; 300]
    [120; 61; 48; 48; 52; 50; 47; 111; 107]).
  - apply r_char; [lia | lia|]. apply r_char; [lia | lia|].
    apply (r_conv _ _ _ true [52] [] 4 100 42 [48; 48; 52; 50] ([47] ++ [37; 115]) [300] [47; 111; 107]).
    + split_and!; try done; [repeat constructor; lia | constructor | cbn; lia].
    + lia.
    + apply (ct_signed demo_mem _ _ true [52] 4 42 100 42); [by left | by vm_compute].
    + apply r_char; [lia | lia|].
      apply (r_conv _ _ _ false [] [] 4 115 300 [111; 107] [] [] []); [| lia | | constructor].
      * split_and!; try done; [constructor | constructor | cbn; lia].
      * apply (ct_string demo_mem _ _ false [] 4 300 [111; 107]).
        split_and!; [apply cstrb_spec; by vm_compute | done | right; vm_compute; discriminate].
  - apply cstrb_spec. by vm_compute.
  - right. vm_compute. discriminate.
  - lia.
  - lia.
  - cbn. lia.
  - cbn. lia.
  - apply (mappedb_spec _ _ 10). by vm_compute.
Defined.

(** C33: vsnprintf ends for every format, argument list and memory, and when it
    returns, it has stored only in the [size + 1] bytes from the start of the
    buffer; the last of them, one past the buffer, is reached by %c only (see
    percent_c_overflow). *)
Theorem vsnprintf_bounds m buf size fmt args :
  0 <= size < 2 ^ 63 ->
  terminates (vsnprintf m buf size fmt args) /\
  (forall n m', vsnprintf m buf size fmt args = Ok (n, m') -> stores m m' buf (buf + size + 1)).
Proof.
  intros Hs. unfold vsnprintf. destruct (buf =? 0); cbn [orb].
  { split; [done|]. intros; simplify_eq. apply stores_refl. }
  destruct (Z.eqb_spec size 0); [split; [done|]; intros; simplify_eq; apply stores_refl|]. split.
  - apply terminates_bind; [apply vsn_loop_terminates; lia | intros [b m1] _].
    apply terminates_bind; [auto | done].
  - intros n0 m' H. apply bind_Ok_inv in H as ([b m1] & H & Hst).
    apply (vsn_loop_emits _ _ _ _ _ _ _ _ buf (buf + (size - 1))) in H as [Hb H]; try lia.
    apply bind_Ok_inv in Hst as (m2 & Hm2 & E). simplify_eq. cbn [fst snd] in *.
    eapply stores_trans; [eapply stores_mono; [exact H | lia | lia]|].
    eapply store8_stores; [exact Hm2 | lia].
Qed.

Lemma vsnprintf_bounds_witness :
  terminates (vsnprintf demo_mem 100 8 200 [42; 300]) /\
  (forall n m', vsnprintf demo_mem 100 8 200 [42; 300] = Ok (n, m') -> stores demo_mem m' 100 (100 + 8 + 1)).
Proof. apply (vsnprintf_bounds demo_mem 100 8 200 [42; 300]). lia. Defined.

(** "%5c" into a buffer of five bytes: the NUL is stored one past its end. *)
Example percent_c_overflow :
  let m := write_bytes (write_bytes ∅ 100 [1; 1; 1; 1; 1; 7]) 200 [37; 53; 99; 0] in
  snprintf m 100 5 200 [65] = Ok (5, write_bytes m 100 [32; 32; 32; 32; 65; 0]).
Proof. by vm_compute. Qed.

(** "%5d" with -3: the sign comes before the padding and is not counted in it. *)
Example percent_d_sign_padding :
  let m := write_bytes (write_bytes ∅ 100 (replicate 10 1)) 200 [37; 53; 100; 0] in
  snprintf m 100 10 200 [-3] = Ok (6, write_bytes m 100 [45; 32; 32; 32; 32; 51; 0]).
Proof. by vm_compute. Qed.

(** A format that ends in a lone '%': the scan runs past its NUL. *)
Example lone_percent_reads_on :
  let m := write_bytes (write_bytes ∅ 100 (replicate 10 1)) 200 [37; 0; 100; 0] in
  snprintf m 100 10 200 [7] = Ok (0, write_bytes m 100 [0]).
Proof. by vm_compute. Qed.
