(* ===== verification/Scanf.v ===== *)
(** * lib/libc/stdio: formatted input (vsscanf)

    The input and the format are in the memory of CMem; the local arrays
    [formstr] and [tbuf] are lists, with an access outside of them a [Fault].
    The variable arguments are the list of the pointers va_arg reads. *)

From Stdlib Require Import ZArith Lia.
From stdpp Require Import base list gmap option numbers fin_maps.
From S2P Require Import Prelude CMem CString Conv Printf.

(** ** The code *)

Definition TBUF_LEN : nat := 256.

(** The separators of the input fields. *)
Definition is_sep (b : Z) : bool := (b =? 32) || (b =? 9) || (b =? 10).

(** [for(i = 0; **buffer is no separator && i < length; i++) tbuf[i] = **buffer]
    and [tbuf[i] = 0]; [n] is [length - i] and [tbuf] what is copied so far. *)
Fixpoint tbuf_loop (m : mem) (n : nat) (buffer : Z) (tbuf : list Z) : res (list Z * Z) :=
  b ← load8 m buffer;
  match n with
  | S n' =>
      if is_sep b then
        if decide (length tbuf < TBUF_LEN)%nat then Ok (tbuf, buffer) else Fault
      else if decide (length tbuf < TBUF_LEN)%nat then tbuf_loop m n' (buffer + 1) (tbuf ++ [b])
      else Fault
  | O => if decide (length tbuf < TBUF_LEN)%nat then Ok (tbuf, buffer) else Fault
  end.

Record sstate := SState {
  ss_mem : mem;
  ss_buffer : Z;       (** *buffer *)
  ss_args : list Z;    (** the pointers left in ap *)
  ss_length : Z;
}.

Definition next_arg (args : list Z) : res (Z * list Z) :=
  match args with [] => Fault | p :: args' => Ok (p, args') end.

(** The cases d, i, X, x, O and o of the switch. *)
Definition scan_int (base : Z) (s : sstate) : res sstate :=
  let length := if ss_length s =? 0 then 256 else ss_length s in
  '(tbuf, buffer) ← tbuf_loop (ss_mem s) (Z.to_nat length) (ss_buffer s) [];
  '(p, args) ← next_arg (ss_args s);
  '(v, _) ← strtol (local_str tbuf) 1 base;
  m ← store32 (ss_mem s) p v;
  Ok (SState m buffer args length).

(** The case c. *)
Definition scan_char (s : sstate) : res sstate :=
  '(p, args) ← next_arg (ss_args s);
  b ← load8 (ss_mem s) (ss_buffer s);
  m ← store8 (ss_mem s) p b;
  Ok (SState m (ss_buffer s + 1 + (if 1 <? ss_length s then ss_length s - 1 else 0)) args (ss_length s)).

(** The case s; strcpy stops at the first NUL of tbuf. *)
Definition scan_string (s : sstate) : res sstate :=
  let length := if ss_length s =? 0 then 256 else ss_length s in
  '(tbuf, buffer) ← tbuf_loop (ss_mem s) (Z.to_nat length) (ss_buffer s) [];
  '(p, args) ← next_arg (ss_args s);
  m ← store_bytes (ss_mem s) p (upto_nul tbuf ++ [0]);
  Ok (SState m buffer args length).

Definition scan_switch (c : Z) (s : sstate) : res sstate :=
  if (c =? 100) || (c =? 105) then scan_int 10 s
  else if (c =? 88) || (c =? 120) then scan_int 16 s
  else if (c =? 79) || (c =? 111) then scan_int 8 s
  else if c =? 99 then scan_char s
  else if c =? 115 then scan_string s
  else if (48 <=? c) && (c <=? 57) then
    Ok (SState (ss_mem s) (ss_buffer s) (ss_args s) (ss_length s + (c - 48)))
  else Ok s.

(** The loop of _scanf over the format, without its NUL. *)
Fixpoint scanf_loop (fmt : list Z) (s : sstate) : res sstate :=
  match fmt with
  | [] => Ok s
  | c :: fmt' => if c =? 0 then Ok s else s' ← scan_switch c s; scanf_loop fmt' s'
  end.

Definition _scanf (m : mem) (buffer : Z) (fmt : list Z) (ap : list Z) : res sstate :=
  scanf_loop (tail fmt) (SState m buffer ap 0).

Definition is_scan_conv (c : Z) : bool :=
  (c =? 100) || (c =? 105) || (c =? 120) || (c =? 88) || (c =? 112) ||
  (c =? 99) || (c =? 115) || (c =? 37) || (c =? 79) || (c =? 111).

(** The do-while loop that fills [formstr]. *)
Fixpoint formstr_loop (fuel : nat) (m : mem) (fmt : Z) (acc : list Z) : res (list Z * Z) :=
  match fuel with
  | O => Fault
  | S fuel' =>
      b ← load8 m fmt;
      let acc := acc ++ [b] in
      c ← load8 m (fmt + 1);
      if is_scan_conv c then
        if decide (length acc + 1 < FORMSTR_LEN)%nat then Ok (acc ++ [c], fmt + 1) else Fault
      else formstr_loop fuel' m (fmt + 1) acc
  end.

Fixpoint skip_seps (fuel : nat) (m : mem) (p : Z) : res Z :=
  match fuel with
  | O => OutOfFuel
  | S fuel' => b ← load8 m p; if is_sep b then skip_seps fuel' m (p + 1) else Ok p
  end.

Fixpoint vsscanf_loop (fuel : nat) (m : mem) (buffer fmt : Z) (ap : list Z) : res mem :=
  match fuel with
  | O => OutOfFuel
  | S fuel' =>
      b ← load8 m fmt;
      if b =? 0 then Ok m else
      if b =? 37 then
        '(formstr, fmt) ← formstr_loop FORMSTR_LEN m fmt [];
        c ← load8 m fmt;
        if negb (c =? 37) then
          buffer ← skip_seps (walk_fuel m) m buffer;
          s ← _scanf m buffer formstr ap;
          vsscanf_loop fuel' (ss_mem s) (ss_buffer s) (fmt + 1) (ss_args s)
        else vsscanf_loop fuel' m buffer (fmt + 1) ap
      else vsscanf_loop fuel' m buffer (fmt + 1) ap
  end.

(** The value returned is 0 whatever was converted. *)
Definition vsscanf (m : mem) (buffer fmt : Z) (ap : list Z) : res (Z * mem) :=
  m ← vsscanf_loop (walk_fuel m) m buffer fmt ap; Ok (0, m).

(** ** Fields of the input *)

Definition is_word (w : list Z) : Prop := Forall (fun b => is_sep b = false /\ 0 < b < 256) w.

Lemma tbuf_loop_word m n p w sep acc :
  bytes_at m p (w ++ [sep]) -> Forall (fun b => is_sep b = false) w ->
  (length w <= n)%nat -> (length w < n -> is_sep sep = true)%nat ->
  (length acc + length w < TBUF_LEN)%nat ->
  tbuf_loop m n p acc = Ok (acc ++ w, p + Z.of_nat (length w)).
Proof.
  revert n p acc. induction w as [|b w IH]; intros n p acc H Hw Hn Hs Hl; cbn [app length] in *.
  - rewrite app_nil_r, Z.add_0_r. destruct n as [|n]; cbn [tbuf_loop]; rewrite (bytes_at_load8 _ _ _ _ H);
      res_simpl; [|rewrite Hs by lia]; by rewrite decide_True by lia.
  - destruct n as [|n]; [lia|]. cbn [tbuf_loop]. rewrite (bytes_at_load8 _ _ _ _ H). res_simpl.
    inversion Hw as [|? ? Hb Hw']; subst. rewrite Hb, decide_True by lia.
    apply bytes_at_cons in H as [_ H].
    rewrite IH by (done || (rewrite ?length_app; cbn [length]; lia) || (intros; apply Hs; lia)).
    rewrite <- app_assoc. cbn [app]. do 2 f_equal. lia.
Qed.

Lemma skip_seps_spec m p bs b fuel :
  bytes_at m p (bs ++ [b]) -> Forall (fun b => is_sep b = true) bs -> is_sep b = false ->
  (length bs < fuel)%nat -> skip_seps fuel m p = Ok (p + Z.of_nat (length bs)).
Proof.
  revert p fuel. induction bs as [|x bs IH]; intros p [|fuel] H Hs Hb Hf; cbn [length app] in *; try lia;
    cbn [skip_seps]; rewrite (bytes_at_load8 _ _ _ _ H); res_simpl.
  - rewrite Hb. do 2 f_equal. lia.
  - inversion Hs as [|? ? Hx Hs']; subst. rewrite Hx. apply bytes_at_cons in H as [_ H].
    rewrite IH by (done || lia). f_equal. lia.
Qed.

Lemma formstr_loop_spec m p b bs c rest acc fuel :
  cstr m p (b :: bs ++ c :: rest) -> Forall (fun x => is_scan_conv x = false) bs -> is_scan_conv c = true ->
  (length acc + length bs + 2 < FORMSTR_LEN)%nat -> (length bs < fuel)%nat ->
  formstr_loop fuel m p acc = Ok (acc ++ b :: bs ++ [c], p + 1 + Z.of_nat (length bs)).
Proof.
  revert p b acc fuel. induction bs as [|x bs IH]; intros p b acc [|fuel] H Hn Hc Hl Hf;
    cbn [length app] in *; try lia; cbn [formstr_loop]; rewrite (cstr_head _ _ _ H); res_simpl;
    pose proof (cstr_cons _ _ _ _ H) as (_ & _ & H'); rewrite (cstr_head _ _ _ H'); res_simpl; cbn [hd].
  - rewrite Hc, decide_True by (rewrite length_app; cbn [length]; lia).
    rewrite <- app_assoc, Z.add_0_r. done.
  - inversion Hn as [|? ? Hx Hn']; subst. rewrite Hx.
    rewrite (IH (p + 1) x) by (done || (rewrite length_app; cbn [length]; lia) || lia).
    rewrite <- app_assoc. cbn [app]. do 2 f_equal. lia.
Qed.

(** The width the digits of a specification stand for: their sum. *)
Definition width_sum (wd : list Z) : Z := foldr (fun c n => (c - 48) + n) 0 wd.

Lemma scanf_loop_width wd l m b a n :
  Forall (fun c => 48 <= c <= 57) wd ->
  scanf_loop (wd ++ l) (SState m b a n) = scanf_loop l (SState m b a (n + width_sum wd)).
Proof.
  revert n. induction wd as [|c wd IH]; intros n Hw; cbn [app width_sum foldr]; [by rewrite Z.add_0_r|].
  inversion Hw as [|? ? Hc Hw']; subst. cbn [scanf_loop]. destruct (Z.eqb_spec c 0); [lia|].
  unfold scan_switch. repeat match goal with |- context [c =? ?k] => destruct (Z.eqb_spec c k); [lia|] end.
  cbn [orb]. destruct (Z.leb_spec 48 c), (Z.leb_spec c 57); try lia. cbn [andb]. res_simpl.
  cbn [ss_mem ss_buffer ss_args ss_length]. rewrite IH by done. do 2 f_equal.
  change (foldr _ 0 wd) with (width_sum wd). lia.
Qed.

(** What a conversion stores for the word [w] of the input. *)
Inductive field (w : list Z) : Z -> list Z -> Prop :=
| f_int c base v q :
    (c, base) ∈ [(100, 10); (105, 10); (120, 16); (88, 16); (111, 8); (79, 8)] ->
    strtol (local_str w) 1 base = Ok (v, q) -> field w c (be_enc 4 v)
| f_string : field w 115 (w ++ [0]).

(** [scans fmt inp args ws]: reading the input [inp] by the format [fmt] stores
    the byte strings [ws] through the pointers [args].  A word ends at a
    separator, or where the width is used up. *)
Inductive scans : list Z -> list Z -> list Z -> list (Z * list Z) -> Prop :=
| sc_end inp args : scans [] inp args []
| sc_literal b fmt inp args ws :
    0 < b < 256 -> b <> 37 -> scans fmt inp args ws -> scans (b :: fmt) inp args ws
| sc_percent fmt inp args ws : scans fmt inp args ws -> scans (37 :: 37 :: fmt) inp args ws
| sc_field wd c fmt seps w sep inp p args out ws :
    Forall (fun c => 48 <= c <= 57) wd -> (length wd <= 16)%nat ->
    Forall (fun b => is_sep b = true) seps -> w <> [] -> is_word w -> (length w < TBUF_LEN)%nat ->
    (is_sep sep = true /\ width_sum wd = 0 \/ is_sep sep = true /\ Z.of_nat (length w) <= width_sum wd \/
     Z.of_nat (length w) = width_sum wd) ->
    field w c out -> scans fmt (sep :: inp) args ws ->
    scans (37 :: wd ++ c :: fmt) (seps ++ w ++ sep :: inp) (p :: args) ((p, out) :: ws).

Definition apply_writes (m : mem) (ws : list (Z * list Z)) : mem :=
  foldl (fun m w => write_bytes m w.1 w.2) m ws.

(** [ws] are mapped and apart from [p, p + n). *)
Definition writes_apart (m : mem) (ws : list (Z * list Z)) (p n : Z) : Prop :=
  Forall (fun w => mapped m w.1 (Z.of_nat (length w.2)) /\
                   (w.1 + Z.of_nat (length w.2) <= p \/ p + n <= w.1)) ws.

Lemma writes_apart_sub m ws p n p' n' :
  writes_apart m ws p n -> p <= p' -> p' + n' <= p + n -> writes_apart m ws p' n'.
Proof. intros H ??. eapply Forall_impl; [exact H|]. cbn. intros w [? ?]. split; [done | lia]. Qed.

Lemma writes_apart_write m ws p n q bs :
  writes_apart m ws p n -> writes_apart (write_bytes m q bs) ws p n.
Proof. intros H. eapply Forall_impl; [exact H|]. cbn. intros w [? ?]. split; [by apply mapped_write_bytes | done]. Qed.

Lemma field_conv w c out : field w c out -> In c [100; 105; 120; 88; 111; 79; 115].
Proof.
  destruct 1 as [c base v q Hc _|]; [|cbn; tauto].
  repeat (apply elem_of_cons in Hc as [[= <- _]|Hc]; [cbn; tauto|]). by apply elem_of_nil in Hc.
Qed.

(** One field: the whole conversion, from the width on. *)
Lemma scan_field_spec m p w sep b args wd c out :
  bytes_at m b (w ++ [sep]) -> is_word w -> (length w < TBUF_LEN)%nat ->
  Forall (fun c => 48 <= c <= 57) wd ->
  (is_sep sep = true /\ width_sum wd = 0 \/ is_sep sep = true /\ Z.of_nat (length w) <= width_sum wd \/
   Z.of_nat (length w) = width_sum wd) -> w <> [] ->
  field w c out -> mapped m p (Z.of_nat (length out)) ->
  exists n, _scanf m b (37 :: wd ++ [c]) (p :: args) =
  Ok (SState (write_bytes m p out) (b + Z.of_nat (length w)) args n).
Proof.
  intros Hb Hw Hl Hwd Hs Hne Hf Hm. unfold _scanf. cbn [tail]. rewrite scanf_loop_width by done.
  rewrite Z.add_0_l. set (n := width_sum wd) in *. set (len := if n =? 0 then 256 else n).
  exists len.
  assert (Ht : tbuf_loop m (Z.to_nat len) b [] = Ok (w, b + Z.of_nat (length w))).
  { assert (length w <> 0)%nat by (destruct w; [done | cbn; lia]). unfold TBUF_LEN in *. subst len.
    apply (tbuf_loop_word m _ b w sep []); [done | | | | cbn; unfold TBUF_LEN; lia].
    - eapply Forall_impl; [exact Hw|]. by intros x [? _].
    - destruct (Z.eqb_spec n 0); lia.
    - destruct (Z.eqb_spec n 0); intros; destruct Hs as [[? ?]|[[? ?]|?]]; done || lia. }
  cbn [scanf_loop]. destruct Hf as [c base v q Hc Hv|].
  - assert (E : scan_int base (SState m b (p :: args) n) = Ok (SState (write_bytes m p (be_enc 4 v)) (b + Z.of_nat (length w)) args len)).
    { unfold scan_int. cbn [ss_mem ss_buffer ss_args ss_length]. fold len. rewrite Ht. res_simpl. cbn [next_arg].
      res_simpl. rewrite Hv. res_simpl. rewrite be_enc_length in Hm. rewrite store_be_spec by done. done. }
    repeat (apply elem_of_cons in Hc as [[= -> ->]|Hc]; [cbn -[scan_int]; by rewrite E|]). by apply elem_of_nil in Hc.
  - cbn -[scan_string]. unfold scan_string. cbn [ss_mem ss_buffer ss_args ss_length]. fold len. rewrite Ht. res_simpl.
    cbn [next_arg]. res_simpl. rewrite upto_nul_word by (eapply Forall_impl; [exact Hw | by intros x [_ ?]]).
    rewrite store_bytes_spec by done. res_simpl. rewrite u8_fmap_bytes; [done|].
    apply Forall_app. split; [|repeat constructor; lia]. eapply Forall_impl; [exact Hw|]. unfold byte. cbn. lia.
Qed.

Lemma cstr_frame_write m p s q bs :
  cstr m p s -> q + Z.of_nat (length bs) <= p \/ p + Z.of_nat (length s) + 1 <= q ->
  cstr (write_bytes m q bs) p s.
Proof.
  intros H Hd. eapply cstr_frame; [apply write_bytes_same_outside | exact H | lia].
Qed.

Lemma vsscanf_loop_spec m b p fmt inp args ws fuel :
  scans fmt inp args ws -> cstr m p fmt -> bytes_at m b inp ->
  writes_apart m ws p (Z.of_nat (length fmt) + 1) -> writes_apart m ws b (Z.of_nat (length inp)) ->
  (length fmt < fuel)%nat ->
  vsscanf_loop fuel m b p args = Ok (apply_writes m ws).
Proof.
  intros Hs. revert m b p fuel.
  induction Hs as [inp args|x fmt inp args ws Hx Hne Hs IH|fmt inp args ws Hs IH
    |wd c fmt seps w sep inp q args out ws Hwd Hwl Hseps Hwne Hw Hl Hn Hf Hs IH];
    intros m b p [|fuel] Hfmt Hinp Ha1 Ha2 Hfu; cbn [length] in *; try lia; cbn [vsscanf_loop];
    rewrite (cstr_head _ _ _ Hfmt); res_simpl; cbn [hd]; [done| | |].
  - destruct (Z.eqb_spec x 0), (Z.eqb_spec x 37); try lia. apply cstr_cons in Hfmt as (_ & _ & Hfmt).
    apply IH; try done; [|lia]. eapply writes_apart_sub; [exact Ha1 | lia | lia].
  - cbn [Z.eqb Pos.eqb].
    rewrite (formstr_loop_spec m p 37 [] 37 fmt [] FORMSTR_LEN) by (done || (unfold FORMSTR_LEN; cbn; lia)).
    res_simpl. cbn [length]. rewrite Z.add_0_r. apply cstr_cons in Hfmt as (_ & _ & Hfmt).
    rewrite (cstr_head _ _ _ Hfmt). res_simpl. cbn [hd Z.eqb Pos.eqb negb].
    apply cstr_cons in Hfmt as (_ & _ & Hfmt). apply IH; try done; [|lia].
    eapply writes_apart_sub; [exact Ha1 | lia | lia].
  - assert (Hc := field_conv _ _ _ Hf).
    assert (Hc' : is_scan_conv c = true /\ c <> 37).
    { repeat (destruct Hc as [<-|Hc]; [by split|]). destruct Hc. }
    destruct Hc' as [Hc1 Hc2]. cbn [Z.eqb Pos.eqb].
    rewrite (formstr_loop_spec m p 37 wd c fmt [] FORMSTR_LEN); try done;
      [| |unfold FORMSTR_LEN; cbn [length]; lia | unfold FORMSTR_LEN; lia].
    2:{ eapply Forall_impl; [exact Hwd|]. cbn. intros x Hx. unfold is_scan_conv.
        repeat match goal with |- context [x =? ?k] => destruct (Z.eqb_spec x k); [lia|] end. done. }
    res_simpl. cbn [app]. apply cstr_cons in Hfmt as (Hp37 & H37 & Hfmt).
    assert (Hfmt2 := Hfmt). apply cstr_app_r in Hfmt2. rewrite (cstr_head _ _ _ Hfmt2). res_simpl. cbn [hd].
    destruct (Z.eqb_spec c 37); [done|]. cbn [negb].
    assert (exists w0 w', w = w0 :: w' /\ is_sep w0 = false) as (w0 & w' & Ew & Hw0).
    { destruct w as [|w0 w']; [done|]. exists w0, w'. split; [done|]. inversion Hw; tauto. }
    assert (Hinp0 := Hinp). apply bytes_at_app in Hinp as [_ Hinp].
    rewrite (skip_seps_spec m b seps w0); [| | done | done|].
    2:{ rewrite Ew in Hinp0. cbn [app] in Hinp0. apply (bytes_at_app_l _ _ _ (w' ++ sep :: inp)). rewrite <- app_assoc. exact Hinp0. }
    2:{ apply bytes_at_mapped, mapped_size in Hinp0. rewrite length_app in Hinp0. unfold walk_fuel. lia. }
    res_simpl. inversion Ha1 as [|? ? [Hm Hap] Ha1']; subst. inversion Ha2 as [|? ? [_ Hap2] Ha2']; subst.
    cbn [fst snd] in *. rewrite !length_app in *. cbn [length] in *.
    edestruct (scan_field_spec m q (w0 :: w') sep (b + Z.of_nat (length seps)) args wd c out) as [n' ->]; try done.
    { apply (bytes_at_app_l _ _ _ inp). rewrite <- app_assoc. exact Hinp. }
    res_simpl. cbn [ss_mem ss_buffer ss_args]. apply cstr_cons in Hfmt2 as (_ & _ & Hfmt2).
    apply bytes_at_app in Hinp as [_ Hinp]. cbn [apply_writes foldl fst snd]. cbn [length] in *.
    apply IH; try lia.
    + apply cstr_frame_write; [done | lia].
    + eapply bytes_at_frame; [apply write_bytes_same_outside | exact Hinp |]. cbn [length]. lia.
    + apply writes_apart_write. eapply writes_apart_sub; [exact Ha1' | lia | lia].
    + apply writes_apart_write. eapply writes_apart_sub; [exact Ha2' | lia | cbn [length]; lia].
Qed.

Lemma skip_seps_terminates m p : terminates (skip_seps (walk_fuel m) m p).
Proof.
  apply (walk_ends m id (fun _ => True) (fun n p => skip_seps n m p)); [|done].
  intros n x _ H. cbn [skip_seps id] in *. out_step H b Hb. loop_out H.
  split; [by eapply load8_is_Some|]. by exists (x + 1).
Qed.

Lemma tbuf_loop_terminates m n p acc : terminates (tbuf_loop m n p acc).
Proof.
  revert p acc. induction n as [|n IH]; intros p acc; cbn [tbuf_loop];
    (apply terminates_bind; [auto | intros b _]).
  - by case_decide.
  - destruct (is_sep b); case_decide; done.
Qed.

Lemma next_arg_terminates args : terminates (next_arg args).
Proof. by destruct args. Qed.

#[export] Hint Resolve tbuf_loop_terminates next_arg_terminates strtol_terminates : core.

Lemma scan_switch_ok c s :
  terminates (scan_switch c s) /\ (forall s', scan_switch c s = Ok s' -> dom (ss_mem s') = dom (ss_mem s)).
Proof.
  assert (Hi : forall base, terminates (scan_int base s) /\
    (forall s', scan_int base s = Ok s' -> dom (ss_mem s') = dom (ss_mem s))).
  { intros base. unfold scan_int. split.
    - repeat (apply terminates_bind; [unfold store_be; auto | intros]; repeat case_match; auto).
    - intros s' H. apply bind_Ok_inv in H as ([? ?] & _ & H). apply bind_Ok_inv in H as ([? ?] & _ & H).
      apply bind_Ok_inv in H as ([? ?] & _ & H). apply bind_Ok_inv in H as (m & Hm & H). simplify_eq.
      by eapply store_bytes_dom. }
  assert (Hc : terminates (scan_char s) /\ (forall s', scan_char s = Ok s' -> dom (ss_mem s') = dom (ss_mem s))).
  { unfold scan_char. split.
    - repeat (apply terminates_bind; [auto | intros]; repeat case_match; auto).
    - intros s' H. apply bind_Ok_inv in H as ([? ?] & _ & H). apply bind_Ok_inv in H as (? & _ & H).
      apply bind_Ok_inv in H as (m & Hm & H). simplify_eq. by eapply store8_dom. }
  assert (Hs : terminates (scan_string s) /\ (forall s', scan_string s = Ok s' -> dom (ss_mem s') = dom (ss_mem s))).
  { unfold scan_string. split.
    - repeat (apply terminates_bind; [auto | intros]; repeat case_match; auto).
    - intros s' H. apply bind_Ok_inv in H as ([? ?] & _ & H). apply bind_Ok_inv in H as ([? ?] & _ & H).
      apply bind_Ok_inv in H as (m & Hm & H). simplify_eq. by eapply store_bytes_dom. }
  unfold scan_switch. repeat case_match; try done; split; try done; intros; by simplify_eq.
Qed.

Lemma scanf_loop_ok fmt s :
  terminates (scanf_loop fmt s) /\ (forall s', scanf_loop fmt s = Ok s' -> dom (ss_mem s') = dom (ss_mem s)).
Proof.
  revert s. induction fmt as [|c fmt IH]; intros s; cbn [scanf_loop]; [split; [done|]; intros; by simplify_eq|].
  destruct (c =? 0); [split; [done|]; intros; by simplify_eq|]. destruct (scan_switch_ok c s) as [Ht Hd]. split.
  - apply terminates_bind; [done | intros s1 _]. apply IH.
  - intros s' H. apply bind_Ok_inv in H as (s1 & H1%Hd & H%IH). congruence.
Qed.

Lemma formstr_loop_inv fuel m fmt acc r : formstr_loop fuel m fmt acc = Ok r -> fmt < r.2.
Proof.
  revert fmt acc. induction fuel as [|fuel IH]; intros fmt acc H; cbn [formstr_loop] in H; [done|].
  apply bind_Ok_inv in H as (b & _ & H). apply bind_Ok_inv in H as (c & _ & H).
  destruct (is_scan_conv c); [case_decide; simplify_eq; cbn; lia|]. apply IH in H. lia.
Qed.

Lemma formstr_loop_terminates fuel m fmt acc : terminates (formstr_loop fuel m fmt acc).
Proof.
  revert fmt acc. induction fuel as [|fuel IH]; intros fmt acc; cbn [formstr_loop]; [done|].
  apply terminates_bind; [auto | intros b _]. apply terminates_bind; [auto | intros c _].
  destruct (is_scan_conv c); [by case_decide | apply IH].
Qed.

(** Vsscanf ends for every memory, format and argument list. *)
Theorem vsscanf_terminates m b p args : terminates (vsscanf m b p args).
Proof.
  unfold vsscanf. apply terminates_bind; [|done].
  apply (walk_ends_lt m (fun x => snd (fst x)) (fun x => dom (fst (fst (fst x))) = dom m)
    (fun n x => vsscanf_loop n (fst (fst (fst x))) (snd (fst (fst x))) (snd (fst x)) (snd x)))
    with (x := (m, b, p, args)); [|done].
  clear. intros n [[[m1 b] p] args] Hd H. cbn [fst snd vsscanf_loop] in *. out_step H c Hc.
  split; [eapply same_dom_is_Some; [exact Hd | by eapply load8_is_Some]|].
  destruct (c =? 0); [done|]. destruct (c =? 37); [|exists (m1, b, p + 1, args); cbn; split_and!; done || lia].
  apply out_of_fuel_bind in H as ([f p1] & Hs & H); [|apply formstr_loop_terminates].
  apply formstr_loop_inv in Hs. cbn [snd] in Hs. out_step H c1 Hc1.
  destruct (negb _); [|exists (m1, b, p1 + 1, args); cbn; split_and!; done || lia].
  apply out_of_fuel_bind in H as (b1 & _ & H); [|apply skip_seps_terminates].
  apply out_of_fuel_bind in H as (s & Hs2 & H); [|apply scanf_loop_ok].
  apply scanf_loop_ok in Hs2. cbn in Hs2.
  exists (ss_mem s, ss_buffer s, p1 + 1, ss_args s). cbn. split_and!; try done; [congruence | lia].
Qed.

(** C27: vsscanf stores, for every field the format asks for, the number strtol
    reads in the next word of the input (in four bytes), or the word itself and a
    NUL, through the successive pointers, and nothing else; it returns 0. *)
Theorem vsscanf_scans m b p fmt inp args ws :
  scans fmt inp args ws -> cstr m p fmt -> bytes_at m b inp ->
  writes_apart m ws p (Z.of_nat (length fmt) + 1) -> writes_apart m ws b (Z.of_nat (length inp)) ->
  vsscanf m b p args = Ok (0, apply_writes m ws).
Proof.
  intros Hs Hf Hi Ha1 Ha2. unfold vsscanf. rewrite (vsscanf_loop_spec m b p fmt inp args ws); try done.
  pose proof (cstr_length _ _ _ Hf). unfold walk_fuel. lia.
Qed.

(** "%x,%2s" reading " 1f abc". *)
Definition demo_scan_mem : mem :=
  write_bytes (write_bytes (write_bytes ∅ 100 [37; 120; 44; 37; 50; 115; 0]) 200 [32; 49; 102; 32; 97; 98; 99; 0])
    300 (replicate 8 7).

Lemma vsscanf_scans_witness :
  vsscanf demo_scan_mem 200 100 [300; 304] =
  Ok (0, apply_writes demo_scan_mem [(300, be_enc 4 31); (304, [97; 98; 0])]).
Proof.
  apply (vsscanf_scans demo_scan_mem 200 100 [37; 120; 44; 37; 50; 115]
    ([32] ++ [49; 102] ++ 32 :: [97; 98; 99]) [300; 304]).
  - apply (sc_field [] 120 [44; 37; 50; 115] [32] [49; 102] 32 [97; 98; 99] 300 [304]);
      [constructor | cbn; lia | by repeat constructor | done | repeat constructor; lia | cbn; unfold TBUF_LEN; lia
      | by left | apply (f_int _ 120 16 31 3); [set_solver | by vm_compute]|].
    apply sc_literal; [lia | lia|].
    apply (sc_field [50] 115 [] [32] [97; 98] 99 [] 304 []);
      [repeat constructor; lia | cbn; lia | by repeat constructor | done | repeat constructor; lia
      | cbn; unfold TBUF_LEN; lia | by right; right | apply (f_string [97; 98]) | apply sc_end].
  - apply cstrb_spec. by vm_compute.
  - apply bytes_atb_spec. by vm_compute.
  - constructor; [split; [apply (mappedb_spec _ _ 4); by vm_compute | right; vm_compute; discriminate]|].
    constructor; [split; [apply (mappedb_spec _ _ 3); by vm_compute | right; vm_compute; discriminate]|constructor].
  - constructor; [split; [apply (mappedb_spec _ _ 4); by vm_compute | right; vm_compute; discriminate]|].
    constructor; [split; [apply (mappedb_spec _ _ 3); by vm_compute | right; vm_compute; discriminate]|constructor].
Defined.

(** The word of a field does not end at the NUL of the input: the bytes after it
    are taken as well, here up to a blank that follows the string "7". *)
Example word_runs_past_nul :
  let m := write_bytes (write_bytes (write_bytes ∅ 100 [37; 100; 37; 100; 0]) 200 [55; 0; 56; 32; 57; 32])
    300 (replicate 8 1) in
  vsscanf m 200 100 [300; 304] = Ok (0, write_bytes m 300 (be_enc 4 7 ++ be_enc 4 9)).
Proof. by vm_compute. Qed.

(** The digits of a width are added up: "%12d" reads three characters. *)
Example width_digits_added :
  let m := write_bytes (write_bytes (write_bytes ∅ 100 [37; 49; 50; 100; 0]) 200 [49; 50; 51; 52; 53; 32])
    300 (replicate 4 1) in
  vsscanf m 200 100 [300] = Ok (0, write_bytes m 300 (be_enc 4 123)).
Proof. by vm_compute. Qed.

(** A word of 256 characters: the NUL is stored past the end of tbuf. *)
Example long_word_overflows :
  let m := write_bytes (write_bytes (write_bytes ∅ 1000 [37; 115; 0]) 2000 (replicate 256 65 ++ [32]))
    3000 (replicate 300 1) in
  vsscanf m 2000 1000 [3000] = Fault.
Proof. by vm_compute. Qed.
