(* ===== verification/Heap.v ===== *)
(** * lib/libc/stdlib: the heap (malloc, free, realloc, memalign) and slof/sbrk.c

    The heap is a part of the memory of CMem.  A chunk is a four-byte header,
    the bit fields [inuse] (the 4 high bits) and [length] (the 28 low bits) of
    struct chunk, and [length] bytes of data; the chunks follow each other from
    [heap_start] to [act].  The static variables of malloc.c and sbrk.c are the
    fields of [hstate]; the address of the static array [heap] is a parameter. *)

From Stdlib Require Import ZArith Lia.
From stdpp Require Import base list gmap option numbers fin_maps.
From S2P Require Import Prelude CMem CString.

Definition HEAP_SIZE : Z := 0x200000.

Record hstate := HState {
  hmem : mem;
  act : Z;
  heap_start : Z;
  heap_end : Z;
  actptr : Z;
}.

Definition with_mem (st : hstate) (m : mem) : hstate :=
  HState m (act st) (heap_start st) (heap_end st) (actptr st).

(** ** struct chunk *)

Definition CHUNK : Z := 4.   (* sizeof(struct chunk) *)

Definition inuse (m : mem) (header : Z) : res Z := w ← load32 m header; Ok (Z.shiftr w 28).
Definition length_of (m : mem) (header : Z) : res Z := w ← load32 m header; Ok (Z.land w (Z.ones 28)).

Definition set_inuse (m : mem) (header v : Z) : res mem :=
  l ← length_of m header; store32 m header (Z.lor (Z.shiftl (v mod 2 ^ 4) 28) l).
Definition set_length (m : mem) (header v : Z) : res mem :=
  u ← inuse m header; store32 m header (Z.lor (Z.shiftl u 28) (v mod 2 ^ 28)).

(** ** The code *)

Section heap.
Context (heap : Z).

Definition sbrk (st : hstate) (increment : Z) : Z * hstate :=
  let actptr := if actptr st =? 0 then heap else actptr st in
  if heap + HEAP_SIZE <? actptr + increment then
    (-1, HState (hmem st) (act st) (heap_start st) (heap_end st) actptr)
  else (actptr, HState (hmem st) (act st) (heap_start st) (heap_end st) (actptr + increment)).

(** [(inuse != 0 || length < size) && header < act]: both fields are read
    from the header before [header] is compared with [act]. *)
Fixpoint search_loop (fuel : nat) (m : mem) (size act header : Z) : res Z :=
  match fuel with
  | O => OutOfFuel
  | S fuel' =>
      u ← inuse m header; l ← length_of m header;
      if (negb (u =? 0) || (l <? size)) && (header <? act)
      then search_loop fuel' m size act (header + CHUNK + l)
      else Ok header
  end.

Fixpoint clean_loop (fuel : nat) (m : mem) (act header firstfree : Z) (check : bool) : res (bool * mem) :=
  match fuel with
  | O => OutOfFuel
  | S fuel' =>
      if header <? act then
        u ← inuse m header; l ← length_of m header;
        '(m, firstfree, check) ←
          (if u =? 0 then
             if firstfree =? 0 then Ok (m, header, check)
             else f ← length_of m firstfree;
                  m ← set_length m firstfree (f + (l + CHUNK)); Ok (m, firstfree, true)
           else Ok (m, 0, check));
        l ← length_of m header;
        clean_loop fuel' m act (header + CHUNK + l) firstfree check
      else Ok (check, m)
  end.

Definition clean (st : hstate) : res (bool * mem) :=
  clean_loop (walk_fuel (hmem st)) (hmem st) (act st) (heap_start st) 0 false.

(** The first call's initialisation; [false] when malloc returns NULL. *)
Definition heap_init (st : hstate) (blksize : Z) : bool * hstate :=
  if act st =? 0 then
    let initsize := Z.land (u64 (blksize + 0x1000)) (u64 (Z.lnot 0xfff)) in
    let '(p, st) := sbrk st (s32 initsize) in
    if p =? -1 then (false, HState (hmem st) (act st) p (heap_end st) (actptr st))
    else (true, HState (hmem st) p p (p + initsize) (actptr st))
  else (true, st).

Fixpoint malloc_loop (fuel : nat) (st : hstate) (size : Z) : res (Z * hstate) :=
  match fuel with
  | O => OutOfFuel
  | S fuel' =>
      let blksize := u64 (size + CHUNK) in
      let '(ok, st) := heap_init st blksize in
      if negb ok then Ok (0, st) else
      let m := hmem st in
      if heap_end st <? act st + blksize then
        header ← search_loop (walk_fuel m) m size (act st) (heap_start st);
        if act st <=? header then
          '(merged, m) ← clean st;
          let st := with_mem st m in
          if merged : bool then malloc_loop fuel' st size
          else
            let '(p, st) := sbrk st (s32 blksize) in
            if p =? heap_end st then
              malloc_loop fuel'
                (HState (hmem st) (act st) (heap_start st) (heap_end st + blksize) (actptr st)) size
            else Ok (0, st)
        else
          alt ← length_of m header;
          if blksize <? alt then
            m ← set_inuse m header 1; m ← set_length m header size;
            let data := header + CHUNK in
            let header := data + size in
            m ← set_inuse m header 0; m ← set_length m header (u64 (alt - blksize));
            Ok (data, with_mem st m)
          else m ← set_inuse m header 1; Ok (header + CHUNK, with_mem st m)
      else
        m ← set_inuse m (act st) 1; m ← set_length m (act st) size;
        Ok (act st + CHUNK, HState m (act st + blksize) (heap_start st) (heap_end st) (actptr st))
  end.

(** One turn for every merge of free blocks, of which there are fewer than
    bytes, one for the extension of the heap and one for the result. *)
Definition malloc (st : hstate) (sz : Z) : res (Z * hstate) := malloc_loop (2 + size (hmem st)) st sz.

Definition free (st : hstate) (ptr : Z) : res hstate :=
  if ptr =? 0 then Ok st else m ← set_inuse (hmem st) (ptr - CHUNK) 0; Ok (with_mem st m).

Definition realloc (st : hstate) (ptr size : Z) : res (Z * hstate) :=
  let header := ptr - CHUNK in
  l ← length_of (hmem st) header;
  if size <=? l then Ok (ptr, st) else
  '(newptr, st) ← malloc st size;
  if newptr =? 0 then Ok (0, st) else
  l ← length_of (hmem st) header;
  '(_, m) ← memcpy (hmem st) newptr ptr l;
  m ← set_inuse m header 0;
  Ok (newptr, with_mem st m).

Definition memalign (st : hstate) (blocksize bytes : Z) : res (Z * hstate) :=
  '(x, st) ← malloc st (u64 (bytes + blocksize));
  Ok (Z.land (u64 (x + blocksize - 1)) (u64 (Z.lnot (u64 (blocksize - 1)))), st).
End heap.

(** ** Chunks *)

Lemma lor_shiftl u l : 0 <= l < 2 ^ 28 -> Z.lor (Z.shiftl u 28) l = u * 2 ^ 28 + l.
Proof.
  intros Hl. rewrite <- Z.shiftl_mul_pow2 by lia. rewrite <- Z.lxor_lor, Z.add_nocarry_lxor; [done| |].
  all: apply Z.bits_inj'; intros n Hn; rewrite Z.land_spec, Z.bits_0.
  all: destruct (Z.lt_ge_cases n 28); [rewrite Z.shiftl_spec_low by lia; done|].
  all: rewrite <- (Z.mod_small l (2 ^ 28)) by done; rewrite Z.mod_pow2_bits_high by lia; apply andb_false_r.
Qed.

(** A chunk header with these fields at [h]. *)
Definition chunk_at (m : mem) (h u l : Z) : Prop :=
  bytes_at m h (be_enc 4 (u * 2 ^ 28 + l)) /\ 0 <= u < 16 /\ 0 <= l < 2 ^ 28.

Lemma chunk_load m h u l : chunk_at m h u l -> load32 m h = Ok (u * 2 ^ 28 + l).
Proof.
  intros (H & Hu & Hl). rewrite (load_be_spec 4 _ _ _ H) by done. f_equal.
  rewrite be_dec_enc. apply Z.mod_small. lia.
Qed.

Lemma inuse_spec m h u l : chunk_at m h u l -> inuse m h = Ok u.
Proof.
  intros H. unfold inuse. rewrite (chunk_load _ _ _ _ H). res_simpl. f_equal.
  destruct H as (_ & _ & Hl). rewrite Z.shiftr_div_pow2 by lia.
  rewrite Z.add_comm, Z.div_add, Z.div_small by lia. lia.
Qed.

Lemma length_of_spec m h u l : chunk_at m h u l -> length_of m h = Ok l.
Proof.
  intros H. unfold length_of. rewrite (chunk_load _ _ _ _ H). res_simpl. f_equal.
  destruct H as (_ & _ & Hl). rewrite Z.land_ones by lia.
  rewrite Z.add_comm, Z.mod_add by lia. by apply Z.mod_small.
Qed.

(** The memory with a header written. *)
Definition put_chunk (m : mem) (h u l : Z) : mem := write_bytes m h (be_enc 4 (u * 2 ^ 28 + l)).

Lemma put_chunk_at m h u l : 0 <= u < 16 -> 0 <= l < 2 ^ 28 -> chunk_at (put_chunk m h u l) h u l.
Proof. intros. split; [apply write_bytes_at | done]. Qed.

Lemma chunk_at_mapped m h u l : chunk_at m h u l -> mapped m h 4.
Proof. intros [H _]. exact (bytes_at_mapped _ _ _ H). Qed.

Lemma set_inuse_spec m h u l v :
  chunk_at m h u l -> 0 <= v < 16 -> set_inuse m h v = Ok (put_chunk m h v l).
Proof.
  intros H Hv. unfold set_inuse. rewrite (length_of_spec _ _ _ _ H). res_simpl.
  rewrite Z.mod_small, lor_shiftl by (done || apply H). apply store_be_spec. by eapply chunk_at_mapped.
Qed.

Lemma set_length_spec m h u l k :
  chunk_at m h u l -> 0 <= k < 2 ^ 28 -> set_length m h k = Ok (put_chunk m h u k).
Proof.
  intros H Hk. unfold set_length. rewrite (inuse_spec _ _ _ _ H). res_simpl.
  rewrite Z.mod_small, lor_shiftl by done. apply store_be_spec. by eapply chunk_at_mapped.
Qed.

Lemma put_chunk_put m h u l u' l' : put_chunk (put_chunk m h u l) h u' l' = put_chunk m h u' l'.
Proof.
  apply map_eq. intros a. unfold put_chunk. rewrite !write_bytes_lookup, !be_enc_length.
  by case_decide.
Qed.

Lemma mapped_load32 m h : mapped m h 4 -> exists w, load32 m h = Ok w.
Proof.
  intros H. destruct (mapped_get _ _ _ h H) as [a Ha]; [lia|]. destruct (mapped_get _ _ _ (h + 1) H) as [b Hb]; [lia|].
  destruct (mapped_get _ _ _ (h + 1 + 1) H) as [c Hc]; [lia|].
  destruct (mapped_get _ _ _ (h + 1 + 1 + 1) H) as [d Hd]; [lia|].
  unfold load_be. cbn [load_bytes]. unfold load8. rewrite Ha, Hb, Hc, Hd. res_simpl. eauto.
Qed.

(** Both fields of a header set, whatever the header held. *)
Lemma set_header_spec m h v k :
  mapped m h 4 -> 0 <= v < 16 -> 0 <= k < 2 ^ 28 ->
  (m1 ← set_inuse m h v; set_length m1 h k) = Ok (put_chunk m h v k).
Proof.
  intros Hm Hv Hk. destruct (mapped_load32 _ _ Hm) as [w Hw]. unfold set_inuse, length_of. rewrite Hw. res_simpl.
  assert (Hl : 0 <= Z.land w (Z.ones 28) < 2 ^ 28) by (rewrite Z.land_ones by lia; apply Z.mod_pos_bound; lia).
  rewrite Z.mod_small, lor_shiftl by done. rewrite store_be_spec by done. res_simpl.
  change (write_bytes m h _) with (put_chunk m h v (Z.land w (Z.ones 28))).
  rewrite (set_length_spec _ _ v (Z.land w (Z.ones 28))) by (done || by apply put_chunk_at).
  by rewrite put_chunk_put.
Qed.

(** ** Chains of chunks *)

Abbreviation chunks := (list (Z * Z)).

Fixpoint chain (m : mem) (h : Z) (cs : chunks) : Prop :=
  match cs with
  | [] => True
  | (u, l) :: cs' => chunk_at m h u l /\ chain m (h + CHUNK + l) cs'
  end.

Fixpoint span (cs : chunks) : Z :=
  match cs with [] => 0 | (_, l) :: cs' => CHUNK + l + span cs' end.

(** The blocks in use: address and length of the data. *)
Fixpoint live (h : Z) (cs : chunks) : list (Z * Z) :=
  match cs with
  | [] => []
  | (u, l) :: cs' => (if u =? 0 then [] else [(h + CHUNK, l)]) ++ live (h + CHUNK + l) cs'
  end.

Lemma span_app cs1 cs2 : span (cs1 ++ cs2) = span cs1 + span cs2.
Proof. induction cs1 as [|[u l] cs1 IH]; cbn [span app]; lia. Qed.

Lemma chain_app m h cs1 cs2 : chain m h (cs1 ++ cs2) <-> chain m h cs1 /\ chain m (h + span cs1) cs2.
Proof.
  revert h. induction cs1 as [|[u l] cs1 IH]; intros h; cbn [chain app span].
  - rewrite Z.add_0_r. tauto.
  - rewrite IH. replace (h + CHUNK + l + span cs1) with (h + (CHUNK + l + span cs1)) by lia. tauto.
Qed.

Lemma live_app h cs1 cs2 : live h (cs1 ++ cs2) = live h cs1 ++ live (h + span cs1) cs2.
Proof.
  revert h. induction cs1 as [|[u l] cs1 IH]; intros h; cbn [live app span].
  - by rewrite Z.add_0_r.
  - rewrite IH, app_assoc. do 2 f_equal. lia.
Qed.

Lemma chain_nonneg m h cs : chain m h cs -> Forall (fun c => 0 <= c.1 < 16 /\ 0 <= c.2 < 2 ^ 28) cs.
Proof.
  revert h. induction cs as [|[u l] cs IH]; intros h H; constructor; cbn in *.
  - destruct H as [(_ & ? & ?) _]. lia.
  - destruct H as [_ H]. by eapply IH.
Qed.

Lemma span_nonneg m h cs : chain m h cs -> 4 * Z.of_nat (length cs) <= span cs.
Proof.
  revert h. induction cs as [|[u l] cs IH]; intros h H; cbn [span length]; [lia|].
  destruct H as [(_ & _ & Hl) H]. apply IH in H. unfold CHUNK. lia.
Qed.

Lemma live_range m h cs q n :
  chain m h cs -> (q, n) ∈ live h cs -> h + CHUNK <= q /\ 0 <= n /\ q + n <= h + span cs.
Proof.
  revert h. induction cs as [|[u l] cs IH]; intros h H Hq; cbn [live span] in *.
  { by apply elem_of_nil in Hq. }
  destruct H as [(_ & _ & Hl) H]. pose proof (span_nonneg _ _ _ H). apply elem_of_app in Hq as [Hq|Hq].
  - destruct (u =? 0); [by apply elem_of_nil in Hq|]. apply list_elem_of_singleton in Hq. simplify_eq. lia.
  - apply (IH _ H) in Hq. unfold CHUNK in *. lia.
Qed.

Lemma chain_frame m m' h cs :
  chain m h cs -> (forall a, h <= a < h + span cs -> m' !! a = m !! a) -> chain m' h cs.
Proof.
  revert h. induction cs as [|[u l] cs IH]; intros h H E; [done|]. cbn [chain span] in *.
  destruct H as [[Hb Hr] H]. pose proof (span_nonneg _ _ _ H). unfold CHUNK in *. split.
  - split; [|done]. intros i b Hi. rewrite E; [by apply Hb|]. apply lookup_lt_Some in Hi.
    rewrite be_enc_length in Hi. lia.
  - apply IH; [done|]. intros a Ha. apply E. lia.
Qed.

Lemma chunk_at_frame m m' h u l :
  chunk_at m h u l -> (forall a, h <= a < h + CHUNK -> m' !! a = m !! a) -> chunk_at m' h u l.
Proof.
  intros [Hb Hr] E. split; [|done]. intros i b Hi. rewrite E; [by apply Hb|].
  apply lookup_lt_Some in Hi. rewrite be_enc_length in Hi. unfold CHUNK. lia.
Qed.

Lemma put_chunk_outside m h u l a : a < h \/ h + CHUNK <= a -> put_chunk m h u l !! a = m !! a.
Proof. intros H. apply write_bytes_outside. rewrite be_enc_length. unfold CHUNK in H. lia. Qed.

Lemma put_chunk_stores m h u l lo hi :
  mapped m h CHUNK -> lo <= h -> h + CHUNK <= hi -> stores m (put_chunk m h u l) lo hi.
Proof. intros Hm ??. apply write_bytes_stores; [exact Hm | done | done]. Qed.

(** Replacing the header of a chunk that keeps its size. *)
Lemma chain_set_inuse m h cs1 u l cs2 v :
  chain m h (cs1 ++ (u, l) :: cs2) -> 0 <= v < 16 ->
  chain (put_chunk m (h + span cs1) v l) h (cs1 ++ (v, l) :: cs2).
Proof.
  intros [H1 [Hc H2]]%chain_app Hv. pose proof Hc as (_ & _ & Hl). apply chain_app. cbn [chain]. split_and!.
  - eapply chain_frame; [exact H1|]. intros a Ha. apply put_chunk_outside. lia.
  - by apply put_chunk_at.
  - eapply chain_frame; [exact H2|]. intros a Ha. apply put_chunk_outside. unfold CHUNK in *. lia.
Qed.

(** ** search and clean *)

Definition unsuitable (size : Z) (c : Z * Z) : Prop := c.1 <> 0 \/ c.2 < size.

#[export] Instance unsuitable_dec size c : Decision (unsuitable size c).
Proof. unfold unsuitable. apply _. Defined.

Lemma search_loop_spec m size act h cs fuel :
  chain m h cs -> act = h + span cs -> mapped m act CHUNK -> (length cs < fuel)%nat ->
  exists cs1 cs2, cs = cs1 ++ cs2 /\ Forall (unsuitable size) cs1 /\
    (match cs2 with [] => True | c :: _ => ~ unsuitable size c end) /\
    search_loop fuel m size act h = Ok (h + span cs1).
Proof.
  revert h fuel. induction cs as [|[u l] cs IH]; intros h [|fuel] H E Hm Hf; cbn [length span] in *; try lia;
    cbn [search_loop].
  - exists [], []. split_and!; try done. rewrite Z.add_0_r in E. subst act. unfold inuse, length_of.
    destruct (mapped_load32 _ _ Hm) as [w ->]. res_simpl.
    destruct (Z.ltb_spec h h); [lia|]. rewrite andb_false_r. cbn. f_equal. lia.
  - destruct H as [Hc H]. rewrite (inuse_spec _ _ _ _ Hc), (length_of_spec _ _ _ _ Hc). res_simpl.
    pose proof (span_nonneg _ _ _ H). destruct Hc as (_ & Hu & Hl).
    destruct (Z.ltb_spec h act); [|unfold CHUNK in *; lia]. rewrite andb_true_r.
    destruct (decide (unsuitable size (u, l))) as [Hun|Hun].
    + assert (negb (u =? 0) || (l <? size) = true) as ->.
      { unfold unsuitable in Hun. cbn in Hun. destruct (Z.eqb_spec u 0), (Z.ltb_spec l size); cbn; lia. }
      destruct (IH (h + CHUNK + l) fuel) as (cs1 & cs2 & -> & Hcs1 & Hcs2 & ->); [done | unfold CHUNK in *; lia | done | lia|].
      exists ((u, l) :: cs1), cs2. split_and!; [done | by constructor | done|]. cbn [span]. f_equal. lia.
    + assert (negb (u =? 0) || (l <? size) = false) as ->.
      { unfold unsuitable in Hun. cbn in Hun. destruct (Z.eqb_spec u 0), (Z.ltb_spec l size); cbn; try done; tauto || lia. }
      exists [], ((u, l) :: cs). split_and!; try done. cbn [span]. f_equal. lia.
Qed.

(** Merging runs of free chunks; [o] is the length of the free chunk before. *)
Fixpoint merge (o : option Z) (cs : chunks) : chunks :=
  match cs, o with
  | [], None => []
  | [], Some l => [(0, l)]
  | (u, k) :: cs', None => if u =? 0 then merge (Some k) cs' else (u, k) :: merge None cs'
  | (u, k) :: cs', Some l =>
      if u =? 0 then merge (Some (l + CHUNK + k)) cs' else (0, l) :: (u, k) :: merge None cs'
  end.

Definition opt_chunk (o : option Z) : chunks := match o with Some l => [(0, l)] | None => [] end.

Lemma merge_span o cs : span (merge o cs) = span (opt_chunk o ++ cs).
Proof.
  revert o. induction cs as [|[u k] cs IH]; intros [l|]; cbn [merge opt_chunk app span]; try done;
    (destruct (u =? 0); [rewrite IH|cbn [span]; rewrite IH]); cbn [opt_chunk app span]; lia.
Qed.

Lemma merge_live h o cs : live h (merge o cs) = live h (opt_chunk o ++ cs).
Proof.
  revert h o. induction cs as [|[u k] cs IH]; intros h [l|]; cbn [merge opt_chunk app live]; try done;
    destruct (Z.eqb_spec u 0) as [->|Hu]; cbn [Z.eqb app].
  - rewrite IH. cbn [opt_chunk app live Z.eqb]. f_equal. lia.
  - cbn [live]. rewrite IH. cbn [opt_chunk app Z.eqb]. by destruct (Z.eqb_spec u 0).
  - rewrite IH. done.
  - cbn [live]. rewrite IH. cbn [opt_chunk app]. by destruct (Z.eqb_spec u 0).
Qed.

Lemma merge_length o cs :
  (length (merge o cs) <= length (opt_chunk o ++ cs))%nat /\
  (length (merge o cs) = length (opt_chunk o ++ cs) -> merge o cs = opt_chunk o ++ cs).
Proof.
  revert o. induction cs as [|[u k] cs IH]; intros [l|]; cbn [merge opt_chunk app length]; try (split; [lia | done]);
    destruct (Z.eqb_spec u 0) as [->|Hu].
  - destruct (IH (Some (l + CHUNK + k))) as [H1 H2]. cbn [opt_chunk app length] in *. split; [lia|]. intros. lia.
  - destruct (IH None) as [H1 H2]. cbn [opt_chunk app length] in *. split; [lia|]. intros E. rewrite H2; [done | lia].
  - apply (IH (Some k)).
  - destruct (IH None) as [H1 H2]. cbn [opt_chunk app length] in *. split; [lia|]. intros E. rewrite H2; [done | lia].
Qed.

(** No two free chunks in a row. *)
Fixpoint no_adjacent (cs : chunks) : Prop :=
  match cs with
  | c :: (c' :: _) as cs' => (c.1 <> 0 \/ c'.1 <> 0) /\ no_adjacent cs'
  | _ => True
  end.

Lemma merge_no_adjacent o cs : no_adjacent (merge o cs).
Proof.
  assert (G : forall cs o, no_adjacent (merge o cs) /\
    (o = None -> forall u k, u <> 0 -> no_adjacent ((u, k) :: merge o cs))); [|apply G].
  clear. induction cs as [|[u k] cs IH]; intros [l|]; cbn [merge].
  - done.
  - done.
  - destruct (Z.eqb_spec u 0) as [->|Hu]; [split; [apply IH | done]|]. split; [|done].
    destruct (IH None) as [H1 H2]. specialize (H2 eq_refl u k Hu). split; [by right|]. done.
  - destruct (Z.eqb_spec u 0) as [->|Hu].
    + destruct (IH (Some k)) as [H1 H2]. split; [done|]. intros _ v j Hv. cbn.
      destruct (merge (Some k) cs); [done|]. split; [by left | done].
    + destruct (IH None) as [H1 H2]. specialize (H2 eq_refl u k Hu). split; [done|]. intros _ v j Hv.
      split; [by left | done].
Qed.

(** The data of the blocks [bs] is the same in [m] and [m']. *)
Definition keeps (m m' : mem) (bs : list (Z * Z)) : Prop :=
  forall q n a, (q, n) ∈ bs -> q <= a < q + n -> m' !! a = m !! a.

Lemma keeps_refl m bs : keeps m m bs.
Proof. done. Qed.

Lemma keeps_trans m1 m2 m3 bs : keeps m1 m2 bs -> keeps m2 m3 bs -> keeps m1 m3 bs.
Proof. intros H1 H2 q n a Hq Ha. by rewrite (H2 q n a), (H1 q n a). Qed.

Lemma keeps_sub m m' bs bs' : keeps m m' bs -> bs' ⊆ bs -> keeps m m' bs'.
Proof. intros H Hs q n a Hq. apply H. by apply Hs. Qed.

(** A store outside of every live block. *)
Lemma stores_keeps m m' h cs lo hi :
  same_outside m m' lo hi -> chain m h cs -> h + span cs <= lo \/ hi <= h -> keeps m m' (live h cs).
Proof.
  intros Hs Hc Hd q n a Hq Ha. apply Hs. apply (live_range _ _ _ _ _ Hc) in Hq. unfold CHUNK in *. lia.
Qed.

(** Writing the header of a chunk leaves the data of all the others, and its own. *)
Lemma put_chunk_keeps m h cs1 u l cs2 v k :
  chain m h (cs1 ++ (u, l) :: cs2) -> keeps m (put_chunk m (h + span cs1) v k) (live h (cs1 ++ (u, l) :: cs2)).
Proof.
  intros [H1 H2]%chain_app q n a Hq Ha. apply put_chunk_outside. rewrite live_app in Hq.
  apply elem_of_app in Hq as [Hq|Hq]; [apply (live_range _ _ _ _ _ H1) in Hq; lia|].
  apply (live_range _ _ _ _ _ H2) in Hq. lia.
Qed.

Lemma clean_loop_spec act o cs m p check fuel :
  chain m p (opt_chunk o ++ cs) -> 0 < p -> act = p + span (opt_chunk o ++ cs) ->
  span (opt_chunk o ++ cs) < 2 ^ 28 -> (length cs < fuel)%nat ->
  exists m' check',
    clean_loop fuel m act (p + span (opt_chunk o)) (match o with Some _ => p | None => 0 end) check
      = Ok (check', m') /\
    chain m' p (merge o cs) /\ stores m m' p act /\ keeps m m' (live p (opt_chunk o ++ cs)) /\
    (check' = check || bool_decide (length (merge o cs) < length (opt_chunk o ++ cs))%nat).
Proof.
  intros Hc Hp Ea Hsp Hf. revert m p check o Hc Hp Ea Hsp fuel Hf.
  induction cs as [|[u k] cs IH]; intros m p check o Hc Hp Ea Hsp [|fuel] Hf; cbn [length] in *; try lia;
    cbn [clean_loop].
  - rewrite app_nil_r in *. destruct (Z.ltb_spec (p + span (opt_chunk o)) act); [lia|].
    exists m, check. assert (E : merge o [] = opt_chunk o) by by destruct o. rewrite E. split_and!; try done.
    rewrite bool_decide_eq_false_2 by lia. by rewrite orb_false_r.
  - pose proof Hc as [Ho Hcs]%chain_app. set (header := p + span (opt_chunk o)) in *.
    cbn [chain] in Hcs. destruct Hcs as [Hh Hcs]. rewrite span_app in *. cbn [span] in *.
    pose proof (span_nonneg _ _ _ Hcs). pose proof (span_nonneg _ _ _ Ho). pose proof Hh as (_ & Hu & Hk).
    destruct (Z.ltb_spec header act); [|unfold CHUNK in *; lia].
    rewrite (inuse_spec _ _ _ _ Hh), (length_of_spec _ _ _ _ Hh). res_simpl.
    destruct (Z.eqb_spec u 0) as [->|Hu0].
    + destruct o as [l|]; cbn [opt_chunk span app] in *.
      * (* merged into the chunk before *)
        destruct (Z.eqb_spec p 0); [lia|]. destruct Ho as [Hp0 _]. rewrite (length_of_spec _ _ _ _ Hp0).
        pose proof Hp0 as (_ & _ & Hl). res_simpl.
        rewrite (set_length_spec _ _ 0 l) by (done || (unfold CHUNK in *; lia)). res_simpl.
        rewrite (length_of_spec _ header 0 k).
        2:{ destruct Hh as [Hh _]. split; [|done]. eapply bytes_at_frame; [apply write_bytes_same_outside | exact Hh|].
            right. rewrite be_enc_length. unfold header, CHUNK. lia. }
        res_simpl. set (m1 := put_chunk m p 0 (l + (k + CHUNK))).
        edestruct (IH m1 p true (Some (l + CHUNK + k))) as (m' & ck & E & Hch & Hst & Hke & Hck);
          [| done | | | |exists m', ck].
        -- cbn [opt_chunk app chain]. split.
           ++ replace (l + CHUNK + k) with (l + (k + CHUNK)) by lia. apply put_chunk_at; unfold CHUNK in *; lia.
           ++ replace (p + CHUNK + (l + CHUNK + k)) with (header + CHUNK + k) by (unfold header; lia).
              eapply chain_frame; [exact Hcs|]. intros a Ha. apply put_chunk_outside. unfold header, CHUNK in *. lia.
        -- cbn [opt_chunk app span]. lia.
        -- cbn [opt_chunk app span]. lia.
        -- instantiate (1 := fuel). lia.
        -- cbn [opt_chunk app span merge Z.eqb] in *.
           replace (p + (CHUNK + (l + CHUNK + k) + 0)) with (header + CHUNK + k) in E by (unfold header; lia).
           split_and!; [exact E | exact Hch | | |].
           ++ eapply stores_trans; [|exact Hst]. apply put_chunk_stores; [by eapply chunk_at_mapped | lia | unfold CHUNK in *; lia].
           ++ eapply keeps_trans; [apply (put_chunk_keeps m p [] 0 l ((0, k) :: cs) 0 (l + (k + CHUNK))) in Hc;
                cbn [span app] in Hc; rewrite Z.add_0_r in Hc; exact Hc|].
              eapply keeps_sub; [exact Hke|]. cbn [live Z.eqb app].
              by replace (p + CHUNK + (l + CHUNK + k)) with (p + CHUNK + l + CHUNK + k) by lia.
           ++ rewrite Hck. destruct (merge_length (Some (l + CHUNK + k)) cs) as [Hle _].
              cbn [opt_chunk app length] in *. rewrite orb_true_l, bool_decide_eq_true_2 by lia. by rewrite orb_true_r.
      * (* the first free chunk of a run *)
        cbn [Z.eqb]. res_simpl. rewrite (length_of_spec _ _ _ _ Hh). res_simpl. unfold header in *. rewrite Z.add_0_r in *.
        edestruct (IH m p check (Some k)) as (m' & ck & E & Hch & Hst & Hke & Hck); [| done | | | |exists m', ck].
        -- cbn [opt_chunk app chain]. by split.
        -- cbn [opt_chunk app span]. lia.
        -- cbn [opt_chunk app span]. lia.
        -- instantiate (1 := fuel). lia.
        -- cbn [opt_chunk app span merge Z.eqb length] in *.
           replace (p + (CHUNK + k + 0)) with (p + CHUNK + k) in E by lia. by split_and!.
    + (* a chunk in use *)
      res_simpl. rewrite (length_of_spec _ _ _ _ Hh). res_simpl.
      edestruct (IH m (header + CHUNK + k) check None) as (m' & ck & E & Hch & Hst & Hke & Hck);
        [done | unfold header, CHUNK in *; lia | | | |exists m', ck].
      * cbn [opt_chunk app]. unfold header. lia.
      * cbn [opt_chunk app]. unfold CHUNK in *. lia.
      * instantiate (1 := fuel). lia.
      * cbn [opt_chunk app span] in E, Hke, Hck. rewrite Z.add_0_r in E.
        assert (Em : merge o ((u, k) :: cs) = opt_chunk o ++ (u, k) :: merge None cs).
        { destruct o; cbn [merge]; by destruct (Z.eqb_spec u 0). }
        assert (Hpre : forall a, p <= a < header + CHUNK + k -> m' !! a = m !! a).
        { intros a Ha. apply Hst. lia. }
        rewrite Em. split_and!; [exact E | | | |].
        -- apply chain_app. split; [|split].
           ++ eapply chain_frame; [exact Ho|]. intros a Ha. apply Hpre. unfold header, CHUNK. lia.
           ++ eapply chunk_at_frame; [exact Hh | intros a Ha; apply Hpre; unfold header in *; lia].
           ++ exact Hch.
        -- eapply stores_mono; [exact Hst | unfold header, CHUNK in *; lia | lia].
        -- intros q n a Hq Ha. rewrite live_app in Hq. apply elem_of_app in Hq as [Hq|Hq].
           { apply (live_range _ _ _ _ _ Ho) in Hq. apply Hpre. unfold header, CHUNK in *. lia. }
           cbn [live] in Hq. fold header in Hq. destruct (Z.eqb_spec u 0); [done|].
           apply elem_of_app in Hq as [Hq|Hq]; [|by apply (Hke q n a)].
           apply list_elem_of_singleton in Hq. simplify_eq. apply Hst. lia.
        -- rewrite Hck. f_equal. rewrite !length_app. cbn [opt_chunk app length]. apply bool_decide_ext. lia.
Qed.

(** ** malloc *)

Section spec.
Context (heap : Z).

(** The heap is initialised and made of the chunks [cs]. *)
Definition ready (st : hstate) (cs : chunks) : Prop :=
  heap_start st = heap /\ act st = heap + span cs /\ act st <= heap_end st <= heap + HEAP_SIZE /\
  actptr st = heap_end st /\ chain (hmem st) heap cs.

(** The invariant: before the first allocation, or after.  The four bytes
    after the array are readable: the search may look at them. *)
Definition heap_inv (st : hstate) (cs : chunks) : Prop :=
  0 < heap /\ heap + HEAP_SIZE + CHUNK < 2 ^ 63 /\ mapped (hmem st) heap (HEAP_SIZE + CHUNK) /\
  (act st = 0 /\ cs = [] /\ (actptr st = 0 \/ actptr st = heap) \/ ready st cs).

(** From one heap to another, the data of the blocks [bs] and everything
    outside of the array are the same. *)
Definition preserved (st st' : hstate) (bs : list (Z * Z)) : Prop :=
  stores (hmem st) (hmem st') heap (heap + HEAP_SIZE) /\ keeps (hmem st) (hmem st') bs.

(** Nothing to hand out: every free chunk is too short, no two of them could
    be merged, and the array has no room for a new one. *)
Definition exhausted (st : hstate) (cs : chunks) (size : Z) : Prop :=
  Forall (unsuitable size) cs /\ no_adjacent cs /\
  HEAP_SIZE < (if act st =? 0 then 0x1000 else heap_end st - heap) + (size + CHUNK).

Definition malloc_outcome (st : hstate) (cs : chunks) (size p : Z) (st' : hstate) (cs' : chunks) : Prop :=
  heap_inv st' cs' /\ preserved st st' (live heap cs) /\
  (p = 0 /\ live heap cs' = live heap cs /\ exhausted st' cs' size \/
   exists l, size <= l /\ live heap cs' ≡ₚ (p, l) :: live heap cs).

Lemma preserved_trans st1 st2 st3 bs : preserved st1 st2 bs -> preserved st2 st3 bs -> preserved st1 st3 bs.
Proof. intros [H1 H2] [H3 H4]. split; [by eapply stores_trans | by eapply keeps_trans]. Qed.

Lemma preserved_refl st st' bs : hmem st' = hmem st -> preserved st st' bs.
Proof. intros E. unfold preserved. rewrite E. split; [apply stores_refl | done]. Qed.

Lemma preserved_mapped st st' bs p n : preserved st st' bs -> mapped (hmem st) p n -> mapped (hmem st') p n.
Proof. intros [[_ E] _] H a Ha. eapply same_dom_is_Some; [by symmetry | by apply H]. Qed.

Lemma ready_act_ne st cs : 0 < heap -> ready st cs -> (act st =? 0) = false.
Proof. intros H (_ & E & _ & _ & Hc). pose proof (span_nonneg _ _ _ Hc). apply Z.eqb_neq. lia. Qed.

Lemma heap_init_ready st cs b : 0 < heap -> ready st cs -> heap_init heap st b = (true, st).
Proof. intros H Hr. unfold heap_init. by rewrite (ready_act_ne _ _ H Hr). Qed.

(** A new chunk from the uninitialised part. *)
Lemma malloc_bump st cs size fuel :
  heap_inv st cs -> ready st cs -> 0 <= size < 2 ^ 31 -> act st + (size + CHUNK) <= heap_end st ->
  exists st', malloc_loop heap (S fuel) st size = Ok (act st + CHUNK, st') /\
    malloc_outcome st cs size (act st + CHUNK) st' (cs ++ [(1, size)]).
Proof.
  intros (Hh & Hlt & Hm & _) Hr Hs Hfit. pose proof Hr as (E1 & E2 & E3 & E4 & Hc).
  pose proof (span_nonneg _ _ _ Hc) as Hsn. unfold CHUNK, HEAP_SIZE in *.
  cbn [malloc_loop]. rewrite (heap_init_ready _ _ _ Hh Hr). cbn [negb]. rewrite u64_small by (unfold CHUNK; lia).
  destruct (Z.ltb_spec (heap_end st) (act st + (size + CHUNK))); [unfold CHUNK in *; lia|].
  assert (Hma : mapped (hmem st) (act st) 4) by (eapply mapped_sub; [exact Hm | lia | lia]).
  pose proof (set_header_spec _ _ 1 size Hma ltac:(lia) ltac:(lia)) as E.
  apply bind_Ok_inv in E as (m1 & Em1 & E). rewrite Em1. res_simpl. rewrite E. res_simpl.
  eexists; split; [done|]. set (st' := HState _ _ _ _ _).
  assert (Hp : preserved st st' (live heap cs)).
  { split; cbn [hmem st'].
    - apply put_chunk_stores; [exact Hma | lia | unfold CHUNK, HEAP_SIZE; lia].
    - eapply stores_keeps; [|exact Hc|]; [apply put_chunk_stores; [exact Hma | reflexivity | reflexivity]|]. left. lia. }
  split; [|split; [exact Hp|]].
  - split_and!; [done | done | by eapply preserved_mapped; [exact Hp | exact Hm]|]. right.
    unfold ready; cbn [heap_start act heap_end actptr hmem st']. rewrite span_app. cbn [span].
    split_and!; try (unfold CHUNK, HEAP_SIZE in *; lia). apply chain_app. split.
    + eapply chain_frame; [exact Hc|]. intros a Ha. apply put_chunk_outside. lia.
    + cbn [chain]. split; [|done]. rewrite <- E2. apply put_chunk_at; lia.
  - right. exists size. split; [lia|]. rewrite live_app, E2. cbn [live Z.eqb app].
    rewrite Permutation_app_comm. done.
Qed.
(** Writes inside of a free chunk. *)
Lemma free_region_keeps m m' cs1 l cs2 :
  chain m heap (cs1 ++ (0, l) :: cs2) ->
  same_outside m m' (heap + span cs1) (heap + span cs1 + CHUNK + l) ->
  keeps m m' (live heap (cs1 ++ (0, l) :: cs2)).
Proof.
  intros [H1 [_ H2]]%chain_app Hs q n a Hq Ha. apply Hs. rewrite live_app in Hq. cbn [live Z.eqb app] in Hq.
  apply elem_of_app in Hq as [Hq|Hq]; [apply (live_range _ _ _ _ _ H1) in Hq | apply (live_range _ _ _ _ _ H2) in Hq];
    unfold CHUNK in *; lia.
Qed.

Lemma chain_split m h cs1 l cs2 size :
  chain m h (cs1 ++ (0, l) :: cs2) -> mapped m h (span (cs1 ++ (0, l) :: cs2)) ->
  0 <= size -> size + CHUNK < l ->
  let hd := h + span cs1 in
  let m1 := put_chunk m hd 1 size in
  let m2 := put_chunk m1 (hd + CHUNK + size) 0 (l - (size + CHUNK)) in
  chain m2 h (cs1 ++ (1, size) :: (0, l - (size + CHUNK)) :: cs2) /\
  (m1 ← set_inuse m hd 1; set_length m1 hd size) = Ok m1 /\
  (m2 ← set_inuse m1 (hd + CHUNK + size) 0; set_length m2 (hd + CHUNK + size) (l - (size + CHUNK))) = Ok m2.
Proof.
  intros [H1 [Hc H2]]%chain_app Hm Hs Hl hd m1 m2. pose proof Hc as (_ & _ & Hl28). unfold CHUNK in *.
  assert (Hmd : mapped m hd 4) by by eapply chunk_at_mapped.
  split_and!.
  - apply chain_app. cbn [chain]. fold hd. split_and!.
    + eapply chain_frame; [exact H1|]. intros a Ha. unfold m2, m1. rewrite !put_chunk_outside; unfold hd, CHUNK; done || lia.
    + eapply chunk_at_frame; [apply put_chunk_at; lia|]. intros a Ha. apply put_chunk_outside. unfold CHUNK in *. lia.
    + apply put_chunk_at; lia.
    + unfold CHUNK. replace (hd + 4 + size + 4 + (l - (size + 4))) with (hd + 4 + l) by lia.
      eapply chain_frame; [exact H2|]. intros a Ha. unfold m2, m1. rewrite !put_chunk_outside; unfold CHUNK; done || lia.
  - apply set_header_spec; [done | lia | lia].
  - apply set_header_spec; [|lia|lia]. apply mapped_write_bytes. rewrite span_app in Hm. cbn [span] in Hm.
    pose proof (span_nonneg _ _ _ H1). pose proof (span_nonneg _ _ _ H2).
    eapply mapped_sub; [exact Hm | unfold hd, CHUNK; lia | unfold hd, CHUNK; lia].
Qed.

Lemma ready_mem st cs m cs' :
  ready st cs -> chain m heap cs' -> span cs' = span cs -> ready (with_mem st m) cs'.
Proof. intros (E1 & E2 & E3 & E4 & _) Hc Es. split_and!; cbn; done || congruence || lia. Qed.

Lemma inv_mem st cs m cs' :
  heap_inv st cs -> ready st cs -> chain m heap cs' -> span cs' = span cs ->
  stores (hmem st) m heap (heap + HEAP_SIZE) -> heap_inv (with_mem st m) cs'.
Proof.
  intros (Hh & Hlt & Hm & _) Hr Hc Es [_ Hd]. split_and!; [done | done | |right; by eapply ready_mem].
  intros a Ha. eapply same_dom_is_Some; [by symmetry | by apply Hm].
Qed.

(** A free chunk that is large enough. *)
Lemma malloc_fits st cs1 l cs2 size fuel :
  heap_inv st (cs1 ++ (0, l) :: cs2) -> ready st (cs1 ++ (0, l) :: cs2) -> 0 <= size <= l -> 
  heap_end st < act st + (size + CHUNK) -> Forall (unsuitable size) cs1 ->
  exists p st' cs', malloc_loop heap (S fuel) st size = Ok (p, st') /\
    malloc_outcome st (cs1 ++ (0, l) :: cs2) size p st' cs'.
Proof.
  intros Hinv Hr Hs Hfull Hun. pose proof Hinv as (Hh & Hlt & Hm & _). pose proof Hr as (E1 & E2 & E3 & E4 & Hc).
  set (cs := cs1 ++ (0, l) :: cs2) in *. pose proof Hc as [Hc1 [Hcl Hc2]]%chain_app.
  pose proof Hcl as (_ & _ & Hl). assert (Es : span cs = span cs1 + (CHUNK + l + span cs2)).
  { unfold cs. by rewrite span_app. }
  pose proof (span_nonneg _ _ _ Hc1). pose proof (span_nonneg _ _ _ Hc2).
  assert (Hmc : mapped (hmem st) heap (span cs)) by (eapply mapped_sub; [exact Hm | lia | unfold CHUNK in *; lia]).
  cbn [malloc_loop]. rewrite (heap_init_ready _ _ _ Hh Hr). cbn [negb]. rewrite u64_small by (unfold CHUNK; lia).
  destruct (Z.ltb_spec (heap_end st) (act st + (size + CHUNK))); [|lia].
  rewrite E1. destruct (search_loop_spec (hmem st) size (act st) heap cs (walk_fuel (hmem st))) as (a & b & Ec & Ha & Hb & ->).
  { done. } { done. } { eapply mapped_sub; [exact Hm | lia | lia]. }
  { pose proof (span_nonneg _ _ _ Hc). rewrite <- (Z2Nat.id (span cs)) in Hmc by lia. apply mapped_size in Hmc. unfold walk_fuel. lia. }
  assert (a = cs1 /\ b = (0, l) :: cs2) as [-> ->].
  { clear -Ec Ha Hb Hun Hs. unfold cs in Ec. clear cs. revert a Ec Ha.
    induction cs1 as [|c cs1 IH]; intros [|c' a] Ec Ha; cbn [app] in *.
    - by split.
    - simplify_eq. inversion Ha as [|? ? [Hx|Hx] _]; cbn in Hx; [done | lia].
    - subst b. inversion Hun; subst. done.
    - simplify_eq. inversion Ha; inversion Hun; subst. destruct (IH ltac:(done) a) as [-> ->]; done. }
  res_simpl. destruct (Z.leb_spec (act st) (heap + span cs1)); [unfold CHUNK in *; lia|].
  rewrite (length_of_spec _ _ _ _ Hcl). res_simpl. set (hd := heap + span cs1) in *.
  assert (Hout : forall m' cs' k, chain m' heap cs' -> span cs' = span cs -> dom m' = dom (hmem st) ->
    same_outside (hmem st) m' hd (hd + CHUNK + l) -> size <= k ->
    live heap cs' ≡ₚ (hd + CHUNK, k) :: live heap cs ->
    malloc_outcome st cs size (hd + CHUNK) (with_mem st m') cs').
  { intros m' cs' k Hc' Es' Hd Hso Hk Hlv.
    assert (Hst : stores (hmem st) m' heap (heap + HEAP_SIZE)).
    { split; [|done]. eapply same_outside_mono; [exact Hso | unfold hd; lia | unfold hd; lia]. }
    split; [by eapply inv_mem|]. split; [|right; by exists k].
    split; [done|]. by apply free_region_keeps. }
  destruct (Z.ltb_spec (size + CHUNK) l).
  - destruct (chain_split _ _ _ _ _ size Hc Hmc) as (Hc' & Eh1 & Eh2); [lia | lia|]. fold hd in Hc', Eh1, Eh2.
    set (m1 := put_chunk (hmem st) hd 1 size) in *. set (m2 := put_chunk m1 _ _ _) in *.
    apply bind_Ok_inv in Eh1 as (m3 & Em3 & Eh1). rewrite Em3. res_simpl. rewrite Eh1. res_simpl.
    apply bind_Ok_inv in Eh2 as (m4 & Em4 & Eh2). rewrite Em4. res_simpl.
    rewrite u64_small by (unfold CHUNK in *; lia). rewrite Eh2. res_simpl.
    eexists _, _, _. split; [done|]. apply (Hout _ _ size Hc').
    + rewrite Es, span_app. cbn [span]. lia.
    + unfold m2, m1, put_chunk. rewrite !write_bytes_dom; rewrite ?be_enc_length; [done | by eapply chunk_at_mapped |].
      apply mapped_write_bytes. eapply mapped_sub; [exact Hmc | unfold hd, CHUNK in *; lia | unfold hd, CHUNK in *; lia].
    + intros x Hx. unfold m2, m1. rewrite !put_chunk_outside; unfold CHUNK in *; done || lia.
    + lia.
    + unfold cs. rewrite !live_app. cbn [live Z.eqb app]. fold hd.
      replace (hd + CHUNK + size + CHUNK + (l - (size + CHUNK))) with (hd + CHUNK + l) by lia.
      by rewrite Permutation_middle.
  - rewrite (set_inuse_spec _ _ 0 l) by (done || lia). res_simpl.
    eexists _, _, _. split; [done|]. apply (Hout _ (cs1 ++ (1, l) :: cs2) l).
    + apply (chain_set_inuse _ _ _ 0); [exact Hc | lia].
    + rewrite Es, span_app. done.
    + unfold put_chunk. rewrite write_bytes_dom; rewrite ?be_enc_length; [done | by eapply chunk_at_mapped].
    + intros x Hx. rewrite put_chunk_outside; done || lia.
    + lia.
    + unfold cs. rewrite !live_app. cbn [live Z.eqb app]. fold hd. by rewrite Permutation_middle.
Qed.

(** The search finds nothing; then free blocks are merged, or the heap grows,
    or NULL is returned. *)
Lemma malloc_ready st cs size fuel :
  heap_inv st cs -> ready st cs -> 0 <= size < 2 ^ 31 - 0x2000 -> (length cs + 2 <= fuel)%nat ->
  exists p st' cs', malloc_loop heap fuel st size = Ok (p, st') /\ malloc_outcome st cs size p st' cs'.
Proof.
  intros Hinv Hr Hs Hf. revert st cs Hinv Hr Hf. induction fuel as [|fuel IH]; intros st cs Hinv Hr Hf; [lia|].
  pose proof Hinv as (Hh & Hlt & Hm & _). pose proof Hr as (E1 & E2 & E3 & E4 & Hc).
  pose proof (span_nonneg _ _ _ Hc) as Hsn.
  destruct (Z.lt_ge_cases (heap_end st) (act st + (size + CHUNK))) as [Hfull|Hroom].
  2:{ destruct (malloc_bump st cs size fuel) as (st' & ? & ?); try done; [lia|]. by eexists _, _, _. }
  destruct (search_loop_spec (hmem st) size (act st) heap cs (walk_fuel (hmem st))) as (cs1 & cs2 & Ec & H1 & H2 & Esr);
    [done | done | eapply mapped_sub; [exact Hm | lia | lia] | |].
  { assert (Hmc : mapped (hmem st) heap (Z.of_nat (length cs))) by (eapply mapped_sub; [exact Hm | lia | unfold CHUNK; lia]).
    apply mapped_size in Hmc. unfold walk_fuel. lia. }
  destruct cs2 as [|[u l] cs2].
  2:{ unfold unsuitable in H2. cbn in H2. assert (u = 0 /\ size <= l) as [-> ?] by lia. subst cs.
      apply malloc_fits; done || lia. }
  rewrite app_nil_r in Ec. subst cs1. cbn [malloc_loop]. rewrite (heap_init_ready _ _ _ Hh Hr). cbn [negb].
  rewrite u64_small by (unfold CHUNK; lia). destruct (Z.ltb_spec (heap_end st) (act st + (size + CHUNK))); [|lia].
  rewrite E1, Esr. res_simpl. destruct (Z.leb_spec (act st) (heap + span cs)); [|lia].
  destruct (clean_loop_spec (act st) None cs (hmem st) heap false (walk_fuel (hmem st)))
    as (m' & ck & Ecl & Hch & Hst & Hke & Hck); [done | done | done | unfold HEAP_SIZE in *; cbn [opt_chunk app]; lia | |].
  { assert (Hmc : mapped (hmem st) heap (Z.of_nat (length cs))) by (eapply mapped_sub; [exact Hm | lia | unfold CHUNK; lia]).
    apply mapped_size in Hmc. unfold walk_fuel. lia. }
  unfold clean. rewrite E1. cbn [opt_chunk span app] in Ecl, Hke, Hck. rewrite Z.add_0_r in Ecl. rewrite Ecl. res_simpl.
  pose proof (merge_span None cs) as Ems. pose proof (merge_live heap None cs) as Eml. cbn [opt_chunk app] in Ems, Eml.
  assert (Hst' : stores (hmem st) m' heap (heap + HEAP_SIZE)) by (eapply stores_mono; [exact Hst | lia | lia]).
  assert (Hinv' : heap_inv (with_mem st m') (merge None cs)) by by eapply inv_mem.
  assert (Hr' : ready (with_mem st m') (merge None cs)) by by eapply ready_mem.
  assert (Hpr : preserved st (with_mem st m') (live heap cs)) by by split.
  destruct (merge_length None cs) as [Hle Heq]. cbn [opt_chunk app] in Hle, Heq.
  destruct ck.
  - (* merged: try again *)
    cbn [orb] in Hck. symmetry in Hck. apply bool_decide_eq_true in Hck.
    destruct (IH _ _ Hinv' Hr' ltac:(lia)) as (p & st' & cs' & E & Hi & Hp & Ho).
    exists p, st', cs'. split; [done|]. rewrite Eml in Hp, Ho. split; [done|]. split; [by eapply preserved_trans|done].
  - cbn [orb] in Hck. symmetry in Hck. apply bool_decide_eq_false in Hck. rewrite Heq in Hch, Hinv', Hr' by lia.
    unfold sbrk. cbn [with_mem actptr hmem act heap_start heap_end]. rewrite E4.
    assert ((heap_end st =? 0) = false) as -> by (apply Z.eqb_neq; lia).
    rewrite s32_small by (unfold CHUNK; lia).
    destruct (Z.ltb_spec (heap + HEAP_SIZE) (heap_end st + (size + CHUNK))).
    + (* no more memory *)
      cbn [act heap_end heap_start hmem actptr]. assert ((-1 =? heap_end st) = false) as -> by (apply Z.eqb_neq; lia).
      eexists _, _, cs. split; [done|]. split; [|split].
      * destruct Hinv' as (? & ? & ? & _); split_and!; try done; right.
        destruct Hr' as (? & ? & ? & ? & ?); cbn in *. unfold ready; cbn. split_and!; done || lia.
      * done.
      * left. split_and!; try done. unfold exhausted. split_and!; [done | |].
        -- rewrite <- (Heq ltac:(lia)). apply merge_no_adjacent.
        -- cbn [act heap_end]. rewrite (ready_act_ne _ _ Hh Hr). lia.
    + cbn [act heap_end heap_start hmem actptr]. rewrite Z.eqb_refl. destruct fuel as [|fuel]; [lia|].
      set (st2 := HState _ _ _ _ _). assert (Hr2 : ready st2 cs).
      { unfold ready, st2; cbn. destruct Hr' as (? & ? & ? & ? & ?); cbn in *. split_and!; done || lia. }
      assert (Hinv2 : heap_inv st2 cs).
      { destruct Hinv' as (? & ? & ? & _). split_and!; try done. by right. }
      destruct (malloc_bump st2 cs size fuel) as (st' & E & Hi & Hp & Ho); try done; [lia | cbn; unfold CHUNK; lia|].
      eexists _, st', _. split; [exact E|]. split; [done|]. split; [|done].
      eapply preserved_trans; [exact Hpr|]. done.
Qed.

Lemma malloc_loop_init st st1 size fuel :
  0 < heap -> heap_init heap st (u64 (size + CHUNK)) = (true, st1) -> ready st1 [] ->
  malloc_loop heap (S fuel) st size = malloc_loop heap (S fuel) st1 size.
Proof. intros Hh E Hr. cbn [malloc_loop]. by rewrite E, (heap_init_ready _ _ _ Hh Hr). Qed.

Lemma initsize_spec b :
  0 <= b < 2 ^ 32 -> let i := Z.land (u64 (b + 0x1000)) (u64 (Z.lnot 0xfff)) in b < i <= b + 0x1000.
Proof.
  intros Hb. rewrite u64_small by lia. rewrite land_u64_r by lia. change 0xfff with (2 ^ 12 - 1).
  rewrite align_down by lia. cbn zeta. pose proof (Z.div_mod (b + 4096) (2 ^ 12)).
  pose proof (Z.mod_pos_bound (b + 4096) (2 ^ 12)). lia.
Qed.

Lemma malloc_total st cs sz :
  heap_inv st cs -> 0 <= sz < 2 ^ 31 - 0x2000 ->
  exists p st' cs', malloc heap st sz = Ok (p, st') /\ malloc_outcome st cs sz p st' cs'.
Proof.
  intros Hinv Hs. pose proof Hinv as (Hh & Hlt & Hm & [(Ea & -> & Ep)|Hr]); unfold malloc.
  2:{ apply malloc_ready; try done. destruct Hr as (_ & E2 & E3 & _ & Hc). pose proof (span_nonneg _ _ _ Hc).
      assert (Hmc : mapped (hmem st) heap (Z.of_nat (length cs))) by (eapply mapped_sub; [exact Hm | lia | unfold CHUNK; lia]).
      apply mapped_size in Hmc. lia. }
  destruct (initsize_spec (u64 (sz + CHUNK))) as [Hi1 Hi2]; [rewrite u64_small; unfold CHUNK; lia|].
  rewrite (u64_small (sz + CHUNK)) in Hi1, Hi2 by (unfold CHUNK; lia).
  destruct (heap_init heap st (u64 (sz + CHUNK))) as [ok st1] eqn:Ei.
  pose proof Ei as Ei'. unfold heap_init in Ei'. rewrite Ea in Ei'. cbn [Z.eqb] in Ei'.
  rewrite (u64_small (sz + CHUNK)) in Ei' by (unfold CHUNK; lia). set (i := Z.land _ _) in *. unfold sbrk in Ei'.
  assert ((if actptr st =? 0 then heap else actptr st) = heap) as Eact.
  { destruct Ep as [-> | ->]; [done|]. by destruct (Z.eqb_spec heap 0); [lia|]. }
  rewrite Eact in Ei'. rewrite s32_small in Ei' by (unfold CHUNK in *; lia).
  destruct (Z.ltb_spec (heap + HEAP_SIZE) (heap + i)).
  - (* no room for the first chunk *)
    cbn [Z.eqb Pos.eqb hmem act heap_end actptr] in Ei'. simplify_eq. eexists _, _, []. split.
    { cbn [malloc_loop Nat.add]. rewrite Ei. done. }
    split; [|split; [by apply preserved_refl|]].
    + split_and!; try done. left. cbn. split_and!; try done. by right.
    + left. split_and!; try done. unfold exhausted. split_and!; [done | done|]. cbn [act heap_end].
      rewrite ?Ea. cbn [Z.eqb]. lia.
  - destruct (Z.eqb_spec heap (-1)); [lia|]. simplify_eq. set (st1 := HState _ _ _ _ _) in *.
    cbn [hmem act heap_start heap_end actptr] in st1.
    assert (Hr1 : ready st1 []).
    { unfold ready, st1; cbn. split_and!; try done; unfold CHUNK in *; lia. }
    assert (Hinv1 : heap_inv st1 []) by (split_and!; try done; by right).
    change (2 + size (hmem st))%nat with (S (S (size (hmem st)))). rewrite (malloc_loop_init st st1) by done.
    destruct (malloc_ready st1 [] sz (S (S (size (hmem st)))) Hinv1 Hr1 Hs) as (p & st' & cs' & E & Ho & Hp & Hq); [cbn; lia|].
    exists p, st', cs'. split; [exact E|]. split; [done|]. split; [|done]. eapply preserved_trans; [by apply (preserved_refl st st1)|done].
Qed.

(** ** Blocks *)

Lemma live_before h cs b b' i j :
  forall m, chain m h cs -> live h cs !! i = Some b -> live h cs !! j = Some b' -> (i < j)%nat ->
  b.1 + b.2 + CHUNK <= b'.1.
Proof.
  intros m. revert h i j. induction cs as [|[u l] cs IH]; intros h i j Hc Hi Hj Hij; cbn [live] in *; [done|].
  destruct Hc as [Hc1 Hc]. destruct (u =? 0); cbn [app] in *; [by apply (IH _ i j Hc)|].
  destruct i as [|i], j as [|j]; cbn in Hi, Hj; [lia | | lia |apply (IH _ i j Hc); done || lia].
  simplify_eq. apply list_elem_of_lookup_2 in Hj. destruct b' as [q n].
  apply (live_range _ _ _ _ _ Hc) in Hj. cbn. lia.
Qed.

(** Blocks that do not overlap, and do not overlap the headers of the others. *)
Definition separate (b b' : Z * Z) : Prop := b.1 + b.2 + CHUNK <= b'.1 \/ b'.1 + b'.2 + CHUNK <= b.1.

Lemma live_separate m h cs :
  chain m h cs -> NoDup (live h cs) /\ (forall b b', b ∈ live h cs -> b' ∈ live h cs -> b <> b' -> separate b b').
Proof.
  intros Hc. split.
  - apply NoDup_alt. intros i j [q n] Hi Hj. destruct (Nat.lt_trichotomy i j) as [H|[H|H]]; [|done|].
    + pose proof (live_before _ _ _ _ _ _ _ Hc Hi Hj H). apply list_elem_of_lookup_2, (live_range _ _ _ _ _ Hc) in Hi.
      cbn in *. unfold CHUNK in *. lia.
    + pose proof (live_before _ _ _ _ _ _ _ Hc Hj Hi H). apply list_elem_of_lookup_2, (live_range _ _ _ _ _ Hc) in Hi.
      cbn in *. unfold CHUNK in *. lia.
  - intros b b' [i Hi]%list_elem_of_lookup [j Hj]%list_elem_of_lookup Hne.
    destruct (Nat.lt_trichotomy i j) as [H|[->|H]]; [|congruence|].
    + left. by apply (live_before _ _ _ _ _ _ _ Hc Hi Hj H).
    + right. by apply (live_before _ _ _ _ _ _ _ Hc Hj Hi H).
Qed.

Lemma inv_chain st cs : heap_inv st cs -> chain (hmem st) heap cs /\ span cs <= HEAP_SIZE.
Proof.
  intros (_ & _ & _ & [(_ & -> & _)|(E1 & E2 & E3 & E4 & Hc)]); [by split|]. split; [done | lia].
Qed.

Lemma new_block_separate cs st' cs' p l :
  heap_inv st' cs' -> live heap cs' ≡ₚ (p, l) :: live heap cs -> 
  heap + CHUNK <= p /\ 0 <= l /\ p + l <= heap + HEAP_SIZE /\ Forall (separate (p, l)) (live heap cs).
Proof.
  intros [Hc Hs]%inv_chain Hp. assert (Hin : (p, l) ∈ live heap cs') by (rewrite Hp; set_solver).
  pose proof (live_range _ _ _ _ _ Hc Hin). split_and!; try lia.
  destruct (live_separate _ _ _ Hc) as [Hnd Hsep]. rewrite Hp in Hnd. apply NoDup_cons in Hnd as [Hnd _].
  apply Forall_forall. intros b Hb. apply Hsep; [done | rewrite Hp; set_solver |]. by intros <-.
Qed.

(** ** free, realloc and memalign *)

Lemma live_elem h cs p l :
  (p, l) ∈ live h cs -> exists cs1 u cs2, cs = cs1 ++ (u, l) :: cs2 /\ u <> 0 /\ p = h + span cs1 + CHUNK.
Proof.
  revert h. induction cs as [|[u k] cs IH]; intros h Hp; cbn [live] in Hp; [by apply elem_of_nil in Hp|].
  apply elem_of_app in Hp as [Hp|Hp].
  - destruct (Z.eqb_spec u 0); [by apply elem_of_nil in Hp|]. apply list_elem_of_singleton in Hp. simplify_eq.
    exists [], u, cs. split_and!; try done. cbn [span]. lia.
  - destruct (IH _ Hp) as (cs1 & u' & cs2 & -> & Hu & ->). exists ((u, k) :: cs1), u', cs2.
    split_and!; try done. cbn [span]. lia.
Qed.

Lemma inv_ready st cs p l : heap_inv st cs -> (p, l) ∈ live heap cs -> ready st cs.
Proof. intros (_ & _ & _ & [(_ & -> & _)|Hr]) Hp; [by apply elem_of_nil in Hp | done]. Qed.

(** What clearing the [inuse] of a live block does. *)
Lemma release st cs p l :
  heap_inv st cs -> (p, l) ∈ live heap cs ->
  exists m cs', set_inuse (hmem st) (p - CHUNK) 0 = Ok m /\ heap_inv (with_mem st m) cs' /\
    live heap cs ≡ₚ (p, l) :: live heap cs' /\ preserved st (with_mem st m) (live heap cs).
Proof.
  intros Hinv Hp. pose proof (inv_ready _ _ _ _ Hinv Hp) as Hr. pose proof Hr as (_ & E2 & E3 & _ & Hc).
  destruct (live_elem _ _ _ _ Hp) as (cs1 & u & cs2 & -> & Hu & ->). pose proof Hc as [H1 [Hh H2]]%chain_app.
  pose proof (span_nonneg _ _ _ H1). pose proof (span_nonneg _ _ _ H2). rewrite span_app in E2. cbn [span] in E2.
  pose proof Hh as (_ & _ & Hl).
  replace (heap + span cs1 + CHUNK - CHUNK) with (heap + span cs1) by lia.
  rewrite (set_inuse_spec _ _ u l) by (done || lia). eexists _, (cs1 ++ (0, l) :: cs2). split; [done|].
  assert (Hst : stores (hmem st) (put_chunk (hmem st) (heap + span cs1) 0 l) heap (heap + HEAP_SIZE)).
  { apply put_chunk_stores; [by eapply chunk_at_mapped | lia | unfold CHUNK in *; lia]. }
  split; [|split].
  - eapply inv_mem; [exact Hinv | exact Hr | by apply (chain_set_inuse _ _ _ u) | | exact Hst].
    rewrite !span_app. done.
  - rewrite !live_app. cbn [live Z.eqb app]. destruct (Z.eqb_spec u 0); [done|]. by rewrite Permutation_middle.
  - split; [exact Hst|]. by apply put_chunk_keeps.
Qed.

Lemma preserved_sub st st' bs bs' : preserved st st' bs -> bs' ⊆ bs -> preserved st st' bs'.
Proof. intros [H1 H2] Hs. split; [done | by eapply keeps_sub]. Qed.

Lemma keeps_bytes m m' bs p l s :
  keeps m m' bs -> (p, l) ∈ bs -> bytes_at m p s -> Z.of_nat (length s) <= l -> bytes_at m' p s.
Proof.
  intros Hk Hp Hb Hl i b Hi. rewrite (Hk p l (p + Z.of_nat i) Hp); [by apply Hb|].
  apply lookup_lt_Some in Hi. lia.
Qed.
End spec.

Lemma chain_write_block m m' h cs p l :
  chain m h cs -> (p, l) ∈ live h cs -> same_outside m m' p (p + l) -> chain m' h cs.
Proof.
  intros Hc Hp Hs. destruct (live_elem _ _ _ _ Hp) as (cs1 & u & cs2 & -> & Hu & ->).
  apply chain_app in Hc as [H1 [Hh H2]]. pose proof Hh as (_ & _ & Hl). apply chain_app.
  split; [|split]; [eapply chain_frame; [exact H1|] | eapply chunk_at_frame; [exact Hh|] | eapply chain_frame; [exact H2|]];
    intros a Ha; apply Hs; unfold CHUNK in *; lia.
Qed.

(** C2: on a well-formed heap malloc ends, keeps the heap well-formed, leaves the
    data of every block in use and the rest of the memory alone, and either hands
    out a new block of at least the size asked for, inside the heap and apart from
    every other block and its header, or returns NULL with the same blocks in use,
    and then no free chunk is long enough, no two could be merged and the heap
    cannot grow by the size. *)
Theorem malloc_correct heap st cs sz :
  heap_inv heap st cs -> 0 <= sz < 2 ^ 31 - 0x2000 ->
  exists p st' cs',
    malloc heap st sz = Ok (p, st') /\ heap_inv heap st' cs' /\ preserved heap st st' (live heap cs) /\
    (p = 0 /\ live heap cs' = live heap cs /\ exhausted heap st' cs' sz \/
     exists l, sz <= l /\ live heap cs' ≡ₚ (p, l) :: live heap cs /\
       heap + CHUNK <= p /\ p + l <= heap + HEAP_SIZE /\ Forall (separate (p, l)) (live heap cs)).
Proof.
  intros Hinv Hs. destruct (malloc_total heap st cs sz Hinv Hs) as (p & st' & cs' & E & Hi & Hp & Ho).
  exists p, st', cs'. split_and!; try done; try apply Hp. destruct Ho as [Ho|(l & Hl & Hlive)]; [by left|]. right.
  destruct (new_block_separate _ _ _ _ _ _ Hi Hlive) as (? & ? & ? & ?). exists l. by split_and!.
Qed.

(** A memory of zero bytes that holds the whole heap. *)
Definition zero_heap (heap : Z) : mem := write_bytes ∅ heap (replicate (Z.to_nat (HEAP_SIZE + CHUNK)) 0).

Lemma write_replicate_lookup m n p v a :
  p <= a < p + Z.of_nat n -> write_bytes m p (replicate n v) !! a = Some v.
Proof.
  intros Ha. rewrite write_bytes_lookup, length_replicate, decide_True by done.
  apply lookup_replicate_2. lia.
Qed.

Lemma zero_heap_at heap a : heap <= a < heap + (HEAP_SIZE + CHUNK) -> zero_heap heap !! a = Some 0.
Proof.
  assert (H0 : 0 <= HEAP_SIZE + CHUNK) by done. unfold zero_heap. revert H0.
  generalize (HEAP_SIZE + CHUNK). intros n Hn Ha. rewrite write_replicate_lookup; [done | lia].
Qed.

Lemma zero_heap_mapped heap : mapped (zero_heap heap) heap (HEAP_SIZE + CHUNK).
Proof.
  pose proof (bytes_at_mapped _ _ _ (write_bytes_at ∅ heap (replicate (Z.to_nat (HEAP_SIZE + CHUNK)) 0))) as H.
  rewrite length_replicate, Z2Nat.id in H by done. exact H.
Qed.

(** Never worth unfolding: two million bytes. *)
#[global] Opaque zero_heap.

Definition boot_heap : hstate := HState (zero_heap 0x4000) 0 0 0 0.

Lemma boot_heap_inv : heap_inv 0x4000 boot_heap [].
Proof.
  split; [lia|]. split; [done|]. split; [apply zero_heap_mapped|]. left. split_and!; try done. by left.
Qed.

Lemma malloc_correct_witness :
  exists p st' cs',
    malloc 0x4000 boot_heap 100 = Ok (p, st') /\ heap_inv 0x4000 st' cs' /\
    preserved 0x4000 boot_heap st' (live 0x4000 []) /\
    (p = 0 /\ live 0x4000 cs' = live 0x4000 [] /\ exhausted 0x4000 st' cs' 100 \/
     exists l, 100 <= l /\ live 0x4000 cs' ≡ₚ (p, l) :: live 0x4000 [] /\
       0x4000 + CHUNK <= p /\ p + l <= 0x4000 + HEAP_SIZE /\ Forall (separate (p, l)) (live 0x4000 [])).
Proof. apply (malloc_correct 0x4000 boot_heap [] 100); [apply boot_heap_inv | lia]. Defined.

(** C30: free of a block in use makes it free, and of NULL does nothing; the heap
    stays well-formed, the other blocks stay in use and no data changes. *)
Theorem free_correct heap st cs p l :
  heap_inv heap st cs ->
  free st 0 = Ok st /\
  ((p, l) ∈ live heap cs ->
   exists st' cs', free st p = Ok st' /\ heap_inv heap st' cs' /\
     live heap cs ≡ₚ (p, l) :: live heap cs' /\ preserved heap st st' (live heap cs)).
Proof.
  intros Hinv. split; [done|]. intros Hp. destruct (release _ _ _ _ _ Hinv Hp) as (m & cs' & E & H).
  pose proof (inv_chain _ _ _ Hinv) as [Hc _]. pose proof (live_range _ _ _ _ _ Hc Hp). destruct Hinv as [Hh _].
  unfold free. destruct (Z.eqb_spec p 0); [unfold CHUNK in *; lia|]. rewrite E. res_simpl. eauto.
Qed.

(** A heap with one block of 16 bytes in use, at 0x4004. *)
Definition one_block : hstate := HState (put_chunk (zero_heap 0x4000) 0x4000 1 16) 0x4014 0x4000 0x5000 0x5000.

Lemma one_block_inv : heap_inv 0x4000 one_block [(1, 16)].
Proof.
  split; [lia|]. split; [done|]. split; [apply mapped_write_bytes, zero_heap_mapped|]. right.
  split; [done|]. split; [done|]. split; [by split|]. split; [done|].
  cbn [chain]. split; [apply put_chunk_at; lia | exact I].
Qed.

Lemma free_correct_witness :
  free one_block 0 = Ok one_block /\
  ((0x4004, 16) ∈ live 0x4000 [(1, 16)] ->
   exists st' cs', free one_block 0x4004 = Ok st' /\ heap_inv 0x4000 st' cs' /\
     live 0x4000 [(1, 16)] ≡ₚ (0x4004, 16) :: live 0x4000 cs' /\
     preserved 0x4000 one_block st' (live 0x4000 [(1, 16)])).
Proof. apply (free_correct 0x4000 one_block [(1, 16)] 0x4004 16). apply one_block_inv. Defined.

(** C29: realloc of a block in use keeps the block when it is long enough; else it
    ends with a longer block in use instead of the old one that starts with the
    old block's bytes, or with NULL and the old block still in use. *)
Theorem realloc_correct heap st cs p l bs sz :
  heap_inv heap st cs -> (p, l) ∈ live heap cs -> 0 <= sz < 2 ^ 31 - 0x2000 ->
  bytes_at (hmem st) p bs -> Z.of_nat (length bs) = l -> Forall byte bs ->
  exists q st' cs',
    realloc heap st p sz = Ok (q, st') /\ heap_inv heap st' cs' /\ preserved heap st st' (live heap cs) /\
    (sz <= l /\ q = p /\ st' = st /\ cs' = cs \/
     l < sz /\ q = 0 /\ live heap cs' = live heap cs \/
     l < sz /\ exists k, sz <= k /\ (p, l) :: live heap cs' ≡ₚ (q, k) :: live heap cs /\
       Forall (separate (q, k)) (live heap cs) /\ bytes_at (hmem st') q bs).
Proof.
  intros Hinv Hp Hs Hb Hlb Hby. pose proof (inv_chain _ _ _ Hinv) as [Hc _].
  destruct (live_elem _ _ _ _ Hp) as (cs1 & u & cs2 & Ecs & Hu & Ep).
  assert (Hlen : forall m cs0, chain m heap cs0 -> (p, l) ∈ live heap cs0 -> length_of m (p - CHUNK) = Ok l).
  { clear. intros m cs0 Hc Hp. destruct (live_elem _ _ _ _ Hp) as (cs1 & u & cs2 & -> & Hu & ->).
    apply chain_app in Hc as (_ & Hh & _). replace (heap + span cs1 + CHUNK - CHUNK) with (heap + span cs1) by lia.
    by eapply length_of_spec. }
  subst l. set (l := Z.of_nat (length bs)) in *.
  unfold realloc. rewrite (Hlen _ _ Hc Hp). res_simpl. destruct (Z.leb_spec sz l).
  { exists p, st, cs. split; [done|]. split; [done|]. split; [by apply preserved_refl|]. by left. }
  destruct (malloc_total heap st cs sz Hinv Hs) as (q & st1 & cs' & E & Hi & Hpr & [(-> & Hl & _)|(k & Hk & Hl)]);
    rewrite E; res_simpl; cbn [Z.eqb].
  { exists 0, st1, cs'. split_and!; try done; try apply Hpr. by right; left. }
  destruct (new_block_separate _ _ _ _ _ _ Hi Hl) as (Hq1 & Hk0 & Hq2 & Hsep). pose proof Hinv as [Hh0 _].
  destruct (Z.eqb_spec q 0); [unfold CHUNK in *; lia|]. pose proof (inv_chain _ _ _ Hi) as [Hc' _].
  assert (Hpl : (p, l) ∈ live heap cs') by (rewrite Hl; set_solver).
  assert (Hql : (q, k) ∈ live heap cs') by (rewrite Hl; set_solver).
  rewrite (Hlen _ _ Hc' Hpl). res_simpl. pose proof (proj1 (Forall_forall _ _) Hsep _ Hp) as Hqp.
  unfold separate in Hqp. cbn in Hqp. unfold CHUNK in *.
  assert (Hb1 : bytes_at (hmem st1) p bs) by (eapply keeps_bytes; [apply Hpr | exact Hp | exact Hb | lia]).
  pose proof Hi as (_ & _ & Hm1 & _). unfold l at 1.
  rewrite (memcpy_spec (hmem st1) q p bs Hb1 Hby) by
    (lia || (eapply mapped_sub; [exact Hm1 | lia | unfold CHUNK; lia])).
  res_simpl. set (m2 := write_bytes (hmem st1) q bs).
  assert (Hso : same_outside (hmem st1) m2 q (q + k)).
  { eapply same_outside_mono; [apply write_bytes_same_outside | lia | lia]. }
  assert (Hst2 : stores (hmem st1) m2 heap (heap + HEAP_SIZE)).
  { apply write_bytes_stores; [eapply mapped_sub; [exact Hm1 | lia | unfold CHUNK; lia] | lia | lia]. }
  assert (Hi2 : heap_inv heap (with_mem st1 m2) cs').
  { eapply inv_mem; [exact Hi | by eapply inv_ready | by eapply chain_write_block | done | done]. }
  destruct (release _ _ _ _ _ Hi2 Hpl) as (m3 & cs3 & E3 & Hi3 & Hl3 & Hpr3). cbn [hmem with_mem] in E3.
  unfold CHUNK in E3. rewrite E3. res_simpl. exists q, (with_mem st1 m3), cs3.
  split; [done|]. split; [exact Hi3|]. split; [split|].
  - eapply stores_trans; [apply Hpr|]. eapply stores_trans; [exact Hst2|]. apply Hpr3.
  - eapply keeps_trans; [apply Hpr|]. eapply (keeps_trans _ m2).
    + intros x n0 a Hx Ha. apply Hso. pose proof (proj1 (Forall_forall _ _) Hsep _ Hx) as Hxq.
      unfold separate in Hxq. cbn in Hxq. unfold CHUNK in *. lia.
    + eapply keeps_sub; [apply Hpr3|]. rewrite Hl. set_solver.
  - right; right. split; [done|]. exists k. split; [done|]. split; [by rewrite <- Hl3|]. split; [done|].
    eapply (keeps_bytes m2); [apply Hpr3 | exact Hql | apply write_bytes_at | lia].
Qed.

Lemma realloc_correct_witness :
  exists q st' cs',
    realloc 0x4000 one_block 0x4004 100 = Ok (q, st') /\ heap_inv 0x4000 st' cs' /\
    preserved 0x4000 one_block st' (live 0x4000 [(1, 16)]) /\
    (100 <= 16 /\ q = 0x4004 /\ st' = one_block /\ cs' = [(1, 16)] \/
     16 < 100 /\ q = 0 /\ live 0x4000 cs' = live 0x4000 [(1, 16)] \/
     16 < 100 /\ exists k, 100 <= k /\ (0x4004, 16) :: live 0x4000 cs' ≡ₚ (q, k) :: live 0x4000 [(1, 16)] /\
       Forall (separate (q, k)) (live 0x4000 [(1, 16)]) /\ bytes_at (hmem st') q (replicate 16 0)).
Proof.
  apply (realloc_correct 0x4000 one_block [(1, 16)] 0x4004 16 (replicate 16 0) 100);
    [apply one_block_inv | set_solver | lia | | done | by repeat constructor].
  eapply (bytes_at_frame (zero_heap 0x4000) _ _ _ 0x4000 0x4004); [apply write_bytes_same_outside | | by right].
  intros i b [-> Hi]%lookup_replicate. apply zero_heap_at. unfold HEAP_SIZE, CHUNK. lia.
Defined.

(** memalign, for a power of two, returns NULL when malloc does; else an
    address that is a multiple of it, with the bytes asked for inside the block
    malloc handed out. *)
Theorem memalign_correct heap st cs k bytes :
  heap_inv heap st cs -> 0 <= k -> 0 <= bytes -> bytes + 2 ^ k < 2 ^ 31 - 0x2000 ->
  exists y st' cs',
    memalign heap st (2 ^ k) bytes = Ok (y, st') /\ heap_inv heap st' cs' /\
    preserved heap st st' (live heap cs) /\
    (y = 0 /\ live heap cs' = live heap cs \/
     exists p l, live heap cs' ≡ₚ (p, l) :: live heap cs /\ (2 ^ k | y) /\ p <= y /\ y + bytes <= p + l).
Proof.
  intros Hinv Hk Hb Hs. pose proof (Z.pow_pos_nonneg 2 k ltac:(lia) Hk) as Hpos. unfold memalign.
  rewrite (u64_small (bytes + _)) by lia.
  destruct (malloc_total heap st cs _ Hinv (conj (Z.add_nonneg_nonneg _ _ Hb (Z.lt_le_incl _ _ Hpos)) Hs))
    as (x & st' & cs' & E & Hi & Hpr & Ho).
  rewrite E. res_simpl. eexists _, st', cs'. split; [done|]. split; [done|]. split; [done|].
  assert (Hx : 0 <= x < 2 ^ 63).
  { destruct Ho as [(-> & _)|(l & Hl & Hlive)]; [lia|].
    destruct (new_block_separate _ _ _ _ _ _ Hi Hlive) as (? & ? & ? & _). destruct Hi as (? & ? & _).
    unfold CHUNK in *. lia. }
  rewrite (u64_small (x + 2 ^ k - 1)) by lia. rewrite land_u64_r by lia.
  rewrite (u64_small (2 ^ k - 1)) by lia. rewrite align_down by done.
  pose proof (Z.div_mod (x + 2 ^ k - 1) (2 ^ k) ltac:(lia)). pose proof (Z.mod_pos_bound (x + 2 ^ k - 1) (2 ^ k) Hpos).
  destruct Ho as [(-> & Hl & _)|(l & Hl & Hlive)].
  - left. split; [|done]. rewrite Z.div_small by lia. done.
  - right. exists x, l. split; [done|]. split; [apply Z.divide_factor_r|]. lia.
Qed.

Lemma memalign_correct_witness :
  exists y st' cs',
    memalign 0x4000 boot_heap (2 ^ 6) 100 = Ok (y, st') /\ heap_inv 0x4000 st' cs' /\
    preserved 0x4000 boot_heap st' (live 0x4000 []) /\
    (y = 0 /\ live 0x4000 cs' = live 0x4000 [] \/
     exists p l, live 0x4000 cs' ≡ₚ (p, l) :: live 0x4000 [] /\ (2 ^ 6 | y) /\ p <= y /\ y + 100 <= p + l).
Proof. apply (memalign_correct 0x4000 boot_heap [] 6 100); [apply boot_heap_inv | lia | lia | lia]. Defined.

(** Only a part of the heap, for the examples. *)
Definition small_heap : hstate :=
  HState (put_chunk (write_bytes ∅ 0x4000 (replicate 96 0)) 0x4000 1 16) 0x4014 0x4000 0x5000 0x5000.

(** A size of 2^32: sbrk gets the size as an int, here 4, so that the heap is
    thought to be 2^32 + 4 bytes longer and a block is handed out; its header
    says that it is empty. *)
Example malloc_huge :
  (fun r => (r.1, heap_end r.2, actptr r.2, length_of (hmem r.2) 0x4014)) <$> malloc 0x4000 small_heap (2 ^ 32) =
  Ok (0x4018, 0x5000 + (2 ^ 32 + 4), 0x5004, Ok 0).
Proof. by vm_compute. Qed.

(** realloc of NULL reads a header at the address -4. *)
Example realloc_null : realloc 0x4000 small_heap 0 10 = Fault.
Proof. by vm_compute. Qed.
