(* ===== verification/BmAlloc.v ===== *)
(** * slof/allocator.c: the bitmap allocator

    A bitmap is a record with the fields of struct bitmap, [bmw] as a list of
    64-bit words; the bitmaps live in a store from handles to records, the
    handles being what SLOF_alloc_mem (outside of this file, a parameter)
    returns.  A bit that is set stands for a free block.  The output of printf
    is not modelled, and neither is SLOF_bm_print, which only prints. *)

From Stdlib Require Import ZArith Lia.
From stdpp Require Import base list gmap option numbers.
From S2P Require Import Prelude.

Definition DEFAULT_BLOCK_SIZE : Z := 4096.
Definition BM_WORD_SIZE : Z := 8.
Definition BM_WORD_BITS : Z := BM_WORD_SIZE * 8.
Definition SIZEOF_BITMAP : Z := 40.

Record bitmap := Bitmap {
  bstart : Z;
  bsize : Z;
  bm_size : Z;
  block_size : Z;
  free_blocks : Z;
  bmw : list Z;
}.

Abbreviation bitmaps := (gmap Z bitmap).

Definition BIT (x : Z) : Z := u64 (Z.shiftl 1 x).
Definition BM_WORD_MODULO (n : Z) : Z := n mod BM_WORD_BITS.
Definition BM_NUM_BITS (reqsize bsize : Z) : Z :=
  u64 (reqsize / bsize + (if reqsize mod bsize =? 0 then 0 else 1)).

(** BM_WORD(bmw, n), and the store to it; [n] is an int. *)
Definition BM_INDEX (n : Z) : nat := Z.to_nat (u64 (s32 n) / BM_WORD_BITS).
Definition BM_MASK (n : Z) : Z := BIT (BM_WORD_MODULO (u64 (s32 n))).

Definition bm_clear_bit (bmw : list Z) (n : Z) : res (list Z) :=
  w ← of_option (bmw !! BM_INDEX n); Ok (<[BM_INDEX n := Z.land w (u64 (Z.lnot (BM_MASK n)))]> bmw).

Definition bm_set_bit (bmw : list Z) (n : Z) : res (list Z) :=
  w ← of_option (bmw !! BM_INDEX n); Ok (<[BM_INDEX n := Z.lor w (BM_MASK n)]> bmw).

Definition bm_test_bit (bmw : list Z) (n : Z) : res bool :=
  w ← of_option (bmw !! BM_INDEX n); Ok (negb (Z.land w (BM_MASK n) =? 0)).

(** The inner loop of bm_find_bits: [n] more bits to look at, from [j]; the
    value of [j] it ends with. *)
Fixpoint run_loop (bmw : list Z) (n : nat) (j : Z) : res Z :=
  match n with
  | O => Ok j
  | S n' => b ← bm_test_bit bmw j; if b : bool then run_loop bmw n' (j + 1) else Ok j
  end.

(** The outer loop, [n] being [total_bits - i]. *)
Fixpoint find_loop (bmw : list Z) (total_bits n_bits : Z) (n : nat) (i : Z) : res Z :=
  match n with
  | O => Ok (-1)
  | S n' =>
      b ← bm_test_bit bmw i;
      if negb b then find_loop bmw total_bits n_bits n' (i + 1)
      else if total_bits <? u32 (i + n_bits) then Ok (-1)
      else
        j ← run_loop bmw (Z.to_nat (u32 (i + n_bits) - i)) i;
        if j =? u32 (i + n_bits) then Ok (s32 i) else find_loop bmw total_bits n_bits n' (i + 1)
  end.

Definition bm_find_bits (bm : bitmap) (n_bits : Z) : res Z :=
  let total_bits := u32 (BM_NUM_BITS (bsize bm) (block_size bm)) in
  find_loop (bmw bm) total_bits (u32 n_bits) (Z.to_nat total_bits) 0.

Fixpoint clear_loop (bmw : list Z) (n : nat) (i : Z) : res (list Z) :=
  match n with
  | O => Ok bmw
  | S n' => bmw' ← bm_clear_bit bmw (u32 i); clear_loop bmw' n' (i + 1)
  end.

Fixpoint set_loop (bmw : list Z) (n : nat) (i : Z) : res (list Z) :=
  match n with
  | O => Ok bmw
  | S n' => bmw' ← bm_set_bit bmw (u32 i); set_loop bmw' n' (i + 1)
  end.

Section allocator.
(** The address SLOF_alloc_mem returns for a size, or 0. *)
Context (SLOF_alloc_mem : Z -> Z).

Definition SLOF_bm_allocator_init (bms : bitmaps) (start size blocksize : Z) : Z * bitmaps :=
  if size =? 0 then (0, bms) else
  let blocksize := if blocksize =? 0 then DEFAULT_BLOCK_SIZE else blocksize in
  let n_bits := BM_NUM_BITS size blocksize in
  let bm_size := n_bits / BM_WORD_BITS + (if n_bits mod BM_WORD_BITS =? 0 then 0 else 1) in
  let alloc_size := u64 (SIZEOF_BITMAP + bm_size * BM_WORD_SIZE) in
  let bm := SLOF_alloc_mem alloc_size in
  if bm =? 0 then (0, bms)
  else (bm, <[bm := Bitmap start size bm_size blocksize n_bits
                      (replicate (Z.to_nat bm_size) 0xFFFFFFFFFFFFFFFF)]> bms).
End allocator.

(** What SLOF_bm_alloc returns when it fails. *)
Definition BM_FAIL : Z := u64 (-1).

Definition SLOF_bm_alloc (bms : bitmaps) (handle size : Z) : res (Z * bitmaps) :=
  if handle =? 0 then Ok (BM_FAIL, bms) else
  bm ← of_option (bms !! handle);
  let n_bits := BM_NUM_BITS size (block_size bm) in
  if free_blocks bm <? n_bits then Ok (BM_FAIL, bms) else
  bitpos ← bm_find_bits bm n_bits;
  if bitpos =? -1 then Ok (BM_FAIL, bms) else
  w ← clear_loop (bmw bm) (Z.to_nat n_bits) bitpos;
  let bm' := Bitmap (bstart bm) (bsize bm) (bm_size bm) (block_size bm) (u64 (free_blocks bm - n_bits)) w in
  Ok (u64 (bstart bm + bitpos * block_size bm), <[handle := bm']> bms).

Definition SLOF_bm_free (bms : bitmaps) (handle ptr size : Z) : res bitmaps :=
  if handle =? 0 then Ok bms else
  bm ← of_option (bms !! handle);
  let n_bits := BM_NUM_BITS size (block_size bm) in
  if (ptr <? bstart bm) || (u64 (bstart bm + bsize bm) <? u64 (ptr + size)) then Ok bms else
  let bitpos := (ptr - bstart bm) / block_size bm in
  w ← set_loop (bmw bm) (Z.to_nat n_bits) (u32 bitpos);
  Ok (<[handle := Bitmap (bstart bm) (bsize bm) (bm_size bm) (block_size bm)
                    (u64 (free_blocks bm + n_bits)) w]> bms).

(** ** Bits *)

Definition bitb (ws : list Z) (k : Z) : bool :=
  match ws !! Z.to_nat (k / 64) with Some w => Z.testbit w (k mod 64) | None => false end.

(** The bits of [p, p + n) set to [v]. *)
Definition update_run (f : Z -> bool) (p n : Z) (v : bool) (k : Z) : bool :=
  if (p <=? k) && (k <? p + n) then v else f k.

Fixpoint cnt (f : Z -> bool) (n : nat) : Z :=
  match n with O => 0 | S n' => b2z (f (Z.of_nat n')) + cnt f n' end.

Lemma cnt_ext f g n : (forall k, 0 <= k < Z.of_nat n -> f k = g k) -> cnt f n = cnt g n.
Proof.
  induction n as [|n IH]; intros H; [done|]. cbn [cnt]. rewrite IH by (intros; apply H; lia). by rewrite H by lia.
Qed.

Lemma cnt_range f n : 0 <= cnt f n <= Z.of_nat n.
Proof. induction n as [|n IH]; cbn [cnt]; [lia|]. destruct (f (Z.of_nat n)); cbn [b2z]; lia. Qed.

Lemma cnt_update f p n v N :
  0 <= p -> 0 <= n -> p + n <= Z.of_nat N -> (forall k, p <= k < p + n -> f k = negb v) ->
  cnt (update_run f p n v) N = cnt f N + (if v then n else - n).
Proof.
  intros Hp Hn HN Hf.
  assert (G : forall m, cnt (update_run f p n v) m =
    cnt f m + (if v then 1 else -1) * Z.max 0 (Z.min (Z.of_nat m) (p + n) - p)).
  { induction m as [|m IH]; cbn [cnt]; [destruct v; lia|]. rewrite IH. unfold update_run.
    destruct (Z.leb_spec p (Z.of_nat m)), (Z.ltb_spec (Z.of_nat m) (p + n)); cbn [andb];
      [rewrite (Hf (Z.of_nat m)) by lia; destruct v; cbn [b2z negb]; lia |destruct v; lia..]. }
  rewrite G. destruct v; lia.
Qed.

Section bits.
Context (ws : list Z) (k : Z) (Hk : 0 <= k < 2 ^ 31) (Hlen : k < 64 * Z.of_nat (length ws)).
Context (Hws : Forall (fun w => 0 <= w < 2 ^ 64) ws).

Lemma bm_index : BM_INDEX k = Z.to_nat (k / 64).
Proof. unfold BM_INDEX. by rewrite s32_small, u64_small by lia. Qed.

Lemma bm_mask : BM_MASK k = 2 ^ (k mod 64).
Proof.
  unfold BM_MASK, BM_WORD_MODULO, BIT, BM_WORD_BITS, BM_WORD_SIZE. rewrite s32_small, (u64_small k) by lia.
  change (8 * 8) with 64. pose proof (Z.mod_pos_bound k 64). rewrite Z.shiftl_1_l.
  apply u64_small. pose proof (Z.pow_lt_mono_r 2 (k mod 64) 64). lia.
Qed.

Lemma bm_word : exists w, ws !! Z.to_nat (k / 64) = Some w /\ 0 <= w < 2 ^ 64.
Proof.
  destruct (lookup_lt_is_Some_2 ws (Z.to_nat (k / 64))) as [w Hw].
  - apply Nat2Z.inj_lt. rewrite Z2Nat.id by (apply Z.div_pos; lia). apply Z.div_lt_upper_bound; lia.
  - exists w. split; [done|]. by apply (Forall_lookup_1 _ _ _ _ Hws Hw).
Qed.

Lemma land_pow2_test w n : 0 <= n -> negb (Z.land w (2 ^ n) =? 0) = Z.testbit w n.
Proof.
  intros Hn. rewrite land_pow2 by done. pose proof (Z.pow_pos_nonneg 2 n).
  destruct (Z.testbit w n); cbn [Z.b2z]; [destruct (Z.eqb_spec (1 * 2 ^ n) 0); [lia | done] | done].
Qed.

Lemma bm_test_bit_spec : bm_test_bit ws k = Ok (bitb ws k).
Proof.
  unfold bm_test_bit, bitb. rewrite bm_index, bm_mask. destruct bm_word as (w & -> & _). res_simpl.
  by rewrite land_pow2_test by (apply Z.mod_pos_bound; lia).
Qed.
End bits.

(** The words with the bits of a run set to [v]. *)
Lemma word_clear_bits w k j :
  0 <= w < 2 ^ 64 -> 0 <= k < 64 -> 0 <= j < 64 ->
  Z.testbit (Z.land w (u64 (Z.lnot (2 ^ k)))) j = if k =? j then false else Z.testbit w j.
Proof.
  intros Hw Hk Hj. rewrite land_u64_r by done. rewrite Z.land_spec, Z.lnot_spec, Z.pow2_bits_eqb by lia.
  destruct (k =? j); cbn; [apply andb_false_r | apply andb_true_r].
Qed.

Lemma word_set_bits w k j :
  0 <= k -> Z.testbit (Z.lor w (2 ^ k)) j = if k =? j then true else Z.testbit w j.
Proof.
  intros Hk. rewrite Z.lor_spec, Z.pow2_bits_eqb by done. destruct (k =? j); [apply orb_true_r | apply orb_false_r].
Qed.

Lemma lor_range n a b : 0 <= n -> 0 <= a < 2 ^ n -> 0 <= b < 2 ^ n -> 0 <= Z.lor a b < 2 ^ n.
Proof.
  intros Hn Ha Hb. rewrite <- (Z.mod_small a (2 ^ n)), <- (Z.mod_small b (2 ^ n)) by done.
  rewrite <- !Z.land_ones, <- Z.land_lor_distr_l, Z.land_ones by done. apply Z.mod_pos_bound. lia.
Qed.

Lemma divmod_eqb k j : 0 <= k -> 0 <= j -> (k =? j) = (k / 64 =? j / 64) && (k mod 64 =? j mod 64).
Proof.
  intros Hk Hj. destruct (Z.eqb_spec k j) as [->|Hne]; [by rewrite !Z.eqb_refl|].
  destruct (Z.eqb_spec (k / 64) (j / 64)), (Z.eqb_spec (k mod 64) (j mod 64)); try done.
  exfalso. pose proof (Z.div_mod k 64). pose proof (Z.div_mod j 64). lia.
Qed.

(** [ws'] are the words [ws] with the bit function [f]. *)
Definition words_of (ws ws' : list Z) (f : Z -> bool) : Prop :=
  length ws' = length ws /\ Forall (fun w => 0 <= w < 2 ^ 64) ws' /\
  forall k, 0 <= k < 64 * Z.of_nat (length ws) -> bitb ws' k = f k.

Lemma words_of_step ws k (v : bool) (op : Z -> Z) :
  0 <= k < 64 * Z.of_nat (length ws) -> Forall (fun w => 0 <= w < 2 ^ 64) ws ->
  (forall w, 0 <= w < 2 ^ 64 -> 0 <= op w < 2 ^ 64) ->
  (forall w j, 0 <= w < 2 ^ 64 -> 0 <= j < 64 ->
     Z.testbit (op w) j = if k mod 64 =? j then v else Z.testbit w j) ->
  forall w, ws !! Z.to_nat (k / 64) = Some w ->
  words_of ws (<[Z.to_nat (k / 64) := op w]> ws) (fun j => if k =? j then v else bitb ws j).
Proof.
  intros Hk Hws Hop Hbit w Hw. pose proof (Forall_lookup_1 _ _ _ _ Hws Hw) as Hwr. cbn in Hwr.
  split; [apply length_insert|]. split; [by apply Forall_insert; [done | apply Hop]|].
  intros j Hj. rewrite divmod_eqb by lia. unfold bitb at 1.
  assert (0 <= k / 64 /\ 0 <= j / 64) as [? ?] by (split; apply Z.div_pos; lia).
  pose proof (Z.mod_pos_bound j 64 ltac:(lia)).
  destruct (Z.eqb_spec (k / 64) (j / 64)) as [E|E]; cbn [andb].
  - rewrite <- E, list_lookup_insert_eq by (by eapply lookup_lt_Some). rewrite Hbit by done.
    unfold bitb. by rewrite <- E, Hw.
  - rewrite list_lookup_insert_ne by (intros E'; apply E; lia). done.
Qed.

Lemma u64_lnot_range x : 0 <= u64 x < 2 ^ 64.
Proof. apply u64_range. Qed.

Lemma bm_clear_spec ws k :
  0 <= k < 2 ^ 31 -> k < 64 * Z.of_nat (length ws) -> Forall (fun w => 0 <= w < 2 ^ 64) ws ->
  exists ws', bm_clear_bit ws k = Ok ws' /\ words_of ws ws' (fun j => if k =? j then false else bitb ws j).
Proof.
  intros Hk Hl Hws. unfold bm_clear_bit. rewrite bm_index, bm_mask by done.
  destruct (bm_word ws k) as (w & Hw & Hwr); try done. rewrite Hw. res_simpl. eexists; split; [done|].
  pose proof (Z.mod_pos_bound k 64 ltac:(lia)).
  apply (words_of_step ws k false (fun w => Z.land w (u64 (Z.lnot (2 ^ (k mod 64)))))); try done; try lia.
  - intros x Hx. by apply (land_range 64).
  - intros x j Hx Hj. by apply word_clear_bits.
Qed.

Lemma bm_set_spec ws k :
  0 <= k < 2 ^ 31 -> k < 64 * Z.of_nat (length ws) -> Forall (fun w => 0 <= w < 2 ^ 64) ws ->
  exists ws', bm_set_bit ws k = Ok ws' /\ words_of ws ws' (fun j => if k =? j then true else bitb ws j).
Proof.
  intros Hk Hl Hws. unfold bm_set_bit. rewrite bm_index, bm_mask by done.
  destruct (bm_word ws k) as (w & Hw & Hwr); try done. rewrite Hw. res_simpl. eexists; split; [done|].
  pose proof (Z.mod_pos_bound k 64 ltac:(lia)).
  apply (words_of_step ws k true (fun w => Z.lor w (2 ^ (k mod 64)))); try done; try lia.
  - intros x Hx. apply lor_range; [lia | done|]. pose proof (Z.pow_lt_mono_r 2 (k mod 64) 64). lia.
  - intros x j Hx Hj. apply word_set_bits. lia.
Qed.

(** A loop that sets or clears the bits of a run. *)
Lemma run_update (step : list Z -> Z -> res (list Z)) (loop : list Z -> nat -> Z -> res (list Z)) v :
  (forall ws k, 0 <= k < 2 ^ 31 -> k < 64 * Z.of_nat (length ws) -> Forall (fun w => 0 <= w < 2 ^ 64) ws ->
     exists ws', step ws k = Ok ws' /\ words_of ws ws' (fun j => if k =? j then v else bitb ws j)) ->
  (forall ws i, loop ws O i = Ok ws) ->
  (forall ws n i, loop ws (S n) i = (ws' ← step ws (u32 i); loop ws' n (i + 1))) ->
  forall n ws p, 0 <= p -> p + Z.of_nat n <= 2 ^ 31 -> p + Z.of_nat n <= 64 * Z.of_nat (length ws) ->
  Forall (fun w => 0 <= w < 2 ^ 64) ws ->
  exists ws', loop ws n p = Ok ws' /\ words_of ws ws' (update_run (bitb ws) p (Z.of_nat n) v).
Proof.
  intros Hstep H0 HS n. induction n as [|n IH]; intros ws p Hp Hlt Hl Hws.
  - rewrite H0. exists ws. split; [done|]. split; [done|]. split; [done|]. intros k Hk. unfold update_run.
    destruct (Z.leb_spec p k), (Z.ltb_spec k (p + Z.of_nat 0)); try done; lia.
  - rewrite HS, u32_small by lia. destruct (Hstep ws p) as (w1 & -> & Hl1 & Hw1 & Hb1); [lia | lia | done|]. res_simpl.
    destruct (IH w1 (p + 1)) as (w2 & -> & Hl2 & Hw2 & Hb2); [lia | lia | lia | done|]. rewrite Hl1 in *.
    exists w2. split; [done|]. split; [done|]. split; [done|]. intros k Hk. rewrite Hb2 by done. unfold update_run.
    destruct (Z.leb_spec (p + 1) k), (Z.ltb_spec k (p + 1 + Z.of_nat n)), (Z.leb_spec p k), (Z.ltb_spec k (p + Z.of_nat (S n)));
      cbn [andb]; try lia; try done; rewrite Hb1 by done; destruct (Z.eqb_spec p k); done || lia.
Qed.

Lemma clear_loop_spec n ws p :
  0 <= p -> p + Z.of_nat n <= 2 ^ 31 -> p + Z.of_nat n <= 64 * Z.of_nat (length ws) ->
  Forall (fun w => 0 <= w < 2 ^ 64) ws ->
  exists ws', clear_loop ws n p = Ok ws' /\ words_of ws ws' (update_run (bitb ws) p (Z.of_nat n) false).
Proof. by apply (run_update bm_clear_bit clear_loop false bm_clear_spec). Qed.

Lemma set_loop_spec n ws p :
  0 <= p -> p + Z.of_nat n <= 2 ^ 31 -> p + Z.of_nat n <= 64 * Z.of_nat (length ws) ->
  Forall (fun w => 0 <= w < 2 ^ 64) ws ->
  exists ws', set_loop ws n p = Ok ws' /\ words_of ws ws' (update_run (bitb ws) p (Z.of_nat n) true).
Proof. by apply (run_update bm_set_bit set_loop true bm_set_spec). Qed.

(** Words are determined by their bits. *)
Lemma words_ext ws ws' :
  length ws = length ws' -> Forall (fun w => 0 <= w < 2 ^ 64) ws -> Forall (fun w => 0 <= w < 2 ^ 64) ws' ->
  (forall k, 0 <= k < 64 * Z.of_nat (length ws) -> bitb ws k = bitb ws' k) -> ws = ws'.
Proof.
  intros Hl H1 H2 Hb. apply list_eq_same_length with (n := length ws); try done.
  intros i x y Hi Hx Hy. pose proof (Forall_lookup_1 _ _ _ _ H1 Hx). pose proof (Forall_lookup_1 _ _ _ _ H2 Hy).
  cbn in *. rewrite <- (Z.mod_small x (2 ^ 64)), <- (Z.mod_small y (2 ^ 64)) by done. apply Z.bits_inj'. intros n Hn.
  destruct (Z.lt_ge_cases n 64); [|by rewrite !Z.mod_pow2_bits_high by lia].
  rewrite !Z.mod_pow2_bits_low by done. specialize (Hb (64 * Z.of_nat i + n)). unfold bitb in Hb.
  assert (E1 : (64 * Z.of_nat i + n) / 64 = Z.of_nat i) by (symmetry; apply (Z.div_unique _ _ _ n); lia).
  assert (E2 : (64 * Z.of_nat i + n) mod 64 = n) by (symmetry; apply (Z.mod_unique _ _ (Z.of_nat i)); lia).
  rewrite E1, E2, Nat2Z.id, Hx, Hy in Hb. apply Hb. lia.
Qed.

(** ** Runs of free blocks *)

Definition total_bits (bm : bitmap) : Z := BM_NUM_BITS (bsize bm) (block_size bm).
Definition is_free (bm : bitmap) (k : Z) : bool := bitb (bmw bm) k.

(** [n] blocks are free from the block [p] on. *)
Definition fits (bm : bitmap) (n p : Z) : Prop :=
  0 <= p < total_bits bm /\ is_free bm p = true /\ p + n <= total_bits bm /\
  forall k, p <= k < p + n -> is_free bm k = true.

(** A bitmap's invariant. *)
Definition bm_inv (bm : bitmap) : Prop :=
  0 < block_size bm /\ 0 < bsize bm /\ 0 <= bstart bm /\ bstart bm + bsize bm < 2 ^ 64 /\
  total_bits bm < 2 ^ 31 /\ total_bits bm <= 64 * Z.of_nat (length (bmw bm)) /\
  Forall (fun w => 0 <= w < 2 ^ 64) (bmw bm) /\
  free_blocks bm = cnt (is_free bm) (Z.to_nat (total_bits bm)).

Lemma BM_NUM_BITS_spec size bs :
  0 < bs -> 0 <= size < 2 ^ 64 ->
  let n := BM_NUM_BITS size bs in 0 <= n <= size /\ (n - 1) * bs < size <= n * bs.
Proof.
  intros Hb Hs. cbn zeta. unfold BM_NUM_BITS. pose proof (Z.div_mod size bs ltac:(lia)).
  pose proof (Z.mod_pos_bound size bs Hb). pose proof (Z.div_pos size bs).
  assert (size / bs + (if size mod bs =? 0 then 0 else 1) <= size) by (destruct (Z.eqb_spec (size mod bs) 0); nia).
  rewrite u64_small by (destruct (Z.eqb_spec (size mod bs) 0); lia).
  destruct (Z.eqb_spec (size mod bs) 0); nia.
Qed.

Lemma run_loop_spec ws n j :
  0 <= j -> j + Z.of_nat n <= 2 ^ 31 -> j + Z.of_nat n <= 64 * Z.of_nat (length ws) ->
  Forall (fun w => 0 <= w < 2 ^ 64) ws ->
  exists r, run_loop ws n j = Ok (j + r) /\ 0 <= r <= Z.of_nat n /\
    (forall k, j <= k < j + r -> bitb ws k = true) /\ (r < Z.of_nat n -> bitb ws (j + r) = false).
Proof.
  revert j. induction n as [|n IH]; intros j Hj Hlt Hl Hws; cbn [run_loop].
  - exists 0. rewrite Z.add_0_r. split_and!; try done; lia.
  - rewrite bm_test_bit_spec by (done || lia). res_simpl. destruct (bitb ws j) eqn:Eb.
    + destruct (IH (j + 1)) as (r & -> & Hr & Hall & Hend); [lia | lia | lia | done|].
      exists (r + 1). split; [f_equal; lia|]. split; [lia|]. split.
      * intros k Hk. destruct (Z.eq_dec k j) as [->|]; [done|]. apply Hall. lia.
      * intros. replace (j + (r + 1)) with (j + 1 + r) by lia. apply Hend. lia.
    + exists 0. rewrite Z.add_0_r. split_and!; try done; lia.
Qed.

Lemma find_loop_spec bm n_bits n i :
  bm_inv bm -> 0 <= n_bits <= total_bits bm -> 0 <= i -> i + Z.of_nat n = total_bits bm ->
  exists r, find_loop (bmw bm) (total_bits bm) n_bits n i = Ok r /\
    (r = -1 /\ (forall p, i <= p -> ~ fits bm n_bits p) \/
     i <= r /\ fits bm n_bits r /\ forall p, i <= p < r -> ~ fits bm n_bits p).
Proof.
  intros (_ & _ & _ & _ & Ht & Hl & Hws & _) Hn. revert i. induction n as [|n IH]; intros i Hi E; cbn [find_loop].
  - exists (-1). split; [done|]. left. split; [done|]. intros p Hp (? & _). lia.
  - assert (Hnext : ~ fits bm n_bits i -> exists r, find_loop (bmw bm) (total_bits bm) n_bits n (i + 1) = Ok r /\
      (r = -1 /\ (forall p, i <= p -> ~ fits bm n_bits p) \/
       i <= r /\ fits bm n_bits r /\ forall p, i <= p < r -> ~ fits bm n_bits p)).
    { intros Hno. destruct (IH (i + 1)) as (r & -> & Hr); [lia | lia|]. exists r. split; [done|].
      destruct Hr as [[-> Hr]|(Hr1 & Hr2 & Hr)]; [left|right].
      - split; [done|]. intros p Hp. destruct (Z.eq_dec p i) as [->|]; [done|]. apply Hr. lia.
      - split; [lia|]. split; [done|]. intros p Hp. destruct (Z.eq_dec p i) as [->|]; [done|]. apply Hr. lia. }
    rewrite bm_test_bit_spec by (done || lia). res_simpl. destruct (bitb (bmw bm) i) eqn:Eb; cbn [negb].
    2:{ apply Hnext. intros (_ & Hf & _). unfold is_free in Hf. congruence. }
    rewrite u32_small by lia. destruct (Z.ltb_spec (total_bits bm) (i + n_bits)).
    { exists (-1). split; [done|]. left. split; [done|]. intros p Hp (_ & _ & ? & _). lia. }
    replace (i + n_bits - i) with n_bits by lia.
    destruct (run_loop_spec (bmw bm) (Z.to_nat n_bits) i) as (r & -> & Hr & Hall & Hend); [lia | lia | lia | done|].
    res_simpl. destruct (Z.eqb_spec (i + r) (i + n_bits)) as [Er|Er].
    + exists i. rewrite s32_small by lia. split; [done|]. right. split; [lia|]. split; [|lia].
      split_and!; try done; try lia. intros k Hk. apply Hall. lia.
    + apply Hnext. intros (_ & _ & _ & Hf). unfold is_free in Hf. rewrite (Hf (i + r)) in Hend by lia. specialize (Hend ltac:(lia)). done.
Qed.

(** A bitmap with a run updated and the counter with it. *)
Definition with_run (bm bm' : bitmap) (p n : Z) (v : bool) : Prop :=
  bstart bm' = bstart bm /\ bsize bm' = bsize bm /\ bm_size bm' = bm_size bm /\ block_size bm' = block_size bm /\
  free_blocks bm' = free_blocks bm + (if v then n else - n) /\
  length (bmw bm') = length (bmw bm) /\
  forall k, 0 <= k < 64 * Z.of_nat (length (bmw bm)) -> is_free bm' k = update_run (is_free bm) p n v k.

Lemma bm_inv_range bm : bm_inv bm -> 0 <= free_blocks bm <= total_bits bm.
Proof.
  intros (Hb & Hs & H0 & H64 & _ & _ & _ & ->).
  pose proof (BM_NUM_BITS_spec (bsize bm) (block_size bm) Hb ltac:(lia)) as [Ht _]. fold (total_bits bm) in Ht.
  pose proof (cnt_range (is_free bm) (Z.to_nat (total_bits bm))). lia.
Qed.

Lemma fits_free bm n p : bm_inv bm -> 0 <= n -> fits bm n p -> n <= free_blocks bm.
Proof.
  intros (_ & _ & _ & _ & _ & _ & _ & ->) Hn (Hp & _ & Hpn & Hf).
  pose proof (cnt_update (is_free bm) p n false (Z.to_nat (total_bits bm)) ltac:(lia) Hn ltac:(lia) Hf) as E.
  cbv iota in E. pose proof (cnt_range (update_run (is_free bm) p n false) (Z.to_nat (total_bits bm))). lia.
Qed.

Lemma with_run_inv bm ws p n v :
  bm_inv bm -> 0 <= p -> 0 <= n -> p + n <= total_bits bm ->
  (forall k, p <= k < p + n -> is_free bm k = negb v) ->
  words_of (bmw bm) ws (update_run (is_free bm) p n v) ->
  let bm' := Bitmap (bstart bm) (bsize bm) (bm_size bm) (block_size bm)
               (u64 (free_blocks bm + (if v then n else - n))) ws in
  bm_inv bm' /\ with_run bm bm' p n v.
Proof.
  intros Hinv Hp Hn Hpn Hf (Hl & Hws & Hb) bm'.
  pose proof Hinv as (H1 & H2 & H3 & H4 & H5 & H6 & H7 & Hfree).
  assert (Ec : cnt (is_free bm') (Z.to_nat (total_bits bm)) = free_blocks bm + (if v then n else - n)).
  { rewrite Hfree, <- (cnt_update _ p n v) by (done || lia). apply cnt_ext. intros k Hk. apply Hb. lia. }
  pose proof (cnt_range (is_free bm') (Z.to_nat (total_bits bm))) as Hr.
  assert (Eu : free_blocks bm' = free_blocks bm + (if v then n else - n)).
  { cbn. apply u64_small. pose proof (bm_inv_range _ Hinv). lia. }
  split.
  - split_and!; try done; [cbn [bmw bm']; rewrite Hl; exact H6 |]. by rewrite Eu, <- Ec.
  - split_and!; done.
Qed.

(** ** Properties *)

(** The cases of SLOF_bm_alloc. *)
Lemma alloc_cases bms handle bm size :
  bm_inv bm -> bms !! handle = Some bm -> handle <> 0 -> 0 <= size < 2 ^ 64 ->
  let n := BM_NUM_BITS size (block_size bm) in
  SLOF_bm_alloc bms handle size = Ok (BM_FAIL, bms) /\ (forall p, ~ fits bm n p) \/
  exists p bm',
    SLOF_bm_alloc bms handle size = Ok (bstart bm + p * block_size bm, <[handle := bm']> bms) /\
    bstart bm + p * block_size bm <> BM_FAIL /\
    fits bm n p /\ (forall p', p' < p -> ~ fits bm n p') /\
    bm_inv bm' /\ with_run bm bm' p n false.
Proof.
  intros Hinv Hh H0 Hs n. pose proof Hinv as (H1 & H2 & H3 & H4 & H5 & H6 & H7 & Hfree).
  pose proof (BM_NUM_BITS_spec size _ H1 Hs) as [Hn _]. fold n in Hn.
  pose proof (BM_NUM_BITS_spec (bsize bm) _ H1 ltac:(lia)) as [Ht1 Ht2]. fold (total_bits bm) in Ht1, Ht2.
  pose proof (bm_inv_range _ Hinv) as Hfr. unfold SLOF_bm_alloc. destruct (Z.eqb_spec handle 0); [done|].
  rewrite Hh. res_simpl. fold n. destruct (Z.ltb_spec (free_blocks bm) n) as [Hlt|Hge].
  { left. split; [done|]. intros p Hfit. pose proof (fits_free _ _ _ Hinv (proj1 Hn) Hfit). lia. }
  unfold bm_find_bits. fold (total_bits bm). rewrite !u32_small by lia.
  destruct (find_loop_spec bm n (Z.to_nat (total_bits bm)) 0 Hinv) as (r & -> & Hr); [lia | lia | lia|]. res_simpl.
  destruct Hr as [[-> Hr]|(Hr0 & Hfit & Hr)].
  { left. split; [done|]. intros p Hfit. apply (Hr p); [apply Hfit | done]. }
  right. destruct (Z.eqb_spec r (-1)); [lia|]. pose proof Hfit as (Hp & _ & Hpn & Hf).
  destruct (clear_loop_spec (Z.to_nat n) (bmw bm) r) as (ws & -> & Hws); [lia | lia | lia | done|]. res_simpl.
  rewrite Z2Nat.id in Hws by lia.
  destruct (with_run_inv bm ws r n false Hinv) as [Hinv' Hrun]; try done; try lia.
  exists r, (Bitmap (bstart bm) (bsize bm) (bm_size bm) (block_size bm) (u64 (free_blocks bm + - n)) ws).
  assert (r * block_size bm < bsize bm) by nia. split; [|split; [|split; [done|split; [|by split]]]].
  - rewrite u64_small by nia. done.
  - change BM_FAIL with (2 ^ 64 - 1). nia.
  - intros p' Hp' Hfit'. apply (Hr p'); [|done]. destruct Hfit' as [? _]. lia.
Qed.

(** C25: on a well-formed bitmap SLOF_bm_alloc is first fit: it fails, changing
    nothing, exactly when no run of free blocks is long enough; else it returns the
    address of the first such run, marks its blocks, and no others, as used, and
    keeps the bitmap (its count of free blocks included) well-formed. *)
Theorem bm_alloc_first_fit bms handle bm size :
  bm_inv bm -> bms !! handle = Some bm -> handle <> 0 -> 0 <= size < 2 ^ 64 ->
  let n := BM_NUM_BITS size (block_size bm) in
  SLOF_bm_alloc bms handle size = Ok (BM_FAIL, bms) /\ (forall p, ~ fits bm n p) \/
  exists p bm',
    SLOF_bm_alloc bms handle size = Ok (bstart bm + p * block_size bm, <[handle := bm']> bms) /\
    bstart bm + p * block_size bm <> BM_FAIL /\
    fits bm n p /\ (forall p', p' < p -> ~ fits bm n p') /\
    bm_inv bm' /\ with_run bm bm' p n false.
Proof. apply alloc_cases. Qed.

Definition demo_bm : bitmap := Bitmap 0x1000 0x5000 1 0x1000 5 [2 ^ 64 - 1].

Lemma demo_bm_inv : bm_inv demo_bm.
Proof.
  split_and!; try done. constructor; [|constructor]. lia.
Qed.

Lemma bm_alloc_first_fit_witness :
  let bms : bitmaps := {[ 8 := demo_bm ]} in
  let n := BM_NUM_BITS 0x1800 (block_size demo_bm) in
  SLOF_bm_alloc bms 8 0x1800 = Ok (BM_FAIL, bms) /\ (forall p, ~ fits demo_bm n p) \/
  exists p bm',
    SLOF_bm_alloc bms 8 0x1800 = Ok (bstart demo_bm + p * block_size demo_bm, <[8 := bm']> bms) /\
    bstart demo_bm + p * block_size demo_bm <> BM_FAIL /\
    fits demo_bm n p /\ (forall p', p' < p -> ~ fits demo_bm n p') /\
    bm_inv bm' /\ with_run demo_bm bm' p n false.
Proof. apply (bm_alloc_first_fit {[ 8 := demo_bm ]} 8 demo_bm 0x1800); [apply demo_bm_inv | done | lia | lia]. Defined.

(** The cases of SLOF_bm_free. *)
Lemma free_cases bms handle bm ptr size :
  bm_inv bm -> bms !! handle = Some bm -> handle <> 0 -> 0 <= size < 2 ^ 64 -> ptr + size < 2 ^ 64 ->
  let n := BM_NUM_BITS size (block_size bm) in
  let p := (ptr - bstart bm) / block_size bm in
  (ptr < bstart bm \/ bstart bm + bsize bm < ptr + size -> SLOF_bm_free bms handle ptr size = Ok bms) /\
  (bstart bm <= ptr -> ptr + size <= bstart bm + bsize bm ->
   (forall k, p <= k < p + n -> is_free bm k = false) ->
   exists bm', SLOF_bm_free bms handle ptr size = Ok (<[handle := bm']> bms) /\
     bm_inv bm' /\ with_run bm bm' p n true).
Proof.
  intros Hinv Hh H0 Hs Hps n p. pose proof Hinv as (H1 & H2 & H3 & H4 & H5 & H6 & H7 & Hfree).
  unfold SLOF_bm_free. destruct (Z.eqb_spec handle 0); [done|]. rewrite Hh. res_simpl. fold n p.
  rewrite (u64_small (bstart bm + bsize bm)) by lia. split.
  { intros Hout. destruct (Z.ltb_spec ptr (bstart bm)); [done|]. rewrite u64_small by lia.
    destruct (Z.ltb_spec (bstart bm + bsize bm) (ptr + size)); [done | lia]. }
  intros Hp1 Hp2 Hused. destruct (Z.ltb_spec ptr (bstart bm)); [lia|]. rewrite (u64_small (ptr + size)) by lia.
  destruct (Z.ltb_spec (bstart bm + bsize bm) (ptr + size)); [lia|]. cbn [orb].
  pose proof (BM_NUM_BITS_spec size _ H1 Hs) as [Hn Hn2]. fold n in Hn, Hn2.
  pose proof (BM_NUM_BITS_spec (bsize bm) _ H1 ltac:(lia)) as [Ht1 Ht2]. fold (total_bits bm) in Ht1, Ht2.
  pose proof (Z.div_mod (ptr - bstart bm) (block_size bm) ltac:(lia)) as Edm. fold p in Edm.
  pose proof (Z.mod_pos_bound (ptr - bstart bm) (block_size bm) H1) as Hmod.
  assert (Hpn : 0 <= p /\ p + n <= total_bits bm).
  { split; [apply Z.div_pos; lia|]. nia. }
  rewrite u32_small by lia.
  destruct (set_loop_spec (Z.to_nat n) (bmw bm) p) as (ws & -> & Hws); [lia | lia | lia | done|]. res_simpl.
  rewrite Z2Nat.id in Hws by lia.
  destruct (with_run_inv bm ws p n true Hinv) as [Hinv' Hrun]; try done; try lia.
  eexists. split; [reflexivity|]. by split.
Qed.

(** SLOF_bm_free rejects a range outside of the bitmap's, changing nothing;
    for a range inside, whose blocks are all in use, it marks these blocks, and no
    others, as free and keeps the bitmap well-formed. *)
Theorem bm_free_correct bms handle bm ptr size :
  bm_inv bm -> bms !! handle = Some bm -> handle <> 0 -> 0 <= size < 2 ^ 64 -> ptr + size < 2 ^ 64 ->
  let n := BM_NUM_BITS size (block_size bm) in
  let p := (ptr - bstart bm) / block_size bm in
  (ptr < bstart bm \/ bstart bm + bsize bm < ptr + size -> SLOF_bm_free bms handle ptr size = Ok bms) /\
  (bstart bm <= ptr -> ptr + size <= bstart bm + bsize bm ->
   (forall k, p <= k < p + n -> is_free bm k = false) ->
   exists bm', SLOF_bm_free bms handle ptr size = Ok (<[handle := bm']> bms) /\
     bm_inv bm' /\ with_run bm bm' p n true).
Proof. apply free_cases. Qed.

(** The bitmap after the first two blocks of demo_bm have been handed out. *)
Definition used_bm : bitmap := Bitmap 0x1000 0x5000 1 0x1000 3 [2 ^ 64 - 4].

Lemma used_bm_inv : bm_inv used_bm.
Proof. split_and!; try done. constructor; [|constructor]. lia. Qed.

Lemma bm_free_correct_witness :
  let bms : bitmaps := {[ 8 := used_bm ]} in
  let n := BM_NUM_BITS 0x1800 (block_size used_bm) in
  let p := (0x1000 - bstart used_bm) / block_size used_bm in
  (0x1000 < bstart used_bm \/ bstart used_bm + bsize used_bm < 0x1000 + 0x1800 ->
   SLOF_bm_free bms 8 0x1000 0x1800 = Ok bms) /\
  (bstart used_bm <= 0x1000 -> 0x1000 + 0x1800 <= bstart used_bm + bsize used_bm ->
   (forall k, p <= k < p + n -> is_free used_bm k = false) ->
   exists bm', SLOF_bm_free bms 8 0x1000 0x1800 = Ok (<[8 := bm']> bms) /\
     bm_inv bm' /\ with_run used_bm bm' p n true).
Proof. apply (bm_free_correct {[ 8 := used_bm ]} 8 used_bm 0x1000 0x1800); [apply used_bm_inv | done | lia | lia | lia]. Defined.

Lemma ceil_exact b q t : 0 < b -> (t - 1) * b < q * b <= t * b -> q * b = t * b.
Proof. intros Hb [H1 H2]. apply Z.mul_lt_mono_pos_r in H1; [|done]. apply Z.mul_le_mono_pos_r in H2; [|done]. f_equal. lia. Qed.

(** C35: freeing what SLOF_bm_alloc returned, with the size it was asked for,
    gives the allocator's state back as it was, when the managed size is a
    multiple of the block size. *)
Theorem bm_alloc_free_roundtrip bms handle bm size addr bms' :
  bm_inv bm -> bms !! handle = Some bm -> handle <> 0 -> 0 <= size < 2 ^ 64 ->
  (block_size bm | bsize bm) ->
  SLOF_bm_alloc bms handle size = Ok (addr, bms') -> addr <> BM_FAIL ->
  SLOF_bm_free bms' handle addr size = Ok bms.
Proof.
  intros Hinv Hh H0 Hs [q Hq] E Hne. pose proof Hinv as (H1 & H2 & H3 & H4 & H5 & H6 & H7 & Hfree).
  pose proof (BM_NUM_BITS_spec size _ H1 Hs) as [Hn Hn2].
  pose proof (BM_NUM_BITS_spec (bsize bm) _ H1 ltac:(lia)) as [Ht1 Ht2]. fold (total_bits bm) in Ht1, Ht2.
  set (n := BM_NUM_BITS size (block_size bm)) in *.
  destruct (alloc_cases bms handle bm size Hinv Hh H0 Hs) as [[E' _]|(p & bm' & E' & _ & Hfit & _ & Hinv' & Hrun)];
    [congruence|]. rewrite E' in E. simplify_eq. fold n in Hfit, Hrun.
  destruct Hfit as (Hp & _ & Hpn & Hf). destruct Hrun as (R1 & R2 & R3 & R4 & R5 & R6 & R7).
  set (addr := bstart bm + p * block_size bm).
  assert (Epos : (addr - bstart bm) / block_size bm = p).
  { unfold addr. replace (bstart bm + p * block_size bm - bstart bm) with (p * block_size bm) by lia.
    apply Z.div_mul. lia. }
  assert (Etot : bsize bm = total_bits bm * block_size bm) by (rewrite Hq in *; by apply ceil_exact).
  assert (Hps : addr + size <= bstart bm + bsize bm).
  { pose proof (Z.mul_le_mono_nonneg_r (p + n) (total_bits bm) (block_size bm)). unfold addr. lia. }
  assert (0 <= p * block_size bm) by (apply Z.mul_nonneg_nonneg; lia).
  destruct (free_cases (<[handle := bm']> bms) handle bm' addr size) as [_ Hfree'];
    [done | apply lookup_insert_eq | done | done | lia|].
  rewrite R1, R2, R4, Epos in Hfree'. fold n in Hfree'.
  destruct Hfree' as (bm2 & -> & Hinv2 & Q1 & Q2 & Q3 & Q4 & Q5 & Q6 & Q7); [unfold addr; lia | lia | |].
  { intros k Hk. rewrite R7 by lia. unfold update_run.
    destruct (Z.leb_spec p k), (Z.ltb_spec k (p + n)); done || lia. }
  f_equal. rewrite insert_insert_eq. apply insert_id. rewrite Hh. f_equal.
  assert (Ews : bmw bm = bmw bm2).
  { apply words_ext; [congruence | done | apply Hinv2 |]. intros k Hk. change (is_free bm k = is_free bm2 k).
    rewrite Q7, R6 in * by (rewrite R6; done). unfold update_run at 1. rewrite R7 by done. unfold update_run.
    destruct (Z.leb_spec p k), (Z.ltb_spec k (p + n)); cbn [andb]; try done. apply Hf. lia. }
  destruct bm as [a1 a2 a3 a4 a5 a6], bm2 as [b1 b2 b3 b4 b5 b6]; cbn [bstart bsize bm_size block_size free_blocks bmw] in *.
  f_equal; congruence || lia.
Qed.

Lemma bm_alloc_free_roundtrip_witness :
  SLOF_bm_alloc {[ 8 := demo_bm ]} 8 0x1800 = Ok (0x1000, {[ 8 := used_bm ]}) /\
  SLOF_bm_free {[ 8 := used_bm ]} 8 0x1000 0x1800 = Ok {[ 8 := demo_bm ]}.
Proof.
  split; [by vm_compute|].
  apply (bm_alloc_free_roundtrip {[ 8 := demo_bm ]} 8 demo_bm 0x1800 0x1000);
    [apply demo_bm_inv | done | lia | lia | by exists 5 | by vm_compute | by vm_compute].
Defined.

(** SLOF_bm_allocator_init makes, where SLOF_alloc_mem returns memory, a
    well-formed bitmap for the range with all the blocks free, the block size
    being 4096 when 0 is given; it asks SLOF_alloc_mem for the size of the
    header and of the words. *)
Theorem bm_init_correct (SLOF_alloc_mem : Z -> Z) bms start size blocksize :
  0 < size -> 0 <= start -> start + size < 2 ^ 64 -> 0 <= blocksize ->
  let bs := if blocksize =? 0 then DEFAULT_BLOCK_SIZE else blocksize in
  BM_NUM_BITS size bs < 2 ^ 31 ->
  let words := (BM_NUM_BITS size bs + 63) / 64 in
  let handle := SLOF_alloc_mem (SIZEOF_BITMAP + words * 8) in
  SLOF_bm_allocator_init SLOF_alloc_mem bms start 0 blocksize = (0, bms) /\
  (handle = 0 -> SLOF_bm_allocator_init SLOF_alloc_mem bms start size blocksize = (0, bms)) /\
  (handle <> 0 -> exists bm,
     SLOF_bm_allocator_init SLOF_alloc_mem bms start size blocksize = (handle, <[handle := bm]> bms) /\
     bm_inv bm /\ bstart bm = start /\ bsize bm = size /\ block_size bm = bs /\
     free_blocks bm = total_bits bm /\ Z.of_nat (length (bmw bm)) = words /\
     forall k, 0 <= k < total_bits bm -> is_free bm k = true).
Proof.
  intros Hs Hst Hend Hb bs Hn words handle. split; [done|].
  assert (Hbs : 0 < bs) by (unfold bs, DEFAULT_BLOCK_SIZE; destruct (Z.eqb_spec blocksize 0); lia).
  pose proof (BM_NUM_BITS_spec size bs Hbs ltac:(lia)) as [Hn1 Hn2]. set (n := BM_NUM_BITS size bs) in *.
  assert (Ew : n / 64 + (if n mod 64 =? 0 then 0 else 1) = words).
  { unfold words. pose proof (Z.div_mod n 64). pose proof (Z.mod_pos_bound n 64).
    destruct (Z.eqb_spec (n mod 64) 0).
    - apply (Z.div_unique _ _ _ 63); lia.
    - apply (Z.div_unique _ _ _ (n mod 64 - 1)); lia. }
  assert (Hw : 64 * words >= n /\ 0 <= words <= n).
  { unfold words. pose proof (Z.div_mod (n + 63) 64). pose proof (Z.mod_pos_bound (n + 63) 64). lia. }
  unfold SLOF_bm_allocator_init. destruct (Z.eqb_spec size 0); [lia|]. fold bs n.
  change BM_WORD_BITS with 64. change BM_WORD_SIZE with 8. rewrite Ew, u64_small by (unfold SIZEOF_BITMAP; lia).
  fold handle. destruct (Z.eqb_spec handle 0); [by split|]. split; [done|]. intros _. eexists. split; [reflexivity|].
  set (bm := Bitmap _ _ _ _ _ _).
  assert (Hfree : forall k, 0 <= k < total_bits bm -> is_free bm k = true).
  { intros k Hk. unfold is_free, bitb. cbn [bmw bm]. change (total_bits bm) with n in Hk.
    rewrite lookup_replicate_2.
    - change 0xFFFFFFFFFFFFFFFF with (Z.ones 64). apply Z.ones_spec_low. apply Z.mod_pos_bound. lia.
    - apply Z2Nat.inj_lt; [apply Z.div_pos; lia | lia|]. apply Z.div_lt_upper_bound; lia. }
  assert (Hcnt : cnt (is_free bm) (Z.to_nat n) = n).
  { rewrite (cnt_ext _ (fun _ => true)) by (intros k Hk; apply Hfree; change (total_bits bm) with n; lia).
    assert (G : forall m, cnt (fun _ => true) m = Z.of_nat m) by (induction m; cbn [cnt b2z]; lia).
    rewrite G. lia. }
  assert (Hl : Z.of_nat (length (bmw bm)) = words) by (cbn [bmw bm]; rewrite length_replicate; lia).
  split; [|by split_and!]. unfold bm_inv. rewrite Hl. split_and!; try done.
  - change (total_bits bm) with n. lia.
  - cbn [bmw bm]. apply Forall_replicate. lia.
Qed.

Lemma bm_init_correct_witness :
  let handle := 8 in
  SLOF_bm_allocator_init (fun _ => 8) ∅ 0x1000 0 0 = (0, ∅) /\
  (handle = 0 -> SLOF_bm_allocator_init (fun _ => 8) ∅ 0x1000 0x5000 0 = (0, ∅)) /\
  (handle <> 0 -> exists bm,
     SLOF_bm_allocator_init (fun _ => 8) ∅ 0x1000 0x5000 0 = (handle, <[handle := bm]> ∅) /\
     bm_inv bm /\ bstart bm = 0x1000 /\ bsize bm = 0x5000 /\ block_size bm = DEFAULT_BLOCK_SIZE /\
     free_blocks bm = total_bits bm /\ Z.of_nat (length (bmw bm)) = (BM_NUM_BITS 0x5000 4096 + 63) / 64 /\
     forall k, 0 <= k < total_bits bm -> is_free bm k = true).
Proof. apply (bm_init_correct (fun _ => 8) ∅ 0x1000 0x5000 0); [lia | lia | lia | lia | by vm_compute]. Defined.

(** A managed size that is no multiple of the block size: the last block is
    handed out whole, past the end of the range, and cannot be freed. *)
Definition odd_bm : bitmap := Bitmap 0x1000 0x1800 1 0x1000 2 [2 ^ 64 - 1].
Definition odd_used_bm : bitmap := Bitmap 0x1000 0x1800 1 0x1000 0 [2 ^ 64 - 4].

Example partial_block_not_freed :
  SLOF_bm_alloc {[ 8 := odd_bm ]} 8 0x2000 = Ok (0x1000, {[ 8 := odd_used_bm ]}) /\
  SLOF_bm_free {[ 8 := odd_used_bm ]} 8 0x1000 0x2000 = Ok {[ 8 := odd_used_bm ]}.
Proof. by vm_compute. Qed.

(** A size of 0: an address is returned and no block is marked. *)
Example alloc_nothing : SLOF_bm_alloc {[ 8 := demo_bm ]} 8 0 = Ok (0x1000, {[ 8 := demo_bm ]}).
Proof. by vm_compute. Qed.

(** A block freed twice is counted twice. *)
Example double_free_counted :
  SLOF_bm_free {[ 8 := demo_bm ]} 8 0x1000 0x1000 = Ok {[ 8 := Bitmap 0x1000 0x5000 1 0x1000 6 [2 ^ 64 - 1] ]}.
Proof. by vm_compute. Qed.
