(* ===== verification/Sha.v ===== *)
(** * lib/libtpm: what the SHA implementations share

    sha.c, sha256.c and sha512.c process a message the same way, for words of
    [ws] bytes and blocks of 16 words; [md_do] is sha1_do, sha256_do and
    sha512_do for the parameters each of them gives.  [absorb] and [padding] are
    the definitions of FIPS 180-4 (5.1, 5.2 and 6.x.2), and [md_do_spec] relates
    the two.  The array [w] is a list of words; its bytes are the big-endian
    bytes of its words, as on the machine, where cpu_to_be and be_to_cpu are
    the identity. *)

From Stdlib Require Import ZArith Lia.
From stdpp Require Import base list gmap option numbers.
From S2P Require Import Prelude CMem.

(** ** Words and bytes *)

Definition to_bytes (ws : nat) (w : list Z) : list Z := concat (be_enc ws <$> w).

Fixpoint to_words (ws : nat) (n : nat) (bs : list Z) : list Z :=
  match n with
  | O => []
  | S n' => be_dec (take ws bs) :: to_words ws n' (drop ws bs)
  end.

(** The array after the bytes [x] are stored at the byte offset [off]. *)
Definition set_bytes (ws : nat) (w : list Z) (off : Z) (x : list Z) : list Z :=
  to_words ws (length w) (splice (to_bytes ws w) (Z.to_nat off) x).

(** Rotations of a word of [n] bits. *)
Definition ROTR (n x k : Z) : Z := Z.lor (Z.shiftr x k) (Z.shiftl x (n - k) mod 2 ^ n).
Definition ROTL (n x k : Z) : Z := ROTR n x (n - k).

(** ** The code: [block w ctx] is the array and the context after the block *)

Section md.
Context (ws : nat) (blk thr clr : Z) (ubits : Z -> Z).
Context (block : list Z -> list Z -> list Z * list Z).

Fixpoint md_loop (fuel : nat) (m : mem) (data32 length offset : Z) (ctx w : list Z) (bits : Z)
    : res (Z * list Z * list Z * Z) :=
  match fuel with
  | O => OutOfFuel
  | S fuel' =>
      if blk <=? u32 (length - offset) then
        bs ← load_bytes m (data32 + offset) (Z.to_nat blk);
        let '(w, ctx) := block (set_bytes ws w 0 bs) ctx in
        md_loop fuel' m data32 length (u32 (offset + blk)) ctx w (ubits (bits + blk * 8))
      else Ok (offset, ctx, w, bits)
  end.

(** [w] is what the uninitialised array holds. *)
Definition md_do (m : mem) (ctx : list Z) (data32 length : Z) (w : list Z) : res (list Z) :=
  '(offset, ctx, w, bits) ← md_loop (S (Z.to_nat length)) m data32 length 0 ctx w 0;
  let num := u16 (u32 (length - offset)) in
  let bits := ubits (bits + Z.shiftl num 3) in
  bs ← load_bytes m (data32 + offset) (Z.to_nat num);
  let w := set_bytes ws w 0 bs in
  let w := set_bytes ws w num [0x80] in
  let w := if 0 <? blk - (num + 1)
           then set_bytes ws w (num + 1) (replicate (Z.to_nat (blk - (num + 1))) 0) else w in
  let '(w, ctx) :=
    if thr <=? num then
      let '(w, ctx) := block w ctx in (set_bytes ws w 0 (replicate (Z.to_nat clr) 0), ctx)
    else (w, ctx) in
  let w := set_bytes ws w (blk - 8) (be_enc 8 (u64 bits)) in
  let '(_, ctx) := block w ctx in
  Ok ctx.
End md.

(** ** The standard *)

(** The padding of a message of [L] bytes: a one bit, zeros, the length in bits
    in [lb] bytes, up to a multiple of [blk] bytes. *)
Definition padding (blk : Z) (lb : nat) (L : Z) : list Z :=
  0x80 :: replicate (Z.to_nat ((- (L + 1 + Z.of_nat lb)) mod blk)) 0 ++ be_enc lb (8 * L).

Section absorb.
Context (ws : nat) (compress : list Z -> list Z -> list Z).

(** [n] blocks of 16 words, one after the other. *)
Fixpoint absorb (n : nat) (ctx bs : list Z) : list Z :=
  match n with
  | O => ctx
  | S n' => absorb n' (compress (to_words ws 16 bs) ctx) (drop (16 * ws) bs)
  end.

Definition fips_hash (iv msg : list Z) : list Z :=
  let p := msg ++ padding (Z.of_nat (16 * ws)) (2 * ws) (Z.of_nat (length msg)) in
  absorb (length p / (16 * ws)) iv p.
End absorb.

(** ** Bytes of words *)

Lemma to_words_length ws n bs : length (to_words ws n bs) = n.
Proof. revert bs. induction n as [|n IH]; intros bs; cbn; congruence. Qed.

Lemma to_bytes_length ws w : length (to_bytes ws w) = (ws * length w)%nat.
Proof.
  unfold to_bytes. induction w as [|x w IH]; [cbn; lia|].
  rewrite fmap_cons. cbn [concat length]. rewrite length_app, IH, be_enc_length. lia.
Qed.

Lemma to_bytes_Forall ws w : Forall byte (to_bytes ws w).
Proof.
  unfold to_bytes. induction w as [|x w IH]; [constructor|].
  rewrite fmap_cons. cbn [concat]. apply Forall_app. split; [apply be_enc_bytes | done].
Qed.

Lemma to_bytes_words ws n bs :
  length bs = (ws * n)%nat -> Forall byte bs -> to_bytes ws (to_words ws n bs) = bs.
Proof.
  revert bs. induction n as [|n IH]; intros bs Hl Hb; cbn [to_words].
  - destruct bs; [done | cbn in Hl; lia].
  - unfold to_bytes. rewrite fmap_cons. cbn [concat].
    change (concat (be_enc ws <$> ?w)) with (to_bytes ws w). rewrite IH.
    + assert (Ht : length (take ws bs) = ws) by (rewrite length_take; lia).
      rewrite <- Ht at 1. rewrite be_enc_dec by (by apply Forall_take). apply take_drop.
    + rewrite length_drop. lia.
    + by apply Forall_drop.
Qed.

Lemma to_words_take ws n k bs : (k <= n)%nat -> take k (to_words ws n bs) = to_words ws k bs.
Proof.
  revert n bs. induction k as [|k IH]; intros [|n] bs H; try done; [lia|]. cbn. by rewrite IH by lia.
Qed.

Lemma to_words_app ws n bs x : (ws * n <= length bs)%nat -> to_words ws n (bs ++ x) = to_words ws n bs.
Proof.
  revert bs. induction n as [|n IH]; intros bs H; [done|]. cbn [to_words].
  rewrite take_app_le by lia. rewrite drop_app_le by lia. rewrite IH; [done|]. rewrite length_drop. lia.
Qed.

Section array.
Context (ws NW : nat).

(** An array of [NW] words that holds the bytes [bs]. *)
Definition holds (w bs : list Z) : Prop := length w = NW /\ to_bytes ws w = bs.

Lemma holds_self w : length w = NW -> holds w (to_bytes ws w).
Proof. by split. Qed.

Lemma set_bytes_holds w bs off x :
  holds w bs -> 0 <= off -> (Z.to_nat off + length x <= length bs)%nat -> Forall byte x ->
  holds (set_bytes ws w off x) (splice bs (Z.to_nat off) x) /\
  set_bytes ws w off x = to_words ws NW (splice bs (Z.to_nat off) x).
Proof.
  intros [Hl <-] Ho Hx Hb. unfold set_bytes. rewrite Hl. split; [|done]. split; [apply to_words_length|].
  apply to_bytes_words.
  - rewrite splice_length by done. by rewrite to_bytes_length, Hl.
  - apply splice_Forall; [apply to_bytes_Forall | done].
Qed.

Lemma holds_length w bs : holds w bs -> length bs = (ws * NW)%nat.
Proof. intros [Hl <-]. by rewrite to_bytes_length, Hl. Qed.
End array.

(** ** The code implements the standard *)

Lemma be_enc_pad k v : 0 <= v < 2 ^ 64 -> be_enc (k + 8) v = replicate k 0 ++ be_enc 8 v.
Proof.
  intros Hv. induction k as [|k IH]; [done|]. cbn [Nat.add be_enc replicate app]. rewrite IH. f_equal.
  rewrite Z.div_small; [done|]. split; [lia|]. eapply Z.lt_le_trans; [apply Hv|].
  change (2 ^ 64) with (256 ^ 8). apply Z.pow_le_mono_r; lia.
Qed.

Section refine.
Context (ws NW : nat) (blk thr clr : Z) (ubits : Z -> Z).
Context (block : list Z -> list Z -> list Z * list Z) (compress : list Z -> list Z -> list Z).
Context (Ictx : list Z -> Prop).
Context (Hws : (4 <= ws <= 8)%nat) (HNW : (16 <= NW)%nat) (Hblk : blk = Z.of_nat (16 * ws)).
Context (Hthr : thr = blk - Z.of_nat (2 * ws)) (Hclr : blk - 8 <= clr <= blk).
Context (Hblock : forall w ctx, length w = NW -> Ictx ctx ->
  length (block w ctx).1 = NW /\ (block w ctx).2 = compress (take 16 w) ctx /\ Ictx (compress (take 16 w) ctx)).

(** A block whose bytes are at the start of the array. *)
Lemma block_holds w ctx b rest :
  holds ws NW w (b ++ rest) -> w = to_words ws NW (b ++ rest) -> length b = (16 * ws)%nat -> Ictx ctx ->
  exists w' , block w ctx = (w', compress (to_words ws 16 b) ctx) /\ length w' = NW /\
    Ictx (compress (to_words ws 16 b) ctx).
Proof.
  intros [Hl _] Hw Hb Hi. destruct (Hblock w ctx Hl Hi) as (H1 & H2 & H3).
  destruct (block w ctx) as [w' c'] eqn:E. cbn in *. subst c'. rewrite Hw, to_words_take, to_words_app in * by lia.
  by exists w'.
Qed.

Lemma md_loop_spec m data L msg offset ctx w bits fuel :
  bytes_at m (data + offset) msg -> Forall byte msg -> Z.of_nat (length msg) = L - offset ->
  0 <= offset <= L -> L < 2 ^ 32 -> length w = NW -> Ictx ctx -> bits = 8 * offset ->
  (forall x, 0 <= x <= 8 * L -> ubits x = x) -> (length msg < fuel)%nat ->
  exists k tl ctx' w', md_loop ws blk ubits block fuel m data L offset ctx w bits =
      Ok (L - Z.of_nat (length tl), ctx', w', 8 * (L - Z.of_nat (length tl))) /\
    bytes_at m (data + (L - Z.of_nat (length tl))) tl /\ Forall byte tl /\
    Z.of_nat (length msg) = Z.of_nat k * blk + Z.of_nat (length tl) /\ Z.of_nat (length tl) < blk /\
    length w' = NW /\ Ictx ctx' /\
    forall n x, absorb ws compress (k + n) ctx (msg ++ x) = absorb ws compress n ctx' (tl ++ x).
Proof.
  intros Hm Hby Hl Ho HL Hw Hi Hbits Hu. revert msg offset ctx w bits Hm Hby Hl Ho Hw Hi Hbits.
  induction fuel as [|fuel IH]; intros msg offset ctx w bits Hm Hby Hl Ho Hw Hi Hbits Hf; [lia|].
  cbn [md_loop]. rewrite u32_small by lia. destruct (Z.leb_spec blk (L - offset)) as [Hfull|Hlast].
  - assert (16 * ws <= length msg)%nat by lia. set (b := take (16 * ws) msg). set (msg' := drop (16 * ws) msg).
    assert (Eb : msg = b ++ msg') by (symmetry; apply take_drop).
    assert (Hbl : length b = (16 * ws)%nat) by (unfold b; rewrite length_take; lia).
    assert (Hml : length msg' = (length msg - 16 * ws)%nat) by (unfold msg'; by rewrite length_drop).
    rewrite Eb in Hm, Hby. apply bytes_at_app in Hm as [Hm1 Hm2]. apply Forall_app in Hby as [Hby1 Hby2].
    rewrite Hblk, Nat2Z.id, <- Hbl. rewrite (load_bytes_spec _ _ _ Hm1). res_simpl.
    destruct (set_bytes_holds ws NW w (to_bytes ws w) 0 b) as [Hh Hs]; [by apply holds_self | lia | |done|].
    { rewrite to_bytes_length, Hw, Hbl. cbn. nia. }
    unfold splice in Hh, Hs. change (Z.to_nat 0) with 0%nat in Hh, Hs. rewrite take_0 in Hh, Hs. cbn [app Nat.add] in Hh, Hs.
    destruct (block_holds _ _ _ _ Hh Hs Hbl Hi) as (w' & -> & Hw' & Hi').
    rewrite Hbl, <- Hblk. rewrite u32_small by lia. rewrite Hu by lia.
    destruct (IH msg' (offset + blk) (compress (to_words ws 16 b) ctx) w' (bits + blk * 8))
      as (k & tl & ctx' & w2 & -> & H1 & H2 & H3 & H4 & H5 & H6 & H7); try done; try lia.
    { replace (data + (offset + blk)) with (data + offset + Z.of_nat (length b)) by lia. done. }
    exists (S k), tl, ctx', w2. split_and!; try done; [lia|]. intros n x. rewrite <- H7.
    cbn [Nat.add absorb]. rewrite Eb, <- app_assoc, to_words_app by lia. do 2 f_equal.
    rewrite <- Hbl. by rewrite drop_app_length.
  - exists 0%nat, msg, ctx, w. rewrite Hl, Hbits. replace (L - (L - offset)) with offset by lia.
    split_and!; try done; lia.
Qed.

Lemma length_padding_last num :
  0 <= num < blk -> 
  let z := (- (num + 1 + Z.of_nat (2 * ws))) mod blk in
  z = (if thr <=? num then 2 * blk else blk) - (num + 1 + Z.of_nat (2 * ws)).
Proof.
  intros Hn. cbn zeta. destruct (Z.leb_spec thr num).
  - symmetry. apply (Z.mod_unique _ _ (-2)); lia.
  - symmetry. apply (Z.mod_unique _ _ (-1)); lia.
Qed.

(** The last one or two blocks. *)
Lemma last_blocks tl L :
  Z.of_nat (length tl) < blk -> 0 <= 8 * L < 2 ^ 64 -> L mod blk = Z.of_nat (length tl) ->
  tl ++ padding blk (2 * ws) L =
  if thr <=? Z.of_nat (length tl)
  then (tl ++ 0x80 :: replicate (Z.to_nat (blk - (Z.of_nat (length tl) + 1))) 0) ++
       (replicate (Z.to_nat (blk - 8)) 0 ++ be_enc 8 (8 * L))
  else (tl ++ 0x80 :: replicate (Z.to_nat (blk - 8 - (Z.of_nat (length tl) + 1))) 0) ++ be_enc 8 (8 * L).
Proof.
  intros Htl HL Hmod. unfold padding.
  assert (Ez : (- (L + 1 + Z.of_nat (2 * ws))) mod blk =
    (if thr <=? Z.of_nat (length tl) then 2 * blk else blk) - (Z.of_nat (length tl) + 1 + Z.of_nat (2 * ws))).
  { rewrite <- length_padding_last by lia. rewrite <- Hmod.
    rewrite (Z.div_mod L blk) at 1 by lia.
    replace (- (blk * (L / blk) + L mod blk + 1 + Z.of_nat (2 * ws)))
      with (- (L mod blk + 1 + Z.of_nat (2 * ws)) + (- (L / blk)) * blk) by lia.
    by rewrite Z.mod_add by lia. }
  rewrite Ez. replace (2 * ws)%nat with ((2 * ws - 8) + 8)%nat at 2 by lia. rewrite be_enc_pad by done.
  destruct (Z.leb_spec thr (Z.of_nat (length tl))); rewrite <- app_assoc; f_equal; cbn [app]; f_equal;
    rewrite ?app_assoc; f_equal; rewrite <- ?replicate_add; f_equal; lia.
Qed.

Lemma absorb_one n b x ctx :
  length b = (16 * ws)%nat ->
  absorb ws compress (S n) ctx (b ++ x) = absorb ws compress n (compress (to_words ws 16 b) ctx) x.
Proof.
  intros Hb. cbn [absorb]. rewrite to_words_app by lia. rewrite <- Hb. by rewrite drop_app_length.
Qed.

Lemma absorb_one' b ctx :
  length b = (16 * ws)%nat -> absorb ws compress 1 ctx b = compress (to_words ws 16 b) ctx.
Proof. intros Hb. pose proof (absorb_one 0 b [] ctx Hb) as E. by rewrite app_nil_r in E. Qed.

(** The array after the message's tail, the one bit and the zeros. *)
Lemma tail_holds w tl :
  length w = NW -> Forall byte tl -> Z.of_nat (length tl) < blk ->
  let num := Z.of_nat (length tl) in
  let w := set_bytes ws w 0 tl in
  let w := set_bytes ws w num [0x80] in
  let w := if 0 <? blk - (num + 1)
           then set_bytes ws w (num + 1) (replicate (Z.to_nat (blk - (num + 1))) 0) else w in
  exists rest, length rest = (ws * NW - 16 * ws)%nat /\
    holds ws NW w ((tl ++ 0x80 :: replicate (Z.to_nat (blk - (num + 1))) 0) ++ rest) /\
    w = to_words ws NW ((tl ++ 0x80 :: replicate (Z.to_nat (blk - (num + 1))) 0) ++ rest).
Proof.
  intros Hw Hb Hl num w1 w2 w3. set (old := to_bytes ws w).
  assert (Ho : length old = (ws * NW)%nat) by (unfold old; by rewrite to_bytes_length, Hw).
  assert (16 * ws <= ws * NW)%nat by nia.
  destruct (set_bytes_holds ws NW w old 0 tl) as [H1 _]; [by apply holds_self | lia | |done|].
  { change (Z.to_nat 0) with 0%nat. lia. }
  change (Z.to_nat 0) with 0%nat in H1. unfold splice in H1. rewrite take_0 in H1. cbn [app Nat.add] in H1.
  fold w1 in H1. set (r1 := drop (length tl) old) in *.
  assert (Hr1 : length r1 = (ws * NW - length tl)%nat) by (unfold r1; rewrite length_drop; lia).
  destruct (set_bytes_holds ws NW w1 (tl ++ r1) num [0x80] H1) as [H2 E2]; [lia | | by repeat constructor|].
  { rewrite length_app. cbn [length]. unfold num. lia. }
  fold w2 in H2, E2. unfold num in H2, E2. rewrite Nat2Z.id, splice_next in H2, E2 by (cbn [length]; lia). cbn [length] in H2, E2.
  set (r2 := drop 1 r1) in *. assert (Hr2 : length r2 = (ws * NW - length tl - 1)%nat) by (unfold r2; rewrite length_drop; lia).
  unfold w3. destruct (Z.ltb_spec 0 (blk - (num + 1))).
  - set (z := replicate (Z.to_nat (blk - (num + 1))) 0) in *.
    assert (Hz : length z = (16 * ws - length tl - 1)%nat) by (unfold z, num in *; rewrite length_replicate; lia).
    destruct (set_bytes_holds ws NW w2 ((tl ++ [0x80]) ++ r2) (num + 1) z H2) as [H3 E3].
    { lia. } { rewrite !length_app. cbn [length]. unfold num in *. lia. } { apply Forall_replicate. done. }
    replace (Z.to_nat (num + 1)) with (length (tl ++ [0x80])) in H3, E3
      by (rewrite length_app; cbn [length]; unfold num; lia).
    rewrite splice_next in H3, E3 by lia.
    exists (drop (length z) r2). split; [rewrite length_drop; lia|].
    replace (tl ++ 0x80 :: z) with ((tl ++ [0x80]) ++ z) by (by rewrite <- app_assoc). by split.
  - replace (Z.to_nat (blk - (num + 1))) with 0%nat by lia. cbn [replicate].
    exists r2. split; [unfold num in *; lia|]. by split.
Qed.

(** The length written over the last eight bytes of the block. *)
Lemma length_holds w b c rest v :
  holds ws NW w ((b ++ c) ++ rest) -> length (b ++ c) = (16 * ws)%nat -> length c = 8%nat ->
  let w' := set_bytes ws w (blk - 8) (be_enc 8 v) in
  holds ws NW w' ((b ++ be_enc 8 v) ++ rest) /\ w' = to_words ws NW ((b ++ be_enc 8 v) ++ rest).
Proof.
  intros H Hb Hc w'. rewrite length_app in Hb. rewrite <- app_assoc in H.
  destruct (set_bytes_holds ws NW w (b ++ c ++ rest) (blk - 8) (be_enc 8 v) H) as [H1 E1].
  { lia. } { rewrite be_enc_length, !length_app. lia. } { apply be_enc_bytes. }
  replace (Z.to_nat (blk - 8)) with (length b) in H1, E1 by lia.
  rewrite splice_next in H1, E1 by (rewrite be_enc_length, length_app; lia).
  assert (Ed : drop 8 (c ++ rest) = rest) by (rewrite <- Hc; apply drop_app_length).
  rewrite be_enc_length, Ed in H1, E1. by split.
Qed.

Lemma md_do_spec m data L msg ctx w :
  bytes_at m data msg -> Forall byte msg -> Z.of_nat (length msg) = L -> L < 2 ^ 32 ->
  length w = NW -> Ictx ctx -> (forall x, 0 <= x <= 8 * L -> ubits x = x) ->
  md_do ws blk thr clr ubits block m ctx data L w = Ok (fips_hash ws compress ctx msg).
Proof.
  intros Hm Hb HL HL32 Hw Hi Hu.
  destruct (md_loop_spec m data L msg 0 ctx w 0 (S (Z.to_nat L))) as
    (k & tl & ctx1 & w1 & E & Ht & Htb & Hk & Htl & Hw1 & Hi1 & Ha); try done; try lia.
  { by rewrite Z.add_0_r. }
  unfold md_do. rewrite E. res_simpl. clear E. set (num := Z.of_nat (length tl)) in *.
  replace (L - (L - num)) with num by lia. rewrite u32_small, u16_small by lia.
  rewrite Z.shiftl_mul_pow2 by lia. replace (8 * (L - num) + num * 2 ^ 3) with (8 * L) by lia.
  rewrite Hu by lia. replace (Z.to_nat num) with (length tl) by (unfold num; lia). rewrite (load_bytes_spec _ _ _ Ht). res_simpl.
  pose proof (tail_holds w1 tl Hw1 Htb Htl) as Htail. cbv zeta in Htail. fold num in Htail.
  set (w2 := if 0 <? blk - (num + 1) then _ else _) in *. clearbody w2.
  destruct Htail as (rest & Hr & Hh & Es). rewrite u64_small by lia.
  assert (HmodL : L mod blk = num).
  { symmetry. apply (Z.mod_unique _ _ (Z.of_nat k)); lia. }
  pose proof (last_blocks tl L Htl ltac:(lia) HmodL) as Hlast. fold num in Hlast.
  unfold fips_hash. rewrite HL, <- Hblk. cbv zeta.
  assert (Hlen : length (msg ++ padding blk (2 * ws) L) = (k * (16 * ws) + length (tl ++ padding blk (2 * ws) L))%nat).
  { rewrite !length_app. lia. }
  assert (HlT : length (tl ++ 0x80 :: replicate (Z.to_nat (blk - (num + 1))) 0) = (16 * ws)%nat).
  { rewrite length_app. cbn [length]. rewrite length_replicate. unfold num in *. lia. }
  destruct (Z.leb_spec thr num).
  - (* two blocks *)
    destruct (block_holds w2 ctx1 _ rest Hh Es HlT Hi1) as (w3 & -> & Hw3 & Hi3).
    set (c1 := compress _ ctx1) in *.
    assert (Hold : length (to_bytes ws w3) = (ws * NW)%nat) by (by rewrite to_bytes_length, Hw3).
    destruct (set_bytes_holds ws NW w3 (to_bytes ws w3) 0 (replicate (Z.to_nat clr) 0)) as [H4 _];
      [by apply holds_self | lia | | by apply Forall_replicate |].
    { change (Z.to_nat 0) with 0%nat. rewrite length_replicate, Hold. nia. }
    change (Z.to_nat 0) with 0%nat in H4. unfold splice in H4. rewrite take_0, length_replicate in H4.
    cbn [app Nat.add] in H4. set (w4 := set_bytes ws w3 0 _) in *. set (r4 := drop _ _) in H4.
    assert (Hr4 : length r4 = (ws * NW - Z.to_nat clr)%nat) by (unfold r4; rewrite length_drop; lia).
    assert (exists c r, replicate (Z.to_nat clr) 0 ++ r4 = (replicate (Z.to_nat (blk - 8)) 0 ++ c) ++ r /\ length c = 8%nat)
      as (c & r & Ec & Hc).
    { exists (take 8 (replicate (Z.to_nat (clr - (blk - 8))) 0 ++ r4)), (drop 8 (replicate (Z.to_nat (clr - (blk - 8))) 0 ++ r4)).
      split.
      - rewrite <- app_assoc, take_drop, app_assoc, <- replicate_add. do 2 f_equal. lia.
      - rewrite length_take, length_app, length_replicate, Hr4. nia. }
    rewrite Ec in H4. destruct (length_holds w4 _ c r (8 * L) H4) as [H5 E5]; [rewrite length_app, length_replicate; lia | done|].
    destruct (block_holds _ c1 _ r H5 E5) as (w5 & -> & _); [rewrite length_app, length_replicate, be_enc_length; lia | done|].
    rewrite Hlen, Hlast, length_app, HlT.
    replace (length (replicate _ _ ++ be_enc 8 (8 * L))) with (16 * ws)%nat
      by (rewrite length_app, length_replicate, be_enc_length; lia).
    replace (k * (16 * ws) + (16 * ws + 16 * ws))%nat with ((k + 2) * (16 * ws))%nat by lia.
    rewrite Nat.div_mul by lia. rewrite Ha, Hlast, absorb_one by done. rewrite absorb_one' by
      (rewrite length_app, length_replicate, be_enc_length; lia). done.
  - (* one block *)
    set (b := tl ++ 0x80 :: replicate (Z.to_nat (blk - 8 - (num + 1))) 0) in *.
    assert (Hlb : length b = (16 * ws - 8)%nat).
    { unfold b. rewrite length_app. cbn [length]. rewrite length_replicate. unfold num in *. lia. }
    assert (Eb : tl ++ 0x80 :: replicate (Z.to_nat (blk - (num + 1))) 0 = b ++ replicate 8 0).
    { unfold b. rewrite <- app_assoc. cbn [app]. rewrite <- replicate_add. do 3 f_equal. unfold num in *. lia. }
    rewrite Eb in Hh. destruct (length_holds w2 b (replicate 8 0) rest (8 * L) Hh) as [H5 E5];
      [rewrite length_app, length_replicate; lia | done|].
    destruct (block_holds _ ctx1 _ rest H5 E5) as (w5 & -> & _); [rewrite length_app, be_enc_length; lia | done|].
    rewrite Hlen, Hlast, length_app, Hlb, be_enc_length.
    replace (k * (16 * ws) + (16 * ws - 8 + 8))%nat with ((k + 1) * (16 * ws))%nat by lia.
    rewrite Nat.div_mul by lia. rewrite Ha, Hlast. rewrite absorb_one' by (rewrite length_app, be_enc_length; lia). done.
Qed.

Lemma absorb_ctx n ctx bs : Ictx ctx -> Ictx (absorb ws compress n ctx bs).
Proof.
  revert ctx bs. induction n as [|n IH]; intros ctx bs Hi; [done|]. cbn [absorb]. apply IH.
  rewrite <- (to_words_take ws NW) by done. apply Hblock; [apply to_words_length | done].
Qed.

Lemma fips_hash_ctx iv msg : Ictx iv -> Ictx (fips_hash ws compress iv msg).
Proof. apply absorb_ctx. Qed.
End refine.

(** ** The message schedule and the rounds *)

Section loops.
(** [for (; t < t + n; t++) w[t] = g(w, t)] *)
Context (g : list Z -> nat -> Z).

Fixpoint sched_loop (n t : nat) (w : list Z) : list Z :=
  match n with O => w | S n' => sched_loop n' (S t) (<[t := g w t]> w) end.

(** The schedule of the standard: each word from those before it. *)
Fixpoint schedule (n : nat) (W : list Z) : list Z :=
  match n with O => W | S n' => schedule n' (W ++ [g W (length W)]) end.

(** [for (; t < t + n; t++) st = step(t, w[t], st)] *)
Context {S : Type}.

Fixpoint rounds_loop (step : nat -> Z -> S -> S) (n t : nat) (w : list Z) (st : S) : S :=
  match n with O => st | Datatypes.S n' => rounds_loop step n' (Datatypes.S t) w (step t (nth t w 0) st) end.

Lemma sched_loop_length n t w : length (sched_loop n t w) = length w.
Proof. revert t w. induction n as [|n IH]; intros t w; cbn; [done|]. by rewrite IH, length_insert. Qed.

Lemma sched_loop_spec n t w :
  (forall w w' t, (16 <= t)%nat -> take t w = take t w' -> g w t = g w' t) ->
  (16 <= t)%nat -> (t + n <= length w)%nat -> take (t + n) (sched_loop n t w) = schedule n (take t w).
Proof.
  intros Hg. revert t w. induction n as [|n IH]; intros t w Ht Hl; cbn [sched_loop schedule]; [by rewrite Nat.add_0_r|].
  replace (t + Datatypes.S n)%nat with (Datatypes.S t + n)%nat by lia. rewrite IH by (rewrite ?length_insert; lia).
  f_equal. rewrite (take_S_r _ t (g w t)).
  - rewrite take_insert_ge by lia. do 2 f_equal. rewrite length_take_le by lia.
    rewrite (Hg w (take t w)); [done | done|]. rewrite take_take. f_equal. lia.
  - apply list_lookup_insert_eq. lia.
Qed.

(** Rounds over the words in turn, with their indices. *)
Definition rounds (step : nat -> Z -> S -> S) (W : list Z) (st : S) : S :=
  foldl (fun st tw => step tw.1 tw.2 st) st (zip (seq 0 (length W)) W).

Lemma rounds_loop_spec (step step' : nat -> Z -> S -> S) (I : S -> Prop) W st :
  (forall t x st, I st -> step t x st = step' t x st /\ I (step' t x st)) -> I st ->
  rounds_loop step (length W) 0 W st = rounds step' W st /\ I (rounds step' W st).
Proof.
  intros Hs Hi. unfold rounds.
  assert (G : forall W1 pre st, I st ->
    rounds_loop step (length W1) (length pre) (pre ++ W1) st =
      foldl (fun st tw => step' tw.1 tw.2 st) st (zip (seq (length pre) (length W1)) W1) /\
    I (foldl (fun st tw => step' tw.1 tw.2 st) st (zip (seq (length pre) (length W1)) W1))).
  { clear st Hi. intros W1. induction W1 as [|x W1 IH]; intros pre st Hi; [done|].
    cbn [length rounds_loop seq zip zip_with foldl fst snd]. rewrite nth_middle.
    destruct (Hs (length pre) x st Hi) as [-> Hi']. specialize (IH (pre ++ [x]) _ Hi').
    rewrite length_app in IH. cbn [length] in IH. rewrite <- app_assoc in IH. cbn [app] in IH.
    replace (length pre + 1)%nat with (Datatypes.S (length pre)) in IH by lia. exact IH. }
  apply (G W [] st Hi).
Qed.
End loops.

Lemma nth_take_lt (w w' : list Z) t k :
  take t w = take t w' -> (k < t)%nat -> nth k w 0 = nth k w' 0.
Proof.
  intros E Hk. rewrite !nth_lookup. by rewrite <- (lookup_take_lt w t k Hk), E, lookup_take_lt by done.
Qed.

(** ** Logical functions: "or" and "exclusive or" forms *)

Lemma ones_high n k : 0 <= n -> n <= k -> Z.testbit (Z.ones n) k = false.
Proof. intros. apply Z.ones_spec_high. lia. Qed.

Lemma small_high x n k : 0 <= x < 2 ^ n -> n <= k -> Z.testbit x k = false.
Proof.
  intros Hx Hk. destruct (Z.lt_ge_cases n 0); [rewrite Z.pow_neg_r in Hx by done; lia|].
  rewrite <- (Z.mod_small x (2 ^ n)) by done. apply Z.mod_pow2_bits_high. lia.
Qed.

Lemma ch_or n x y z : 0 <= n -> 0 <= x < 2 ^ n ->
  Z.lor (Z.land x y) (Z.land (Z.lxor x (Z.ones n)) z) = Z.lxor (Z.land x y) (Z.land (Z.lxor x (Z.ones n)) z).
Proof.
  intros Hn Hx. apply Z.bits_inj'. intros k Hk. rewrite Z.lor_spec, !Z.lxor_spec, !Z.land_spec, Z.lxor_spec.
  destruct (Z.lt_ge_cases k n).
  - rewrite Z.ones_spec_low by lia. by destruct (Z.testbit x k), (Z.testbit y k), (Z.testbit z k).
  - rewrite (small_high x n) by done. cbn. by destruct (Z.testbit (Z.ones n) k), (Z.testbit z k).
Qed.

Lemma maj_or x y z :
  Z.lor (Z.lor (Z.land x y) (Z.land x z)) (Z.land y z) = Z.lxor (Z.lxor (Z.land x y) (Z.land x z)) (Z.land y z).
Proof.
  apply Z.bits_inj'. intros k Hk. rewrite !Z.lor_spec, !Z.lxor_spec, !Z.land_spec.
  by destruct (Z.testbit x k), (Z.testbit y k), (Z.testbit z k).
Qed.
