(* ===== verification/Sha1.v ===== *)
(** * lib/libtpm/sha.c: SHA-1

    The code, the definition of FIPS 180-4 (4.1.1, 4.2.1, 5.3.1 and 6.1.2), and
    their equivalence for every message sha1 can be given. *)

From Stdlib Require Import ZArith Lia.
From stdpp Require Import base list gmap option numbers.
From S2P Require Import Prelude CMem Sha.

(** ** The code *)

(** rotlwi *)
Definition rol (val n : Z) : Z := ROTL 32 val n.

Definition sha_ko : list Z := [0x5A827999; 0x6ED9EBA1; 0x8F1BBCDC; 0xCA62C1D6].

Definition sha1_w (w : list Z) (i : nat) : Z :=
  let tmp := Z.lxor (Z.lxor (Z.lxor (nth (i - 3) w 0) (nth (i - 8) w 0)) (nth (i - 14) w 0)) (nth (i - 16) w 0) in
  rol tmp 1.

Record sha1_state := Sha1State { sa : Z; sb : Z; sc : Z; sd : Z; se : Z }.

Definition sha1_round (i : nat) (wi : Z) (s : sha1_state) : sha1_state :=
  let '(Sha1State a b c d e) := s in
  let '(f, idx) :=
    if (i <=? 19)%nat then (Z.lor (Z.land b c) (Z.land (Z.lxor b 0xFFFFFFFF) d), 0%nat)
    else if (i <=? 39)%nat then (Z.lxor (Z.lxor b c) d, 1%nat)
    else if (i <=? 59)%nat then (Z.lor (Z.lor (Z.land b c) (Z.land b d)) (Z.land c d), 2%nat)
    else (Z.lxor (Z.lxor b c) d, 3%nat) in
  let tmp := u32 (rol a 5 + f + e + nth idx sha_ko 0 + wi) in
  Sha1State tmp a (rol b 30) c d.

Definition sha1_block (w ctx : list Z) : list Z * list Z :=
  let w := sched_loop sha1_w 64 16 w in
  let h i := nth i ctx 0 in
  let s := rounds_loop sha1_round 80 0 w (Sha1State (h 0%nat) (h 1%nat) (h 2%nat) (h 3%nat) (h 4%nat)) in
  (w, [u32 (h 0%nat + sa s); u32 (h 1%nat + sb s); u32 (h 2%nat + sc s); u32 (h 3%nat + sd s); u32 (h 4%nat + se s)]).

Definition sha1_do : mem -> list Z -> Z -> Z -> list Z -> res (list Z) := md_do 4 64 56 60 u64 sha1_block.

Definition sha1_iv : list Z := [0x67452301; 0xEFCDAB89; 0x98BADCFE; 0x10325476; 0xC3D2E1F0].

(** [w] is what the uninitialised array of 80 words holds. *)
Definition sha1 (m : mem) (data length hash : Z) (w : list Z) : res mem :=
  ctx ← sha1_do m sha1_iv data length w;
  store_bytes m hash (take 20 (to_bytes 4 ctx)).

(** ** FIPS 180-4 *)

Definition fips1_f (t : nat) (x y z : Z) : Z :=
  if (t <? 20)%nat then Z.lxor (Z.land x y) (Z.land (Z.lxor x (Z.ones 32)) z)   (* Ch *)
  else if (t <? 40)%nat then Z.lxor (Z.lxor x y) z                              (* Parity *)
  else if (t <? 60)%nat then Z.lxor (Z.lxor (Z.land x y) (Z.land x z)) (Z.land y z) (* Maj *)
  else Z.lxor (Z.lxor x y) z.

Definition fips1_K (t : nat) : Z :=
  if (t <? 20)%nat then 0x5A827999 else if (t <? 40)%nat then 0x6ED9EBA1
  else if (t <? 60)%nat then 0x8F1BBCDC else 0xCA62C1D6.

Definition fips1_W (W : list Z) (t : nat) : Z :=
  ROTL 32 (Z.lxor (Z.lxor (Z.lxor (nth (t - 3) W 0) (nth (t - 8) W 0)) (nth (t - 14) W 0)) (nth (t - 16) W 0)) 1.

Definition fips1_round (t : nat) (Wt : Z) (s : sha1_state) : sha1_state :=
  let '(Sha1State a b c d e) := s in
  let T := u32 (ROTL 32 a 5 + fips1_f t b c d + e + fips1_K t + Wt) in
  Sha1State T a (ROTL 32 b 30) c d.

Definition fips1_compress (M H : list Z) : list Z :=
  let h i := nth i H 0 in
  let '(Sha1State a b c d e) :=
    rounds fips1_round (schedule fips1_W 64 M) (Sha1State (h 0%nat) (h 1%nat) (h 2%nat) (h 3%nat) (h 4%nat)) in
  [u32 (a + h 0%nat); u32 (b + h 1%nat); u32 (c + h 2%nat); u32 (d + h 3%nat); u32 (e + h 4%nat)].

Definition fips_sha1 (msg : list Z) : list Z := to_bytes 4 (fips_hash 4 fips1_compress sha1_iv msg).

(** ** Equivalence *)

Definition word32 (x : Z) : Prop := 0 <= x < 2 ^ 32.
Definition sha1_ctx (ctx : list Z) : Prop := length ctx = 5%nat /\ Forall word32 ctx.

Lemma sha1_round_eq t x s :
  word32 (sa s) /\ word32 (sb s) ->
  sha1_round t x s = fips1_round t x s /\ (word32 (sa (fips1_round t x s)) /\ word32 (sb (fips1_round t x s))).
Proof.
  destruct s as [a b c d e]. cbn [sa sb]. intros [Ha Hb]. split.
  - unfold sha1_round, fips1_round, fips1_f, fips1_K, rol. change 0xFFFFFFFF with (Z.ones 32).
    destruct (Nat.leb_spec t 19), (Nat.ltb_spec t 20); try lia; [by rewrite (ch_or 32)|].
    destruct (Nat.leb_spec t 39), (Nat.ltb_spec t 40); try lia; [done|].
    destruct (Nat.leb_spec t 59), (Nat.ltb_spec t 60); try lia; [by rewrite maj_or | done].
  - cbn. split; [apply u32_range | done].
Qed.

Lemma sha1_w_local w w' t : (16 <= t)%nat -> take t w = take t w' -> sha1_w w t = sha1_w w' t.
Proof. intros Ht E. unfold sha1_w. by rewrite !(nth_take_lt w w' t) by (done || lia). Qed.

Lemma nth_word32 ctx i : Forall word32 ctx -> word32 (nth i ctx 0).
Proof.
  intros H. rewrite nth_lookup. destruct (ctx !! i) as [x|] eqn:E; [|done].
  by apply (Forall_lookup_1 _ _ _ _ H E).
Qed.

Lemma sha1_block_spec w ctx :
  length w = 80%nat -> sha1_ctx ctx ->
  length (sha1_block w ctx).1 = 80%nat /\ (sha1_block w ctx).2 = fips1_compress (take 16 w) ctx /\
  sha1_ctx (fips1_compress (take 16 w) ctx).
Proof.
  intros Hw [Hl Hc]. unfold sha1_block, fips1_compress. cbn [fst snd].
  assert (Es : sched_loop sha1_w 64 16 w = schedule fips1_W 64 (take 16 w)).
  { change fips1_W with sha1_w. rewrite <- sched_loop_spec by (done || lia || apply sha1_w_local).
    rewrite take_ge; [done|]. rewrite sched_loop_length. lia. }
  assert (Hlw : length (sched_loop sha1_w 64 16 w) = 80%nat) by (by rewrite sched_loop_length).
  split; [done|]. rewrite <- Es. set (W := sched_loop sha1_w 64 16 w) in *. set (s0 := Sha1State _ _ _ _ _).
  destruct (rounds_loop_spec sha1_round fips1_round (fun s => word32 (sa s) /\ word32 (sb s)) W s0) as [Er _].
  { intros t x st Hst. by apply sha1_round_eq. }
  { split; by apply nth_word32. }
  rewrite Hlw in Er. rewrite Er. destruct (rounds fips1_round W s0) as [a b c d e]. cbn [sa sb sc sd se].
  split; [by rewrite (Z.add_comm a), (Z.add_comm b), (Z.add_comm c), (Z.add_comm d), (Z.add_comm e)|].
  split; [done|]. repeat (constructor; [apply u32_range|]). constructor.
Qed.

Lemma sha1_do_spec m data L msg w :
  bytes_at m data msg -> Forall byte msg -> Z.of_nat (length msg) = L -> L < 2 ^ 32 -> length w = 80%nat ->
  sha1_do m sha1_iv data L w = Ok (fips_hash 4 fips1_compress sha1_iv msg) /\
  sha1_ctx (fips_hash 4 fips1_compress sha1_iv msg).
Proof.
  intros Hm Hb HL HL32 Hw.
  assert (Hiv : sha1_ctx sha1_iv) by (split; [done|]; repeat (constructor; [unfold word32; lia|]); constructor).
  split; [|apply (fips_hash_ctx 4 80 sha1_block fips1_compress sha1_ctx); [lia | apply sha1_block_spec | done]].
  apply (md_do_spec 4 80 64 56 60 u64 sha1_block fips1_compress sha1_ctx); try done; try lia; try apply sha1_block_spec.
  intros x Hx. apply u64_small. lia.
Qed.

(** ** Properties *)

(** C34: sha1 computes the SHA-1 of FIPS 180-4 of every message below 4 GiB: it
    stores its 20 bytes at [hash], and nothing else, whatever the stack held. *)
Theorem sha1_fips m data msg hash w :
  bytes_at m data msg -> Forall byte msg -> Z.of_nat (length msg) < 2 ^ 32 ->
  mapped m hash 20 -> length w = 80%nat ->
  sha1 m data (Z.of_nat (length msg)) hash w = Ok (write_bytes m hash (fips_sha1 msg)).
Proof.
  intros Hm Hb HL Hh Hw. destruct (sha1_do_spec m data _ msg w Hm Hb eq_refl HL Hw) as [E [Hl _]].
  unfold sha1. rewrite E. res_simpl.
  assert (Hlen : length (to_bytes 4 (fips_hash 4 fips1_compress sha1_iv msg)) = 20%nat) by (by rewrite to_bytes_length, Hl).
  rewrite take_ge by lia. rewrite store_bytes_spec by (by rewrite Hlen).
  rewrite u8_fmap_bytes by apply to_bytes_Forall. done.
Qed.

Definition abc_mem : mem := write_bytes (write_bytes ∅ 100 [97; 98; 99]) 200 (replicate 64 0).

Lemma sha1_fips_witness :
  sha1 abc_mem 100 3 200 (replicate 80 7) = Ok (write_bytes abc_mem 200 (fips_sha1 [97; 98; 99])).
Proof.
  apply (sha1_fips abc_mem 100 [97; 98; 99] 200 (replicate 80 7)).
  - apply bytes_atb_spec. by vm_compute.
  - repeat constructor; lia.
  - done.
  - apply (mappedb_spec _ _ 20). by vm_compute.
  - done.
Defined.

(** The test vector of the standard, computed by the code. *)
Example sha1_abc :
  sha1 abc_mem 100 3 200 (replicate 80 7) =
  Ok (write_bytes abc_mem 200
        [0xA9; 0x99; 0x3E; 0x36; 0x47; 0x06; 0x81; 0x6A; 0xBA; 0x3E; 0x25; 0x71; 0x78; 0x50; 0xC2; 0x6C;
         0x9C; 0xD0; 0xD8; 0x9D]).
Proof. by vm_compute. Qed.
