(* ===== verification/Sha2.v ===== *)
(** * lib/libtpm/sha256.c and sha512.c: SHA-256, SHA-384 and SHA-512

    The two files have the same block function but for the word size, the
    constants and the logical functions, which are the parameters of
    [sha2_block]; the same holds of the standard's definition, FIPS 180-4
    (4.1.2, 4.1.3, 4.2.2, 4.2.3, 5.3.3 to 5.3.5, 6.2.2 and 6.4.2). *)

From Stdlib Require Import ZArith Lia.
From stdpp Require Import base list gmap option numbers.
From S2P Require Import Prelude CMem Sha.

Record sha2_state := Sha2State { va : Z; vb : Z; vc : Z; vd : Z; ve : Z; vf : Z; vg : Z; vh : Z }.

(** ** The code *)

Section sha2.
Context (wrap : Z -> Z) (R : nat) (Ch Maj : Z -> Z -> Z -> Z) (sum0 sum1 sigma0 sigma1 : Z -> Z).
Context (sha_ko : list Z).

Definition sha2_w (w : list Z) (t : nat) : Z :=
  wrap (sigma1 (nth (t - 2) w 0) + nth (t - 7) w 0 + sigma0 (nth (t - 15) w 0) + nth (t - 16) w 0).

Definition sha2_round (t : nat) (wt : Z) (s : sha2_state) : sha2_state :=
  let '(Sha2State a b c d e f g h) := s in
  let T1 := wrap (h + sum1 e + Ch e f g + nth t sha_ko 0 + wt) in
  let T2 := wrap (sum0 a + Maj a b c) in
  Sha2State (wrap (T1 + T2)) a b c (wrap (d + T1)) e f g.

Definition sha2_block (w ctx : list Z) : list Z * list Z :=
  let w := sched_loop sha2_w (R - 16) 16 w in
  let h i := nth i ctx 0 in
  let s := rounds_loop sha2_round R 0 w
    (Sha2State (h 0%nat) (h 1%nat) (h 2%nat) (h 3%nat) (h 4%nat) (h 5%nat) (h 6%nat) (h 7%nat)) in
  (w, [wrap (h 0%nat + va s); wrap (h 1%nat + vb s); wrap (h 2%nat + vc s); wrap (h 3%nat + vd s);
       wrap (h 4%nat + ve s); wrap (h 5%nat + vf s); wrap (h 6%nat + vg s); wrap (h 7%nat + vh s)]).
End sha2.

(** *** sha256.c *)

Module Sha256.
Definition rotr (val n : Z) : Z := ROTR 32 val n.
Definition Ch (x y z : Z) : Z := Z.lor (Z.land x y) (Z.land (Z.lxor x 0xFFFFFFFF) z).
Definition Maj (x y z : Z) : Z := Z.lor (Z.lor (Z.land x y) (Z.land x z)) (Z.land y z).
Definition sum0 (x : Z) : Z := Z.lxor (Z.lxor (rotr x 2) (rotr x 13)) (rotr x 22).
Definition sum1 (x : Z) : Z := Z.lxor (Z.lxor (rotr x 6) (rotr x 11)) (rotr x 25).
Definition sigma0 (x : Z) : Z := Z.lxor (Z.lxor (rotr x 7) (rotr x 18)) (Z.shiftr x 3).
Definition sigma1 (x : Z) : Z := Z.lxor (Z.lxor (rotr x 17) (rotr x 19)) (Z.shiftr x 10).
End Sha256.

Definition sha256_ko : list Z :=
  [0x428A2F98; 0x71374491; 0xB5C0FBCF; 0xE9B5DBA5; 0x3956C25B; 0x59F111F1; 0x923F82A4; 0xAB1C5ED5;
   0xD807AA98; 0x12835B01; 0x243185BE; 0x550C7DC3; 0x72BE5D74; 0x80DEB1FE; 0x9BDC06A7; 0xC19BF174;
   0xE49B69C1; 0xEFBE4786; 0x0FC19DC6; 0x240CA1CC; 0x2DE92C6F; 0x4A7484AA; 0x5CB0A9DC; 0x76F988DA;
   0x983E5152; 0xA831C66D; 0xB00327C8; 0xBF597FC7; 0xC6E00BF3; 0xD5A79147; 0x06CA6351; 0x14292967;
   0x27B70A85; 0x2E1B2138; 0x4D2C6DFC; 0x53380D13; 0x650A7354; 0x766A0ABB; 0x81C2C92E; 0x92722C85;
   0xA2BFE8A1; 0xA81A664B; 0xC24B8B70; 0xC76C51A3; 0xD192E819; 0xD6990624; 0xF40E3585; 0x106AA070;
   0x19A4C116; 0x1E376C08; 0x2748774C; 0x34B0BCB5; 0x391C0CB3; 0x4ED8AA4A; 0x5B9CCA4F; 0x682E6FF3;
   0x748F82EE; 0x78A5636F; 0x84C87814; 0x8CC70208; 0x90BEFFFA; 0xA4506CEB; 0xBEF9A3F7; 0xC67178F2].

Definition sha256_block : list Z -> list Z -> list Z * list Z :=
  sha2_block u32 64 Sha256.Ch Sha256.Maj Sha256.sum0 Sha256.sum1 Sha256.sigma0 Sha256.sigma1 sha256_ko.

(** The number of bits is a uint32_t. *)
Definition sha256_do : mem -> list Z -> Z -> Z -> list Z -> res (list Z) := md_do 4 64 56 60 u32 sha256_block.

Definition sha256_iv : list Z :=
  [0x6A09E667; 0xBB67AE85; 0x3C6EF372; 0xA54FF53A;
   0x510E527F; 0x9B05688C; 0x1F83D9AB; 0x5BE0CD19].

Definition sha256 (m : mem) (data length hash : Z) (w : list Z) : res mem :=
  ctx ← sha256_do m sha256_iv data length w;
  store_bytes m hash (take 32 (to_bytes 4 ctx)).

(** *** sha512.c *)

Module Sha512.
Definition rotr (val n : Z) : Z := ROTR 64 val n.
Definition Ch (x y z : Z) : Z := Z.lxor (Z.land x y) (Z.land (Z.lxor x 0xFFFFFFFFFFFFFFFF) z).
Definition Maj (x y z : Z) : Z := Z.lxor (Z.lxor (Z.land x y) (Z.land x z)) (Z.land y z).
Definition sum0 (x : Z) : Z := Z.lxor (Z.lxor (rotr x 28) (rotr x 34)) (rotr x 39).
Definition sum1 (x : Z) : Z := Z.lxor (Z.lxor (rotr x 14) (rotr x 18)) (rotr x 41).
Definition sigma0 (x : Z) : Z := Z.lxor (Z.lxor (rotr x 1) (rotr x 8)) (Z.shiftr x 7).
Definition sigma1 (x : Z) : Z := Z.lxor (Z.lxor (rotr x 19) (rotr x 61)) (Z.shiftr x 6).
End Sha512.

Definition sha512_ko : list Z :=
  [0x428A2F98D728AE22; 0x7137449123EF65CD; 0xB5C0FBCFEC4D3B2F; 0xE9B5DBA58189DBBC;
   0x3956C25BF348B538; 0x59F111F1B605D019; 0x923F82A4AF194F9B; 0xAB1C5ED5DA6D8118;
   0xD807AA98A3030242; 0x12835B0145706FBE; 0x243185BE4EE4B28C; 0x550C7DC3D5FFB4E2;
   0x72BE5D74F27B896F; 0x80DEB1FE3B1696B1; 0x9BDC06A725C71235; 0xC19BF174CF692694;
   0xE49B69C19EF14AD2; 0xEFBE4786384F25E3; 0x0FC19DC68B8CD5B5; 0x240CA1CC77AC9C65;
   0x2DE92C6F592B0275; 0x4A7484AA6EA6E483; 0x5CB0A9DCBD41FBD4; 0x76F988DA831153B5;
   0x983E5152EE66DFAB; 0xA831C66D2DB43210; 0xB00327C898FB213F; 0xBF597FC7BEEF0EE4;
   0xC6E00BF33DA88FC2; 0xD5A79147930AA725; 0x06CA6351E003826F; 0x142929670A0E6E70;
   0x27B70A8546D22FFC; 0x2E1B21385C26C926; 0x4D2C6DFC5AC42AED; 0x53380D139D95B3DF;
   0x650A73548BAF63DE; 0x766A0ABB3C77B2A8; 0x81C2C92E47EDAEE6; 0x92722C851482353B;
   0xA2BFE8A14CF10364; 0xA81A664BBC423001; 0xC24B8B70D0F89791; 0xC76C51A30654BE30;
   0xD192E819D6EF5218; 0xD69906245565A910; 0xF40E35855771202A; 0x106AA07032BBD1B8;
   0x19A4C116B8D2D0C8; 0x1E376C085141AB53; 0x2748774CDF8EEB99; 0x34B0BCB5E19B48A8;
   0x391C0CB3C5C95A63; 0x4ED8AA4AE3418ACB; 0x5B9CCA4F7763E373; 0x682E6FF3D6B2B8A3;
   0x748F82EE5DEFB2FC; 0x78A5636F43172F60; 0x84C87814A1F0AB72; 0x8CC702081A6439EC;
   0x90BEFFFA23631E28; 0xA4506CEBDE82BDE9; 0xBEF9A3F7B2C67915; 0xC67178F2E372532B;
   0xCA273ECEEA26619C; 0xD186B8C721C0C207; 0xEADA7DD6CDE0EB1E; 0xF57D4F7FEE6ED178;
   0x06F067AA72176FBA; 0x0A637DC5A2C898A6; 0x113F9804BEF90DAE; 0x1B710B35131C471B;
   0x28DB77F523047D84; 0x32CAAB7B40C72493; 0x3C9EBE0A15C9BEBC; 0x431D67C49C100D4C;
   0x4CC5D4BECB3E42B6; 0x597F299CFC657E2A; 0x5FCB6FAB3AD6FAEC; 0x6C44198C4A475817].

Definition sha512_block : list Z -> list Z -> list Z * list Z :=
  sha2_block u64 80 Sha512.Ch Sha512.Maj Sha512.sum0 Sha512.sum1 Sha512.sigma0 Sha512.sigma1 sha512_ko.

Definition sha512_do : mem -> list Z -> Z -> Z -> list Z -> res (list Z) := md_do 8 128 112 128 u64 sha512_block.

Definition sha384_iv : list Z :=
  [0xCBBB9D5DC1059ED8; 0x629A292A367CD507; 0x9159015A3070DD17; 0x152FECD8F70E5939;
   0x67332667FFC00B31; 0x8EB44A8768581511; 0xDB0C2E0D64F98FA7; 0x47B5481DBEFA4FA4].

Definition sha512_iv : list Z :=
  [0x6A09E667F3BCC908; 0xBB67AE8584CAA73B; 0x3C6EF372FE94F82B; 0xA54FF53A5F1D36F1;
   0x510E527FADE682D1; 0x9B05688C2B3E6C1F; 0x1F83D9ABFB41BD6B; 0x5BE0CD19137E2179].

Definition sha384 (m : mem) (data length hash : Z) (w : list Z) : res mem :=
  ctx ← sha512_do m sha384_iv data length w;
  store_bytes m hash (take 48 (to_bytes 8 ctx)).

Definition sha512 (m : mem) (data length hash : Z) (w : list Z) : res mem :=
  ctx ← sha512_do m sha512_iv data length w;
  store_bytes m hash (take 64 (to_bytes 8 ctx)).

(** ** FIPS 180-4, for words of [n] bits *)

Section fips2.
Context (n : Z) (R : nat) (S0 S1 s0 s1 : Z -> Z) (K : list Z).

Definition fips2_Ch (x y z : Z) : Z := Z.lxor (Z.land x y) (Z.land (Z.lxor x (Z.ones n)) z).
Definition fips2_Maj (x y z : Z) : Z := Z.lxor (Z.lxor (Z.land x y) (Z.land x z)) (Z.land y z).
Definition addn (x y : Z) : Z := (x + y) mod 2 ^ n.

Definition fips2_W (W : list Z) (t : nat) : Z :=
  addn (addn (addn (s1 (nth (t - 2) W 0)) (nth (t - 7) W 0)) (s0 (nth (t - 15) W 0))) (nth (t - 16) W 0).

Definition fips2_round (t : nat) (Wt : Z) (s : sha2_state) : sha2_state :=
  let '(Sha2State a b c d e f g h) := s in
  let T1 := addn (addn (addn (addn h (S1 e)) (fips2_Ch e f g)) (nth t K 0)) Wt in
  let T2 := addn (S0 a) (fips2_Maj a b c) in
  Sha2State (addn T1 T2) a b c (addn d T1) e f g.

Definition fips2_compress (M H : list Z) : list Z :=
  let h i := nth i H 0 in
  let s := rounds fips2_round (schedule fips2_W (R - 16) M)
    (Sha2State (h 0%nat) (h 1%nat) (h 2%nat) (h 3%nat) (h 4%nat) (h 5%nat) (h 6%nat) (h 7%nat)) in
  [addn (va s) (h 0%nat); addn (vb s) (h 1%nat); addn (vc s) (h 2%nat); addn (vd s) (h 3%nat);
   addn (ve s) (h 4%nat); addn (vf s) (h 5%nat); addn (vg s) (h 6%nat); addn (vh s) (h 7%nat)].
End fips2.

(** Rotation amounts: FIPS 180-4, 4.1.2 and 4.1.3. *)
Definition Sig (n r1 r2 r3 x : Z) : Z := Z.lxor (Z.lxor (ROTR n x r1) (ROTR n x r2)) (ROTR n x r3).
Definition sig (n r1 r2 sh x : Z) : Z := Z.lxor (Z.lxor (ROTR n x r1) (ROTR n x r2)) (Z.shiftr x sh).

Definition fips256_compress : list Z -> list Z -> list Z :=
  fips2_compress 32 64 (Sig 32 2 13 22) (Sig 32 6 11 25) (sig 32 7 18 3) (sig 32 17 19 10) sha256_ko.
Definition fips512_compress : list Z -> list Z -> list Z :=
  fips2_compress 64 80 (Sig 64 28 34 39) (Sig 64 14 18 41) (sig 64 1 8 7) (sig 64 19 61 6) sha512_ko.

Definition fips_sha256 (msg : list Z) : list Z := to_bytes 4 (fips_hash 4 fips256_compress sha256_iv msg).
Definition fips_sha384 (msg : list Z) : list Z := take 48 (to_bytes 8 (fips_hash 8 fips512_compress sha384_iv msg)).
Definition fips_sha512 (msg : list Z) : list Z := to_bytes 8 (fips_hash 8 fips512_compress sha512_iv msg).

(** ** Equivalence *)

Section equiv.
Context (n : Z) (R : nat) (Ch Maj : Z -> Z -> Z -> Z) (sum0 sum1 sigma0 sigma1 : Z -> Z) (K : list Z).
Context (Hn : 0 <= n) (HR : (16 <= R)%nat).
Let wrap (x : Z) : Z := x mod 2 ^ n.
Let word (x : Z) : Prop := 0 <= x < 2 ^ n.
Context (HCh : forall x y z, word x -> Ch x y z = fips2_Ch n x y z).
Context (HMaj : forall x y z, Maj x y z = fips2_Maj x y z).

Definition sha2_ctx (ctx : list Z) : Prop := length ctx = 8%nat /\ Forall word ctx.

Lemma wrap_word x : word (wrap x).
Proof. apply Z.mod_pos_bound. lia. Qed.

Lemma addn_l x y : addn n (wrap x) y = wrap (x + y).
Proof. unfold addn, wrap. by rewrite Zplus_mod_idemp_l. Qed.

Lemma addn_r x y : addn n x (wrap y) = wrap (x + y).
Proof. unfold addn, wrap. by rewrite Zplus_mod_idemp_r. Qed.

Lemma sha2_round_eq t x s :
  word (ve s) /\ word (vf s) /\ word (vg s) ->
  sha2_round wrap Ch Maj sum0 sum1 K t x s = fips2_round n sum0 sum1 K t x s /\
  (word (ve (fips2_round n sum0 sum1 K t x s)) /\ word (vf (fips2_round n sum0 sum1 K t x s)) /\
   word (vg (fips2_round n sum0 sum1 K t x s))).
Proof.
  destruct s as [a b c d e f g h]. cbn [ve vf vg]. intros (He & Hf & Hg). split.
  - unfold sha2_round, fips2_round. rewrite HCh, HMaj by done.
    assert (ET : forall c k, addn n (addn n (addn n (addn n h (sum1 e)) c) k) x = wrap (h + sum1 e + c + k + x)).
    { intros c0 k0. change (addn n h (sum1 e)) with (wrap (h + sum1 e)). by rewrite !addn_l. }
    by rewrite ET.
  - cbn [fips2_round ve vf vg]. split; [apply wrap_word | done].
Qed.

Lemma sha2_w_eq w t : sha2_w wrap sigma0 sigma1 w t = fips2_W n sigma0 sigma1 w t.
Proof.
  unfold sha2_w, fips2_W. 
  change (addn n (sigma1 ?a) ?b) with (wrap (sigma1 a + b)). by rewrite !addn_l.
Qed.

Lemma fips2_W_local w w' t : (16 <= t)%nat -> take t w = take t w' -> fips2_W n sigma0 sigma1 w t = fips2_W n sigma0 sigma1 w' t.
Proof. intros Ht E. unfold fips2_W. by rewrite !(nth_take_lt w w' t) by (done || lia). Qed.

Lemma sched_ext k t w :
  sched_loop (sha2_w wrap sigma0 sigma1) k t w = sched_loop (fips2_W n sigma0 sigma1) k t w.
Proof. revert t w. induction k as [|k IH]; intros t w; [done|]. cbn [sched_loop]. by rewrite sha2_w_eq, IH. Qed.

Lemma nth_word ctx i : Forall word ctx -> word (nth i ctx 0).
Proof.
  intros H. rewrite nth_lookup. destruct (ctx !! i) as [x|] eqn:E; [by apply (Forall_lookup_1 _ _ _ _ H E)|].
  unfold word. cbn. pose proof (Z.pow_pos_nonneg 2 n). lia.
Qed.

Lemma sha2_block_spec w ctx :
  length w = R -> sha2_ctx ctx ->
  let r := sha2_block wrap R Ch Maj sum0 sum1 sigma0 sigma1 K w ctx in
  let c := fips2_compress n R sum0 sum1 sigma0 sigma1 K (take 16 w) ctx in
  length r.1 = R /\ r.2 = c /\ sha2_ctx c.
Proof.
  intros Hw [Hl Hc]. unfold sha2_block, fips2_compress. cbn [fst snd]. rewrite sched_ext.
  assert (Es : sched_loop (fips2_W n sigma0 sigma1) (R - 16) 16 w = schedule (fips2_W n sigma0 sigma1) (R - 16) (take 16 w)).
  { rewrite <- sched_loop_spec by (lia || apply fips2_W_local).
    rewrite take_ge; [done|]. rewrite sched_loop_length. lia. }
  assert (Hlw : length (sched_loop (fips2_W n sigma0 sigma1) (R - 16) 16 w) = R) by (by rewrite sched_loop_length).
  split; [done|]. rewrite <- Es. set (W := sched_loop _ _ 16 w) in *. set (st := Sha2State _ _ _ _ _ _ _ _).
  destruct (rounds_loop_spec (sha2_round wrap Ch Maj sum0 sum1 K) (fips2_round n sum0 sum1 K)
    (fun s => word (ve s) /\ word (vf s) /\ word (vg s)) W st) as [Er _].
  { intros t x s Hs. by apply sha2_round_eq. }
  { split_and!; by apply nth_word. }
  rewrite Hlw in Er. rewrite Er. set (s := rounds _ W st). split.
  - unfold addn, wrap. rewrite (Z.add_comm (va s)), (Z.add_comm (vb s)), (Z.add_comm (vc s)), (Z.add_comm (vd s)),
      (Z.add_comm (ve s)), (Z.add_comm (vf s)), (Z.add_comm (vg s)), (Z.add_comm (vh s)). done.
  - split; [done|]. repeat (constructor; [apply wrap_word|]). constructor.
Qed.
End equiv.

Lemma sha256_block_spec w ctx :
  length w = 64%nat -> sha2_ctx 32 ctx ->
  length (sha256_block w ctx).1 = 64%nat /\ (sha256_block w ctx).2 = fips256_compress (take 16 w) ctx /\
  sha2_ctx 32 (fips256_compress (take 16 w) ctx).
Proof.
  intros Hw Hc. apply (sha2_block_spec 32 64 Sha256.Ch Sha256.Maj); try done; try lia.
  - intros x y z Hx. unfold Sha256.Ch, fips2_Ch. change 0xFFFFFFFF with (Z.ones 32). by apply ch_or.
  - intros x y z. apply maj_or.
Qed.

Lemma sha512_block_spec w ctx :
  length w = 80%nat -> sha2_ctx 64 ctx ->
  length (sha512_block w ctx).1 = 80%nat /\ (sha512_block w ctx).2 = fips512_compress (take 16 w) ctx /\
  sha2_ctx 64 (fips512_compress (take 16 w) ctx).
Proof. intros Hw Hc. apply (sha2_block_spec 64 80 Sha512.Ch Sha512.Maj); done || lia. Qed.

(** A constant context. *)
Ltac words_ok := split; [done|]; repeat (constructor; [lia|]); constructor.

Lemma sha256_do_spec m data msg w :
  bytes_at m data msg -> Forall byte msg -> Z.of_nat (length msg) < 2 ^ 29 -> length w = 64%nat ->
  sha256_do m sha256_iv data (Z.of_nat (length msg)) w = Ok (fips_hash 4 fips256_compress sha256_iv msg) /\
  sha2_ctx 32 (fips_hash 4 fips256_compress sha256_iv msg).
Proof.
  intros Hm Hb HL Hw. assert (Hiv : sha2_ctx 32 sha256_iv) by words_ok.
  split; [|apply (fips_hash_ctx 4 64 sha256_block fips256_compress (sha2_ctx 32)); [lia | apply sha256_block_spec | done]].
  apply (md_do_spec 4 64 64 56 60 u32 sha256_block fips256_compress (sha2_ctx 32)); try done; try lia;
    try apply sha256_block_spec.
  intros x Hx. apply u32_small. lia.
Qed.

Lemma sha512_do_spec m data msg w iv :
  bytes_at m data msg -> Forall byte msg -> Z.of_nat (length msg) < 2 ^ 32 -> length w = 80%nat ->
  sha2_ctx 64 iv ->
  sha512_do m iv data (Z.of_nat (length msg)) w = Ok (fips_hash 8 fips512_compress iv msg) /\
  sha2_ctx 64 (fips_hash 8 fips512_compress iv msg).
Proof.
  intros Hm Hb HL Hw Hiv.
  split; [|apply (fips_hash_ctx 8 80 sha512_block fips512_compress (sha2_ctx 64)); [lia | apply sha512_block_spec | done]].
  apply (md_do_spec 8 80 128 112 128 u64 sha512_block fips512_compress (sha2_ctx 64)); try done; try lia;
    try apply sha512_block_spec.
  intros x Hx. apply u64_small. lia.
Qed.

(** ** Properties *)

(** C24: sha256 computes the SHA-256 of FIPS 180-4 of every message below 512 MiB,
    whatever the stack held. *)
Theorem sha256_fips m data msg hash w :
  bytes_at m data msg -> Forall byte msg -> Z.of_nat (length msg) < 2 ^ 29 ->
  mapped m hash 32 -> length w = 64%nat ->
  sha256 m data (Z.of_nat (length msg)) hash w = Ok (write_bytes m hash (fips_sha256 msg)).
Proof.
  intros Hm Hb HL Hh Hw. destruct (sha256_do_spec m data msg w Hm Hb HL Hw) as [E [Hl _]].
  unfold sha256. rewrite E. res_simpl. fold (fips_sha256 msg).
  assert (Hlen : length (fips_sha256 msg) = 32%nat) by (unfold fips_sha256; by rewrite to_bytes_length, Hl).
  rewrite take_ge by lia. rewrite store_bytes_spec by (by rewrite Hlen).
  by rewrite u8_fmap_bytes by apply to_bytes_Forall.
Qed.

(** C37: sha384 and sha512 compute the SHA-384 and SHA-512 of FIPS 180-4 of every
    message below 4 GiB, whatever the stack held. *)
Theorem sha512_fips m data msg hash w :
  bytes_at m data msg -> Forall byte msg -> Z.of_nat (length msg) < 2 ^ 32 ->
  mapped m hash 64 -> length w = 80%nat ->
  sha384 m data (Z.of_nat (length msg)) hash w = Ok (write_bytes m hash (fips_sha384 msg)) /\
  sha512 m data (Z.of_nat (length msg)) hash w = Ok (write_bytes m hash (fips_sha512 msg)).
Proof.
  intros Hm Hb HL Hh Hw.
  destruct (sha512_do_spec m data msg w sha384_iv Hm Hb HL Hw ltac:(words_ok)) as [E3 [Hl3 _]].
  destruct (sha512_do_spec m data msg w sha512_iv Hm Hb HL Hw ltac:(words_ok)) as [E5 [Hl5 _]].
  unfold sha384, sha512. rewrite E3, E5. res_simpl. fold (fips_sha384 msg) (fips_sha512 msg).
  assert (H3 : length (fips_sha384 msg) = 48%nat).
  { unfold fips_sha384. by rewrite length_take, to_bytes_length, Hl3. }
  assert (H5 : length (fips_sha512 msg) = 64%nat) by (unfold fips_sha512; by rewrite to_bytes_length, Hl5).
  rewrite (take_ge (fips_sha512 msg)) by lia. split.
  - rewrite store_bytes_spec by (rewrite H3; eapply mapped_sub; [exact Hh | lia | lia]).
    rewrite u8_fmap_bytes by (apply Forall_take, to_bytes_Forall). done.
  - rewrite store_bytes_spec by (by rewrite H5). by rewrite u8_fmap_bytes by apply to_bytes_Forall.
Qed.

Definition abc_mem : mem := write_bytes (write_bytes ∅ 100 [97; 98; 99]) 200 (replicate 64 0).

Lemma sha256_fips_witness :
  sha256 abc_mem 100 3 200 (replicate 64 7) = Ok (write_bytes abc_mem 200 (fips_sha256 [97; 98; 99])).
Proof.
  apply (sha256_fips abc_mem 100 [97; 98; 99] 200 (replicate 64 7)).
  - apply bytes_atb_spec. by vm_compute.
  - repeat constructor; lia.
  - done.
  - apply (mappedb_spec _ _ 32). by vm_compute.
  - done.
Defined.

Lemma sha512_fips_witness :
  sha384 abc_mem 100 3 200 (replicate 80 7) = Ok (write_bytes abc_mem 200 (fips_sha384 [97; 98; 99])) /\
  sha512 abc_mem 100 3 200 (replicate 80 7) = Ok (write_bytes abc_mem 200 (fips_sha512 [97; 98; 99])).
Proof.
  apply (sha512_fips abc_mem 100 [97; 98; 99] 200 (replicate 80 7)).
  - apply bytes_atb_spec. by vm_compute.
  - repeat constructor; lia.
  - done.
  - apply (mappedb_spec _ _ 64). by vm_compute.
  - done.
Defined.

(** The standard's test vectors for "abc", computed by the code. *)
Example sha256_abc :
  sha256 abc_mem 100 3 200 (replicate 64 7) =
  Ok (write_bytes abc_mem 200 (be_enc 32 0xBA7816BF8F01CFEA414140DE5DAE2223B00361A396177A9CB410FF61F20015AD)).
Proof. by vm_compute. Qed.

Example sha512_abc :
  sha512 abc_mem 100 3 200 (replicate 80 7) =
  Ok (write_bytes abc_mem 200
    (be_enc 64 0xDDAF35A193617ABACC417349AE20413112E6FA4E89A97EA20A9EEEE64B55D39A2192992A274FC1A836BA3C23A3FEEBBD454D4423643CE80E2A9AC94FA54CA49F)).
Proof. by vm_compute. Qed.

Example sha384_abc :
  sha384 abc_mem 100 3 200 (replicate 80 7) =
  Ok (write_bytes abc_mem 200
    (be_enc 48 0xCB00753F45A35E8BB5A03D699AC65007272C32AB0EDED1631A8B605A43FF5BED8086072BA1E7CC2358BAECA134C825A7)).
Proof. by vm_compute. Qed.
