(* ===== verification/Nvram.v ===== *)
(** * lib/libnvram/nvram.c: the partitions of the NVRAM

    The variant compiled with DISABLE_NVRAM, where the storage is the array
    [nvram] of this file; the variants for RTAS calls and for a mapped device
    differ in the accesses to the storage only.  The array and the state of the
    temporary buffer are a record passed through every function; NVRAM_LENGTH is
    a parameter.  A partition is a header of 16 bytes (type, checksum, length in
    units of 16 bytes, name) and its data.  The names are lists of the bytes
    before the NUL, and [None] for NULL. *)

From Stdlib Require Import ZArith Lia.
From stdpp Require Import base list gmap option numbers.
From S2P Require Import Prelude.

Definition PARTITION_HEADER_SIZE : Z := 16.

Record partition_t := Partition { addr : Z; len : Z }.

Record nvstate := NvState {
  nvram : list Z;
  nvram_buffer_locked : bool;
}.

Definition ALIGN16 (x : Z) : Z := Z.land (u32 (x + 15)) (u32 (Z.lnot 15)).

Section nvram.
Context (NVRAM_LENGTH : Z).

(** nvram_read_byte, _word, _dword and _qword, for [size] bytes. *)
Definition nvram_read (size : nat) (s : nvstate) (offset : Z) : Z :=
  let offset := u32 offset in
  if NVRAM_LENGTH - Z.of_nat size <? offset then 0
  else be_dec (take size (drop (Z.to_nat offset) (nvram s))).

Definition nvram_write (size : nat) (s : nvstate) (offset data : Z) : nvstate :=
  let offset := u32 offset in
  if NVRAM_LENGTH - Z.of_nat size <? offset then s
  else NvState (splice (nvram s) (Z.to_nat offset) (be_enc size data)) (nvram_buffer_locked s).

Definition nvram_read_byte := nvram_read 1.
Definition nvram_read_word := nvram_read 2.
Definition nvram_write_byte := nvram_write 1.
Definition nvram_write_word := nvram_write 2.
Definition nvram_write_dword := nvram_write 4.

(** [false] stands for NULL. *)
Definition get_nvram_buffer (s : nvstate) (len : Z) : bool * nvstate :=
  if NVRAM_LENGTH <? u32 len then (false, s)
  else if nvram_buffer_locked s then (false, s)
  else (true, NvState (nvram s) true).

Definition free_nvram_buffer (s : nvstate) : nvstate := NvState (nvram s) false.

Definition get_partition_type (s : nvstate) (offset : Z) : Z := nvram_read_byte s offset.
Definition get_partition_header_checksum (s : nvstate) (offset : Z) : Z := nvram_read_byte s (offset + 1).
Definition get_partition_len (s : nvstate) (offset : Z) : Z := nvram_read_word s (offset + 2).

Definition get_partition_name (s : nvstate) (offset : Z) : list Z :=
  (fun i => nvram_read_byte s (offset + 4 + i)) <$> seqZ 0 12.

Definition calc_partition_header_checksum (s : nvstate) (offset : Z) : Z :=
  let plainsum := foldl (fun sum i => u16 (sum + nvram_read_byte s (offset + i)))
                    (nvram_read_byte s offset) (seqZ 2 14) in
  u8 (Z.shiftr plainsum 8 + Z.land plainsum 0xff).

(** Every turn moves [walk] by at least 16. *)
Fixpoint used_loop (fuel : nat) (s : nvstate) (walk : Z) : res Z :=
  match fuel with
  | O => OutOfFuel
  | S fuel' =>
      if walk <? NVRAM_LENGTH then
        if (nvram_read_byte s walk =? 0) ||
           negb (get_partition_header_checksum s walk =? calc_partition_header_checksum s walk)
        then Ok walk
        else
          let len := get_partition_len s walk in
          if len =? 0 then Ok walk else used_loop fuel' s (u32 (walk + len * 16))
      else Ok walk
  end.

Definition walk_turns : nat := S (Z.to_nat NVRAM_LENGTH).

Definition calc_used_nvram_space (s : nvstate) : res Z := used_loop walk_turns s 0.

Fixpoint get_partition_loop (fuel : nat) (s : nvstate) (type : Z) (name : option (list Z)) (walk : Z)
    : res partition_t :=
  match fuel with
  | O => OutOfFuel
  | S fuel' =>
      if walk <? NVRAM_LENGTH then
        if negb (get_partition_header_checksum s walk =? calc_partition_header_checksum s walk)
        then Ok (Partition 0 (-1))
        else
          let len := get_partition_len s walk in
          if negb (type =? 0) && (len =? 0) then Ok (Partition 0 (-1))
          else if (negb (type =? u32 (-1)) && negb (type =? get_partition_type s walk)) ||
                  (match name with
                   | Some name => negb (strncmp_eq 12 (get_partition_name s walk) name)
                   | None => false
                   end)
          then get_partition_loop fuel' s type name (u32 (walk + len * 16))
          else Ok (Partition (u32 (walk + PARTITION_HEADER_SIZE)) (u32 (len * 16 - PARTITION_HEADER_SIZE)))
      else Ok (Partition 0 (-1))
  end.

Definition get_partition (s : nvstate) (type : Z) (name : option (list Z)) : res partition_t :=
  get_partition_loop walk_turns s (u32 type) name 0.

(** [name] is the Forth string's bytes. *)
Definition get_partition_fs (s : nvstate) (name : list Z) : res partition_t :=
  get_partition s (-1) (Some (upto_nul name)).

(** [n] bytes from [i] on set to 0. *)
Fixpoint erase_loop (n : nat) (s : nvstate) (i : Z) : nvstate :=
  match n with O => s | S n' => erase_loop n' (nvram_write_byte s i 0) (i + 1) end.

(** The arguments are converted to int. *)
Definition erase_nvram (s : nvstate) (offset len : Z) : nvstate :=
  erase_loop (Z.to_nat (s32 len)) s (s32 offset).

Definition wipe_nvram (s : nvstate) : nvstate := erase_nvram s 0 NVRAM_LENGTH.

Definition wipe_partition (s : nvstate) (partition : partition_t) (header_only : bool) : nvstate :=
  let pstart := s32 (addr partition - PARTITION_HEADER_SIZE) in
  let len := if header_only then PARTITION_HEADER_SIZE else s32 (PARTITION_HEADER_SIZE + len partition) in
  erase_nvram s pstart len.

(** The bytes of a list stored from [offset] on. *)
Fixpoint write_loop (s : nvstate) (offset : Z) (bs : list Z) : nvstate :=
  match bs with [] => s | b :: bs' => write_loop (nvram_write_byte s offset b) (offset + 1) bs' end.

(** [len] is unsigned. *)
Definition create_nvram_partition (s : nvstate) (type : Z) (name : list Z) (len : Z)
    : res (partition_t * nvstate) :=
  let len := u32 len in
  let plen := ALIGN16 (u32 (len + PARTITION_HEADER_SIZE)) in
  offset ← calc_used_nvram_space s;
  if u32 (NVRAM_LENGTH - offset) <? plen then Ok (Partition 0 0, s)
  else
    let s := nvram_write_byte s offset type in
    let s := nvram_write_word s (offset + 2) (plen / 16) in
    let s := write_loop s (offset + 4) name in
    let s := nvram_write_byte s (offset + 1) (calc_partition_header_checksum s offset) in
    Ok (Partition (u32 (offset + PARTITION_HEADER_SIZE)) len, s).

(** "free space" *)
Definition free_space_name : list Z := [102; 114; 101; 101; 32; 115; 112; 97; 99; 101].

Definition create_free_partition (s : nvstate) : res (bool * nvstate) :=
  used ← calc_used_nvram_space s;
  let free_space := s32 (NVRAM_LENGTH - used - PARTITION_HEADER_SIZE) in
  '(free_part, s) ← create_nvram_partition s 0x7f free_space_name free_space;
  Ok (negb (addr free_part =? 0), s).

(** [type] and [len] are ints. *)
Definition new_nvram_partition (s : nvstate) (type : Z) (name : list Z) (len' : Z)
    : res (partition_t * nvstate) :=
  free_part ← get_partition s 0x7f None;
  let s := if negb (len free_part =? 0) && negb (len free_part =? -1)
           then wipe_partition s free_part true else s in
  '(new_part, s) ← create_nvram_partition s type name len';
  let new_part := if negb (len new_part =? len') then Partition 0 0 else new_part in
  '(_, s) ← create_free_partition s;
  Ok (new_part, s).

Definition new_nvram_partition_fs (s : nvstate) (type : Z) (name : list Z) (len' : Z)
    : res (partition_t * nvstate) :=
  new_nvram_partition s type (upto_nul (take 12 name)) len'.

(** The bytes from [i] to the end, moved down by [by]. *)
Fixpoint move_loop (n : nat) (s : nvstate) (i by' : Z) : nvstate :=
  match n with
  | O => s
  | S n' => move_loop n' (nvram_write_byte s (i - by') (nvram_read_byte s i)) (i + 1) by'
  end.

Definition delete_nvram_partition (s : nvstate) (partition : partition_t) : res (Z * nvstate) :=
  if (len partition =? 0) || (len partition =? -1) then Ok (0, s) else
  let i := u32 (addr partition + len partition) in
  let s := move_loop (Z.to_nat (NVRAM_LENGTH - i)) s i (len partition + PARTITION_HEADER_SIZE) in
  let s := erase_nvram s (NVRAM_LENGTH - len partition - PARTITION_HEADER_SIZE)
             (len partition - PARTITION_HEADER_SIZE) in
  free_part ← get_partition s 0x7f None;
  let s := wipe_partition s free_part false in
  '(_, s) ← create_free_partition s;
  Ok (1, s).

Definition clear_nvram_partition (s : nvstate) (part : partition_t) : Z * nvstate :=
  if addr part =? 0 then (0, s) else (1, erase_nvram s (addr part) (len part)).

(** [n] bytes read from [i] on. *)
Definition read_loop (n : nat) (s : nvstate) (i : Z) : list Z :=
  (fun j => nvram_read_byte s (i + j)) <$> seqZ 0 (Z.of_nat n).

Definition increase_nvram_partition_size (s : nvstate) (partition : partition_t) (newsize : Z)
    : res (Z * nvstate) :=
  if newsize <? len partition then Ok (0, s) else
  free_part ← get_partition s 0x7f None;
  if (len free_part =? -1) || (len free_part <? newsize - len partition) then Ok (0, s) else
  let free_offset := s32 (addr free_part - PARTITION_HEADER_SIZE) in
  let end_offset := s32 (addr partition + len partition) in
  let finish (s : nvstate) : res (Z * nvstate) :=
    let s := erase_nvram s (addr partition + len partition) (newsize - len partition) in
    let s := nvram_write_word s (addr partition - 16 + 2) newsize in
    '(_, s) ← create_free_partition s;
    Ok (1, s) in
  if end_offset <? free_offset then
    let bufferlen := free_offset - end_offset in
    let '(overlap_buffer, s) := get_nvram_buffer s bufferlen in
    if negb overlap_buffer then Ok (0, s)
    else
      let bytes := read_loop (Z.to_nat bufferlen) s end_offset in
      let s := wipe_partition s free_part true in
      let s := write_loop s (s32 (addr partition + newsize)) bytes in
      finish (free_nvram_buffer s)
  else finish (wipe_partition s free_part true).

Definition init_cpulog_partition (s : nvstate) (cpulog : partition_t) : nvstate :=
  let offset := u32 (addr cpulog) in
  let s := nvram_write_word s (offset + 0) 0x40 in
  let s := nvram_write_word s (offset + 2) 0x00 in
  nvram_write_dword s (offset + 4) 0x01.

(** board-qemu/include/nvramlog.h *)
Definition LLFW_LOG_BE0_SIGNATURE : Z := 0x51.
Definition LLFW_LOG_BE0_LENGTH : Z := 0x200.
Definition LLFW_LOG_BE1_SIGNATURE : Z := 0x51.
Definition LLFW_LOG_BE1_LENGTH : Z := 0x80.

(** "ibm,CPU0log", "ibm,CPU1log" and "common" *)
Definition cpulog_name (n : Z) : list Z := [105; 98; 109; 44; 67; 80; 85; n; 108; 111; 103].
Definition common_name : list Z := [99; 111; 109; 109; 111; 110].

(** nvramlog_printf writes to the firmware's log, not to this array. *)
Definition reset_nvram (s : nvstate) : res nvstate :=
  let s := erase_nvram s 0 NVRAM_LENGTH in
  '(cpulog0, s) ← create_nvram_partition s LLFW_LOG_BE0_SIGNATURE (cpulog_name 48)
                    (LLFW_LOG_BE0_LENGTH * 16 - PARTITION_HEADER_SIZE);
  '(cpulog1, s) ← create_nvram_partition s LLFW_LOG_BE1_SIGNATURE (cpulog_name 49)
                    (LLFW_LOG_BE1_LENGTH * 16 - PARTITION_HEADER_SIZE);
  let s := init_cpulog_partition s cpulog0 in
  let s := init_cpulog_partition s cpulog1 in
  '(_, s) ← create_nvram_partition s 0x70 common_name (0x01000 - PARTITION_HEADER_SIZE);
  '(_, s) ← create_free_partition s;
  Ok s.

Definition get_nvram_size : Z := NVRAM_LENGTH.
End nvram.

(** ** The partition table *)

Record part := Part { ptype : Z; pname : list Z; plen : Z; pdata : list Z }.

Definition checksum (type : Z) (rest : list Z) : Z :=
  let sum := foldl (fun sum b => u16 (sum + b)) type rest in
  u8 (Z.shiftr sum 8 + Z.land sum 0xff).

Definition part_header (p : part) : list Z :=
  let rest := be_enc 2 (plen p) ++ pname p in
  ptype p :: checksum (ptype p) rest :: rest.

Definition part_bytes (p : part) : list Z := part_header p ++ pdata p.

Definition part_ok (p : part) : Prop :=
  0 < ptype p < 256 /\ length (pname p) = 12%nat /\ 0 < plen p < 65536 /\
  Z.of_nat (length (pdata p)) = 16 * plen p - 16.

Abbreviation parts_bytes ps := (concat (part_bytes <$> ps)).

(** Unpartitioned space: nothing, or something that starts with a zero header. *)
Definition blank (rest : list Z) : Prop := rest = [] \/ exists r, rest = replicate 16 0 ++ r.

(** The name a header is compared with. *)
Definition matches (p : part) (type : Z) (name : option (list Z)) : bool :=
  ((type =? u32 (-1)) || (type =? ptype p)) &&
  match name with Some n => strncmp_eq 12 (pname p) n | None => true end.

(** The partition found: the first that matches, from the offset [off] on. *)
Fixpoint find_part (off : Z) (ps : list part) (type : Z) (name : option (list Z)) : partition_t :=
  match ps with
  | [] => Partition 0 (-1)
  | p :: ps' =>
      if matches p type name then Partition (off + 16) (16 * plen p - 16)
      else find_part (off + 16 * plen p) ps' type name
  end.

Lemma part_header_length p : length (pname p) = 12%nat -> length (part_header p) = 16%nat.
Proof. intros H. unfold part_header. cbn [length]. by rewrite length_app, be_enc_length, H. Qed.

Lemma part_bytes_length p : part_ok p -> Z.of_nat (length (part_bytes p)) = 16 * plen p.
Proof.
  intros (_ & Hn & _ & Hd). unfold part_bytes. rewrite length_app, part_header_length by done. lia.
Qed.

Lemma nth_app_at pre bs post i : (i < length bs)%nat -> nth (length pre + i) (pre ++ bs ++ post) 0 = nth i bs 0.
Proof. intros H. rewrite app_nth2_plus. by apply app_nth1. Qed.

Section table.
Context (NVRAM_LENGTH : Z) (Hlen : 0 <= NVRAM_LENGTH < 2 ^ 31).

Lemma read_byte_nth s o :
  0 <= o < NVRAM_LENGTH -> Z.of_nat (length (nvram s)) = NVRAM_LENGTH ->
  nvram_read_byte NVRAM_LENGTH s o = nth (Z.to_nat o) (nvram s) 0.
Proof.
  intros Ho Hl. unfold nvram_read_byte, nvram_read. rewrite u32_small by lia.
  destruct (Z.ltb_spec (NVRAM_LENGTH - Z.of_nat 1) o); [lia|].
  destruct (lookup_lt_is_Some_2 (nvram s) (Z.to_nat o)) as [b Hb]; [lia|].
  rewrite (drop_S _ _ _ Hb), nth_lookup, Hb. done.
Qed.

Lemma read_word_nth s o :
  0 <= o -> o + 2 <= NVRAM_LENGTH -> Z.of_nat (length (nvram s)) = NVRAM_LENGTH ->
  nvram_read_word NVRAM_LENGTH s o = be_dec [nth (Z.to_nat o) (nvram s) 0; nth (S (Z.to_nat o)) (nvram s) 0].
Proof.
  intros Ho Ho2 Hl. unfold nvram_read_word, nvram_read. rewrite u32_small by lia.
  destruct (Z.ltb_spec (NVRAM_LENGTH - Z.of_nat 2) o); [lia|].
  destruct (lookup_lt_is_Some_2 (nvram s) (Z.to_nat o)) as [b Hb]; [lia|].
  destruct (lookup_lt_is_Some_2 (nvram s) (S (Z.to_nat o))) as [c Hc]; [lia|].
  rewrite (drop_S _ _ _ Hb), (drop_S _ _ _ Hc). by rewrite !nth_lookup, Hb, Hc.
Qed.

Context (s : nvstate) (Hs : Z.of_nat (length (nvram s)) = NVRAM_LENGTH).

(** What the readers of a header give, in terms of its 16 bytes. *)
Lemma header_reads pre hd post off :
  nvram s = pre ++ hd ++ post -> off = Z.of_nat (length pre) -> length hd = 16%nat ->
  nvram_read_byte NVRAM_LENGTH s off = nth 0 hd 0 /\
  get_partition_type NVRAM_LENGTH s off = nth 0 hd 0 /\
  get_partition_header_checksum NVRAM_LENGTH s off = nth 1 hd 0 /\
  get_partition_len NVRAM_LENGTH s off = be_dec (take 2 (drop 2 hd)) /\
  get_partition_name NVRAM_LENGTH s off = drop 4 hd /\
  calc_partition_header_checksum NVRAM_LENGTH s off = checksum (nth 0 hd 0) (drop 2 hd).
Proof.
  intros E -> Hh. assert (Hl : Z.of_nat (length pre) + 16 <= NVRAM_LENGTH).
  { rewrite <- Hs, E, !length_app. lia. }
  assert (R : forall i, 0 <= i < 16 -> nvram_read_byte NVRAM_LENGTH s (Z.of_nat (length pre) + i) = nth (Z.to_nat i) hd 0).
  { intros i Hi. rewrite read_byte_nth by (done || lia). rewrite E.
    replace (Z.to_nat (Z.of_nat (length pre) + i)) with (length pre + Z.to_nat i)%nat by lia.
    apply nth_app_at. lia. }
  assert (R0 : nvram_read_byte NVRAM_LENGTH s (Z.of_nat (length pre)) = nth 0 hd 0).
  { change (nth 0 hd 0) with (nth (Z.to_nat 0) hd 0). rewrite <- (R 0) by lia. by rewrite Z.add_0_r. }
  do 16 (destruct hd as [|? hd]; [done|]). destruct hd; [|done].
  split; [done|]. split; [done|]. split; [exact (R 1 ltac:(lia))|]. split; [|split].
  - unfold get_partition_len. rewrite read_word_nth by (done || lia). rewrite E.
    replace (Z.to_nat (Z.of_nat (length pre) + 2)) with (length pre + 2)%nat by lia.
    rewrite <- Nat.add_succ_r, !nth_app_at by (cbn; lia). done.
  - unfold get_partition_name. change (seqZ 0 12) with [0; 1; 2; 3; 4; 5; 6; 7; 8; 9; 10; 11].
    cbn [fmap list_fmap]. rewrite <- !Z.add_assoc. cbn [Z.add Pos.add Pos.succ]. by rewrite !R by lia.
  - unfold calc_partition_header_checksum. change (seqZ 2 14) with [2; 3; 4; 5; 6; 7; 8; 9; 10; 11; 12; 13; 14; 15].
    cbn [foldl]. rewrite R0, !R by lia. unfold checksum. cbn -[u16 u8 Z.shiftr Z.land Z.add]. reflexivity.
Qed.
End table.

Lemma part_header_fields p :
  part_ok p ->
  nth 0 (part_header p) 0 = ptype p /\ nth 1 (part_header p) 0 = checksum (ptype p) (drop 2 (part_header p)) /\
  be_dec (take 2 (drop 2 (part_header p))) = plen p /\ drop 4 (part_header p) = pname p.
Proof.
  intros (_ & _ & Hl & _). unfold part_header. set (rest := be_enc 2 (plen p) ++ pname p).
  change (drop 2 (ptype p :: checksum (ptype p) rest :: rest)) with rest.
  change (drop 4 (ptype p :: checksum (ptype p) rest :: rest)) with (drop 2 rest).
  split; [done|]. split; [done|]. unfold rest. split; [|done].
  change (take 2 (be_enc 2 (plen p) ++ pname p)) with (be_enc 2 (plen p)).
  rewrite be_dec_enc. apply Z.mod_small. change (256 ^ Z.of_nat 2) with 65536. lia.
Qed.

(** [s] holds the partitions [ps] and then [rest]. *)
Definition table (LEN : Z) (s : nvstate) (ps : list part) (rest : list Z) : Prop :=
  nvram s = parts_bytes ps ++ rest /\ Z.of_nat (length (nvram s)) = LEN /\ Forall part_ok ps /\ blank rest.

Section walk.
Context (LEN : Z) (HLEN : 0 <= LEN < 2 ^ 31) (s : nvstate) (Hs : Z.of_nat (length (nvram s)) = LEN).

(** The walk at a partition, and at the unpartitioned space. *)
Lemma walk_part pre p post :
  nvram s = pre ++ part_bytes p ++ post -> part_ok p ->
  let off := Z.of_nat (length pre) in
  off < LEN /\ (nvram_read_byte LEN s off =? 0) = false /\
  (get_partition_header_checksum LEN s off =? calc_partition_header_checksum LEN s off) = true /\
  get_partition_len LEN s off = plen p /\ get_partition_type LEN s off = ptype p /\
  get_partition_name LEN s off = pname p /\ u32 (off + plen p * 16) = Z.of_nat (length (pre ++ part_bytes p)).
Proof.
  intros E Hp off. pose proof Hp as (Ht & Hn & Hl & Hd). unfold part_bytes in E. rewrite <- app_assoc in E.
  destruct (header_reads LEN HLEN s Hs pre (part_header p) (pdata p ++ post) off E eq_refl (part_header_length p Hn))
    as (R1 & R2 & R3 & R4 & R5 & R6).
  destruct (part_header_fields p Hp) as (F1 & F2 & F3 & F4).
  assert (Htot : off + 16 * plen p <= LEN).
  { rewrite <- Hs, E, !length_app, part_header_length by done. unfold off. lia. }
  rewrite R1, R2, R3, R4, R5, R6, F1, F2, F3, F4. split; [lia|]. split; [apply Z.eqb_neq; lia|].
  split; [apply Z.eqb_refl|]. split_and!; try done. rewrite length_app, Nat2Z.inj_add, part_bytes_length by done.
  rewrite u32_small by (unfold off in *; lia). unfold off. lia.
Qed.

Lemma walk_blank pre rest :
  nvram s = pre ++ rest -> blank rest -> rest <> [] ->
  let off := Z.of_nat (length pre) in
  nvram_read_byte LEN s off = 0 /\ get_partition_len LEN s off = 0 /\
  (get_partition_header_checksum LEN s off =? calc_partition_header_checksum LEN s off) = true.
Proof.
  intros E [->|[r ->]] Hr off; [done|].
  destruct (header_reads LEN HLEN s Hs pre (replicate 16 0) r off E eq_refl eq_refl) as (R1 & R2 & R3 & R4 & R5 & R6).
  rewrite R1, R3, R4, R6. done.
Qed.

Lemma used_loop_spec ps pre rest fuel :
  nvram s = pre ++ parts_bytes ps ++ rest -> Forall part_ok ps -> blank rest -> (length ps < fuel)%nat ->
  used_loop LEN fuel s (Z.of_nat (length pre)) = Ok (Z.of_nat (length (pre ++ parts_bytes ps))).
Proof.
  revert pre fuel. induction ps as [|p ps IH]; intros pre [|fuel] E Hps Hr Hf; cbn [length] in Hf; try lia;
    cbn [used_loop].
  - rewrite fmap_nil in *. cbn [concat app] in *. rewrite app_nil_r.
    destruct (Z.ltb_spec (Z.of_nat (length pre)) LEN); [|done].
    destruct (walk_blank pre rest E Hr) as (-> & _); [|done].
    intros ->. rewrite app_nil_r in E. rewrite <- Hs, E in *. lia.
  - rewrite fmap_cons in *. cbn [concat] in *. rewrite <- app_assoc in E. pose proof (Forall_inv Hps) as Hp; pose proof (Forall_inv_tail Hps) as Hps'.
    destruct (walk_part pre p _ E Hp) as (W1 & W2 & W3 & W4 & _ & _ & W7).
    destruct (Z.ltb_spec (Z.of_nat (length pre)) LEN); [|lia]. rewrite W2, W3, W4. cbn [orb negb].
    destruct (Z.eqb_spec (plen p) 0) as [E0|]; [destruct Hp as (_ & _ & ? & _); lia|].
    rewrite W7, IH; [by rewrite app_assoc | by rewrite <- app_assoc | done | done | lia].
Qed.

Lemma get_partition_loop_spec ps pre rest fuel type name :
  nvram s = pre ++ parts_bytes ps ++ rest -> Forall part_ok ps -> blank rest -> (length ps < fuel)%nat ->
  0 < type < 2 ^ 32 ->
  get_partition_loop LEN fuel s type name (Z.of_nat (length pre)) =
  Ok (find_part (Z.of_nat (length pre)) ps type name).
Proof.
  intros E Hps Hr Hf Ht. revert pre fuel E Hf.
  induction ps as [|p ps IH]; intros pre [|fuel] E Hf; cbn [length] in Hf; try lia; cbn [get_partition_loop find_part].
  - rewrite fmap_nil in E. cbn [concat app] in E. destruct (Z.ltb_spec (Z.of_nat (length pre)) LEN); [|done].
    destruct (walk_blank pre rest E Hr) as (_ & -> & ->).
    { intros ->. rewrite app_nil_r in E. rewrite <- Hs, E in *. lia. }
    destruct (Z.eqb_spec type 0); [lia | done].
  - rewrite fmap_cons in E. cbn [concat] in E. rewrite <- app_assoc in E. pose proof (Forall_inv Hps) as Hp; pose proof (Forall_inv_tail Hps) as Hps'.
    destruct (walk_part pre p _ E Hp) as (W1 & _ & W3 & W4 & W5 & W6 & W7).
    destruct (Z.ltb_spec (Z.of_nat (length pre)) LEN); [|lia]. rewrite W3, W4, W5, W6. cbn [negb].
    pose proof Hp as (_ & _ & Hl & Hd).
    destruct (Z.eqb_spec (plen p) 0) as [E0|]; [lia|]. rewrite andb_false_r.
    assert (Em : (negb (type =? u32 (-1)) && negb (type =? ptype p)
      || match name with Some name => negb (strncmp_eq 12 (pname p) name) | None => false end) = negb (matches p type name)).
    { unfold matches. rewrite negb_andb, negb_orb. by destruct name. }
    rewrite Em. destruct (matches p type name); cbn [negb].
    + pose proof (part_bytes_length _ Hp) as Hlen. rewrite length_app, Nat2Z.inj_add, Hlen in W7.
      assert (Z.of_nat (length pre) + 16 * plen p <= LEN).
      { rewrite <- Hs, E, !length_app. lia. }
      unfold PARTITION_HEADER_SIZE. rewrite !u32_small by lia. do 2 f_equal; lia.
    + rewrite W7, IH by (done || (by rewrite <- app_assoc) || lia).
      pose proof (part_bytes_length _ Hp) as Hlen. rewrite length_app, Nat2Z.inj_add, Hlen. done.
Qed.
End walk.

Lemma parts_bytes_length ps : Forall part_ok ps -> (16 * length ps <= length (parts_bytes ps))%nat.
Proof.
  induction 1 as [|p ps Hp _ IH]; [done|]. rewrite fmap_cons. cbn [concat length]. rewrite length_app.
  pose proof (part_bytes_length _ Hp). destruct Hp as (_ & _ & ? & _). lia.
Qed.

Lemma used_spec LEN s ps rest :
  0 <= LEN < 2 ^ 31 -> table LEN s ps rest ->
  calc_used_nvram_space LEN s = Ok (Z.of_nat (length (parts_bytes ps))).
Proof.
  intros HL (E & Hl & Hps & Hr). unfold calc_used_nvram_space.
  apply (used_loop_spec LEN HL s Hl ps [] rest); try done.
  pose proof (parts_bytes_length _ Hps). rewrite E, length_app in Hl. unfold walk_turns. lia.
Qed.

Lemma get_partition_spec LEN s ps rest type name :
  0 <= LEN < 2 ^ 31 -> table LEN s ps rest -> 0 < u32 type ->
  get_partition LEN s type name = Ok (find_part 0 ps (u32 type) name).
Proof.
  intros HL (E & Hl & Hps & Hr) Ht. unfold get_partition.
  apply (get_partition_loop_spec LEN HL s Hl ps [] rest); try done.
  - pose proof (parts_bytes_length _ Hps). rewrite E, length_app in Hl. unfold walk_turns. lia.
  - split; [done | apply u32_range].
Qed.

(** ** Writes *)

Section writes.
Context (LEN : Z) (HLEN : 0 <= LEN < 2 ^ 31).

Lemma write_at s n pre old post off v :
  nvram s = pre ++ old ++ post -> Z.of_nat (length (nvram s)) = LEN -> off = Z.of_nat (length pre) ->
  length old = n -> 
  nvram_write LEN n s off v = NvState (pre ++ be_enc n v ++ post) (nvram_buffer_locked s).
Proof.
  intros E Hl -> Ho. unfold nvram_write. rewrite E, !length_app in Hl. rewrite u32_small by lia.
  destruct (Z.ltb_spec (LEN - Z.of_nat n) (Z.of_nat (length pre))); [lia|].
  by rewrite E, Nat2Z.id, splice_app by (by rewrite be_enc_length).
Qed.

Lemma write_out s n off v : 0 < Z.of_nat n -> LEN <= off < 2 ^ 32 -> nvram_write LEN n s off v = s.
Proof.
  intros Hn Ho. unfold nvram_write. rewrite u32_small by lia.
  by destruct (Z.ltb_spec (LEN - Z.of_nat n) off); [|lia].
Qed.

Lemma write_loop_at s pre old post off bs :
  nvram s = pre ++ old ++ post -> Z.of_nat (length (nvram s)) = LEN -> off = Z.of_nat (length pre) ->
  length old = length bs -> Forall byte bs ->
  write_loop LEN s off bs = NvState (pre ++ bs ++ post) (nvram_buffer_locked s).
Proof.
  revert s pre old off. induction bs as [|b bs IH]; intros s pre old off E Hl -> Ho Hb; cbn [write_loop].
  - destruct old; [|done]. destruct s. cbn in E. by rewrite E.
  - destruct old as [|o old]; [done|]. pose proof (Forall_inv Hb) as Hb0. pose proof (Forall_inv_tail Hb) as Hb'.
    cbn [length] in Ho. injection Ho as Ho.
    unfold nvram_write_byte. rewrite (write_at s 1 pre [o] (old ++ post)) by done.
    cbn [be_enc]. rewrite Z.div_1_r, Z.mod_small by done.
    rewrite (IH _ (pre ++ [b]) old) by (cbn [nvram]; rewrite ?E, <- ?app_assoc; cbn [app length]; rewrite ?length_app;
      cbn [length]; try done; try (rewrite E, !length_app in *; cbn [length] in *; rewrite ?length_app in *; lia); lia).
    by rewrite <- app_assoc.
Qed.

Lemma write_loop_out s off bs :
  LEN <= off -> off + Z.of_nat (length bs) < 2 ^ 32 -> write_loop LEN s off bs = s.
Proof.
  revert off. induction bs as [|b bs IH]; intros off Ho Hb; cbn [write_loop length] in *; [done|].
  unfold nvram_write_byte. rewrite write_out by lia. apply IH; lia.
Qed.

Lemma read_loop_at s (Hl : Z.of_nat (length (nvram s)) = LEN) pre bs post :
  nvram s = pre ++ bs ++ post -> read_loop LEN (length bs) s (Z.of_nat (length pre)) = bs.
Proof.
  revert pre. induction bs as [|b bs IH]; intros pre E; [done|].
  unfold read_loop. cbn [length]. rewrite Nat2Z.inj_succ, seqZ_cons by lia. cbn [fmap list_fmap length]. f_equal.
  - rewrite Z.add_0_r, read_byte_nth by (done || (rewrite <- Hl, E, length_app; cbn [app length]; lia)).
    rewrite E, Nat2Z.id. apply nth_middle.
  - etransitivity; [|apply (IH (pre ++ [b])); by rewrite <- app_assoc]. unfold read_loop.
    replace (Z.pred (Z.succ (Z.of_nat (length bs)))) with (Z.of_nat (length bs)) by lia.
    change (Z.succ 0) with (1 + 0). rewrite <- (fmap_add_seqZ 1 0), <- list_fmap_compose.
    apply list_fmap_ext. intros _ x _. cbn. f_equal. rewrite length_app. cbn [length]. lia.
Qed.

Lemma erase_loop_write n s off : erase_loop LEN n s off = write_loop LEN s off (replicate n 0).
Proof. revert s off. induction n as [|n IH]; intros s off; cbn; [done | apply IH]. Qed.

Lemma erase_loop_at s pre old post off n :
  nvram s = pre ++ old ++ post -> Z.of_nat (length (nvram s)) = LEN -> off = Z.of_nat (length pre) ->
  length old = n ->
  erase_loop LEN n s off = NvState (pre ++ replicate n 0 ++ post) (nvram_buffer_locked s).
Proof.
  intros E Hl Ho Hn. rewrite erase_loop_write. eapply write_loop_at; try done; [by rewrite length_replicate | by apply Forall_replicate].
Qed.

Lemma erase_nvram_at s pre old post off n :
  nvram s = pre ++ old ++ post -> Z.of_nat (length (nvram s)) = LEN -> off = Z.of_nat (length pre) ->
  n = Z.of_nat (length old) ->
  erase_nvram LEN s off n = NvState (pre ++ replicate (length old) 0 ++ post) (nvram_buffer_locked s).
Proof.
  intros E Hl -> ->. unfold erase_nvram. pose proof Hl as Hl'. rewrite E, !length_app in Hl'.
  rewrite !s32_small by lia. rewrite Nat2Z.id. by eapply erase_loop_at.
Qed.
End writes.

Lemma ALIGN16_spec x : 0 <= x < 2 ^ 32 - 16 -> ALIGN16 x = 16 * ((x + 15) / 16).
Proof.
  intros Hx. unfold ALIGN16. rewrite u32_small by lia. rewrite land_u32_r by lia.
  change 15 with (2 ^ 4 - 1) at 2. rewrite align_down by lia. change (2 ^ 4) with 16. lia.
Qed.

(** A name padded to the 12 bytes of the header. *)
Definition pad_name (name : list Z) : list Z := name ++ replicate (12 - length name) 0.

(** The units of 16 bytes a partition of [len] bytes takes. *)
Definition units (len : Z) : Z := (len + 16 + 15) / 16.

Lemma units_range len : 0 <= len -> 1 <= units len /\ len + 16 <= 16 * units len < len + 32.
Proof. intros H. unfold units. pose proof (Z.div_mod (len + 16 + 15) 16). pose proof (Z.mod_pos_bound (len + 16 + 15) 16). lia. Qed.

Definition new_part (type : Z) (name : list Z) (len : Z) (data : list Z) : part :=
  Part type (pad_name name) (units len) data.

Lemma create_spec LEN s ps rest type name len' :
  0 <= LEN < 2 ^ 20 -> table LEN s ps rest -> 0 < type < 256 -> (length name <= 12)%nat -> Forall byte name ->
  0 <= len' < 2 ^ 31 ->
  create_nvram_partition LEN s type name len' =
  if Z.of_nat (length rest) <? 16 * units len' then Ok (Partition 0 0, s)
  else Ok (Partition (Z.of_nat (length (parts_bytes ps)) + 16) len',
           NvState (parts_bytes ps ++
                    part_bytes (new_part type name len' (take (Z.to_nat (16 * units len' - 16)) (drop 16 rest))) ++
                    drop (Z.to_nat (16 * units len')) rest) (nvram_buffer_locked s)).
Proof.
  intros HL Ht Hty Hn Hnb Hl. pose proof Ht as (E & Hlen & Hps & Hr). unfold create_nvram_partition.
  rewrite (used_spec LEN s ps rest) by (done || lia). res_simpl.
  pose proof (units_range len' ltac:(lia)) as [Hu1 Hu2].
  assert (Htot : Z.of_nat (length (parts_bytes ps)) + Z.of_nat (length rest) = LEN).
  { rewrite <- Hlen, E, length_app. lia. }
  rewrite (u32_small len') by lia. unfold PARTITION_HEADER_SIZE. rewrite (u32_small (len' + 16)) by lia.
  rewrite ALIGN16_spec by lia. fold (units len'). rewrite u32_small by lia.
  replace (LEN - Z.of_nat (length (parts_bytes ps))) with (Z.of_nat (length rest)) by lia.
  destruct (Z.ltb_spec (Z.of_nat (length rest)) (16 * units len')) as [|Hfit]; [done|].
  set (P := parts_bytes ps) in *. destruct Hr as [->|[r ->]]; [cbn in Hfit; lia|].
  rewrite length_app, length_replicate in Hfit, Htot.
  replace (16 * units len' / 16) with (units len') by (symmetry; rewrite Z.mul_comm; by apply Z.div_mul).
  set (lb := be_enc 2 (units len')). set (nm := pad_name name). set (p := new_part _ _ _ _).
  unfold nvram_write_byte, nvram_write_word.
  rewrite (write_at LEN ltac:(lia) s 1 P [0] (replicate 15 0 ++ r)) by done.
  change (be_enc 1 type) with [(type / 256 ^ 0) mod 256]. rewrite Z.div_1_r, (Z.mod_small type 256) by lia.
  set (s1 := NvState _ _). assert (Hl1 : Z.of_nat (length (nvram s1)) = LEN).
  { cbn [nvram s1]. rewrite !length_app, length_replicate. cbn [length]. lia. }
  rewrite (write_at LEN ltac:(lia) s1 2 (P ++ [type; 0]) [0; 0] (replicate 12 0 ++ r));
    [|cbn [nvram s1]; by rewrite <- app_assoc | done | rewrite length_app; cbn [length]; lia | done].
  set (s2 := NvState _ _). fold lb in s2. assert (Hl2 : Z.of_nat (length (nvram s2)) = LEN).
  { cbn [nvram s2]. unfold lb. rewrite !length_app, length_replicate, be_enc_length. cbn [length]. lia. }
  rewrite (write_loop_at LEN ltac:(lia) s2 (P ++ [type; 0] ++ lb) (replicate (length name) 0) (replicate (12 - length name) 0 ++ r));
    [| |done | unfold lb; rewrite !length_app, be_enc_length; cbn [length]; lia | by rewrite length_replicate | done].
  2:{ cbn [nvram s2]. rewrite <- !app_assoc. do 3 f_equal. rewrite app_assoc, <- replicate_add. do 2 f_equal. lia. }
  set (s3 := NvState _ _).
  assert (E3 : nvram s3 = P ++ (type :: 0 :: lb ++ nm) ++ r).
  { cbn [nvram s3]. unfold nm, pad_name. rewrite <- !app_assoc. cbn [app]. by rewrite <- !app_assoc. }
  assert (Hnm : length nm = 12%nat) by (unfold nm, pad_name; rewrite length_app, length_replicate; lia).
  assert (Hl3 : Z.of_nat (length (nvram s3)) = LEN).
  { rewrite E3, !length_app. cbn [length]. unfold lb. rewrite length_app, be_enc_length, Hnm. lia. }
  destruct (header_reads LEN ltac:(lia) s3 Hl3 P (type :: 0 :: lb ++ nm) r _ E3 eq_refl) as (_ & _ & _ & _ & _ & ->).
  { cbn [length]. unfold lb. by rewrite length_app, be_enc_length, Hnm. }
  cbn [nth]. change (drop 2 (type :: 0 :: lb ++ nm)) with (lb ++ nm).
  rewrite (write_at LEN ltac:(lia) s3 1 (P ++ [type]) [0] (lb ++ nm ++ r));
    [| |done | rewrite length_app; cbn [length]; lia | done].
  2:{ rewrite E3, <- app_assoc. cbn [app]. by rewrite <- app_assoc. }
  rewrite u32_small by lia. apply (f_equal (fun st => Ok (Partition (Z.of_nat (length P) + 16) len', st))). cbn [nvram_buffer_locked s3 s2 s1]. f_equal.
  rewrite <- !app_assoc. f_equal.
  change (be_enc 1 (checksum type (lb ++ nm))) with [(checksum type (lb ++ nm) / 256 ^ 0) mod 256].
  rewrite Z.div_1_r, Z.mod_small by apply u8_range.
  unfold p, part_bytes, part_header, new_part. cbn [ptype pname plen pdata app]. fold lb nm.
  change (drop 16 (replicate 16 0 ++ r)) with r.
  replace (Z.to_nat (16 * units len')) with (16 + Z.to_nat (16 * units len' - 16))%nat by lia.
  rewrite <- drop_drop. change (drop 16 (replicate 16 0 ++ r)) with r.
  rewrite <- !app_assoc. by rewrite take_drop.
Qed.

(** ** The partition of the free space *)

(** [n] units of free space; none for 0. *)
Definition free_part (n : Z) : part := Part 0x7f (pad_name free_space_name) n (replicate (Z.to_nat (16 * n - 16)) 0).
Definition free_parts (n : Z) : list part := if n =? 0 then [] else [free_part n].

Lemma free_part_ok n : 0 < n < 65536 -> part_ok (free_part n).
Proof.
  intros Hn. unfold part_ok, free_part. cbn [ptype pname plen pdata]. rewrite length_replicate. split_and!; try done; lia.
Qed.

Lemma replicate_blank k : 0 <= k -> blank (replicate (Z.to_nat (16 * k)) 0).
Proof.
  intros Hk. destruct (Z.eq_dec k 0) as [->|]; [by left|]. right.
  exists (replicate (Z.to_nat (16 * k - 16)) 0). rewrite <- replicate_add. f_equal. lia.
Qed.

Lemma parts_bytes_app ps ps' : parts_bytes (ps ++ ps') = parts_bytes ps ++ parts_bytes ps'.
Proof. by rewrite fmap_app, concat_app. Qed.

(** The free space described by a partition again. *)
Lemma create_free_spec LEN s ps k :
  0 <= LEN < 2 ^ 20 -> table LEN s ps (replicate (Z.to_nat (16 * k)) 0) -> 0 <= k ->
  exists b, create_free_partition LEN s =
    Ok (b, NvState (parts_bytes (ps ++ free_parts k)) (nvram_buffer_locked s)).
Proof.
  intros HL Ht Hk. pose proof Ht as (E & Hlen & Hps & _).
  assert (Htot : Z.of_nat (length (parts_bytes ps)) + 16 * k = LEN).
  { rewrite <- Hlen, E, length_app, length_replicate. lia. }
  unfold create_free_partition. rewrite (used_spec LEN s ps _ ltac:(lia) Ht). res_simpl.
  unfold PARTITION_HEADER_SIZE. unfold free_parts. destruct (Z.eqb_spec k 0) as [->|Hk0].
  - (* no space: every write is out of range *)
    replace (LEN - Z.of_nat (length (parts_bytes ps)) - 16) with (-16) by lia.
    unfold create_nvram_partition. rewrite (used_spec LEN s ps _ ltac:(lia) Ht). res_simpl.
    change (ALIGN16 (u32 (u32 (s32 (-16)) + PARTITION_HEADER_SIZE))) with 0. cbv zeta.
    replace (LEN - Z.of_nat (length (parts_bytes ps))) with 0 by lia. change (u32 0 <? 0) with false.
    replace (Z.of_nat (length (parts_bytes ps))) with LEN by lia.
    unfold nvram_write_byte, nvram_write_word. rewrite !write_out by lia. rewrite write_loop_out by (cbn; lia).
    res_simpl. eexists. f_equal. f_equal. destruct s as [nv l]. cbn in *. f_equal.
    rewrite app_nil_r. by rewrite E, app_nil_r.
  - rewrite s32_small by lia.
    rewrite (create_spec LEN s ps (replicate (Z.to_nat (16 * k)) 0)); try done; try lia;
      [|cbn; lia | repeat constructor; lia].
    replace (units (LEN - Z.of_nat (length (parts_bytes ps)) - 16)) with k.
    2:{ unfold units. replace (LEN - Z.of_nat (length (parts_bytes ps)) - 16 + 16 + 15) with (15 + k * 16) by lia.
        rewrite Z.div_add by lia. done. }
    rewrite length_replicate, Z2Nat.id by lia. rewrite Z.ltb_irrefl. res_simpl. eexists. f_equal. f_equal. f_equal.
    rewrite parts_bytes_app. f_equal. rewrite fmap_cons. cbn [concat fmap list_fmap].
    rewrite (drop_ge (replicate (Z.to_nat (16 * k)) 0) (Z.to_nat (16 * k))) by (rewrite length_replicate; lia). f_equal. f_equal. unfold new_part, free_part. f_equal.
    + unfold units. replace (LEN - Z.of_nat (length (parts_bytes ps)) - 16 + 16 + 15) with (15 + k * 16) by lia.
      by rewrite Z.div_add by lia.
    + rewrite drop_replicate, take_replicate. f_equal. lia.
Qed.

Lemma find_part_app off ps ps' type name :
  Forall (fun p => matches p type name = false) ps -> Forall part_ok ps ->
  find_part off (ps ++ ps') type name = find_part (off + Z.of_nat (length (parts_bytes ps))) ps' type name.
Proof.
  intros H Hok. revert off. induction H as [|p ps Hp _ IH]; intros off; [by rewrite Z.add_0_r|].
  pose proof (Forall_inv Hok) as Hpo. pose proof (Forall_inv_tail Hok) as Hok'.
  cbn [app find_part]. rewrite Hp, IH by done. rewrite fmap_cons. cbn [concat]. rewrite length_app.
  pose proof (part_bytes_length _ Hpo). f_equal. lia.
Qed.

Lemma free_found LEN s ps n rest :
  0 <= LEN < 2 ^ 20 -> table LEN s (ps ++ [free_part n]) rest -> Forall (fun p => ptype p <> 0x7f) ps ->
  get_partition LEN s 0x7f None = Ok (Partition (Z.of_nat (length (parts_bytes ps)) + 16) (16 * n - 16)).
Proof.
  intros HL Ht Hps. rewrite (get_partition_spec LEN s _ rest 0x7f None ltac:(lia) Ht) by done.
  destruct Ht as (_ & _ & Hok & _). apply Forall_app in Hok as [Hok _]. rewrite find_part_app; [done| |done].
  eapply Forall_impl; [|exact Hps]. cbn. intros p Hp. unfold matches. change (u32 0x7f) with 0x7f.
  destruct (Z.eqb_spec 0x7f (ptype p)); [congruence | done].
Qed.

(** ** Properties *)

(** Reads and writes of the NVRAM of 1, 2, 4 or 8 bytes that fit are exact:
    what is written is read back, and no other byte changes; those that do not
    fit read as 0 and write nothing. *)
Theorem nvram_access_roundtrip LEN s size off v :
  8 <= LEN < 2 ^ 31 -> Z.of_nat (length (nvram s)) = LEN -> 0 < Z.of_nat size <= 8 -> 0 <= off < 2 ^ 32 ->
  let s' := nvram_write LEN size s off v in
  (off + Z.of_nat size <= LEN ->
     nvram_read LEN size s' off = v mod 256 ^ Z.of_nat size /\
     length (nvram s') = length (nvram s) /\
     forall i, (Z.of_nat i < off \/ off + Z.of_nat size <= Z.of_nat i) -> nvram s' !! i = nvram s !! i) /\
  (LEN < off + Z.of_nat size -> nvram_read LEN size s off = 0 /\ s' = s).
Proof.
  intros HL Hl Hsz Ho s'. unfold s', nvram_write, nvram_read. rewrite (u32_small off) by lia. split.
  - intros Hfit. destruct (Z.ltb_spec (LEN - Z.of_nat size) off); [lia|]. cbn [nvram].
    assert (Hb : (Z.to_nat off + length (be_enc size v) <= length (nvram s))%nat) by (rewrite be_enc_length; lia).
    split; [|split].
    + unfold splice. rewrite drop_app_length' by (rewrite length_take; lia).
      rewrite take_app_length' by (by rewrite be_enc_length). apply be_dec_enc.
    + by apply splice_length.
    + intros i Hi. rewrite splice_lookup by done. rewrite be_enc_length.
      by destruct (decide (Z.to_nat off <= i < Z.to_nat off + size)%nat); [lia|].
  - intros Hout. by destruct (Z.ltb_spec (LEN - Z.of_nat size) off); [|lia].
Qed.

Definition blank_nvram : nvstate := NvState (replicate 64 0) false.

Lemma nvram_access_roundtrip_witness :
  let s' := nvram_write 64 2 blank_nvram 62 0x12345 in
  (62 + 2 <= 64 -> nvram_read 64 2 s' 62 = 0x12345 mod 256 ^ 2 /\
     length (nvram s') = length (nvram blank_nvram) /\
     forall i, (Z.of_nat i < 62 \/ 62 + 2 <= Z.of_nat i) -> nvram s' !! i = nvram blank_nvram !! i) /\
  (64 < 62 + 2 -> nvram_read 64 2 blank_nvram 62 = 0 /\ s' = blank_nvram).
Proof. apply (nvram_access_roundtrip 64 blank_nvram 2 62 0x12345); done || lia. Defined.

(** on a well-formed table calc_used_nvram_space ends and gives the end of the
    last partition, and get_partition ends and gives the data area of the first
    partition of the type and the name asked for (-1 and NULL standing for any),
    or the length -1 when there is none. *)
Theorem partition_lookup LEN s ps rest type name :
  0 <= LEN < 2 ^ 31 -> table LEN s ps rest -> 0 < u32 type ->
  calc_used_nvram_space LEN s = Ok (Z.of_nat (length (parts_bytes ps))) /\
  get_partition LEN s type name = Ok (find_part 0 ps (u32 type) name).
Proof. intros HL Ht Hty. split; [by eapply used_spec | by eapply get_partition_spec]. Qed.

(** A table of two partitions in 128 bytes. *)
Definition demo_parts : list part :=
  [Part 0x70 (pad_name common_name) 2 (replicate 16 7); free_part 6].
Definition demo_nvram : nvstate := NvState (parts_bytes demo_parts) false.

Lemma demo_table : table 128 demo_nvram demo_parts [].
Proof.
  split; [by rewrite app_nil_r|]. split; [done|]. split; [|by left].
  constructor; [by split_and!|]. constructor; [by apply free_part_ok | constructor].
Qed.

Lemma partition_lookup_witness :
  calc_used_nvram_space 128 demo_nvram = Ok (Z.of_nat (length (parts_bytes demo_parts))) /\
  get_partition 128 demo_nvram (-1) (Some common_name) = Ok (find_part 0 demo_parts (u32 (-1)) (Some common_name)).
Proof. apply (partition_lookup 128 demo_nvram demo_parts []); [lia | apply demo_table | done]. Defined.

(** What new_nvram_partition leaves of [n] units of free space. *)
Definition after_new (ps : list part) (n type : Z) (name : list Z) (len : Z) : partition_t * list part :=
  if (2 <=? n) && (units len <=? n)
  then (Partition (Z.of_nat (length (parts_bytes ps)) + 16) len,
        ps ++ [new_part type name len (replicate (Z.to_nat (16 * units len - 16)) 0)] ++ free_parts (n - units len))
  else (Partition 0 0, ps ++ [free_part n]).

(** C17: on a well-formed table that ends with the free space as a partition,
    new_nvram_partition makes the new partition at the start of the free space,
    with its data zero, and the rest the new free space, when it fits; else it
    returns an empty partition and leaves the table as it is. *)
Theorem new_partition_correct LEN s ps n type name len' :
  0 <= LEN < 2 ^ 20 -> table LEN s (ps ++ [free_part n]) [] -> Forall (fun p => ptype p <> 0x7f) ps ->
  0 < type < 256 -> (length name <= 12)%nat -> Forall byte name -> 0 <= len' < 2 ^ 31 ->
  let '(r, ps') := after_new ps n type name len' in
  exists s', new_nvram_partition LEN s type name len' = Ok (r, s') /\ table LEN s' ps' [].
Proof.
  intros HL Ht Hps Hty Hn Hnb Hl. pose proof Ht as (E & Hlen & Hok & _). rewrite app_nil_r in E.
  apply Forall_app in Hok as [Hok Hfree]. pose proof (Forall_inv Hfree) as Hf. clear Hfree.
  assert (Hn0 : 0 < n < 65536) by apply Hf. rewrite parts_bytes_app, fmap_cons in E. cbn [concat fmap list_fmap] in E.
  rewrite app_nil_r in E. pose proof (part_bytes_length _ Hf) as Hfl. cbn [plen free_part] in Hfl.
  assert (Htot : Z.of_nat (length (parts_bytes ps)) + 16 * n = LEN).
  { rewrite <- Hlen, E, length_app. lia. }
  pose proof (units_range len' ltac:(lia)) as [Hu1 Hu2]. unfold new_nvram_partition, after_new.
  rewrite (free_found LEN s ps n [] HL Ht Hps). res_simpl. cbn [len].
  destruct (Z.leb_spec 2 n) as [Hn2|Hn2]; cbn [andb].
  - assert ((16 * n - 16 =? 0) = false) as -> by (apply Z.eqb_neq; lia).
    assert ((16 * n - 16 =? -1) = false) as -> by (apply Z.eqb_neq; lia). cbn [negb andb].
    assert (Ew : wipe_partition LEN s (Partition (Z.of_nat (length (parts_bytes ps)) + 16) (16 * n - 16)) true =
      NvState (parts_bytes ps ++ replicate (Z.to_nat (16 * n)) 0) (nvram_buffer_locked s)).
    { unfold wipe_partition, PARTITION_HEADER_SIZE. cbn [addr]. rewrite s32_small by lia.
      unfold part_bytes in E.
      rewrite (erase_nvram_at LEN ltac:(lia) s (parts_bytes ps) (part_header (free_part n)) (pdata (free_part n)));
        [|done | done | lia | done].
      f_equal. f_equal. rewrite part_header_length by done. cbn [pdata free_part].
      rewrite <- replicate_add. f_equal. lia. }
    rewrite Ew. set (s1 := NvState _ _).
    assert (Ht1 : table LEN s1 ps (replicate (Z.to_nat (16 * n)) 0)).
    { split; [done|]. split; [cbn [nvram s1]; rewrite length_app, length_replicate; lia|]. split; [done|].
      by apply replicate_blank; lia. }
    rewrite (create_spec LEN s1 ps _ type name len' HL Ht1 Hty Hn Hnb Hl). rewrite length_replicate, Z2Nat.id by lia.
    destruct (Z.leb_spec (units len') n) as [Hfit|Hbig].
    + destruct (Z.ltb_spec (16 * n) (16 * units len')); [lia|]. res_simpl. cbn [len].
      rewrite Z.eqb_refl. cbn [negb]. rewrite drop_replicate, take_replicate, drop_replicate.
      set (np := new_part type name len' (replicate (Z.to_nat (16 * units len' - 16)) 0)).
      assert (Hnp : part_ok np).
      { split_and!; cbn [ptype pname plen pdata np new_part]; try lia; [|rewrite length_replicate; lia].
        unfold pad_name. rewrite length_app, length_replicate. lia. }
      replace (Z.to_nat (16 * units len' - 16) `min` (Z.to_nat (16 * n) - 16))%nat
        with (Z.to_nat (16 * units len' - 16)) by lia.
      fold np. set (s2 := NvState _ (nvram_buffer_locked s1)).
      assert (Ht2 : table LEN s2 (ps ++ [np]) (replicate (Z.to_nat (16 * (n - units len'))) 0)).
      { split; [|split; [|split]].
        - cbn [nvram s2]. rewrite parts_bytes_app, fmap_cons. cbn [concat fmap list_fmap]. rewrite app_nil_r, <- app_assoc.
          do 3 f_equal. lia.
        - cbn [nvram s2]. rewrite !length_app, length_replicate. pose proof (part_bytes_length _ Hnp). cbn [plen np new_part] in *. lia.
        - apply Forall_app. split; [done | by constructor].
        - apply replicate_blank. lia. }
      destruct (create_free_spec LEN s2 (ps ++ [np]) (n - units len') HL Ht2 ltac:(lia)) as [b ->]. res_simpl.
      eexists. split; [done|]. rewrite app_assoc. split; [by rewrite app_nil_r|]. cbn [nvram].
      assert (Hok' : Forall part_ok ((ps ++ [np]) ++ free_parts (n - units len'))).
      { apply Forall_app. split; [apply Forall_app; split; [done | by constructor]|]. unfold free_parts.
        destruct (Z.eqb_spec (n - units len') 0); [constructor|]. constructor; [|constructor]. apply free_part_ok. lia. }
      split; [|split; [done | by left]]. rewrite parts_bytes_app, length_app.
      destruct Ht2 as (E2 & Hl2 & _). rewrite E2, length_app, length_replicate in Hl2. rewrite <- Hl2.
      unfold free_parts. destruct (Z.eqb_spec (n - units len') 0) as [E0|]; [rewrite E0; cbn; lia|].
      rewrite fmap_cons. cbn [concat fmap list_fmap]. rewrite app_nil_r.
      pose proof (part_bytes_length (free_part (n - units len')) ltac:(apply free_part_ok; lia)). cbn [plen free_part] in *. lia.
    + destruct (Z.ltb_spec (16 * n) (16 * units len')); [|lia]. res_simpl. cbn [len].
      destruct (create_free_spec LEN s1 ps n HL Ht1 ltac:(lia)) as [b ->]. res_simpl.
      assert (Hfp : free_parts n = [free_part n]) by (unfold free_parts; by destruct (Z.eqb_spec n 0); [lia|]).
      rewrite Hfp. eexists. split; [by destruct (negb (0 =? len'))|].
      split; [by rewrite app_nil_r|]. cbn [nvram]. split; [|split; [apply Ht | by left]].
      rewrite parts_bytes_app, fmap_cons. cbn [concat fmap list_fmap]. rewrite app_nil_r, length_app. lia.
  - (* an empty free partition *)
    assert (n = 1) as -> by lia. change (16 * 1 - 16 =? 0) with true. cbn [negb andb].
    rewrite (create_spec LEN s (ps ++ [free_part 1]) [] type name len' HL Ht Hty Hn Hnb Hl).
    destruct (Z.ltb_spec (Z.of_nat (length (@nil Z))) (16 * units len')); [|cbn in *; lia]. res_simpl. cbn [len].
    destruct (create_free_spec LEN s (ps ++ [free_part 1]) 0 HL Ht ltac:(lia)) as [b ->]. res_simpl.
    eexists. split; [by destruct (negb (0 =? len'))|]. unfold free_parts. cbn [Z.eqb]. rewrite app_nil_r.
    destruct s as [nv l]. cbn [nvram nvram_buffer_locked] in *.
    replace (parts_bytes (ps ++ [free_part 1])) with nv; [done|].
    rewrite E, parts_bytes_app, fmap_cons. cbn [concat fmap list_fmap]. by rewrite app_nil_r.
Qed.

Lemma new_partition_correct_witness :
  exists s', new_nvram_partition 128 demo_nvram 0x51 [97; 98] 20 = Ok ((after_new [nth 0 demo_parts (free_part 1)] 6 0x51 [97; 98] 20).1, s') /\
    table 128 s' (after_new [nth 0 demo_parts (free_part 1)] 6 0x51 [97; 98] 20).2 [].
Proof.
  apply (new_partition_correct 128 demo_nvram [nth 0 demo_parts (free_part 1)] 6 0x51 [97; 98] 20);
    [lia | apply demo_table | by constructor | lia | cbn; lia | repeat constructor; lia | lia].
Defined.

(** Moving [R] down over [G]. *)
Lemma move_loop_at LEN s A G R i d :
  0 <= LEN < 2 ^ 31 -> nvram s = A ++ G ++ R -> Z.of_nat (length (nvram s)) = LEN -> Forall byte R ->
  i = Z.of_nat (length A + length G) -> d = Z.of_nat (length G) -> 0 < d ->
  move_loop LEN (length R) s i d = NvState (A ++ R ++ drop (length R) (G ++ R)) (nvram_buffer_locked s).
Proof.
  intros HL E Hl HR -> -> Hd. revert s A G E Hl Hd.
  induction R as [|r R IH]; intros s A G E Hl Hd; cbn [length move_loop].
  - rewrite drop_0, app_nil_r. cbn [app]. destruct s. cbn in E. by rewrite E, app_nil_r.
  - destruct G as [|g G]; [cbn in Hd; lia|]. cbn [length] in *.
    assert (Hl' : Z.of_nat (length A + S (length G) + S (length R)) = LEN).
    { rewrite <- Hl, E, !length_app. cbn [length]. lia. }
    rewrite (read_byte_nth LEN ltac:(lia)) by (done || lia).
    assert (Er : nth (Z.to_nat (Z.of_nat (length A + S (length G)))) (nvram s) 0 = r).
    { rewrite E, Nat2Z.id, nth_lookup, lookup_app_r by lia.
      rewrite lookup_app_r by (cbn [length]; lia). cbn [length].
      by replace (length A + S (length G) - length A - S (length G))%nat with 0%nat by lia. }
    rewrite Er. pose proof (Forall_inv HR) as Hr. pose proof (Forall_inv_tail HR) as HR'. unfold nvram_write_byte.
    rewrite (write_at LEN ltac:(lia) s 1 A [g] (G ++ r :: R)) by (done || lia).
    change (be_enc 1 r) with [(r / 256 ^ 0) mod 256]. rewrite Z.div_1_r, Z.mod_small by done.
    specialize (IH HR' (NvState (A ++ [r] ++ G ++ r :: R) (nvram_buffer_locked s)) (A ++ [r]) (G ++ [r])).
    rewrite !length_app in IH. cbn [length nvram nvram_buffer_locked] in IH.
    replace (Z.of_nat (length A + S (length G)) + 1) with (Z.of_nat (length A + 1 + (length G + 1))) by lia.
    replace (Z.of_nat (S (length G))) with (Z.of_nat (length G + 1)) by lia. rewrite IH.
    + f_equal. by rewrite <- !app_assoc.
    + by rewrite <- !app_assoc.
    + rewrite !length_app. cbn [length]. rewrite ?length_app; cbn [length]; lia.
    + lia.
Qed.

(** C28: delete_nvram_partition, on a well-formed table that ends with at least
    three units of free space, removes the partition, keeps the others as they
    are and in order, and gives its space to the free space. *)
Theorem delete_partition_correct LEN s ps1 p ps2 n :
  0 <= LEN < 2 ^ 20 -> table LEN s (ps1 ++ p :: ps2 ++ [free_part n]) [] -> Forall byte (nvram s) ->
  Forall (fun p => ptype p <> 0x7f) (ps1 ++ ps2) -> 2 <= plen p -> 3 <= n ->
  exists s', delete_nvram_partition LEN s
      (Partition (Z.of_nat (length (parts_bytes ps1)) + 16) (16 * plen p - 16)) = Ok (1, s') /\
    table LEN s' (ps1 ++ ps2 ++ [free_part (n + plen p)]) [].
Proof.
  intros HL Ht Hb Hty Hp2 Hn. pose proof Ht as (E & Hlen & Hok & _). rewrite app_nil_r in E.
  apply Forall_app in Hok as [Hok1 Hok]. pose proof (Forall_inv Hok) as Hp. apply Forall_inv_tail in Hok.
  apply Forall_app in Hok as [Hok2 Hok]. pose proof (Forall_inv Hok) as Hf. clear Hok.
  rewrite parts_bytes_app, fmap_cons in E. cbn [concat] in E. rewrite parts_bytes_app in E.
  rewrite fmap_cons in E. cbn [concat fmap list_fmap] in E. rewrite app_nil_r in E.
  set (P1 := parts_bytes ps1) in *. set (P2 := parts_bytes ps2) in *. set (F := part_bytes (free_part n)) in *.
  pose proof (part_bytes_length _ Hp) as HB. pose proof (part_bytes_length _ Hf) as HF. cbn [plen free_part] in HF. fold F in HF.
  set (B := part_bytes p) in *. set (L := 16 * plen p) in *.
  assert (Htot : Z.of_nat (length P1) + L + Z.of_nat (length P2) + 16 * n = LEN).
  { rewrite <- Hlen, E, !length_app. lia. }
  unfold delete_nvram_partition. cbn [len addr].
  assert ((L - 16 =? 0) = false) as -> by (apply Z.eqb_neq; lia).
  assert ((L - 16 =? -1) = false) as -> by (apply Z.eqb_neq; lia). cbn [orb].
  rewrite u32_small by lia. unfold PARTITION_HEADER_SIZE.
  replace (Z.to_nat (LEN - (Z.of_nat (length P1) + 16 + (L - 16)))) with (length (P2 ++ F)) by (rewrite length_app; lia).
  rewrite (move_loop_at LEN s P1 B (P2 ++ F)); [|lia|done|done| |lia|lia|lia].
  2:{ rewrite E in Hb. apply Forall_app in Hb as [_ Hb]. by apply Forall_app in Hb as [_ Hb]. }
  (* the tail: its last 32 bytes come from the free space *)
  set (T := drop (length (P2 ++ F)) (B ++ P2 ++ F)).
  assert (ET : exists T1, T = T1 ++ replicate 32 0 /\ Z.of_nat (length T1) = L - 32).
  { assert (EF : B ++ P2 ++ F = (B ++ P2 ++ part_header (free_part n) ++ replicate (Z.to_nat (16 * n - 48)) 0) ++ replicate 32 0).
    { unfold F, part_bytes. rewrite <- !app_assoc. do 3 f_equal. cbn [pdata free_part].
      rewrite <- replicate_add. f_equal. lia. }
    assert (Hh : length (part_header (free_part n)) = 16%nat) by done.
    unfold T. rewrite EF, drop_app_le by (rewrite !length_app, length_replicate, Hh; lia).
    eexists. split; [done|]. rewrite length_drop, !length_app, length_replicate, Hh. lia. }
  destruct ET as (T1 & -> & HT1). set (s1 := NvState _ _).
  assert (E1 : nvram s1 = (P1 ++ P2 ++ F) ++ T1 ++ replicate 32 0) by (cbn [nvram s1]; by rewrite <- !app_assoc).
  assert (Hl1 : Z.of_nat (length (nvram s1)) = LEN) by (rewrite E1, !length_app, length_replicate; lia).
  replace (LEN - (L - 16) - 16) with (Z.of_nat (length (P1 ++ P2 ++ F))) by (rewrite !length_app; lia).
  rewrite (erase_nvram_at LEN ltac:(lia) s1 _ T1 _ _ _ E1 Hl1 eq_refl) by lia.
  assert (E2 : replicate (length T1) 0 ++ replicate 32 0 = replicate (Z.to_nat (16 * plen p)) 0).
  { rewrite <- replicate_add. f_equal. lia. }
  rewrite E2. set (s2 := NvState _ _).
  assert (Ht2 : table LEN s2 ((ps1 ++ ps2) ++ [free_part n]) (replicate (Z.to_nat (16 * plen p)) 0)).
  { split; [|split; [|split]].
    - cbn [nvram s2]. rewrite !parts_bytes_app, fmap_cons. cbn [concat fmap list_fmap]. by rewrite app_nil_r, <- !app_assoc.
    - cbn [nvram s2]. rewrite !length_app, length_replicate. lia.
    - apply Forall_app. split; [by apply Forall_app | by constructor].
    - apply replicate_blank. lia. }
  rewrite (free_found LEN s2 (ps1 ++ ps2) n _ HL Ht2 Hty). res_simpl. rewrite parts_bytes_app. fold P1 P2.
  unfold wipe_partition, PARTITION_HEADER_SIZE. cbn [addr len]. rewrite !s32_small by (rewrite ?length_app; lia).
  rewrite (erase_nvram_at LEN ltac:(lia) s2 (P1 ++ P2) F (replicate (Z.to_nat (16 * plen p)) 0));
    [|cbn [nvram s2]; by rewrite <- !app_assoc | apply Ht2 | lia | lia].
  rewrite <- replicate_add. replace (length F + Z.to_nat (16 * plen p))%nat with (Z.to_nat (16 * (n + plen p))) by lia.
  set (s3 := NvState _ _).
  assert (Ht3 : table LEN s3 (ps1 ++ ps2) (replicate (Z.to_nat (16 * (n + plen p))) 0)).
  { split; [|split; [|split]].
    - cbn [nvram s3]. by rewrite parts_bytes_app.
    - cbn [nvram s3]. rewrite !length_app, length_replicate. lia.
    - by apply Forall_app.
    - apply replicate_blank. lia. }
  destruct (create_free_spec LEN s3 (ps1 ++ ps2) (n + plen p) HL Ht3 ltac:(lia)) as [b ->]. res_simpl.
  assert (Hfp : free_parts (n + plen p) = [free_part (n + plen p)]) by (unfold free_parts; by destruct (Z.eqb_spec (n + plen p) 0); [lia|]).
  rewrite Hfp, <- app_assoc. eexists. split; [done|].
  assert (Hfo : part_ok (free_part (n + plen p))) by (apply free_part_ok; lia).
  pose proof (part_bytes_length _ Hfo) as Hfl. cbn [plen free_part] in Hfl.
  split; [by rewrite app_nil_r|]. cbn [nvram]. split; [|split; [|by left]].
  - rewrite !parts_bytes_app, fmap_cons. cbn [concat fmap list_fmap]. rewrite app_nil_r, !length_app. fold P1 P2. lia.
  - rewrite !Forall_app. split_and!; try done. by constructor.
Qed.

Lemma delete_partition_correct_witness :
  exists s', delete_nvram_partition 128 demo_nvram (Partition (Z.of_nat (length (parts_bytes [])) + 16) (16 * 2 - 16)) = Ok (1, s') /\
    table 128 s' ([] ++ [] ++ [free_part (6 + 2)]) [].
Proof.
  apply (delete_partition_correct 128 demo_nvram [] (nth 0 demo_parts (free_part 1)) [] 6);
    [lia | apply demo_table | | by constructor | cbn; lia | lia].
  apply (bool_decide_eq_true_1 (Forall byte (nvram demo_nvram))). by vm_compute.
Defined.

(** With too little free space the last 32 bytes are not cleared: here the NVRAM
    is one partition and an empty free partition, and the free partition made by
    the deletion holds what was there before, a header included. *)
Example delete_leaves_stale_bytes :
  (fun r => (r.1, drop 32 (nvram r.2))) <$>
    delete_nvram_partition 64
      (NvState (parts_bytes [Part 0x70 (pad_name common_name) 3 (replicate 32 0xAA); free_part 1]) false)
      (Partition 16 32) =
  Ok (1, replicate 16 0xAA ++ part_header (free_part 1)).
Proof. by vm_compute. Qed.

(** The new size is stored in bytes where the header has units of 16 bytes, and
    the header's checksum is not made again: the table seems to end before the
    partition, and create_free_partition writes the free space over it.  Here the
    partition "common" is lost by being grown from 16 to 32 bytes. *)
Example increase_loses_partition :
  get_partition 128 demo_nvram 0x70 (Some common_name) = Ok (Partition 16 16) /\
  (fun r => (r.1, get_partition 128 r.2 0x70 (Some common_name), get_partition 128 r.2 0x7f None)) <$>
    increase_nvram_partition_size 128 demo_nvram (Partition 16 16) 32 =
  Ok (1, Ok (Partition 0 (-1)), Ok (Partition 16 112)).
Proof. by vm_compute. Qed.

(** Looking for the free space by the type 0, as a comment suggests, does not end
    when there is a partition of another type whose length is 0. *)
Example get_partition_type_0_loops :
  let hd := 0x70 :: checksum 0x70 (be_enc 2 0 ++ pad_name common_name) :: be_enc 2 0 ++ pad_name common_name in
  get_partition 64 (NvState (hd ++ replicate 48 0) false) 0 None = OutOfFuel.
Proof. by vm_compute. Qed.
