(* ===== verification/Envvar.v ===== *)
(** * lib/libnvram/envvar.c: environment variables in an NVRAM partition

    The variables are strings "name=value", each with its NUL, one after the
    other from the start of the partition; an empty string is the end.  The
    functions work on the state of Nvram.v.  Strings given by the caller are
    lists with their lengths; [temp] is what the static array of nvram_get_env
    holds before the call. *)

From Stdlib Require Import ZArith Lia.
From stdpp Require Import base list gmap option numbers.
From S2P Require Import Prelude Nvram.

(** ** The code *)

Section envvar.
Context (NVRAM_LENGTH : Z).
Abbreviation read := (nvram_read_byte NVRAM_LENGTH).
Abbreviation write := (nvram_write_byte NVRAM_LENGTH).

(** [while ((data = nvram_read_byte(offset++)) && len < 256) temp[len++] = data]:
    the bytes stored and the offset after; [n] is [256 - len]. *)
Fixpoint env_string (n : nat) (s : nvstate) (offset : Z) : list Z * Z :=
  match n with
  | O => ([], offset + 1)
  | S n' =>
      let data := read s offset in
      if data =? 0 then ([], offset + 1)
      else let '(bs, offset) := env_string n' s (offset + 1) in (data :: bs, offset)
  end.

(** A turn that goes on moves [offset] forward, and past the end of the NVRAM
    the string is empty. *)
Fixpoint past_loop (fuel : nat) (s : nvstate) (envvar : list Z) (evlen : nat) (offset : Z) (temp : list Z)
    : res Z :=
  match fuel with
  | O => OutOfFuel
  | S fuel' =>
      let '(bs, offset) := env_string 256 s offset in
      let temp := bs ++ drop (length bs) temp in
      if strncmp_eq evlen envvar temp then Ok offset
      else if decide (bs = []) then Ok (-1) else past_loop fuel' s envvar evlen offset temp
  end.

Definition env_turns : nat := S (S (Z.to_nat NVRAM_LENGTH)).

Definition get_past_env_pos (s : nvstate) (part : partition_t) (envvar : list Z) (evlen : nat) : res Z :=
  past_loop env_turns s envvar evlen (s32 (addr part)) (replicate 256 0).

(** [while (temp[pos] != '=' && pos < len) pos++] *)
Fixpoint eq_pos (bs : list Z) : nat :=
  match bs with [] => O | b :: bs' => if b =? 61 then O else S (eq_pos bs') end.

(** The string the returned pointer points to; [None] is NULL. *)
Fixpoint get_env_loop (fuel : nat) (s : nvstate) (envvar : list Z) (evlen : nat) (offset : Z) (temp : list Z)
    : res (option (list Z)) :=
  match fuel with
  | O => OutOfFuel
  | S fuel' =>
      let '(bs, offset) := env_string 256 s offset in
      let temp := bs ++ 0 :: drop (S (length bs)) temp in
      if strncmp_eq evlen envvar temp then Ok (Some (upto_nul (drop (S (eq_pos bs)) temp)))
      else if decide (bs = []) then Ok None else get_env_loop fuel' s envvar evlen offset temp
  end.

Definition nvram_get_env (s : nvstate) (part : partition_t) (envvar : list Z) (evlen : nat) (temp : list Z)
    : res (option (list Z)) :=
  if addr part =? 0 then Ok None
  else get_env_loop env_turns s envvar evlen (s32 (addr part)) temp.

Fixpoint last_loop (n : nat) (s : nvstate) (offset last : Z) : Z :=
  match n with
  | O => -1
  | S n' =>
      let current := read s offset in
      if (last =? 0) && (current =? 0) then offset else last_loop n' s (offset + 1) current
  end.

Definition find_last_envvar (s : nvstate) (part : partition_t) : Z :=
  let last := read s (addr part) in
  last_loop (Z.to_nat (s32 (addr part + len part) - s32 (addr part))) s (s32 (addr part)) last.

(** [for (...) nvram_write_byte(offset++, ...)] with an unsigned offset. *)
Fixpoint put_loop (s : nvstate) (offset : Z) (bs : list Z) : nvstate * Z :=
  match bs with
  | [] => (s, offset)
  | b :: bs' => put_loop (write s offset b) (u32 (offset + 1)) bs'
  end.

Definition nvram_add_env (s : nvstate) (part : partition_t) (envvar : list Z) (evlen : nat)
    (value : list Z) (vallen : nat) : Z * nvstate :=
  let last := u32 (find_last_envvar s part) in
  let freespace := u32 (addr part + len part - last) in
  let len := u32 (Z.of_nat evlen + Z.of_nat vallen + 2) in
  if freespace <? len then (-1, s)
  else
    let '(s, offset) := put_loop s last (take evlen envvar) in
    let '(s, offset) := put_loop s offset [61] in
    let '(s, offset) := put_loop s offset (take vallen value) in
    (0, s).

(** [while (nvram_read_byte(current)) current--] *)
Fixpoint back_zero (fuel : nat) (s : nvstate) (current : Z) : res Z :=
  match fuel with
  | O => OutOfFuel
  | S fuel' => if read s current =? 0 then Ok current else back_zero fuel' s (current - 1)
  end.

Definition nvram_del_env (s : nvstate) (part : partition_t) (envvar : list Z) (evlen : nat)
    : res (Z * nvstate) :=
  if addr part =? 0 then Ok (-1, s) else
  let last := find_last_envvar s part in
  pos ← get_past_env_pos s part envvar evlen;
  current ← back_zero (S (Z.to_nat pos)) s (pos - 1);
  let current := current + 1 in
  let '(buffer, s) := get_nvram_buffer NVRAM_LENGTH s (last - pos) in
  if negb buffer && (0 <? last - pos) then Fault
  else
    let bytes := read_loop NVRAM_LENGTH (Z.to_nat (last - pos)) s pos in
    let s := write_loop NVRAM_LENGTH s current bytes in
    let s := free_nvram_buffer s in
    Ok (0, erase_nvram NVRAM_LENGTH s last (current + last - pos)).

(** [while (nvram_read_byte(current) != '=') current--] *)
Fixpoint back_eq (fuel : nat) (s : nvstate) (current : Z) : res Z :=
  match fuel with
  | O => OutOfFuel
  | S fuel' => if read s current =? 61 then Ok current else back_eq fuel' s (u32 (current - 1))
  end.

(** [temp] is the static array of nvram_get_env. *)
Definition nvram_set_env (s : nvstate) (part : partition_t) (envvar : list Z) (evlen : nat)
    (value : list Z) (vallen : nat) (temp : list Z) : res (Z * nvstate) :=
  if addr part =? 0 then Ok (-1, s) else
  oldvalue ← nvram_get_env s part envvar evlen temp;
  match oldvalue with
  | None => Ok (nvram_add_env s part envvar evlen value vallen)
  | Some oldvalue =>
      if bool_decide (length oldvalue = vallen) && strncmp_eq vallen oldvalue value then Ok (0, s) else
      let last := u32 (find_last_envvar s part) in
      current ← get_past_env_pos s part envvar evlen;
      let current := u32 current in
      let buffersize := u32 (last - current) in
      let '(buffer, s) := get_nvram_buffer NVRAM_LENGTH s buffersize in
      if negb buffer then Ok (-1, s)
      else
        let bytes := read_loop NVRAM_LENGTH (Z.to_nat buffersize) s current in
        current ← back_eq (S (Z.to_nat current)) s current;
        let '(s, current) := put_loop s (u32 (current + 1)) (take vallen value) in
        let '(s, current) := put_loop s current [0] in
        let '(s, current) := put_loop s current bytes in
        let s := free_nvram_buffer s in
        Ok (0, erase_loop NVRAM_LENGTH (Z.to_nat (last - current)) s current)
  end.
End envvar.

(** ** The variables of a partition *)

Definition entry (e : list Z * list Z) : list Z := e.1 ++ 61 :: e.2.
Definition env_bytes (es : list (list Z * list Z)) : list Z := concat ((fun e => entry e ++ [0]) <$> es).

Definition entry_ok (e : list Z * list Z) : Prop :=
  e.1 <> [] /\ Forall (fun b => 0 < b < 256 /\ b <> 61) e.1 /\ Forall (fun b => 0 < b < 256) e.2 /\
  (length (entry e) < 256)%nat.

(** The partition [part] of [s] holds the variables [es] and [k] zero bytes. *)
Definition env_at (LEN : Z) (s : nvstate) (part : partition_t) (es : list (list Z * list Z)) (k : nat)
    (pre post : list Z) : Prop :=
  nvram s = pre ++ env_bytes es ++ replicate k 0 ++ post /\ Z.of_nat (length (nvram s)) = LEN /\
  addr part = Z.of_nat (length pre) /\ len part = Z.of_nat (length (env_bytes es) + k) /\
  Forall entry_ok es /\ 0 < addr part.

(** The first variable that starts with [name], as the code looks it up. *)
Definition starts (name : list Z) (e : list Z * list Z) : bool := strncmp_eq (length name) name (entry e).

Fixpoint lookup_env (name : list Z) (es : list (list Z * list Z)) : option (list Z) :=
  match es with
  | [] => None
  | e :: es' => if starts name e then Some e.2 else lookup_env name es'
  end.

Definition name_ok (name : list Z) : Prop := name <> [] /\ Forall (fun b => 0 < b < 256 /\ b <> 61) name.

(** ** Strings *)

Lemma strncmp_eq_nul n a b x y : strncmp_eq n a (b ++ 0 :: x) = strncmp_eq n a (b ++ 0 :: y).
Proof.
  revert a b. induction n as [|n IH]; intros a b; [done|]. cbn [strncmp_eq].
  destruct b as [|c b]; cbn [app hd tail].
  - by destruct (hd 0 a =? 0).
  - by rewrite IH.
Qed.

Lemma strncmp_eq_end n a b x : strncmp_eq n a (b ++ 0 :: x) = strncmp_eq n a b.
Proof.
  revert a b. induction n as [|n IH]; intros a b; [done|]. cbn [strncmp_eq].
  destruct b as [|c b]; cbn [app hd tail].
  - by destruct (hd 0 a =? 0).
  - by rewrite IH.
Qed.

(** A name without '=' cannot go past the '=' of a string. *)
Lemma strncmp_eq_past name e x :
  Forall (fun b => 0 < b < 256 /\ b <> 61) name ->
  strncmp_eq (length name) name (entry e ++ x) = strncmp_eq (length name) name (entry e).
Proof.
  intros Hn. unfold entry. destruct e as [n v]. cbn [fst snd]. revert n.
  induction Hn as [|b name [Hb Hne] _ IH]; intros n; [done|]. cbn [length strncmp_eq hd tail].
  destruct n as [|c n]; cbn [app hd tail].
  - destruct (Z.eqb_spec b 61); [done | done].
  - destruct (b =? c); cbn [negb]; [|done]. destruct (b =? 0); [done|]. apply IH.
Qed.

Lemma eq_pos_entry n v : Forall (fun b => 0 < b < 256 /\ b <> 61) n -> eq_pos (n ++ 61 :: v) = length n.
Proof.
  induction 1 as [|b n [_ Hb] _ IH]; [done|]. cbn [app eq_pos length]. destruct (Z.eqb_spec b 61); [done | by rewrite IH].
Qed.

Lemma upto_nul_end v x : Forall (fun b => 0 < b < 256) v -> upto_nul (v ++ 0 :: x) = v.
Proof.
  induction 1 as [|b v Hb _ IH]; [done|]. cbn [app upto_nul]. destruct (Z.eqb_spec b 0); [lia | by rewrite IH].
Qed.

Lemma entry_nonzero e : entry_ok e -> Forall (fun b => 0 < b < 256) (entry e).
Proof.
  intros (_ & Hn & Hv & _). unfold entry. apply Forall_app. split; [|constructor; [lia | done]].
  eapply Forall_impl; [|exact Hn]. by intros b [? _].
Qed.

Lemma env_bytes_app es es' : env_bytes (es ++ es') = env_bytes es ++ env_bytes es'.
Proof. unfold env_bytes. by rewrite fmap_app, concat_app. Qed.

Lemma env_bytes_cons e es : env_bytes (e :: es) = entry e ++ 0 :: env_bytes es.
Proof. unfold env_bytes. rewrite fmap_cons. cbn [concat]. by rewrite <- app_assoc. Qed.

Section reads.
Context (LEN : Z) (HLEN : 0 <= LEN < 2 ^ 31) (s : nvstate) (Hs : Z.of_nat (length (nvram s)) = LEN).

(** The byte after a prefix. *)
Lemma read_at A b post : nvram s = A ++ b :: post -> nvram_read_byte LEN s (Z.of_nat (length A)) = b.
Proof.
  intros E. rewrite (read_byte_nth LEN HLEN) by (done || (rewrite <- Hs, E, length_app; cbn [length]; lia)).
  by rewrite E, Nat2Z.id, nth_middle.
Qed.

Lemma env_string_spec A str post n :
  nvram s = A ++ str ++ 0 :: post -> Forall (fun b => 0 < b < 256) str -> (length str <= n)%nat ->
  env_string LEN n s (Z.of_nat (length A)) = (str, Z.of_nat (length (A ++ str ++ [0]))).
Proof.
  revert A n. induction str as [|b str IH]; intros A n E Hb Hn; cbn [app length] in *.
  - rewrite length_app. cbn [length]. destruct n as [|n]; cbn [env_string]; [f_equal; lia|].
    rewrite (read_at _ _ _ E). cbn [Z.eqb]. f_equal. lia.
  - destruct n as [|n]; [lia|]. cbn [env_string]. rewrite (read_at _ _ _ E).
    pose proof (Forall_inv Hb) as Hb0. cbn in Hb0. destruct (Z.eqb_spec b 0); [lia|].
    replace (Z.of_nat (length A) + 1) with (Z.of_nat (length (A ++ [b]))) by (rewrite length_app; cbn [length]; lia).
    rewrite (IH (A ++ [b]) n); [|by rewrite <- app_assoc | by apply Forall_inv_tail in Hb | lia].
    by rewrite <- !app_assoc.
Qed.

Lemma get_env_loop_spec es A post name temp fuel :
  nvram s = A ++ env_bytes es ++ 0 :: post -> Forall entry_ok es -> name_ok name -> (length es < fuel)%nat ->
  get_env_loop LEN fuel s name (length name) (Z.of_nat (length A)) temp = Ok (lookup_env name es).
Proof.
  intros E Hes [Hne Hname]. revert A temp fuel E. induction Hes as [|e es He Hes IH]; intros A temp [|fuel] E Hf;
    cbn [length] in Hf; try lia; cbn [get_env_loop lookup_env].
  - rewrite (env_string_spec A [] post) by (done || cbn; lia). cbn [app].
    destruct name as [|b name]; [done|]. pose proof (Forall_inv Hname) as [Hb _].
    cbn [length strncmp_eq hd]. by destruct (Z.eqb_spec b 0); [lia|].
  - rewrite env_bytes_cons, <- app_assoc in E. cbn [app] in E.
    pose proof (entry_nonzero _ He) as Hnz. pose proof He as (_ & Hn & Hv & Hl).
    rewrite (env_string_spec A (entry e) _ _ E Hnz) by lia. rewrite strncmp_eq_end. fold (starts name e).
    destruct (starts name e).
    + do 2 f_equal. destruct e as [n v]. unfold entry in *. cbn [fst snd] in *. rewrite eq_pos_entry by done.
      rewrite <- app_assoc. cbn [app]. rewrite drop_app, drop_ge by lia. cbn [app].
      replace (S (length n) - length n)%nat with 1%nat by lia. cbn [drop skipn]. by apply upto_nul_end.
    + rewrite decide_False by (unfold entry; by destruct e.1). apply IH; [|lia].
      rewrite E, <- !app_assoc. done.
Qed.

Lemma past_loop_spec es1 e es2 A post name temp fuel :
  nvram s = A ++ env_bytes (es1 ++ e :: es2) ++ post -> Forall entry_ok (es1 ++ e :: es2) -> name_ok name ->
  Forall (fun e => starts name e = false) es1 -> starts name e = true -> (length es1 < fuel)%nat ->
  past_loop LEN fuel s name (length name) (Z.of_nat (length A)) temp =
  Ok (Z.of_nat (length (A ++ env_bytes (es1 ++ [e])))).
Proof.
  intros E Hes [Hne Hname] Hno Hyes. revert A temp fuel E.
  induction es1 as [|x es1 IH]; intros A temp [|fuel] E Hf; cbn [app length] in *; try lia; cbn [past_loop];
    rewrite env_bytes_cons, <- app_assoc in E; cbn [app] in E; pose proof (Forall_inv Hes) as Hx;
    pose proof Hx as (_ & _ & _ & Hl);
    rewrite (env_string_spec A _ _ _ E (entry_nonzero _ Hx)) by lia; rewrite strncmp_eq_past by done.
  - fold (starts name e). rewrite Hyes. do 3 f_equal. by rewrite env_bytes_cons.
  - fold (starts name x). rewrite (Forall_inv Hno). rewrite decide_False by (unfold entry; by destruct x.1).
    rewrite (IH (Forall_inv_tail Hes) (Forall_inv_tail Hno) (A ++ entry x ++ [0])); [| |lia].
    + rewrite env_bytes_cons, <- !app_assoc. done.
    + rewrite E, <- !app_assoc. done.
Qed.

Lemma last_string A str post n last :
  nvram s = A ++ str ++ 0 :: post -> Forall (fun b => 0 < b < 256) str -> last <> 0 \/ str <> [] ->
  last_loop LEN (n + length str + 1) s (Z.of_nat (length A)) last =
  last_loop LEN n s (Z.of_nat (length (A ++ str ++ [0]))) 0.
Proof.
  revert A last. induction str as [|b str IH]; intros A last E Hb Hl; cbn [app length] in *.
  - rewrite Nat.add_0_r, Nat.add_1_r. cbn [last_loop]. rewrite (read_at _ _ _ E).
    destruct Hl as [Hl|]; [|done]. destruct (Z.eqb_spec last 0); [done|]. cbn [andb]. f_equal.
    rewrite length_app. cbn [length]. lia.
  - replace (n + S (length str) + 1)%nat with (S (n + length str + 1)) by lia. cbn [last_loop].
    rewrite (read_at _ _ _ E). pose proof (Forall_inv Hb) as Hb0. cbn in Hb0.
    destruct (Z.eqb_spec b 0); [lia|]. rewrite andb_false_r.
    replace (Z.of_nat (length A) + 1) with (Z.of_nat (length (A ++ [b]))) by (rewrite length_app; cbn [length]; lia).
    rewrite IH; [|by rewrite <- app_assoc | by apply Forall_inv_tail in Hb | by left].
    by rewrite <- !app_assoc.
Qed.

Lemma last_loop_spec es A post n last :
  nvram s = A ++ env_bytes es ++ 0 :: post -> Forall entry_ok es -> last = 0 \/ es <> [] ->
  last_loop LEN (length (env_bytes es) + S n) s (Z.of_nat (length A)) last = Z.of_nat (length (A ++ env_bytes es)).
Proof.
  revert A last. induction es as [|e es IH]; intros A last E Hes Hl.
  - destruct Hl as [->|]; [|done]. cbn [env_bytes]. change (env_bytes []) with (@nil Z) in *. cbn [length last_loop Nat.add].
    rewrite (read_at _ _ _ E), app_nil_r. done.
  - rewrite env_bytes_cons, <- app_assoc in E. cbn [app] in E. rewrite env_bytes_cons, length_app. cbn [length].
    replace (length (entry e) + S (length (env_bytes es)) + S n)%nat
      with ((length (env_bytes es) + S n) + length (entry e) + 1)%nat by lia.
    rewrite (last_string A (entry e) _ _ _ E);
      [|by apply entry_nonzero, (Forall_inv Hes) | right; unfold entry; by destruct e.1].
    rewrite IH; [by rewrite <- !app_assoc | by rewrite E, <- !app_assoc | by apply Forall_inv_tail in Hes | by left].
Qed.

(** Backwards over bytes that are not '='. *)
Lemma back_eq_spec X w c post fuel :
  nvram s = X ++ 61 :: w ++ c :: post -> Forall (fun b => b <> 61) w -> c <> 61 -> (S (length w) < fuel)%nat ->
  back_eq LEN fuel s (Z.of_nat (length (X ++ 61 :: w))) = Ok (Z.of_nat (length X)).
Proof.
  revert c post fuel. induction w as [|b w IH] using rev_ind; intros c post [|fuel] E Hw Hc Hf;
    rewrite ?length_app in Hf; cbn [length] in Hf; try lia; cbn [back_eq];
    assert (Hlen : Z.of_nat (length (nvram s)) < 2 ^ 31) by lia; rewrite E, !length_app in Hlen;
    cbn [length] in Hlen; rewrite ?length_app in Hlen; cbn [length] in Hlen.
  - cbn [app] in E. rewrite (read_at (X ++ [61]) c post) by (by rewrite E, <- app_assoc).
    destruct (Z.eqb_spec c 61); [done|]. rewrite length_app. cbn [length]. rewrite u32_small by lia.
    destruct fuel as [|fuel]; [lia|]. cbn [back_eq].
    replace (Z.of_nat (length X + 1) - 1) with (Z.of_nat (length X)) by lia.
    by rewrite (read_at X 61 _ E).
  - rewrite (read_at (X ++ 61 :: w ++ [b]) c post) by (rewrite E, <- !app_assoc; cbn [app]; by rewrite <- !app_assoc).
    destruct (Z.eqb_spec c 61); [done|]. apply Forall_app in Hw as [Hw Hb]. apply Forall_inv in Hb.
    rewrite length_app. cbn [length]. rewrite length_app. cbn [length]. rewrite u32_small by lia.
    replace (Z.of_nat (length X + S (length w + 1)) - 1) with (Z.of_nat (length (X ++ 61 :: w)))
      by (rewrite length_app; cbn [length]; lia).
    rewrite (IH b (c :: post)); [done | by rewrite E, <- !app_assoc | done | done | lia].
Qed.
End reads.

Lemma put_loop_write LEN bs s' off :
  0 <= off -> off + Z.of_nat (length bs) < 2 ^ 32 ->
  put_loop LEN s' off bs = (write_loop LEN s' off bs, off + Z.of_nat (length bs)).
Proof.
  revert s' off. induction bs as [|b bs IH]; intros s' off H0 H; cbn [put_loop write_loop length] in *; [f_equal; lia|].
  rewrite u32_small by lia. rewrite IH by lia. f_equal. lia.
Qed.

Lemma env_bytes_byte es : Forall entry_ok es -> Forall byte (env_bytes es).
Proof.
  induction 1 as [|e es He _ IH]; [constructor|]. rewrite env_bytes_cons. apply Forall_app. split.
  - eapply Forall_impl; [|by apply entry_nonzero]. intros b Hb. unfold byte. cbn in Hb. lia.
  - constructor; [by unfold byte | done].
Qed.

Lemma entries_length es : Forall entry_ok es -> (length es <= length (env_bytes es))%nat.
Proof.
  induction 1 as [|e es _ _ IH]; [done|]. rewrite env_bytes_cons, length_app. cbn [length]. lia.
Qed.

Lemma find_last_spec LEN s part es k pre post :
  0 <= LEN < 2 ^ 31 -> env_at LEN s part es (S k) pre post ->
  find_last_envvar LEN s part = addr part + Z.of_nat (length (env_bytes es)).
Proof.
  intros HLEN (E & Hl & Ha & Hlen & Hes & _). pose proof Hl as Hl'. rewrite E, !length_app, length_replicate in Hl'.
  unfold find_last_envvar. rewrite !s32_small by lia. rewrite Ha.
  replace (Z.to_nat _) with (length (env_bytes es) + S k)%nat by lia.
  rewrite (last_loop_spec LEN HLEN s Hl es pre (replicate k 0 ++ post)).
  - rewrite length_app. lia.
  - rewrite E. done.
  - done.
  - destruct es; [left|by right]. by apply (read_at LEN HLEN s Hl pre 0 (replicate k 0 ++ post)).
Qed.

(** The first variable that starts with the name gets the value. *)
Fixpoint update_env (name value : list Z) (es : list (list Z * list Z)) : list (list Z * list Z) :=
  match es with
  | [] => []
  | e :: es' => if starts name e then (e.1, value) :: es' else e :: update_env name value es'
  end.

Lemma lookup_env_split name es v :
  lookup_env name es = Some v ->
  exists es1 n es2, es = es1 ++ (n, v) :: es2 /\ Forall (fun e => starts name e = false) es1 /\
    starts name (n, v) = true /\ forall value, update_env name value es = es1 ++ (n, value) :: es2.
Proof.
  induction es as [|e es IH]; [done|]. cbn [lookup_env update_env]. destruct (starts name e) eqn:Es; intros E.
  - injection E as <-. exists [], e.1, es. destruct e. split_and!; done.
  - destruct (IH E) as (es1 & n & es2 & -> & H1 & H2 & H3). exists (e :: es1), n, es2.
    split_and!; [done | by constructor | done |]. intros value. by rewrite H3.
Qed.

Lemma strncmp_eq_full a b :
  length a = length b -> Forall (fun b => 0 < b < 256) a -> strncmp_eq (length b) a b = bool_decide (a = b).
Proof.
  revert b. induction a as [|x a IH]; intros [|y b] Hl Ha; try done. cbn [length strncmp_eq hd tail] in *.
  pose proof (Forall_inv Ha) as Hx. cbn in Hx. destruct (Z.eqb_spec x y) as [->|]; cbn [negb].
  - destruct (Z.eqb_spec y 0); [lia|]. rewrite IH; [| lia | by apply Forall_inv_tail in Ha].
    apply bool_decide_ext. split; congruence.
  - symmetry. apply bool_decide_eq_false_2. congruence.
Qed.

Lemma write_loop_app LEN s off a b :
  write_loop LEN s off (a ++ b) = write_loop LEN (write_loop LEN s off a) (off + Z.of_nat (length a)) b.
Proof.
  revert s off. induction a as [|x a IH]; intros s off; cbn [app write_loop length]; [by rewrite Z.add_0_r|].
  rewrite IH. f_equal. lia.
Qed.

Lemma erase_loop_free LEN n s i :
  erase_loop LEN n (free_nvram_buffer s) i = free_nvram_buffer (erase_loop LEN n s i).
Proof.
  revert s i. induction n as [|n IH]; intros s i; [done|]. cbn [erase_loop]. rewrite <- IH. f_equal.
  unfold nvram_write_byte, nvram_write, free_nvram_buffer. by destruct (_ <? _).
Qed.

(** The lengths of the pieces of a partition. *)
Ltac env_len :=
  repeat (progress (unfold entry, free_nvram_buffer in *; cbn [nvram length fst snd] in *;
    rewrite ?env_bytes_app, ?env_bytes_cons, ?length_app, ?length_replicate in *));
  change (env_bytes []) with (@nil Z) in *; cbn [length] in *.

Section changes.
Context (LEN : Z) (HLEN : 0 <= LEN < 2 ^ 31).

Lemma get_env_spec s part es k pre post name temp :
  env_at LEN s part es (S k) pre post -> name_ok name ->
  nvram_get_env LEN s part name (length name) temp = Ok (lookup_env name es).
Proof.
  intros (E & Hl & Ha & Hlen & Hes & H0) Hn. pose proof Hl as Hl'. rewrite E, !length_app, length_replicate in Hl'.
  pose proof (entries_length _ Hes). unfold nvram_get_env.
  destruct (Z.eqb_spec (addr part) 0); [lia|]. rewrite s32_small by lia. rewrite Ha.
  apply (get_env_loop_spec LEN HLEN s Hl es pre (replicate k 0 ++ post)); try done. unfold env_turns. lia.
Qed.

(** Erasing from inside the NVRAM to possibly past its end. *)
Lemma erase_tail s A rest m :
  nvram s = A ++ rest -> Z.of_nat (length (nvram s)) = LEN -> 0 <= m < 2 ^ 31 ->
  let n := Nat.min (Z.to_nat m) (length rest) in
  erase_nvram LEN s (Z.of_nat (length A)) m =
  NvState (A ++ replicate n 0 ++ drop n rest) (nvram_buffer_locked s).
Proof.
  intros E Hl Hm n. pose proof (f_equal length E) as El. rewrite length_app in El.
  unfold erase_nvram. rewrite !s32_small by lia. rewrite erase_loop_write.
  replace (Z.to_nat m) with (n + (Z.to_nat m - n))%nat at 1 by lia. rewrite replicate_add, write_loop_app.
  rewrite <- (erase_loop_write LEN n s). rewrite (erase_loop_at LEN HLEN s A (take n rest) (drop n rest));
    [|by rewrite take_drop | done | done | rewrite length_take; lia].
  rewrite length_replicate. destruct (decide (Z.to_nat m <= length rest)%nat).
  - replace (Z.to_nat m - n)%nat with 0%nat by lia. done.
  - apply write_loop_out; rewrite ?length_replicate; lia.
Qed.

(** Writing a tail of the partition anew and clearing what is left of the old one. *)
Lemma rewrite_tail s X old k post new k' :
  nvram s = X ++ old ++ replicate k 0 ++ post -> Z.of_nat (length (nvram s)) = LEN -> Forall byte new ->
  (length new + k' = length old + k)%nat ->
  erase_loop LEN (Z.to_nat (Z.of_nat (length (X ++ old)) - Z.of_nat (length (X ++ new))))
    (write_loop LEN s (Z.of_nat (length X)) new) (Z.of_nat (length (X ++ new))) =
  NvState (X ++ new ++ replicate k' 0 ++ post) (nvram_buffer_locked s).
Proof.
  intros E Hl Hb Hk. set (T := old ++ replicate k 0). pose proof (f_equal length E) as El.
  rewrite !length_app, length_replicate in El.
  assert (HT : (length new <= length T)%nat) by (unfold T; rewrite length_app, length_replicate; lia).
  rewrite (write_loop_at LEN HLEN s X (take (length new) T) (drop (length new) T ++ post));
    [| | done | done | by rewrite length_take, Nat.min_l by lia | done].
  2:{ rewrite E. rewrite (app_assoc (take _ _)), take_drop. unfold T. by rewrite <- app_assoc. }
  rewrite !length_app, !Nat2Z.inj_add. destruct (decide (length new <= length old)%nat) as [Hs|Hs].
  - replace (Z.to_nat _) with (length old - length new)%nat by lia.
    rewrite (erase_loop_at LEN HLEN _ (X ++ new) (drop (length new) old) (replicate k 0 ++ post)).
    + rewrite <- !app_assoc. do 3 f_equal. rewrite app_assoc, <- replicate_add. do 2 f_equal. lia.
    + cbn [nvram]. unfold T. rewrite drop_app_le by lia. by rewrite <- !app_assoc.
    + cbn [nvram]. unfold T in *. rewrite !length_app, length_drop in *. rewrite length_app, length_replicate in *. lia.
    + rewrite length_app. lia.
    + by rewrite length_drop.
  - replace (Z.to_nat _) with 0%nat by lia. cbn [erase_loop]. do 3 f_equal. unfold T.
    rewrite drop_app, (drop_ge old) by lia. cbn [app]. rewrite drop_replicate. do 2 f_equal. lia.
Qed.
End changes.

(** ** Reading and setting a variable *)

(** nvram_get_env returns the value of the first variable whose string
    starts with the name asked for (strncmp over the name's length), and NULL
    when there is none, whatever its static array held before; the partition
    has an end marker. *)
Theorem nvram_get_env_correct LEN s part es k pre post name temp :
  0 <= LEN < 2 ^ 31 -> env_at LEN s part es (S k) pre post -> name_ok name ->
  nvram_get_env LEN s part name (length name) temp = Ok (lookup_env name es).
Proof. intros HLEN. by apply get_env_spec. Qed.

(** The effect of nvram_set_env: the result, the variables and the zero bytes
    after them. *)
Definition after_set (locked : bool) (name value : list Z) (es : list (list Z * list Z)) (k : nat)
    : Z * list (list Z * list Z) * nat :=
  match lookup_env name es with
  | None =>
      if decide (k < length name + length value + 2)%nat then (-1, es, k)
      else (0, es ++ [(name, value)], (k - (length name + length value + 2))%nat)
  | Some v =>
      if decide (v = value) then (0, es, k)
      else if locked then (-1, es, k)
      else (0, update_env name value es, (k + length v - length value)%nat)
  end.

Section set.
Context (LEN : Z) (HLEN : 0 <= LEN < 2 ^ 31).

Lemma put_loop_at s X bs :
  Z.of_nat (length (X ++ bs)) < 2 ^ 32 ->
  put_loop LEN s (Z.of_nat (length X)) bs = (write_loop LEN s (Z.of_nat (length X)) bs, Z.of_nat (length (X ++ bs))).
Proof. rewrite length_app. intros H. rewrite put_loop_write by lia. f_equal. lia. Qed.

Lemma write_loop_at_app s X a b :
  write_loop LEN (write_loop LEN s (Z.of_nat (length X)) a) (Z.of_nat (length (X ++ a))) b =
  write_loop LEN s (Z.of_nat (length X)) (a ++ b).
Proof. rewrite write_loop_app, length_app. do 2 f_equal. lia. Qed.

Lemma add_env_spec s part es k pre post name value :
  env_at LEN s part es (S k) pre post -> Forall byte name -> Forall byte value -> Z.of_nat (length name + length value + 2) < 2 ^ 32 ->
  nvram_add_env LEN s part name (length name) value (length value) =
  if decide (S k < length name + length value + 2)%nat then (-1, s)
  else
    (0, NvState (pre ++ env_bytes (es ++ [(name, value)]) ++
                 replicate (S k - (length name + length value + 2)) 0 ++ post) (nvram_buffer_locked s)).
Proof.
  intros He Hn Hv Hsz. pose proof He as (E & Hl & Ha & Hlen & Hes & H0).
  pose proof (f_equal length E) as El. rewrite !length_app, length_replicate in El.
  unfold nvram_add_env. rewrite (find_last_spec LEN s part es k pre post HLEN He).
  rewrite (u32_small (addr part + _)) by lia. rewrite !u32_small by lia.
  destruct (Z.ltb_spec (addr part + len part - (addr part + Z.of_nat (length (env_bytes es))))
              (Z.of_nat (length name) + Z.of_nat (length value) + 2)); case_decide; try lia; [done|].
  rewrite !take_ge by done. set (X := pre ++ env_bytes es).
  replace (addr part + Z.of_nat (length (env_bytes es))) with (Z.of_nat (length X))
    by (unfold X; rewrite length_app; lia).
  assert (HX : Z.of_nat (length X) + Z.of_nat (length name + length value + 2) < 2 ^ 32)
    by (unfold X; rewrite length_app; lia).
  rewrite put_loop_at by (rewrite length_app; lia). rewrite put_loop_at by (rewrite !length_app; cbn [length]; lia).
  rewrite put_loop_at by (rewrite !length_app; cbn [length]; lia). f_equal.
  rewrite (write_loop_at_app s X name [61]), <- (app_assoc X), write_loop_at_app.
  rewrite (write_loop_at LEN HLEN s X (replicate (length ((name ++ [61]) ++ value)) 0)
             (replicate (S k - (length name + length value + 1)) 0 ++ post)).
  - f_equal. unfold X. rewrite env_bytes_app, <- !app_assoc. do 2 f_equal. rewrite env_bytes_cons. unfold entry.
    cbn [fst snd]. rewrite <- !app_assoc. cbn [app]. do 3 f_equal.
    change (env_bytes []) with (@nil Z). cbn [app].
    replace (S k - (length name + length value + 1))%nat with (S (S k - (length name + length value + 2))) by lia.
    done.
  - rewrite E. unfold X. rewrite <- !app_assoc. do 2 f_equal. rewrite app_assoc, <- replicate_add. do 2 f_equal.
    rewrite !length_app. cbn [length]. lia.
  - done.
  - done.
  - by rewrite length_replicate.
  - rewrite !Forall_app. split_and!; [done | by constructor | done].
Qed.

(** The value of an existing variable is replaced. *)
Lemma replace_env_spec s part es1 n v es2 k pre post value :
  let k' := (S k + length v - length value)%nat in
  env_at LEN s part (es1 ++ (n, v) :: es2) (S k) pre post -> Forall (fun b => b <> 61) v -> Forall byte value ->
  (length value <= length v + S k)%nat ->
  let X := pre ++ env_bytes es1 ++ n ++ [61] in
  let last := Z.of_nat (length pre + length (env_bytes (es1 ++ (n, v) :: es2))) in
  let current := Z.of_nat (length (pre ++ env_bytes (es1 ++ [(n, v)]))) in
  read_loop LEN (Z.to_nat (last - current)) s current = env_bytes es2 /\
  back_eq LEN (S (Z.to_nat current)) s current = Ok (Z.of_nat (length X) - 1) /\
  let new := value ++ 0 :: env_bytes es2 in
  erase_loop LEN (Z.to_nat (last - Z.of_nat (length (X ++ new)))) (write_loop LEN s (Z.of_nat (length X)) new)
    (Z.of_nat (length (X ++ new))) =
  NvState (pre ++ env_bytes (es1 ++ (n, value) :: es2) ++ replicate k' 0 ++ post) (nvram_buffer_locked s).
Proof.
  intros k' (E & Hl & Ha & Hlen & Hes & H0) Hv Hb Hk X last current.
  pose proof (f_equal length E) as El. rewrite !length_app, length_replicate in El.
  apply Forall_app in Hes as [_ Hes]. pose proof (Forall_inv Hes) as (Hn0 & Hn & Hvb & _). cbn [fst snd] in *.
  apply Forall_inv_tail in Hes. rewrite env_bytes_app, env_bytes_cons in E, El.
  unfold entry in E, El. cbn [fst snd] in E, El.
  assert (EX : nvram s = X ++ (v ++ 0 :: env_bytes es2) ++ replicate (S k) 0 ++ post).
  { rewrite E. unfold X. rewrite <- !app_assoc. cbn [app]. by rewrite <- ?app_assoc. }
  assert (Hc : pre ++ env_bytes (es1 ++ [(n, v)]) = X ++ v ++ [0]).
  { unfold X. rewrite env_bytes_app, env_bytes_cons. unfold entry. cbn [fst snd].
    rewrite <- !app_assoc. cbn [app]. by rewrite <- ?app_assoc. }
  assert (Hlast : last = Z.of_nat (length (X ++ v ++ 0 :: env_bytes es2))).
  { unfold last, X. f_equal. rewrite env_bytes_app, env_bytes_cons. unfold entry. cbn [fst snd].
    rewrite ?length_app; cbn [length]; rewrite ?length_app; cbn [length]; lia. }
  split_and!.
  - unfold current. rewrite Hc, Hlast. replace (Z.to_nat _) with (length (env_bytes es2))
      by (rewrite !length_app; cbn [length]; lia).
    rewrite (read_loop_at LEN HLEN s Hl (X ++ v ++ [0]) (env_bytes es2) (replicate (S k) 0 ++ post)); [done|].
    rewrite EX, <- !app_assoc. done.
  - assert (Hx : exists c r, env_bytes es2 ++ replicate (S k) 0 ++ post = c :: r /\ c <> 61).
    { destruct es2 as [|[[|c n2] v2] es2]; [by exists 0, (replicate k 0 ++ post) | by destruct (Forall_inv Hes) |].
      destruct (Forall_inv Hes) as (_ & Hc2 & _). apply Forall_inv in Hc2 as [_ Hc2].
      eexists c, _. split; [by rewrite env_bytes_cons | done]. }
    destruct Hx as (c & r & Hx & Hc61). set (X' := pre ++ env_bytes es1 ++ n).
    assert (HX : X = X' ++ [61]) by (unfold X, X'; by rewrite <- !app_assoc).
    unfold current. rewrite Hc, HX, <- app_assoc.
    rewrite (back_eq_spec LEN HLEN s Hl X' (v ++ [0]) c r); [| |apply Forall_app; split; [done | by constructor] | done |].
    + f_equal. rewrite length_app. cbn [length]. lia.
    + rewrite EX, HX, <- Hx, <- !app_assoc. cbn [app]. by rewrite <- ?app_assoc.
    + rewrite !length_app; cbn [length]; rewrite ?length_app; cbn [length]; lia.
  - set (new := value ++ 0 :: env_bytes es2). rewrite Hlast.
    rewrite (rewrite_tail LEN HLEN s X (v ++ 0 :: env_bytes es2) (S k) post new k'); [|done|done| |].
    + f_equal. unfold X, new. rewrite env_bytes_app, env_bytes_cons. unfold entry. cbn [fst snd].
      rewrite <- !app_assoc. cbn [app]. by rewrite <- ?app_assoc.
    + apply Forall_app. split; [done|]. constructor; [by unfold byte|]. apply env_bytes_byte. done.
    + unfold new. rewrite !length_app. cbn [length]. lia.
Qed.
End set.

(** C18: nvram_set_env.  A variable that is not there is added after the last
    one when its string fits in what is left (-1 and no change when it does
    not), an equal value is left alone, and another value replaces the old one,
    with the variables that follow moved and the bytes set free cleared (-1 and
    no change when the temporary buffer is in use).  Every other variable and
    the rest of the NVRAM stay as they are.  The old value has no '=', and the
    new one fits. *)
Theorem nvram_set_env_correct LEN s part es k pre post name value temp :
  0 <= LEN < 2 ^ 31 -> env_at LEN s part es (S k) pre post -> name_ok name ->
  Forall (fun b => 0 < b < 256) value -> Z.of_nat (length name + length value + 2) < 2 ^ 31 ->
  let '(rc, es', k') := after_set (nvram_buffer_locked s) name value es (S k) in
  Forall entry_ok es' ->
  (forall v, lookup_env name es = Some v -> Forall (fun b => b <> 61) v /\ (length value <= length v + S k)%nat) ->
  exists s', nvram_set_env LEN s part name (length name) value (length value) temp = Ok (rc, s') /\
    env_at LEN s' part es' k' pre post /\ nvram_buffer_locked s' = nvram_buffer_locked s.
Proof.
  intros HLEN He Hname Hvb Hsz. pose proof He as (E & Hl & Ha & Hlen & Hes & H0).
  pose proof (f_equal length E) as El. rewrite !length_app, length_replicate in El.
  assert (Hvb' : Forall byte value) by (eapply Forall_impl; [|exact Hvb]; unfold byte; cbn; lia).
  assert (Hnb : Forall byte name) by (eapply Forall_impl; [|apply (proj2 Hname)]; unfold byte; cbn; lia).
  unfold nvram_set_env. destruct (Z.eqb_spec (addr part) 0) as [?|_]; [lia|].
  rewrite (get_env_spec LEN HLEN s part es k pre post name temp He Hname). res_simpl. unfold after_set.
  destruct (lookup_env name es) as [v|] eqn:Ev.
  - destruct (lookup_env_split name es v Ev) as (es1 & n & es2 & -> & Hno & Hyes & Hupd).
    pose proof (proj2 (proj1 (Forall_app _ _ _) Hes)) as Hvn. apply Forall_inv in Hvn as (_ & _ & Hvn & _). cbn [snd] in Hvn.
    replace (bool_decide (length v = length value) && strncmp_eq (length value) v value) with (bool_decide (v = value)).
    2:{ destruct (decide (length v = length value)) as [e|e].
        - by rewrite (bool_decide_eq_true_2 _ e), strncmp_eq_full.
        - rewrite (bool_decide_eq_false_2 _ e). apply bool_decide_eq_false_2. congruence. }
    case_bool_decide as Evv; [rewrite decide_True by done | rewrite decide_False by done]; cbn [negb];
      [intros _ _; by exists s|].
    rewrite (find_last_spec LEN s part _ k pre post HLEN He).
    unfold get_past_env_pos. rewrite s32_small, Ha by lia.
    rewrite env_bytes_app, length_app in El. pose proof (entries_length _ (proj1 (proj1 (Forall_app _ _ _) Hes))).
    rewrite (past_loop_spec LEN HLEN s Hl es1 (n, v) es2 pre (replicate (S k) 0 ++ post))
      by (done || (unfold env_turns; lia)). res_simpl.
    set (current := Z.of_nat (length (pre ++ env_bytes (es1 ++ [(n, v)])))).
    rewrite <- Nat2Z.inj_add. set (last := Z.of_nat (length pre + length (env_bytes (es1 ++ (n, v) :: es2)))).
    assert (Hc : 0 <= current <= last /\ last < 2 ^ 31 /\ last <= LEN).
    { unfold current, last. rewrite !env_bytes_app, (env_bytes_cons _ es2), (env_bytes_cons _ []), !length_app in *.
      cbn [length] in *. change (env_bytes []) with (@nil Z). cbn [length]. lia. }
    rewrite (u32_small last), (u32_small current), (u32_small (last - current)) by lia.
    unfold get_nvram_buffer. rewrite (u32_small (last - current)) by lia.
    destruct (Z.ltb_spec LEN (last - current)); [lia|].
    destruct (nvram_buffer_locked s) eqn:Hlock; cbn [negb]; [intros _ _; by exists s|]. intros Hok Hv.
    destruct (Hv v eq_refl) as [Hv61 Hfit].
    set (s1 := NvState (nvram s) true).
    assert (He1 : env_at LEN s1 part (es1 ++ (n, v) :: es2) (S k) pre post) by exact He.
    destruct (replace_env_spec LEN HLEN s1 part es1 n v es2 k pre post value He1 Hv61 Hvb' Hfit) as (R1 & R2 & R3).
    cbn [nvram nvram_buffer_locked] in *.
    fold last current in R1, R2, R3. rewrite R1, R2. res_simpl. rewrite take_ge by done.
    set (X := pre ++ env_bytes es1 ++ n ++ [61]) in *. set (new := value ++ 0 :: env_bytes es2) in *.
    assert (HX : Z.of_nat (length (X ++ new)) < 2 ^ 32 /\ new = (value ++ [0]) ++ env_bytes es2).
    { split; [|unfold new; by rewrite <- app_assoc]. unfold X, new. rewrite ?length_app; cbn [length]; rewrite ?length_app.
      rewrite env_bytes_cons, length_app in El. unfold entry in El. rewrite length_app in El. cbn [fst snd length] in *. lia. }
    destruct HX as [HX Hnew].
    replace (Z.of_nat (length X) - 1 + 1) with (Z.of_nat (length X)) by lia.
    rewrite Hnew, !length_app in HX. cbn [length] in HX. rewrite u32_small by lia.
    rewrite put_loop_at by (rewrite ?length_app; lia). rewrite put_loop_at by (rewrite ?length_app; cbn [length]; lia).
    rewrite put_loop_at by (rewrite ?length_app; cbn [length]; lia).
    rewrite write_loop_at_app, <- (app_assoc X), write_loop_at_app, <- (app_assoc X), <- Hnew, erase_loop_free.
    change (value ++ [0] ++ env_bytes es2) with new. rewrite R3.
    eexists. split; [reflexivity|]. split; [|done]. rewrite Hupd in *.
    clear -El Hl Ha Hlen H0 Hfit Hok E. split_and!; try done; env_len; lia.
  - rewrite (add_env_spec LEN HLEN s part es k pre post) by (done || lia). case_decide; intros Hok _; [by exists s|].
    eexists. split; [reflexivity|]. split; [|done]. split_and!; try done; cbn [nvram].
    + env_len. lia.
    + env_len. lia.
Qed.

(** "ab=x", "c=yz" and five zero bytes, at 16. *)
Definition demo_env : list (list Z * list Z) := [([97; 98], [120]); ([99], [121; 122])].
Definition demo_pre : list Z := replicate 16 1.
Definition demo_post : list Z := replicate 8 7.
Definition demo_part : partition_t := Partition 16 15.
Definition demo_state (es : list (list Z * list Z)) (k : nat) : nvstate :=
  NvState (demo_pre ++ env_bytes es ++ replicate k 0 ++ demo_post) false.

Lemma demo_env_at : env_at 39 (demo_state demo_env 5) demo_part demo_env 5 demo_pre demo_post.
Proof.
  split_and!; try reflexivity; try lia; repeat constructor; cbn; unfold not; intros; try lia; discriminate.
Qed.

Lemma nvram_get_env_correct_witness :
  nvram_get_env 39 (demo_state demo_env 5) demo_part [99] 1 (replicate 257 0) = Ok (Some [121; 122]).
Proof.
  apply (nvram_get_env_correct 39 (demo_state demo_env 5) demo_part demo_env 4 demo_pre demo_post [99] (replicate 257 0)).
  - lia.
  - exact demo_env_at.
  - split; [discriminate | repeat constructor; lia].
Defined.

(** "ab=x" becomes "ab=wxyz". *)
Lemma nvram_set_env_correct_witness :
  exists s', nvram_set_env 39 (demo_state demo_env 5) demo_part [97; 98] 2 [119; 120; 121; 122] 4 (replicate 257 0) = Ok (0, s') /\
    env_at 39 s' demo_part [([97; 98], [119; 120; 121; 122]); ([99], [121; 122])] 2 demo_pre demo_post /\
    nvram_buffer_locked s' = false.
Proof.
  apply (nvram_set_env_correct 39 (demo_state demo_env 5) demo_part demo_env 4 demo_pre demo_post [97; 98]
           [119; 120; 121; 122] (replicate 257 0)).
  - lia.
  - exact demo_env_at.
  - split; [discriminate | repeat constructor; lia].
  - repeat constructor; lia.
  - cbn. lia.
  - repeat constructor; cbn; unfold not; intros; try lia; discriminate.
  - intros v [= <-]. split; [repeat constructor; lia | cbn; lia].
Defined.

(** ** What the functions do with the remaining inputs *)

(** The name is a prefix: asking for "a" gives the value of "ab". *)
Example get_env_prefix :
  nvram_get_env 39 (demo_state demo_env 5) demo_part [97] 1 (replicate 257 0) = Ok (Some [120]).
Proof. vm_compute. reflexivity. Qed.

(** An old value with '=' is replaced from its last '=' on:
    "a=1=2" set to "3" becomes "a=1=3". *)
Example set_env_last_equals :
  (fun r => nvram r.2) <$>
    nvram_set_env 39 (demo_state [([97], [49; 61; 50])] 9) demo_part [97] 1 [51] 1 (replicate 257 0) =
  Ok (demo_pre ++ [97; 61; 49; 61; 51; 0] ++ replicate 9 0 ++ demo_post).
Proof. vm_compute. reflexivity. Qed.

(** A longer value is not checked against the size of the partition: what
    follows it is overwritten. *)
Example set_env_past_partition :
  (fun r => (r.1, drop 31 (nvram r.2))) <$>
    nvram_set_env 39 (demo_state demo_env 5) demo_part [99] 1 (replicate 10 65) 10 (replicate 257 0) =
  Ok (0, [65; 65; 0; 7; 7; 7; 7; 7]).
Proof. vm_compute. reflexivity. Qed.

(** In a partition without two zero bytes find_last_envvar gives -1, there
    seems to be space, and the variable goes to the start of the NVRAM: the
    name's first byte is lost and "=xyz" overwrites bytes 0 to 3. *)
Example add_env_full :
  (fun r => (r.1, take 5 (nvram r.2)))
    (nvram_add_env 39 (demo_state demo_env 0) (Partition 16 10) [100] 1 [120; 121; 122] 3) =
  (0, [61; 120; 121; 122; 1]).
Proof. vm_compute. reflexivity. Qed.

(** nvram_del_env deletes nothing: it looks for the end of the string
    before the variable from the NUL that ends the variable itself, so it moves
    the variables after it onto themselves; then it clears, after the last
    variable, as many bytes as lie before it in the NVRAM, those of the
    partition and those after it. *)
Theorem nvram_del_env_keeps LEN s part es k pre post name v :
  0 <= LEN < 2 ^ 31 -> env_at LEN s part es (S k) pre post -> name_ok name ->
  lookup_env name es = Some v -> nvram_buffer_locked s = false ->
  let rest := replicate (S k) 0 ++ post in
  let n := Nat.min (length pre + length (env_bytes es)) (length rest) in
  nvram_del_env LEN s part name (length name) =
  Ok (0, NvState (pre ++ env_bytes es ++ replicate n 0 ++ drop n rest) false).
Proof.
  intros HLEN He Hname Hv Hlock rest n. pose proof He as (E & Hl & Ha & Hlen & Hes & H0).
  fold rest in E. pose proof (f_equal length E) as El. rewrite !length_app in El.
  destruct (lookup_env_split name es v Hv) as (es1 & m & es2 & -> & Hno & Hyes & _).
  unfold nvram_del_env. destruct (Z.eqb_spec (addr part) 0); [lia|].
  rewrite (find_last_spec LEN s part _ k pre post HLEN He), Ha. unfold get_past_env_pos. rewrite Ha, s32_small by lia.
  pose proof (entries_length _ (proj1 (proj1 (Forall_app _ _ _) Hes))).
  assert (Ep : env_bytes (es1 ++ (m, v) :: es2) = env_bytes (es1 ++ [(m, v)]) ++ env_bytes es2).
  { replace (es1 ++ (m, v) :: es2) with ((es1 ++ [(m, v)]) ++ es2) by (by rewrite <- app_assoc). apply env_bytes_app. }
  rewrite (past_loop_spec LEN HLEN s Hl es1 (m, v) es2 pre rest)
    by (done || (unfold env_turns; rewrite env_bytes_app, length_app in El; lia)). res_simpl.
  set (P := pre ++ env_bytes (es1 ++ [(m, v)])).
  assert (EP : nvram s = P ++ env_bytes es2 ++ rest) by (by rewrite E, Ep; unfold P; rewrite <- !app_assoc).
  assert (Hlast : Z.of_nat (length pre) + Z.of_nat (length (env_bytes (es1 ++ (m, v) :: es2))) = Z.of_nat (length (P ++ env_bytes es2))).
  { unfold P. rewrite Ep, !length_app. lia. }
  rewrite Hlast. rewrite Ep, length_app in El.
  assert (EQ : exists Q, P = Q ++ [0]).
  { unfold P. rewrite env_bytes_app, env_bytes_cons. exists (pre ++ env_bytes es1 ++ entry (m, v)).
    by rewrite <- !app_assoc. }
  assert (Hb0 : back_zero LEN (S (Z.to_nat (Z.of_nat (length P)))) s (Z.of_nat (length P) - 1) = Ok (Z.of_nat (length P) - 1)).
  { destruct EQ as [Q EQ]. cbn [back_zero].
    replace (Z.of_nat (length P) - 1) with (Z.of_nat (length Q)) by (rewrite EQ, length_app; cbn [length]; lia).
    rewrite (read_at LEN HLEN s Hl Q 0 (env_bytes es2 ++ rest)); [done|]. by rewrite EP, EQ, <- app_assoc. }
  rewrite Hb0. res_simpl.
  unfold get_nvram_buffer. rewrite length_app in *. rewrite u32_small by lia.
  destruct (Z.ltb_spec LEN (Z.of_nat (length P + length (env_bytes es2)) - Z.of_nat (length P))); [lia|].
  rewrite Hlock. cbn [negb andb]. set (s1 := NvState (nvram s) true).
  replace (Z.to_nat _) with (length (env_bytes es2)) by lia.
  rewrite (read_loop_at LEN HLEN s1 Hl P (env_bytes es2) rest EP).
  replace (Z.of_nat (length P) - 1 + 1) with (Z.of_nat (length P)) by lia.
  rewrite (write_loop_at LEN HLEN s1 P (env_bytes es2) rest (Z.of_nat (length P)) (env_bytes es2) EP Hl eq_refl eq_refl).
  2:{ apply env_bytes_byte. apply Forall_app in Hes as [_ Hes]. by apply Forall_inv_tail in Hes. }
  unfold free_nvram_buffer. cbn [nvram]. rewrite <- EP.
  rewrite <- (length_app P). rewrite (erase_tail LEN HLEN _ (P ++ env_bytes es2) rest); cbn [nvram nvram_buffer_locked].
  - match goal with |- context [replicate ?x 0] => replace x with n by (unfold n; rewrite length_app in *; lia) end.
    do 2 f_equal. rewrite Ep. unfold P. by rewrite <- !app_assoc.
  - by rewrite EP, <- app_assoc.
  - done.
  - pose proof (f_equal length EP) as EPl. rewrite !length_app in EPl. rewrite length_app. lia.
Qed.

(** "ab" is still there after it was deleted, and the 8 bytes after the
    partition are 0. *)
Lemma nvram_del_env_keeps_witness :
  nvram_del_env 39 (demo_state demo_env 5) demo_part [97; 98] 2 =
  Ok (0, NvState (demo_pre ++ env_bytes demo_env ++ replicate 13 0) false).
Proof.
  apply (nvram_del_env_keeps 39 (demo_state demo_env 5) demo_part demo_env 4 demo_pre demo_post [97; 98] [120]).
  - lia.
  - exact demo_env_at.
  - split; [discriminate | repeat constructor; lia].
  - reflexivity.
  - reflexivity.
Defined.
