(* ===== verification/Elf.v ===== *)
(** * lib/libelf: the ELF loader

    elf.c, elf32.c and elf64.c over the memory of CMem.v.  The structs of the
    two classes are tables of fields (offset and width in bytes), so that the
    functions that elf32.c and elf64.c define once each are one definition with
    the class as its argument; elf_relocate64 exists for 64-bit files only.
    pre_load and post_load are the callbacks of the caller, functions on the
    memory; [None] is NULL.  The output of printf is not modelled. *)

From Stdlib Require Import ZArith Lia.
From stdpp Require Import base list gmap option numbers.
From S2P Require Import Prelude CMem CString.

(** ** The data *)

Inductive elfclass := C32 | C64.

(** A field of a struct: its offset and its width. *)
Definition field : Type := Z * nat.

Definition f_ei_ident : field := (0, 4%nat).
Definition f_ei_class : field := (4, 1%nat).
Definition f_ei_data : field := (5, 1%nat).
Definition f_e_type : field := (16, 2%nat).
Definition f_e_machine : field := (18, 2%nat).

(** struct ehdr32 and ehdr64, from e_type on. *)
Definition ehdr_fields (c : elfclass) : list field :=
  match c with
  | C32 => [(16, 2%nat); (18, 2%nat); (20, 4%nat); (24, 4%nat); (28, 4%nat); (32, 4%nat); (36, 4%nat);
            (40, 2%nat); (42, 2%nat); (44, 2%nat); (46, 2%nat); (48, 2%nat); (50, 2%nat)]
  | C64 => [(16, 2%nat); (18, 2%nat); (20, 4%nat); (24, 8%nat); (32, 8%nat); (40, 8%nat); (48, 4%nat);
            (52, 2%nat); (54, 2%nat); (56, 2%nat); (58, 2%nat); (60, 2%nat); (62, 2%nat)]
  end.

Definition f_e_entry (c : elfclass) : field := match c with C32 => (24, 4%nat) | C64 => (24, 8%nat) end.
Definition f_e_phoff (c : elfclass) : field := match c with C32 => (28, 4%nat) | C64 => (32, 8%nat) end.
Definition f_e_shoff (c : elfclass) : field := match c with C32 => (32, 4%nat) | C64 => (40, 8%nat) end.
Definition f_e_flags (c : elfclass) : field := match c with C32 => (36, 4%nat) | C64 => (48, 4%nat) end.
Definition f_e_ehsize (c : elfclass) : field := match c with C32 => (40, 2%nat) | C64 => (52, 2%nat) end.
Definition f_e_phentsize (c : elfclass) : field := match c with C32 => (42, 2%nat) | C64 => (54, 2%nat) end.
Definition f_e_phnum (c : elfclass) : field := match c with C32 => (44, 2%nat) | C64 => (56, 2%nat) end.
Definition f_e_shentsize (c : elfclass) : field := match c with C32 => (46, 2%nat) | C64 => (58, 2%nat) end.
Definition f_e_shnum (c : elfclass) : field := match c with C32 => (48, 2%nat) | C64 => (60, 2%nat) end.

Definition EHDR_SIZE : Z := 24.   (* sizeof(struct ehdr) *)
Definition ehdr_size (c : elfclass) : Z := match c with C32 => 52 | C64 => 64 end.

(** struct phdr32 and phdr64. *)
Definition phdr_fields (c : elfclass) : list field :=
  match c with
  | C32 => [(0, 4%nat); (4, 4%nat); (8, 4%nat); (12, 4%nat); (16, 4%nat); (20, 4%nat); (24, 4%nat); (28, 4%nat)]
  | C64 => [(0, 4%nat); (4, 4%nat); (8, 8%nat); (16, 8%nat); (24, 8%nat); (32, 8%nat); (40, 8%nat); (48, 8%nat)]
  end.

Definition f_p_type : field := (0, 4%nat).
Definition f_p_offset (c : elfclass) : field := match c with C32 => (4, 4%nat) | C64 => (8, 8%nat) end.
Definition f_p_vaddr (c : elfclass) : field := match c with C32 => (8, 4%nat) | C64 => (16, 8%nat) end.
Definition f_p_paddr (c : elfclass) : field := match c with C32 => (12, 4%nat) | C64 => (24, 8%nat) end.
Definition f_p_filesz (c : elfclass) : field := match c with C32 => (16, 4%nat) | C64 => (32, 8%nat) end.
Definition f_p_memsz (c : elfclass) : field := match c with C32 => (20, 4%nat) | C64 => (40, 8%nat) end.

(** struct shdr32 and shdr64, struct rela and struct sym64. *)
Definition f_sh_type : field := (4, 4%nat).
Definition f_sh_flags64 : field := (8, 8%nat).
Definition f_sh_offset (c : elfclass) : field := match c with C32 => (16, 4%nat) | C64 => (24, 8%nat) end.
Definition f_sh_size (c : elfclass) : field := match c with C32 => (20, 4%nat) | C64 => (32, 8%nat) end.
Definition f_sh_link64 : field := (40, 4%nat).
Definition f_sh_info64 : field := (44, 4%nat).
Definition f_sh_entsize64 : field := (56, 8%nat).
Definition SHDR64_SIZE : Z := 64.

Definition f_r_offset : field := (0, 8%nat).
Definition f_r_info : field := (8, 8%nat).
Definition f_r_addend : field := (16, 8%nat).
Definition f_st_value : field := (8, 8%nat).
Definition SYM64_SIZE : Z := 24.

Definition ELFDATA2MSB : Z := 2.
Definition ET_EXEC : Z := 2.
Definition ET_DYN : Z := 3.
Definition PT_LOAD : Z := 1.
Definition SHT_RELA : Z := 4.
Definition SHF_ALLOC : Z := 2.

(** The value of a field of the struct at [p]. *)
Definition get (m : mem) (p : Z) (f : field) : res Z := load_be f.2 m (p + f.1).

(** ** Byte order *)

(** bswap_16p, bswap_32p and bswap_64p. *)
Definition bswap_p (m : mem) (p : Z) (f : field) : res mem :=
  x ← get m p f; store_be f.2 m (p + f.1) (bswap f.2 x).

Fixpoint bswap_fields (m : mem) (p : Z) (fs : list field) : res mem :=
  match fs with [] => Ok m | f :: fs' => m' ← bswap_p m p f; bswap_fields m' p fs' end.

(** elf16_to_cpu, elf32_to_cpu and elf64_to_cpu of a field of the struct at [p]. *)
Definition elf_to_cpu (m : mem) (ehdr p : Z) (f : field) : res Z :=
  x ← get m p f; d ← get m ehdr f_ei_data; Ok (if d =? ELFDATA2MSB then x else bswap f.2 x).

Section elf.
Context (c : elfclass).

(** unsigned int for the 32-bit class, unsigned long for the other. *)
Definition uword (x : Z) : Z := match c with C32 => u32 x | C64 => u64 x end.

Definition get_phdr (m : mem) (file_addr : Z) : res Z :=
  phoff ← get m file_addr (f_e_phoff c); Ok (u64 (file_addr + phoff)).

(** [for (i = 0; i <= ehdr->e_phnum; i++)]: e_phnum has 16 bits. *)
Definition phdr_turns : nat := Z.to_nat 65538.

Fixpoint swap_loop (fuel : nat) (m : mem) (file_addr phdr i : Z) : res mem :=
  match fuel with
  | O => OutOfFuel
  | S fuel' =>
      phnum ← get m file_addr (f_e_phnum c);
      if i <=? phnum then
        m ← bswap_fields m phdr (phdr_fields c);
        entsize ← get m file_addr (f_e_phentsize c);
        swap_loop fuel' m file_addr (u64 (phdr + entsize)) (i + 1)
      else Ok m
  end.

Definition elf_byteswap_header (m : mem) (file_addr : Z) : res mem :=
  m ← bswap_fields m file_addr (ehdr_fields c);
  phdr ← get_phdr m file_addr;
  swap_loop phdr_turns m file_addr phdr 0.

Fixpoint base_loop (fuel : nat) (m : mem) (file_addr phdr i : Z) : res Z :=
  match fuel with
  | O => OutOfFuel
  | S fuel' =>
      phnum ← get m file_addr (f_e_phnum c);
      if i <=? phnum then
        type ← get m phdr f_p_type;
        if type =? PT_LOAD then paddr ← get m phdr (f_p_paddr c); Ok (s64 paddr)
        else
          entsize ← get m file_addr (f_e_phentsize c);
          base_loop fuel' m file_addr (u64 (phdr + entsize)) (i + 1)
      else Ok 0
  end.

Definition elf_get_base_addr_ (m : mem) (file_addr : Z) : res Z :=
  phdr ← get_phdr m file_addr; base_loop phdr_turns m file_addr phdr 0.

Definition elf_get_eflags (m : mem) (file_addr : Z) : res Z := get m file_addr (f_e_flags c).

(** [n] headers from [hdr] on; [None] when one is not inside the buffer. *)
Fixpoint size_loop (n : nat) (m : mem) (ehdr hdr entsize buffer_end : Z) (foff fsize : field) (elf_size : Z)
    : res (option Z) :=
  match n with
  | O => Ok (Some elf_size)
  | S n' =>
      if buffer_end <? u64 (hdr + entsize) then Ok None
      else
        off ← elf_to_cpu m ehdr hdr foff;
        size ← elf_to_cpu m ehdr hdr fsize;
        size_loop n' m ehdr (u64 (hdr + entsize)) entsize buffer_end foff fsize (Z.max (uword (off + size)) elf_size)
  end.

Definition ROUNDUP (x v : Z) : Z := u64 (u64 (x + (v - 1)) / v * v).

Definition elf_get_file_size_ (m : mem) (buffer buffer_size : Z) : res Z :=
  let buffer_end := u64 (buffer + buffer_size) in
  if buffer_size <? EHDR_SIZE then Ok (-1) else
  ehsize ← get m buffer (f_e_ehsize c);
  if negb (ehsize =? ehdr_size c) then Ok (-1) else
  phoff ← elf_to_cpu m buffer buffer (f_e_phoff c);
  entsize ← elf_to_cpu m buffer buffer (f_e_phentsize c);
  phnum ← elf_to_cpu m buffer buffer (f_e_phnum c);
  r ← size_loop (Z.to_nat phnum) m buffer (u64 (buffer + phoff)) entsize buffer_end (f_p_offset c) (f_p_filesz c) 0;
  match r with
  | None => Ok (-1)
  | Some elf_size =>
      shoff ← elf_to_cpu m buffer buffer (f_e_shoff c);
      entsize ← elf_to_cpu m buffer buffer (f_e_shentsize c);
      shnum ← elf_to_cpu m buffer buffer (f_e_shnum c);
      r ← size_loop (Z.to_nat shnum) m buffer (u64 (buffer + shoff)) entsize buffer_end (f_sh_offset c) (f_sh_size c) elf_size;
      match r with
      | None => Ok (-1)
      | Some elf_size =>
          let elf_size := ROUNDUP elf_size 4 in
          Ok (if buffer_size <? elf_size then -1 else s64 elf_size)
      end
  end.
End elf.

(** ** Loading *)

Section load.
Context (pre_load : option (mem -> Z -> Z -> Z * mem)) (post_load : option (mem -> Z -> Z -> mem)).
Context (c : elfclass).

(** load_segment and load_segment64.  Every field is read where the code
    reads it: what was stored before may have changed it. *)
Definition load_segment (m : mem) (file_addr phdr offset : Z) : res mem :=
  p_offset ← get m phdr (f_p_offset c);
  let src := u64 (p_offset + file_addr) in
  p_paddr ← get m phdr (f_p_paddr c);
  let destaddr := u64 (p_paddr + offset) in
  '(r, m) ← match pre_load with
            | Some pre_load => memsz ← get m phdr (f_p_memsz c); Ok (pre_load m destaddr (s64 memsz))
            | None => Ok (0, m)
            end;
  if negb (r =? 0) then Ok m else
  filesz ← get m phdr (f_p_filesz c);
  '(_, m) ← memmove m destaddr src filesz;
  filesz ← get m phdr (f_p_filesz c);
  memsz ← get m phdr (f_p_memsz c);
  '(_, m) ← memset m (u64 (destaddr + filesz)) 0 (uword c (memsz - filesz));
  memsz ← get m phdr (f_p_memsz c);
  Ok (match post_load with
      | Some post_load => if memsz =? 0 then m else post_load m destaddr (s64 memsz)
      | None => m
      end).

(** [None]: a segment with different addresses, where the function returns 0. *)
Fixpoint segments_loop (fuel : nat) (m : mem) (file_addr phdr offset i : Z) : res (option unit * mem) :=
  match fuel with
  | O => OutOfFuel
  | S fuel' =>
      phnum ← get m file_addr (f_e_phnum c);
      if i <=? phnum then
        type ← get m phdr f_p_type;
        let next (m : mem) :=
          entsize ← get m file_addr (f_e_phentsize c);
          segments_loop fuel' m file_addr (u64 (phdr + entsize)) offset (i + 1) in
        if type =? PT_LOAD then
          paddr ← get m phdr (f_p_paddr c);
          vaddr ← get m phdr (f_p_vaddr c);
          if negb (paddr =? vaddr) then Ok (None, m)
          else m ← load_segment m file_addr phdr offset; next m
        else next m
      else Ok (Some tt, m)
  end.

Definition elf_load_segments (m : mem) (file_addr offset : Z) : res (Z * mem) :=
  phdr ← get_phdr c m file_addr;
  '(r, m) ← segments_loop phdr_turns m file_addr phdr offset 0;
  match r with
  | None => Ok (0, m)
  | Some tt => entry ← get m file_addr (f_e_entry c); Ok (entry, m)
  end.
End load.

(** ** Relocation *)

Definition R_PPC64_ADDR32 : Z := 1.
Definition R_PPC64_ADDR16_LO : Z := 4.
Definition R_PPC64_ADDR16_HI : Z := 5.
Definition R_PPC64_ADDR16_HA : Z := 6.
Definition R_PPC64_ADDR64 : Z := 38.
Definition R_PPC64_ADDR16_HIGHER : Z := 39.
Definition R_PPC64_ADDR16_HIGHEST : Z := 41.
Definition R_PPC64_TOC : Z := 51.
Definition R_PPC64_ADDR16_LO_DS : Z := 57.

Definition ELF_R_SYM (i : Z) : Z := Z.shiftr i 32.
Definition ELF_R_TYPE (i : Z) : Z := Z.land (u32 i) 0xFFFFFFFF.

(** The half-words of an address. *)
Definition half_highest (s_a : Z) : Z := Z.land (Z.shiftr s_a 48) 0xffff.
Definition half_higher (s_a : Z) : Z := Z.land (Z.shiftr s_a 32) 0xffff.
Definition half_hi (s_a : Z) : Z := Z.land (Z.shiftr s_a 16) 0xffff.
Definition half_lo (s_a : Z) : Z := Z.land s_a 0xffff.
Definition half_lo_ds (s_a : Z) : Z := Z.land s_a 0xfffc.
Definition half_ha (s_a : Z) : Z :=
  Z.land (u64 (Z.shiftr s_a 16 + (if Z.land s_a 0x8000 =? 0 then 0 else 1))) 0xffff.

Definition store_half (m : mem) (p v : Z) : res mem := store_be 2 m p (u16 v).

Definition elf_apply_rela64 (m : mem) (file_addr offset relaentry symtabentry : Z) : res mem :=
  base_addr ← elf_get_base_addr_ C64 m file_addr;
  r_offset ← get m relaentry f_r_offset;
  if r_offset <? u64 base_addr then Ok m else
  let addr := u64 (r_offset + offset) in
  st_value ← get m symtabentry f_st_value;
  r_addend ← get m relaentry f_r_addend;
  let s_a := u64 (st_value + offset + r_addend) in
  r_info ← get m relaentry f_r_info;
  let type := ELF_R_TYPE r_info in
  if type =? R_PPC64_ADDR32 then store_be 4 m addr (u32 s_a)
  else if type =? R_PPC64_ADDR64 then store_be 8 m addr s_a
  else if type =? R_PPC64_TOC then x ← load_be 8 m addr; store_be 8 m addr (u64 (x + offset))
  else if type =? R_PPC64_ADDR16_HIGHEST then store_half m addr (half_highest s_a)
  else if type =? R_PPC64_ADDR16_HIGHER then store_half m addr (half_higher s_a)
  else if type =? R_PPC64_ADDR16_HI then store_half m addr (half_hi s_a)
  else if type =? R_PPC64_ADDR16_LO then store_half m addr (half_lo s_a)
  else if type =? R_PPC64_ADDR16_LO_DS then store_half m addr (half_lo_ds s_a)
  else if type =? R_PPC64_ADDR16_HA then store_half m addr (half_ha s_a)
  else Ok m.

(** [shdrs + idx] *)
Definition shdr64 (shdrs idx : Z) : Z := u64 (shdrs + SHDR64_SIZE * idx).

(** [for (i = 0; i < rela_shdr->sh_size; i += rela_shdr->sh_entsize)]: it does
    not end when sh_entsize is 0. *)
Fixpoint rela_loop (fuel : nat) (m : mem) (file_addr offset rela_shdr sym_shdr i : Z) : res mem :=
  match fuel with
  | O => OutOfFuel
  | S fuel' =>
      size ← get m rela_shdr (f_sh_size C64);
      if i <? size then
        rela_off ← get m rela_shdr (f_sh_offset C64);
        let relaentry := u64 (file_addr + rela_off + i) in
        r_info ← get m relaentry f_r_info;
        let symbolidx := u32 (ELF_R_SYM r_info) in
        sym_off ← get m sym_shdr (f_sh_offset C64);
        let symtabentry := u64 (file_addr + sym_off + SYM64_SIZE * symbolidx) in
        m ← elf_apply_rela64 m file_addr offset relaentry symtabentry;
        entsize ← get m rela_shdr f_sh_entsize64;
        rela_loop fuel' m file_addr offset rela_shdr sym_shdr (u32 (i + entsize))
      else Ok m
  end.

Definition elf_apply_all_rela64 (fuel : nat) (m : mem) (file_addr offset shdrs idx : Z) : res mem :=
  let rela_shdr := shdr64 shdrs idx in
  info ← get m rela_shdr f_sh_info64;
  let dst_shdr := shdr64 shdrs info in
  link ← get m rela_shdr f_sh_link64;
  let sym_shdr := shdr64 shdrs link in
  flags ← get m dst_shdr f_sh_flags64;
  if negb (Z.land flags SHF_ALLOC =? SHF_ALLOC) then Ok m
  else rela_loop fuel m file_addr offset rela_shdr sym_shdr 0.

(** [for (i = 0; i <= ehdr->e_shnum; i++)] *)
Fixpoint relocate_loop (turns : nat) (fuel : nat) (m : mem) (file_addr offset shdrs i : Z) : res mem :=
  match turns with
  | O => OutOfFuel
  | S turns' =>
      shnum ← get m file_addr (f_e_shnum C64);
      if i <=? shnum then
        type ← get m (shdr64 shdrs i) f_sh_type;
        m ← (if type =? SHT_RELA then elf_apply_all_rela64 fuel m file_addr offset shdrs i else Ok m);
        relocate_loop turns' fuel m file_addr offset shdrs (i + 1)
      else Ok m
  end.

(** [fuel] bounds the entries of one section. *)
Definition elf_relocate64 (fuel : nat) (m : mem) (file_addr offset : Z) : res mem :=
  shoff ← get m file_addr (f_e_shoff C64);
  relocate_loop phdr_turns fuel m file_addr offset (u64 (file_addr + shoff)) 0.

(** ** The functions of the two classes *)

Definition elf_byteswap_header32 := elf_byteswap_header C32.
Definition elf_byteswap_header64 := elf_byteswap_header C64.
Definition elf_get_base_addr32 := elf_get_base_addr_ C32.
Definition elf_get_base_addr64 := elf_get_base_addr_ C64.
Definition elf_get_eflags_32 := elf_get_eflags C32.
Definition elf_get_eflags_64 := elf_get_eflags C64.
Definition elf_get_file_size32 := elf_get_file_size_ C32.
Definition elf_get_file_size64 := elf_get_file_size_ C64.
Definition elf_load_segments32 pre_load post_load := elf_load_segments pre_load post_load C32.
Definition elf_load_segments64 pre_load post_load := elf_load_segments pre_load post_load C64.

(** The calls of elf.c, as the functions of both classes. *)
Ltac by_class := unfold elf_byteswap_header32, elf_byteswap_header64, elf_get_base_addr32, elf_get_base_addr64,
  elf_get_eflags_32, elf_get_eflags_64, elf_get_file_size32, elf_get_file_size64, elf_load_segments32, elf_load_segments64.

(** ** elf.c *)

Definition elf_check_file (m : mem) (file_addr : Z) : res (Z * mem) :=
  ident ← get m file_addr f_ei_ident;
  if negb (ident =? 0x7f454c46) then Ok (-1, m) else
  data ← get m file_addr f_ei_data;
  m ← (if negb (ELFDATA2MSB =? data) then
         class ← get m file_addr f_ei_class;
         if class =? 1 then elf_byteswap_header32 m file_addr
         else if class =? 2 then elf_byteswap_header64 m file_addr
         else Ok m
       else Ok m);
  type ← get m file_addr f_e_type;
  if negb (type =? ET_EXEC) && negb (type =? ET_DYN) then Ok (-3, m) else
  machine ← get m file_addr f_e_machine;
  if negb (machine =? 0x14) && negb (machine =? 0x15) then Ok (-4, m) else
  class ← get m file_addr f_ei_class;
  Ok (class, m).

(** 3 or 4, for a little-endian file of the 64-bit class. *)
Definition elf_le64_type (m : mem) (file_addr : Z) : res Z :=
  flags ← elf_get_eflags_64 m file_addr; Ok (if Z.land flags 0x3 =? 2 then 4 else 3).

Section loader.
Context (pre_load : option (mem -> Z -> Z -> Z * mem)) (post_load : option (mem -> Z -> Z -> mem)).

(** [entry] is what the caller's variable holds; the type, the entry and
    the memory. *)
Definition elf_load_file (m : mem) (file_addr entry : Z) : res (Z * Z * mem) :=
  '(type, m) ← elf_check_file m file_addr;
  '(type, entry, m) ←
    (if type =? 1 then
       '(entry, m) ← elf_load_segments32 pre_load post_load m file_addr 0;
       data ← get m file_addr f_ei_data;
       Ok (if negb (data =? ELFDATA2MSB) then 5 else type, entry, m)
     else if type =? 2 then
       '(entry, m) ← elf_load_segments64 pre_load post_load m file_addr 0;
       data ← get m file_addr f_ei_data;
       if negb (data =? ELFDATA2MSB) then type ← elf_le64_type m file_addr; Ok (type, entry, m)
       else Ok (type, entry, m)
     else Ok (type, entry, m));
  Ok (if entry =? 0 then 0 else type, entry, m).

Definition elf_load_file_to_addr (fuel : nat) (m : mem) (file_addr addr entry : Z) : res (Z * Z * mem) :=
  '(type, m) ← elf_check_file m file_addr;
  if type =? 1 then
    base ← elf_get_base_addr32 m file_addr;
    let offset := s64 (addr - base) in
    '(entry, m) ← elf_load_segments32 pre_load post_load m file_addr offset;
    Ok (type, u64 (entry + offset), m)
  else if type =? 2 then
    base ← elf_get_base_addr64 m file_addr;
    let offset := s64 (addr - base) in
    '(entry, m) ← elf_load_segments64 pre_load post_load m file_addr offset;
    m ← elf_relocate64 fuel m file_addr offset;
    data ← get m file_addr f_ei_data;
    type ← (if negb (data =? ELFDATA2MSB) then elf_le64_type m file_addr else Ok type);
    Ok (type, u64 (entry + offset), m)
  else Ok (type, entry, m).
End loader.

Definition elf_get_base_addr (m : mem) (file_addr : Z) : res (Z * mem) :=
  '(type, m) ← elf_check_file m file_addr;
  if type =? 1 then base ← elf_get_base_addr32 m file_addr; Ok (base, m)
  else if type =? 2 then base ← elf_get_base_addr64 m file_addr; Ok (base, m)
  else Ok (-1, m).

Definition elf_get_file_size (m : mem) (buffer buffer_size : Z) : res Z :=
  if buffer_size <? EHDR_SIZE then Ok (-1) else
  ident ← get m buffer f_ei_ident;
  if negb (ident =? 0x7f454c46) then Ok (-1) else
  class ← get m buffer f_ei_class;
  if class =? 1 then elf_get_file_size32 m buffer buffer_size
  else if class =? 2 then elf_get_file_size64 m buffer buffer_size
  else Ok (-1).

(** ** Files in memory *)

Record ehdr := Ehdr {
  e_type : Z; e_machine : Z; e_version : Z; e_entry : Z; e_phoff : Z; e_shoff : Z; e_flags : Z;
  e_ehsize : Z; e_phentsize : Z; e_phnum : Z; e_shentsize : Z; e_shnum : Z; e_shstrndx : Z;
}.

Record phdr := Phdr {
  p_type : Z; p_offset : Z; p_vaddr : Z; p_paddr : Z; p_filesz : Z; p_memsz : Z; p_flags : Z; p_align : Z;
}.

(** The values in the order of the fields. *)
Definition ehdr_vals (h : ehdr) : list Z :=
  [e_type h; e_machine h; e_version h; e_entry h; e_phoff h; e_shoff h; e_flags h; e_ehsize h;
   e_phentsize h; e_phnum h; e_shentsize h; e_shnum h; e_shstrndx h].

Definition phdr_vals (c : elfclass) (p : phdr) : list Z :=
  match c with
  | C32 => [p_type p; p_offset p; p_vaddr p; p_paddr p; p_filesz p; p_memsz p; p_flags p; p_align p]
  | C64 => [p_type p; p_flags p; p_offset p; p_vaddr p; p_paddr p; p_filesz p; p_memsz p; p_align p]
  end.

Inductive order := BE | LE.

Definition enc (o : order) (n : nat) (v : Z) : list Z := match o with BE => be_enc n v | LE => le_enc n v end.

Definition field_at (o : order) (m : mem) (p : Z) (f : field) (v : Z) : Prop :=
  bytes_at m (p + f.1) (enc o f.2 v) /\ 0 <= v < 256 ^ Z.of_nat f.2.

Definition fields_at (o : order) (m : mem) (p : Z) (fs : list field) (vs : list Z) : Prop :=
  Forall2 (field_at o m p) fs vs.

Fixpoint phdrs_at (o : order) (c : elfclass) (m : mem) (q sz : Z) (phs : list phdr) : Prop :=
  match phs with
  | [] => True
  | ph :: phs' => fields_at o m q (phdr_fields c) (phdr_vals c ph) /\ phdrs_at o c m (q + sz) sz phs'
  end.

Definition class_num (c : elfclass) : Z := match c with C32 => 1 | C64 => 2 end.
Definition phdr_size (c : elfclass) : Z := match c with C32 => 32 | C64 => 56 end.

(** An ELF file at [p]: [d] is the byte order it says it has, [o] the order its
    fields are in.  The program headers are one more than e_phnum, as many as
    the loops look at, and they are after the ELF header. *)
Record image_at (d o : order) (c : elfclass) (m : mem) (p : Z) (h : ehdr) (phs : list phdr) : Prop := {
  img_ident : field_at BE m p f_ei_ident 0x7f454c46;
  img_class : field_at BE m p f_ei_class (class_num c);
  img_data : field_at BE m p f_ei_data (match d with BE => 2 | LE => 1 end);
  img_ehdr : fields_at o m p (ehdr_fields c) (ehdr_vals h);
  img_phdrs : phdrs_at o c m (p + e_phoff h) (e_phentsize h) phs;
  img_num : Z.of_nat (length phs) = e_phnum h + 1;
  img_phoff : ehdr_size c <= e_phoff h;
  img_phsize : phdr_size c <= e_phentsize h;
  img_addr : 0 <= p /\ p + e_phoff h + e_phentsize h * (e_phnum h + 1) < 2 ^ 64;
}.

(** ** Fields *)

Lemma enc_length o n v : length (enc o n v) = n.
Proof. destruct o; [apply be_enc_length | apply le_enc_length]. Qed.

Lemma get_spec m p f v : field_at BE m p f v -> get m p f = Ok v.
Proof.
  intros [Hb Hv]. unfold get. cbn [enc] in Hb. pose proof (load_be_spec f.2 m _ _ Hb) as H.
  rewrite H by (by rewrite be_enc_length). rewrite be_dec_enc. by rewrite Z.mod_small.
Qed.

Lemma field_at_frame o m m' p f v a b :
  stores m m' a b -> p + f.1 + Z.of_nat f.2 <= a \/ b <= p + f.1 -> field_at o m p f v -> field_at o m' p f v.
Proof.
  intros [Hs _] Hd [Hb Hv]. split; [|done]. eapply bytes_at_frame; [exact Hs | exact Hb |]. rewrite enc_length. lia.
Qed.

Lemma fields_get o m p fs vs i f v :
  fields_at o m p fs vs -> fs !! i = Some f -> vs !! i = Some v -> field_at o m p f v.
Proof. intros H Hf Hv. exact (Forall2_lookup_lr _ _ _ _ _ _ H Hf Hv). Qed.

(** Fields one after the other between two offsets. *)
Fixpoint laid (lo : Z) (fs : list field) (hi : Z) : Prop :=
  match fs with [] => lo <= hi | f :: fs' => lo <= f.1 /\ laid (f.1 + Z.of_nat f.2) fs' hi end.

Lemma laid_range lo fs hi : laid lo fs hi -> lo <= hi /\ Forall (fun f : field => lo <= f.1 /\ f.1 + Z.of_nat f.2 <= hi) fs.
Proof.
  revert lo. induction fs as [|f fs IH]; intros lo; cbn [laid]; [done|]. intros [Hlo [Hle Hfs]%IH].
  split; [lia|]. constructor; [lia|]. eapply Forall_impl; [|exact Hfs]. cbn. lia.
Qed.

Lemma fields_at_frame o m m' p fs vs lo hi a b :
  laid lo fs hi -> stores m m' a b -> p + hi <= a \/ b <= p + lo -> fields_at o m p fs vs -> fields_at o m' p fs vs.
Proof.
  intros Hl Hs Hd H. revert lo Hl Hd. induction H as [|f v fs vs Hf _ IH]; intros lo Hl Hd; constructor; cbn [laid] in Hl.
  - destruct Hl as [Hlo [Hr _]%laid_range]. eapply field_at_frame; [exact Hs | | exact Hf]. lia.
  - destruct Hl as [Hlo Hl]. apply (IH _ Hl). lia.
Qed.

Lemma bswap_p_spec m p f v :
  field_at LE m p f v ->
  exists m', bswap_p m p f = Ok m' /\ field_at BE m' p f v /\ stores m m' (p + f.1) (p + f.1 + Z.of_nat f.2).
Proof.
  intros [Hb Hv]. cbn [enc] in Hb. pose proof (bytes_at_mapped _ _ _ Hb) as Hm. rewrite le_enc_length in Hm.
  exists (write_bytes m (p + f.1) (be_enc f.2 v)). unfold bswap_p, get.
  rewrite (load_be_spec f.2 m _ _ Hb) by apply le_enc_length. res_simpl.
  assert (E : bswap f.2 (be_dec (le_enc f.2 v)) = v).
  { change (be_dec (le_enc f.2 v)) with (bswap f.2 v). rewrite bswap_involutive. by apply Z.mod_small. }
  rewrite E, store_be_spec by done. split_and!; [done | split; [apply write_bytes_at | done] |].
  apply write_bytes_stores; rewrite ?be_enc_length; done || lia.
Qed.

Lemma bswap_fields_spec fs m p vs lo hi :
  laid lo fs hi -> fields_at LE m p fs vs ->
  exists m', bswap_fields m p fs = Ok m' /\ fields_at BE m' p fs vs /\ stores m m' (p + lo) (p + hi).
Proof.
  revert m vs lo. induction fs as [|f fs IH]; intros m vs lo Hl H; inversion H as [|? v ? vs' Hf Hfs]; subst.
  - exists m. split_and!; [done | constructor | apply stores_refl].
  - cbn [laid] in Hl. destruct Hl as [Hlo Hl]. pose proof (proj1 (laid_range _ _ _ Hl)) as Hr.
    destruct (bswap_p_spec m p f v Hf) as (m1 & E1 & F1 & S1). cbn [bswap_fields]. rewrite E1. res_simpl.
    destruct (IH m1 vs' _ Hl) as (m2 & E2 & F2 & S2).
    { eapply fields_at_frame; [exact Hl | exact S1 | lia | done]. }
    exists m2. rewrite E2. split_and!; [done | constructor; [|done] |].
    + eapply field_at_frame; [exact S2 | lia | done].
    + eapply stores_trans; eapply stores_mono; eassumption || lia.
Qed.

Lemma ehdr_laid c : laid 16 (ehdr_fields c) (ehdr_size c).
Proof. destruct c; cbn; lia. Qed.
Lemma phdr_laid c : laid 0 (phdr_fields c) (phdr_size c).
Proof. destruct c; cbn; lia. Qed.

(** ** Headers *)

Section headers.
Context (c : elfclass).

(** The fields of the two headers by name. *)
Lemma ehdr_get m p h :
  fields_at BE m p (ehdr_fields c) (ehdr_vals h) ->
  get m p f_e_type = Ok (e_type h) /\ get m p f_e_machine = Ok (e_machine h) /\
  get m p (f_e_entry c) = Ok (e_entry h) /\ get m p (f_e_phoff c) = Ok (e_phoff h) /\
  get m p (f_e_shoff c) = Ok (e_shoff h) /\
  get m p (f_e_flags c) = Ok (e_flags h) /\ get m p (f_e_ehsize c) = Ok (e_ehsize h) /\
  get m p (f_e_phentsize c) = Ok (e_phentsize h) /\ get m p (f_e_phnum c) = Ok (e_phnum h) /\
  get m p (f_e_shentsize c) = Ok (e_shentsize h) /\ get m p (f_e_shnum c) = Ok (e_shnum h).
Proof.
  intros H. repeat split; apply get_spec;
    [eapply (fields_get _ _ _ _ _ 0) | eapply (fields_get _ _ _ _ _ 1) | eapply (fields_get _ _ _ _ _ 3) |
     eapply (fields_get _ _ _ _ _ 4) | eapply (fields_get _ _ _ _ _ 5) | eapply (fields_get _ _ _ _ _ 6) |
     eapply (fields_get _ _ _ _ _ 7) | eapply (fields_get _ _ _ _ _ 8) | eapply (fields_get _ _ _ _ _ 9) |
     eapply (fields_get _ _ _ _ _ 10) | eapply (fields_get _ _ _ _ _ 11)]; try exact H; destruct c; reflexivity.
Qed.

Lemma phdr_get m q ph :
  fields_at BE m q (phdr_fields c) (phdr_vals c ph) ->
  get m q f_p_type = Ok (p_type ph) /\ get m q (f_p_offset c) = Ok (p_offset ph) /\
  get m q (f_p_vaddr c) = Ok (p_vaddr ph) /\ get m q (f_p_paddr c) = Ok (p_paddr ph) /\
  get m q (f_p_filesz c) = Ok (p_filesz ph) /\ get m q (f_p_memsz c) = Ok (p_memsz ph).
Proof.
  intros H. destruct c; repeat split; apply get_spec.
  1-6: first [by eapply (fields_get _ _ _ _ _ 0); [exact H| |] | by eapply (fields_get _ _ _ _ _ 1); [exact H| |] |
              by eapply (fields_get _ _ _ _ _ 2); [exact H| |] | by eapply (fields_get _ _ _ _ _ 3); [exact H| |] |
              by eapply (fields_get _ _ _ _ _ 4); [exact H| |] | by eapply (fields_get _ _ _ _ _ 5); [exact H| |]].
  1: by eapply (fields_get _ _ _ _ _ 0); [exact H| |].
  1-5: first [by eapply (fields_get _ _ _ _ _ 2); [exact H| |] | by eapply (fields_get _ _ _ _ _ 3); [exact H| |] |
              by eapply (fields_get _ _ _ _ _ 4); [exact H| |] | by eapply (fields_get _ _ _ _ _ 5); [exact H| |] |
              by eapply (fields_get _ _ _ _ _ 6); [exact H| |]].
Qed.

Lemma phdrs_at_frame o m m' q sz phs a b :
  phdr_size c <= sz -> stores m m' a b -> q + sz * Z.of_nat (length phs) <= a \/ b <= q ->
  phdrs_at o c m q sz phs -> phdrs_at o c m' q sz phs.
Proof.
  intros Hsz Hs. revert q. induction phs as [|ph phs IH]; intros q Hd H; [done|]. cbn [phdrs_at length] in *.
  assert (0 < sz) by (destruct c; cbn in Hsz; lia). destruct H as [H1 H2]. split.
  - eapply fields_at_frame; [apply phdr_laid | exact Hs | nia | done].
  - apply IH; [nia | done].
Qed.

Lemma swap_loop_spec m p h q phs i fuel :
  fields_at BE m p (ehdr_fields c) (ehdr_vals h) -> phdrs_at LE c m q (e_phentsize h) phs ->
  phdr_size c <= e_phentsize h -> p + ehdr_size c <= q -> 0 <= q -> q + e_phentsize h * Z.of_nat (length phs) < 2 ^ 64 ->
  i + Z.of_nat (length phs) = e_phnum h + 1 -> (length phs < fuel)%nat ->
  exists m', swap_loop c fuel m p q i = Ok m' /\ phdrs_at BE c m' q (e_phentsize h) phs /\
    stores m m' q (q + e_phentsize h * Z.of_nat (length phs)).
Proof.
  intros He Hp Hsz Hq H0 Hq64 Hi Hf. assert (0 < phdr_size c) by (destruct c; cbn; lia).
  revert m q i fuel He Hp Hq H0 Hq64 Hi Hf. induction phs as [|ph phs IH]; intros m q i [|fuel] He Hp Hq H0 Hq64 Hi Hf;
    cbn [length] in *; try lia; cbn [swap_loop];
    destruct (ehdr_get m p h He) as (_ & _ & _ & _ & _ & _ & _ & Rsz & Rn & _); rewrite Rn; res_simpl.
  - destruct (Z.leb_spec i (e_phnum h)); [lia|]. exists m. split_and!; [done | done | apply stores_mono with q q; try lia; apply stores_refl].
  - destruct (Z.leb_spec i (e_phnum h)); [|lia]. cbn [phdrs_at] in Hp. destruct Hp as [Hph Hp].
    destruct (bswap_fields_spec _ m q _ _ _ (phdr_laid c) Hph) as (m1 & E1 & F1 & S1). rewrite E1. res_simpl.
    assert (He1 : fields_at BE m1 p (ehdr_fields c) (ehdr_vals h)).
    { eapply fields_at_frame; [apply ehdr_laid | exact S1 | lia | done]. }
    destruct (ehdr_get m1 p h He1) as (_ & _ & _ & _ & _ & _ & _ & Rsz1 & _). rewrite Rsz1. res_simpl.
    rewrite u64_small by nia.
    destruct (IH m1 (q + e_phentsize h) (i + 1) fuel) as (m2 & E2 & F2 & S2); try done; try nia.
    { eapply phdrs_at_frame; [done | exact S1 | nia | done]. }
    exists m2. rewrite E2. split_and!; [done | | ].
    + split; [|done]. eapply fields_at_frame; [apply phdr_laid | exact S2 | nia | done].
    + eapply stores_trans; eapply stores_mono; eassumption || nia.
Qed.

(** elf_byteswap_header32 and elf_byteswap_header64 on a little-endian file. *)
Lemma byteswap_spec m p h phs :
  image_at LE LE c m p h phs ->
  exists m', elf_byteswap_header c m p = Ok m' /\ image_at LE BE c m' p h phs /\
    stores m m' (p + 16) (p + e_phoff h + e_phentsize h * (e_phnum h + 1)).
Proof.
  intros [Hid Hcl Hd He Hp Hn Hoff Hsz [Ha Ha64]]. unfold elf_byteswap_header.
  assert (0 < phdr_size c /\ 16 <= ehdr_size c) as [Hps Hes] by (destruct c; cbn; lia).
  assert (0 <= e_phnum h < 65536).
  { destruct (fields_get _ _ _ _ _ 9 (f_e_phnum c) (e_phnum h) He) as [_ Hr]; [by destruct c | done |].
    replace (256 ^ Z.of_nat (f_e_phnum c).2) with 65536 in Hr by (by destruct c). done. }
  destruct (bswap_fields_spec _ m p _ _ _ (ehdr_laid c) He) as (m1 & E1 & F1 & S1). rewrite E1. res_simpl.
  unfold get_phdr. destruct (ehdr_get m1 p h F1) as (_ & _ & _ & -> & _). res_simpl. rewrite u64_small by nia.
  destruct (swap_loop_spec m1 p h (p + e_phoff h) phs 0 phdr_turns) as (m2 & E2 & F2 & S2);
    try done; try nia.
  - eapply phdrs_at_frame; [done | exact S1 | lia | done].
  - unfold phdr_turns. lia.
  - rewrite Hn in S2. exists m2. rewrite E2.
    assert (S : stores m m2 (p + 16) (p + e_phoff h + e_phentsize h * (e_phnum h + 1))).
    { eapply stores_trans; eapply stores_mono; eassumption || nia. }
    split_and!; [done | | done]. split; try done.
    1-3: eapply field_at_frame; [exact S | cbn; lia | done].
    eapply fields_at_frame; [apply ehdr_laid | exact S2 | lia | done].
Qed.
End headers.

(** ** Checking a file *)

Definition verdict (c : elfclass) (h : ehdr) : Z :=
  if decide (e_type h <> ET_EXEC /\ e_type h <> ET_DYN) then -3
  else if decide (e_machine h <> 0x14 /\ e_machine h <> 0x15) then -4
  else class_num c.

(** Where the headers of a file end. *)
Definition headers_end (p : Z) (h : ehdr) : Z := p + e_phoff h + e_phentsize h * (e_phnum h + 1).

Lemma check_file_spec d c m p h phs :
  image_at d d c m p h phs ->
  exists m', elf_check_file m p = Ok (verdict c h, m') /\ image_at d BE c m' p h phs /\
    stores m m' (p + 16) (headers_end p h) /\ (d = BE -> m' = m).
Proof.
  intros Him. pose proof Him as [Hid Hcl Hd He Hp Hn Hoff Hsz Ha]. unfold elf_check_file; by_class.
  rewrite (get_spec _ _ _ _ Hid). res_simpl. rewrite (get_spec _ _ _ _ Hd). res_simpl. cbn [negb Z.eqb Pos.eqb].
  assert (G : exists m', (if negb (ELFDATA2MSB =? match d with BE => 2 | LE => 1 end)
      then class ← get m p f_ei_class;
           if class =? 1 then elf_byteswap_header C32 m p
           else if class =? 2 then elf_byteswap_header C64 m p else Ok m
      else Ok m) = Ok m' /\ image_at d BE c m' p h phs /\ stores m m' (p + 16) (headers_end p h) /\ (d = BE -> m' = m)).
  { destruct d; cbn [ELFDATA2MSB negb Z.eqb Pos.eqb].
    - exists m. split_and!; done.
    - rewrite (get_spec _ _ _ _ Hcl). res_simpl. destruct (byteswap_spec c m p h phs Him) as (m' & E & I & S).
      exists m'. by destruct c. }
  destruct G as (m' & -> & Him' & S & Hsame). res_simpl. exists m'. split; [|done].
  destruct Him' as [_ Hcl' _ He' _ _ _ _ _]. destruct (ehdr_get c m' p h He') as (-> & -> & _). res_simpl.
  unfold verdict, ET_EXEC, ET_DYN.
  destruct (Z.eqb_spec (e_type h) 2), (Z.eqb_spec (e_type h) 3); try lia; cbn [negb andb]; try (rewrite decide_False by lia);
    try (by rewrite decide_True).
  all: destruct (Z.eqb_spec (e_machine h) 0x14), (Z.eqb_spec (e_machine h) 0x15); cbn [negb andb];
    try (rewrite decide_False by lia); try (by rewrite decide_True); by rewrite (get_spec _ _ _ _ Hcl').
Qed.

(** The fields every ELF file starts with, in the byte order of the machine, as
    the places of their bytes. *)
Definition part (k n : nat) (bs : list Z) : list Z := take n (drop k bs).

Definition ELF_MAGIC : list Z := [0x7f; 0x45; 0x4c; 0x46].   (* 7f E L F *)

(** What the comment of elf_check_file says the result is. *)
Definition native_verdict (bs : list Z) : Z :=
  if decide (part 0 4 bs <> ELF_MAGIC) then -1
  else if decide (be_dec (part 16 2 bs) ∉ [2; 3]) then -3
  else if decide (be_dec (part 18 2 bs) ∉ [0x14; 0x15]) then -4
  else be_dec (part 4 1 bs).

Lemma get_part m p bs o k n : bytes_at m p bs -> (k + n <= length bs)%nat -> o = Z.of_nat k -> get m p (o, n) = Ok (be_dec (part k n bs)).
Proof.
  intros Hb Hl ->. unfold get, part. cbn [fst snd]. apply load_be_spec; [|rewrite length_take, length_drop; lia].
  intros i b Hi. apply lookup_take_Some in Hi as [Hi _]. rewrite lookup_drop in Hi.
  rewrite <- (Hb _ _ Hi). f_equal. lia.
Qed.

Lemma magic_number bs : Forall byte bs -> (4 <= length bs)%nat -> (be_dec (part 0 4 bs) =? 0x7f454c46) = bool_decide (part 0 4 bs = ELF_MAGIC).
Proof.
  intros Hb Hl. unfold part. rewrite drop_0. assert (Hb4 : Forall byte (take 4 bs)) by by apply Forall_take.
  assert (Hl4 : length (take 4 bs) = 4%nat) by (rewrite length_take; lia).
  case_bool_decide as E; [by rewrite E|]. apply Z.eqb_neq. intros Hv. apply E.
  rewrite <- (be_enc_dec _ Hb4), Hv, Hl4. reflexivity.
Qed.

Lemma one_of_two x a b : negb (x =? a) && negb (x =? b) = bool_decide (x ∉ [a; b]).
Proof.
  case_bool_decide as E; rewrite !elem_of_cons, elem_of_nil in E; destruct (Z.eqb_spec x a), (Z.eqb_spec x b); naive_solver.
Qed.

(** C26: elf_check_file on a file in the byte order of the machine, whatever its
    first twenty bytes are: -1 if it does not start with the four bytes of an
    ELF file (in either byte order), -3 if it is neither executable nor a shared
    object, -4 if it is not for PowerPC, and its class otherwise, as its comment
    says; the memory is only read.  (Files in the other byte order are converted,
    check_file_spec, and not refused with -2, check_file_other_order.) *)
Theorem elf_check_file_correct m p bs :
  bytes_at m p bs -> length bs = 20%nat -> Forall byte bs ->
  (part 0 4 bs = ELF_MAGIC -> part 5 1 bs = [2]) ->
  elf_check_file m p = Ok (native_verdict bs, m).
Proof.
  intros Hm Hl Hb Hd. unfold elf_check_file, native_verdict.
  unfold f_ei_ident. rewrite (get_part m p bs 0 0 4 Hm) by lia. res_simpl. rewrite magic_number by (done || lia).
  case_bool_decide as E; cbn [negb]; [|by rewrite decide_True]. rewrite decide_False by tauto.
  unfold f_ei_data. rewrite (get_part m p bs 5 5 1 Hm), (Hd E) by lia. res_simpl.
  change (negb (ELFDATA2MSB =? be_dec [2])) with false. cbv iota. res_simpl.
  unfold f_e_type, f_e_machine, f_ei_class, ET_EXEC, ET_DYN.
  rewrite (get_part m p bs 16 16 2 Hm), (get_part m p bs 18 18 2 Hm), (get_part m p bs 4 4 1 Hm) by lia. res_simpl.
  rewrite !one_of_two. repeat case_bool_decide; repeat case_decide; done || tauto.
Qed.

(** ** The base address *)

(** The physical address of the first PT_LOAD header. *)
Fixpoint base_of (phs : list phdr) : Z :=
  match phs with
  | [] => 0
  | ph :: phs' => if p_type ph =? PT_LOAD then s64 (p_paddr ph) else base_of phs'
  end.

Lemma base_loop_spec c m p h q phs i fuel :
  fields_at BE m p (ehdr_fields c) (ehdr_vals h) -> phdrs_at BE c m q (e_phentsize h) phs ->
  0 <= q -> 0 <= e_phentsize h -> q + e_phentsize h * Z.of_nat (length phs) < 2 ^ 64 ->
  i + Z.of_nat (length phs) = e_phnum h + 1 -> (length phs < fuel)%nat ->
  base_loop c fuel m p q i = Ok (base_of phs).
Proof.
  intros He. destruct (ehdr_get c m p h He) as (_ & _ & _ & _ & _ & _ & _ & Rsz & Rn & _).
  revert q i fuel. induction phs as [|ph phs IH]; intros q i [|fuel] Hp H0 Hsz Hq64 Hi Hf; cbn [length] in *; try lia;
    cbn [base_loop base_of]; rewrite Rn; res_simpl.
  - destruct (Z.leb_spec i (e_phnum h)); [lia | done].
  - destruct (Z.leb_spec i (e_phnum h)); [|lia]. destruct Hp as [Hph Hp].
    destruct (phdr_get c m q ph Hph) as (-> & _ & _ & -> & _). res_simpl.
    destruct (p_type ph =? PT_LOAD); [done|]. rewrite Rsz. res_simpl. rewrite u64_small by nia.
    apply IH; try done; try nia.
Qed.

Lemma phnum_range d o c m p h phs : image_at d o c m p h phs -> 0 <= e_phnum h < 65536.
Proof.
  intros [_ _ _ He _ _ _ _ _].
  destruct (fields_get _ _ _ _ _ 9 (f_e_phnum c) (e_phnum h) He) as [_ Hr]; [by destruct c | done |].
  by destruct c.
Qed.

(** The setting of the loops over the program headers. *)
Lemma image_phdrs d c m p h phs :
  image_at d BE c m p h phs ->
  get_phdr c m p = Ok (p + e_phoff h) /\ 0 <= p + e_phoff h /\ 0 <= e_phentsize h /\
  p + e_phoff h + e_phentsize h * Z.of_nat (length phs) < 2 ^ 64 /\ 0 + Z.of_nat (length phs) = e_phnum h + 1 /\
  (length phs < phdr_turns)%nat.
Proof.
  intros Him. pose proof (phnum_range _ _ _ _ _ _ _ Him) as Hr. destruct Him as [_ _ _ He _ Hn Hoff Hsz [Ha Ha64]].
  assert (0 < phdr_size c /\ 16 <= ehdr_size c) as [Hps Hes] by (destruct c; cbn; lia).
  unfold get_phdr. destruct (ehdr_get c m p h He) as (_ & _ & _ & -> & _). res_simpl. rewrite u64_small by nia.
  unfold phdr_turns. split_and!; done || nia.
Qed.

(** elf_get_base_addr returns, for a file elf_check_file accepts, the
    physical address of the first PT_LOAD program header, or 0 when there is
    none; one header more than e_phnum is looked at.  Any other file gives -1. *)
Theorem elf_get_base_addr_correct d c m p h phs :
  image_at d d c m p h phs ->
  exists m', elf_get_base_addr m p = Ok (if decide (verdict c h = class_num c) then base_of phs else -1, m') /\
    stores m m' (p + 16) (headers_end p h).
Proof.
  intros Him. destruct (check_file_spec _ _ _ _ _ _ Him) as (m' & E & Him' & S & _).
  destruct (image_phdrs _ _ _ _ _ _ Him') as (R & Hb). exists m'. split; [|done].
  unfold elf_get_base_addr; by_class. rewrite E. res_simpl.
  assert (G : elf_get_base_addr_ c m' p = Ok (base_of phs)).
  { unfold elf_get_base_addr_. rewrite R. res_simpl. apply (base_loop_spec c m' p h); try apply Him'; apply Hb. }
  unfold verdict. repeat (case_decide; [done || (destruct c; cbn in *; lia)|] || (destruct c; cbn in *; done)).
  destruct c; cbn [class_num Z.eqb Pos.eqb]; rewrite G; res_simpl; repeat case_decide; done || tauto.
Qed.

(** ** Loading the segments *)

Section segments.
Context (pre_load : option (mem -> Z -> Z -> Z * mem)) (post_load : option (mem -> Z -> Z -> mem)).
(** The callbacks leave the memory alone: they claim the range with the
    client's memory manager, and flush the instruction cache. *)
Context (Hpre : forall f, pre_load = Some f -> forall m a n, f m a n = ((f ∅ a n).1, m)).
Context (Hpost : forall f, post_load = Some f -> forall m a n, f m a n = m).
Context (c : elfclass) (offset : Z).
(** The bytes of the file for a segment. *)
Context (file : phdr -> list Z).

Definition allows (a n : Z) : bool := match pre_load with Some f => (f ∅ a n).1 =? 0 | None => true end.

Definition seg_dest (ph : phdr) : Z := u64 (p_paddr ph + offset).
Definition seg_content (ph : phdr) : list Z := file ph ++ replicate (Z.to_nat (p_memsz ph - p_filesz ph)) 0.

Definition load_one (m : mem) (ph : phdr) : mem :=
  if allows (seg_dest ph) (s64 (p_memsz ph)) then write_bytes m (seg_dest ph) (seg_content ph) else m.

(** [false]: stopped at a segment with different addresses. *)
Fixpoint load_all (phs : list phdr) (m : mem) : bool * mem :=
  match phs with
  | [] => (true, m)
  | ph :: phs' =>
      if p_type ph =? PT_LOAD then
        if p_paddr ph =? p_vaddr ph then load_all phs' (load_one m ph) else (false, m)
      else load_all phs' m
  end.

(** The file is in [p, hi), and the segment goes elsewhere. *)
Definition seg_ok (m : mem) (p hi : Z) (ph : phdr) : Prop :=
  bytes_at m (p + p_offset ph) (file ph) /\ Forall byte (file ph) /\ Z.of_nat (length (file ph)) = p_filesz ph /\
  p <= p + p_offset ph /\ p + p_offset ph + p_filesz ph <= hi /\ p_filesz ph <= p_memsz ph /\
  mapped m (seg_dest ph) (p_memsz ph) /\ seg_dest ph + p_memsz ph < 2 ^ 64 /\
  (seg_dest ph + p_memsz ph <= p \/ hi <= seg_dest ph).

Lemma seg_content_length m p hi ph : seg_ok m p hi ph -> Z.of_nat (length (seg_content ph)) = p_memsz ph.
Proof. intros (_ & _ & Hl & _ & _ & Hle & _). unfold seg_content. rewrite length_app, length_replicate. lia. Qed.

Lemma load_one_stores m p hi ph :
  seg_ok m p hi ph -> stores m (load_one m ph) (seg_dest ph) (seg_dest ph + p_memsz ph).
Proof.
  intros Hok. unfold load_one. destruct (allows _ _); [|apply stores_refl].
  pose proof (seg_content_length _ _ _ _ Hok) as Hl. destruct Hok as (_ & _ & _ & _ & _ & _ & Hm & _).
  apply write_bytes_stores; rewrite ?Hl; done || lia.
Qed.

Lemma seg_ok_frame m m' p hi ph a b :
  stores m m' a b -> b <= p \/ hi <= a -> seg_ok m p hi ph -> seg_ok m' p hi ph.
Proof.
  intros [Hs Hd] Hab (H1 & H2 & H3 & H4 & H5 & H6 & H7 & H8 & H9). split_and!; try done.
  - eapply bytes_at_frame; [exact Hs | exact H1 | lia].
  - intros x Hx. eapply same_dom_is_Some; [symmetry; exact Hd | by apply H7].
Qed.

Lemma load_segment_spec m p hi q ph :
  fields_at BE m q (phdr_fields c) (phdr_vals c ph) -> p <= q -> q + phdr_size c <= hi -> 0 <= p -> hi < 2 ^ 64 ->
  seg_ok m p hi ph -> load_segment pre_load post_load c m p q offset = Ok (load_one m ph).
Proof.
  intros Hph Hq Hqhi H0 Hhi Hok. unfold load_segment, load_one.
  pose proof (seg_content_length _ _ _ _ Hok) as Hcl.
  destruct Hok as (Hb & Hby & Hl & Ho1 & Ho2 & Hsz & Hm & Hd64 & Hdis).
  pose proof (phdr_get c m q ph Hph) as (_ & -> & _ & -> & Hf & Hms). res_simpl. fold (seg_dest ph).
  assert (exists r, (match pre_load with
            | Some pre_load => memsz ← get m q (f_p_memsz c); Ok (pre_load m (seg_dest ph) (s64 memsz))
            | None => Ok (0, m)
            end) = Ok (r, m) /\ (r =? 0) = allows (seg_dest ph) (s64 (p_memsz ph))) as (r & -> & Hr).
  { unfold allows. destruct pre_load as [f|]; [|by exists 0]. rewrite Hms. res_simpl.
    exists (f ∅ (seg_dest ph) (s64 (p_memsz ph))).1. split; [|done]. by rewrite (Hpre f eq_refl m). }
  res_simpl. rewrite Hr. destruct (allows _ _); cbn [negb]; [|done]. rewrite Hf. res_simpl.
  pose proof (u64_range (p_paddr ph + offset)) as Hdr. fold (seg_dest ph) in Hdr.
  assert (Huw : uword c (p_memsz ph - p_filesz ph) = p_memsz ph - p_filesz ph).
  { assert (0 <= p_memsz ph < 256 ^ Z.of_nat (f_p_memsz c).2) as Hr64.
    { destruct c; [eapply (fields_get _ _ _ _ _ 5) in Hph | eapply (fields_get _ _ _ _ _ 6) in Hph];
        try reflexivity; exact (proj2 Hph). }
    destruct c; cbn in Hr64; unfold uword; [rewrite u32_small | rewrite u64_small]; lia. }
  assert (Emv : memmove m (seg_dest ph) (u64 (p_offset ph + p)) (p_filesz ph) =
                Ok (seg_dest ph, write_bytes m (seg_dest ph) (file ph))).
  { rewrite <- Hl, u64_small by lia. rewrite Z.add_comm. apply memmove_spec; [done | done |].
    eapply mapped_sub; [exact Hm | lia | lia]. }
  rewrite Emv. res_simpl. set (m1 := write_bytes m (seg_dest ph) (file ph)).
  assert (S1 : stores m m1 (seg_dest ph) (seg_dest ph + p_memsz ph)).
  { apply write_bytes_stores; [eapply mapped_sub; [exact Hm | lia | lia] | lia | lia]. }
  set (m2 := write_bytes m (seg_dest ph) (seg_content ph)).
  assert (S2 : stores m m2 (seg_dest ph) (seg_dest ph + p_memsz ph)).
  { apply write_bytes_stores; rewrite ?Hcl; done || lia. }
  assert (Ems : memset m1 (u64 (seg_dest ph + p_filesz ph)) 0 (uword c (p_memsz ph - p_filesz ph)) =
                Ok (seg_dest ph + p_filesz ph, m2)).
  { rewrite Huw, u64_small by lia. rewrite <- (Z2Nat.id (p_memsz ph - p_filesz ph)) by lia. rewrite memset_spec.
    - unfold m1. rewrite <- Hl at 2. by rewrite write_bytes_seq.
    - rewrite Z2Nat.id by lia. intros a Ha. eapply same_dom_is_Some; [symmetry; exact (proj2 S1) |]. apply Hm. lia. }
  destruct (phdr_get c m1 q ph) as (_ & _ & _ & _ & -> & ->).
  { eapply fields_at_frame; [apply phdr_laid | exact S1 | lia | done]. }
  res_simpl. rewrite Ems. res_simpl.
  destruct (phdr_get c m2 q ph) as (_ & _ & _ & _ & _ & ->).
  { eapply fields_at_frame; [apply phdr_laid | exact S2 | lia | done]. }
  res_simpl. f_equal. destruct post_load as [f|]; [|done]. by destruct (p_memsz ph =? 0); rewrite ?(Hpost f eq_refl).
Qed.

Lemma segments_loop_spec phs m p hi h q i fuel :
  fields_at BE m p (ehdr_fields c) (ehdr_vals h) -> phdrs_at BE c m q (e_phentsize h) phs ->
  phdr_size c <= e_phentsize h -> p + ehdr_size c <= q -> 0 <= p ->
  q + e_phentsize h * Z.of_nat (length phs) <= hi -> hi < 2 ^ 64 ->
  i + Z.of_nat (length phs) = e_phnum h + 1 -> (length phs < fuel)%nat ->
  Forall (fun ph => p_type ph = PT_LOAD -> p_paddr ph = p_vaddr ph -> seg_ok m p hi ph) phs ->
  segments_loop pre_load post_load c fuel m p q offset i =
    Ok ((if (load_all phs m).1 then Some tt else None), (load_all phs m).2) /\
  fields_at BE (load_all phs m).2 p (ehdr_fields c) (ehdr_vals h).
Proof.
  assert (0 < phdr_size c /\ 16 <= ehdr_size c) as [Hps Hes] by (destruct c; cbn; lia).
  revert m q i fuel. induction phs as [|ph phs IH]; intros m q i [|fuel] He Hp Hsz Hq H0 Hhi Hhi64 Hi Hf Hok;
    cbn [length] in *; try lia; cbn [segments_loop load_all];
    destruct (ehdr_get c m p h He) as (_ & _ & _ & _ & _ & _ & _ & Rsz & Rn & _); rewrite Rn; res_simpl.
  - destruct (Z.leb_spec i (e_phnum h)); [lia | done].
  - destruct (Z.leb_spec i (e_phnum h)); [|lia]. destruct Hp as [Hph Hp].
    destruct (phdr_get c m q ph Hph) as (-> & _ & Hv & Hpa & _). res_simpl.
    pose proof (Forall_inv Hok) as Hok1. apply Forall_inv_tail in Hok.
    destruct (Z.eqb_spec (p_type ph) PT_LOAD) as [Ht|Ht].
    + rewrite Hpa, Hv. res_simpl. destruct (Z.eqb_spec (p_paddr ph) (p_vaddr ph)) as [Hpv|Hpv]; cbn [negb fst snd]; [|done].
      specialize (Hok1 Ht Hpv). rewrite (load_segment_spec m p hi q ph) by (done || nia). res_simpl.
      pose proof (load_one_stores _ _ _ _ Hok1) as S. set (m1 := load_one m ph) in *.
      assert (seg_dest ph + p_memsz ph <= p \/ hi <= seg_dest ph) as Hdis by apply Hok1.
      assert (He1 : fields_at BE m1 p (ehdr_fields c) (ehdr_vals h)).
      { eapply fields_at_frame; [apply ehdr_laid | exact S | nia | done]. }
      destruct (ehdr_get c m1 p h He1) as (_ & _ & _ & _ & _ & _ & _ & -> & _). res_simpl. rewrite u64_small by nia.
      apply IH; try done; try nia.
      * eapply phdrs_at_frame; [done | exact S | nia | done].
      * eapply Forall_impl; [|exact Hok]. intros x Hx ??. eapply seg_ok_frame; [exact S | lia | by apply Hx].
    + rewrite Rsz. res_simpl. rewrite u64_small by nia. apply IH; done || nia.
Qed.

Definition loadable (ph : phdr) : Prop := p_type ph = PT_LOAD /\ p_paddr ph = p_vaddr ph.

(** An address that no segment goes to keeps its byte. *)
Lemma load_all_outside phs m a :
  Forall (fun ph => loadable ph ->
    ~ seg_dest ph <= a < seg_dest ph + Z.of_nat (length (seg_content ph))) phs ->
  (load_all phs m).2 !! a = m !! a.
Proof.
  revert m. induction phs as [|ph phs IH]; intros m H; [done|]. cbn [load_all].
  pose proof (Forall_inv H) as H1. apply Forall_inv_tail in H.
  destruct (Z.eqb_spec (p_type ph) PT_LOAD) as [Ht|]; [|by apply IH].
  destruct (Z.eqb_spec (p_paddr ph) (p_vaddr ph)) as [Hv|]; [|done]. rewrite IH by done. unfold load_one.
  destruct (allows _ _); [|done]. apply write_bytes_outside. specialize (H1 (conj Ht Hv)). lia.
Qed.

Lemma load_all_field o phs m p hi f v q :
  Forall (fun ph => loadable ph -> seg_ok m p hi ph) phs -> p <= q + f.1 -> q + f.1 + Z.of_nat f.2 <= hi ->
  field_at o m q f v -> field_at o (load_all phs m).2 q f v.
Proof.
  intros Hok Hlo Hhi [Hb Hv]. split; [|done]. intros i b Hi. rewrite load_all_outside; [by apply Hb|].
  eapply Forall_impl; [|exact Hok]. intros ph Hph Hl. specialize (Hph Hl).
  pose proof (lookup_lt_Some _ _ _ Hi) as Hlt. rewrite enc_length in Hlt.
  rewrite (seg_content_length _ _ _ _ Hph). destruct Hph as (_ & _ & _ & _ & _ & _ & _ & _ & Hd). lia.
Qed.

(** Segments that go to different places are all there in the end. *)
Lemma load_all_at phs m p hi ph :
  Forall (fun ph => loadable ph -> seg_ok m p hi ph) phs ->
  ForallOrdPairs (fun ph ph' => loadable ph -> loadable ph' ->
    seg_dest ph + p_memsz ph <= seg_dest ph' \/ seg_dest ph' + p_memsz ph' <= seg_dest ph) phs ->
  (load_all phs m).1 = true -> ph ∈ phs -> loadable ph -> allows (seg_dest ph) (s64 (p_memsz ph)) = true ->
  bytes_at (load_all phs m).2 (seg_dest ph) (seg_content ph).
Proof.
  revert m. induction phs as [|x phs IH]; intros m Hok Hd Hall Hin Hl Ha; [by apply not_elem_of_nil in Hin|].
  inversion Hd as [|? ? Hx Hd']; subst. pose proof (Forall_inv Hok) as Hok1. apply Forall_inv_tail in Hok.
  cbn [load_all] in *. apply elem_of_cons in Hin.
  assert (IH' : loadable x -> forall m', m' = load_one m x -> Forall (fun ph => loadable ph -> seg_ok m' p hi ph) phs).
  { intros Hlx m' ->. eapply Forall_impl; [|exact Hok]. intros y Hy Hly.
    eapply seg_ok_frame; [by apply (load_one_stores m p hi), Hok1 | | by apply Hy].
    destruct (Hok1 Hlx) as (_ & _ & _ & _ & _ & _ & _ & _ & Hdx). lia. }
  destruct (Z.eqb_spec (p_type x) PT_LOAD) as [Ht|Ht].
  - destruct (Z.eqb_spec (p_paddr x) (p_vaddr x)) as [Hv|]; [|done].
    destruct Hin as [->|Hin]; [|by apply IH; [apply IH'| | | | |]].
    intros i b Hi. rewrite load_all_outside.
    + unfold load_one. rewrite Ha. by apply write_bytes_at.
    + pose proof (lookup_lt_Some _ _ _ Hi) as Hlt. rewrite Forall_forall in Hx, Hok |- *.
      intros y Hy Hly. specialize (Hx y Hy Hl Hly). specialize (Hok y Hy Hly). specialize (Hok1 Hl).
      pose proof (seg_content_length _ _ _ _ Hok1). rewrite (seg_content_length _ _ _ _ Hok). lia.
  - destruct Hin as [->|Hin]; [by destruct Hl|]. by apply IH.
Qed.
End segments.

(** ** Loading a file *)

(** The callbacks' contract, and the segments', for a file whose headers are
    in the machine's order. *)
Definition callbacks_ok (pre_load : option (mem -> Z -> Z -> Z * mem)) (post_load : option (mem -> Z -> Z -> mem)) : Prop :=
  (forall f, pre_load = Some f -> forall m a n, f m a n = ((f ∅ a n).1, m)) /\
  (forall f, post_load = Some f -> forall m a n, f m a n = m).

Definition segments_ok (offset : Z) (file : phdr -> list Z) (m : mem) (p hi : Z) (h : ehdr) (phs : list phdr) : Prop :=
  headers_end p h <= hi /\ hi < 2 ^ 64 /\
  Forall (fun ph => loadable ph -> seg_ok offset file m p hi ph) phs.

Lemma load_segments_spec pre_load post_load d c m p h phs offset file hi :
  callbacks_ok pre_load post_load -> image_at d BE c m p h phs -> segments_ok offset file m p hi h phs ->
  let '(ok, m') := load_all pre_load offset file phs m in
  elf_load_segments pre_load post_load c m p offset = Ok (if ok then e_entry h else 0, m').
Proof.
  intros [Hpre Hpost] Him (Hend & Hhi & Hok). destruct (image_phdrs _ _ _ _ _ _ Him) as (R & Hb0 & Hsz0 & Hb64 & Hn & Hf).
  pose proof Him as [_ _ _ He Hp Hnum Hoff Hsz [Ha Ha64]]. unfold headers_end in Hend.
  destruct (segments_loop_spec pre_load post_load Hpre Hpost c offset file phs m p hi h (p + e_phoff h) 0 phdr_turns)
    as [E1 F1]; try done; try lia.
  { eapply Forall_impl; [|exact Hok]. intros x Hx ??. by apply Hx. }
  destruct (load_all pre_load offset file phs m) as [ok m'] eqn:El. cbn [fst snd] in *.
  unfold elf_load_segments. rewrite R. res_simpl. rewrite E1. res_simpl. destruct ok; [|done].
  destruct (ehdr_get c m' p h F1) as (_ & _ & -> & _). done.
Qed.

(** What elf_load_file says of the file. *)
Definition file_type (d : order) (c : elfclass) (h : ehdr) : Z :=
  match d, c with
  | BE, _ => class_num c
  | LE, C32 => 5
  | LE, C64 => if Z.land (e_flags h) 3 =? 2 then 4 else 3
  end.

(** C8: elf_load_file on a file elf_check_file accepts.  Every PT_LOAD segment
    is copied to its address and its bss cleared, unless pre_load refuses it;
    the function returns the entry point and 1, 2, 3, 4 or 5 for the class, the
    byte order and the ABI, or 0 and the entry 0 when a segment has different
    virtual and physical addresses, at which it stops.  Segments that go to
    different places are all there in the end, and nothing else in the memory
    changes.  The segments lie in the file and go outside of it; the callbacks
    do not change the memory. *)
Theorem elf_load_file_correct pre_load post_load d c m p h phs m1 file hi entry :
  callbacks_ok pre_load post_load -> image_at d d c m p h phs ->
  elf_check_file m p = Ok (class_num c, m1) -> segments_ok 0 file m1 p hi h phs ->
  let '(ok, m') := load_all pre_load 0 file phs m1 in
  let entry' := if ok then e_entry h else 0 in
  elf_load_file pre_load post_load m p entry = Ok (if entry' =? 0 then 0 else file_type d c h, entry', m') /\
  (forall a, Forall (fun ph => loadable ph ->
     ~ seg_dest 0 ph <= a < seg_dest 0 ph + Z.of_nat (length (seg_content file ph))) phs -> m' !! a = m1 !! a) /\
  (ok = true ->
   ForallOrdPairs (fun ph ph' => loadable ph -> loadable ph' ->
     seg_dest 0 ph + p_memsz ph <= seg_dest 0 ph' \/ seg_dest 0 ph' + p_memsz ph' <= seg_dest 0 ph) phs ->
   forall ph, ph ∈ phs -> loadable ph -> allows pre_load (seg_dest 0 ph) (s64 (p_memsz ph)) = true ->
     bytes_at m' (seg_dest 0 ph) (seg_content file ph)).
Proof.
  intros Hcb Him Hck Hok. destruct (check_file_spec _ _ _ _ _ _ Him) as (m2 & E & Him1 & _ & _).
  rewrite E in Hck. injection Hck as Hv ->. pose proof (load_segments_spec _ _ _ _ _ _ _ _ _ _ _ Hcb Him1 Hok) as Hls.
  destruct Hok as (Hend & Hhi & Hok).
  pose proof (fun a => load_all_outside pre_load 0 file phs m1 a) as Hout.
  pose proof (fun ph => load_all_at pre_load 0 file phs m1 p hi ph Hok) as Hat.
  pose proof (fun o f v => load_all_field pre_load 0 file o phs m1 p hi f v p Hok) as Hfld.
  destruct (load_all pre_load 0 file phs m1) as [ok m'] eqn:El. cbn [fst snd] in *.
  split; [|split; [exact Hout | intros; apply Hat; done]].
  pose proof (phnum_range _ _ _ _ _ _ _ Him1) as Hnr.
  pose proof Him1 as [_ _ Hd He _ _ Hoff Hsz [Ha _]]. unfold headers_end in Hend.
  assert (0 < phdr_size c /\ 52 <= ehdr_size c) as [Hps Hes] by (destruct c; cbn; lia).
  assert (Hd' : get m' p f_ei_data = Ok (match d with BE => 2 | LE => 1 end)).
  { apply get_spec, Hfld; cbn; done || nia. }
  assert (Hfl : elf_get_eflags c m' p = Ok (e_flags h)).
  { apply get_spec, Hfld; [destruct c; cbn in *; lia | destruct c; cbn in *; nia |].
    eapply (fields_get _ _ _ _ _ 6); [exact He | by destruct c | done]. }
  unfold elf_load_file; by_class. rewrite E, Hv. res_simpl. unfold elf_le64_type; by_class.
  destruct c; cbn [class_num Z.eqb Pos.eqb] in *; rewrite Hls; res_simpl; rewrite Hd'; res_simpl; destruct d;
    cbn [ELFDATA2MSB negb Z.eqb Pos.eqb]; res_simpl; rewrite ?Hfl; res_simpl; done.
Qed.

(** ** The size of a file *)

(** Headers with their offset and size fields, in the machine's order. *)
Fixpoint extents_at (m : mem) (q sz : Z) (foff fsize : field) (l : list (Z * Z)) : Prop :=
  match l with
  | [] => True
  | e :: l' => field_at BE m q foff e.1 /\ field_at BE m q fsize e.2 /\ extents_at m (q + sz) sz foff fsize l'
  end.

Definition extent (c : elfclass) (l : list (Z * Z)) (acc : Z) : Z :=
  foldl (fun acc e => Z.max (uword c (e.1 + e.2)) acc) acc l.

Lemma extent_ge c l acc : acc <= extent c l acc /\ Forall (fun e => uword c (e.1 + e.2) <= extent c l acc) l.
Proof.
  unfold extent. revert acc. induction l as [|e l IH]; intros acc; cbn [foldl]; [done|].
  destruct (IH (Z.max (uword c (e.1 + e.2)) acc)) as [H1 H2]. split; [lia|]. constructor; [lia | done].
Qed.

Lemma elf_to_cpu_be m p q f v : field_at BE m p f_ei_data 2 -> field_at BE m q f v -> elf_to_cpu m p q f = Ok v.
Proof. intros Hd Hf. unfold elf_to_cpu. rewrite (get_spec _ _ _ _ Hf). res_simpl. by rewrite (get_spec _ _ _ _ Hd). Qed.

Lemma size_loop_spec c m p q sz bend foff fsize l acc :
  field_at BE m p f_ei_data 2 -> extents_at m q sz foff fsize l -> 0 <= q -> 0 <= sz ->
  q + sz * Z.of_nat (length l) <= bend -> bend < 2 ^ 64 ->
  size_loop c (length l) m p q sz bend foff fsize acc = Ok (Some (extent c l acc)).
Proof.
  intros Hd. revert q acc. induction l as [|e l IH]; intros q acc H Hq Hsz Hb Hb64; [done|].
  cbn [length size_loop extents_at] in *. destruct H as (H1 & H2 & H3). rewrite u64_small by nia.
  destruct (Z.ltb_spec bend (q + sz)); [nia|].
  rewrite (elf_to_cpu_be _ _ _ _ _ Hd H1). res_simpl. rewrite (elf_to_cpu_be _ _ _ _ _ Hd H2). res_simpl.
  apply IH; done || nia.
Qed.

Lemma ROUNDUP_spec x : 0 <= x -> x + 3 < 2 ^ 64 -> ROUNDUP x 4 = (x + 3) / 4 * 4 /\ x <= ROUNDUP x 4 < x + 4.
Proof.
  intros H0 Hx. unfold ROUNDUP. change (4 - 1) with 3. rewrite (u64_small (x + 3)) by lia. rewrite u64_small by lia_div.
  split; [done | lia_div].
Qed.

(** elf_get_file_size on a big-endian file whose headers lie in the
    buffer: the farthest end of a segment or a section, rounded up to a multiple
    of 4, or -1 when that is more than the buffer; no segment or section ends
    after it. *)
Theorem elf_get_file_size_correct c m p bsize h segs secs :
  field_at BE m p f_ei_ident 0x7f454c46 -> field_at BE m p f_ei_class (class_num c) -> field_at BE m p f_ei_data 2 ->
  fields_at BE m p (ehdr_fields c) (ehdr_vals h) -> e_ehsize h = ehdr_size c ->
  extents_at m (p + e_phoff h) (e_phentsize h) (f_p_offset c) (f_p_filesz c) segs -> Z.of_nat (length segs) = e_phnum h ->
  extents_at m (p + e_shoff h) (e_shentsize h) (f_sh_offset c) (f_sh_size c) secs -> Z.of_nat (length secs) = e_shnum h ->
  0 <= p -> EHDR_SIZE <= bsize -> p + bsize < 2 ^ 64 ->
  e_phoff h + e_phentsize h * e_phnum h <= bsize -> e_shoff h + e_shentsize h * e_shnum h <= bsize ->
  let size := extent c secs (extent c segs 0) in
  size + 3 < 2 ^ 63 ->
  elf_get_file_size m p bsize = Ok (if bsize <? (size + 3) / 4 * 4 then -1 else (size + 3) / 4 * 4) /\
  Forall (fun e => uword c (e.1 + e.2) <= (size + 3) / 4 * 4) (segs ++ secs).
Proof.
  intros Hid Hcl Hd He Hes Hsg Hsgn Hsc Hscn Hp Hb Hpb Hph Hsh size Hsz.
  destruct (extent_ge c segs 0) as [G1 G2]. destruct (extent_ge c secs (extent c segs 0)) as [G3 G4].
  fold size in G3, G4. destruct (ROUNDUP_spec size) as [R1 R2]; [lia | lia|]. split.
  - assert (0 <= e_phoff h /\ 0 <= e_shoff h /\ 0 <= e_phentsize h /\ 0 <= e_shentsize h) as (? & ? & ? & ?).
    { split_and!;
        [eapply (fields_get _ _ _ _ _ 4 (f_e_phoff c)) in He | eapply (fields_get _ _ _ _ _ 5 (f_e_shoff c)) in He |
         eapply (fields_get _ _ _ _ _ 8 (f_e_phentsize c)) in He | eapply (fields_get _ _ _ _ _ 10 (f_e_shentsize c)) in He];
        try (destruct c; reflexivity); destruct He as [_ He]; exact (proj1 He). }
    assert (F : elf_to_cpu m p p (f_e_phoff c) = Ok (e_phoff h) /\ elf_to_cpu m p p (f_e_phentsize c) = Ok (e_phentsize h) /\
      elf_to_cpu m p p (f_e_phnum c) = Ok (e_phnum h) /\ elf_to_cpu m p p (f_e_shoff c) = Ok (e_shoff h) /\
      elf_to_cpu m p p (f_e_shentsize c) = Ok (e_shentsize h) /\ elf_to_cpu m p p (f_e_shnum c) = Ok (e_shnum h)).
    { split_and!; apply elf_to_cpu_be; try done;
        [eapply (fields_get _ _ _ _ _ 4) | eapply (fields_get _ _ _ _ _ 8) | eapply (fields_get _ _ _ _ _ 9) |
         eapply (fields_get _ _ _ _ _ 5) | eapply (fields_get _ _ _ _ _ 10) | eapply (fields_get _ _ _ _ _ 11)];
        try exact He; destruct c; reflexivity. }
    destruct F as (F1 & F2 & F3 & F4 & F5 & F6).
    assert (Hsize : elf_get_file_size_ c m p bsize = Ok (if bsize <? (size + 3) / 4 * 4 then -1 else (size + 3) / 4 * 4)).
    { unfold elf_get_file_size_. destruct (Z.ltb_spec bsize EHDR_SIZE); [lia|].
      destruct (ehdr_get c m p h He) as (_ & _ & _ & _ & _ & _ & -> & _). res_simpl. rewrite Hes, Z.eqb_refl. cbn [negb].
      rewrite F1. res_simpl. rewrite F2. res_simpl. rewrite F3. res_simpl. unfold EHDR_SIZE in *.
      rewrite (u64_small (p + bsize)), (u64_small (p + e_phoff h)) by nia. rewrite <- Hsgn, Nat2Z.id.
      rewrite size_loop_spec by (done || nia). res_simpl. rewrite F4. res_simpl. rewrite F5. res_simpl. rewrite F6. res_simpl.
      rewrite (u64_small (p + e_shoff h)) by nia. rewrite <- Hscn, Nat2Z.id.
      rewrite size_loop_spec by (done || nia). res_simpl. fold size. rewrite R1.
      destruct (_ <? _); [done|]. rewrite s64_small by lia. done. }
    unfold elf_get_file_size; by_class. destruct (Z.ltb_spec bsize EHDR_SIZE); [lia|].
    rewrite (get_spec _ _ _ _ Hid). res_simpl. cbn [negb Z.eqb Pos.eqb]. rewrite (get_spec _ _ _ _ Hcl). res_simpl.
    by destruct c.
  - apply Forall_app. split; (eapply Forall_impl; [|eassumption]); cbn; lia.
Qed.

(** ** Relocation *)

Definition half_of (type : Z) : option (Z -> Z) :=
  if type =? R_PPC64_ADDR16_HIGHEST then Some half_highest
  else if type =? R_PPC64_ADDR16_HIGHER then Some half_higher
  else if type =? R_PPC64_ADDR16_HI then Some half_hi
  else if type =? R_PPC64_ADDR16_LO then Some half_lo
  else if type =? R_PPC64_ADDR16_LO_DS then Some half_lo_ds
  else if type =? R_PPC64_ADDR16_HA then Some half_ha
  else None.

Lemma land_ffff x : Z.land x 0xffff = x mod 65536.
Proof. change 0xffff with (Z.ones 16). by rewrite Z.land_ones. Qed.

Lemma land_8000 x : (Z.land x 0x8000 =? 0) = (x / 32768 mod 2 =? 0).
Proof.
  change 0x8000 with (2 ^ 15) at 1. assert (T : Z.testbit x 15 = negb (x / 32768 mod 2 =? 0)).
  { rewrite Z.testbit_eqb by lia. change (2 ^ 15) with 32768. destruct (Z.eqb_spec (x / 32768 mod 2) 0), (Z.eqb_spec (x / 32768 mod 2) 1); lia_div. }
  destruct (x / 32768 mod 2 =? 0); cbn [negb] in T.
  - apply Z.eqb_eq, Z.bits_inj'. intros n Hn. rewrite Z.land_spec, Z.pow2_bits_eqb, Z.bits_0 by lia.
    destruct (Z.eqb_spec 15 n) as [<-|]; [by rewrite T | apply andb_false_r].
  - apply Z.eqb_neq. intros E. apply (f_equal (fun y => Z.testbit y 15)) in E.
    rewrite Z.land_spec, T, Z.pow2_bits_eqb, Z.bits_0 in E by lia. done.
Qed.

Lemma halves_value s_a :
  0 <= s_a < 2 ^ 64 ->
  half_highest s_a * 2 ^ 48 + half_higher s_a * 2 ^ 32 + half_hi s_a * 2 ^ 16 + half_lo s_a = s_a /\
  (half_ha s_a * 2 ^ 16 + to_signed 16 (half_lo s_a)) mod 2 ^ 32 = s_a mod 2 ^ 32.
Proof.
  intros Hs. unfold half_highest, half_higher, half_hi, half_lo, half_ha. rewrite !land_ffff, land_8000.
  rewrite !Z.shiftr_div_pow2 by lia. split; [lia_div|]. unfold to_signed. change (2 ^ (16 - 1)) with 32768.
  rewrite u64_small by (destruct (_ =? _); lia_div).
  destruct (Z.eqb_spec (s_a / 32768 mod 2) 0); destruct (Z.ltb_spec ((s_a mod 65536) mod 2 ^ 16) 32768); lia_div.
Qed.

(** elf_apply_rela64 for the relocations of half-words.  An entry whose
    place is below the base address of the file changes nothing; any other
    stores the half-word of S + A (the symbol's value moved by the offset, plus
    the addend) at its place, moved by the offset, and nothing else.  The
    half-words of the four types highest, higher, hi and lo make up S + A, and
    those of ha and lo, with lo extended by its sign as addi does, its low 32
    bits. *)
Theorem elf_apply_rela64_halves d m p h phs offset q sym ro info add st f :
  image_at d BE C64 m p h phs ->
  field_at BE m q f_r_offset ro -> field_at BE m q f_r_info info -> field_at BE m q f_r_addend add ->
  field_at BE m sym f_st_value st ->
  half_of (ELF_R_TYPE info) = Some f -> mapped m (u64 (ro + offset)) 2 ->
  let s_a := u64 (st + offset + add) in
  elf_apply_rela64 m p offset q sym =
    Ok (if ro <? u64 (base_of phs) then m else write_bytes m (u64 (ro + offset)) (be_enc 2 (f s_a))) /\
  half_highest s_a * 2 ^ 48 + half_higher s_a * 2 ^ 32 + half_hi s_a * 2 ^ 16 + half_lo s_a = s_a /\
  (half_ha s_a * 2 ^ 16 + to_signed 16 (half_lo s_a)) mod 2 ^ 32 = s_a mod 2 ^ 32.
Proof.
  intros Him Hro Hinfo Hadd Hst Hf Hm s_a. split; [|apply halves_value; apply u64_range].
  destruct (image_phdrs _ _ _ _ _ _ Him) as (R & Hb).
  assert (G : elf_get_base_addr_ C64 m p = Ok (base_of phs)).
  { unfold elf_get_base_addr_. rewrite R. res_simpl. apply (base_loop_spec C64 m p h); try apply Him; apply Hb. }
  unfold elf_apply_rela64; by_class. rewrite G. res_simpl. rewrite (get_spec _ _ _ _ Hro). res_simpl.
  destruct (ro <? u64 (base_of phs)); [done|]. rewrite (get_spec _ _ _ _ Hst). res_simpl.
  rewrite (get_spec _ _ _ _ Hadd). res_simpl. rewrite (get_spec _ _ _ _ Hinfo). res_simpl. fold s_a.
  assert (Hstore : forall v, 0 <= v < 65536 -> store_half m (u64 (ro + offset)) v =
      Ok (write_bytes m (u64 (ro + offset)) (be_enc 2 v))).
  { intros v Hv. unfold store_half. rewrite u16_small by done. by apply store_be_spec. }
  unfold half_of, R_PPC64_ADDR16_HIGHEST, R_PPC64_ADDR16_HIGHER, R_PPC64_ADDR16_HI, R_PPC64_ADDR16_LO,
    R_PPC64_ADDR16_LO_DS, R_PPC64_ADDR16_HA, R_PPC64_ADDR32, R_PPC64_ADDR64, R_PPC64_TOC in *.
  generalize dependent (ELF_R_TYPE info). intros t Hf.
  repeat match type of Hf with
  | context [t =? ?k] => destruct (Z.eqb_spec t k) as [Ht|_]
  end; try discriminate; injection Hf as <-; rewrite Ht; cbn [Z.eqb Pos.eqb];
    unfold half_highest, half_higher, half_hi, half_lo, half_lo_ds, half_ha; apply Hstore;
    rewrite ?land_ffff; try lia_div.
  rewrite Z.land_comm. apply (land_range 16); lia.
Qed.

(** ** A file *)

Definition field_atb (o : order) (m : mem) (p : Z) (f : field) (v : Z) : bool :=
  bytes_atb m (p + f.1) (enc o f.2 v) && (0 <=? v) && (v <? 256 ^ Z.of_nat f.2).

Fixpoint fields_atb (o : order) (m : mem) (p : Z) (fs : list field) (vs : list Z) : bool :=
  match fs, vs with
  | [], [] => true
  | f :: fs', v :: vs' => field_atb o m p f v && fields_atb o m p fs' vs'
  | _, _ => false
  end.

Fixpoint phdrs_atb (o : order) (c : elfclass) (m : mem) (q sz : Z) (phs : list phdr) : bool :=
  match phs with
  | [] => true
  | ph :: phs' => fields_atb o m q (phdr_fields c) (phdr_vals c ph) && phdrs_atb o c m (q + sz) sz phs'
  end.

Lemma field_atb_spec o m p f v : field_atb o m p f v = true -> field_at o m p f v.
Proof. unfold field_atb. intros [[H%bytes_atb_spec H1]%andb_prop H2]%andb_prop. split; [done | lia]. Qed.

Lemma fields_atb_spec o m p fs vs : fields_atb o m p fs vs = true -> fields_at o m p fs vs.
Proof.
  revert vs. induction fs as [|f fs IH]; intros [|v vs] H; try done; [constructor|]. cbn [fields_atb] in H.
  apply andb_prop in H as [H1%field_atb_spec H2%IH]. by constructor.
Qed.

Lemma phdrs_atb_spec o c m q sz phs : phdrs_atb o c m q sz phs = true -> phdrs_at o c m q sz phs.
Proof.
  revert q. induction phs as [|ph phs IH]; intros q H; [done|]. cbn [phdrs_atb] in H.
  apply andb_prop in H as [H1%fields_atb_spec H2%IH]. done.
Qed.

Definition demo_ehdr (c : elfclass) : ehdr :=
  Ehdr 2 (match c with C32 => 0x14 | C64 => 0x15 end) 1 0x104 (ehdr_size c) 0 2 (ehdr_size c) (phdr_size c) 1 0 0 0.

(** Four bytes of the file go to 0x100 and four zero bytes after them. *)
Definition demo_phdrs (c : elfclass) : list phdr :=
  [Phdr 1 (ehdr_size c + 2 * phdr_size c) 0x100 0x100 4 8 0 0; Phdr 0 0 0 0 0 0 0 0].

Definition enc_struct (o : order) (fs : list field) (vs : list Z) : list Z :=
  concat (zip_with (fun f v => enc o f.2 v) fs vs).

Definition demo_file (d o : order) (c : elfclass) : list Z :=
  [0x7f; 0x45; 0x4c; 0x46; class_num c; match d with BE => 2 | LE => 1 end; 1] ++ replicate 9 0 ++
  enc_struct o (ehdr_fields c) (ehdr_vals (demo_ehdr c)) ++
  concat ((fun ph => enc_struct o (phdr_fields c) (phdr_vals c ph)) <$> demo_phdrs c) ++ [1; 2; 3; 4].

Definition demo_mem (d o : order) (c : elfclass) : mem :=
  write_bytes (write_bytes ∅ 0x100 (replicate 16 0xEE)) 0x1000 (demo_file d o c).

Lemma demo_image d o c : image_at d o c (demo_mem d o c) 0x1000 (demo_ehdr c) (demo_phdrs c).
Proof.
  split.
  1-3: apply field_atb_spec; destruct d, o, c; vm_compute; reflexivity.
  - apply fields_atb_spec. destruct d, o, c; vm_compute; reflexivity.
  - apply phdrs_atb_spec. destruct d, o, c; vm_compute; reflexivity.
  - by destruct c.
  - destruct c; cbn; lia.
  - destruct c; cbn; lia.
  - destruct c; cbn; lia.
Qed.

Lemma elf_check_file_correct_witness :
  elf_check_file (demo_mem BE BE C64) 0x1000 = Ok (2, demo_mem BE BE C64) /\
  elf_check_file (demo_mem BE BE C64) 0x1004 = Ok (-1, demo_mem BE BE C64).
Proof.
  split.
  - apply (elf_check_file_correct (demo_mem BE BE C64) 0x1000 (take 20 (demo_file BE BE C64)));
      [apply bytes_atb_spec; vm_compute; reflexivity | reflexivity | apply (bool_decide_unpack _); vm_compute; exact I | reflexivity].
  - apply (elf_check_file_correct (demo_mem BE BE C64) 0x1004 (part 4 20 (demo_file BE BE C64)));
      [apply bytes_atb_spec; vm_compute; reflexivity | reflexivity | apply (bool_decide_unpack _); vm_compute; exact I | discriminate].
Defined.

Lemma elf_get_base_addr_correct_witness :
  exists m', elf_get_base_addr (demo_mem LE LE C64) 0x1000 = Ok (0x100, m') /\
    stores (demo_mem LE LE C64) m' 0x1010 0x10b0.
Proof.
  apply (elf_get_base_addr_correct LE C64 (demo_mem LE LE C64) 0x1000 (demo_ehdr C64) (demo_phdrs C64)).
  apply demo_image.
Defined.

Definition demo_content (ph : phdr) : list Z := [1; 2; 3; 4].

Lemma elf_load_file_correct_witness :
  (fun r => r.1) <$> elf_load_file None None (demo_mem BE BE C64) 0x1000 0 = Ok (2, 0x104) /\
  bytes_at (load_all None 0 demo_content (demo_phdrs C64) (demo_mem BE BE C64)).2 0x100 [1; 2; 3; 4; 0; 0; 0; 0].
Proof.
  assert (Hl : forall ph, ph ∈ demo_phdrs C64 -> loadable ph -> ph = Phdr 1 176 0x100 0x100 4 8 0 0).
  { intros ph Hin [Ht _]. repeat (apply elem_of_cons in Hin as [->|Hin]; [done|]). by apply not_elem_of_nil in Hin. }
  destruct (elf_load_file_correct None None BE C64 (demo_mem BE BE C64) 0x1000 (demo_ehdr C64) (demo_phdrs C64)
              (demo_mem BE BE C64) demo_content 0x10b4 0) as (E & _ & Hat).
  - by split.
  - apply demo_image.
  - vm_compute. reflexivity.
  - split; [vm_compute; discriminate|]. split; [lia|]. apply Forall_forall. intros ph Hin Hld. rewrite (Hl ph (proj2 (list_elem_of_In _ _) Hin) Hld).
    split_and!; try (vm_compute; congruence).
    + mem_compute.
    + repeat constructor; lia.
    + change (p_memsz _) with (Z.of_nat 8). mem_compute.
    + left. vm_compute. discriminate.
  - split; [rewrite E; reflexivity|].
    apply (Hat eq_refl) with (ph := Phdr 1 176 0x100 0x100 4 8 0 0).
    + constructor; [constructor; [intros _ [Ht _]; discriminate | constructor] | repeat constructor].
    + left.
    + split; reflexivity.
    + reflexivity.
Defined.

Lemma elf_get_file_size_correct_witness :
  elf_get_file_size (demo_mem BE BE C32) 0x1000 0x200 = Ok 120.
Proof.
  apply (elf_get_file_size_correct C32 (demo_mem BE BE C32) 0x1000 0x200 (demo_ehdr C32) [(116, 4)] []).
  1-3: apply field_atb_spec; vm_compute; reflexivity.
  - apply fields_atb_spec. vm_compute. reflexivity.
  - reflexivity.
  - split_and!; [apply field_atb_spec; vm_compute; reflexivity | apply field_atb_spec; vm_compute; reflexivity | done].
  - reflexivity.
  - done.
  - reflexivity.
  - lia.
  - vm_compute. discriminate.
  - lia.
  - vm_compute. discriminate.
  - vm_compute. discriminate.
  - vm_compute. reflexivity.
Defined.

(** A relocation of type ADDR16_HA at 0x104, and its symbol. *)
Definition demo_rela : mem :=
  write_bytes (demo_mem BE BE C64) 0x2000
    (be_enc 8 0x104 ++ be_enc 8 R_PPC64_ADDR16_HA ++ be_enc 8 0x10 ++ be_enc 8 0 ++ be_enc 8 0x12348000 ++ be_enc 8 0).

Lemma elf_apply_rela64_halves_witness :
  elf_apply_rela64 demo_rela 0x1000 0 0x2000 0x2018 = Ok (write_bytes demo_rela 0x104 [0x12; 0x35]).
Proof.
  destruct (elf_apply_rela64_halves BE demo_rela 0x1000 (demo_ehdr C64) (demo_phdrs C64) 0 0x2000 0x2018 0x104
              R_PPC64_ADDR16_HA 0x10 0x12348000 half_ha) as [E _].
  - split.
    1-3: apply field_atb_spec; vm_compute; reflexivity.
    + apply fields_atb_spec. vm_compute. reflexivity.
    + apply phdrs_atb_spec. vm_compute. reflexivity.
    + done.
    + cbn. lia.
    + cbn. lia.
    + cbn. lia.
  - apply field_atb_spec. vm_compute. reflexivity.
  - apply field_atb_spec. vm_compute. reflexivity.
  - apply field_atb_spec. vm_compute. reflexivity.
  - apply field_atb_spec. vm_compute. reflexivity.
  - reflexivity.
  - change 2 with (Z.of_nat 2). mem_compute.
  - rewrite E. reflexivity.
Defined.

(** ** What the functions do with other inputs *)

(** The header after the last one is looked at too: with e_phnum = 0 and bytes
    that look like a PT_LOAD header after the ELF header, these are loaded. *)
Example one_header_too_many :
  (fun r => (r.1, load_bytes r.2 0x100 4)) <$>
    (m ← store_be 2 (demo_mem BE BE C64) (0x1000 + 56) 0; elf_load_file None None m 0x1000 0) =
  Ok (2, 0x104, Ok [1; 2; 3; 4]).
Proof. vm_compute. reflexivity. Qed.

(** e_ehsize is compared without a conversion: a little-endian file has no size. *)
Example file_size_little_endian :
  elf_get_file_size (demo_mem LE LE C64) 0x1000 0x200 = Ok (-1).
Proof. vm_compute. reflexivity. Qed.

(** The end of a segment is a 32-bit sum: one that wraps counts as little. *)
Example file_size_wraps :
  (m ← store_be 4 (demo_mem BE BE C32) (0x1000 + 52 + 16) 0xFFFFFFF0; elf_get_file_size m 0x1000 0x200) = Ok 100.
Proof. vm_compute. reflexivity. Qed.

(** A buffer with a generic header only passes the test of its size, and the
    fields after it are read all the same. *)
Example file_size_short_buffer :
  elf_get_file_size (write_bytes ∅ 0x1000 (take 24 (demo_file BE BE C64))) 0x1000 24 = Fault.
Proof. vm_compute. reflexivity. Qed.

(** A file of the wrong byte order is converted, not refused with -2. *)
Example check_file_other_order :
  (fun r => r.1) <$> elf_check_file (demo_mem LE LE C64) 0x1000 = Ok 2.
Proof. vm_compute. reflexivity. Qed.
