(* ===== verification/P9.v ===== *)
(** * lib/libvirtio/p9.c: the client of the 9P protocol

    The static variables of the file are a record: the two buffers ([None] is
    NULL), the offset of [sp] in the transmit buffer, and what
    [transact_opaque] points to, of any type.  The transport function is a
    parameter ([None] is NULL): it gets the transmit buffer with the size of
    the message and the receive buffer with its size, and gives its return code
    and what the receive buffer holds after.  A store outside of a buffer is a
    [Fault].  Strings are lists of the bytes before the NUL, and a position in a
    path is an offset.  The error string of the server is only printed, and is
    not modelled. *)

From Stdlib Require Import ZArith Lia.
From stdpp Require Import base list gmap option numbers.
From S2P Require Import Prelude.

(** ** Constants *)

Definition NOTAG : Z := u16 (Z.lnot 0).
Definition NOFID : Z := u32 (Z.lnot 0).
Definition TAG : Z := 1.
Definition BUF_SIZE : nat := Z.to_nat (8 * 1024).

(** "9P2000.u" and "unknown" *)
Definition VERSION : list Z := [57; 80; 50; 48; 48; 48; 46; 117].
Definition UNKNOWN_VER : list Z := [117; 110; 107; 110; 111; 119; 110].

Definition MSG_SIZE : nat := 0.
Definition MSG_ID : nat := 4.
Definition MSG_ERR : Z := 0x6b.
Definition MSG_TAG : nat := 5.
Definition MSG_VER_MSIZE : nat := 7.
Definition MSG_VER_STR_LEN : nat := 11.
Definition MSG_VER_STR : nat := 13.
Definition MSG_WALK_TX_ELMT : nat := 15.
Definition MSG_WALK_RX_ELMT : nat := 7.
Definition MSG_WALK_MAX_ELMT : nat := 16.
Definition MSG_QID_SIZE : Z := 13.
Definition MSG_WALK_RX_HDR_SIZE : Z := 9.
Definition MSG_OPEN_IOUNIT : nat := 20.
Definition MSG_OPEN_MODE_MASK : Z := 0x5f.
Definition MSG_READ_COUNT : nat := 7.
Definition MSG_READ_DATA : nat := 11.
Definition MSG_STAT_LEN : nat := 42.
Definition MSG_STAT_TYPE : nat := 17.

Definition T_VERSION : Z := 100.
Definition T_ATTACH : Z := 104.
Definition T_WALK : Z := 110.
Definition T_OPEN : Z := 112.
Definition T_READ : Z := 116.
Definition T_CLUNK : Z := 120.
Definition T_STAT : Z := 124.

(** p9.h *)
Definition P9_UNKNOWN_VERSION : Z := -2.
Definition P9_R_ERROR : Z := -3.
Definition P9_MSG_TOO_LONG : Z := -4.
Definition P9_UNEXPECTED_MSG : Z := -5.
Definition P9_UNEXPECTED_TAG : Z := -6.
Definition P9_TRANSPORT_ERROR : Z := -7.
Definition P9_NO_TRANSPORT : Z := -8.
Definition P9_NULL_PATH : Z := -9.
Definition P9_PATH_ELEMENT_TOO_LONG : Z := -10.
Definition P9_READ_UNEXPECTED_DATA : Z := -11.
Definition P9_NO_BUFFER : Z := -12.
Definition P9_MSG_SIZE_TOO_BIG : Z := -13.
Definition P9_PARTIAL_WALK : Z := 1.

Record p9_connection_t := Connection { message_size : Z; uname : list Z; aname : list Z; cfid : Z }.
Record p9_file_t := File { ffid : Z; iounit : Z; ftype : Z; flength : Z; connection : p9_connection_t }.

Definition MIN (a b : Z) : Z := if b <? a then b else a.

(** ** Paths *)

Fixpoint skip_slashes (s : list Z) : list Z :=
  match s with b :: s' => if b =? 47 then skip_slashes s' else s | [] => [] end.

(** The bytes up to the next '/' or the end, and what follows. *)
Fixpoint take_elem (s : list Z) : list Z :=
  match s with b :: s' => if b =? 47 then [] else b :: take_elem s' | [] => [] end.
Fixpoint drop_elem (s : list Z) : list Z :=
  match s with b :: s' => if b =? 47 then s else drop_elem s' | [] => [] end.

(** The last loop of p9_walk: the rest of the path after [n] elements. *)
Fixpoint recount (n : nat) (s : list Z) : list Z :=
  match n with O => s | S n' => recount n' (drop_elem (skip_slashes s)) end.

(** ** The client *)

Section p9.
Context {T : Type}.
Context (transact : option (T -> list Z -> Z -> list Z -> Z -> Z * list Z * T)).

Record p9st := P9 { opaque : T; tx : option (list Z); rx : option (list Z); sp : nat }.

Definition get (n : nat) (s : list Z) (i : nat) : Z := le_dec (take n (drop i s)).

(** PUT_08 .. PUT_64, and the memcpy of PUT_SN and PUT_ST. *)
Definition put_bytes (st : p9st) (bs : list Z) : res p9st :=
  match tx st with
  | Some t =>
      if decide (sp st + length bs <= length t)%nat
      then Ok (P9 (opaque st) (Some (splice t (sp st) bs)) (rx st) (sp st + length bs))
      else Fault
  | None => Fault
  end.
Definition put (n : nat) (st : p9st) (v : Z) : res p9st := put_bytes st (le_enc n v).
Definition put_hd (st : p9st) (m t : Z) : res p9st := st ← put 4 st 0; st ← put 1 st m; put 2 st t.
Definition put_st (st : p9st) (s : list Z) : res p9st := st ← put 2 st (Z.of_nat (length s)); put_bytes st s.

(** SET_16 and SET_32. *)
Definition set (n : nat) (st : p9st) (i : nat) (v : Z) : res p9st :=
  match tx st with
  | Some t =>
      if decide (i + n <= length t)%nat then Ok (P9 (opaque st) (Some (splice t i (le_enc n v))) (rx st) (sp st))
      else Fault
  | None => Fault
  end.

Definition reset_buffers (st : p9st) : res p9st :=
  match tx st, rx st with
  | Some t, Some r =>
      if decide (BUF_SIZE <= length t /\ BUF_SIZE <= length r)%nat
      then Ok (P9 (opaque st) (Some (splice t 0 (replicate BUF_SIZE 0))) (Some (splice r 0 (replicate BUF_SIZE 0))) 0)
      else Fault
  | _, _ => Fault
  end.

(** p9_reg_transport, for this transport. *)
Definition p9_reg_transport (o : T) (tx_buffer rx_buffer : option (list Z)) (sp : nat) : p9st :=
  P9 o tx_buffer rx_buffer sp.

Definition p9_transaction (conn : p9_connection_t) (st : p9st) : res (Z * p9st) :=
  let tx_size := Z.of_nat (sp st) in
  let rx_size := message_size conn in
  match transact, tx st, rx st with
  | None, _, _ => Ok (P9_NO_TRANSPORT, st)
  | Some _, None, _ | Some _, _, None => Ok (P9_NO_BUFFER, st)
  | Some transact, Some _, Some r =>
      if Z.of_nat BUF_SIZE <? message_size conn then Ok (P9_MSG_SIZE_TOO_BIG, st)
      else if message_size conn <? tx_size then Ok (P9_MSG_TOO_LONG, st)
      else
        st ← set 4 st MSG_SIZE tx_size;
        let t := default [] (tx st) in
        let '(rc, r, o) := transact (opaque st) t tx_size r rx_size in
        let st := P9 o (tx st) (Some r) (sp st) in
        if negb (rc =? 0) then Ok (P9_TRANSPORT_ERROR, st)
        else if negb (get 2 t MSG_TAG =? get 2 r MSG_TAG) then Ok (P9_UNEXPECTED_TAG, st)
        else if get 1 r MSG_ID =? MSG_ERR then Ok (P9_R_ERROR, st)
        else if negb (get 1 t MSG_ID + 1 =? get 1 r MSG_ID) then Ok (P9_UNEXPECTED_MSG, st)
        else Ok (0, st)
  end.

(** What the receive buffer holds. *)
Definition reply (st : p9st) : list Z := default [] (rx st).

Definition p9_version (conn : p9_connection_t) (st : p9st) : res (Z * p9_connection_t * p9st) :=
  st ← reset_buffers st;
  st ← put_hd st T_VERSION NOTAG;
  st ← put 4 st (message_size conn);
  st ← put_st st VERSION;
  '(rc, st) ← p9_transaction conn st;
  if negb (rc =? 0) then Ok (rc, conn, st) else
  let conn := Connection (MIN (message_size conn) (get 4 (reply st) MSG_VER_MSIZE)) (uname conn) (aname conn) (cfid conn) in
  let ver_len := Z.to_nat (get 2 (reply st) MSG_VER_STR_LEN) in
  if strncmp_eq ver_len UNKNOWN_VER (drop MSG_VER_STR (reply st)) then Ok (P9_UNKNOWN_VERSION, conn, st)
  else Ok (0, conn, st).

Definition p9_attach (conn : p9_connection_t) (st : p9st) : res (Z * p9st) :=
  let length' := u32 (19 + Z.of_nat (length (uname conn)) + Z.of_nat (length (aname conn))) in
  if message_size conn <? length' then Ok (P9_MSG_TOO_LONG, st) else
  st ← reset_buffers st;
  st ← put_hd st T_ATTACH TAG;
  st ← put 4 st (cfid conn);
  st ← put 4 st NOFID;
  st ← put_st st (uname conn);
  st ← put_st st (aname conn);
  st ← put 4 st (u32 (Z.lnot 0));
  p9_transaction conn st.

Definition p9_clunk (conn : p9_connection_t) (fid : Z) (st : p9st) : res (Z * p9st) :=
  st ← reset_buffers st;
  st ← put_hd st T_CLUNK TAG;
  st ← put 4 st fid;
  p9_transaction conn st.

(** The loop that puts the elements of the path into the message.  [s] is what
    [s_tok] points to, at the offset [off]; the result is the number of
    elements and the offset of [e_tok].  Every turn moves [s_tok].  The byte
    before the path is not read: there the function returns an error whatever
    it is. *)
Fixpoint walk_loop (fuel : nat) (conn : p9_connection_t) (path s : list Z) (off e_tok element_count : nat) (st : p9st)
    : res (nat * nat * p9st) :=
  match fuel with
  | O => OutOfFuel
  | S fuel' =>
      if decide (s = []) then Ok (element_count, e_tok, st) else
      let s1 := skip_slashes s in
      let s_tok := (off + (length s - length s1))%nat in
      let el := take_elem s1 in
      let e_tok := (s_tok + length el)%nat in
      if strncmp_eq (length el) [46] s1
      then walk_loop fuel' conn path (drop_elem s1) e_tok e_tok element_count st
      else
        let tx_size := u32 (Z.of_nat (length el) + 2 + Z.of_nat (sp st)) in
        let rx_size := u32 ((Z.of_nat element_count + 1) * MSG_QID_SIZE + MSG_WALK_RX_HDR_SIZE) in
        if (message_size conn <? tx_size) || (message_size conn <? rx_size)
        then Ok (element_count,
                 if decide (nth (pred s_tok) path 0 = 47 /\ s_tok <> O) then pred s_tok else s_tok, st)
        else
          st ← put 2 st (Z.of_nat (length el));
          st ← put_bytes st el;
          if decide (S element_count = MSG_WALK_MAX_ELMT) then Ok (S element_count, e_tok, st)
          else walk_loop fuel' conn path (drop_elem s1) e_tok e_tok (S element_count) st
  end.

(** [None] for [path] is NULL; the second result is the offset of [*pos]. *)
Definition p9_walk (conn : p9_connection_t) (fid new_fid : Z) (path : option (list Z)) (st : p9st)
    : res (Z * option nat * p9st) :=
  match path with
  | None => Ok (P9_NULL_PATH, None, st)
  | Some path =>
      st ← reset_buffers st;
      st ← put_hd st T_WALK TAG;
      st ← put 4 st fid;
      st ← put 4 st new_fid;
      st ← put 2 st 0;
      '(element_count, e_tok, st) ← walk_loop (S (length path)) conn path path 0 0 0 st;
      if decide (element_count = O /\ path <> []) then Ok (P9_PATH_ELEMENT_TOO_LONG, Some O, st)
      else
        st ← set 2 st MSG_WALK_TX_ELMT (Z.of_nat element_count);
        '(rc, st) ← p9_transaction conn st;
        if negb (rc =? 0) then Ok (rc, Some e_tok, st) else
        let walked := Z.to_nat (get 2 (reply st) MSG_WALK_RX_ELMT) in
        let pos := if decide (element_count <> walked) then (length path - length (recount walked path))%nat else e_tok in
        Ok (if decide (drop pos path = []) then 0 else P9_PARTIAL_WALK, Some pos, st)
  end.

Definition p9_open (file : p9_file_t) (mode : Z) (st : p9st) : res (Z * p9_file_t * p9st) :=
  st ← reset_buffers st;
  let file := File (ffid file) 0 (ftype file) (flength file) (connection file) in
  st ← put_hd st T_OPEN TAG;
  st ← put 4 st (ffid file);
  st ← put 1 st (Z.land mode MSG_OPEN_MODE_MASK);
  '(rc, st) ← p9_transaction (connection file) st;
  if negb (rc =? 0) then Ok (rc, file, st)
  else Ok (0, File (ffid file) (get 4 (reply st) MSG_OPEN_IOUNIT) (ftype file) (flength file) (connection file), st).

(** The bytes are those copied to [buffer]. *)
Definition p9_read (file : p9_file_t) (count offset : Z) (st : p9st) : res (Z * list Z * p9st) :=
  st ← reset_buffers st;
  let count := MIN (u32 (message_size (connection file) - Z.of_nat MSG_READ_DATA)) count in
  st ← put_hd st T_READ TAG;
  st ← put 4 st (ffid file);
  st ← put 8 st offset;
  st ← put 4 st count;
  '(rc, st) ← p9_transaction (connection file) st;
  if negb (rc =? 0) then Ok (rc, [], st) else
  let got := get 4 (reply st) MSG_READ_COUNT in
  if count <? got then Ok (P9_READ_UNEXPECTED_DATA, [], st)
  else if decide (MSG_READ_DATA + Z.to_nat got <= length (reply st))%nat
  then Ok (s32 got, take (Z.to_nat got) (drop MSG_READ_DATA (reply st)), st)
  else Fault.

Definition p9_stat (file : p9_file_t) (st : p9st) : res (Z * p9_file_t * p9st) :=
  st ← reset_buffers st;
  let file := File (ffid file) (iounit file) 0 0 (connection file) in
  st ← put_hd st T_STAT TAG;
  st ← put 4 st (ffid file);
  '(rc, st) ← p9_transaction (connection file) st;
  if negb (rc =? 0) then Ok (rc, file, st)
  else Ok (0, File (ffid file) (iounit file) (get 1 (reply st) MSG_STAT_TYPE) (get 8 (reply st) MSG_STAT_LEN) (connection file), st).
End p9.
Arguments p9st : clear implicits.

(** ** The messages *)

(** A string of the protocol, and a request: size[4] type[1] tag[2] and the rest. *)
Definition pstr (s : list Z) : list Z := le_enc 2 (Z.of_nat (length s)) ++ s.
Definition request (typ tag : Z) (body : list Z) : list Z :=
  le_enc 4 (7 + Z.of_nat (length body)) ++ [typ] ++ le_enc 2 tag ++ body.

(** What a reply to a request of that type and tag amounts to. *)
Definition verdict (typ tag rc : Z) (r : list Z) : Z :=
  if negb (rc =? 0) then P9_TRANSPORT_ERROR
  else if negb (tag =? get 2 r MSG_TAG) then P9_UNEXPECTED_TAG
  else if get 1 r MSG_ID =? MSG_ERR then P9_R_ERROR
  else if negb (typ + 1 =? get 1 r MSG_ID) then P9_UNEXPECTED_MSG
  else 0.

Lemma buf_size : Z.of_nat BUF_SIZE = 8192.
Proof. reflexivity. Qed.
#[local] Opaque BUF_SIZE.

Lemma MIN_spec a b : MIN a b = Z.min a b.
Proof. unfold MIN. destruct (Z.ltb_spec b a); lia. Qed.

Lemma splice_all n t : length t = n -> splice t 0 (replicate n 0) = replicate n 0.
Proof.
  intros H. unfold splice. rewrite take_0, length_replicate. cbn [app Nat.add]. by rewrite drop_ge, app_nil_r by lia.
Qed.

Lemma sub_nil n : [] ++ replicate (n - length (@nil Z)) 0 = replicate n 0.
Proof. cbn [app length]. by rewrite Nat.sub_0_r. Qed.

(** The fields of the header of a message. *)
Lemma request_fields typ tag body x :
  0 <= typ < 256 -> 0 <= tag < 65536 ->
  get 2 (request typ tag body ++ x) MSG_TAG = tag /\ get 1 (request typ tag body ++ x) MSG_ID = typ.
Proof.
  intros Ht Hg. unfold request, get, MSG_TAG, MSG_ID. set (l4 := le_enc 4 _).
  assert (length l4 = 4%nat) by apply le_enc_length.
  destruct l4 as [|? [|? [|? [|? [|? ?]]]]]; try done. cbn [app drop skipn]. split.
  - rewrite drop_0, <- app_assoc, take_app_length' by (by rewrite le_enc_length).
    rewrite le_dec_enc. by apply Z.mod_small.
  - cbn. lia.
Qed.

(** The size of the message is set last. *)
Lemma set_size_spec typ tag body x :
  0 <= typ < 256 ->
  splice ((le_enc 4 0 ++ le_enc 1 typ ++ le_enc 2 tag ++ body) ++ x) MSG_SIZE (le_enc 4 (Z.of_nat (7 + length body))) =
  request typ tag body ++ x.
Proof.
  intros Ht. rewrite <- app_assoc. pose proof (splice_app [] (le_enc 4 0)) as Hsp. cbn [app length] in Hsp.
  unfold MSG_SIZE. rewrite Hsp by (by rewrite !le_enc_length). unfold request. rewrite <- !app_assoc.
  f_equal; [f_equal; lia|]. f_equal. unfold le_enc. cbn [be_enc rev app]. change (256 ^ Z.of_nat 0) with 1.
  by rewrite Z.div_1_r, Z.mod_small by lia.
Qed.

Section spec.
Context {T : Type} (transact : T -> list Z -> Z -> list Z -> Z -> Z * list Z * T).
Abbreviation st_t := (p9st T).

(** A message sent and answered: the result, the peer's state and the
    receive buffer. *)
Definition exchange (conn : p9_connection_t) (o : T) (typ tag : Z) (body : list Z) : Z * T * list Z :=
  let msg := request typ tag body in
  let zeros := replicate BUF_SIZE 0 in
  if Z.of_nat BUF_SIZE <? message_size conn then (P9_MSG_SIZE_TOO_BIG, o, zeros)
  else if message_size conn <? Z.of_nat (length msg) then (P9_MSG_TOO_LONG, o, zeros)
  else
    let '(rc, r, o') := transact o (msg ++ replicate (BUF_SIZE - length msg) 0) (Z.of_nat (length msg)) zeros (message_size conn) in
    (verdict typ tag rc r, o', r).

Definition outcome (x : Z * st_t) : Z * T * list Z := (x.1, opaque x.2, reply x.2).

(** The buffers have 8k each, as p9_reg_transport asks for. *)
Definition buffers_ok (st : st_t) : Prop :=
  exists t r, tx st = Some t /\ rx st = Some r /\ length t = BUF_SIZE /\ length r = BUF_SIZE.

(** The transmit buffer holds [bs] and then zero bytes. *)
Definition built (o : T) (bs : list Z) : st_t :=
  P9 o (Some (bs ++ replicate (BUF_SIZE - length bs) 0)) (Some (replicate BUF_SIZE 0)) (length bs).

Lemma reset_spec st : buffers_ok st -> reset_buffers st = Ok (built (opaque st) []).
Proof.
  intros (t & r & Ht & Hr & Lt & Lr). unfold reset_buffers. rewrite Ht, Hr, decide_True by lia.
  rewrite !splice_all by done. unfold built. by rewrite sub_nil.
Qed.

Lemma put_bytes_spec o bs x :
  (length bs + length x <= BUF_SIZE)%nat -> put_bytes (built o bs) x = Ok (built o (bs ++ x)).
Proof.
  intros H. unfold put_bytes, built. cbn [tx sp opaque rx].
  rewrite length_app, length_replicate, decide_True by lia. do 2 f_equal; [|by rewrite length_app].
  f_equal. rewrite splice_next by (rewrite length_replicate; lia). f_equal.
  rewrite drop_replicate. f_equal. rewrite length_app. lia.
Qed.

Lemma put_spec o bs n v : (length bs + n <= BUF_SIZE)%nat -> put n (built o bs) v = Ok (built o (bs ++ le_enc n v)).
Proof. intros H. apply put_bytes_spec. by rewrite le_enc_length. Qed.

Lemma put_hd_spec o m t : put_hd (built o []) m t = Ok (built o (le_enc 4 0 ++ le_enc 1 m ++ le_enc 2 t)).
Proof.
  unfold put_hd. rewrite !put_spec by (cbn; pose proof buf_size; lia). res_simpl.
  rewrite !put_spec by (rewrite ?length_app, ?le_enc_length; cbn; pose proof buf_size; lia). res_simpl.
  rewrite put_spec by (rewrite ?length_app, ?le_enc_length; cbn; pose proof buf_size; lia). by rewrite <- !app_assoc.
Qed.

Lemma put_st_spec o bs s :
  (length bs + 2 + length s <= BUF_SIZE)%nat -> put_st (built o bs) s = Ok (built o (bs ++ pstr s)).
Proof.
  intros H. unfold put_st. rewrite put_spec by lia. res_simpl.
  rewrite put_bytes_spec by (rewrite length_app, le_enc_length; lia). by rewrite <- app_assoc.
Qed.

Lemma transaction_spec conn o typ tag body :
  0 <= typ < 256 -> 0 <= tag < 65536 -> (7 + length body <= BUF_SIZE)%nat ->
  outcome <$> p9_transaction (Some transact) conn (built o (le_enc 4 0 ++ le_enc 1 typ ++ le_enc 2 tag ++ body)) =
  Ok (exchange conn o typ tag body).
Proof.
  intros Ht Hg Hb. unfold p9_transaction, exchange. cbn [built tx rx sp]. set (bs := le_enc 4 0 ++ _).
  assert (Hbs : length bs = (7 + length body)%nat) by (unfold bs; by rewrite !length_app, !le_enc_length).
  assert (Hrq : length (request typ tag body) = (7 + length body)%nat)
    by (unfold request; rewrite !length_app, !le_enc_length; done).
  rewrite Hbs, Hrq. destruct (Z.of_nat BUF_SIZE <? message_size conn); [done|].
  destruct (message_size conn <? Z.of_nat (7 + length body)); [done|].
  unfold set. cbn [built tx]. rewrite length_app, length_replicate, Hbs, decide_True by (unfold MSG_SIZE; lia).
  res_simpl. unfold built. cbn [tx opaque sp default].
  pose proof (set_size_spec typ tag body (replicate (BUF_SIZE - (7 + length body)) 0) Ht) as E. fold bs in E. rewrite E.
  cbn [from_option]. unfold id. set (t := request typ tag body ++ _).
  destruct (transact o t _ _ _) as [[rc r] o'] eqn:Etr. cbn [reply rx tx sp opaque default].
  destruct (request_fields typ tag body (replicate (BUF_SIZE - (7 + length body)) 0) Ht Hg) as [G1 G2].
  fold t in G1, G2. rewrite G1, G2. unfold verdict.
  by destruct (negb (rc =? 0)), (negb (tag =? get 2 r MSG_TAG)), (get 1 r MSG_ID =? MSG_ERR), (negb (typ + 1 =? get 1 r MSG_ID)).
Qed.

Lemma transaction_inv conn o typ tag body :
  0 <= typ < 256 -> 0 <= tag < 65536 -> (7 + length body <= BUF_SIZE)%nat ->
  exists st', p9_transaction (Some transact) conn (built o (le_enc 4 0 ++ le_enc 1 typ ++ le_enc 2 tag ++ body)) =
      Ok ((exchange conn o typ tag body).1.1, st') /\
    opaque st' = (exchange conn o typ tag body).1.2 /\ reply st' = (exchange conn o typ tag body).2.
Proof.
  intros Ht Hg Hb. pose proof (transaction_spec conn o typ tag body Ht Hg Hb) as E.
  destruct (p9_transaction _ _ _) as [[rc st']| |]; try discriminate. cbn [fmap res_fmap] in E. injection E as <-.
  by exists st'.
Qed.

(** The requests of the protocol, after the type and the tag. *)
Definition version_body (conn : p9_connection_t) : list Z := le_enc 4 (message_size conn) ++ pstr VERSION.
Definition attach_body (conn : p9_connection_t) : list Z :=
  le_enc 4 (cfid conn) ++ le_enc 4 NOFID ++ pstr (uname conn) ++ pstr (aname conn) ++ le_enc 4 (u32 (Z.lnot 0)).
Definition open_body (fid mode : Z) : list Z := le_enc 4 fid ++ le_enc 1 (Z.land mode MSG_OPEN_MODE_MASK).
Definition read_body (fid offset count : Z) : list Z := le_enc 4 fid ++ le_enc 8 offset ++ le_enc 4 count.
End spec.

(** Build a message and send it. *)
Ltac p9_length := unfold pstr, VERSION; rewrite ?length_app, ?le_enc_length; cbn [length]; pose proof buf_size; lia.
Ltac p9_side := first [p9_length | split; vm_compute; congruence].
Ltac p9_build :=
  rewrite ?reset_spec by done; res_simpl; rewrite ?put_hd_spec; res_simpl;
  repeat (first [rewrite put_spec by p9_length | rewrite put_st_spec by p9_length | rewrite put_bytes_spec by p9_length];
    res_simpl);
  rewrite <- ?app_assoc.

(** C31: the requests without a path.  With 8k buffers, p9_version, p9_attach,
    p9_clunk, p9_open and p9_stat send the message the comments of the functions
    give (size, type, tag and the fields, all little-endian) and return what
    the answer amounts to: an error of the transport, another tag than the
    request's, an Rerror, another type than the request's plus one, or 0.
    p9_version lowers the message size to the server's and refuses the version
    "unknown"; p9_open and p9_stat store the fields of the answer, and 0 on
    an error.  p9_attach's names leave room for the message. *)
Theorem p9_requests_correct {T} (transact : T -> list Z -> Z -> list Z -> Z -> Z * list Z * T) (st : p9st T) :
  buffers_ok st ->
  let ask := exchange transact in
  (forall conn fid,
     outcome <$> p9_clunk (Some transact) conn fid st = Ok (ask conn (opaque st) T_CLUNK TAG (le_enc 4 fid))) /\
  (forall conn, (23 + length (uname conn) + length (aname conn) <= BUF_SIZE)%nat ->
     23 + Z.of_nat (length (uname conn)) + Z.of_nat (length (aname conn)) <= message_size conn ->
     outcome <$> p9_attach (Some transact) conn st = Ok (ask conn (opaque st) T_ATTACH TAG (attach_body conn))) /\
  (forall conn, let '(rc, o, r) := ask conn (opaque st) T_VERSION NOTAG (version_body conn) in
     let size := Z.min (message_size conn) (get 4 r MSG_VER_MSIZE) in
     let unknown := strncmp_eq (Z.to_nat (get 2 r MSG_VER_STR_LEN)) UNKNOWN_VER (drop MSG_VER_STR r) in
     (fun x => (x.1.1, message_size x.1.2, opaque x.2)) <$> p9_version (Some transact) conn st =
     Ok (if rc =? 0 then if unknown then P9_UNKNOWN_VERSION else 0 else rc,
         if rc =? 0 then size else message_size conn, o)) /\
  (forall file mode, let '(rc, o, r) := ask (connection file) (opaque st) T_OPEN TAG (open_body (ffid file) mode) in
     (fun x => (x.1.1, iounit x.1.2, opaque x.2)) <$> p9_open (Some transact) file mode st =
     Ok (rc, if rc =? 0 then get 4 r MSG_OPEN_IOUNIT else 0, o)) /\
  (forall file, let '(rc, o, r) := ask (connection file) (opaque st) T_STAT TAG (le_enc 4 (ffid file)) in
     (fun x => (x.1.1, flength x.1.2, ftype x.1.2, opaque x.2)) <$> p9_stat (Some transact) file st =
     Ok (rc, if rc =? 0 then get 8 r MSG_STAT_LEN else 0, if rc =? 0 then get 1 r MSG_STAT_TYPE else 0, o)).
Proof.
  intros Hst ask. split_and!.
  - intros conn fid. unfold p9_clunk. p9_build. apply transaction_spec; unfold attach_body; p9_side.
  - intros conn Hb Hms. unfold p9_attach. rewrite u32_small by (pose proof buf_size; lia).
    destruct (Z.ltb_spec (message_size conn) (19 + Z.of_nat (length (uname conn)) + Z.of_nat (length (aname conn)))); [lia|].
    p9_build. apply transaction_spec; unfold attach_body; p9_side.
  - intros conn. destruct (ask conn (opaque st) T_VERSION NOTAG (version_body conn)) as [[rc o] r] eqn:Ea.
    unfold p9_version. p9_build.
    destruct (transaction_inv transact conn (opaque st) T_VERSION NOTAG (version_body conn)) as (st' & E & Eo & Er);
      [p9_side | p9_side | unfold version_body; p9_length |].
    fold ask in E, Eo, Er. rewrite Ea in E, Eo, Er. cbn [fst snd] in E, Eo, Er. fold (version_body conn). rewrite E. res_simpl.
    rewrite Er. destruct (rc =? 0); cbn [negb]; [|res_simpl; cbn [fst snd]; by rewrite Eo].
    rewrite MIN_spec.
    by destruct (strncmp_eq _ _ _); res_simpl; cbn [fst snd message_size]; rewrite Eo.
  - intros file mode. set (body := open_body (ffid file) mode).
    destruct (transaction_inv transact (connection file) (opaque st) T_OPEN TAG body) as (st' & E & Eo & Er);
      [p9_side | p9_side | unfold body, open_body; p9_length |]. fold ask in E, Eo, Er.
    destruct (ask (connection file) (opaque st) T_OPEN TAG body) as [[rc o] r]. cbn [fst snd] in E, Eo, Er.
    unfold p9_open. p9_build. cbn [ffid connection]. fold (open_body (ffid file) mode). fold body. rewrite E. res_simpl.
    rewrite Er. destruct (Z.eqb_spec rc 0) as [->|]; cbn [negb]; res_simpl; cbn [fst snd]; by rewrite Eo.
  - intros file. destruct (transaction_inv transact (connection file) (opaque st) T_STAT TAG (le_enc 4 (ffid file)))
      as (st' & E & Eo & Er); [p9_side | p9_side | p9_length |]. fold ask in E, Eo, Er.
    destruct (ask (connection file) (opaque st) T_STAT TAG (le_enc 4 (ffid file))) as [[rc o] r]. cbn [fst snd] in E, Eo, Er.
    unfold p9_stat. p9_build. cbn [ffid connection]. rewrite E. res_simpl.
    rewrite Er. destruct (Z.eqb_spec rc 0) as [->|]; cbn [negb]; res_simpl; cbn [fst snd]; by rewrite Eo.
Qed.

(** What an exchange that succeeds tells. *)
Lemma exchange_ok {T} (transact : T -> list Z -> Z -> list Z -> Z -> Z * list Z * T) conn o typ tag body o' r :
  (forall o t n r m, length (transact o t n r m).1.2 = length r) ->
  exchange transact conn o typ tag body = (0, o', r) ->
  7 + Z.of_nat (length body) <= message_size conn <= 8192 /\ length r = BUF_SIZE.
Proof.
  intros Hlen. unfold exchange. rewrite buf_size. set (t := request typ tag body).
  assert (Ht : Z.of_nat (length t) = 7 + Z.of_nat (length body)).
  { unfold t, request. rewrite !length_app, !le_enc_length. cbn [length]. lia. }
  destruct (Z.ltb_spec 8192 (message_size conn)); [done|].
  destruct (Z.ltb_spec (message_size conn) (Z.of_nat (length t))); [done|].
  pose proof (Hlen o (t ++ replicate (BUF_SIZE - length t) 0) (Z.of_nat (length t)) (replicate BUF_SIZE 0) (message_size conn)) as Hr.
  destruct (transact o _ _ _ _) as [[rc r1] o1]. cbn [fst snd] in Hr. rewrite length_replicate in Hr. intros [= _ _ <-].
  split; [lia | done].
Qed.

(** C32: p9_read asks for at most what fits in a message of the connection, and
    when the answer is right returns the number of bytes the server sent and
    these bytes; more bytes than asked for are an error.  No access goes outside
    of the buffers, and no more than the bytes asked for are stored.  The
    transport keeps the size of the receive buffer. *)
Theorem p9_read_correct {T} (transact : T -> list Z -> Z -> list Z -> Z -> Z * list Z * T) (st : p9st T) file count offset :
  (forall o t n r m, length (transact o t n r m).1.2 = length r) ->
  (forall o t n r m, Forall byte r -> Forall byte (transact o t n r m).1.2) ->
  buffers_ok st -> 0 <= count ->
  let count' := Z.min (u32 (message_size (connection file) - 11)) count in
  let '(rc, o, r) := exchange transact (connection file) (opaque st) T_READ TAG (read_body (ffid file) offset count') in
  let got := get 4 r MSG_READ_COUNT in
  let data := take (Z.to_nat got) (drop MSG_READ_DATA r) in
  (fun x => (x.1.1, x.1.2, opaque x.2)) <$> p9_read (Some transact) file count offset st =
    Ok (if negb (rc =? 0) then (rc, [], o)
        else if count' <? got then (P9_READ_UNEXPECTED_DATA, [], o) else (got, data, o)) /\
  (rc = 0 -> got <= count' -> Z.of_nat (length data) = got /\ got <= count).
Proof.
  intros Hlen Hbytes Hst Hc count'. set (body := read_body (ffid file) offset count').
  destruct (transaction_inv transact (connection file) (opaque st) T_READ TAG body) as (st' & E & Eo & Er);
    [p9_side | p9_side | unfold body, read_body; p9_length |].
  assert (Hx : forall o' r, exchange transact (connection file) (opaque st) T_READ TAG body = (0, o', r) -> Forall byte r).
  { intros o' r. unfold exchange. destruct (_ <? _); [done|]. destruct (_ <? _); [done|].
    match goal with |- context [transact ?o ?t ?n ?z ?m] => pose proof (Hbytes o t n z m) as Hb; destruct (transact o t n z m) as [[rc r1] o1] end.
    intros [= _ _ <-]. apply Hb, Forall_replicate. by unfold byte. }
  destruct (exchange transact (connection file) (opaque st) T_READ TAG body) as [[rc o] r] eqn:Ee. cbn [fst snd] in E, Eo, Er.
  intros got data. unfold p9_read. rewrite MIN_spec. change (Z.of_nat MSG_READ_DATA) with 11. fold count'.
  p9_build. fold (read_body (ffid file) offset count'). fold body. rewrite E. res_simpl. rewrite Er.
  destruct (Z.eqb_spec rc 0) as [->|Hrc]; cbn [negb]; [|split; [res_simpl; cbn [fst snd]; by rewrite Eo | done]].
  destruct (exchange_ok _ _ _ _ _ _ _ _ Hlen Ee) as [Hms Hr].
  assert (Hgot : 0 <= got < 2 ^ 32).
  { unfold got, get, le_dec. assert (Hb4 : Forall byte (rev (take 4 (drop MSG_READ_COUNT r)))).
    { apply Forall_rev', Forall_take, Forall_drop. by apply (Hx o r). }
    pose proof (be_dec_range _ Hb4) as Hd. rewrite length_rev, length_take, length_drop, Hr in Hd.
    pose proof buf_size. replace (4 `min` (BUF_SIZE - MSG_READ_COUNT))%nat with 4%nat in Hd by (unfold MSG_READ_COUNT; lia).
    exact Hd. }
  assert (Hb : Z.of_nat (length body) = 16) by (unfold body, read_body; rewrite !length_app, !le_enc_length; done).
  assert (Hu : u32 (message_size (connection file) - 11) = message_size (connection file) - 11) by (apply u32_small; lia).
  assert (Hcc : count' <= 8181 /\ count' <= count) by (unfold count'; rewrite Hu; lia).
  fold got. destruct (Z.ltb_spec count' got); (split; [|intros _ Hle]).
  - res_simpl. cbn [fst snd]. by rewrite Eo.
  - lia.
  - pose proof buf_size. rewrite decide_True by (rewrite Hr; unfold MSG_READ_DATA; lia). res_simpl. cbn [fst snd].
    by rewrite Eo, s32_small by lia.
  - unfold data. rewrite length_take, length_drop, Hr. pose proof buf_size. unfold MSG_READ_DATA. lia.
Qed.

(** ** Walking a path *)

(** The pieces between the slashes of a path, and those that are elements: not
    empty and not ".". *)
Fixpoint split_path (s : list Z) : list (list Z) :=
  match s with
  | [] => [[]]
  | b :: s' =>
      if b =? 47 then [] :: split_path s'
      else match split_path s' with [] => [[b]] | x :: xs => (b :: x) :: xs end
  end.

Definition is_element (e : list Z) : Prop := e <> [] /\ e <> [46].
#[export] Instance is_element_dec e : Decision (is_element e).
Proof. unfold is_element. apply _. Defined.

Definition elements (s : list Z) : list (list Z) := filter is_element (split_path s).

Lemma split_path_elem s :
  split_path s = take_elem s :: match drop_elem s with [] => [] | _ :: t => split_path t end.
Proof.
  induction s as [|b s IH]; [done|]. cbn [split_path take_elem drop_elem]. destruct (b =? 47) eqn:E; [done|]. by rewrite IH.
Qed.

Lemma drop_elem_head s : drop_elem s = [] \/ exists t, drop_elem s = 47 :: t.
Proof.
  induction s as [|b s IH]; [by left|]. cbn [drop_elem]. destruct (Z.eqb_spec b 47) as [->|]; [right; eauto | done].
Qed.

Lemma elements_nil : elements [] = [].
Proof. reflexivity. Qed.

Lemma elements_slash s : elements (47 :: s) = elements s.
Proof. unfold elements. cbn [split_path]. change (47 =? 47) with true. cbn [filter list_filter]. by rewrite decide_False by (intros [? _]; done). Qed.

Lemma elements_skip s : elements (skip_slashes s) = elements s.
Proof.
  induction s as [|b s IH]; [done|]. cbn [skip_slashes]. destruct (Z.eqb_spec b 47) as [->|]; [|done].
  by rewrite IH, elements_slash.
Qed.

Lemma elements_elem s :
  elements s = (if decide (is_element (take_elem s)) then [take_elem s] else []) ++ elements (drop_elem s).
Proof.
  unfold elements at 1. rewrite split_path_elem. cbn [filter list_filter].
  assert (E : filter is_element match drop_elem s with [] => [] | _ :: t => split_path t end = elements (drop_elem s)).
  { destruct (drop_elem_head s) as [->|[t ->]]; [done | by rewrite elements_slash]. }
  case_decide; cbn [app]; by rewrite <- E.
Qed.

Lemma take_drop_elem s : take_elem s ++ drop_elem s = s.
Proof. induction s as [|b s IH]; [done|]. cbn [take_elem drop_elem]. destruct (b =? 47); [done|]. cbn [app]. by rewrite IH. Qed.

Lemma skip_suffix s : drop (length s - length (skip_slashes s)) s = skip_slashes s /\ (length (skip_slashes s) <= length s)%nat.
Proof.
  induction s as [|b s [IH Hle]]; [done|]. cbn [skip_slashes]. destruct (b =? 47).
  - cbn [length]. split; [|lia]. replace (S (length s) - _)%nat with (S (length s - length (skip_slashes s))) by lia. done.
  - split; [|lia]. by rewrite Nat.sub_diag.
Qed.

Lemma skip_head s : skip_slashes s = [] \/ exists b t, skip_slashes s = b :: t /\ b <> 47.
Proof.
  induction s as [|b s IH]; [by left|]. cbn [skip_slashes]. destruct (Z.eqb_spec b 47); [done | right; eauto].
Qed.

(** The comparison with "." over the length of the element. *)
Lemma dot_test s :
  Forall (fun b => b <> 0) s -> strncmp_eq (length (take_elem s)) [46] s = negb (bool_decide (is_element (take_elem s))).
Proof.
  intros Hs. destruct s as [|b s]; [done|]. cbn [take_elem]. destruct (Z.eqb_spec b 47) as [->|Hb]; [done|].
  cbn [length strncmp_eq hd tail]. destruct (Z.eqb_spec 46 b) as [<-|Hne]; cbn [negb].
  - change (46 =? 0) with false. cbn iota. destruct s as [|c s]; [done|]. cbn [take_elem].
    destruct (Z.eqb_spec c 47) as [->|Hc]; [done|]. cbn [length strncmp_eq hd]. apply Forall_inv_tail, Forall_inv in Hs.
    destruct (Z.eqb_spec 0 c); [done|]. cbn [negb]. by rewrite bool_decide_eq_true_2.
  - rewrite bool_decide_eq_true_2; [done|]. split; [done|]. intros [= ? _]. done.
Qed.

(** How many elements go into a message of [size] bytes that has [k] already. *)
Fixpoint fit (ms size : Z) (k : nat) (els : list (list Z)) : nat :=
  match els with
  | [] => O
  | e :: els' =>
      if (ms <? Z.of_nat (length e) + 2 + size) || (ms <? (Z.of_nat k + 1) * MSG_QID_SIZE + MSG_WALK_RX_HDR_SIZE) then O
      else if decide (S k = MSG_WALK_MAX_ELMT) then 1%nat
      else S (fit ms (size + 2 + Z.of_nat (length e)) (S k) els')
  end.

Lemma fit_le ms size k els : (fit ms size k els <= length els)%nat.
Proof.
  revert size k. induction els as [|e els IH]; intros size k; cbn [fit length]; [lia|].
  destruct (_ || _); [lia|]. case_decide; [lia|]. specialize (IH (size + 2 + Z.of_nat (length e)) (S k)). lia.
Qed.

Lemma drop_step {A} (path s : list A) off n : drop off path = s -> drop (off + n) path = drop n s.
Proof. intros <-. by rewrite drop_drop. Qed.

Lemma walk_loop_spec {T} conn path s off k (o : T) bs fuel :
  message_size conn <= 8192 -> Z.of_nat (length path) < 2 ^ 31 -> Forall (fun b => b <> 0) path -> (k < 16)%nat ->
  drop off path = s -> (off <= length path)%nat -> (length s < fuel)%nat -> (length bs <= BUF_SIZE)%nat ->
  let els := elements s in
  let n := fit (message_size conn) (Z.of_nat (length bs)) k els in
  exists pos, walk_loop fuel conn path s off off k (built o bs) =
      Ok ((k + n)%nat, pos, built o (bs ++ concat (pstr <$> take n els))) /\
    elements (drop pos path) = drop n els /\
    (length (bs ++ concat (pstr <$> take n els)) <= BUF_SIZE)%nat /\ (pos <= length path)%nat.
Proof.
  intros Hms Hpl Hnz. revert s off k bs. induction fuel as [|fuel IH]; intros s off k bs Hk Hs Hoff Hf Hbs els n; [lia|].
  cbn [walk_loop]. case_decide as Hnil.
  { exists off. unfold n, els. rewrite Hs, Hnil. cbn [fit]. rewrite Nat.add_0_r, take_0, app_nil_r. done. }
  cbv zeta. destruct (skip_suffix s) as [Hsk Hskl]. set (s1 := skip_slashes s) in *. set (el := take_elem s1).
  assert (Hlen : length s = (length path - off)%nat) by (by rewrite <- Hs, length_drop).
  pose proof (take_drop_elem s1) as Htd. fold el in Htd.
  assert (Hl1 : length s1 = (length el + length (drop_elem s1))%nat) by (by rewrite <- Htd at 1; rewrite length_app).
  set (s_tok := (off + (length s - length s1))%nat).
  assert (H1 : drop s_tok path = s1) by (unfold s_tok; by rewrite (drop_step path s)).
  assert (H2 : drop (s_tok + length el) path = drop_elem s1).
  { rewrite (drop_step path s1) by done.
    transitivity (drop (length el) (el ++ drop_elem s1)); [by rewrite Htd | apply drop_app_length]. }
  assert (Hnz1 : Forall (fun b => b <> 0) s1) by (rewrite <- H1; by apply Forall_drop).
  pose proof (dot_test s1 Hnz1) as Hdot. fold el in Hdot. rewrite Hdot. clear Hdot.
  assert (Hels : els = (if decide (is_element el) then [el] else []) ++ elements (drop_elem s1)).
  { unfold els. rewrite <- elements_skip. fold s1. apply elements_elem. }
  assert (Hprog : (length (drop_elem s1) < length s)%nat).
  { destruct (decide (el = [])) as [He|He]; [|destruct el; [done|]; cbn [length] in *; lia].
    destruct (skip_head s) as [Hh|(b & t & Hh & Hb)]; fold s1 in Hh.
    - rewrite Hh. cbn. destruct s; [done | cbn; lia].
    - exfalso. unfold el in He. rewrite Hh in He. cbn [take_elem] in He. by destruct (Z.eqb_spec b 47). }
  destruct (decide (is_element el)) as [Hel|Hel].
  2:{ rewrite bool_decide_eq_false_2 by done. cbn [negb].
      destruct (IH (drop_elem s1) (s_tok + length el)%nat k bs) as (pos & E & Hpos); try done; try lia.
      exists pos. rewrite E. unfold n. rewrite Hels. done. }
  rewrite bool_decide_eq_true_2 by done. cbn [negb]. cbn [app] in Hels. pose proof buf_size as Hbuf.
  cbn [built sp]. change (sp (built o bs)) with (length bs). unfold MSG_QID_SIZE, MSG_WALK_RX_HDR_SIZE.
  rewrite !u32_small by lia. unfold n. rewrite Hels. cbn [fit]. unfold MSG_QID_SIZE, MSG_WALK_RX_HDR_SIZE.
  destruct (_ || _) eqn:Efit.
  - rewrite Nat.add_0_r, take_0, app_nil_r. eexists. split; [reflexivity|].
    assert (Es1 : elements s1 = el :: elements (drop_elem s1)).
    { rewrite <- Hels. unfold els, s1. apply elements_skip. }
    case_decide as Hsl; [|rewrite H1; split_and!; [done | done | lia]].
    split_and!; [|done | lia]. destruct Hsl as [Hsl Hs0].
    assert (Hd : drop (pred s_tok) path = 47 :: s1).
    { destruct (path !! pred s_tok) as [b|] eqn:Ep; [|apply lookup_ge_None in Ep; lia].
      rewrite nth_lookup, Ep in Hsl. cbn in Hsl. rewrite Hsl in Ep. rewrite (drop_S _ _ _ Ep).
      replace (S (pred s_tok)) with s_tok by lia. by rewrite H1. }
    by rewrite Hd, elements_slash.
  - apply orb_false_elim in Efit as [Hfit1 Hfit2].
    rewrite put_spec by lia. res_simpl. rewrite put_bytes_spec by (rewrite length_app, le_enc_length; lia). res_simpl.
    assert (Epstr : (bs ++ le_enc 2 (Z.of_nat (length el))) ++ el = bs ++ pstr el) by (by rewrite <- app_assoc).
    rewrite Epstr. assert (Hbl : length (bs ++ pstr el) = (length bs + 2 + length el)%nat).
    { unfold pstr. rewrite !length_app, le_enc_length. lia. }
    case_decide as H16.
    + exists (s_tok + length el)%nat. cbn [take fmap list_fmap concat]. rewrite take_0. cbn [fmap list_fmap concat]. rewrite app_nil_r, H2.
      split_and!; [do 3 f_equal; lia | done | lia | lia].
    + destruct (IH (drop_elem s1) (s_tok + length el)%nat (S k) (bs ++ pstr el)) as (pos & E & Hp1 & Hp2 & Hp3);
        [unfold MSG_WALK_MAX_ELMT in H16; lia | exact H2 | lia | lia | lia |].
      rewrite Hbl in *. replace (Z.of_nat (length bs) + 2 + Z.of_nat (length el)) with (Z.of_nat (length bs + 2 + length el)) by lia.
      exists pos. rewrite E. cbn [take drop fmap list_fmap concat]. rewrite <- app_assoc in *. split_and!; [do 3 f_equal; lia | exact Hp1 | exact Hp2 | exact Hp3].
Qed.

Lemma suffix_drop {A} (p q s : list A) : s = p ++ q -> drop (length s - length q) s = q.
Proof.
  intros ->. rewrite length_app. replace (length p + length q - length q)%nat with (length p) by lia. apply drop_app_length.
Qed.

Lemma recount_spec w s :
  Forall (fun e => e <> [46]) (split_path s) ->
  elements (recount w s) = drop w (elements s) /\ (exists p, s = p ++ recount w s).
Proof.
  revert s. induction w as [|w IH]; intros s Hs; [split; [done | by exists []]|]. cbn [recount].
  destruct (skip_suffix s) as [Hsk _]. set (s1 := skip_slashes s) in *.
  assert (Hdot1 : Forall (fun e => e <> [46]) (split_path s1)).
  { unfold s1. clear -Hs. induction s as [|b s IH]; [done|]. cbn [skip_slashes]. destruct (Z.eqb_spec b 47) as [->|]; [|done].
    cbn [split_path] in Hs. change (47 =? 47) with true in Hs. apply IH. exact (Forall_inv_tail Hs). }
  rewrite split_path_elem in Hdot1. pose proof (Forall_inv Hdot1) as Hel. apply Forall_inv_tail in Hdot1. cbn in Hel.
  destruct (IH (drop_elem s1)) as [E [p Hp]].
  { destruct (drop_elem_head s1) as [Hd|[t Hd]]; rewrite Hd in Hdot1 |- *; [by repeat constructor|].
    cbn [split_path]. change (47 =? 47) with true. by constructor. }
  split.
  - rewrite E. rewrite <- (elements_skip s). fold s1. rewrite (elements_elem s1). case_decide as He; [done|]. cbn [app].
    assert (take_elem s1 = []) as Hnil.
    { destruct (decide (take_elem s1 = [])); [done|]. exfalso. apply He. by split. }
    assert (s1 = []) as Hs1.
    { destruct (skip_head s) as [Hh|(b & t & Hh & Hb)]; fold s1 in Hh; [done|]. rewrite Hh in Hnil. cbn [take_elem] in Hnil.
      by destruct (Z.eqb_spec b 47). }
    rewrite Hs1. cbn [drop_elem app]. by rewrite elements_nil, !drop_nil.
  - exists (take (length s - length s1) s ++ take_elem s1 ++ p). rewrite <- !app_assoc. rewrite <- Hp, take_drop_elem.
    etransitivity; [symmetry; apply (take_drop (length s - length s1)) | by rewrite Hsk].
Qed.

Definition walk_body (fid new_fid : Z) (names : list (list Z)) : list Z :=
  le_enc 4 fid ++ le_enc 4 new_fid ++ le_enc 2 (Z.of_nat (length names)) ++ concat (pstr <$> names).

(** The element count is set after the elements. *)
Lemma set_count_spec {T} (o : T) fid new_fid names :
  let hd := le_enc 4 0 ++ le_enc 1 T_WALK ++ le_enc 2 TAG ++ le_enc 4 fid ++ le_enc 4 new_fid in
  (length (hd ++ le_enc 2 0 ++ concat (pstr <$> names)) <= BUF_SIZE)%nat ->
  set 2 (built o (hd ++ le_enc 2 0 ++ concat (pstr <$> names))) MSG_WALK_TX_ELMT (Z.of_nat (length names)) =
  Ok (built o (le_enc 4 0 ++ le_enc 1 T_WALK ++ le_enc 2 TAG ++ walk_body fid new_fid names)).
Proof.
  intros hd Hb. assert (Hhd : length hd = 15%nat) by (unfold hd; by rewrite !length_app, !le_enc_length).
  set (rest := concat (pstr <$> names)) in *. unfold set, built. cbn [tx opaque rx sp].
  rewrite !length_app, length_replicate in *. rewrite le_enc_length in *.
  rewrite decide_True by (unfold MSG_WALK_TX_ELMT; lia). unfold MSG_WALK_TX_ELMT. rewrite <- Hhd at 1.
  rewrite <- !(app_assoc hd), <- (app_assoc (le_enc 2 0)).
  rewrite splice_app by (by rewrite !le_enc_length). unfold walk_body. fold rest.
  assert (El : le_enc 4 0 ++ le_enc 1 T_WALK ++ le_enc 2 TAG ++ le_enc 4 fid ++ le_enc 4 new_fid ++
    le_enc 2 (Z.of_nat (length names)) ++ rest = hd ++ le_enc 2 (Z.of_nat (length names)) ++ rest).
  { unfold hd. by rewrite <- !app_assoc. }
  rewrite El, !length_app, !le_enc_length. by rewrite <- !app_assoc.
Qed.

(** C5: p9_walk.  The request holds the first elements of the path (the pieces
    between slashes that are neither empty nor "."), as many as fit in a message
    of the connection, at most 16; when there is none the path is refused.  When
    the server walked them all, and also when it walked fewer and no piece of
    the path is ".", what is left of the path at the new position are the
    elements that were not walked; the result is then 1, unless the position is
    the end of the path. *)
Theorem p9_walk_correct {T} (transact : T -> list Z -> Z -> list Z -> Z -> Z * list Z * T) (st : p9st T) conn fid new_fid path :
  buffers_ok st -> message_size conn <= 8192 -> Z.of_nat (length path) < 2 ^ 31 -> Forall (fun b => b <> 0) path ->
  let els := elements path in
  let n := fit (message_size conn) 17 0 els in
  let '(rc, o, r) := exchange transact conn (opaque st) T_WALK TAG (walk_body fid new_fid (take n els)) in
  let walked := Z.to_nat (get 2 r MSG_WALK_RX_ELMT) in
  if decide (n = O /\ path <> [])
  then (fun x => (x.1.1, x.1.2, opaque x.2)) <$> p9_walk (Some transact) conn fid new_fid (Some path) st =
       Ok (P9_PATH_ELEMENT_TOO_LONG, Some O, opaque st)
  else
    exists pos,
      (fun x => (x.1.1, x.1.2, opaque x.2)) <$> p9_walk (Some transact) conn fid new_fid (Some path) st =
        Ok (if negb (rc =? 0) then rc else if decide (drop pos path = []) then 0 else P9_PARTIAL_WALK, Some pos, o) /\
      (rc = 0 -> walked <> n -> Forall (fun e => e <> [46]) (split_path path) -> elements (drop pos path) = drop walked els) /\
      (rc <> 0 \/ walked = n -> elements (drop pos path) = drop n els).
Proof.
  intros Hst Hms Hpl Hnz els n. unfold p9_walk. p9_build.
  set (bs0 := le_enc 4 0 ++ _). assert (Hbs0 : length bs0 = 17%nat) by (unfold bs0; by rewrite !length_app, !le_enc_length).
  pose proof buf_size as Hbuf.
  destruct (walk_loop_spec conn path path 0 0 (opaque st) bs0 (S (length path))) as (pos & E & Hpos & Hb & Hple);
    [exact Hms | exact Hpl | exact Hnz | lia | apply drop_0 | lia | lia | lia |]. rewrite Hbs0 in *. change (Z.of_nat 17) with 17 in *. fold els in E, Hpos, Hb. fold n in E, Hpos, Hb.
  rewrite E. res_simpl. cbn [Nat.add].
  assert (Hn : length (take n els) = n) by (rewrite length_take; pose proof (fit_le (message_size conn) 17 0 els) as Hf; fold n in Hf; lia).
  assert (Ebs : bs0 ++ concat (pstr <$> take n els) =
    (le_enc 4 0 ++ le_enc 1 T_WALK ++ le_enc 2 TAG ++ le_enc 4 fid ++ le_enc 4 new_fid) ++ le_enc 2 0 ++ concat (pstr <$> take n els)).
  { unfold bs0. by rewrite <- !app_assoc. }
  rewrite Ebs in Hb |- *.
  destruct (transaction_inv transact conn (opaque st) T_WALK TAG (walk_body fid new_fid (take n els))) as (st' & Et & Eo & Er);
    [p9_side | p9_side | rewrite !length_app, !le_enc_length in Hb; unfold walk_body; rewrite !length_app, !le_enc_length; lia |].
  destruct (exchange transact conn (opaque st) T_WALK TAG (walk_body fid new_fid (take n els))) as [[rc o] r].
  cbn [fst snd] in Et, Eo, Er. set (walked := Z.to_nat (get 2 r MSG_WALK_RX_ELMT)).
  case_decide as Hz; [done|].
  pose proof (set_count_spec (opaque st) fid new_fid (take n els) Hb) as Es. rewrite Hn in Es. rewrite Es. res_simpl. rewrite Et. res_simpl. rewrite Er. fold walked.
  destruct (Z.eqb_spec rc 0) as [->|Hrc]; cbn [negb].
  - destruct (decide (n <> walked)) as [Hw|Hw].
    + exists (length path - length (recount walked path))%nat. res_simpl. cbn [fst snd]. rewrite Eo.
      split; [done|]. split; [|intros [?|?]; [done | congruence]]. intros _ _ Hdot.
      destruct (recount_spec walked path Hdot) as [R1 [p Hp]]. etransitivity; [|exact R1]. f_equal. by apply (suffix_drop p).
    + exists pos. res_simpl. cbn [fst snd]. rewrite Eo. split; [done|]. split; [|done]. intros _ Hw'. exfalso. apply Hw. congruence.
  - exists pos. res_simpl. cbn [fst snd]. rewrite Eo. split; [done|]. split; done.
Qed.

(** ** A server with one answer *)

Definition answer (rep : list Z) (_ : unit) (t : list Z) (n : Z) (r : list Z) (m : Z) : Z * list Z * unit :=
  (0, take (length r) (rep ++ drop (length rep) r), tt).

Lemma answer_length rep o t n r m : length (answer rep o t n r m).1.2 = length r.
Proof. cbn [answer fst snd]. rewrite length_take, length_app, length_drop. lia. Qed.

Lemma answer_bytes rep o t n r m : Forall byte rep -> Forall byte r -> Forall byte (answer rep o t n r m).1.2.
Proof. intros H1 H2. cbn [answer fst snd]. apply Forall_take, Forall_app. split; [done | by apply Forall_drop]. Qed.

Definition demo_st : p9st unit := P9 tt (Some (replicate BUF_SIZE 7)) (Some (replicate BUF_SIZE 7)) 0.
Definition demo_conn : p9_connection_t := Connection 8192 [114] [47] 1.

Lemma demo_buffers : buffers_ok demo_st.
Proof. exists (replicate BUF_SIZE 7), (replicate BUF_SIZE 7). rewrite length_replicate. split_and!; reflexivity. Qed.

(** Rversion with 4096 bytes and "9P2000.u", and Rclunk. *)
Definition rversion : list Z := le_enc 4 21 ++ [101] ++ le_enc 2 NOTAG ++ le_enc 4 4096 ++ pstr VERSION.
Definition rclunk : list Z := le_enc 4 7 ++ [121] ++ le_enc 2 TAG.

Lemma p9_requests_correct_witness :
  (fun x => x.1.1) <$> (outcome <$> p9_clunk (Some (answer rclunk)) demo_conn 5 demo_st) = Ok 0 /\
  (fun x => (x.1.1, message_size x.1.2, opaque x.2)) <$> p9_version (Some (answer rversion)) demo_conn demo_st = Ok (0, 4096, tt).
Proof.
  split.
  - destruct (p9_requests_correct (answer rclunk) demo_st demo_buffers) as (Hc & _).
    rewrite (Hc demo_conn 5). vm_compute. reflexivity.
  - destruct (p9_requests_correct (answer rversion) demo_st demo_buffers) as (_ & _ & Hv & _).
    vm_cast_no_check (Hv demo_conn).
Defined.

(** Rread with three bytes. *)
Definition rread : list Z := le_enc 4 14 ++ [117] ++ le_enc 2 TAG ++ le_enc 4 3 ++ [1; 2; 3].
Definition demo_p9_file : p9_file_t := File 9 0 0 0 demo_conn.

Lemma p9_read_correct_witness :
  (fun x => (x.1.1, x.1.2, opaque x.2)) <$> p9_read (Some (answer rread)) demo_p9_file 100 0 demo_st = Ok (3, [1; 2; 3], tt) /\
  (0 = 0 -> 3 <= 100 -> Z.of_nat (length [1; 2; 3]) = 3 /\ 3 <= 100).
Proof.
  assert (Hb : forall o t n r m, Forall byte r -> Forall byte (answer rread o t n r m).1.2).
  { intros. apply answer_bytes; [apply (bool_decide_eq_true_1 (Forall byte rread)); vm_compute; reflexivity | done]. }
  vm_cast_no_check (p9_read_correct (answer rread) demo_st demo_p9_file 100 0 (answer_length rread) Hb demo_buffers
                      ltac:(vm_compute; discriminate)).
Defined.

(** Rwalk for some elements. *)
Definition rwalk (n : Z) : list Z := le_enc 4 9 ++ [111] ++ le_enc 2 TAG ++ le_enc 2 n.

(** "/a/./b": both elements are walked, and the path is finished. *)
Definition demo_path : list Z := [47; 97; 47; 46; 47; 98].

Lemma p9_walk_correct_witness :
  exists pos, (fun x => (x.1.1, x.1.2)) <$> p9_walk (Some (answer (rwalk 2))) demo_conn 1 2 (Some demo_path) demo_st =
    Ok (if decide (drop pos demo_path = []) then 0 else P9_PARTIAL_WALK, Some pos) /\ elements (drop pos demo_path) = [].
Proof.
  assert (H : exists pos,
    (fun x => (x.1.1, x.1.2, opaque x.2)) <$> p9_walk (Some (answer (rwalk 2))) demo_conn 1 2 (Some demo_path) demo_st =
      Ok (if negb (0 =? 0) then 0 else if decide (drop pos demo_path = []) then 0 else P9_PARTIAL_WALK, Some pos, tt) /\
    (0 = 0 -> 2%nat <> 2%nat -> Forall (fun e => e <> [46]) (split_path demo_path) ->
       elements (drop pos demo_path) = drop 2 (elements demo_path)) /\
    (0 <> 0 \/ 2%nat = 2%nat -> elements (drop pos demo_path) = drop 2 (elements demo_path))).
  { vm_cast_no_check (p9_walk_correct (answer (rwalk 2)) demo_st demo_conn 1 2 demo_path demo_buffers
      ltac:(vm_compute; discriminate) ltac:(vm_compute; reflexivity) ltac:(repeat constructor; discriminate)). }
  destruct H as (pos & E & _ & H). exists pos. split; [|by apply H; right].
  destruct (p9_walk _ _ _ _ _ _) as [[[rc q] s]| |]; try discriminate. res_simpl. cbn [fst snd] in *.
  injection E as E1 E2 _. by rewrite E1, E2.
Defined.

(** ** What the functions do with other inputs *)

(** A path without elements is refused, as one with an element that is too long. *)
Example walk_root :
  (fun x => (x.1.1, x.1.2)) <$> p9_walk (Some (answer (rwalk 0))) demo_conn 1 2 (Some [47]) demo_st =
  Ok (P9_PATH_ELEMENT_TOO_LONG, Some O).
Proof. vm_compute. reflexivity. Qed.

(** After a partial walk the elements are counted with those that were not
    sent: of "./a/b" the server walked "a", and "a/b" is said to be left. *)
Example partial_walk_dot :
  (fun x => (x.1.1, x.1.2)) <$> p9_walk (Some (answer (rwalk 1))) demo_conn 1 2 (Some [46; 47; 97; 47; 98]) demo_st =
  Ok (P9_PARTIAL_WALK, Some 1%nat).
Proof. vm_compute. reflexivity. Qed.

(** p9_attach counts 19 bytes besides the names, and the message has 23: names
    of 8173 bytes pass the test and go past the end of the buffer. *)
Example attach_overflow :
  p9_attach (Some (answer [])) (Connection 8192 (replicate 8173 97) [] 1) demo_st = Fault.
Proof. vm_compute. reflexivity. Qed.

(** An empty version counts as "unknown". *)
Example version_empty :
  (fun x => x.1.1) <$> p9_version (Some (answer (le_enc 4 13 ++ [101] ++ le_enc 2 NOTAG ++ le_enc 4 4096 ++ pstr []))) demo_conn demo_st =
  Ok P9_UNKNOWN_VERSION.
Proof. vm_compute. reflexivity. Qed.
