(* ===== verification/Packet.v ===== *)
(** * lib/libnet: packets, their headers and checksums

    The parts of ethernet.c, ipv4.c, ipv6.c and udp.c that fill in headers, and
    the two checksums.  A packet is the list of the bytes from a pointer to the
    end of the array it points into, so that an access outside of the array is a
    [Fault]; header fields are offsets.  htons and htonl are the identity on the
    big-endian machine (sys/socket.h). *)

From Stdlib Require Import ZArith Lia.
From stdpp Require Import base list gmap option numbers.
From S2P Require Import Prelude.

(** ** Reading and writing *)

Definition rd (n : nat) (pkt : list Z) (i : nat) : res Z :=
  if decide (i + n <= length pkt)%nat then Ok (be_dec (take n (drop i pkt))) else Fault.

Definition rd_bytes (n : nat) (pkt : list Z) (i : nat) : res (list Z) :=
  if decide (i + n <= length pkt)%nat then Ok (take n (drop i pkt)) else Fault.

Definition wr_bytes (pkt : list Z) (i : nat) (bs : list Z) : res (list Z) :=
  if decide (i + length bs <= length pkt)%nat then Ok (splice pkt i bs) else Fault.

Definition wr (n : nat) (pkt : list Z) (i : nat) (v : Z) : res (list Z) := wr_bytes pkt i (be_enc n v).

(** ** Headers *)

Definition ETH_MTU_SIZE : nat := Z.to_nat 1518.
Definition ETHERTYPE_IP : Z := 0x0800.
Definition ETHERTYPE_IPv6 : Z := 0x86DD.
Definition ETHERTYPE_ARP : Z := 0x0806.
Definition IPTYPE_ICMP : Z := 1.
Definition IPTYPE_UDP : Z := 17.
Definition IPTYPE_TCP : Z := 6.

(** struct ethhdr *)
Definition ETHHDR : nat := 14.
Definition eth_dest_mac : nat := 0.
Definition eth_src_mac : nat := 6.
Definition eth_type : nat := 12.

(** struct iphdr *)
Definition IPHDR : nat := 20.
Definition ip_hlv : nat := 0.
Definition ip_tos : nat := 1.
Definition ip_len : nat := 2.
Definition ip_id : nat := 4.
Definition ip_off : nat := 6.
Definition ip_ttl : nat := 8.
Definition ip_p : nat := 9.
Definition ip_sum : nat := 10.
Definition ip_src : nat := 12.
Definition ip_dst : nat := 16.

(** struct ip6hdr *)
Definition IP6HDR : nat := 40.
Definition ip6_ver_tc_fl : nat := 0.
Definition ip6_pl : nat := 4.
Definition ip6_nh : nat := 6.
Definition ip6_hl : nat := 7.
Definition ip6_src : nat := 8.
Definition ip6_dst : nat := 24.

(** struct udphdr *)
Definition UDPHDR : nat := 8.
Definition uh_sport : nat := 0.
Definition uh_dport : nat := 2.
Definition uh_ulen : nat := 4.
Definition uh_sum : nat := 6.

(** The header is filled in at the offset [o] of the packet. *)
Definition fill_ethhdr (pkt : list Z) (o : nat) (type : Z) (src_mac dest_mac : list Z) : res (list Z) :=
  pkt ← wr 2 pkt (o + eth_type) type;
  pkt ← wr_bytes pkt (o + eth_src_mac) src_mac;
  wr_bytes pkt (o + eth_dest_mac) dest_mac.

Definition fill_iphdr (pkt : list Z) (o : nat) (packetsize proto src dst : Z) : res (list Z) :=
  pkt ← wr 1 pkt (o + ip_hlv) 0x45;
  pkt ← wr 1 pkt (o + ip_tos) 0x10;
  pkt ← wr 2 pkt (o + ip_len) packetsize;
  pkt ← wr 2 pkt (o + ip_id) 0;
  pkt ← wr 2 pkt (o + ip_off) 0;
  pkt ← wr 1 pkt (o + ip_ttl) 0xFF;
  pkt ← wr 1 pkt (o + ip_p) proto;
  pkt ← wr 4 pkt (o + ip_src) src;
  pkt ← wr 4 pkt (o + ip_dst) dst;
  wr 2 pkt (o + ip_sum) 0.

Definition fill_ip6hdr (pkt : list Z) (o : nat) (packetsize proto : Z) (src dst : list Z) : res (list Z) :=
  pkt ← wr 4 pkt (o + ip6_ver_tc_fl) (Z.shiftl 6 28);
  pkt ← wr 2 pkt (o + ip6_pl) packetsize;
  pkt ← wr 1 pkt (o + ip6_nh) proto;
  pkt ← wr 1 pkt (o + ip6_hl) 255;
  pkt ← wr_bytes pkt (o + ip6_src) src;
  wr_bytes pkt (o + ip6_dst) dst.

Definition fill_udphdr (pkt : list Z) (o : nat) (packetsize src_port dest_port : Z) : res (list Z) :=
  pkt ← wr 2 pkt (o + uh_sport) src_port;
  pkt ← wr 2 pkt (o + uh_dport) dest_port;
  pkt ← wr 2 pkt (o + uh_ulen) packetsize;
  wr 2 pkt (o + uh_sum) 0.

(** ** Checksums *)

(** [n] words from the offset [o] on, added to [acc]. *)
Fixpoint sum_loop (n : nat) (pkt : list Z) (o : nat) (acc : Z) : res Z :=
  match n with
  | O => Ok acc
  | S n' => w ← rd 2 pkt o; sum_loop n' pkt (o + 2) (u64 (acc + w))
  end.

(** The two additions of the carries, and the complement. *)
Definition fold_sum (checksum : Z) : Z :=
  let checksum := u64 (Z.shiftr checksum 16 + Z.land checksum 0xffff) in
  let checksum := u64 (checksum + Z.shiftr checksum 16) in
  u16 (Z.lnot checksum).

Definition checksum (pkt : list Z) (o words : nat) : res Z := fold_sum <$> sum_loop words pkt o 0.

(** The IP header the UDP checksum is computed with. *)
Definition udp_ip_hdr (src dst ulen proto : Z) : res (list Z) :=
  ip_hdr ← wr 4 (replicate IPHDR 0) ip_src src;
  ip_hdr ← wr 4 ip_hdr ip_dst dst;
  ip_hdr ← wr 2 ip_hdr ip_len ulen;
  wr 1 ip_hdr ip_p proto.

(** The header is at the start of [pkt]; the UDP length is rounded up to words. *)
Definition fill_udp_checksum (pkt : list Z) : res (list Z) :=
  pkt ← wr 2 pkt (IPHDR + uh_sum) 0;
  src ← rd 4 pkt ip_src;
  dst ← rd 4 pkt ip_dst;
  ulen ← rd 2 pkt (IPHDR + uh_ulen);
  proto ← rd 1 pkt ip_p;
  sum ← sum_loop (Z.to_nat ((ulen + 1) / 2)) pkt IPHDR 0;
  ip_hdr ← udp_ip_hdr src dst ulen proto;
  sum ← sum_loop 10 ip_hdr 0 sum;
  let sum := fold_sum sum in
  pkt ← wr 2 pkt (IPHDR + uh_sum) sum;
  if u16 sum =? 0 then wr 2 pkt (IPHDR + uh_sum) (u16 (Z.lnot 0)) else Ok pkt.

(** ** What reading gives after writing *)

(** The offsets as numbers. *)
Ltac offsets := unfold ETHHDR, eth_dest_mac, eth_src_mac, eth_type, IPHDR, ip_hlv, ip_tos, ip_len, ip_id, ip_off, ip_ttl,
  ip_p, ip_sum, ip_src, ip_dst, IP6HDR, ip6_ver_tc_fl, ip6_pl, ip6_nh, ip6_hl, ip6_src, ip6_dst, UDPHDR, uh_sport,
  uh_dport, uh_ulen, uh_sum in *.

(** Bounds of packets that have been written to. *)
Ltac plen := offsets; repeat first
  [ lia | rewrite be_enc_length | rewrite length_replicate | rewrite splice_length ].

Lemma wr_bytes_spec pkt i bs : (i + length bs <= length pkt)%nat -> wr_bytes pkt i bs = Ok (splice pkt i bs).
Proof. intros H. unfold wr_bytes. by rewrite decide_True. Qed.

Lemma wr_spec n pkt i v : (i + n <= length pkt)%nat -> wr n pkt i v = Ok (splice pkt i (be_enc n v)).
Proof. intros H. apply wr_bytes_spec. by rewrite be_enc_length. Qed.

Lemma rd_spec n pkt i : (i + n <= length pkt)%nat -> rd n pkt i = Ok (be_dec (take n (drop i pkt))).
Proof. intros H. unfold rd. by rewrite decide_True. Qed.

Lemma rd_bytes_spec n pkt i : (i + n <= length pkt)%nat -> rd_bytes n pkt i = Ok (take n (drop i pkt)).
Proof. intros H. unfold rd_bytes. by rewrite decide_True. Qed.

Lemma piece_splice_same pkt i x : (i + length x <= length pkt)%nat -> take (length x) (drop i (splice pkt i x)) = x.
Proof.
  intros H. unfold splice. rewrite drop_app_length' by (rewrite length_take; lia). apply take_app_length.
Qed.

Lemma piece_splice_ne pkt i x j n :
  (i + length x <= length pkt)%nat -> (j + n <= i \/ i + length x <= j)%nat ->
  take n (drop j (splice pkt i x)) = take n (drop j pkt).
Proof.
  intros H Hd. apply list_eq. intros k. destruct (decide (k < n)%nat).
  - rewrite !lookup_take_lt, !lookup_drop, splice_lookup by lia. by rewrite decide_False by lia.
  - by rewrite !lookup_take_ge by lia.
Qed.

(** Reading a field after the writes of other fields and of itself. *)
Lemma rd_splice_same n pkt i v :
  (i + n <= length pkt)%nat -> rd n (splice pkt i (be_enc n v)) i = Ok (v mod 256 ^ Z.of_nat n).
Proof.
  intros H. rewrite rd_spec by (rewrite splice_length; rewrite ?be_enc_length; lia).
  rewrite <- (be_enc_length n v) at 1. rewrite piece_splice_same by (by rewrite be_enc_length).
  by rewrite be_dec_enc.
Qed.

Lemma rd_splice_ne n pkt i x j :
  (i + length x <= length pkt)%nat -> (j + n <= i \/ i + length x <= j)%nat ->
  rd n (splice pkt i x) j = rd n pkt j.
Proof. intros H Hd. unfold rd. rewrite splice_length by done. by rewrite piece_splice_ne. Qed.

Lemma rd_bytes_splice_ne n pkt i x j :
  (i + length x <= length pkt)%nat -> (j + n <= i \/ i + length x <= j)%nat ->
  rd_bytes n (splice pkt i x) j = rd_bytes n pkt j.
Proof. intros H Hd. unfold rd_bytes. rewrite splice_length by done. by rewrite piece_splice_ne. Qed.

Lemma rd_bytes_app pre x post : rd_bytes (length x) (pre ++ x ++ post) (length pre) = Ok x.
Proof. rewrite rd_bytes_spec by (rewrite !length_app; lia). by rewrite drop_app_length, take_app_length. Qed.

Lemma rd_app n pre v post : 0 <= v < 256 ^ Z.of_nat n -> rd n (pre ++ be_enc n v ++ post) (length pre) = Ok v.
Proof.
  intros H. rewrite rd_spec by (rewrite !length_app, be_enc_length; lia). rewrite drop_app_length.
  rewrite <- (be_enc_length n v) at 1. rewrite take_app_length, be_dec_enc. by rewrite Z.mod_small.
Qed.

Lemma rd_inv n pkt i v : rd n pkt i = Ok v -> (i + n <= length pkt)%nat /\ v = be_dec (take n (drop i pkt)).
Proof. unfold rd. case_decide; intros; simplify_eq; done. Qed.

Lemma rd_range n pkt i v : Forall byte pkt -> rd n pkt i = Ok v -> 0 <= v < 256 ^ Z.of_nat n.
Proof.
  intros Hb [H ->]%rd_inv. pose proof (be_dec_range (take n (drop i pkt))) as R.
  rewrite length_take, length_drop, Nat.min_l in R by lia. by apply R, Forall_take, Forall_drop.
Qed.

(** ** The sum of the words *)

Fixpoint word_sum (bs : list Z) : Z :=
  match bs with
  | a :: b :: bs' => a * 256 + b + word_sum bs'
  | [a] => a * 256
  | [] => 0
  end.

Lemma word_sum_app n bs bs' : length bs = (2 * n)%nat -> word_sum (bs ++ bs') = word_sum bs + word_sum bs'.
Proof.
  revert bs. induction n as [|n IH]; intros bs H.
  { apply nil_length_inv in H as ->. done. }
  destruct bs as [|a [|b bs]]; cbn [length] in H; try lia. cbn [app word_sum]. rewrite IH by lia. lia.
Qed.

Lemma word_sum_range n bs : Forall byte bs -> length bs = (2 * n)%nat -> 0 <= word_sum bs <= 65535 * Z.of_nat n.
Proof.
  revert bs. induction n as [|n IH]; intros bs Hb H.
  { apply nil_length_inv in H as ->. cbn. lia. }
  destruct bs as [|a [|b bs]]; cbn [length] in H; try lia. cbn [word_sum].
  inversion Hb as [|? ? Ha Hb1]. inversion Hb1 as [|? ? Hb2 Hbs]. subst. unfold byte in Ha, Hb2. specialize (IH bs Hbs). lia.
Qed.

Lemma sum_loop_spec n pkt o acc :
  Forall byte pkt -> (o + 2 * n <= length pkt)%nat -> 0 <= acc -> acc + 65535 * Z.of_nat n < 2 ^ 64 ->
  sum_loop n pkt o acc = Ok (acc + word_sum (take (2 * n) (drop o pkt))).
Proof.
  intros Hb. revert o acc. induction n as [|n IH]; intros o acc Ho H0 Ha.
  { cbn [sum_loop Nat.mul]. rewrite take_0. cbn [word_sum]. f_equal. lia. }
  cbn [sum_loop]. destruct (drop o pkt) as [|a [|b l]] eqn:E; pose proof (f_equal length E) as El;
    rewrite length_drop in El; cbn [length] in El; try lia.
  rewrite rd_spec, E by lia. res_simpl. cbn [take]. rewrite take_0.
  assert (El2 : l = drop (o + 2) pkt) by (rewrite <- drop_drop, E; done).
  assert (Hab : byte a /\ byte b).
  { assert (F : Forall byte (a :: b :: l)) by (rewrite <- E; by apply Forall_drop).
    inversion F as [|? ? Hab0 F']. by inversion F'. }
  unfold byte in Hab. replace (be_dec [a; b]) with (a * 256 + b) by (unfold be_dec; cbn; lia).
  rewrite u64_small by lia. rewrite IH by lia. f_equal.
  replace (2 * S n)%nat with (S (S (2 * n))) by lia. cbn [take word_sum]. rewrite El2. lia.
Qed.

(** The complement of the folded sum makes it a multiple of 65535. *)
Lemma fold_sum_spec s : 0 <= s < 2 ^ 32 -> 0 <= fold_sum s < 65536 /\ (s + fold_sum s) mod 65535 = 0.
Proof.
  intros Hs. unfold fold_sum.
  assert (El : Z.land s 0xffff = s mod 65536) by exact (Z.land_ones s 16 ltac:(lia)).
  rewrite !Z.shiftr_div_pow2, El by lia. change (2 ^ 16) with 65536.
  assert (0 <= s / 65536 < 65536 /\ 0 <= s mod 65536 < 65536) by lia_div.
  assert (E : s = 65536 * (s / 65536) + s mod 65536) by (apply Z.div_mod; lia).
  rewrite (u64_small (s / 65536 + s mod 65536)) by lia.
  set (hi := s / 65536) in *. set (lo := s mod 65536) in *. clearbody hi lo. subst s.
  assert (Hc : (hi + lo) / 65536 = 0 /\ hi + lo < 65536 \/ (hi + lo) / 65536 = 1 /\ 65536 <= hi + lo) by lia_div.
  split; [apply u16_range|]. unfold u16, Z.lnot. change (2 ^ 16) with 65536.
  destruct Hc as [[-> ?]|[-> ?]]; rewrite u64_small by lia; lia_div.
Qed.

(** A store of a word to a field that is zero adds the word to the sum. *)
Lemma word_sum_store pkt k v :
  (2 * k + 2 <= length pkt)%nat -> take 2 (drop (2 * k) pkt) = [0; 0] -> 0 <= v < 65536 ->
  word_sum (splice pkt (2 * k) (be_enc 2 v)) = word_sum pkt + v.
Proof.
  intros Hk Hz Hv. unfold splice. rewrite be_enc_length.
  assert (E : pkt = take (2 * k) pkt ++ [0; 0] ++ drop (2 * k + 2) pkt).
  { rewrite <- Hz. rewrite <- drop_drop. by rewrite !take_drop. }
  rewrite E at 3. do 2 rewrite (word_sum_app k (take (2 * k) pkt)) by (rewrite length_take; lia).
  cbn [be_enc app word_sum]. change (256 ^ Z.of_nat 1) with 256. change (256 ^ Z.of_nat 0) with 1.
  rewrite Z.div_1_r. assert (v / 256 mod 256 * 256 + v mod 256 = v) by lia_div. lia.
Qed.

Lemma checksum_spec pkt o n :
  Forall byte pkt -> (o + 2 * n <= length pkt)%nat -> Z.of_nat n < 65536 ->
  checksum pkt o n = Ok (fold_sum (word_sum (take (2 * n) (drop o pkt)))).
Proof. intros. unfold checksum. rewrite sum_loop_spec by (done || lia). by rewrite Z.add_0_l. Qed.

Lemma word_sum_piece pkt o n : Forall byte pkt -> (o + 2 * n <= length pkt)%nat ->
  0 <= word_sum (take (2 * n) (drop o pkt)) <= 65535 * Z.of_nat n.
Proof.
  intros Hb Ho. apply word_sum_range; [by apply Forall_take, Forall_drop|]. rewrite length_take, length_drop. lia.
Qed.

(** A store inside of a piece. *)
Lemma piece_splice_in pkt i x j n :
  (j <= i)%nat -> (i + length x <= j + n)%nat -> (j + n <= length pkt)%nat ->
  take n (drop j (splice pkt i x)) = splice (take n (drop j pkt)) (i - j) x.
Proof.
  intros H1 H2 H3. apply list_eq. intros k.
  rewrite splice_lookup by (rewrite length_take, length_drop; lia).
  destruct (decide (k < n)%nat).
  - rewrite lookup_take_lt, lookup_drop, splice_lookup by lia.
    destruct (decide (i - j <= k < i - j + length x)%nat).
    + rewrite decide_True by lia. f_equal. lia.
    + rewrite decide_False by lia. by rewrite lookup_take_lt, lookup_drop by lia.
  - rewrite decide_False by lia. by rewrite !lookup_take_ge by lia.
Qed.

Lemma splice_splice pkt i x y :
  (i + length x <= length pkt)%nat -> length x = length y -> splice (splice pkt i x) i y = splice pkt i y.
Proof.
  intros H E. apply list_eq. intros k. rewrite !splice_lookup by (rewrite ?splice_length; lia).
  case_decide; [done|]. by rewrite decide_False by lia.
Qed.

Lemma piece_piece (pkt : list Z) o n j k :
  (j + k <= n)%nat -> take k (drop j (take n (drop o pkt))) = take k (drop (o + j) pkt).
Proof.
  intros H. apply list_eq. intros i. destruct (decide (i < k)%nat); [|by rewrite !lookup_take_ge by lia].
  rewrite !lookup_take_lt, !lookup_drop, lookup_take_lt, lookup_drop by lia. f_equal. lia.
Qed.

(** Filling in a checksum, the field being the word [k] of the [n] summed up. *)
Lemma checksum_store pkt o n k :
  Forall byte pkt -> (o + 2 * n <= length pkt)%nat -> Z.of_nat n < 65536 -> (k < n)%nat ->
  take 2 (drop (o + 2 * k) pkt) = [0; 0] ->
  exists c, checksum pkt o n = Ok c /\ 0 <= c < 65536 /\
    word_sum (take (2 * n) (drop o (splice pkt (o + 2 * k) (be_enc 2 c)))) mod 65535 = 0.
Proof.
  intros Hb Ho Hn Hk Hz. rewrite checksum_spec by done. eexists. split; [done|].
  pose proof (word_sum_piece pkt o n Hb Ho) as Hs.
  destruct (fold_sum_spec (word_sum (take (2 * n) (drop o pkt)))) as [Hr Hm]; [lia|]. split; [done|].
  rewrite piece_splice_in by (rewrite ?be_enc_length; lia).
  replace (o + 2 * k - o)%nat with (2 * k)%nat by lia.
  rewrite word_sum_store; [done | rewrite length_take, length_drop; lia | | done].
  rewrite piece_piece by lia. exact Hz.
Qed.

(** ** UDP *)

(** The header the UDP checksum also covers (RFC 768). *)
Definition pseudo_header (src dst proto ulen : Z) : list Z :=
  be_enc 4 src ++ be_enc 4 dst ++ [0; proto] ++ be_enc 2 ulen.

(** The checksum of a datagram of [ulen] bytes (RFC 768, RFC 1071): with the
    pseudo header, and with a byte zero behind a datagram of odd length, the
    words add up to a multiple of 65535, and the checksum is not 0. *)
Definition udp_valid (pkt : list Z) (src dst ulen : Z) : Prop :=
  (word_sum (pseudo_header src dst IPTYPE_UDP ulen) + word_sum (take (Z.to_nat ulen) (drop IPHDR pkt))) mod 65535 = 0 /\
  rd 2 pkt (IPHDR + uh_sum) <> Ok 0.

(** What the code sums up: whole words, so that the byte behind a datagram of
    odd length takes part, whatever it holds. *)
Definition udp_words (ulen : Z) : nat := Z.to_nat ((ulen + 1) / 2).

Definition udp_summed (pkt : list Z) (src dst ulen : Z) : Prop :=
  (word_sum (pseudo_header src dst IPTYPE_UDP ulen) + word_sum (take (2 * udp_words ulen) (drop IPHDR pkt))) mod 65535 = 0 /\
  rd 2 pkt (IPHDR + uh_sum) <> Ok 0.

Lemma word_sum_pad n bs : length bs = S (2 * n) -> word_sum (bs ++ [0]) = word_sum bs.
Proof.
  revert bs. induction n as [|n IH]; intros bs Hl.
  - destruct bs as [|x [|]]; try done. cbn. lia.
  - destruct bs as [|x [|y bs]]; try (cbn in Hl; lia). cbn. rewrite IH; [done | cbn in Hl; lia].
Qed.

(** The two agree on a datagram of even length, and on one of odd length with a
    zero behind it. *)
Lemma udp_summed_valid pkt src dst ulen :
  0 <= ulen -> (IPHDR + 2 * udp_words ulen <= length pkt)%nat ->
  (Z.odd ulen = true -> pkt !! (IPHDR + Z.to_nat ulen)%nat = Some 0) ->
  udp_summed pkt src dst ulen -> udp_valid pkt src dst ulen.
Proof.
  intros H0 Hl Hz [Hs Hn]. split; [|done]. rewrite <- Hs. do 2 f_equal. unfold udp_words in *.
  destruct (Z.odd ulen) eqn:Ho.
  - apply Z.odd_spec in Ho as [k ->]. specialize (Hz eq_refl).
    assert ((2 * k + 1 + 1) / 2 = k + 1) as Hk by lia_div. rewrite Hk in *.
    replace (2 * Z.to_nat (k + 1))%nat with (S (Z.to_nat (2 * k + 1))) in * by lia.
    rewrite (take_S_r _ _ 0) by by rewrite lookup_drop. symmetry. apply (word_sum_pad (Z.to_nat k)).
    rewrite length_take, length_drop. lia.
  - assert (Z.even ulen = true) as He by (rewrite <- Z.negb_odd, Ho; done).
    apply Z.even_spec in He as [k ->].
    assert ((2 * k + 1) / 2 = k) as -> by lia_div. do 2 f_equal. lia.
Qed.

Lemma pseudo_sum_range src dst ulen : 0 <= word_sum (pseudo_header src dst IPTYPE_UDP ulen) <= 65535 * 6.
Proof.
  apply (word_sum_range 6); [|done]. unfold pseudo_header. rewrite !Forall_app.
  split_and!; try apply be_enc_bytes. repeat constructor; unfold IPTYPE_UDP; lia.
Qed.

Lemma splice_bytes pkt i n v : Forall byte pkt -> Forall byte (splice pkt i (be_enc n v)).
Proof. intros. apply splice_Forall; [done | apply be_enc_bytes]. Qed.

Lemma udp_ip_hdr_spec src dst ulen :
  exists h, udp_ip_hdr src dst ulen IPTYPE_UDP = Ok h /\ Forall byte h /\ length h = 20%nat /\
    word_sum h = word_sum (pseudo_header src dst IPTYPE_UDP ulen).
Proof.
  unfold udp_ip_hdr. do 4 (rewrite wr_spec by plen; res_simpl).
  eexists. split; [done|]. split_and!.
  - do 4 apply splice_bytes. by repeat constructor.
  - plen.
  - unfold splice, pseudo_header. offsets. cbn [be_enc]. cbn.
    change ((IPTYPE_UDP / 256 ^ Z.of_nat 0) mod 256) with IPTYPE_UDP. lia.
Qed.

Lemma fill_udp_checksum_spec pkt src dst ulen :
  Forall byte pkt -> rd 4 pkt ip_src = Ok src -> rd 4 pkt ip_dst = Ok dst ->
  rd 1 pkt ip_p = Ok IPTYPE_UDP -> rd 2 pkt (IPHDR + uh_ulen) = Ok ulen -> 8 <= ulen ->
  (IPHDR + 2 * udp_words ulen <= length pkt)%nat ->
  exists c, 0 < c < 65536 /\
    fill_udp_checksum pkt = Ok (splice pkt (IPHDR + uh_sum) (be_enc 2 c)) /\
    udp_summed (splice pkt (IPHDR + uh_sum) (be_enc 2 c)) src dst ulen.
Proof.
  intros Hb Hsrc Hdst Hp Hu Hmin Hlen. pose proof (rd_range _ _ _ _ Hb Hu) as Hur. change (256 ^ Z.of_nat 2) with 65536 in Hur.
  assert (Hw : (4 <= udp_words ulen)%nat) by (unfold udp_words; lia_div).
  assert (Hw' : Z.of_nat (udp_words ulen) <= 32768) by (unfold udp_words; lia_div).
  change IPHDR with 20%nat in *. change (20 + uh_sum)%nat with 26%nat.
  change (20 + uh_ulen)%nat with 24%nat in *. change ip_src with 12%nat in *. change ip_dst with 16%nat in *. change ip_p with 9%nat in *.
  unfold fill_udp_checksum. change IPHDR with 20%nat. change (20 + uh_sum)%nat with 26%nat.
  rewrite wr_spec by lia. res_simpl. set (pkt1 := splice pkt 26 (be_enc 2 0)).
  assert (Hl1 : length pkt1 = length pkt) by (apply splice_length; rewrite be_enc_length; lia).
  assert (Hb1 : Forall byte pkt1) by by apply splice_bytes.
  assert (Hrd : forall n j, (j + n <= 26 \/ 28 <= j)%nat -> rd n pkt1 j = rd n pkt j).
  { intros n j ?. apply rd_splice_ne; rewrite be_enc_length; lia. }
  change (20 + uh_ulen)%nat with 24%nat. change ip_src with 12%nat. change ip_dst with 16%nat. change ip_p with 9%nat.
  rewrite !Hrd by lia. rewrite Hsrc, Hdst, Hu, Hp. res_simpl.
  fold (udp_words ulen). pose proof (word_sum_piece pkt1 20 (udp_words ulen) Hb1 ltac:(lia)) as Hs.
  rewrite sum_loop_spec by (done || lia). res_simpl.
  destruct (udp_ip_hdr_spec src dst ulen) as (h & -> & Hhb & Hhl & Hhs). res_simpl.
  rewrite sum_loop_spec by (rewrite ?Hhl; done || lia). res_simpl.
  rewrite (take_ge (drop 0 h)), drop_0, Hhs by (rewrite drop_0; lia).
  set (S := 0 + _ + _). pose proof (pseudo_sum_range src dst ulen). destruct (fold_sum_spec S) as [Hr Hm]; [lia|].
  rewrite wr_spec by lia. res_simpl. unfold pkt1. rewrite (u16_small (fold_sum S)) by done.
  exists (if fold_sum S =? 0 then 65535 else fold_sum S). set (c := if _ : bool then _ else _).
  assert (Hc : 0 < c < 65536 /\ (S + c) mod 65535 = 0).
  { subst c. destruct (Z.eqb_spec (fold_sum S) 0); [|split; [lia | done]]. split; [lia|].
    replace (S + 65535) with (S + fold_sum S + 1 * 65535) by lia. by rewrite Z.mod_add. }
  split; [apply Hc|].
  assert (E : splice pkt1 26 (be_enc 2 c) = splice pkt 26 (be_enc 2 c)) by (apply splice_splice; plen).
  split.
  - change (u16 (Z.lnot 0)) with 65535. fold pkt1. rewrite <- E. subst c. destruct (_ =? 0); [|done].
    rewrite wr_spec by (subst pkt1; plen). f_equal. apply splice_splice; [subst pkt1; plen | done].
  - rewrite <- E. split.
    + change IPHDR with 20%nat. rewrite piece_splice_in by (rewrite ?be_enc_length; lia).
      change (26 - 20)%nat with (2 * 3)%nat.
      assert (Hz : take 2 (drop (2 * 3) (take (2 * udp_words ulen) (drop 20 pkt1))) = [0; 0]).
      { rewrite piece_piece by lia. exact (piece_splice_same pkt 26 (be_enc 2 0) ltac:(rewrite be_enc_length; lia)). }
      rewrite (word_sum_store _ 3) by (done || lia || (rewrite length_take, length_drop; lia)).
      etransitivity; [|apply Hc]. f_equal. clearbody c. unfold S. lia.
    + change (IPHDR + uh_sum)%nat with 26%nat. rewrite rd_splice_same by lia. change (256 ^ Z.of_nat 2) with 65536.
      rewrite Z.mod_small by lia. intros [=]. lia.
Qed.
