(* ===== verification/Timer.v ===== *)
(** * slof/helpers.c: the timer

    set_timer and get_timer over the clock of the Forth word get-msecs.  What the
    clock does is up to the machine: [delays] are the milliseconds that pass until
    its next readings, each of any length; when the list is at its end, a millisecond passes for
    each reading while the timer runs, and none after it has run out. *)

From Stdlib Require Import ZArith Lia.
From stdpp Require Import base list.
From S2P Require Import Prelude.

(** The clock at its last reading, the static variable, and what is to pass. *)
Record timer := Timer { msecs : Z; dest_timer : Z; delays : list Z }.

(** What get_timer would give without a delay. *)
Definition left (t : timer) : Z := s32 (dest_timer t - msecs t).

Definition next_delay (t : timer) : Z :=
  match delays t with d :: _ => d | [] => if 0 <? left t then 1 else 0 end.

Definition SLOF_GetTimer (t : timer) : Z * timer :=
  let now := u32 (msecs t + next_delay t) in (now, Timer now (dest_timer t) (tail (delays t))).

Definition set_timer (val : Z) (t : timer) : timer :=
  let '(now, t) := SLOF_GetTimer t in Timer (msecs t) (u32 (now + val)) (delays t).

Definition get_timer (t : timer) : Z * timer :=
  let '(now, t) := SLOF_GetTimer t in (s32 (dest_timer t - now), t).

Definition TICKS_SEC : Z := 1000.

(** ** What is left *)

Lemma left_range t : - 2 ^ 31 <= left t < 2 ^ 31.
Proof. unfold left. wunfold. case_match; Z.to_euclidean_division_equations; lia. Qed.

Lemma s32_congr x y : x mod 2 ^ 32 = y mod 2 ^ 32 -> s32 x = s32 y.
Proof. unfold s32, to_signed. by intros ->. Qed.

Lemma get_timer_left t : (get_timer t).1 = left (get_timer t).2.
Proof. done. Qed.

Lemma set_timer_left val t : 0 <= val < 2 ^ 31 -> left (set_timer val t) = val.
Proof.
  intros Hv. unfold left, set_timer. cbn [SLOF_GetTimer dest_timer msecs]. rewrite <- (s32_small val) at 2 by lia.
  apply s32_congr. unfold u32. rewrite Zminus_mod_idemp_l. f_equal. lia.
Qed.

Lemma s32_mod x : s32 x mod 2 ^ 32 = x mod 2 ^ 32.
Proof.
  unfold s32, to_signed. case_match; [by apply Zmod_mod|].
  replace (x mod 2 ^ 32 - 2 ^ 32) with (x mod 2 ^ 32 + (-1) * 2 ^ 32) by lia. rewrite Z.mod_add by lia. by apply Zmod_mod.
Qed.

Lemma get_timer_delay t : left (get_timer t).2 = s32 (left t - next_delay t).
Proof.
  unfold left at 1, get_timer. cbn [SLOF_GetTimer fst snd dest_timer msecs]. apply s32_congr.
  unfold u32. rewrite Zminus_mod_idemp_r. rewrite (Zminus_mod (left t)). unfold left at 1. rewrite s32_mod, <- Zminus_mod. f_equal. lia.
Qed.

Lemma get_timer_delays t : delays (get_timer t).2 = tail (delays t).
Proof. done. Qed.
Lemma set_timer_delays val t : delays (set_timer val t) = tail (delays t).
Proof. done. Qed.

(** ** How often the timer can say that it runs *)

(** The readings that can still say so when the timer is not set again, and when it may be. *)
Definition running (t : timer) : Z := Z.of_nat (length (delays t)) * 2 ^ 31 + Z.max 0 (left t).
Definition patience (t : timer) : Z := Z.of_nat (length (delays t)) * 2 ^ 31 + Z.max TICKS_SEC (left t).

Lemma running_patience t : 0 <= running t <= patience t /\ patience t <= running t + TICKS_SEC.
Proof. unfold running, patience, TICKS_SEC. lia. Qed.

(** A reading uses them up. *)
Lemma get_timer_running t : running (get_timer t).2 <= running t /\ patience (get_timer t).2 <= patience t /\
  (0 < (get_timer t).1 -> running (get_timer t).2 < running t).
Proof.
  rewrite get_timer_left. unfold running, patience. pose proof (left_range (get_timer t).2). pose proof (left_range t). rewrite get_timer_delays.
  destruct (delays t) as [|d l] eqn:E; cbn [tail length].
  - assert (left (get_timer t).2 = left t - (if 0 <? left t then 1 else 0)) as ->; [|destruct (Z.ltb_spec 0 (left t)); lia].
    rewrite get_timer_delay. unfold next_delay. rewrite E. apply s32_small. destruct (Z.ltb_spec 0 (left t)); lia.
  - unfold TICKS_SEC. rewrite Nat2Z.inj_succ. lia.
Qed.

Lemma set_timer_patience t : patience (set_timer TICKS_SEC t) <= patience t.
Proof.
  unfold patience. rewrite set_timer_delays, set_timer_left by (unfold TICKS_SEC; lia). rewrite length_tl. unfold TICKS_SEC. lia.
Qed.
