(* ===== verification/Ipv4.v ===== *)
(** * lib/libnet: Ethernet, ARP, IPv4, ICMP and the dispatch of UDP

    ethernet.c, ipv4.c, tcp.c and the handlers of udp.c.  The static variables
    are the record [net]; the device is a queue of received frames ([None] for a
    failure of recv), the list of the frames sent, and the timer of
    Timer.v.  What the protocols above keep is of any type, and their
    handlers are parameters, as is the number send returns.  send_ipv4 may
    receive while it waits for an address, so receive_ether calls itself; its
    fuel is the depth of these calls. *)

From Stdlib Require Import ZArith Lia ZifyNat.
From stdpp Require Import base list gmap option numbers.
From S2P Require Import Prelude Timer Packet.

Definition ARP_REQUEST : Z := 1.
Definition ARP_REPLY : Z := 2.
Definition ARP_ENTRIES : nat := 10.

Definition ICMP_ECHO_REPLY : Z := 0.
Definition ICMP_DST_UNREACHABLE : Z := 3.
Definition ICMP_ECHO_REQUEST : Z := 8.

(** struct arphdr *)
Definition ARPHDR : nat := 28.
Definition arp_hw_type : nat := 0.
Definition arp_proto_type : nat := 2.
Definition arp_hw_len : nat := 4.
Definition arp_proto_len : nat := 5.
Definition arp_opcode : nat := 6.
Definition arp_src_mac : nat := 8.
Definition arp_src_ip : nat := 14.
Definition arp_dest_mac : nat := 18.
Definition arp_dest_ip : nat := 24.

(** struct icmphdr *)
Definition ICMPHDR : nat := 92.
Definition icmp_type : nat := 0.
Definition icmp_code : nat := 1.
Definition icmp_checksum : nat := 2.
Definition icmp_echo_id : nat := 4.
Definition icmp_echo_seq : nat := 6.
Definition icmp_payload : nat := 8.

Definition UDPPORT_BOOTPS : Z := 67.
Definition UDPPORT_BOOTPC : Z := 68.
Definition UDPPORT_DNSS : Z := 53.
Definition UDPPORT_DNSC : Z := 32769.
Definition UDPPORT_TFTPC : Z := 2001.
Definition UDPPORT_DHCPV6C : Z := 546.

Definition null_mac_addr : list Z := replicate 6 0.
Definition broadcast_mac : list Z := replicate 6 0xFF.

(** ** The state *)

Record arp_entry_t := ArpEntry {
  ipv4_addr : Z; mac_addr : list Z; eth_frame : list Z; eth_len : Z; pkt_pending : Z }.

Record routes := Routes {
  own_ip : Z; multicast_ip : Z; multicast_mac : list Z; router_ip : Z; subnet_mask : Z }.

Record arp_st := Arp {
  arp_consumer : nat; arp_producer : nat; arp_table : list arp_entry_t;
  pending_pkt_frame : list Z; pending_pkt_len : Z }.

Record device := Device { rxq : list (option (list Z)); clock : timer; sent : list (list Z) }.

(** What the pointer send_ip points to. *)
Inductive ip_version := IPv4 | IPv6.

Record net U := Net {
  own_mac : list Z; rt : routes; arps : arp_st; ping_dst_ip : Z; send_ip : ip_version;
  ether_packet : list Z; ip_heap : list Z; dev : device; up : U }.
Arguments Net {U}. Arguments own_mac {U}. Arguments rt {U}. Arguments arps {U}. Arguments ping_dst_ip {U}.
Arguments send_ip {U}. Arguments ether_packet {U}. Arguments ip_heap {U}. Arguments dev {U}. Arguments up {U}.

(** The packets of handlers are pointers to one of the arrays. *)
Inductive array := EtherPacket | IpHeap.
Definition ptr : Type := array * nat.
Definition padd (p : ptr) (n : nat) : ptr := (p.1, p.2 + n)%nat.

Section state.
Context {U : Type}.
Implicit Type st : net U.

Definition with_rt st (r : routes) :=
  Net (own_mac st) r (arps st) (ping_dst_ip st) (send_ip st) (ether_packet st) (ip_heap st) (dev st) (up st).
Definition with_arps st (a : arp_st) :=
  Net (own_mac st) (rt st) a (ping_dst_ip st) (send_ip st) (ether_packet st) (ip_heap st) (dev st) (up st).
Definition with_ping st (ip : Z) :=
  Net (own_mac st) (rt st) (arps st) ip (send_ip st) (ether_packet st) (ip_heap st) (dev st) (up st).
Definition with_send_ip st (v : ip_version) :=
  Net (own_mac st) (rt st) (arps st) (ping_dst_ip st) v (ether_packet st) (ip_heap st) (dev st) (up st).
Definition with_ether st (b : list Z) :=
  Net (own_mac st) (rt st) (arps st) (ping_dst_ip st) (send_ip st) b (ip_heap st) (dev st) (up st).
Definition with_heap st (h : list Z) :=
  Net (own_mac st) (rt st) (arps st) (ping_dst_ip st) (send_ip st) (ether_packet st) h (dev st) (up st).
Definition with_dev st (d : device) :=
  Net (own_mac st) (rt st) (arps st) (ping_dst_ip st) (send_ip st) (ether_packet st) (ip_heap st) d (up st).
Definition with_up st (u : U) :=
  Net (own_mac st) (rt st) (arps st) (ping_dst_ip st) (send_ip st) (ether_packet st) (ip_heap st) (dev st) u.

Definition array_of st (a : array) : list Z := match a with EtherPacket => ether_packet st | IpHeap => ip_heap st end.
(** The bytes from a pointer on, and memcpy to it. *)
Definition packet_at st (p : ptr) : list Z := drop p.2 (array_of st p.1).
Definition store st (p : ptr) (bs : list Z) : res (net U) :=
  b ← wr_bytes (array_of st p.1) p.2 bs;
  Ok (match p.1 with EtherPacket => with_ether st b | IpHeap => with_heap st b end).

(** The entry [i] of the ARP table. *)
Definition arp_get st (i : nat) : res arp_entry_t := of_option (arp_table (arps st) !! i).
Definition arp_set st (i : nat) (e : arp_entry_t) : net U :=
  let a := arps st in
  with_arps st (Arp (arp_consumer a) (arp_producer a) (<[i := e]> (arp_table a)) (pending_pkt_frame a) (pending_pkt_len a)).

Definition set_mac_address st (mac : option (list Z)) : net U :=
  Net (match mac with Some m => take 6 m | None => replicate 6 0 end)
    (rt st) (arps st) (ping_dst_ip st) (send_ip st) (ether_packet st) (ip_heap st) (dev st) (up st).

(** ** Initialisation *)

Definition clear_entry (e : arp_entry_t) : arp_entry_t := ArpEntry 0 (replicate 6 0) (eth_frame e) 0 0.

Definition ipv4_init st : net U :=
  let a := arps st in
  with_send_ip (with_ping (with_arps st (Arp 0 0 (clear_entry <$> arp_table a) (pending_pkt_frame a) (pending_pkt_len a))) 0) IPv4.

Definition set_ipv4_address st (ip : Z) : net U :=
  let r := rt st in ipv4_init (with_rt st (Routes ip (multicast_ip r) (multicast_mac r) (router_ip r) (subnet_mask r))).

Definition set_ipv4_router st (ip : Z) : net U :=
  let r := rt st in ipv4_init (with_rt st (Routes (own_ip r) (multicast_ip r) (multicast_mac r) ip (subnet_mask r))).

Definition set_ipv4_netmask st (mask : Z) : net U :=
  let r := rt st in ipv4_init (with_rt st (Routes (own_ip r) (multicast_ip r) (multicast_mac r) (router_ip r) mask)).

Definition set_ipv4_multicast st (ip : Z) : net U :=
  let r := rt st in
  if (ip <? 0xE0000000) || (0xEFFFFFFF <? ip)
  then with_rt st (Routes (own_ip r) 0 (replicate 6 0xFF) (router_ip r) (subnet_mask r))
  else with_rt st (Routes (own_ip r) ip
         [0x01; 0x00; 0x5E; Z.land 0x7F (Z.shiftr ip 16); u8 (Z.land 0xFF (Z.shiftr ip 8)); u8 (Z.land 0xFF ip)]
         (router_ip r) (subnet_mask r)).
End state.

(** The netmask of the class of an address, given its first byte. *)
Definition get_default_ipv4_netmask (top : Z) : Z :=
  if (0 <? top) && (top <? 128) then 0xFF000000
  else if (128 <=? top) && (top <? 192) then 0xFFFF0000
  else if (192 <=? top) && (top <? 224) then 0xFFFFFF00
  else 0.

Section ipv4.
Context {U : Type} (send : list Z -> Z).
Implicit Type st : net U.

Definition send_ether st (buffer : list Z) (len : nat) : res (Z * net U) :=
  frame ← rd_bytes len buffer 0;
  let d := dev st in
  Ok (send frame, with_dev st (Device (rxq d) (clock d) (sent d ++ [frame]))).

(** set_timer(TICKS_SEC) *)
Definition start_timer st : net U :=
  let d := dev st in with_dev st (Device (rxq d) (set_timer TICKS_SEC (clock d)) (sent d)).

(** get_timer() > 0 *)
Definition timer_left st : bool * net U :=
  let d := dev st in
  let '(n, t) := get_timer (clock d) in (0 <? n, with_dev st (Device (rxq d) t (sent d))).

(** ** ARP *)

Definition fill_arphdr (pkt : list Z) (o : nat) (opcode : Z) (src_mac : list Z) (src_ip : Z)
    (dest_mac : list Z) (dest_ip : Z) : res (list Z) :=
  pkt ← wr 2 pkt (o + arp_hw_type) 1;
  pkt ← wr 2 pkt (o + arp_proto_type) ETHERTYPE_IP;
  pkt ← wr 1 pkt (o + arp_hw_len) 6;
  pkt ← wr 1 pkt (o + arp_proto_len) 4;
  pkt ← wr 2 pkt (o + arp_opcode) opcode;
  pkt ← wr_bytes pkt (o + arp_src_mac) src_mac;
  pkt ← wr 4 pkt (o + arp_src_ip) src_ip;
  pkt ← wr_bytes pkt (o + arp_dest_mac) dest_mac;
  wr 4 pkt (o + arp_dest_ip) dest_ip.

Definition with_frame (e : arp_entry_t) (frame : list Z) : arp_entry_t :=
  ArpEntry (ipv4_addr e) (mac_addr e) frame (eth_len e) (pkt_pending e).

Definition arp_send_request st (dest_ip : Z) : res (net U) :=
  let i := arp_producer (arps st) in
  e ← arp_get st i;
  frame ← wr_bytes (eth_frame e) 0 (replicate (ETHHDR + ARPHDR) 0);
  frame ← fill_arphdr frame ETHHDR ARP_REQUEST (own_mac st) (own_ip (rt st)) broadcast_mac dest_ip;
  frame ← fill_ethhdr frame 0 ETHERTYPE_ARP (own_mac st) broadcast_mac;
  '(_, st) ← send_ether (arp_set st i (with_frame e frame)) frame (ETHHDR + ARPHDR);
  Ok st.

Definition arp_send_reply st (src_ip : Z) (src_mac : list Z) : res (net U) :=
  let i := arp_producer (arps st) in
  e ← arp_get st i;
  frame ← wr_bytes (eth_frame e) 0 (replicate (ETHHDR + ARPHDR) 0);
  frame ← fill_ethhdr frame 0 ETHERTYPE_ARP (own_mac st) src_mac;
  frame ← fill_arphdr frame ETHHDR ARP_REPLY (own_mac st) (own_ip (rt st)) src_mac src_ip;
  '(_, st) ← send_ether (arp_set st i (with_frame e frame)) frame (ETHHDR + ARPHDR);
  Ok st.

(** The entry of an address, from [i] on. *)
Fixpoint lookup_loop (fuel : nat) st (ip : Z) (i : nat) : res (option nat) :=
  match fuel with
  | O => OutOfFuel
  | S fuel' =>
      if decide (i = arp_producer (arps st)) then Ok None
      else
        e ← arp_get st i;
        if ipv4_addr e =? ip then Ok (Some i) else lookup_loop fuel' st ip ((i + 1) mod ARP_ENTRIES)
  end.

Definition lookup_mac_addr st (ip : Z) : res (option nat) :=
  lookup_loop (S ARP_ENTRIES) st ip (arp_consumer (arps st)).

Definition handle_arp st (packet : list Z) (packetsize : Z) : res (Z * net U) :=
  if packetsize <? Z.of_nat ARPHDR then Ok (-1, st) else
  hw_type ← rd 2 packet arp_hw_type;
  proto_type ← rd 2 packet arp_proto_type;
  if negb (hw_type =? 1) || negb (proto_type =? ETHERTYPE_IP) then Ok (-1, st) else
  dest_ip ← rd 4 packet arp_dest_ip;
  if negb (dest_ip =? own_ip (rt st)) then Ok (-1, st) else
  opcode ← rd 2 packet arp_opcode;
  src_ip ← rd 4 packet arp_src_ip;
  src_mac ← rd_bytes 6 packet arp_src_mac;
  if opcode =? ARP_REQUEST then
    st ← (if negb (own_ip (rt st) =? 0) then arp_send_reply st src_ip src_mac else Ok st);
    Ok (0, st)
  else if opcode =? ARP_REPLY then
    dest_mac ← rd_bytes 6 packet arp_dest_mac;
    if negb (bool_decide (own_mac st = dest_mac)) then Ok (0, st) else
    if src_ip =? 0 then Ok (-1, st) else
    r ← lookup_mac_addr st src_ip;
    match r with
    | None => Ok (-1, st)
    | Some i =>
        e ← arp_get st i;
        if negb (bool_decide (mac_addr e = null_mac_addr)) then Ok (-1, st) else
        let e := ArpEntry (ipv4_addr e) src_mac (eth_frame e) (eth_len e) (pkt_pending e) in
        let st := arp_set st i e in
        if pkt_pending e =? 0 then Ok (0, st) else
        let a := arps st in
        frame ← wr_bytes (pending_pkt_frame a) eth_dest_mac src_mac;
        let st := with_arps st (Arp (arp_consumer a) (arp_producer a) (arp_table a) frame (pending_pkt_len a)) in
        '(_, st) ← send_ether st frame (Z.to_nat (pending_pkt_len a));
        Ok (0, arp_set st i (ArpEntry (ipv4_addr e) (mac_addr e) (eth_frame e) 0 0))
    end
  else Ok (-1, st).

(** ** Sending *)

(** The network mask and both ends are 32-bit values. *)
Definition is_broadcast (r : routes) (ip_dst : Z) : bool :=
  (u32 (Z.lnot ip_dst) =? 0) ||
  ((Z.land (u32 (Z.lnot (subnet_mask r))) ip_dst =? u32 (Z.lnot (subnet_mask r))) &&
   (Z.land (subnet_mask r) ip_dst =? Z.land (subnet_mask r) (own_ip r))).

(** [rx] is receive_ether.  The loop [do ... while (get_timer() > 0)] that waits
    for the answer to the ARP request. *)
Fixpoint wait_loop (fuel : nat) (rx : net U -> res (Z * net U)) (i : nat) st : res (net U) :=
  match fuel with
  | O => OutOfFuel
  | S fuel' =>
      '(_, st) ← rx st;
      e ← arp_get st i;
      if eth_len e =? 0 then Ok st
      else let '(more, st) := timer_left st in if more : bool then wait_loop fuel' rx i st else Ok st
  end.

(** The headers send_ipv4 completes: addresses and checksums. *)
Definition patch_headers (r : routes) (buffer : list Z) : res (list Z) :=
  src ← rd 4 buffer ip_src;
  buffer ← (if src =? 0 then wr 4 buffer ip_src (own_ip r)
            else if src =? 1 then
              buffer ← wr 4 buffer ip_src (own_ip r); wr 4 buffer ip_dst (multicast_ip r)
            else Ok buffer);
  buffer ← wr 2 buffer ip_sum 0;
  sum ← checksum buffer 0 10;
  buffer ← wr 2 buffer ip_sum sum;
  proto ← rd 1 buffer ip_p;
  if proto =? IPTYPE_UDP then fill_udp_checksum buffer else Ok buffer.

(** The entry whose frame is used and the address, if both are known, and the
    IP address whose hardware address is needed. *)
Definition resolve st (ip_dst : Z) : res (option nat * option (list Z) * Z) :=
  let r := rt st in
  if is_broadcast r ip_dst then Ok (Some (arp_producer (arps st)), Some broadcast_mac, ip_dst)
  else if ip_dst =? multicast_ip r then Ok (Some (arp_producer (arps st)), Some (multicast_mac r), ip_dst)
  else
    let ip := if Z.land (subnet_mask r) (own_ip r) =? Z.land (subnet_mask r) ip_dst then ip_dst else router_ip r in
    found ← lookup_mac_addr st ip;
    match found with
    | None => Ok (None, None, ip)
    | Some i => e ← arp_get st i;
                Ok (Some i, if bool_decide (mac_addr e = null_mac_addr) then None else Some (mac_addr e), ip)
    end.

(** A new entry for an address that is asked for, with the packet to be sent. *)
Definition arp_enqueue st (ip : Z) (buffer : list Z) (len : nat) : res (nat * net U) :=
  let i := arp_producer (arps st) in
  let producer := ((i + 1) mod ARP_ENTRIES)%nat in
  let consumer := if decide (arp_consumer (arps st) = producer) then ((arp_consumer (arps st) + 1) mod ARP_ENTRIES)%nat
                  else arp_consumer (arps st) in
  e ← arp_get st i;
  let e := ArpEntry ip (replicate 6 0) (eth_frame e) (eth_len e) 1 in
  frame ← fill_ethhdr (pending_pkt_frame (arps st)) 0 ETHERTYPE_IP (own_mac st) null_mac_addr;
  bs ← rd_bytes len buffer 0;
  frame ← wr_bytes frame ETHHDR bs;
  Ok (i, with_arps st (Arp consumer producer (<[i := e]> (arp_table (arps st))) frame (Z.of_nat (len + ETHHDR)))).

Definition send_ipv4 (fuel : nat) (rx : net U -> res (Z * net U)) st (buffer : list Z) (len : nat) : res (Z * net U) :=
  if decide (ETH_MTU_SIZE < len + ETHHDR)%nat then Ok (-1, st) else
  buffer ← patch_headers (rt st) buffer;
  ip_dst ← rd 4 buffer ip_dst;
  '(entry, mac, ip) ← resolve st ip_dst;
  match entry, mac with
  | Some i, Some mac =>
      e ← arp_get st i;
      frame ← fill_ethhdr (eth_frame e) 0 ETHERTYPE_IP (own_mac st) mac;
      bs ← rd_bytes len buffer 0;
      frame ← wr_bytes frame ETHHDR bs;
      send_ether (arp_set st i (with_frame e frame)) frame (len + ETHHDR)
  | _, _ =>
      st ← arp_send_request st ip;
      match entry with
      | Some _ => Ok (-2, st)
      | None =>
          '(i, st) ← arp_enqueue st ip buffer len;
          st ← wait_loop fuel rx i (start_timer st);
          Ok (0, st)
      end
  end.

(** ** TCP, UDP and ICMP *)

Definition handle_tcp : Z := -1.

(** The handlers of the protocols above UDP. *)
Context (handle_dhcp handle_dns handle_dhcpv6 handle_tftp :
  nat -> (net U -> res (Z * net U)) -> net U -> ptr -> Z -> res (Z * net U)).
Context (handle_tftp_dun : net U -> Z -> net U).

Definition handle_udp (fuel : nat) (rx : net U -> res (Z * net U)) st (udp_packet : ptr) (packetsize : Z) : res (Z * net U) :=
  if packetsize <? Z.of_nat UDPHDR then Ok (-1, st) else
  let below h := h fuel rx st (padd udp_packet UDPHDR) (s32 (packetsize - Z.of_nat UDPHDR)) in
  dport ← rd 2 (packet_at st udp_packet) uh_dport;
  sport ← rd 2 (packet_at st udp_packet) uh_sport;
  let s8 (x : Z * net U) := (to_signed 8 x.1, x.2) in
  if dport =? UDPPORT_BOOTPC then
    if sport =? UDPPORT_BOOTPS then s8 <$> below handle_dhcp else Ok (-1, st)
  else if dport =? UDPPORT_DNSC then
    if sport =? UDPPORT_DNSS then s8 <$> below handle_dns else Ok (-1, st)
  else if dport =? UDPPORT_DHCPV6C then s8 <$> below handle_dhcpv6
  else if dport =? UDPPORT_TFTPC then s8 <$> handle_tftp fuel rx st udp_packet (s32 packetsize)
  else Ok (-1, st).

Definition handle_udp_dun st (udp_packet : list Z) (packetsize err_code : Z) : res (net U) :=
  if packetsize <? Z.of_nat UDPHDR then Ok st else
  sport ← rd 2 udp_packet uh_sport;
  Ok (if sport =? UDPPORT_TFTPC then handle_tftp_dun st err_code else st).

Definition handle_icmp (fuel : nat) (rx : net U -> res (Z * net U)) st (src : Z) (packet : list Z) (packetsize : Z)
    : res (Z * net U) :=
  type ← rd 1 packet icmp_type;
  if type =? ICMP_ECHO_REPLY then
    id ← rd 2 packet icmp_echo_id;
    seq ← rd 2 packet icmp_echo_seq;
    if negb (id =? 0xd476) then Ok (-1, st) else
    if negb (seq =? 1) then Ok (-1, st) else
    if negb (ping_dst_ip st =? src) || (ping_dst_ip st =? 0) then Ok (-1, st) else
    Ok (0, with_ping st 0)
  else if type =? ICMP_DST_UNREACHABLE then
    proto ← rd 1 packet (icmp_payload + ip_p);
    if proto =? IPTYPE_UDP then
      code ← rd 1 packet icmp_code;
      st ← handle_udp_dun st (drop (icmp_payload + IPHDR) packet)
             (u32 (packetsize - Z.of_nat ICMPHDR - Z.of_nat IPHDR)) code;
      Ok (0, st)
    else Ok (0, st)
  else if type =? ICMP_ECHO_REQUEST then
    let size := Z.to_nat (u64 (Z.of_nat IPHDR + packetsize)) in
    reply ← fill_iphdr (replicate size 0) 0 (Z.of_nat IPHDR + packetsize) IPTYPE_ICMP 0 src;
    bs ← rd_bytes (Z.to_nat (u64 packetsize)) packet 0;
    reply ← wr_bytes reply IPHDR bs;
    reply ← wr 1 reply (IPHDR + icmp_type) ICMP_ECHO_REPLY;
    reply ← wr 2 reply (IPHDR + icmp_checksum) 0;
    sum ← checksum reply IPHDR (ICMPHDR / 2);
    reply ← wr 2 reply (IPHDR + icmp_checksum) sum;
    '(_, st) ← send_ipv4 fuel rx st reply size;
    Ok (0, st)
  else Ok (0, st).

Definition ping_ipv4 (fuel : nat) (rx : net U -> res (Z * net U)) st (dst : Z) : res (net U) :=
  let st := with_ping st dst in
  if dst =? 0 then Ok st else
  packet ← fill_iphdr (replicate (IPHDR + ICMPHDR) 0) 0 (Z.of_nat (IPHDR + ICMPHDR)) IPTYPE_ICMP 0 dst;
  packet ← wr 1 packet (IPHDR + icmp_type) ICMP_ECHO_REQUEST;
  packet ← wr 1 packet (IPHDR + icmp_code) 0;
  packet ← wr 2 packet (IPHDR + icmp_checksum) 0;
  packet ← wr 2 packet (IPHDR + icmp_echo_id) 0xd476;
  packet ← wr 2 packet (IPHDR + icmp_echo_seq) 1;
  packet ← wr_bytes packet (IPHDR + icmp_payload) (replicate 84 42);
  sum ← checksum packet IPHDR (ICMPHDR / 2);
  packet ← wr 2 packet (IPHDR + icmp_checksum) sum;
  '(_, st) ← send_ipv4 fuel rx st packet (IPHDR + ICMPHDR);
  Ok st.

(** ** Receiving *)

(** The protocol above IPv4; [ip_packet] points to the header. *)
Definition handle_proto (fuel : nat) (rx : net U -> res (Z * net U)) st (ip_packet : ptr) : res (Z * net U) :=
  let iph := packet_at st ip_packet in
  proto ← rd 1 iph ip_p;
  len ← rd 2 iph ip_len;
  src ← rd 4 iph ip_src;
  let size := len - Z.of_nat IPHDR in
  if proto =? IPTYPE_ICMP then handle_icmp fuel rx st src (drop IPHDR iph) (s32 size)
  else if proto =? IPTYPE_UDP then handle_udp fuel rx st (padd ip_packet IPHDR) (u32 size)
  else if proto =? IPTYPE_TCP then Ok (handle_tcp, st)
  else Ok (-1, st).

(** Whether a packet to [dst] is dropped. *)
Definition not_for_us (r : routes) (dst : Z) : bool :=
  ((multicast_ip r =? 0) && (0xE0000000 <=? dst) && (dst <=? 0xEFFFFFFF)) ||
  (negb (multicast_ip r =? dst) && negb (dst =? 0xFFFFFFFF) && negb (own_ip r =? 0) && negb (dst =? own_ip r)).

(** The fields that say which packet a fragment is part of. *)
Definition fragment_key (ip_packet : list Z) : res (Z * Z * Z * Z) :=
  id ← rd 2 ip_packet ip_id; p ← rd 1 ip_packet ip_p;
  src ← rd 4 ip_packet ip_src; dst ← rd 4 ip_packet ip_dst; Ok (id, p, src, dst).

Definition handle_ipv4 (fuel : nat) (rx : net U -> res (Z * net U)) st (ip_packet : ptr) (packetsize : Z)
    : res (Z * net U) :=
  if packetsize <? Z.of_nat IPHDR then Ok (-1, st) else
  dst ← rd 4 (packet_at st ip_packet) ip_dst;
  if not_for_us (rt st) dst then Ok (-1, st) else
  old_sum ← rd 2 (packet_at st ip_packet) ip_sum;
  st ← store st (padd ip_packet ip_sum) (be_enc 2 0);
  let iph := packet_at st ip_packet in
  sum ← checksum iph 0 10;
  if negb (old_sum =? sum) then Ok (-1, st) else
  off ← rd 2 iph ip_off;
  len ← rd 2 iph ip_len;
  let more := Z.land off 0x2000 =? 0x2000 in
  if Z.land off 0x1FFF =? 0 then
    if more then
      bs ← rd_bytes (Z.to_nat len) iph 0;
      st ← store st (IpHeap, O) bs;
      Ok (0, st)
    else handle_proto fuel rx st ip_packet
  else
    first ← fragment_key (ip_heap st);
    this ← fragment_key iph;
    if negb (bool_decide (first = this)) then Ok (0, st) else
    bs ← rd_bytes (Z.to_nat (u64 (len - Z.of_nat IPHDR))) iph IPHDR;
    st ← store st (IpHeap, (IPHDR + Z.to_nat (Z.land off 0x1FFF * 8))%nat) bs;
    if more then Ok (0, st) else
    st ← store st (IpHeap, ip_len) (be_enc 2 (len + Z.land off 0x1FFF * 8));
    handle_proto fuel rx st (IpHeap, O).

Context (handle_ipv6 : nat -> (net U -> res (Z * net U)) -> net U -> ptr -> Z -> res (Z * net U)).

Definition is_multicast_mac (mac : list Z) : bool := bool_decide (take 2 mac = [0x33; 0x33]).

(** Whether a frame to this address is for us. *)
Definition mac_accepted (own_mac dest_mac : list Z) : bool :=
  bool_decide (dest_mac = broadcast_mac) || bool_decide (take 3 dest_mac = [0x01; 0x00; 0x5E]) ||
  bool_decide (dest_mac = own_mac) || is_multicast_mac dest_mac.

(** recv: what it gives back, and the bytes it stores in the array. *)
Definition recv st : Z * list Z * net U :=
  let d := dev st in
  let st := with_dev st (Device (tail (rxq d)) (clock d) (sent d)) in
  match rxq d with
  | [] => (0, [], st)
  | None :: _ => (-1, [], st)
  | Some frame :: _ => let frame := take ETH_MTU_SIZE frame in (Z.of_nat (length frame), frame, st)
  end.

(** [fuel] bounds the depth of the calls, and the waiting loop of send_ipv4. *)
Fixpoint receive_ether (fuel : nat) st : res (Z * net U) :=
  match fuel with
  | O => OutOfFuel
  | S fuel' =>
      let rx := receive_ether fuel' in
      let '(bytes_received, frame, st) := recv st in
      packet ← wr_bytes (replicate ETH_MTU_SIZE 0) 0 frame;
      let st := with_ether st packet in
      if bytes_received =? 0 then Ok (0, st)
      else if bytes_received <? 0 then Ok (-1, st)
      else if bytes_received <? Z.of_nat ETHHDR then Ok (-1, st) else
      dest_mac ← rd_bytes 6 packet eth_dest_mac;
      if negb (mac_accepted (own_mac st) dest_mac) then Ok (-1, st) else
      type ← rd 2 packet eth_type;
      let size := bytes_received - Z.of_nat ETHHDR in
      if type =? ETHERTYPE_IP then handle_ipv4 fuel' rx st (EtherPacket, ETHHDR) size
      else if type =? ETHERTYPE_IPv6 then handle_ipv6 fuel' rx st (EtherPacket, ETHHDR) size
      else if type =? ETHERTYPE_ARP then handle_arp st (packet_at st (EtherPacket, ETHHDR)) size
      else Ok (-1, st)
  end.
End ipv4.

(** ** Headers *)

Ltac ip_offsets := unfold ARPHDR, arp_hw_type, arp_proto_type, arp_hw_len, arp_proto_len, arp_opcode, arp_src_mac,
  arp_src_ip, arp_dest_mac, arp_dest_ip, ICMPHDR, icmp_type, icmp_code, icmp_checksum, icmp_echo_id, icmp_echo_seq,
  icmp_payload, ETH_MTU_SIZE, ARP_ENTRIES in *; offsets.

Definition routes_ok (r : routes) : Prop := 0 <= own_ip r < 2 ^ 32 /\ 0 <= multicast_ip r < 2 ^ 32.

(** The addresses send_ipv4 sends a packet with, for those in its header. *)
Definition sent_src (r : routes) (src : Z) : Z := if (src =? 0) || (src =? 1) then own_ip r else src.
Definition sent_dst (r : routes) (src dst : Z) : Z := if src =? 1 then multicast_ip r else dst.

(** The check of handle_ipv4. *)
Definition header_accepted (pkt : list Z) : Prop :=
  exists sum, rd 2 pkt ip_sum = Ok sum /\ checksum (splice pkt ip_sum (be_enc 2 0)) 0 10 = Ok sum.

Lemma header_sum_spec pkt :
  Forall byte pkt -> (20 <= length pkt)%nat ->
  exists c, checksum (splice pkt ip_sum (be_enc 2 0)) 0 10 = Ok c /\ 0 <= c < 65536 /\
    let pkt' := splice pkt ip_sum (be_enc 2 c) in
    word_sum (take 20 pkt') mod 65535 = 0 /\ header_accepted pkt'.
Proof.
  intros Hb Hl. set (z := splice pkt ip_sum (be_enc 2 0)).
  assert (Hzl : length z = length pkt) by (subst z; plen).
  destruct (checksum_store z 0 10 5) as (c & Hc & Hr & Hs); try lia.
  { by apply splice_bytes. }
  { exact (piece_splice_same pkt 10 (be_enc 2 0) ltac:(rewrite be_enc_length; lia)). }
  exists c. split; [done|]. split; [done|]. cbv zeta.
  assert (E : splice z ip_sum (be_enc 2 c) = splice pkt ip_sum (be_enc 2 c)).
  { apply splice_splice; [subst z; plen | done]. }
  split.
  - rewrite <- E. exact Hs.
  - exists c. split.
    + rewrite rd_splice_same by plen. f_equal. by apply Z.mod_small.
    + rewrite splice_splice by (rewrite ?be_enc_length; plen || done). exact Hc.
Qed.

(** The check reads the header only. *)
Lemma header_accepted_frame pkt i x :
  Forall byte pkt -> (20 <= i)%nat -> (i + length x <= length pkt)%nat -> Forall byte x ->
  header_accepted pkt -> header_accepted (splice pkt i x).
Proof.
  intros Hb Hi Hl Hx (sum & H1 & H2). exists sum. split; [rewrite rd_splice_ne by plen; done|].
  rewrite checksum_spec in H2 |- * by (first [by apply splice_bytes | by apply splice_bytes, splice_Forall | plen]).
  rewrite <- H2. do 3 f_equal. rewrite !drop_0. change (2 * 10)%nat with 20%nat.
  apply list_eq. intros k. destruct (decide (k < 20)%nat); [|by rewrite !lookup_take_ge by lia].
  rewrite !lookup_take_lt by lia. rewrite !(splice_lookup _ ip_sum) by plen. case_decide; [done|].
  rewrite splice_lookup by lia. by rewrite decide_False by lia.
Qed.

(** The addresses as send_ipv4 patches them. *)
Definition patch_addresses (r : routes) (src : Z) (buffer : list Z) : list Z :=
  if src =? 0 then splice buffer ip_src (be_enc 4 (own_ip r))
  else if src =? 1 then splice (splice buffer ip_src (be_enc 4 (own_ip r))) ip_dst (be_enc 4 (multicast_ip r))
  else buffer.

Lemma patch_addresses_spec r src dst buffer :
  Forall byte buffer -> routes_ok r -> rd 4 buffer ip_src = Ok src -> rd 4 buffer ip_dst = Ok dst ->
  let b := patch_addresses r src buffer in
  Forall byte b /\ length b = length buffer /\
  rd 4 b ip_src = Ok (sent_src r src) /\ rd 4 b ip_dst = Ok (sent_dst r src dst) /\
  forall i, ~ (12 <= i < 20)%nat -> b !! i = buffer !! i.
Proof.
  intros Hb [Ho Hm] Hs Hd. destruct (rd_inv _ _ _ _ Hd) as [Hl _]. change (256 ^ Z.of_nat 4) with (2 ^ 32) in *.
  unfold patch_addresses, sent_src, sent_dst. offsets.
  destruct (Z.eqb_spec src 0) as [->|]; [|destruct (Z.eqb_spec src 1) as [->|]]; cbn [orb Z.eqb].
  - split_and!; [by apply splice_bytes | plen | | by rewrite rd_splice_ne by plen |].
    + rewrite rd_splice_same by plen. f_equal. by apply Z.mod_small.
    + intros i Hi. rewrite splice_lookup by plen. rewrite decide_False; [done|]. rewrite be_enc_length. lia.
  - split_and!; [by do 2 apply splice_bytes | plen | | |].
    + rewrite rd_splice_ne, rd_splice_same by plen. f_equal. by apply Z.mod_small.
    + rewrite rd_splice_same by plen. f_equal. by apply Z.mod_small.
    + intros i Hi. rewrite !splice_lookup by plen. by rewrite !decide_False by (rewrite be_enc_length; lia).
  - split_and!; done.
Qed.

(** A packet send_ipv4 can be given: UDP needs its datagram in the array. *)
Definition sendable (buffer : list Z) (src dst proto : Z) : Prop :=
  Forall byte buffer /\ rd 4 buffer ip_src = Ok src /\ rd 4 buffer ip_dst = Ok dst /\ rd 1 buffer ip_p = Ok proto /\
  (proto = IPTYPE_UDP -> exists ulen, rd 2 buffer (IPHDR + uh_ulen) = Ok ulen /\ 8 <= ulen /\
     (IPHDR + 2 * udp_words ulen <= length buffer)%nat).

(** What patch_headers gives: the packet with its addresses and valid checksums. *)
Record patched (r : routes) (buffer : list Z) (src dst proto : Z) (pkt : list Z) : Prop := {
  p_bytes : Forall byte pkt;
  p_length : length pkt = length buffer;
  p_src : rd 4 pkt ip_src = Ok (sent_src r src);
  p_dst : rd 4 pkt ip_dst = Ok (sent_dst r src dst);
  p_sum : word_sum (take 20 pkt) mod 65535 = 0;
  p_accepted : header_accepted pkt;
  p_udp : forall ulen, proto = IPTYPE_UDP -> rd 2 buffer (IPHDR + uh_ulen) = Ok ulen ->
    udp_summed pkt (sent_src r src) (sent_dst r src dst) ulen;
  p_rest : forall i, ~ (10 <= i < 20)%nat -> ~ (proto = IPTYPE_UDP /\ 26 <= i < 28)%nat -> pkt !! i = buffer !! i;
}.

Lemma rd_ext n pkt pkt' i :
  length pkt = length pkt' -> (forall j, (i <= j < i + n)%nat -> pkt !! j = pkt' !! j) -> rd n pkt i = rd n pkt' i.
Proof.
  intros Hl H. unfold rd. rewrite Hl. case_decide; [|done]. do 2 f_equal. apply list_eq. intros k.
  destruct (decide (k < n)%nat); [|by rewrite !lookup_take_ge by lia].
  rewrite !lookup_take_lt, !lookup_drop by lia. apply H. lia.
Qed.

Lemma patch_headers_spec r buffer src dst proto :
  routes_ok r -> sendable buffer src dst proto ->
  exists pkt, patch_headers r buffer = Ok pkt /\ patched r buffer src dst proto pkt.
Proof.
  intros Hr (Hb & Hs & Hd & Hp & Hu). destruct (rd_inv _ _ _ _ Hd) as [Hl _].
  unfold patch_headers. rewrite Hs. res_simpl. set (b := patch_addresses r src buffer).
  replace (if src =? 0 then _ else _) with (Ok b).
  2: { subst b. unfold patch_addresses. destruct (src =? 0); [by rewrite wr_spec by plen|].
       destruct (src =? 1); [|done]. by rewrite !wr_spec by plen; res_simpl; rewrite wr_spec by plen. }
  res_simpl. destruct (patch_addresses_spec r src dst buffer Hb Hr Hs Hd) as (Hbb & Hbl & Hbs & Hbd & Hbr). fold b in Hbb, Hbl, Hbs, Hbd, Hbr.
  rewrite wr_spec by plen. res_simpl.
  destruct (header_sum_spec b Hbb ltac:(plen)) as (c & Hc & Hcr & Hsum & Hacc). rewrite Hc. res_simpl.
  rewrite wr_spec by plen. res_simpl. rewrite splice_splice by (rewrite ?be_enc_length; plen || done).
  set (pkt := splice b ip_sum (be_enc 2 c)) in *.
  assert (Hpl : length pkt = length buffer) by (subst pkt; plen).
  assert (Hrest : forall i, ~ (10 <= i < 20)%nat -> pkt !! i = buffer !! i).
  { intros i Hi. subst pkt. rewrite splice_lookup by plen. rewrite decide_False by (offsets; rewrite be_enc_length; lia).
    apply Hbr. lia. }
  assert (Hps : rd 4 pkt ip_src = Ok (sent_src r src)) by (subst pkt; by rewrite rd_splice_ne by plen).
  assert (Hpd : rd 4 pkt ip_dst = Ok (sent_dst r src dst)) by (subst pkt; by rewrite rd_splice_ne by plen).
  assert (Hpp : rd 1 pkt ip_p = Ok proto).
  { rewrite <- Hp. apply rd_ext; [done|]. offsets. intros. apply Hrest. lia. }
  assert (Hpb : Forall byte pkt) by by apply splice_bytes.
  rewrite Hpp. res_simpl. destruct (Z.eqb_spec proto IPTYPE_UDP) as [->|Hne].
  - destruct (Hu eq_refl) as (ulen & Hul & Hmin & Hlen).
    assert (Hpu : rd 2 pkt (IPHDR + uh_ulen) = Ok ulen).
    { rewrite <- Hul. apply rd_ext; [done|]. offsets. intros. apply Hrest. lia. }
    destruct (fill_udp_checksum_spec pkt _ _ ulen Hpb Hps Hpd Hpp Hpu Hmin ltac:(lia)) as (u & Hur & -> & Hv).
    eexists. split; [done|]. assert (28 <= length pkt)%nat by (destruct (rd_inv _ _ _ _ Hpu); unfold udp_words in *; offsets; lia_div).
    split.
    + by apply splice_bytes.
    + plen.
    + by rewrite rd_splice_ne by plen.
    + by rewrite rd_splice_ne by plen.
    + rewrite <- Hsum. f_equal. f_equal. apply list_eq. intros k.
      destruct (decide (k < 20)%nat); [|by rewrite !lookup_take_ge by lia]. rewrite !lookup_take_lt by lia.
      rewrite splice_lookup by plen. by rewrite decide_False by (offsets; lia).
    + apply header_accepted_frame; [done | plen | plen | apply be_enc_bytes | done].
    + intros ulen' _ E'. assert (Ok ulen' = Ok ulen) as [= ->] by (etransitivity; [symmetry; exact E' | exact Hul]). done.
    + intros i Hi Hi'. rewrite splice_lookup by plen.
      rewrite decide_False by (offsets; rewrite be_enc_length; lia). by apply Hrest.
  - eexists. split; [done|]. split; try done. intros i Hi _. by apply Hrest.
Qed.

(** ** Receiving a packet, whole or in fragments *)

(** A part of a packet: its header is valid and not filtered out; it says which
    packet it belongs to, where its data go (in units of 8 bytes), how many there
    are and whether more follow. *)
Record part_of (r : routes) (key : Z * Z * Z * Z) (pkt : list Z) (o n : nat) (more : bool) (data : list Z) : Prop := {
  part_bytes : Forall byte pkt;
  part_fits : (IPHDR + n <= length pkt)%nat;
  part_dst : exists dst, rd 4 pkt ip_dst = Ok dst /\ not_for_us r dst = false;
  part_accepted : header_accepted pkt;
  part_key : fragment_key pkt = Ok key;
  part_off : rd 2 pkt ip_off = Ok (Z.of_nat o + if more then 0x2000 else 0);
  part_len : rd 2 pkt ip_len = Ok (Z.of_nat (IPHDR + n));
  part_o : Z.of_nat o < 8192;
  part_data : rd_bytes n pkt IPHDR = Ok (take n (drop (8 * o) data));
  part_inside : (8 * o + n <= length data)%nat;
}.

Lemma land_mf o (more : bool) : Z.of_nat o < 8192 ->
  Z.land (Z.of_nat o + if more then 0x2000 else 0) 0x1FFF = Z.of_nat o /\
  (Z.land (Z.of_nat o + if more then 0x2000 else 0) 0x2000 =? 0x2000) = more.
Proof.
  intros Ho. set (x := _ + _).
  assert (Ht : Z.b2z (Z.testbit x 13) = if more then 1 else 0).
  { rewrite Z.testbit_spec' by lia. change (2 ^ 13) with 8192. subst x. destruct more; lia_div. }
  assert (E1 : Z.land x 0x1FFF = x mod 8192) by exact (Z.land_ones x 13 ltac:(lia)).
  assert (E2 : Z.land x 0x2000 = Z.b2z (Z.testbit x 13) * 8192) by exact (land_pow2 x 13 ltac:(lia)).
  rewrite E1, E2, Ht. split; [subst x; destruct more; lia_div | by destruct more].
Qed.

(** The packet with its checksum cleared, as handle_ipv4 goes on with it. *)
Definition cleared (pkt : list Z) : list Z := splice pkt ip_sum (be_enc 2 0).

Lemma cleared_length pkt : (IPHDR <= length pkt)%nat -> length (cleared pkt) = length pkt.
Proof. intros. unfold cleared. plen. Qed.

Lemma rd_cleared n pkt i : (IPHDR <= length pkt)%nat -> (i + n <= 10 \/ 12 <= i)%nat -> rd n (cleared pkt) i = rd n pkt i.
Proof. intros. unfold cleared. rewrite rd_splice_ne by plen. done. Qed.

Lemma key_cleared pkt : (IPHDR <= length pkt)%nat -> fragment_key (cleared pkt) = fragment_key pkt.
Proof. intros. unfold fragment_key. by rewrite !rd_cleared by (offsets; lia). Qed.

Lemma part_lookup r key pkt o n more data i :
  part_of r key pkt o n more data -> (i < n)%nat -> pkt !! (IPHDR + i)%nat = data !! (8 * o + i)%nat.
Proof.
  intros [_ Hf _ _ _ _ _ _ Hd Hin] Hi. rewrite rd_bytes_spec in Hd by done. injection Hd as Hd.
  pose proof (f_equal (fun l => l !! i) Hd) as E. cbn in E. by rewrite !lookup_take_lt, !lookup_drop in E by lia.
Qed.

Lemma key_ext pkt pkt' : length pkt = length pkt' ->
  (forall i, (i < IPHDR)%nat -> ~ (2 <= i < 4)%nat -> ~ (10 <= i < 12)%nat -> pkt !! i = pkt' !! i) -> fragment_key pkt = fragment_key pkt'.
Proof.
  intros Hl H. unfold fragment_key. offsets. rewrite !(rd_ext _ pkt pkt') by (done || (intros; apply H; lia)). done.
Qed.

(** fragment_key does not look further than the header. *)
Lemma key_take n pkt : (IPHDR <= n)%nat -> (n <= length pkt)%nat -> fragment_key (take n pkt) = fragment_key pkt.
Proof.
  intros Hn Hl. unfold fragment_key, rd. offsets. rewrite length_take, Nat.min_l by lia.
  rewrite !decide_True by lia. rewrite !skipn_firstn_comm, !take_take, !Nat.min_l by lia. done.
Qed.

Lemma key_app pkt post : (IPHDR <= length pkt)%nat -> fragment_key (pkt ++ post) = fragment_key pkt.
Proof.
  intros Hl. rewrite <- (key_take (length pkt) (pkt ++ post)) by (rewrite ?length_app; lia). by rewrite take_app_length.
Qed.

Section receive.
Context {U : Type}.
(** The Ethernet header in front of the packets. *)
Context (hdr : list Z) (Hhdr : length hdr = ETHHDR).
Implicit Type st : net U.

(** A packet in ether_packet. *)
Definition with_packet st (pkt : list Z) : net U := with_ether st (hdr ++ pkt).
Abbreviation here := (EtherPacket, ETHHDR).

Lemma here_packet st pkt : packet_at (with_packet st pkt) here = pkt.
Proof using Type*. unfold packet_at. cbn. by rewrite drop_app_length'. Qed.

Lemma here_store st pkt i bs :
  (i + length bs <= length pkt)%nat -> store (with_packet st pkt) (padd here i) bs = Ok (with_packet st (splice pkt i bs)).
Proof using Type*.
  intros H. unfold store. cbn [padd fst snd array_of with_packet with_ether ether_packet].
  rewrite <- Hhdr, wr_bytes_spec by (rewrite length_app; lia). res_simpl.
  unfold with_packet. do 2 f_equal. unfold splice. rewrite take_app_add, <- app_assoc, <- Nat.add_assoc, drop_app_add. done.
Qed.

Lemma heap_store st o bs :
  (o + length bs <= length (ip_heap st))%nat -> store st (IpHeap, o) bs = Ok (with_heap st (splice (ip_heap st) o bs)).
Proof. intros H. unfold store. cbn. by rewrite wr_bytes_spec. Qed.

Context (send : list Z -> Z)
  (handle_dhcp handle_dns handle_dhcpv6 handle_tftp :
     nat -> (net U -> res (Z * net U)) -> net U -> ptr -> Z -> res (Z * net U))
  (handle_tftp_dun : net U -> Z -> net U) (fuel : nat) (rx : net U -> res (Z * net U)).

Abbreviation ipv4_in := (handle_ipv4 send handle_dhcp handle_dns handle_dhcpv6 handle_tftp handle_tftp_dun fuel rx).
Abbreviation proto_in := (handle_proto send handle_dhcp handle_dns handle_dhcpv6 handle_tftp handle_tftp_dun fuel rx).

(** A whole packet with a valid header goes to the protocol above. *)
Lemma whole_packet st pkt size dst :
  Z.of_nat IPHDR <= size -> (IPHDR <= length pkt)%nat -> rd 4 pkt ip_dst = Ok dst -> not_for_us (rt st) dst = false ->
  header_accepted pkt -> rd 2 pkt ip_off = Ok 0 ->
  ipv4_in (with_packet st pkt) here size = proto_in (with_packet st (cleared pkt)) here.
Proof using Type*.
  intros Hs Hl Hd Hn (sum & H1 & H2) Ho. unfold handle_ipv4.
  destruct (Z.ltb_spec size (Z.of_nat IPHDR)); [lia|]. rewrite here_packet, Hd. res_simpl. cbn [rt with_packet with_ether].
  rewrite Hn, H1. res_simpl. rewrite here_store by (rewrite be_enc_length; offsets; lia). res_simpl. rewrite here_packet, H2. res_simpl. rewrite Z.eqb_refl. cbn [negb].
  fold (cleared pkt). rewrite !rd_cleared by (offsets; lia). rewrite Ho. res_simpl.
  rewrite (rd_spec 2 pkt ip_len) by plen. done.
Qed.

Lemma part_common st key pkt o n more data size :
  part_of (rt st) key pkt o n more data -> Z.of_nat IPHDR <= size ->
  ipv4_in (with_packet st pkt) here size =
  (let pkt := cleared pkt in let st' := with_packet st pkt in
   let off := Z.of_nat o + if more then 0x2000 else 0 in let len := Z.of_nat (IPHDR + n) in
   if Z.of_nat o =? 0 then
     if more then bs ← rd_bytes (Z.to_nat len) pkt 0; st ← store st' (IpHeap, O) bs; Ok (0, st) else proto_in st' here
   else
     first ← fragment_key (ip_heap st);
     if negb (bool_decide (first = key)) then Ok (0, st') else
     bs ← rd_bytes (Z.to_nat (u64 (len - Z.of_nat IPHDR))) pkt IPHDR;
     st ← store st' (IpHeap, (IPHDR + Z.to_nat (Z.of_nat o * 8))%nat) bs;
     if more then Ok (0, st) else
     st ← store st (IpHeap, ip_len) (be_enc 2 (len + Z.of_nat o * 8));
     proto_in st (IpHeap, O)).
Proof using Type*.
  intros [Hb Hf (dst & Hd & Hn) (sum & H1 & H2) Hk Hoff Hlen Ho Hda Hin] Hs. unfold handle_ipv4.
  destruct (Z.ltb_spec size (Z.of_nat IPHDR)); [lia|]. rewrite here_packet, Hd. res_simpl. cbn [rt with_packet with_ether].
  rewrite Hn, H1. res_simpl. rewrite here_store by (rewrite be_enc_length; offsets; lia). res_simpl. rewrite here_packet, H2. res_simpl. rewrite Z.eqb_refl. cbn [negb].
  fold (cleared pkt). assert (IPHDR <= length pkt)%nat by lia.
  rewrite !rd_cleared by (offsets; lia). rewrite Hoff, Hlen. res_simpl.
  destruct (land_mf o more Ho) as [-> ->]. rewrite key_cleared, Hk by done. done.
Qed.

(** What is in ip_heap: the header of the packet, and the data at the places [S]. *)
Record holding (heap : list Z) (key : Z * Z * Z * Z) (data : list Z) (S : nat -> Prop) : Prop := {
  h_length : 65536 <= Z.of_nat (length heap);
  h_key : fragment_key heap = Ok key;
  h_data : forall i, S i -> (i < length data)%nat -> heap !! (IPHDR + i)%nat = data !! i;
}.

Lemma part_first st key pkt n data size S :
  part_of (rt st) key pkt 0 n true data -> Z.of_nat IPHDR <= size -> (IPHDR + n <= length (ip_heap st))%nat ->
  65536 <= Z.of_nat (length (ip_heap st)) -> (forall i, S i -> (i < length data)%nat -> ~ (i < n)%nat -> ip_heap st !! (IPHDR + i)%nat = data !! i) ->
  exists h, ipv4_in (with_packet st pkt) here size = Ok (0, with_heap (with_packet st (cleared pkt)) h) /\
    length h = length (ip_heap st) /\ holding h key data (fun i => S i \/ (i < n)%nat).
Proof using Type*.
  intros Hp Hs Hh Hl HS. rewrite (part_common _ _ _ _ _ _ _ _ Hp Hs). cbv zeta.
  assert (Hlen : (IPHDR + n <= length (cleared pkt))%nat) by (rewrite cleared_length; destruct Hp; lia).
  cbn [Z.of_nat Z.eqb]. rewrite Nat2Z.id, rd_bytes_spec by done. res_simpl. rewrite drop_0.
  set (bs := take (IPHDR + n) (cleared pkt)).
  assert (Hbs : length bs = (IPHDR + n)%nat) by (subst bs; rewrite length_take; lia).
  rewrite heap_store by (cbn [ip_heap with_packet with_ether]; lia). res_simpl. eexists. split; [done|].
  assert (Hsl : length (splice (ip_heap st) 0 bs) = length (ip_heap st)) by (apply splice_length; lia).
  split; [done|]. cbn [ip_heap with_packet with_ether]. split.
  - lia.
  - unfold splice. rewrite take_0, app_nil_l, key_app by (rewrite Hbs; offsets; lia).
    subst bs. rewrite key_take, key_cleared by (destruct Hp; lia). apply Hp.
  - intros i Hi Hid. rewrite splice_lookup by lia. rewrite Hbs. destruct (decide (i < n)%nat).
    + rewrite decide_True by (offsets; lia). subst bs. rewrite lookup_take_lt by (offsets; lia).
      unfold cleared. rewrite splice_lookup by (destruct Hp; plen).
      rewrite decide_False by (offsets; rewrite be_enc_length; lia). rewrite Nat.sub_0_r.
      rewrite (part_lookup _ _ _ _ _ _ _ _ Hp) by done. f_equal.
    + rewrite decide_False by (offsets; lia). apply HS; [tauto | done | done].
Qed.

Lemma part_next st key pkt o n more data size S :
  part_of (rt st) key pkt o n more data -> Z.of_nat IPHDR <= size -> holding (ip_heap st) key data S -> (0 < o)%nat ->
  Z.of_nat (length data) <= 65515 ->
  exists h, length h = length (ip_heap st) /\
    holding h key data (fun i => S i \/ (8 * o <= i < 8 * o + n)%nat) /\
    let st' := with_heap (with_packet st (cleared pkt)) h in
    ipv4_in (with_packet st pkt) here size =
      if more then Ok (0, st')
      else st ← store st' (IpHeap, ip_len) (be_enc 2 (Z.of_nat (IPHDR + 8 * o + n))); proto_in st (IpHeap, O).
Proof using Type*.
  intros Hp Hs [Hl Hk Hd] Ho Hdl. rewrite (part_common _ _ _ _ _ _ _ _ Hp Hs). cbv zeta.
  assert (Hlen : (IPHDR + n <= length (cleared pkt))%nat) by (rewrite cleared_length; destruct Hp; lia).
  assert (Hin : (8 * o + n <= length data)%nat) by apply Hp.
  destruct (Z.eqb_spec (Z.of_nat o) 0); [lia|]. rewrite Hk. res_simpl. rewrite bool_decide_true by done. cbn [negb].
  replace (Z.to_nat (u64 (Z.of_nat (IPHDR + n) - Z.of_nat IPHDR))) with n by (rewrite u64_small by lia; lia).
  rewrite rd_bytes_spec by done. res_simpl. set (bs := take n (drop IPHDR (cleared pkt))).
  assert (Hbs : length bs = n) by (subst bs; rewrite length_take, length_drop; lia).
  replace (Z.to_nat (Z.of_nat o * 8)) with (8 * o)%nat by lia.
  assert (Hroom : (IPHDR + 8 * o + n <= length (ip_heap st))%nat) by (offsets; lia).
  rewrite heap_store by (cbn [ip_heap with_packet with_ether]; lia). res_simpl. cbn [ip_heap with_packet with_ether].
  set (h := splice (ip_heap st) (IPHDR + 8 * o) bs).
  assert (Hhl : length h = length (ip_heap st)) by (subst h; apply splice_length; lia).
  exists h. split; [done|]. split; [split|].
  - lia.
  - rewrite <- Hk. apply key_ext; [done|]. intros i Hi _ _. subst h. rewrite splice_lookup by lia.
    by rewrite decide_False by lia.
  - intros i Hi Hid. subst h. rewrite splice_lookup by lia. rewrite Hbs.
    destruct (decide (8 * o <= i < 8 * o + n)%nat).
    + rewrite decide_True by (offsets; lia). subst bs. rewrite lookup_take_lt, lookup_drop by (offsets; lia).
      unfold cleared. rewrite splice_lookup by (destruct Hp; plen).
      rewrite decide_False by (offsets; rewrite be_enc_length; lia).
      replace (IPHDR + (IPHDR + i - (IPHDR + 8 * o)))%nat with (IPHDR + (i - 8 * o))%nat by lia.
      rewrite (part_lookup _ _ _ _ _ _ _ _ Hp) by lia. f_equal. lia.
    + rewrite decide_False by (offsets; lia). apply Hd; [tauto | done].
  - destruct more; [done|]. by replace (Z.of_nat (IPHDR + n) + Z.of_nat o * 8) with (Z.of_nat (IPHDR + 8 * o + n)) by lia.
Qed.

(** Packets one after the other, the results dropped. *)
Fixpoint receive_all (pkts : list (list Z * Z)) (st : net U) : res (net U) :=
  match pkts with
  | [] => Ok st
  | (pkt, size) :: pkts' => '(_, st) ← ipv4_in (with_packet st pkt) here size; receive_all pkts' st
  end.

(** A fragment that comes in before the last: bytes, size, offset and length. *)
Definition middle (r : routes) (key : Z * Z * Z * Z) (data : list Z) (f : list Z * Z * nat * nat) : Prop :=
  let '(pkt, size, o, n) := f in part_of r key pkt o n true data /\ Z.of_nat IPHDR <= size.

Definition covers (fs : list (list Z * Z * nat * nat)) (i : nat) : Prop :=
  Exists (fun '(_, _, o, n) => (8 * o <= i < 8 * o + n)%nat) fs.

Lemma middles_spec st key data fs S :
  holding (ip_heap st) key data S -> Z.of_nat (length data) <= 65515 -> Forall (middle (rt st) key data) fs ->
  exists h b, receive_all ((fun f => f.1.1) <$> fs) st = Ok (with_ether (with_heap st h) b) /\
    length h = length (ip_heap st) /\ holding h key data (fun i => S i \/ covers fs i).
Proof using Type*.
  revert st S. induction fs as [|[[[pkt size] o] n] fs IH]; intros st S H Hdl Hfs.
  { exists (ip_heap st), (ether_packet st). cbn. split; [by destruct st|]. split; [done|]. destruct H. split; try done.
    intros i [Hi|Hi] ?; [auto | by apply Exists_nil in Hi]. }
  apply Forall_cons_1 in Hfs as [[Hp Hs] Hfs']. cbn [fmap list_fmap fst receive_all].
  assert (exists h, ipv4_in (with_packet st pkt) here size = Ok (0, with_heap (with_packet st (cleared pkt)) h) /\
    length h = length (ip_heap st) /\ holding h key data (fun i => S i \/ (8 * o <= i < 8 * o + n)%nat)) as (h & -> & Hhl & Hh).
  { destruct (decide (o = O)) as [->|Ho].
    - destruct (part_first st key pkt n data size S Hp Hs) as (h & E & Hl & Hh).
      + destruct Hp, H. offsets. lia.
      + apply H.
      + intros i Hi Hid _. by apply H.
      + exists h. split; [exact E|]. split; [done|]. destruct Hh. split; try done.
        intros i [Hi|Hi] ?; [auto | apply h_data0; [right; lia | done]].
    - destruct (part_next st key pkt o n true data size S Hp Hs H ltac:(lia) Hdl) as (h & Hl & Hh & E). by exists h. }
  res_simpl. destruct (IH (with_heap (with_packet st (cleared pkt)) h) _ Hh Hdl Hfs') as (h' & b & -> & Hl' & Hh').
  exists h', b. split; [done|]. split; [cbn in *; lia|].
  destruct Hh'. split; try done. intros i Hi Hid. apply h_data0; [|done].
  destruct Hi as [Hi|Hi]; [tauto|]. apply Exists_cons in Hi as [Hi|Hi]; tauto.
Qed.

(** handle_ipv4 keeps no account of the fragments it has: when the last fragment
    comes, the protocol above gets the packet, whatever part [S] of the data has
    come by then. *)
Lemma last_fragment_delivers st key last o n data size S :
  part_of (rt st) key last o n false data -> Z.of_nat IPHDR <= size -> holding (ip_heap st) key data S -> (0 < o)%nat ->
  Z.of_nat (length data) <= 65515 ->
  exists h, ipv4_in (with_packet st last) here size = proto_in (with_heap (with_packet st (cleared last)) h) (IpHeap, O) /\
    forall i, (IPHDR <= i)%nat -> ~ (IPHDR + 8 * o <= i < IPHDR + 8 * o + n)%nat -> h !! i = ip_heap st !! i.
Proof using Type*.
  intros Hp Hs H Ho Hdl. rewrite (part_common _ _ _ _ _ _ _ _ Hp Hs). cbv zeta.
  assert (Hlen : (IPHDR + n <= length (cleared last))%nat) by (rewrite cleared_length; destruct Hp; lia).
  assert (Hin : (8 * o + n <= length data)%nat) by apply Hp. destruct H as [Hl Hk _].
  destruct (Z.eqb_spec (Z.of_nat o) 0); [lia|]. rewrite Hk. res_simpl. rewrite bool_decide_true by done. cbn [negb].
  replace (Z.to_nat (u64 (Z.of_nat (IPHDR + n) - Z.of_nat IPHDR))) with n by (rewrite u64_small by lia; lia).
  rewrite rd_bytes_spec by done. res_simpl. replace (Z.to_nat (Z.of_nat o * 8)) with (8 * o)%nat by lia.
  assert (Hbs : length (take n (drop IPHDR (cleared last))) = n) by (rewrite length_take, length_drop; lia).
  rewrite heap_store by (rewrite Hbs; cbn [ip_heap with_packet with_ether]; offsets; lia). res_simpl. cbn [ip_heap with_packet with_ether with_heap].
  assert (Hroom : (IPHDR + 8 * o + n <= length (ip_heap st))%nat) by (offsets; lia).
  rewrite heap_store by (cbn [ip_heap with_packet with_ether with_heap]; rewrite be_enc_length, splice_length by (rewrite Hbs; lia); offsets; lia).
  res_simpl. eexists. split; [done|]. cbn [ip_heap with_packet with_ether with_heap]. intros i Hi Hni.
  rewrite splice_lookup by (rewrite be_enc_length, splice_length by (rewrite Hbs; lia); offsets; lia).
  rewrite decide_False by (rewrite be_enc_length; offsets; lia).
  rewrite splice_lookup by (rewrite Hbs; lia). by rewrite Hbs, decide_False by done.
Qed.

(** A fragment that comes before the first one of its packet is lost. *)
Lemma fragment_without_first st key pkt o n more data size other :
  part_of (rt st) key pkt o n more data -> Z.of_nat IPHDR <= size -> (0 < o)%nat ->
  fragment_key (ip_heap st) = Ok other -> other <> key ->
  ipv4_in (with_packet st pkt) here size = Ok (0, with_packet st (cleared pkt)).
Proof using Type*.
  intros Hp Hs Ho Hk Hne. rewrite (part_common _ _ _ _ _ _ _ _ Hp Hs). cbv zeta.
  destruct (Z.eqb_spec (Z.of_nat o) 0); [lia|]. cbn [ip_heap with_packet with_ether]. rewrite Hk. res_simpl.
  by rewrite bool_decide_false.
Qed.

(** C9: handle_ipv4 puts together a packet whose first fragment comes first and
    whose last fragment comes after all the others.  The fragments between come
    in any order, also more than once or overlapping; each is kept without an
    answer, and with the last one the protocol above gets the whole packet, with
    the header of the first fragment and the length of the whole.  The code
    needs this order: a fragment before the first one is lost
    (fragment_without_first) and a last fragment that comes early delivers an
    incomplete packet (last_fragment_delivers). *)
Theorem reassembly_correct st key data first n0 size0 fs last o n size :
  part_of (rt st) key first 0 n0 true data -> Z.of_nat IPHDR <= size0 ->
  Forall (middle (rt st) key data) fs ->
  part_of (rt st) key last o n false data -> (0 < o)%nat -> Z.of_nat IPHDR <= size ->
  (8 * o + n)%nat = length data -> (forall i, (i < 8 * o)%nat -> (i < n0)%nat \/ covers fs i) ->
  65536 <= Z.of_nat (length (ip_heap st)) -> Z.of_nat (length data) <= 65515 ->
  exists h,
    (st ← receive_all ((first, size0) :: ((fun f => f.1.1) <$> fs)) st; ipv4_in (with_packet st last) here size) =
      proto_in (with_heap (with_packet st (cleared last)) h) (IpHeap, O) /\
    fragment_key h = Ok key /\ rd 2 h ip_len = Ok (Z.of_nat (IPHDR + length data)) /\
    rd_bytes (length data) h IPHDR = Ok data.
Proof using Type*.
  intros Hf Hs0 Hfs Hla Ho Hs Hend Hcov Hheap Hdl.
  destruct (part_first st key first n0 data size0 (fun _ => False) Hf Hs0) as (h1 & E1 & Hl1 & H1); try done.
  { destruct Hf. offsets. lia. }
  cbn [receive_all]. rewrite E1. res_simpl.
  destruct (middles_spec (with_heap (with_packet st (cleared first)) h1) key data fs _ H1 Hdl Hfs) as (h2 & b2 & -> & Hl2 & H2).
  res_simpl. cbn [ip_heap with_heap] in Hl2. set (st2 := with_ether _ b2).
  destruct (part_next st2 key last o n false data size _ Hla Hs H2 Ho Hdl) as (h3 & Hl3 & [_ K3 D3] & E3).
  cbv zeta in E3. rewrite E3. cbn [ip_heap with_heap with_ether st2] in Hl3.
  rewrite heap_store by (cbn [ip_heap with_heap]; rewrite be_enc_length; offsets; lia). res_simpl. cbn [ip_heap with_heap].
  set (h := splice h3 ip_len _). exists h. split; [done|]. split_and!.
  - rewrite <- K3. apply key_ext; [subst h; plen|]. intros i Hi Hne _. subst h.
    rewrite splice_lookup by plen. by rewrite decide_False by (offsets; rewrite be_enc_length; lia).
  - subst h. rewrite rd_splice_same by plen. f_equal. change (256 ^ Z.of_nat 2) with 65536. rewrite Z.mod_small; offsets; lia.
  - assert (Hhl : length h = length h3) by (subst h; plen).
    rewrite rd_bytes_spec by (offsets; lia). f_equal. apply list_eq. intros i.
    destruct (decide (i < length data)%nat).
    + rewrite lookup_take_lt, lookup_drop by lia. subst h. rewrite splice_lookup by plen.
      rewrite decide_False by (offsets; rewrite be_enc_length; lia). apply D3; [|done].
      destruct (decide (i < 8 * o)%nat); [|lia]. destruct (Hcov i) as [?|?]; tauto || lia.
    + rewrite lookup_take_ge by lia. symmetry. apply lookup_ge_None. lia.
Qed.

(** C12: the headers send_ipv4 completes.  The words of the IP header add up to
    a multiple of 65535 (RFC 1071); the UDP checksum is the one of RFC 768 for a
    datagram of even length, and for one of odd length when the byte behind it
    in the array is 0 (the code sums this byte up too, so that the checksum is
    wrong when it is not: odd_udp_checksum below); only the addresses and the
    checksums change, and the handle_ipv4 of a receiver the packet is for
    accepts it and gives it to the protocol above. *)
Theorem sent_headers_valid r buffer src dst proto :
  routes_ok r -> sendable buffer src dst proto ->
  exists pkt, patch_headers r buffer = Ok pkt /\
    word_sum (take 20 pkt) mod 65535 = 0 /\
    rd 4 pkt ip_src = Ok (sent_src r src) /\ rd 4 pkt ip_dst = Ok (sent_dst r src dst) /\
    (forall ulen, proto = IPTYPE_UDP -> rd 2 buffer (IPHDR + uh_ulen) = Ok ulen ->
       (Z.odd ulen = true -> buffer !! (IPHDR + Z.to_nat ulen)%nat = Some 0) ->
       udp_valid pkt (sent_src r src) (sent_dst r src dst) ulen) /\
    (forall i, ~ (10 <= i < 20)%nat -> ~ (proto = IPTYPE_UDP /\ 26 <= i < 28)%nat -> pkt !! i = buffer !! i) /\
    (forall st size, rd 2 buffer ip_off = Ok 0 -> Z.of_nat IPHDR <= size ->
       not_for_us (rt st) (sent_dst r src dst) = false ->
       ipv4_in (with_packet st pkt) here size = proto_in (with_packet st (cleared pkt)) here).
Proof using Type*.
  intros Hr Hs. destruct (patch_headers_spec r buffer src dst proto Hr Hs) as (pkt & E & [Hb Hl Hsr Hds Hsum Hacc Hudp Hrest]).
  destruct Hs as (_ & _ & Hd & _ & Hu). destruct (rd_inv _ _ _ _ Hd) as [Hl' _]. change ip_dst with 16%nat in Hl'.
  exists pkt. split; [done|]. split_and!; try done.
  { intros ulen Hp Hul Hz. destruct (Hu Hp) as (ulen' & Hul' & Hmin & Hlen).
    assert (ulen' = ulen) as -> by congruence.
    apply udp_summed_valid; [lia | by rewrite Hl | | by apply Hudp].
    intros Ho. rewrite Hrest by (offsets; lia). by apply Hz. }
  intros st size Hoff Hsz Hn.
  apply whole_packet with (dst := sent_dst r src dst); try done.
  - rewrite Hl. offsets. lia.
  - rewrite <- Hoff. apply rd_ext; [done|]. offsets. intros i Hi. apply Hrest; lia.
Qed.
End receive.

(** ** Concrete packets *)

Definition demo_routes : routes := Routes 0x0A000001 0 null_mac_addr 0x0A0000FE 0xFFFFFF00.
Definition demo_net : net unit :=
  Net [2; 0; 0; 0; 0; 1] demo_routes
    (Arp 0 0 (replicate ARP_ENTRIES (ArpEntry 0 null_mac_addr (replicate ETH_MTU_SIZE 0) 0 0)) (replicate ETH_MTU_SIZE 0) 0)
    0 IPv4 (replicate ETH_MTU_SIZE 0) (replicate (Z.to_nat 65536) 0) (Device [] (Timer 0 0 []) []) ().
Definition demo_hdr : list Z := [2; 0; 0; 0; 0; 1; 2; 0; 0; 0; 0; 2; 8; 0].
Definition demo_handler (fuel : nat) (rx : net unit -> res (Z * net unit)) (st : net unit) (packet : ptr) (size : Z) : res (Z * net unit) :=
  Ok (0, st).
Definition demo_send (frame : list Z) : Z := Z.of_nat (length frame).

(** A UDP datagram of four bytes for 10.0.0.2, without addresses and checksums. *)
Definition demo_udp : list Z :=
  [0x45; 0; 0; 32; 0; 0; 0; 0; 255; 17; 0; 0] ++ be_enc 4 0 ++ be_enc 4 0x0A000002 ++ [7; 209; 0; 69; 0; 12; 0; 0; 1; 2; 3; 4].

Lemma demo_routes_ok : routes_ok demo_routes.
Proof. split; vm_compute; (split; [discriminate | reflexivity]). Defined.

Lemma demo_udp_sendable : sendable demo_udp 0 0x0A000002 IPTYPE_UDP.
Proof.
  split; [apply (bool_decide_eq_true_1 (Forall byte demo_udp)); reflexivity|]. split_and!; [reflexivity.. |].
  intros _. exists 12. split_and!; [reflexivity | lia | vm_compute; lia].
Defined.

(** Witness: the headers of the datagram. *)
Lemma sent_headers_valid_witness :
  exists pkt, patch_headers demo_routes demo_udp = Ok pkt /\ word_sum (take 20 pkt) mod 65535 = 0 /\
    rd 4 pkt ip_src = Ok 0x0A000001 /\ udp_valid pkt 0x0A000001 0x0A000002 12.
Proof.
  destruct (sent_headers_valid demo_hdr eq_refl demo_send demo_handler demo_handler demo_handler demo_handler (fun st _ => st) 1 (fun st => Ok (0, st))
              demo_routes demo_udp 0 0x0A000002 IPTYPE_UDP demo_routes_ok demo_udp_sendable) as (pkt & E & S & A & _ & V & _).
  exists pkt. split; [exact E|]. split; [exact S|]. split; [exact A|].
  exact (V 12 eq_refl eq_refl (fun o => match Bool.diff_false_true o with end)).
Defined.

(** A UDP datagram of one byte, with [b] behind it in the array: the checksum
    sent is the one of RFC 768 only when [b] is 0. *)
Definition demo_odd_udp (b : Z) : list Z :=
  [0x45; 0; 0; 29; 0; 0; 0; 0; 255; 17; 0; 0] ++ be_enc 4 0 ++ be_enc 4 0x0A000002 ++ [7; 209; 0; 69; 0; 9; 0; 0; 1; b].

Definition demo_odd_sum (b : Z) : res Z :=
  pkt ← patch_headers demo_routes (demo_odd_udp b);
  Ok ((word_sum (pseudo_header 0x0A000001 0x0A000002 IPTYPE_UDP 9) + word_sum (take 9 (drop IPHDR pkt))) mod 65535).

Example odd_udp_checksum : demo_odd_sum 0 = Ok 0 /\ demo_odd_sum 5 = Ok 65530.
Proof. vm_compute. done. Qed.

(** A part of a packet of 24 bytes from 10.0.0.2. *)
Definition demo_data : list Z := Z.of_nat <$> seq 0 24.
Definition demo_fragment (o n : nat) (more : bool) : list Z :=
  let pkt := [0x45; 0] ++ be_enc 2 (Z.of_nat (IPHDR + n)) ++ [0; 7] ++ be_enc 2 (Z.of_nat o + if more then 0x2000 else 0) ++
    [255; 17; 0; 0] ++ be_enc 4 0x0A000002 ++ be_enc 4 0x0A000001 ++ take n (drop (8 * o) demo_data) in
  match sum ← checksum pkt 0 10; wr 2 pkt ip_sum sum with Ok pkt => pkt | _ => [] end.
Definition demo_key : Z * Z * Z * Z := (7, 17, 0x0A000002, 0x0A000001).

Ltac part_eval :=
  match goal with |- part_of _ _ ?p _ _ _ _ =>
    split;
    [ apply (bool_decide_eq_true_1 (Forall byte p)); vm_compute; reflexivity
    | vm_compute; lia
    | exists 0x0A000001; split; vm_compute; reflexivity
    | eexists; split; vm_compute; reflexivity
    | vm_compute; reflexivity .. | vm_compute; lia ]
  end.

Lemma demo_first : part_of demo_routes demo_key (demo_fragment 0 8 true) 0 8 true demo_data.
Proof. part_eval. Defined.
Lemma demo_middle : part_of demo_routes demo_key (demo_fragment 1 8 true) 1 8 true demo_data.
Proof. part_eval. Defined.
Lemma demo_last : part_of demo_routes demo_key (demo_fragment 2 8 false) 2 8 false demo_data.
Proof. part_eval. Defined.

(** Witness: the middle fragment comes twice. *)
Lemma reassembly_correct_witness :
  let ipv4_in := handle_ipv4 demo_send demo_handler demo_handler demo_handler demo_handler (fun st _ => st) 1 (fun st => Ok (0, st)) in
  let proto_in := handle_proto demo_send demo_handler demo_handler demo_handler demo_handler (fun st _ => st) 1 (fun st => Ok (0, st)) in
  let last := demo_fragment 2 8 false in
  exists h,
    (st ← receive_all demo_hdr demo_send demo_handler demo_handler demo_handler demo_handler (fun st _ => st) 1 (fun st => Ok (0, st))
       [(demo_fragment 0 8 true, 28); (demo_fragment 1 8 true, 28); (demo_fragment 1 8 true, 28)] demo_net;
     ipv4_in (with_packet demo_hdr st last) (EtherPacket, ETHHDR) 28) =
    proto_in (with_heap (with_packet demo_hdr demo_net (cleared last)) h) (IpHeap, O) /\
    rd_bytes 24 h IPHDR = Ok demo_data.
Proof.
  assert (Hm : middle demo_routes demo_key demo_data (demo_fragment 1 8 true, 28, 1%nat, 8%nat)) by (split; [exact demo_middle | vm_compute; discriminate]).
  destruct (reassembly_correct demo_hdr eq_refl demo_send demo_handler demo_handler demo_handler demo_handler (fun st _ => st) 1 (fun st => Ok (0, st))
    demo_net demo_key demo_data (demo_fragment 0 8 true) 8 28
    [(demo_fragment 1 8 true, 28, 1%nat, 8%nat); (demo_fragment 1 8 true, 28, 1%nat, 8%nat)] (demo_fragment 2 8 false) 2 8 28
    demo_first ltac:(vm_compute; discriminate) (Forall_cons_2 _ _ _ Hm (Forall_cons_2 _ _ _ Hm (Forall_nil_2 _)))
    demo_last ltac:(lia) ltac:(vm_compute; discriminate) eq_refl) as (h & E & _ & _ & D).
  - intros i Hi. destruct (decide (i < 8)%nat); [by left|]. right. left. cbn. lia.
  - cbn [ip_heap demo_net]. rewrite length_replicate, Z2Nat.id; lia.
  - vm_compute. discriminate.
  - exists h. split; [exact E | exact D].
Defined.
