(* ===== verification/Arp.v ===== *)
(** * lib/libnet/ipv4.c: how addresses are resolved

    The ring of the ARP table, what lookup_mac_addr finds in it, the frames of the
    ARP messages, and the exchange by which a packet for an unknown address gets
    sent.  The definitions of the code are in Ipv4.v. *)

From Stdlib Require Import ZArith Lia ZifyNat.
From stdpp Require Import base list gmap option numbers.
From S2P Require Import Prelude Packet Timer Ipv4.

(** ** Resolving an address *)

Lemma list6 (l : list Z) : length l = 6%nat -> exists a b c d e f, l = [a; b; c; d; e; f].
Proof. destruct l as [|a [|b [|c [|d [|e [|f [|]]]]]]]; intros [=]. eauto 10. Qed.

(** Writing at the place of [old] in [pre ++ old ++ post]. *)
Lemma wr_bytes_app pre old post x :
  length x = length old -> wr_bytes (pre ++ old ++ post) (length pre) x = Ok (pre ++ x ++ post).
Proof.
  intros H. rewrite wr_bytes_spec by (rewrite !length_app; lia). f_equal. by apply splice_app.
Qed.

Lemma split_at (l : list Z) n : (n <= length l)%nat -> exists a b, l = a ++ b /\ length a = n.
Proof. intros H. exists (take n l), (drop n l). rewrite take_drop, length_take. split; [done | lia]. Qed.

Lemma fill_ethhdr_spec old rest type src dst :
  length old = 14%nat -> length src = 6%nat -> length dst = 6%nat ->
  fill_ethhdr (old ++ rest) 0 type src dst = Ok (dst ++ src ++ be_enc 2 type ++ rest).
Proof.
  intros Ho Hs Hd. unfold fill_ethhdr. offsets.
  destruct (split_at old 6) as (o1 & o' & -> & H1); [lia|]. rewrite length_app in Ho.
  destruct (split_at o' 6) as (o2 & o3 & -> & H2); [lia|]. rewrite length_app in Ho.
  unfold wr. rewrite <- !app_assoc. change (0 + 12)%nat with (6 + 6)%nat. change (0 + 6)%nat with 6%nat.
  pose proof (wr_bytes_app (o1 ++ o2) o3 rest (be_enc 2 type)) as W. rewrite length_app, H1, H2, <- !app_assoc in W.
  rewrite W by (rewrite be_enc_length; lia). res_simpl.
  pose proof (wr_bytes_app o1 o2 (be_enc 2 type ++ rest) src) as W2. rewrite H1 in W2. rewrite W2 by lia. res_simpl.
  exact (wr_bytes_app [] o1 _ dst ltac:(lia)).
Qed.

(** An ARP message in its frame. *)
Definition arp_message (opcode : Z) (src_mac : list Z) (src_ip : Z) (dest_mac : list Z) (dest_ip : Z) : list Z :=
  be_enc 2 1 ++ be_enc 2 ETHERTYPE_IP ++ [6; 4] ++ be_enc 2 opcode ++ src_mac ++ be_enc 4 src_ip ++ dest_mac ++ be_enc 4 dest_ip.
Definition arp_frame (opcode : Z) (src_mac : list Z) (src_ip : Z) (dest_mac : list Z) (dest_ip : Z) : list Z :=
  dest_mac ++ src_mac ++ be_enc 2 ETHERTYPE_ARP ++ arp_message opcode src_mac src_ip dest_mac dest_ip.

Lemma be_enc4 v : exists a b c d, be_enc 4 v = [a; b; c; d].
Proof. cbn. eauto. Qed.
Lemma be_enc2 v : exists a b, be_enc 2 v = [a; b].
Proof. cbn. eauto. Qed.

Lemma wr_in pre l rest i x :
  (i + length x <= length l)%nat -> wr_bytes (pre ++ l ++ rest) (length pre + i) x = Ok (pre ++ splice l i x ++ rest).
Proof.
  intros H. rewrite wr_bytes_spec by (rewrite !length_app; lia). f_equal.
  destruct (split_at l i) as (l1 & l' & -> & H1); [lia|]. rewrite length_app in H.
  destruct (split_at l' (length x)) as (l2 & l3 & -> & H2); [lia|].
  pose proof (splice_app (pre ++ l1) l2 (l3 ++ rest) x ltac:(lia)) as E.
  pose proof (splice_app l1 l2 l3 x ltac:(lia)) as E'.
  rewrite length_app, H1 in E. rewrite H1 in E'. rewrite E', <- !app_assoc. rewrite <- !app_assoc in E. exact E.
Qed.

Lemma fill_arphdr_spec pre old rest opcode src_mac src_ip dest_mac dest_ip :
  length old = 28%nat -> length src_mac = 6%nat -> length dest_mac = 6%nat ->
  fill_arphdr (pre ++ old ++ rest) (length pre) opcode src_mac src_ip dest_mac dest_ip =
  Ok (pre ++ arp_message opcode src_mac src_ip dest_mac dest_ip ++ rest).
Proof.
  intros Ho Hs Hd. unfold fill_arphdr, arp_message, wr. ip_offsets.
  do 8 (rewrite wr_in by plen; res_simpl). rewrite wr_in by plen.
  do 28 (destruct old as [|? old]; [discriminate|]). destruct old; [|discriminate].
  apply list6 in Hs as (?&?&?&?&?&?&->). apply list6 in Hd as (?&?&?&?&?&?&->).
  change (be_enc 1 6) with [6]. change (be_enc 1 4) with [4].
  destruct (be_enc2 1) as (?&?&->), (be_enc2 ETHERTYPE_IP) as (?&?&->), (be_enc2 opcode) as (?&?&->),
    (be_enc4 src_ip) as (?&?&?&?&->), (be_enc4 dest_ip) as (?&?&?&?&->). done.
Qed.

(** What handle_arp reads in a message. *)
Lemma arp_message_reads opcode src_mac src_ip dest_mac dest_ip rest :
  length src_mac = 6%nat -> length dest_mac = 6%nat -> 0 <= opcode < 2 ^ 16 -> 0 <= src_ip < 2 ^ 32 -> 0 <= dest_ip < 2 ^ 32 ->
  let m := arp_message opcode src_mac src_ip dest_mac dest_ip ++ rest in
  rd 2 m arp_hw_type = Ok 1 /\ rd 2 m arp_proto_type = Ok ETHERTYPE_IP /\ rd 2 m arp_opcode = Ok opcode /\
  rd_bytes 6 m arp_src_mac = Ok src_mac /\ rd 4 m arp_src_ip = Ok src_ip /\
  rd_bytes 6 m arp_dest_mac = Ok dest_mac /\ rd 4 m arp_dest_ip = Ok dest_ip.
Proof.
  intros Hs Hd Ho Hsi Hdi. cbv zeta. unfold arp_message. rewrite <- !app_assoc.
  apply list6 in Hs as (s1&s2&s3&s4&s5&s6&->). apply list6 in Hd as (d1&d2&d3&d4&d5&d6&->).
  set (p := be_enc 2 1 ++ be_enc 2 ETHERTYPE_IP ++ [6; 4]). set (s := [s1; s2; s3; s4; s5; s6]). set (d := [d1; d2; d3; d4; d5; d6]).
  split_and!.
  - exact (rd_app 2 [] 1 _ ltac:(done)).
  - exact (rd_app 2 (be_enc 2 1) ETHERTYPE_IP _ ltac:(done)).
  - exact (rd_app 2 p opcode _ Ho).
  - exact (rd_bytes_app (p ++ be_enc 2 opcode) s _).
  - exact (rd_app 4 (p ++ be_enc 2 opcode ++ s) src_ip _ Hsi).
  - exact (rd_bytes_app (p ++ be_enc 2 opcode ++ s ++ be_enc 4 src_ip) d _).
  - exact (rd_app 4 (p ++ be_enc 2 opcode ++ s ++ be_enc 4 src_ip ++ d) dest_ip rest Hdi).
Qed.

(** The ARP table and the arrays as ipv4_init and the handlers leave them. *)
Definition entry_ok (e : arp_entry_t) : Prop :=
  length (mac_addr e) = 6%nat /\ length (eth_frame e) = ETH_MTU_SIZE /\ eth_len e = 0.

Record arp_ok {U} (st : net U) : Prop := {
  a_mac : length (own_mac st) = 6%nat;
  a_consumer : (arp_consumer (arps st) < ARP_ENTRIES)%nat;
  a_producer : (arp_producer (arps st) < ARP_ENTRIES)%nat;
  a_table : length (arp_table (arps st)) = ARP_ENTRIES;
  a_entries : Forall entry_ok (arp_table (arps st));
  a_pending : length (pending_pkt_frame (arps st)) = ETH_MTU_SIZE;
}.

Section arp.
Context {U : Type} (send : list Z -> Z).
Implicit Type st : net U.

Lemma arp_get_spec st i : arp_ok st -> (i < ARP_ENTRIES)%nat -> exists e, arp_get st i = Ok e /\ arp_table (arps st) !! i = Some e /\ entry_ok e.
Proof.
  intros H Hi. destruct (lookup_lt_is_Some_2 (arp_table (arps st)) i) as [e He]; [rewrite (a_table _ H); lia|].
  exists e. unfold arp_get. rewrite He. split; [done|]. split; [done|]. eapply Forall_lookup_1; [apply H | exact He].
Qed.

Lemma arp_set_ok st i e : arp_ok st -> entry_ok e -> arp_ok (arp_set st i e).
Proof.
  intros [] He. split; cbn; try done; [by rewrite length_insert | by apply Forall_insert].
Qed.

(** What sending a frame does. *)
Definition with_sent st (frame : list Z) : net U :=
  with_dev st (Device (rxq (dev st)) (clock (dev st)) (sent (dev st) ++ [frame])).

Lemma with_sent_ok st f : arp_ok st -> arp_ok (with_sent st f).
Proof. by intros []. Qed.

Lemma send_ether_spec st pre rest : send_ether send st (pre ++ rest) (length pre) = Ok (send pre, with_sent st pre).
Proof.
  unfold send_ether. rewrite rd_bytes_spec by (rewrite length_app; lia). rewrite drop_0, take_app_length. done.
Qed.

Lemma arp_send_request_spec st ip :
  arp_ok st ->
  exists e, entry_ok e /\ ipv4_addr <$> <[arp_producer (arps st) := e]> (arp_table (arps st)) = ipv4_addr <$> arp_table (arps st) /\
  arp_send_request send st ip =
    Ok (with_sent (arp_set st (arp_producer (arps st)) e)
          (broadcast_mac ++ own_mac st ++ be_enc 2 ETHERTYPE_ARP ++
           arp_message ARP_REQUEST (own_mac st) (own_ip (rt st)) broadcast_mac ip)).
Proof.
  intros H. destruct (arp_get_spec st _ H (a_producer _ H)) as (e & He & Ht & Hm & Hf & Hlen).
  unfold arp_send_request. rewrite He. res_simpl.
  destruct (split_at (eth_frame e) 42) as (f42 & rest & Ef & Hl); [rewrite Hf; unfold ETH_MTU_SIZE; lia|].
  rewrite Ef. change (ETHHDR + ARPHDR)%nat with 42%nat.
  pose proof (wr_bytes_app [] f42 rest (replicate 42 0) ltac:(rewrite length_replicate; lia)) as W. cbn [length] in W.
  cbn [app] in W. rewrite W. res_simpl.
  change (replicate 42 0 ++ rest) with (replicate 14 0 ++ replicate 28 0 ++ rest).
  pose proof (fill_arphdr_spec (replicate 14 0) (replicate 28 0) rest ARP_REQUEST (own_mac st) (own_ip (rt st)) broadcast_mac ip
    eq_refl (a_mac _ H) eq_refl) as W2. change (length (replicate 14 0)) with ETHHDR in W2. rewrite W2. res_simpl.
  rewrite fill_ethhdr_spec by (done || apply H). res_simpl.
  set (frame := broadcast_mac ++ own_mac st ++ _ ++ arp_message _ _ _ _ _).
  replace (broadcast_mac ++ own_mac st ++ be_enc 2 ETHERTYPE_ARP ++ arp_message _ _ _ _ _ ++ rest) with (frame ++ rest)
    by (subst frame; by rewrite <- !app_assoc).
  replace 42%nat with (length frame).
  2: { subst frame. unfold arp_message. rewrite !length_app, !be_enc_length, (a_mac _ H). done. }
  rewrite send_ether_spec. res_simpl. eexists. split; [|split; [|done]].
  2: { rewrite list_fmap_insert. apply list_insert_id. rewrite list_lookup_fmap, Ht. done. }
  split; [done|]. split; [|done]. cbn [eth_frame with_frame].
  rewrite <- Hf, Ef, !length_app, Hl. subst frame. unfold arp_message.
  rewrite !length_app, !be_enc_length, (a_mac _ H). cbn. lia.
Qed.

(** ** Looking up *)

(** [lia] with remainders on [nat]. *)
Ltac lia_mod := zify; Z.to_euclidean_division_equations; lia.

(** The entry [k] places after [i] in the ring. *)
Definition ring (i k : nat) : nat := (i + k) mod ARP_ENTRIES.

Lemma ring_lt i k : (ring i k < ARP_ENTRIES)%nat.
Proof. by apply Nat.mod_upper_bound. Qed.

Lemma ring_ring i j k : ring (ring i j) k = ring i (j + k).
Proof. unfold ring, ARP_ENTRIES. lia_mod. Qed.

Lemma ring_0 i : (i < ARP_ENTRIES)%nat -> ring i 0 = i.
Proof. unfold ring, ARP_ENTRIES. intros. lia_mod. Qed.

Lemma ring_inj i j k : (j < ARP_ENTRIES)%nat -> (k < ARP_ENTRIES)%nat -> ring i j = ring i k -> j = k.
Proof. unfold ring, ARP_ENTRIES. intros. lia_mod. Qed.

Definition has_ip st (i : nat) (ip : Z) : Prop := exists e, arp_table (arps st) !! i = Some e /\ ipv4_addr e = ip.

(** The number of entries in use. *)
Definition arp_used st : nat := ring (ARP_ENTRIES - arp_consumer (arps st)) (arp_producer (arps st)).

Lemma arp_used_lt st : (arp_used st < ARP_ENTRIES)%nat.
Proof. apply ring_lt. Qed.

Lemma arp_used_ring st : arp_ok st -> ring (arp_consumer (arps st)) (arp_used st) = arp_producer (arps st).
Proof. intros []. unfold arp_used, ring, ARP_ENTRIES in *. lia_mod. Qed.

Lemma lookup_loop_spec st ip n : arp_ok st -> forall fuel i,
  (i < ARP_ENTRIES)%nat -> ring i n = arp_producer (arps st) -> (n < ARP_ENTRIES)%nat -> (n < fuel)%nat ->
  (lookup_loop fuel st ip i = Ok None /\ forall k, (k < n)%nat -> ~ has_ip st (ring i k) ip) \/
  (exists k, lookup_loop fuel st ip i = Ok (Some (ring i k)) /\ (k < n)%nat /\ has_ip st (ring i k) ip /\
     forall j, (j < k)%nat -> ~ has_ip st (ring i j) ip).
Proof.
  intros H. induction n as [|n IH]; intros [|fuel] i Hi Hn Hn10 Hf; try lia; cbn [lookup_loop].
  - rewrite ring_0 in Hn by done. rewrite decide_True by done. left. split; [done | lia].
  - rewrite decide_False. 2: { intros E. rewrite <- (ring_0 i Hi), <- Hn in E. apply ring_inj in E; unfold ARP_ENTRIES in *; lia. }
    destruct (arp_get_spec st i H Hi) as (e & -> & He & _). res_simpl.
    change ((i + 1) mod ARP_ENTRIES)%nat with (ring i 1).
    destruct (Z.eqb_spec (ipv4_addr e) ip) as [Eq|Ne].
    { right. exists O. rewrite ring_0 by done. split_and!; [done | lia | by exists e | lia]. }
    assert (H0 : ~ has_ip st i ip) by (intros (e' & He' & ?); congruence).
    destruct (IH fuel (ring i 1) (ring_lt _ _)) as [[-> Hk]|(k & -> & Hk & Hip & Hj)]; try lia.
    { by rewrite ring_ring. }
    + left. split; [done|]. intros [|k] Hkn; [by rewrite ring_0 | ]. specialize (Hk k ltac:(lia)). by rewrite ring_ring in Hk.
    + right. exists (S k). rewrite ring_ring in *. split_and!; [done | lia | done |].
      intros [|j] Hjk; [by rewrite ring_0|]. specialize (Hj j ltac:(lia)). by rewrite ring_ring in Hj.
Qed.

Lemma lookup_mac_addr_spec st ip :
  arp_ok st ->
  (lookup_mac_addr st ip = Ok None /\ forall k, (k < arp_used st)%nat -> ~ has_ip st (ring (arp_consumer (arps st)) k) ip) \/
  (exists k, lookup_mac_addr st ip = Ok (Some (ring (arp_consumer (arps st)) k)) /\ (k < arp_used st)%nat /\
     has_ip st (ring (arp_consumer (arps st)) k) ip /\
     forall j, (j < k)%nat -> ~ has_ip st (ring (arp_consumer (arps st)) j) ip).
Proof.
  intros H. apply lookup_loop_spec; [done | apply H | by apply arp_used_ring | apply arp_used_lt |].
  pose proof (arp_used_lt st). lia.
Qed.

(** The entry that has been asked for is the only one of its address. *)
Lemma lookup_mac_addr_hit st ip k :
  arp_ok st -> (k < arp_used st)%nat -> has_ip st (ring (arp_consumer (arps st)) k) ip ->
  (forall j, (j < k)%nat -> ~ has_ip st (ring (arp_consumer (arps st)) j) ip) ->
  lookup_mac_addr st ip = Ok (Some (ring (arp_consumer (arps st)) k)).
Proof.
  intros H Hk Hip Hj. destruct (lookup_mac_addr_spec st ip H) as [[_ Hn]|(k' & -> & Hk' & Hip' & Hj')].
  - by destruct (Hn k Hk).
  - do 2 f_equal. destruct (Nat.lt_trichotomy k k') as [Hlt|[->|Hlt]]; [by destruct (Hj' k Hlt) | done | by destruct (Hj k' Hlt)].
Qed.

Lemma has_ip_insert st st' i e j ip :
  arp_table (arps st') = <[i := e]> (arp_table (arps st)) -> i <> j -> has_ip st' j ip -> has_ip st j ip.
Proof. intros E Hne (e' & He & Hi). rewrite E, list_lookup_insert_ne in He by done. by exists e'. Qed.

Lemma ring_step i k : ((ring i k + 1) mod ARP_ENTRIES)%nat = ring i (k + 1).
Proof. change ((ring i k + 1) mod ARP_ENTRIES)%nat with (ring (ring i k) 1). apply ring_ring. Qed.

(** arp_enqueue: the new entry, at [i], is then found for its address. *)
Lemma arp_enqueue_spec st ip buffer len :
  arp_ok st -> lookup_mac_addr st ip = Ok None -> (len <= length buffer)%nat -> (len + ETHHDR <= ETH_MTU_SIZE)%nat ->
  exists st' rest e, arp_enqueue st ip buffer len = Ok (arp_producer (arps st), st') /\ arp_ok st' /\
    own_mac st' = own_mac st /\ rt st' = rt st /\ dev st' = dev st /\
    lookup_mac_addr st' ip = Ok (Some (arp_producer (arps st))) /\
    arp_table (arps st') !! arp_producer (arps st) = Some e /\ mac_addr e = null_mac_addr /\ eth_len e = 0 /\ pkt_pending e = 1 /\
    pending_pkt_len (arps st') = Z.of_nat (len + ETHHDR) /\
    pending_pkt_frame (arps st') = null_mac_addr ++ own_mac st ++ be_enc 2 ETHERTYPE_IP ++ take len buffer ++ rest.
Proof.
  intros H Hno Hlb Hlm. set (p := arp_producer (arps st)). pose proof (a_producer _ H) as Hp.
  destruct (arp_get_spec st p H Hp) as (e & He & Het & Hm & Hf & Hel).
  unfold arp_enqueue. fold p. rewrite He. res_simpl.
  destruct (split_at (pending_pkt_frame (arps st)) 14) as (f14 & rest & Ef & Hl); [rewrite (a_pending _ H); unfold ETH_MTU_SIZE; lia|].
  rewrite Ef, fill_ethhdr_spec by (done || apply H). res_simpl. rewrite rd_bytes_spec, drop_0 by lia. res_simpl.
  assert (Hrest : (len <= length rest)%nat).
  { pose proof (a_pending _ H) as E. rewrite Ef, length_app in E. unfold ETHHDR in Hlm. lia. }
  destruct (split_at rest len) as (r1 & r2 & -> & Hr1); [done|].
  pose proof (wr_bytes_app (null_mac_addr ++ own_mac st ++ be_enc 2 ETHERTYPE_IP) r1 r2 (take len buffer)) as W.
  rewrite !length_app, be_enc_length, (a_mac _ H), <- !app_assoc in W. change (length null_mac_addr + (6 + 2))%nat with ETHHDR in W.
  rewrite W by (rewrite length_take; lia). res_simpl.
  set (e' := ArpEntry ip (replicate 6 0) (eth_frame e) (eth_len e) 1).
  set (c := arp_consumer (arps st)). pose proof (a_consumer _ H) as Hc. fold c in Hc.
  pose proof (arp_used_ring st H) as Hu. pose proof (arp_used_lt st) as Hul. set (u := arp_used st) in *. fold c p in Hu.
  assert (Hnone : forall k, (k < u)%nat -> ~ has_ip st (ring c k) ip).
  { destruct (lookup_mac_addr_spec st ip H) as [[_ Hn]|(k & E & _)]; [exact Hn|]. rewrite E in Hno. discriminate. }
  eexists _, r2, e'. split; [done|]. set (c' := if decide _ then _ else _). set (st' := with_arps _ _).
  assert (Hok : arp_ok st').
  { subst st'. split; cbn [own_mac arps arp_consumer arp_producer arp_table pending_pkt_frame with_arps].
    - apply H.
    - subst c'. fold c. case_decide; [apply (ring_lt c 1) | done].
    - apply (ring_lt p 1).
    - rewrite length_insert. apply H.
    - apply Forall_insert; [apply H|]. split; [done|]. by split.
    - rewrite <- (a_pending _ H), Ef, !length_app, be_enc_length, (a_mac _ H), length_take, Hl, Hr1. cbn. lia. }
  assert (Hi : has_ip st' p ip).
  { exists e'. split; [|done]. cbn. apply list_lookup_insert_eq. rewrite (a_table _ H). exact Hp. }
  split_and!; try done.
  - assert (Hk : exists k, (k < arp_used st')%nat /\ ring c' k = p /\ forall j, (j < k)%nat -> exists j', (j' < u)%nat /\ ring c' j = ring c j').
    { pose proof (arp_used_ring st' Hok) as Hu'. pose proof (arp_used_lt st') as Hul'. cbn [arp_consumer arp_producer arps with_arps st'] in Hu'.
      fold c p in Hu'. subst c'. fold c p. case_decide as Hfull.
      - assert (Eu : u = 9%nat).
        { rewrite <- Hu, ring_step in Hfull. rewrite <- (ring_0 c Hc) in Hfull at 1.
          unfold ARP_ENTRIES in *. destruct (decide (u = 9%nat)); [done|]. apply ring_inj in Hfull; unfold ARP_ENTRIES; lia. }
        exists 8%nat. change ((c + 1) mod ARP_ENTRIES)%nat with (ring c 1) in *.
        change ((p + 1) mod ARP_ENTRIES)%nat with (ring p 1) in *.
        assert (arp_used st' = 9%nat) as ->.
        { rewrite <- Hu, Eu, (ring_ring c 9 1) in Hu'. change (9 + 1)%nat with (1 + 9)%nat in Hu'. rewrite <- (ring_ring c 1 9) in Hu'.
          apply ring_inj in Hu'; unfold ARP_ENTRIES in *; lia. }
        split; [lia|]. split; [rewrite ring_ring; by rewrite <- Hu, Eu|]. intros j Hj. exists (1 + j)%nat. split; [lia|]. by rewrite ring_ring.
      - exists u. change ((p + 1) mod ARP_ENTRIES)%nat with (ring p 1) in *.
        assert (Eu : (u + 1 < ARP_ENTRIES)%nat).
        { destruct (decide (u = 9%nat)) as [E9|]; [|unfold ARP_ENTRIES in *; lia]. destruct Hfull. rewrite <- Hu, E9, ring_ring.
          rewrite <- (ring_0 c Hc) at 1. unfold ring, ARP_ENTRIES. cbn [Nat.add]. lia_mod. }
        assert (arp_used st' = (u + 1)%nat) as ->.
        { rewrite <- Hu, ring_ring in Hu'. apply ring_inj in Hu'; [done | exact Hul' | exact Eu]. }
        split; [lia|]. split; [done|]. intros j Hj. by exists j. }
    destruct Hk as (k & Hk & Ek & Hj). rewrite <- Ek. apply (lookup_mac_addr_hit st'); try done.
    + change (arp_consumer (arps st')) with c'. by rewrite Ek.
    + change (arp_consumer (arps st')) with c'. intros j Hjk Hip. destruct (Hj j Hjk) as (j' & Hj' & Ej). rewrite Ej in Hip.
      apply (Hnone j' Hj'). apply (has_ip_insert st st' p e' (ring c j') ip eq_refl); [|exact Hip]. rewrite <- Hu. intros E.
      apply ring_inj in E; unfold ARP_ENTRIES in *; lia.
  - cbn. apply list_lookup_insert_eq. rewrite (a_table _ H). exact Hp.
Qed.

(** What lookup_mac_addr depends on. *)
Lemma lookup_mac_addr_ext st st' ip :
  arp_consumer (arps st) = arp_consumer (arps st') -> arp_producer (arps st) = arp_producer (arps st') ->
  ipv4_addr <$> arp_table (arps st) = ipv4_addr <$> arp_table (arps st') ->
  lookup_mac_addr st ip = lookup_mac_addr st' ip.
Proof.
  intros Hc Hp Ht. unfold lookup_mac_addr. rewrite Hc. generalize (arp_consumer (arps st')) as i.
  induction (S ARP_ENTRIES) as [|fuel IH]; intros i; cbn [lookup_loop]; [done|]. rewrite Hp. case_decide; [done|].
  pose proof (f_equal (fun l => l !! i) Ht) as E. cbn in E. rewrite !list_lookup_fmap in E. unfold arp_get.
  destruct (arp_table (arps st) !! i) as [e|], (arp_table (arps st') !! i) as [e'|]; try discriminate; cbn; [|done].
  injection E as ->. by case_match.
Qed.

(** An entry that waits for its address, and what handle_arp does with the reply. *)
Definition pending_entry st (i : nat) (ip : Z) (payload : list Z) : Prop :=
  lookup_mac_addr st ip = Ok (Some i) /\
  (exists e, arp_table (arps st) !! i = Some e /\ ipv4_addr e = ip /\ mac_addr e = null_mac_addr /\ eth_len e = 0 /\ pkt_pending e = 1) /\
  pending_pkt_len (arps st) = Z.of_nat (length payload + ETHHDR) /\
  exists rest, pending_pkt_frame (arps st) = null_mac_addr ++ own_mac st ++ be_enc 2 ETHERTYPE_IP ++ payload ++ rest.

(** Entry [i] is known to be [mac]. *)
Definition resolved st (i : nat) (ip : Z) (mac : list Z) : Prop :=
  lookup_mac_addr st ip = Ok (Some i) /\ exists e, arp_get st i = Ok e /\ mac_addr e = mac.

Lemma handle_arp_reply st i ip payload mac rest size :
  arp_ok st -> routes_ok (rt st) -> pending_entry st i ip payload -> (i < ARP_ENTRIES)%nat ->
  length mac = 6%nat -> 0 < ip < 2 ^ 32 -> Z.of_nat ARPHDR <= size ->
  exists st', handle_arp send st (arp_message ARP_REPLY mac ip (own_mac st) (own_ip (rt st)) ++ rest) size = Ok (0, st') /\
    arp_ok st' /\ own_mac st' = own_mac st /\ rt st' = rt st /\ resolved st' i ip mac /\
    dev st' = Device (rxq (dev st)) (clock (dev st))
                (sent (dev st) ++ [mac ++ own_mac st ++ be_enc 2 ETHERTYPE_IP ++ payload]).
Proof.
  intros H [Ho _] (Hlk & (e & He & Hip & Hm & Hel & Hp) & Hlen & (rest' & Hf)) Hi Hmac Hipr Hs.
  destruct (arp_message_reads ARP_REPLY mac ip (own_mac st) (own_ip (rt st)) rest Hmac (a_mac _ H) ltac:(done) ltac:(lia) Ho)
    as (E1 & E2 & E3 & E4 & E5 & E6 & E7).
  unfold handle_arp. destruct (Z.ltb_spec size (Z.of_nat ARPHDR)); [lia|]. rewrite E1. res_simpl. rewrite E2. res_simpl.
  cbn [Z.eqb negb orb]. rewrite !Z.eqb_refl. cbn [negb orb]. rewrite E7. res_simpl. rewrite Z.eqb_refl. cbn [negb].
  rewrite E3. res_simpl. rewrite E5. res_simpl. rewrite E4. res_simpl. change (ARP_REPLY =? ARP_REQUEST) with false.
  change (ARP_REPLY =? ARP_REPLY) with true. rewrite E6. res_simpl.
  rewrite bool_decide_true by done. cbn [negb]. destruct (Z.eqb_spec ip 0); [lia|]. rewrite Hlk. res_simpl.
  unfold arp_get. rewrite He. cbn [of_option]. res_simpl. rewrite bool_decide_true by done. cbn [negb].
  set (e' := ArpEntry _ _ _ _ _). set (st1 := arp_set st i e'). replace (pkt_pending e') with 1 by (subst e'; by rewrite Hp).
  change (1 =? 0) with false. cbn match. change (pending_pkt_frame (arps st1)) with (pending_pkt_frame (arps st)).
  rewrite Hf. pose proof (wr_bytes_app [] null_mac_addr (own_mac st ++ be_enc 2 ETHERTYPE_IP ++ payload ++ rest') mac Hmac) as W.
  cbn [app length] in W. change (eth_dest_mac) with O. rewrite W. res_simpl.
  set (frame := mac ++ own_mac st ++ be_enc 2 ETHERTYPE_IP ++ payload).
  replace (mac ++ own_mac st ++ be_enc 2 ETHERTYPE_IP ++ payload ++ rest') with (frame ++ rest') by (subst frame; by rewrite <- !app_assoc).
  change (pending_pkt_len (arps st1)) with (pending_pkt_len (arps st)). rewrite Hlen, Nat2Z.id.
  replace (length payload + ETHHDR)%nat with (length frame).
  2: { subst frame. rewrite !length_app, be_enc_length, (a_mac _ H), Hmac. unfold ETHHDR. lia. }
  rewrite send_ether_spec. res_simpl. eexists. split; [done|].
  assert (He' : entry_ok e) by (eapply Forall_lookup_1; [apply H | exact He]). destruct He' as (_ & He2 & _).
  split.
  { apply arp_set_ok; [|done]. apply with_sent_ok. split; cbn [own_mac arps arp_consumer arp_producer arp_table pending_pkt_frame with_arps st1 arp_set]; try apply H.
    - rewrite length_insert. apply H.
    - apply Forall_insert; [apply H|]. split; [done|]. split; [done|]. exact Hel.
    - rewrite <- (a_pending _ H), Hf. subst frame. rewrite !length_app, Hmac. cbn. lia. }
  split; [done|]. split; [done|]. split; [|done]. split.
  - rewrite <- Hlk. apply lookup_mac_addr_ext; [done..|]. cbn [arps arp_table arp_set with_arps with_sent with_dev st1].
    rewrite !list_fmap_insert. rewrite (list_insert_insert_eq (ipv4_addr <$> _)) by done. apply list_insert_id. rewrite list_lookup_fmap, He. done.
  - unfold arp_get. cbn [arps arp_table arp_set with_arps with_sent with_dev st1].
    rewrite list_lookup_insert_eq by (rewrite length_insert, (a_table _ H); exact Hi). by eexists.
Qed.

(** ** send_ipv4 *)

(** To an address that is known. *)
Lemma send_ipv4_direct fuel rx st buffer len pkt dst i mac ip :
  arp_ok st -> patch_headers (rt st) buffer = Ok pkt -> rd 4 pkt ip_dst = Ok dst -> resolve st dst = Ok (Some i, Some mac, ip) ->
  (i < ARP_ENTRIES)%nat -> length mac = 6%nat -> (len <= length pkt)%nat -> (len + ETHHDR <= ETH_MTU_SIZE)%nat ->
  exists e b, arp_table (arps st) !! i = Some e /\ length b = ETH_MTU_SIZE /\ send_ipv4 send fuel rx st buffer len =
    (let frame := mac ++ own_mac st ++ be_enc 2 ETHERTYPE_IP ++ take len pkt in
     Ok (send frame, with_sent (arp_set st i (with_frame e b)) frame)).
Proof.
  intros H Hp Hd Hr Hi Hmac Hl Hm. unfold send_ipv4. rewrite decide_False by lia. rewrite Hp. res_simpl. rewrite Hd. res_simpl.
  rewrite Hr. res_simpl. destruct (arp_get_spec st i H Hi) as (e & He & Het & Hem & Hf & Hel). rewrite He. res_simpl.
  destruct (split_at (eth_frame e) 14) as (f14 & rest & Ef & Hl14); [rewrite Hf; unfold ETHHDR in *; lia|].
  rewrite Ef, fill_ethhdr_spec by (done || apply H). res_simpl. rewrite rd_bytes_spec, drop_0 by lia. res_simpl.
  assert (Hrl : (len <= length rest)%nat) by (rewrite Ef, length_app in Hf; unfold ETHHDR in *; lia).
  destruct (split_at rest len) as (r1 & r2 & -> & Hr1); [done|].
  pose proof (wr_bytes_app (mac ++ own_mac st ++ be_enc 2 ETHERTYPE_IP) r1 r2 (take len pkt)) as W.
  rewrite !length_app, be_enc_length, (a_mac _ H), Hmac, <- !app_assoc in W. change (6 + (6 + 2))%nat with ETHHDR in W.
  rewrite W by (rewrite length_take; lia). res_simpl. set (frame := mac ++ own_mac st ++ be_enc 2 ETHERTYPE_IP ++ take len pkt).
  replace (mac ++ own_mac st ++ be_enc 2 ETHERTYPE_IP ++ take len pkt ++ r2) with (frame ++ r2) by (subst frame; by rewrite <- !app_assoc).
  assert (Hfl : length frame = (len + ETHHDR)%nat).
  { subst frame. rewrite !length_app, be_enc_length, (a_mac _ H), Hmac, length_take. unfold ETHHDR. lia. }
  rewrite <- Hfl, send_ether_spec. eexists _, _. split; [exact Het|]. split; [|done].
  rewrite length_app, Hfl, <- Hf, Ef, !length_app, Hl14, Hr1. unfold ETHHDR. lia.
Qed.

(** The hop for an address that is no broadcast or multicast address. *)
Definition next_hop (r : routes) (dst : Z) : Z :=
  if Z.land (subnet_mask r) (own_ip r) =? Z.land (subnet_mask r) dst then dst else router_ip r.

Definition unicast (r : routes) (dst : Z) : Prop := is_broadcast r dst = false /\ dst <> multicast_ip r.

Lemma resolve_unknown st dst :
  unicast (rt st) dst -> lookup_mac_addr st (next_hop (rt st) dst) = Ok None ->
  resolve st dst = Ok (None, None, next_hop (rt st) dst).
Proof.
  intros [Hb Hm] Hl. unfold resolve. rewrite Hb. destruct (Z.eqb_spec dst (multicast_ip (rt st))); [done|].
  fold (next_hop (rt st) dst). by rewrite Hl.
Qed.

Lemma resolve_known st dst i mac :
  unicast (rt st) dst -> resolved st i (next_hop (rt st) dst) mac -> mac <> null_mac_addr ->
  resolve st dst = Ok (Some i, Some mac, next_hop (rt st) dst).
Proof.
  intros [Hb Hm] (Hl & e & He & <-) Hn. unfold resolve. rewrite Hb. destruct (Z.eqb_spec dst (multicast_ip (rt st))); [done|].
  fold (next_hop (rt st) dst). rewrite Hl. res_simpl. rewrite He. res_simpl. by rewrite bool_decide_false.
Qed.

(** The request for the address of [ip]. *)
Definition arp_request st (ip : Z) : list Z :=
  arp_frame ARP_REQUEST (own_mac st) (own_ip (rt st)) broadcast_mac ip.

(** To an address that is not known, when nothing is received meanwhile. *)
Lemma send_ipv4_unknown fuel rx st buffer len pkt dst :
  arp_ok st -> patch_headers (rt st) buffer = Ok pkt -> rd 4 pkt ip_dst = Ok dst -> unicast (rt st) dst ->
  lookup_mac_addr st (next_hop (rt st) dst) = Ok None -> (len <= length pkt)%nat -> (len + ETHHDR <= ETH_MTU_SIZE)%nat ->
  (forall st, rxq (dev st) = [] -> exists b, rx st = Ok (0, with_ether st b)) -> rxq (dev st) = [] ->
  exists st', send_ipv4 send (S fuel) rx st buffer len = Ok (0, st') /\ arp_ok st' /\ own_mac st' = own_mac st /\ rt st' = rt st /\
    pending_entry st' (arp_producer (arps st)) (next_hop (rt st) dst) (take len pkt) /\
    dev st' = Device [] (set_timer TICKS_SEC (clock (dev st))) (sent (dev st) ++ [arp_request st (next_hop (rt st) dst)]).
Proof.
  intros H Hp Hd Hu Hl Hlen Hm Hrx Hq. unfold send_ipv4. rewrite decide_False by lia. rewrite Hp. res_simpl. rewrite Hd. res_simpl.
  rewrite (resolve_unknown st dst Hu Hl). res_simpl. destruct (arp_send_request_spec st (next_hop (rt st) dst) H) as (e & He & Hfm & ->).
  res_simpl. set (st1 := with_sent _ _).
  assert (H1 : arp_ok st1) by (apply with_sent_ok, arp_set_ok; done).
  assert (Hl1 : lookup_mac_addr st1 (next_hop (rt st) dst) = Ok None).
  { rewrite <- Hl. apply lookup_mac_addr_ext; done. }
  destruct (arp_enqueue_spec st1 _ pkt len H1 Hl1 Hlen Hm) as (st2 & rest & e2 & -> & H2 & Em & Er & Ed & Hl2 & Ht2 & Hm2 & Hel2 & Hp2 & Hpl & Hpf).
  change (arp_producer (arps st1)) with (arp_producer (arps st)) in *.
  res_simpl. cbn [wait_loop]. destruct (Hrx (start_timer st2)) as (b & ->); [cbn [start_timer dev with_dev rxq]; rewrite Ed; exact Hq|]. res_simpl. unfold arp_get.
  cbn [arps with_ether with_dev start_timer]. rewrite Ht2. cbn [of_option]. res_simpl.
  rewrite Hel2. cbn [Z.eqb]. exists (with_ether (start_timer st2) b). split; [done|]. split; [by destruct H2|]. split; [done|]. split; [done|].
  change (pending_entry (with_ether (start_timer st2) b)) with (pending_entry st2). split.
  - split; [done|]. split.
    + exists e2. split_and!; try done. destruct (lookup_mac_addr_spec st2 (next_hop (rt st) dst) H2) as [[E _]|(k & E & _ & (e3 & He3 & Hi3) & _)].
      * rewrite E in Hl2. discriminate.
      * rewrite E in Hl2. injection Hl2 as Hk. rewrite Hk, Ht2 in He3. congruence.
    + split; [rewrite length_take, Nat.min_l by lia; exact Hpl|]. exists rest. rewrite Hpf, Em. done.
  - cbn [dev with_ether start_timer with_dev rxq clock sent]. rewrite Ed. cbn [dev with_sent with_dev st1 arp_set with_arps]. by rewrite Hq.
Qed.

(** The frame of an entry does not matter to what is found. *)
Lemma resolve_frame st i e b dst :
  arp_table (arps st) !! i = Some e -> resolve (arp_set st i (with_frame e b)) dst = resolve st dst.
Proof.
  intros He. unfold resolve. cbn [rt arp_set with_arps arps arp_producer].
  assert (E : forall ip, lookup_mac_addr (arp_set st i (with_frame e b)) ip = lookup_mac_addr st ip).
  { intros ip. apply lookup_mac_addr_ext; [done..|]. cbn [arps arp_table arp_set with_arps]. rewrite list_fmap_insert.
    apply list_insert_id. rewrite list_lookup_fmap, He. done. }
  case_match; [done|]. case_match; [done|]. rewrite E. destruct (lookup_mac_addr st _) as [[j|]| |]; res_simpl; try done.
  unfold arp_get. cbn [arps arp_table arp_set with_arps]. rewrite list_lookup_insert. case_decide as D; [|done].
  destruct D as [<- Hlt]. rewrite He. done.
Qed.

Context (handle_dhcp handle_dns handle_dhcpv6 handle_tftp :
    nat -> (net U -> res (Z * net U)) -> net U -> ptr -> Z -> res (Z * net U))
  (handle_tftp_dun : net U -> Z -> net U)
  (handle_ipv6 : nat -> (net U -> res (Z * net U)) -> net U -> ptr -> Z -> res (Z * net U)).

Abbreviation ether_in :=
  (receive_ether send handle_dhcp handle_dns handle_dhcpv6 handle_tftp handle_tftp_dun handle_ipv6).

Lemma receive_nothing fuel st : rxq (dev st) = [] -> exists b, ether_in (S fuel) st = Ok (0, with_ether st b).
Proof using Type*.
  intros H. cbn [receive_ether]. unfold recv. rewrite H. exists (replicate ETH_MTU_SIZE 0).
  rewrite wr_bytes_spec by (cbn; lia). res_simpl. destruct st as [? ? ? ? ? ? ? [? ? ?] ?]. cbn in H. by subst.
Qed.

(** Another station sends a frame. *)
Definition arrive st (frame : list Z) : net U :=
  with_dev st (Device (rxq (dev st) ++ [Some frame]) (clock (dev st)) (sent (dev st))).

Lemma receive_arp fuel st src message :
  length (own_mac st) = 6%nat -> length src = 6%nat -> rxq (dev st) = [] ->
  (ETHHDR + length message <= ETH_MTU_SIZE)%nat ->
  exists b rest, ether_in (S fuel) (arrive st (own_mac st ++ src ++ be_enc 2 ETHERTYPE_ARP ++ message)) =
    handle_arp send (with_ether st b) (message ++ rest) (Z.of_nat (length message)).
Proof using Type*.
  intros Hm Hs Hq Hl. set (frame := own_mac st ++ _). cbn [receive_ether]. unfold recv.
  cbn [arrive dev with_dev rxq]. rewrite Hq. cbn [app tail].
  assert (Hfl : length frame = (ETHHDR + length message)%nat).
  { subst frame. rewrite !length_app, be_enc_length. unfold ETHHDR. lia. }
  rewrite (take_ge frame) by lia. rewrite wr_bytes_spec by (rewrite length_replicate; lia). res_simpl.
  destruct (Z.eqb_spec (Z.of_nat (length frame)) 0); [unfold ETHHDR in *; lia|].
  destruct (Z.ltb_spec (Z.of_nat (length frame)) 0); [lia|].
  destruct (Z.ltb_spec (Z.of_nat (length frame)) (Z.of_nat ETHHDR)); [lia|].
  set (rest := drop (length frame) (replicate ETH_MTU_SIZE 0)).
  assert (splice (replicate ETH_MTU_SIZE 0) 0 frame = frame ++ rest) as Esp by done. rewrite Esp.
  pose proof (rd_bytes_app [] (own_mac st) (src ++ be_enc 2 ETHERTYPE_ARP ++ message ++ rest)) as R. rewrite Hm in R.
  cbn [app length] in R. change eth_dest_mac with O. subst frame. rewrite <- !app_assoc, R. res_simpl.
  unfold mac_accepted. cbn [own_mac with_dev arrive]. rewrite (bool_decide_true (own_mac st = own_mac st)) by done.
  rewrite orb_true_r. cbn [orb negb].
  pose proof (rd_app 2 (own_mac st ++ src) ETHERTYPE_ARP (message ++ rest) ltac:(done)) as R2.
  rewrite length_app, Hm, Hs, <- !app_assoc in R2. change (6 + 6)%nat with eth_type in R2. rewrite R2. res_simpl.
  exists (own_mac st ++ src ++ be_enc 2 ETHERTYPE_ARP ++ message ++ rest), rest. unfold packet_at. cbn [fst snd array_of ether_packet with_ether].
  assert (drop ETHHDR (own_mac st ++ src ++ be_enc 2 ETHERTYPE_ARP ++ message ++ rest) = message ++ rest) as ->.
  { rewrite !app_assoc, <- (app_assoc _ message). apply drop_app_length'. rewrite !length_app, be_enc_length. unfold ETHHDR. lia. }
  change (ETHERTYPE_ARP =? ETHERTYPE_IP) with false. change (ETHERTYPE_ARP =? ETHERTYPE_IPv6) with false.
  change (ETHERTYPE_ARP =? ETHERTYPE_ARP) with true. cbn match. f_equal.
  - by destruct st as [? ? ? ? ? ? ? [? ? ?] ?]; cbn in *; subst.
  - rewrite !length_app, be_enc_length. unfold ETHHDR. lia.
Qed.

(** C10: resolving an address.  A packet for an address that is not in the table
    makes send_ipv4 send the ARP request for the next hop and keep the packet;
    when the hop answers, the packet is sent to the hardware address it gave,
    with the headers send_ipv4 completed, and the packets that follow are sent
    there at once. *)
Theorem arp_resolution fuel st buffer len src dst proto mac :
  arp_ok st -> routes_ok (rt st) -> rxq (dev st) = [] ->
  sendable buffer src dst proto -> (len <= length buffer)%nat -> (len + ETHHDR <= ETH_MTU_SIZE)%nat ->
  unicast (rt st) (sent_dst (rt st) src dst) ->
  let hop := next_hop (rt st) (sent_dst (rt st) src dst) in
  0 < hop < 2 ^ 32 -> lookup_mac_addr st hop = Ok None -> length mac = 6%nat -> mac <> null_mac_addr ->
  let send_packet st := send_ipv4 send (S fuel) (ether_in (S fuel)) st buffer len in
  exists pkt st1 st2 st3,
    let frame := mac ++ own_mac st ++ be_enc 2 ETHERTYPE_IP ++ take len pkt in
    patch_headers (rt st) buffer = Ok pkt /\
    send_packet st = Ok (0, st1) /\ sent (dev st1) = sent (dev st) ++ [arp_request st hop] /\
    ether_in (S fuel) (arrive st1 (arp_frame ARP_REPLY mac hop (own_mac st) (own_ip (rt st)))) = Ok (0, st2) /\
    sent (dev st2) = sent (dev st1) ++ [frame] /\
    send_packet st2 = Ok (send frame, st3) /\ sent (dev st3) = sent (dev st2) ++ [frame].
Proof using Type*.
  intros H Hr Hq Hsend Hl Hm Hu hop Hhop Hno Hmac Hnull send_packet.
  destruct (patch_headers_spec _ _ _ _ _ Hr Hsend) as (pkt & Hp & HP). pose proof (p_dst _ _ _ _ _ _ HP) as Hd.
  assert (Hlp : (len <= length pkt)%nat) by (rewrite (p_length _ _ _ _ _ _ HP); exact Hl).
  destruct (send_ipv4_unknown fuel (ether_in (S fuel)) st buffer len pkt _ H Hp Hd Hu Hno Hlp Hm (receive_nothing fuel) Hq)
    as (st1 & E1 & H1 & Em1 & Er1 & Hpe & Ed1). fold hop in Hpe, Ed1.
  assert (Hq1 : rxq (dev st1) = []) by by rewrite Ed1.
  destruct (receive_arp fuel st1 mac (arp_message ARP_REPLY mac hop (own_mac st1) (own_ip (rt st1)))) as (b & rest & E2); try done.
  { by rewrite Em1, (a_mac _ H). }
  { unfold arp_message. rewrite !length_app, !be_enc_length, Hmac, Em1, (a_mac _ H). unfold ETHHDR, ETH_MTU_SIZE. cbn [length]. lia. }
  destruct (handle_arp_reply (with_ether st1 b) (arp_producer (arps st)) hop (take len pkt) mac rest
    (Z.of_nat (length (arp_message ARP_REPLY mac hop (own_mac st1) (own_ip (rt st1))))) ltac:(by destruct H1) ltac:(cbn [rt with_ether]; by rewrite Er1) Hpe (a_producer _ H) Hmac Hhop)
    as (st2 & E3 & H2 & Em2 & Er2 & Hres & Ed2).
  { unfold arp_message. rewrite !length_app, !be_enc_length, Hmac, Em1, (a_mac _ H). unfold ARPHDR. cbn [length]. lia. }
  cbn [own_mac rt dev with_ether] in *. assert (Er : rt st2 = rt st) by congruence.
  destruct (send_ipv4_direct (S fuel) (ether_in (S fuel)) st2 buffer len pkt (sent_dst (rt st) src dst) (arp_producer (arps st)) mac hop H2)
    as (e & b4 & _ & _ & E4); try (done || by rewrite Er).
  { subst hop. rewrite <- Er in Hu, Hres |- *. by apply resolve_known. }
  { apply H. }
  exists pkt, st1, st2. eexists. split; [done|]. split; [exact E1|]. split; [by rewrite Ed1|].
  split; [unfold arp_frame; rewrite <- Em1, <- Er1; rewrite E2; exact E3|]. split; [by rewrite Ed2, Em1|].
  unfold send_packet. rewrite E4, Em2, Em1. done.
Qed.
End arp.

(** Witness: 10.0.0.2 is resolved, for a datagram of demo_udp's. *)
Lemma demo_net_ok : arp_ok demo_net.
Proof. split; try (vm_compute; (reflexivity || lia)). apply Forall_replicate. split; [reflexivity | split; reflexivity]. Defined.

Lemma arp_resolution_witness :
  let ether_in := receive_ether demo_send demo_handler demo_handler demo_handler demo_handler (fun st _ => st) demo_handler 1 in
  let mac := [2; 0; 0; 0; 0; 2] in
  exists pkt st1 st2,
    patch_headers demo_routes demo_udp = Ok pkt /\
    send_ipv4 demo_send 1 ether_in demo_net demo_udp 32 = Ok (0, st1) /\
    ether_in (arrive st1 (arp_frame ARP_REPLY mac 0x0A000002 [2; 0; 0; 0; 0; 1] 0x0A000001)) = Ok (0, st2) /\
    sent (dev st2) = sent (dev st1) ++ [mac ++ [2; 0; 0; 0; 0; 1] ++ be_enc 2 ETHERTYPE_IP ++ take 32 pkt].
Proof.
  destruct (arp_resolution demo_send demo_handler demo_handler demo_handler demo_handler (fun st _ => st) demo_handler 0
    demo_net demo_udp 32 0 0x0A000002 IPTYPE_UDP [2; 0; 0; 0; 0; 2] demo_net_ok demo_routes_ok eq_refl demo_udp_sendable
    ltac:(vm_compute; lia) ltac:(vm_compute; lia) ltac:(split; vm_compute; (reflexivity || discriminate))
    ltac:(vm_compute; split; reflexivity) ltac:(vm_compute; reflexivity) eq_refl ltac:(discriminate))
    as (pkt & st1 & st2 & st3 & E & E1 & _ & E2 & S2 & _).
  exists pkt, st1, st2. split; [exact E|]. split; [exact E1|]. split; [exact E2|]. exact S2.
Defined.
