(* ===== verification/Udp.v ===== *)
(** * UDP on the stack: what a client sends and receives

    For the protocols above UDP: a datagram that is sent to an address whose
    hardware address is known leaves as one frame ([send_udp]), and a frame with a
    datagram for the client reaches handle_udp ([receive_udp]).  The definitions of
    the code are in Packet.v and Ipv4.v. *)

From Stdlib Require Import ZArith Lia.
From stdpp Require Import base list option numbers.
From S2P Require Import Prelude Packet Ipv4 Arp.

(** ** The headers *)

(** The headers of a message of [n] bytes. *)
Definition udp_headers (src dst sport dport : Z) (n : nat) : list Z :=
  [0x45; 0x10] ++ be_enc 2 (Z.of_nat (28 + n)) ++ [0; 0; 0; 0; 255; 17; 0; 0] ++ be_enc 4 src ++ be_enc 4 dst ++
  be_enc 2 sport ++ be_enc 2 dport ++ be_enc 2 (Z.of_nat (8 + n)) ++ be_enc 2 0.

Lemma udp_headers_length src dst sport dport n : length (udp_headers src dst sport dport n) = 28%nat.
Proof. unfold udp_headers. by rewrite !length_app, !be_enc_length. Qed.

Lemma udp_headers_filled old rest src dst sport dport n : length old = 28%nat ->
  (packet ← fill_udphdr (old ++ rest) IPHDR (Z.of_nat (8 + n)) sport dport;
   fill_iphdr packet 0 (Z.of_nat (28 + n)) IPTYPE_UDP src dst) = Ok (udp_headers src dst sport dport n ++ rest) /\
  (packet ← fill_iphdr (old ++ rest) 0 (Z.of_nat (28 + n)) IPTYPE_UDP src dst;
   fill_udphdr packet IPHDR (Z.of_nat (8 + n)) sport dport) = Ok (udp_headers src dst sport dport n ++ rest).
Proof.
  intros Ho. do 28 (destruct old as [|? old]; [discriminate|]). destruct old; [|discriminate].
  unfold fill_iphdr, fill_udphdr, wr, udp_headers.
  destruct (be_enc4 src) as (?&?&?&?&->), (be_enc4 dst) as (?&?&?&?&->), (be_enc2 (Z.of_nat (28 + n))) as (?&?&->),
    (be_enc2 (Z.of_nat (8 + n))) as (?&?&->), (be_enc2 sport) as (?&?&->), (be_enc2 dport) as (?&?&->). split; reflexivity.
Qed.

Lemma udp_headers_sendable src dst sport dport msg pad :
  0 <= src < 2 ^ 32 -> 0 <= dst < 2 ^ 32 -> (length msg <= 1400)%nat -> (1 <= length pad)%nat -> Forall byte msg -> Forall byte pad ->
  sendable (udp_headers src dst sport dport (length msg) ++ msg ++ pad) src dst IPTYPE_UDP.
Proof.
  intros Hs Hd Hn Hp Hb Hb'. set (n := length msg) in *. set (b := udp_headers src dst sport dport n ++ msg ++ pad).
  assert (Hlen : (length b = 28 + n + length pad)%nat) by (subst b; rewrite !length_app, udp_headers_length; fold n; lia).
  set (h1 := [0x45; 0x10] ++ be_enc 2 (Z.of_nat (28 + n)) ++ [0; 0; 0; 0; 255; 17; 0; 0]).
  assert (Eb : b = h1 ++ be_enc 4 src ++ be_enc 4 dst ++ be_enc 2 sport ++ be_enc 2 dport ++ be_enc 2 (Z.of_nat (8 + n)) ++ be_enc 2 0 ++ msg ++ pad).
  { subst b h1. unfold udp_headers. by rewrite <- !app_assoc. }
  split.
  { rewrite Eb. subst h1. rewrite !Forall_app. split_and!; try apply be_enc_bytes; try done; repeat constructor; lia. }
  split; [rewrite Eb; exact (rd_app 4 h1 src _ Hs)|]. split; [rewrite Eb; exact (rd_app 4 (h1 ++ be_enc 4 src) dst _ Hd)|].
  split; [done|]. intros _. exists (Z.of_nat (8 + n)). split_and!; [|lia|].
  - rewrite Eb. refine (rd_app 2 (h1 ++ be_enc 4 src ++ be_enc 4 dst ++ be_enc 2 sport ++ be_enc 2 dport) (Z.of_nat (8 + n)) _ _).
    change (256 ^ Z.of_nat 2) with 65536. lia.
  - rewrite Hlen. unfold udp_words, IPHDR. lia_div.
Qed.

(** ** Packets with more bytes after them *)

Lemma rd_app_l n a b i : (i + n <= length a)%nat -> rd n (a ++ b) i = rd n a i.
Proof.
  intros Hi. unfold rd. rewrite length_app, !decide_True by lia. do 2 f_equal.
  by rewrite drop_app_le, take_app_le by (rewrite ?length_drop; lia).
Qed.

Lemma sum_loop_app_l n a b o acc : (o + 2 * n <= length a)%nat -> sum_loop n (a ++ b) o acc = sum_loop n a o acc.
Proof.
  revert o acc. induction n as [|n IH]; intros o acc Ho; [done|]. cbn [sum_loop]. rewrite rd_app_l by lia.
  destruct (rd 2 a o); res_simpl; [apply IH; lia | done | done].
Qed.

Lemma splice_app_l a b i x : (i + length x <= length a)%nat -> splice (a ++ b) i x = splice a i x ++ b.
Proof. intros Hi. unfold splice. by rewrite take_app_le, drop_app_le, <- !app_assoc by lia. Qed.

Lemma header_accepted_app a b : (IPHDR <= length a)%nat -> header_accepted a -> header_accepted (a ++ b).
Proof.
  unfold IPHDR. intros Hl (sum & H1 & H2). exists sum. split; [rewrite rd_app_l by (unfold ip_sum; lia); done|].
  rewrite splice_app_l by (unfold ip_sum; rewrite be_enc_length; lia). unfold checksum in *.
  rewrite sum_loop_app_l by (rewrite splice_length; unfold ip_sum; rewrite ?be_enc_length; lia). done.
Qed.

(** ** Sending *)

Section udp.
Context {U : Type} (send : list Z -> Z).
Implicit Type st : net U.

Record sent_only st st' : Prop := {
  so_mac : own_mac st' = own_mac st;
  so_rt : rt st' = rt st;
  so_send_ip : send_ip st' = send_ip st;
  so_arp : arp_ok st -> arp_ok st';
  so_resolve : forall ip, resolve st' ip = resolve st ip;
  so_ether : ether_packet st' = ether_packet st;
  so_heap : ip_heap st' = ip_heap st;
  so_rxq : rxq (dev st') = rxq (dev st);
  so_clock : clock (dev st') = clock (dev st);
  so_up : up st' = up st;
}.

(** The server's hardware address is known. *)
Record known st (server : Z) : Prop := {
  k_arp : arp_ok st;
  k_rt : routes_ok (rt st);
  k_send_ip : send_ip st = IPv4;
  k_server : 0 <= server < 2 ^ 32;
  k_resolve : exists i mac ip, resolve st server = Ok (Some i, Some mac, ip) /\ (i < ARP_ENTRIES)%nat /\ length mac = 6%nat;
}.

Lemma sent_only_known st st' server : sent_only st st' -> known st server -> known st' server.
Proof. intros [? E2 E3 ? E5] [? ? ? ? ?]. split; [auto | by rewrite E2 | by rewrite E3 | done | by rewrite E5]. Qed.

(** A frame that brings [msg] to the port [dport] of the server. *)
Definition brings (frame : list Z) (dport : Z) (msg : list Z) : Prop :=
  drop (ETHHDR + IPHDR + UDPHDR) frame = msg /\ take 2 (drop (ETHHDR + IPHDR + uh_dport) frame) = be_enc 2 dport.

Lemma send_udp fuel rx st src server sport dport msg pad :
  known st server -> 0 <= src < 2 ^ 32 -> src <> 1 -> (length msg <= 1400)%nat -> (1 <= length pad)%nat -> Forall byte msg -> Forall byte pad ->
  exists v st' frame, send_ipv4 send fuel rx st (udp_headers src server sport dport (length msg) ++ msg ++ pad) (28 + length msg) = Ok (v, st') /\
    sent_only st st' /\ sent (dev st') = sent (dev st) ++ [frame] /\ brings frame dport msg.
Proof.
  intros [Ha Hr Hv Hs (i & mac & ip & Hres & Hi & Hmac)] Hsrc Hsrc1 Hn Hp Hb Hb'.
  pose proof (udp_headers_sendable src server sport dport msg pad Hsrc Hs Hn Hp Hb Hb') as Hsend. set (b := udp_headers _ _ _ _ _ ++ _) in *.
  assert (Hlen : (length b = 28 + length msg + length pad)%nat) by (subst b; rewrite !length_app, udp_headers_length; lia).
  destruct (patch_headers_spec _ _ _ _ _ Hr Hsend) as (pkt & Ep & HP). pose proof (p_dst _ _ _ _ _ _ HP) as Hd. unfold sent_dst in Hd. rewrite (proj2 (Z.eqb_neq src 1)) in Hd by done.
  pose proof (p_length _ _ _ _ _ _ HP) as Hpl.
  destruct (send_ipv4_direct send fuel rx st b (28 + length msg) pkt server i mac ip Ha Ep Hd Hres Hi Hmac)
    as (e & bs & He & Hbs & E); [lia | unfold ETHHDR, ETH_MTU_SIZE; lia|].
  cbv zeta in E. set (frame := mac ++ own_mac st ++ be_enc 2 ETHERTYPE_IP ++ take (28 + length msg) pkt) in *.
  eexists _, _, frame. split; [exact E|]. split; [|split; [done|]].
  - split; try done.
    + intros _. apply with_sent_ok, arp_set_ok; [done|]. destruct (Forall_lookup_1 _ _ _ _ (a_entries _ Ha) He) as (? & ? & ?). by split_and!.
    + intros ip'. change (resolve (with_sent (arp_set st i (with_frame e bs)) frame) ip') with (resolve (arp_set st i (with_frame e bs)) ip').
      by apply resolve_frame.
  - assert (Hrest : forall j, (20 <= j)%nat -> ~ (26 <= j < 28)%nat -> pkt !! j = b !! j).
    { intros j Hj Hj'. apply (p_rest _ _ _ _ _ _ HP); [lia|]. intros [_ ?]. lia. }
    assert (Ef : forall k, drop (ETHHDR + k) frame = drop k (take (28 + length msg) pkt)).
    { intros k. subst frame. rewrite !app_assoc, <- drop_drop. f_equal. apply drop_app_length'.
      rewrite !length_app, be_enc_length, Hmac, (a_mac _ Ha). done. }
    split.
    + rewrite <- Nat.add_assoc, Ef. apply list_eq. intros j. rewrite lookup_drop.
      destruct (decide (j < length msg)%nat).
      * rewrite lookup_take_lt, Hrest by (unfold IPHDR, UDPHDR; lia). subst b. rewrite lookup_app_r, udp_headers_length by (rewrite udp_headers_length; unfold IPHDR, UDPHDR; lia).
        rewrite lookup_app_l by (unfold IPHDR, UDPHDR; lia). f_equal. unfold IPHDR, UDPHDR. lia.
      * rewrite lookup_take_ge by (unfold IPHDR, UDPHDR; lia). symmetry. apply lookup_ge_None. lia.
    + rewrite <- Nat.add_assoc, Ef. apply list_eq. intros j. destruct (decide (j < 2)%nat).
      * rewrite lookup_take_lt, lookup_drop, lookup_take_lt, Hrest by (unfold IPHDR, uh_dport; lia). 
        set (P := [0x45; 0x10] ++ be_enc 2 (Z.of_nat (28 + length msg)) ++ [0; 0; 0; 0; 255; 17; 0; 0] ++ be_enc 4 src ++
          be_enc 4 server ++ be_enc 2 sport).
        assert (Eb : b = P ++ be_enc 2 dport ++ (be_enc 2 (Z.of_nat (8 + length msg)) ++ be_enc 2 0 ++ msg ++ pad)).
        { subst b P. unfold udp_headers. by rewrite <- !app_assoc. }
        assert (HP22 : length P = 22%nat) by (subst P; by rewrite !length_app, !be_enc_length).
        rewrite Eb, lookup_app_r, lookup_app_l by (rewrite ?HP22, ?be_enc_length; unfold IPHDR, uh_dport; lia).
        f_equal. rewrite HP22. unfold IPHDR, uh_dport. lia.
      * rewrite lookup_take_ge by lia. symmetry. apply lookup_ge_None. rewrite be_enc_length. lia.
Qed.

(** What sending and handling a message leave as they were. *)
Record moves st st' : Prop := {
  m_mac : own_mac st' = own_mac st;
  m_rt : rt st' = rt st;
  m_send_ip : send_ip st' = send_ip st;
  m_arp : arp_ok st -> arp_ok st';
  m_resolve : forall ip, resolve st' ip = resolve st ip;
  m_rxq : rxq (dev st') = rxq (dev st);
  m_clock : clock (dev st') = clock (dev st);
}.

Lemma moves_refl st : moves st st.
Proof. by split. Qed.

Lemma moves_trans st1 st2 st3 : moves st1 st2 -> moves st2 st3 -> moves st1 st3.
Proof. intros [] []. split; (congruence || auto). Qed.

Lemma sent_only_moves st st' : sent_only st st' -> moves st st'.
Proof. intros []. by split. Qed.

(** ** Receiving *)

(** Where the UDP header is. *)
Definition udp_ptr : ptr := (EtherPacket, 34%nat).


(** A UDP packet as its handler reads it. *)
Definition datagram_at st (sport dport : Z) (msg : list Z) : Prop :=
  exists sum rest, packet_at st udp_ptr =
    be_enc 2 sport ++ be_enc 2 dport ++ be_enc 2 (Z.of_nat (8 + length msg)) ++ be_enc 2 sum ++ msg ++ rest.

(** A frame for [mac] with a UDP message for the port [dport], accepted by [r]. *)
Definition udp_frame (mac : list Z) (r : routes) (frame : list Z) (sport dport : Z) (msg : list Z) : Prop :=
  exists src iph sum pad dst,
    frame = mac ++ src ++ be_enc 2 ETHERTYPE_IP ++ iph ++ be_enc 2 sport ++ be_enc 2 dport ++
      be_enc 2 (Z.of_nat (8 + length msg)) ++ be_enc 2 sum ++ msg ++ pad /\
    length src = 6%nat /\ length iph = 20%nat /\ (length frame <= ETH_MTU_SIZE)%nat /\ 0 <= sport < 65536 /\ 0 <= dport < 65536 /\
    rd 4 iph ip_dst = Ok dst /\ not_for_us r dst = false /\ header_accepted iph /\ rd 2 iph ip_off = Ok 0 /\
    rd 1 iph ip_p = Ok IPTYPE_UDP /\ rd 2 iph ip_len = Ok (Z.of_nat (28 + length msg)).

(** The state when a frame of the queue is handled. *)
Definition taken st (q : list (option (list Z))) (b : list Z) : net U :=
  with_ether (with_dev st (Device q (clock (dev st)) (sent (dev st)))) b.

Context (handle_dhcp handle_dns handle_dhcpv6 handle_tftp handle_ipv6 : nat -> (net U -> res (Z * net U)) -> net U -> ptr -> Z -> res (Z * net U))
  (handle_tftp_dun : net U -> Z -> net U).

Abbreviation ether_in := (receive_ether send handle_dhcp handle_dns handle_dhcpv6 handle_tftp handle_tftp_dun handle_ipv6).

(** The frame at the head of the queue reaches handle_udp. *)
Lemma receive_udp fuel st frame q sport dport msg :
  length (own_mac st) = 6%nat -> rxq (dev st) = Some frame :: q -> udp_frame (own_mac st) (rt st) frame sport dport msg ->
  exists b, datagram_at (taken st q b) sport dport msg /\
    ether_in (S fuel) st = handle_udp handle_dhcp handle_dns handle_dhcpv6 handle_tftp fuel (ether_in fuel) (taken st q b) udp_ptr (Z.of_nat (8 + length msg)).
Proof using Type*.
  intros Hmac Hq (src & iph & sum & pad & dst & Ef & Hsrc & Hiph & Hmtu & Hsp & Hdp & Hdst & Hus & Hacc & Hoff & Hp & Hlen).
  assert (Hfl : (42 + length msg <= length frame)%nat).
  { rewrite Ef, !length_app, !be_enc_length, Hmac, Hsrc, Hiph. lia. }
  cbn [receive_ether]. unfold recv. rewrite Hq. cbn [tail]. rewrite (take_ge frame) by lia.
  rewrite wr_bytes_spec by (rewrite length_replicate; lia). res_simpl.
  destruct (Z.eqb_spec (Z.of_nat (length frame)) 0); [lia|].
  destruct (Z.ltb_spec (Z.of_nat (length frame)) 0); [lia|].
  destruct (Z.ltb_spec (Z.of_nat (length frame)) (Z.of_nat ETHHDR)); [unfold ETHHDR in *; lia|].
  set (rest := drop (length frame) (replicate ETH_MTU_SIZE 0)).
  assert (splice (replicate ETH_MTU_SIZE 0) 0 frame = frame ++ rest) as Esp by done. rewrite Esp.
  set (udp := be_enc 2 sport ++ be_enc 2 dport ++ be_enc 2 (Z.of_nat (8 + length msg)) ++ be_enc 2 sum ++ msg ++ pad ++ rest).
  assert (Efr : frame ++ rest = (own_mac st ++ src ++ be_enc 2 ETHERTYPE_IP) ++ iph ++ udp).
  { rewrite Ef. subst udp. by rewrite <- !app_assoc. }
  rewrite Efr. set (hdr := own_mac st ++ src ++ be_enc 2 ETHERTYPE_IP).
  assert (Hhdr : length hdr = ETHHDR) by (subst hdr; by rewrite !length_app, be_enc_length, Hmac, Hsrc).
  assert (Emac : rd_bytes 6 (hdr ++ iph ++ udp) eth_dest_mac = Ok (own_mac st)).
  { pose proof (rd_bytes_app [] (own_mac st) ((src ++ be_enc 2 ETHERTYPE_IP) ++ iph ++ udp)) as R. rewrite Hmac in R. cbn [app length] in R.
    subst hdr. rewrite <- !app_assoc. rewrite <- !app_assoc in R. exact R. }
  rewrite Emac. res_simpl. unfold mac_accepted. cbn [own_mac with_dev with_ether]. rewrite (bool_decide_true (own_mac st = own_mac st)) by done.
  rewrite orb_true_r. cbn [orb negb].
  assert (Etype : rd 2 (hdr ++ iph ++ udp) eth_type = Ok ETHERTYPE_IP).
  { pose proof (rd_app 2 (own_mac st ++ src) ETHERTYPE_IP (iph ++ udp) ltac:(done)) as R. rewrite length_app, Hmac, Hsrc in R.
    subst hdr. rewrite <- !app_assoc. rewrite <- !app_assoc in R. exact R. }
  rewrite Etype. res_simpl. change (ETHERTYPE_IP =? ETHERTYPE_IP) with true. cbn match.
  set (st0 := with_dev st _).
  change (with_ether st0 (hdr ++ iph ++ udp)) with (with_packet hdr st0 (iph ++ udp)).
  rewrite (whole_packet hdr Hhdr _ _ _ _ _ _ _ _ st0 (iph ++ udp) _ dst).
  2: { unfold IPHDR, ETHHDR in *. lia. }
  2: { rewrite length_app, Hiph. unfold IPHDR. lia. }
  2: { rewrite rd_app_l by (rewrite Hiph; unfold ip_dst; lia). exact Hdst. }
  2: exact Hus.
  2: { apply header_accepted_app; [by rewrite Hiph | done]. }
  2: { rewrite rd_app_l by (rewrite Hiph; unfold ip_off; lia). exact Hoff. }
  exists (hdr ++ cleared (iph ++ udp)).
  assert (Ecl : cleared (iph ++ udp) = cleared iph ++ udp).
  { unfold cleared. apply splice_app_l. rewrite Hiph. unfold ip_sum. rewrite be_enc_length. lia. }
  assert (Hcl : length (cleared iph) = 20%nat) by (rewrite cleared_length; rewrite Hiph; done).
  change (taken st q (hdr ++ cleared (iph ++ udp))) with (with_packet hdr st0 (cleared (iph ++ udp))).
  assert (Eat : packet_at (with_packet hdr st0 (cleared (iph ++ udp))) udp_ptr = udp).
  { unfold packet_at. cbn [udp_ptr fst snd array_of with_packet with_ether ether_packet]. rewrite Ecl, app_assoc. apply drop_app_length'. rewrite length_app, Hhdr, Hcl. done. }
  split; [exists sum, (pad ++ rest); rewrite Eat; done|].
  unfold handle_proto. rewrite (here_packet hdr Hhdr). rewrite !rd_cleared by (rewrite ?length_app, ?Hiph; unfold IPHDR, ip_p, ip_len, ip_src; lia).
  rewrite !rd_app_l by (rewrite Hiph; unfold ip_p, ip_len, ip_src; lia). rewrite Hp. res_simpl. rewrite Hlen. res_simpl.
  rewrite (rd_spec 4 iph ip_src) by (rewrite Hiph; unfold ip_src; lia). res_simpl.
  change (IPTYPE_UDP =? IPTYPE_ICMP) with false. change (IPTYPE_UDP =? IPTYPE_UDP) with true. cbn match.
  change (padd (EtherPacket, ETHHDR) IPHDR) with udp_ptr. unfold ETH_MTU_SIZE in Hmtu.
  replace (u32 (Z.of_nat (28 + length msg) - Z.of_nat IPHDR)) with (Z.of_nat (8 + length msg)) by (unfold IPHDR; rewrite u32_small by lia; lia). done.
Qed.

(** The ports of a datagram. *)
Lemma datagram_ports st sport dport msg : 0 <= sport < 65536 -> 0 <= dport < 65536 -> datagram_at st sport dport msg ->
  rd 2 (packet_at st udp_ptr) uh_sport = Ok sport /\ rd 2 (packet_at st udp_ptr) uh_dport = Ok dport.
Proof.
  intros Hs Hd (sum & rest & ->). split; [exact (rd_app 2 [] sport _ Hs) | exact (rd_app 2 (be_enc 2 sport) dport _ Hd)].
Qed.

(** The message of a datagram. *)
Lemma datagram_message st sport dport msg : datagram_at st sport dport msg ->
  exists rest, packet_at st (padd udp_ptr UDPHDR) = msg ++ rest.
Proof.
  intros (sum & rest & E). exists rest. unfold packet_at in *. cbn [padd udp_ptr fst snd] in *. rewrite <- drop_drop, E.
  rewrite !app_assoc, <- (app_assoc _ msg rest). apply drop_app_length'. by rewrite !length_app, !be_enc_length.
Qed.
End udp.
