(* ===== verification/NetEnds.v ===== *)
(** * lib/libnet: the stack ends

    receive_ether and send_ipv4 call each other.  They end when the number of
    frames that wait is finite, in a number of turns and of calls in each other
    that these frames and the clock bound ([budget]): a frame may set the timer
    again, so that each counts for a whole run of the timer.  On the way the
    queue only shrinks, and what the protocols above promise to keep ([keep]) is kept. *)

From Stdlib Require Import ZArith Lia.
From stdpp Require Import base list option numbers.
From S2P Require Import Prelude Packet Timer Ipv4 Arp.

Create HintDb terminates.

Section ends.
Context {U : Type} (keep : relation U) `{!PreOrder keep}.
Implicit Type st : net U.

(** A run of the timer for every frame that waits, and what is left of the timer:
    when it may be set before the next frame, and when it is not. *)
Definition budget st : Z := Z.of_nat (length (rxq (dev st))) * (TICKS_SEC + 1) + patience (clock (dev st)).
Definition turns st : Z := Z.of_nat (length (rxq (dev st))) * (TICKS_SEC + 1) + running (clock (dev st)).

(** The places in the ring of the ARP table are in the table. *)
Definition ring_ok st : Prop := (arp_consumer (arps st) < ARP_ENTRIES)%nat /\ (arp_producer (arps st) < ARP_ENTRIES)%nat.

Definition shrinks st st' : Prop :=
  (length (rxq (dev st')) <= length (rxq (dev st)))%nat /\ patience (clock (dev st')) <= patience (clock (dev st)) /\
  (ring_ok st -> ring_ok st') /\ keep (up st) (up st').

#[global] Instance shrinks_preorder : PreOrder shrinks.
Proof.
  split; [intros st; by split_and!|]. intros st1 st2 st3 (? & ? & ? & K) (? & ? & ? & K'). split_and!; [lia | lia | tauto | by etransitivity].
Qed.

Lemma shrinks_budget st st' : shrinks st st' -> budget st' <= budget st.
Proof. unfold budget, TICKS_SEC. intros (? & ? & _). lia. Qed.

Lemma turns_budget st : 0 <= turns st <= budget st.
Proof. unfold turns, budget, TICKS_SEC. pose proof (running_patience (clock (dev st))). lia. Qed.

(** A frame counts for more than a run of the timer. *)
Lemma frame_turns st st' : shrinks st st' -> (length (rxq (dev st')) < length (rxq (dev st)))%nat -> turns st' < turns st.
Proof.
  intros (_ & Hp & _) Hq. unfold turns. pose proof (running_patience (clock (dev st'))). pose proof (running_patience (clock (dev st))).
  unfold TICKS_SEC in *. lia.
Qed.

(** [r] ends, and the state in its result has shrunk. *)
Definition ends {A} (f : A -> net U) st (r : res A) : Prop :=
  match r with OutOfFuel => False | Fault => True | Ok x => shrinks st (f x) end.

Lemma ends_bind {A B} (f : A -> net U) (g : B -> net U) st r k :
  ends f st r -> (forall x, shrinks st (f x) -> ends g (f x) (k x)) -> ends g st (r ≫= k).
Proof.
  intros Hr Hk. destruct r as [x| |]; [|done|done]. cbn in *. specialize (Hk x Hr).
  destruct (k x); [|done|done]. cbn in *. by etransitivity.
Qed.

Lemma ends_pure {A B} (g : B -> net U) st (r : res A) k :
  terminates r -> (forall x, r = Ok x -> ends g st (k x)) -> ends g st (r ≫= k).
Proof. intros Hr Hk. destruct r as [x| |]; [by apply Hk | done | done]. Qed.

Lemma ends_ok {A} (f : A -> net U) st x : shrinks st (f x) -> ends f st (Ok x).
Proof. done. Qed.

Lemma ends_trans {A} (f : A -> net U) st st' r : shrinks st st' -> ends f st' r -> ends f st r.
Proof. intros H. destruct r; cbn; [by intros; etransitivity | done | done]. Qed.

Lemma ends_fmap {A B} (f : A -> net U) (g : B -> net U) (h : A -> B) st r :
  (forall x, g (h x) = f x) -> ends f st r -> ends g st (h <$> r).
Proof. intros E. destruct r; cbn; [by rewrite E | done | done]. Qed.

Lemma ends_terminates {A} (f : A -> net U) st r : ends f st r -> terminates r.
Proof. by destruct r. Qed.

Lemma rd_terminates n pkt i : terminates (rd n pkt i).
Proof. unfold rd. by case_decide. Qed.
Lemma rd_bytes_terminates n pkt i : terminates (rd_bytes n pkt i).
Proof. unfold rd_bytes. by case_decide. Qed.
Lemma wr_bytes_terminates pkt i bs : terminates (wr_bytes pkt i bs).
Proof. unfold wr_bytes. by case_decide. Qed.
Lemma wr_terminates n pkt i v : terminates (wr n pkt i v).
Proof. apply wr_bytes_terminates. Qed.
Lemma sum_loop_terminates n pkt o acc : terminates (sum_loop n pkt o acc).
Proof.
  revert o acc. induction n as [|n IH]; intros; cbn [sum_loop]; [done|].
  apply terminates_bind; [apply rd_terminates | intros; apply IH].
Qed.
Lemma checksum_terminates pkt o n : terminates (checksum pkt o n).
Proof. unfold checksum. pose proof (sum_loop_terminates n pkt o 0). by destruct (sum_loop _ _ _ _). Qed.
Lemma arp_get_terminates st i : terminates (arp_get st i).
Proof. unfold arp_get. by destruct (_ !! _). Qed.

(** What reads and writes packets ends. *)
Ltac term := repeat first
  [ done | apply rd_terminates | apply rd_bytes_terminates | apply wr_terminates | apply wr_bytes_terminates
  | apply sum_loop_terminates | apply checksum_terminates | apply arp_get_terminates
  | apply terminates_bind; [|intros] | case_match ].

Lemma fill_ethhdr_terminates pkt o t s d : terminates (fill_ethhdr pkt o t s d).
Proof. unfold fill_ethhdr. term. Qed.
Lemma fill_iphdr_terminates pkt o n p s d : terminates (fill_iphdr pkt o n p s d).
Proof. unfold fill_iphdr. term. Qed.
Lemma fill_ip6hdr_terminates pkt o n p s d : terminates (fill_ip6hdr pkt o n p s d).
Proof. unfold fill_ip6hdr. term. Qed.
Lemma fill_udphdr_terminates pkt o n s d : terminates (fill_udphdr pkt o n s d).
Proof. unfold fill_udphdr. term. Qed.
Lemma fill_arphdr_terminates pkt o op sm si dm di : terminates (fill_arphdr pkt o op sm si dm di).
Proof. unfold fill_arphdr. term. Qed.
Lemma fill_udp_checksum_terminates pkt : terminates (fill_udp_checksum pkt).
Proof. unfold fill_udp_checksum, udp_ip_hdr. term. Qed.
Lemma patch_headers_terminates r pkt : terminates (patch_headers r pkt).
Proof. unfold patch_headers. term. Qed.
Lemma fragment_key_terminates pkt : terminates (fragment_key pkt).
Proof. unfold fragment_key. term. Qed.
End ends.

#[export] Hint Resolve rd_terminates rd_bytes_terminates wr_terminates wr_bytes_terminates sum_loop_terminates
  checksum_terminates arp_get_terminates fill_ethhdr_terminates fill_iphdr_terminates fill_ip6hdr_terminates
  fill_udphdr_terminates fill_arphdr_terminates fill_udp_checksum_terminates patch_headers_terminates
  fragment_key_terminates : terminates.

Section stack.
Context {U : Type} (keep : relation U) `{!PreOrder keep}.
Implicit Type st : net U.
Abbreviation ends := (ends keep).
Abbreviation shrinks := (shrinks keep).

(** A step that only reads and writes packets, and the end of a handler. *)
Ltac pure_step := apply ends_pure; [solve [auto with terminates] | intros ? _].

Lemma shrinks_refl st : shrinks st st.
Proof. done. Qed.

(** States that differ in what the relation does not look at. *)
Definition quiet st st' : Prop := dev st' = dev st /\ arps st' = arps st /\ up st' = up st.

Lemma quiet_shrinks st st' : quiet st st' -> shrinks st st'.
Proof. intros (Hd & Ha & Hu). unfold NetEnds.shrinks, ring_ok. rewrite Hd, Ha, Hu. by split_and!. Qed.

Lemma lookup_ends st ip : ring_ok st -> terminates (lookup_mac_addr st ip).
Proof.
  intros [Hc Hp]. unfold lookup_mac_addr.
  assert (exists n, (n < ARP_ENTRIES)%nat /\ ring (arp_consumer (arps st)) n = arp_producer (arps st)) as (n & Hn & Hr).
  { exists (arp_used st). split; [apply arp_used_lt|]. unfold arp_used, ring, ARP_ENTRIES in *. zify. Z.to_euclidean_division_equations. lia. }
  assert (Hf : (n < S ARP_ENTRIES)%nat) by lia. revert Hf Hr Hc. generalize (arp_consumer (arps st)) as i. revert Hn.
  generalize (S ARP_ENTRIES) as fuel. induction n as [|n IH]; intros [|fuel] Hn i Hf Hr Hi; try lia; cbn [lookup_loop].
  - rewrite ring_0 in Hr by done. by rewrite decide_True.
  - case_decide; [done|]. apply terminates_bind; [apply arp_get_terminates|]. intros e _. case_match; [done|].
    apply IH; [lia | lia | | apply ring_lt]. change ((i + 1) mod ARP_ENTRIES)%nat with (ring i 1). by rewrite ring_ring.
Qed.

Lemma send_ether_ends send st buffer n : ends snd st (send_ether send st buffer n).
Proof. unfold send_ether. pure_step. by apply ends_ok. Qed.

Lemma ends_step {A B} (f : A -> net U) (g : B -> net U) st r k :
  ends f st r -> ring_ok st ->
  (forall x, ring_ok (f x) -> budget (f x) <= budget st -> ends g (f x) (k x)) -> ends g st (r ≫= k).
Proof using Type*.
  intros Hr Hok Hk. eapply ends_bind; [done | exact Hr|]. intros x Hx. apply Hk; [by apply Hx | by eapply shrinks_budget].
Qed.

(** The promises of receive_ether, which touches the timer only when a frame
    came, of a sender, and of a handler. *)
Definition rx_ends (n : Z) (rx : net U -> res (Z * net U)) : Prop :=
  forall st, budget st <= n -> ring_ok st -> ends snd st (rx st) /\ forall v st', rx st = Ok (v, st') -> turns st' <= turns st.
Definition sender_ends (h : nat -> (net U -> res (Z * net U)) -> net U -> list Z -> nat -> res (Z * net U)) : Prop :=
  forall fuel rx st buffer n, budget st < Z.of_nat fuel -> ring_ok st -> rx_ends (budget st) rx -> ends snd st (h fuel rx st buffer n).
Definition handler_ends (h : nat -> (net U -> res (Z * net U)) -> net U -> ptr -> Z -> res (Z * net U)) : Prop :=
  forall fuel rx st p n, budget st < Z.of_nat fuel -> ring_ok st -> rx_ends (budget st) rx -> ends snd st (h fuel rx st p n).

Lemma rx_ends_le n n' rx : n' <= n -> rx_ends n rx -> rx_ends n' rx.
Proof. intros Hn H st Hst. apply H. lia. Qed.

Lemma start_timer_shrinks st : shrinks st (start_timer st).
Proof. split_and!; try done. apply set_timer_patience. Qed.

Lemma timer_left_shrinks st : shrinks st (timer_left st).2 /\ turns (timer_left st).2 <= turns st /\
  ((timer_left st).1 = true -> turns (timer_left st).2 < turns st).
Proof.
  unfold timer_left, turns. pose proof (get_timer_running (clock (dev st))) as (Hr & Hp & Hl). destruct (get_timer (clock (dev st))) as [n t].
  cbn [fst snd dev with_dev rxq clock] in *. split; [by split_and!|]. split; [lia|]. intros Hn%Z.ltb_lt. specialize (Hl Hn). lia.
Qed.

Lemma wait_loop_ends rx n fuel i st :
  turns st < Z.of_nat fuel -> budget st <= n -> ring_ok st -> rx_ends n rx -> ends id st (wait_loop fuel rx i st).
Proof using Type*.
  revert st. induction fuel as [|fuel IH]; intros st Hf Hb Hok Hrx; [pose proof (turns_budget st); lia|]. cbn [wait_loop].
  destruct (Hrx st Hb Hok) as [He Ht].
  destruct (rx st) as [[v st1]| |] eqn:E; res_simpl; [|done|done]. cbn [NetEnds.ends snd] in He. specialize (Ht _ _ eq_refl).
  pose proof (shrinks_budget keep _ _ He). apply (ends_trans keep id st st1); [exact He|]. pure_step. case_match; [by apply ends_ok|].
  destruct (timer_left_shrinks st1) as (Hs & Hle & Hlt). destruct (timer_left st1) as [more st2]. cbn [fst snd] in *.
  destruct more; [|by apply ends_ok]. specialize (Hlt eq_refl). pose proof (shrinks_budget keep _ _ Hs).
  apply (ends_trans keep id st1 st2); [exact Hs|]. apply IH; [lia | lia | by apply Hs, He | done].
Qed.

Lemma arp_set_shrinks st i e : shrinks st (arp_set st i e).
Proof. by split_and!. Qed.

Lemma arp_send_request_ends send st ip : ends id st (arp_send_request send st ip).
Proof using Type*.
  unfold arp_send_request. do 4 pure_step. apply (ends_bind keep snd).
  - eapply ends_trans; [done | apply arp_set_shrinks | apply send_ether_ends].
  - intros [? st'] H. by apply ends_ok.
Qed.

Lemma arp_send_reply_ends send st ip mac : ends id st (arp_send_reply send st ip mac).
Proof using Type*.
  unfold arp_send_reply. do 4 pure_step. apply (ends_bind keep snd).
  - eapply ends_trans; [done | apply arp_set_shrinks | apply send_ether_ends].
  - intros [? st'] H. by apply ends_ok.
Qed.

Lemma resolve_terminates st ip : ring_ok st -> terminates (resolve st ip).
Proof.
  intros H. unfold resolve. repeat case_match; try done; (apply terminates_bind; [by apply lookup_ends|]);
    intros [i|] _; (done || (apply terminates_bind; [auto with terminates | done])).
Qed.

Lemma arp_enqueue_ends st ip buffer n : ends snd st (arp_enqueue st ip buffer n).
Proof.
  unfold arp_enqueue. do 4 pure_step. apply ends_ok. unfold NetEnds.shrinks. cbn. split_and!; [done | done | | done].
  intros [Hc Hp]. split; cbn; [case_decide; [apply (ring_lt _ 1) | done] | apply (ring_lt _ 1)].
Qed.

(** The wait, from the setting of the timer on. *)
Lemma wait_ends rx n fuel i st :
  budget st < Z.of_nat fuel -> budget st <= n -> ring_ok st -> rx_ends n rx ->
  ends snd st (st ← wait_loop fuel rx i (start_timer st); Ok (0, st)).
Proof using Type*.
  intros Hf Hb Hok Hrx. pose proof (start_timer_shrinks st) as Hs. pose proof (shrinks_budget keep _ _ Hs). pose proof (turns_budget (start_timer st)).
  apply (ends_bind keep id); [|intros st' _; by apply ends_ok].
  apply (ends_trans keep id st (start_timer st)); [exact Hs|]. apply (wait_loop_ends rx n); [lia | lia | by apply Hs | done].
Qed.

Lemma send_ipv4_ends send : sender_ends (send_ipv4 send).
Proof using Type*.
  intros fuel rx st buffer n Hf Hok Hrx. unfold send_ipv4. case_decide; [by apply ends_ok|]. do 2 pure_step.
  apply ends_pure; [by apply resolve_terminates|]. intros [[[i|] [mac|]] ip] _.
  - do 4 pure_step. eapply ends_trans; [done | apply arp_set_shrinks | apply send_ether_ends].
  - apply (ends_bind keep id); [apply arp_send_request_ends|]. intros st' _. by apply ends_ok.
  - apply (ends_step id); [apply arp_send_request_ends | done|]. intros st1 Hok1 Hb1.
    apply (ends_step snd); [apply arp_enqueue_ends | done|]. intros [j st2] Hok2 Hb2. cbn [id snd] in *.
    apply (wait_ends rx (budget st)); [lia | lia | done | done].
  - apply (ends_step id); [apply arp_send_request_ends | done|]. intros st1 Hok1 Hb1.
    apply (ends_step snd); [apply arp_enqueue_ends | done|]. intros [j st2] Hok2 Hb2. cbn [id snd] in *.
    apply (wait_ends rx (budget st)); [lia | lia | done | done].
Qed.

(** ** Receiving *)

Lemma handle_arp_ends send st packet size : ring_ok st -> ends snd st (handle_arp send st packet size).
Proof using Type*.
  intros Hok. unfold handle_arp. case_match; [by apply ends_ok|]. do 2 pure_step. case_match; [by apply ends_ok|].
  pure_step. case_match; [by apply ends_ok|]. do 3 pure_step. case_match; [|case_match; [|by apply ends_ok]].
  - apply (ends_bind keep id); [|by intros st' _; apply ends_ok].
    case_match; [apply arp_send_reply_ends | by apply ends_ok].
  - pure_step. case_match; [by apply ends_ok|]. case_match; [by apply ends_ok|].
    apply ends_pure; [by apply lookup_ends|]. intros [i|] _; [|by apply ends_ok]. pure_step.
    case_match; [by apply ends_ok|]. case_match; [by apply ends_ok|]. pure_step.
    apply (ends_bind keep snd); [eapply (ends_trans keep); [| apply send_ether_ends]; by split_and!|].
    intros [? st'] _. by apply ends_ok.
Qed.

Context (send : list Z -> Z)
  (handle_dhcp handle_dns handle_dhcpv6 handle_tftp : nat -> (net U -> res (Z * net U)) -> net U -> ptr -> Z -> res (Z * net U))
  (handle_tftp_dun : net U -> Z -> net U)
  (handle_ipv6 : nat -> (net U -> res (Z * net U)) -> net U -> ptr -> Z -> res (Z * net U))
  (Hdhcp : handler_ends handle_dhcp) (Hdns : handler_ends handle_dns) (Hdhcpv6 : handler_ends handle_dhcpv6)
  (Htftp : handler_ends handle_tftp) (Hdun : forall st code, shrinks st (handle_tftp_dun st code))
  (Hipv6 : handler_ends handle_ipv6).

Lemma handle_udp_ends : handler_ends (handle_udp handle_dhcp handle_dns handle_dhcpv6 handle_tftp).
Proof using Type*.
  intros fuel rx st p n Hf Hok Hrx. unfold handle_udp. case_match; [by apply ends_ok|]. do 2 pure_step.
  repeat case_match; try (by apply ends_ok); (eapply (ends_fmap keep snd snd); [done|]);
    [apply Hdhcp | apply Hdns | apply Hdhcpv6 | apply Htftp]; done.
Qed.

Lemma handle_udp_dun_ends st packet n code : ends id st (handle_udp_dun handle_tftp_dun st packet n code).
Proof using Type*.
  unfold handle_udp_dun. case_match; [by apply ends_ok|]. pure_step. case_match; apply ends_ok; [apply Hdun | done].
Qed.

Lemma handle_icmp_ends fuel rx st src packet n :
  budget st < Z.of_nat fuel -> ring_ok st -> rx_ends (budget st) rx ->
  ends snd st (handle_icmp send handle_tftp_dun fuel rx st src packet n).
Proof using Type*.
  intros Hf Hok Hrx. unfold handle_icmp. pure_step. case_match; [|case_match; [|case_match; [|by apply ends_ok]]].
  - do 2 pure_step. repeat case_match; by apply ends_ok.
  - pure_step. case_match; [|by apply ends_ok]. pure_step.
    apply (ends_bind keep id); [apply handle_udp_dun_ends|]. intros st' _. by apply ends_ok.
  - do 7 pure_step. apply (ends_bind keep snd); [by apply send_ipv4_ends|]. intros [? st'] _. by apply ends_ok.
Qed.

Abbreviation proto_in := (handle_proto send handle_dhcp handle_dns handle_dhcpv6 handle_tftp handle_tftp_dun).
Abbreviation ipv4_in := (handle_ipv4 send handle_dhcp handle_dns handle_dhcpv6 handle_tftp handle_tftp_dun).

Lemma handle_proto_ends fuel rx st p :
  budget st < Z.of_nat fuel -> ring_ok st -> rx_ends (budget st) rx -> ends snd st (proto_in fuel rx st p).
Proof using Type*.
  intros Hf Hok Hrx. unfold handle_proto. do 3 pure_step.
  repeat case_match; [by apply handle_icmp_ends | by apply handle_udp_ends | by apply ends_ok..].
Qed.

Lemma store_ends st p bs : ends id st (store st p bs).
Proof using Type*. unfold store. pure_step. apply ends_ok. destruct p as [[] o]; by split_and!. Qed.

Lemma handle_ipv4_ends : handler_ends ipv4_in.
Proof using Type*.
  intros fuel rx st p n Hf Hok Hrx. unfold handle_ipv4. case_match; [by apply ends_ok|]. pure_step.
  case_match; [by apply ends_ok|]. pure_step. apply (ends_step id); [apply store_ends | done|]. intros st1 Hok1 Hb1.
  cbn [id] in *. assert (rx_ends (budget st1) rx) as Hrx1 by (eapply rx_ends_le; [|exact Hrx]; lia).
  pure_step. case_match; [by apply ends_ok|]. do 2 pure_step. case_match.
  - case_match; [|apply handle_proto_ends; [lia | done | done]].
    pure_step. apply (ends_bind keep id); [apply store_ends|]. intros st2 _. by apply ends_ok.
  - do 2 pure_step. case_match; [by apply ends_ok|]. pure_step.
    apply (ends_step id); [apply store_ends | done|]. intros st2 Hok2 Hb2. cbn [id] in *. case_match; [by apply ends_ok|].
    apply (ends_step id); [apply store_ends | done|]. intros st3 Hok3 Hb3. cbn [id] in *.
    apply handle_proto_ends; [lia | done | eapply rx_ends_le; [|exact Hrx]; lia].
Qed.

Abbreviation ether_in := (receive_ether send handle_dhcp handle_dns handle_dhcpv6 handle_tftp handle_tftp_dun handle_ipv6).

(** What follows when a frame came. *)
Lemma frame_ends fuel st bytes frame :
  budget st < Z.of_nat fuel -> ring_ok st -> rx_ends (budget st) (ether_in fuel) ->
  ends snd st (packet ← wr_bytes (replicate ETH_MTU_SIZE 0) 0 frame;
    let st := with_ether st packet in
    if bytes =? 0 then Ok (0, st) else if bytes <? 0 then Ok (-1, st) else if bytes <? Z.of_nat ETHHDR then Ok (-1, st) else
    dest_mac ← rd_bytes 6 packet eth_dest_mac;
    if negb (mac_accepted (own_mac st) dest_mac) then Ok (-1, st) else
    type ← rd 2 packet eth_type;
    let size := bytes - Z.of_nat ETHHDR in
    if type =? ETHERTYPE_IP then ipv4_in fuel (ether_in fuel) st (EtherPacket, ETHHDR) size
    else if type =? ETHERTYPE_IPv6 then handle_ipv6 fuel (ether_in fuel) st (EtherPacket, ETHHDR) size
    else if type =? ETHERTYPE_ARP then handle_arp send st (packet_at st (EtherPacket, ETHHDR)) size
    else Ok (-1, st)).
Proof using Type*.
  intros Hf Hok Hrx. pure_step. cbv zeta. set (st2 := with_ether st _).
  assert (Hq : shrinks st st2) by by apply quiet_shrinks. assert (Hok2 : ring_ok st2) by by apply Hq.
  case_match; [by apply ends_ok|]. case_match; [by apply ends_ok|]. case_match; [by apply ends_ok|].
  eapply (ends_trans keep); [exact Hq|]. pure_step. case_match; [by apply ends_ok|]. pure_step.
  change (budget st) with (budget st2) in Hf, Hrx.
  repeat case_match; [apply handle_ipv4_ends | apply Hipv6 | by apply handle_arp_ends | by apply ends_ok]; try done; lia.
Qed.

Lemma receive_ether_ends fuel st :
  budget st < Z.of_nat fuel -> ring_ok st ->
  ends snd st (ether_in fuel st) /\ forall v st', ether_in fuel st = Ok (v, st') -> turns st' <= turns st.
Proof using Type*.
  revert st. induction fuel as [|fuel IH]; intros st Hf Hok; [pose proof (turns_budget st); lia|]. cbn [receive_ether]. unfold recv.
  set (d := dev st). set (st1 := with_dev st _).
  assert (H1 : shrinks st st1).
  { unfold NetEnds.shrinks. cbn. fold d. rewrite length_tl. split_and!; [lia | done | done | done]. }
  assert (Ht1 : turns st1 <= turns st) by (unfold turns, TICKS_SEC; cbn; fold d; rewrite length_tl; lia).
  destruct (rxq d) as [|[frame|] q] eqn:E.
  - rewrite wr_bytes_spec by (cbn; lia). res_simpl. split; [exact H1|]. intros v st' [= <- <-]. exact Ht1.
  - assert (Hlt : (length (rxq (dev st1)) < length (rxq (dev st)))%nat) by (subst st1; cbn; fold d; rewrite E; cbn; lia).
    assert (Hb1 : budget st1 < Z.of_nat fuel).
    { pose proof (shrinks_budget keep _ _ H1). unfold budget, TICKS_SEC in *. change (clock (dev st1)) with (clock (dev st)) in *. lia. }
    pose proof (frame_ends fuel st1 (Z.of_nat (length (take ETH_MTU_SIZE frame))) (take ETH_MTU_SIZE frame) Hb1 ltac:(by apply H1)) as Hfr.
    match goal with |- ends snd st ?r /\ _ => assert (ends snd st1 r) as Hr by (apply Hfr; intros st' Hst' Hok'; apply IH; [lia | done]) end.
    split; [eapply (ends_trans keep); [exact H1 | exact Hr]|]. intros v st' Ev. rewrite Ev in Hr. cbn [NetEnds.ends snd] in Hr.
    enough (turns st' < turns st) by lia. apply (frame_turns keep); [by etransitivity|]. destruct Hr as [Hq _]. lia.
  - rewrite wr_bytes_spec by (cbn; lia). res_simpl. split; [exact H1|]. intros v st' [= <- <-]. exact Ht1.
Qed.
End stack.
