(* ===== verification/Tftp.v ===== *)
(** * lib/libnet/tftp.c: the TFTP client

    The static variables are the record [tftp_st], which is a part of what the
    protocols above IPv4 keep ([HasTftp]).  The code runs on the stack of Ipv4.v:
    it sends with send_ip, which may receive in turn, and it is entered from
    receive_ether through handle_udp.  send_ipv6, the own IPv6 address and the
    other protocols are parameters.  The output on the console is left out. *)

From Stdlib Require Import ZArith Lia ZifyNat.
From stdpp Require Import base list gmap option numbers.
From S2P Require Import Prelude CMem CString Conv Packet Timer Ipv4 Arp NetEnds.

Definition MAX_BLOCKSIZE : Z := 1428.
Definition BUFFER_LEN : nat := 256.

Definition ENOTFOUND : Z := 1.
Definition EACCESS : Z := 2.
Definition EBADOP : Z := 4.
Definition EBADID : Z := 5.
Definition ENOUSER : Z := 7.

Definition RRQ : Z := 1.
Definition DATA : Z := 3.
Definition ACK : Z := 4.
Definition ERROR : Z := 5.
Definition OACK : Z := 6.

(** struct tftphdr *)
Definition th_opcode : nat := 0.
Definition th_data : nat := 2.
Definition TFTPHDR : nat := 4.

(** ** The state *)

(** The file name without the NUL that ends it. *)
Record filename_ip_t := FilenameIp { server_ip : Z; server_ip6 : list Z; filename : list Z; ip_ver : Z }.

Record tftp_err_t := TftpErr { bad_tftp_packets : Z; no_packets : Z; blocks_missed : Z; blocks_received : Z }.

(** [buffer_set]: the pointer buffer is not INVALID_BUFFER; [buffer]: the bytes
    from the address the caller gave on. *)
Record tftp_st := Tftp {
  buffer_set : bool; buffer : list Z; len : Z; retries : Z; blocksize : Z; blocksize_str : list Z; huge_load : Z;
  block : Z; received_len : Z; tftp_finished : Z; lost_packets : Z; tftp_errno : Z; port_number : Z;
  tftp_err : tftp_err_t; fn_ip : filename_ip_t }.

Definition set_block (v : Z) (t : tftp_st) : tftp_st :=
  Tftp (buffer_set t) (buffer t) (len t) (retries t) (blocksize t) (blocksize_str t) (huge_load t) v (received_len t) (tftp_finished t) (lost_packets t) (tftp_errno t) (port_number t) (tftp_err t) (fn_ip t).
Definition set_blocksize (v : Z) (t : tftp_st) : tftp_st :=
  Tftp (buffer_set t) (buffer t) (len t) (retries t) v (blocksize_str t) (huge_load t) (block t) (received_len t) (tftp_finished t) (lost_packets t) (tftp_errno t) (port_number t) (tftp_err t) (fn_ip t).
Definition set_received_len (v : Z) (t : tftp_st) : tftp_st :=
  Tftp (buffer_set t) (buffer t) (len t) (retries t) (blocksize t) (blocksize_str t) (huge_load t) (block t) v (tftp_finished t) (lost_packets t) (tftp_errno t) (port_number t) (tftp_err t) (fn_ip t).
Definition set_tftp_finished (v : Z) (t : tftp_st) : tftp_st :=
  Tftp (buffer_set t) (buffer t) (len t) (retries t) (blocksize t) (blocksize_str t) (huge_load t) (block t) (received_len t) v (lost_packets t) (tftp_errno t) (port_number t) (tftp_err t) (fn_ip t).
Definition set_lost_packets (v : Z) (t : tftp_st) : tftp_st :=
  Tftp (buffer_set t) (buffer t) (len t) (retries t) (blocksize t) (blocksize_str t) (huge_load t) (block t) (received_len t) (tftp_finished t) v (tftp_errno t) (port_number t) (tftp_err t) (fn_ip t).
Definition set_tftp_errno (v : Z) (t : tftp_st) : tftp_st :=
  Tftp (buffer_set t) (buffer t) (len t) (retries t) (blocksize t) (blocksize_str t) (huge_load t) (block t) (received_len t) (tftp_finished t) (lost_packets t) v (port_number t) (tftp_err t) (fn_ip t).
Definition set_port_number (v : Z) (t : tftp_st) : tftp_st :=
  Tftp (buffer_set t) (buffer t) (len t) (retries t) (blocksize t) (blocksize_str t) (huge_load t) (block t) (received_len t) (tftp_finished t) (lost_packets t) (tftp_errno t) v (tftp_err t) (fn_ip t).
Definition set_tftp_err (v : tftp_err_t) (t : tftp_st) : tftp_st :=
  Tftp (buffer_set t) (buffer t) (len t) (retries t) (blocksize t) (blocksize_str t) (huge_load t) (block t) (received_len t) (tftp_finished t) (lost_packets t) (tftp_errno t) (port_number t) v (fn_ip t).
Definition set_buffer (v : list Z) (t : tftp_st) : tftp_st :=
  Tftp (buffer_set t) v (len t) (retries t) (blocksize t) (blocksize_str t) (huge_load t) (block t) (received_len t) (tftp_finished t) (lost_packets t) (tftp_errno t) (port_number t) (tftp_err t) (fn_ip t).

Definition count_bad (t : tftp_st) : tftp_st :=
  let e := tftp_err t in set_tftp_err (TftpErr (u32 (bad_tftp_packets e + 1)) (no_packets e) (blocks_missed e) (blocks_received e)) t.
Definition count_none (t : tftp_st) : tftp_st :=
  let e := tftp_err t in set_tftp_err (TftpErr (bad_tftp_packets e) (u32 (no_packets e + 1)) (blocks_missed e) (blocks_received e)) t.
Definition clear_bad (t : tftp_st) : tftp_st :=
  let e := tftp_err t in set_tftp_err (TftpErr 0 (no_packets e) (blocks_missed e) (blocks_received e)) t.
Definition set_blocks (missed received : Z) (t : tftp_st) : tftp_st :=
  let e := tftp_err t in set_tftp_err (TftpErr (bad_tftp_packets e) (no_packets e) missed received) t.

(** The state of the client as a part of a larger state. *)
Class HasTftp (U : Type) := {
  get_tftp : U -> tftp_st;
  put_tftp : tftp_st -> U -> U;
  get_put t u : get_tftp (put_tftp t u) = t;
  put_get u : put_tftp (get_tftp u) u = u;
  put_put t t' u : put_tftp t (put_tftp t' u) = put_tftp t u;
}.

#[export] Instance tftp_has_tftp : HasTftp tftp_st.
Proof. refine {| get_tftp t := t; put_tftp t _ := t |}; done. Defined.

(** ** The answer to the options *)

(** The array [bs] in memory, and the string literal. *)
Definition ARRAY : Z := 4096.
Definition BLKSIZE : Z := 16.
Definition blksize : list Z := [98; 108; 107; 115; 105; 122; 101].
Definition array_mem (bs : list Z) : mem := write_bytes (write_bytes ∅ ARRAY bs) BLKSIZE (blksize ++ [0]).

Fixpoint blksize_loop (fuel : nat) (m : mem) (buffer last : Z) : res Z :=
  match fuel with
  | O => OutOfFuel
  | S fuel' =>
      if last <=? buffer then Ok 0 else
      c ← memcmp m buffer BLKSIZE 8;
      if c =? 0 then '(v, _) ← strtoul m (buffer + 8) 10; Ok (u16 v)
      else
        buffer ← strchr m buffer 0;
        if buffer =? 0 then Ok 0 else
        buffer ← strchr m (buffer + 1) 0;
        if buffer =? 0 then Ok 0 else blksize_loop fuel' m (buffer + 1) last
  end.

Definition get_blksize (packet : list Z) (len : Z) : res Z :=
  let m := array_mem packet in blksize_loop (walk_fuel m) m (ARRAY + Z.of_nat UDPHDR + 2) (ARRAY + len).

Section tftp.
Context {U : Type} `{HasTftp U} (send : list Z -> Z).
Implicit Type st : net U.

Definition tf st : tftp_st := get_tftp (up st).
Definition upd (f : tftp_st -> tftp_st) st : net U := with_up st (put_tftp (f (tf st)) (up st)).

(** ** Sending *)

(** send_ipv6 and the address get_ipv6_address gives. *)
Context (send_ipv6 : nat -> (net U -> res (Z * net U)) -> net U -> list Z -> nat -> res (Z * net U)) (own_ip6 : list Z).

Definition call_send_ip (fuel : nat) (rx : net U -> res (Z * net U)) st (packet : list Z) (n : nat) : res (Z * net U) :=
  match send_ip st with IPv4 => send_ipv4 send fuel rx st packet n | IPv6 => send_ipv6 fuel rx st packet n end.

(** The IP and UDP headers of a message of [n] bytes to the server: the packet,
    the offset of the message and the length of the packet. *)
Definition fill_headers (fn : filename_ip_t) (n : nat) (dport : Z) : res (list Z * nat * nat) :=
  let packet := replicate BUFFER_LEN 0 in
  let udp_len := Z.of_nat (UDPHDR + n) in
  '(packet, udph, ip_len) ←
    (if ip_ver fn =? 4 then
       packet ← fill_iphdr packet 0 (Z.of_nat (IPHDR + UDPHDR + n)) IPTYPE_UDP 0 (server_ip fn);
       Ok (packet, IPHDR, (IPHDR + UDPHDR + n)%nat)
     else if ip_ver fn =? 6 then
       packet ← fill_ip6hdr packet 0 udp_len IPTYPE_UDP own_ip6 (server_ip6 fn);
       Ok (packet, IP6HDR, (IP6HDR + UDPHDR + n)%nat)
     else Fault);
  packet ← fill_udphdr packet udph udp_len 2001 dport;
  Ok (packet, (udph + UDPHDR)%nat, ip_len).

Definition octet : list Z := [111; 99; 116; 101; 116].

Definition send_rrq (fuel : nat) (rx : net U -> res (Z * net U)) st : res (net U) :=
  let fn := fn_ip (tf st) in
  let data := filename fn ++ [0] ++ octet ++ [0] ++ blksize ++ [0] ++ blocksize_str (tf st) ++ [0] in
  let n := (length (filename fn) + length octet + 4 + length blksize + length (blocksize_str (tf st)) + 2)%nat in
  '(packet, tftp, ip_len) ← fill_headers fn n 69;
  packet ← wr 2 packet (tftp + th_opcode) RRQ;
  packet ← wr_bytes packet (tftp + th_data) data;
  '(_, st) ← call_send_ip fuel rx st packet ip_len;
  Ok st.

Definition send_ack (fuel : nat) (rx : net U -> res (Z * net U)) st (blckno dport : Z) : res (net U) :=
  '(packet, tftp, ip_len) ← fill_headers (fn_ip (tf st)) 4 dport;
  packet ← wr 2 packet (tftp + th_opcode) ACK;
  packet ← wr 2 packet (tftp + th_data) blckno;
  '(_, st) ← call_send_ip fuel rx st packet ip_len;
  Ok st.

Definition send_error (fuel : nat) (rx : net U -> res (Z * net U)) st (error_code dport : Z) : res (net U) :=
  '(packet, tftp, ip_len) ← fill_headers (fn_ip (tf st)) 5 dport;
  packet ← wr 2 packet (tftp + th_opcode) ERROR;
  packet ← wr 2 packet (tftp + th_data) error_code;
  packet ← wr 1 packet (tftp + th_data + 2) 0;
  '(_, st) ← call_send_ip fuel rx st packet ip_len;
  Ok st.

(** ** Receiving *)

(** The label error. *)
Definition fail st (errno : Z) : res (Z * net U) := Ok (errno, upd (fun t => set_tftp_finished 1 (set_tftp_errno errno t)) st).

Definition errno_of (code : Z) : Z :=
  if code =? ENOTFOUND then -3 else if code =? EACCESS then -4 else if code =? EBADOP then -5
  else if code =? EBADID then -6 else if code =? ENOUSER then -7 else -1.

(** The new number of the block, if the block [num] is the next one. *)
Definition next_block (t : tftp_st) (num : Z) : option Z :=
  if block t + 1 =? num then Some (u16 (block t + 1))
  else if (block t =? 0xffff) && negb (huge_load t =? 0) && ((num =? 0) || (num =? 1)) then Some num
  else None.

(** What follows the copy of a new block: [pkt] is read again after the
    acknowledgement was sent. *)
Definition finish_block st (pkt : ptr) : res (Z * net U) :=
  ulen ← rd 2 (packet_at st pkt) uh_ulen;
  let st := upd (fun t => set_received_len (s32 (received_len t + ulen - 12)) t) st in
  if ulen <? blocksize (tf st) + 12 then Ok (0, upd (set_tftp_finished 1) st)
  else if (0xffff <=? block (tf st)) && (huge_load (tf st) =? 0) then fail st (-9)
  else Ok (0, st).

Definition handle_data (fuel : nat) (rx : net U -> res (Z * net U)) st (pkt : ptr) : res (Z * net U) :=
  num ← rd 2 (packet_at st pkt) (UDPHDR + th_data);
  match next_block (tf st) num with
  | Some b =>
      let st := upd (fun t => clear_bad (set_block b t)) st in
      ulen ← rd 2 (packet_at st pkt) uh_ulen;
      if len (tf st) <? received_len (tf st) + ulen - 12 then fail st (-2) else
      data ← rd_bytes (Z.to_nat (u64 (ulen - 12))) (packet_at st pkt) (UDPHDR + TFTPHDR);
      buf ← wr_bytes (buffer (tf st)) (Z.to_nat (received_len (tf st))) data;
      st ← send_ack fuel rx (upd (set_buffer buf) st) num (port_number (tf st));
      finish_block st pkt
  | None =>
      if num =? block (tf st) then
        st ← send_ack fuel rx st num (port_number (tf st));
        Ok (0, upd (fun t => count_bad (set_lost_packets (s32 (lost_packets t + 1)) t)) st)
      else if num <? block (tf st) then Ok (0, upd count_bad st)
      else fail (upd (set_blocks (block (tf st) + 1) num) st) (-42)
  end.

(** The opcode is signed, and ERROR is looked for in its low byte. *)
Definition handle_tftp (fuel : nat) (rx : net U -> res (Z * net U)) st (pkt : ptr) (packetsize : Z) : res (Z * net U) :=
  if negb (buffer_set (tf st)) then Ok (0, st) else
  let st := start_timer st in
  sport ← rd 2 (packet_at st pkt) uh_sport;
  let st := upd (set_port_number (to_signed 16 sport)) st in
  opcode ← rd 2 (packet_at st pkt) (UDPHDR + th_opcode);
  if opcode =? OACK then
    size ← get_blksize (packet_at st pkt) (u32 packetsize);
    let st := upd (set_blocksize size) st in
    if (size =? 0) || (MAX_BLOCKSIZE <? size) then
      st ← send_error fuel rx st 8 (port_number (tf st));
      fail st (-8)
    else
      st ← send_ack fuel rx st 0 (port_number (tf st));
      Ok (0, st)
  else if opcode =? ACK then
    st ← send_ack fuel rx (upd (set_blocksize 512) st) 0 (port_number (tf st));
    Ok (0, st)
  else if u8 opcode =? ERROR then
    code ← rd 2 (packet_at st pkt) (UDPHDR + th_data);
    fail st (errno_of (u8 code))
  else if opcode =? DATA then handle_data fuel rx st pkt
  else Ok (0, upd count_bad st).

Definition handle_tftp_dun st (err_code : Z) : net U :=
  upd (fun t => set_tftp_finished 1 (set_tftp_errno (- err_code - 10) t)) st.

(** ** Loading a file *)

Context (handle_dhcp handle_dns handle_dhcpv6 handle_ipv6 : nat -> (net U -> res (Z * net U)) -> net U -> ptr -> Z -> res (Z * net U)).

Abbreviation ether_in :=
  (receive_ether send handle_dhcp handle_dns handle_dhcpv6 handle_tftp handle_tftp_dun handle_ipv6).

(** When the timer has run out. *)
Definition tftp_timeout (depth : nat) st : res (net U) :=
  let t := tf st in
  let n := no_packets (tftp_err t) in
  st ← (if (4 <? n) && negb (port_number t =? -1) && (1 <? block t) then send_ack depth (ether_in depth) st (block t) (port_number t)
        else if (port_number t =? -1) && (block t =? 0) && (Z.land n 3 =? 3) then send_rrq depth (ether_in depth) st
        else Ok st);
  Ok (start_timer (upd count_none st)).

(** [fuel] bounds the turns, [depth] the calls of receive_ether in each other. *)
Fixpoint tftp_loop (fuel depth : nat) st : res (net U) :=
  match fuel with
  | O => OutOfFuel
  | S fuel' =>
      if negb (tftp_finished (tf st) =? 0) then Ok st else
      let '(more, st) := timer_left st in
      st ← (if more : bool then Ok st else tftp_timeout depth st);
      '(_, st) ← ether_in depth st;
      if retries (tf st) <? bad_tftp_packets (tftp_err (tf st)) then Ok (upd (set_tftp_errno (-40)) st)
      else if retries (tf st) <? no_packets (tftp_err (tf st)) then Ok (upd (set_tftp_errno (-41)) st)
      else tftp_loop fuel' depth st
  end.

(** The digits of MAX_BLOCKSIZE, as sprintf prints them. *)
Definition max_blocksize_str : list Z := [49; 52; 50; 56].

Definition tftp_init (fn : filename_ip_t) (buf : list Z) (_len _retries missed received : Z) : tftp_st :=
  Tftp true buf _len _retries 512 max_blocksize_str 1 0 0 0 0 0 (-1) (TftpErr 0 0 missed received) fn.

Definition tftp (fuel depth : nat) st (fn : filename_ip_t) (buf : list Z) (_len _retries : Z) (err : tftp_err_t) : res (Z * net U) :=
  let st := upd (fun _ => tftp_init fn buf _len _retries (blocks_missed err) (blocks_received err)) st in
  let st := start_timer st in
  st ← send_rrq depth (ether_in depth) st;
  st ← tftp_loop fuel depth st;
  let st := upd (fun t => Tftp false (buffer t) (len t) (retries t) (blocksize t) (blocksize_str t) (huge_load t) (block t)
    (received_len t) (tftp_finished t) (lost_packets t) (tftp_errno t) (port_number t) (tftp_err t) (fn_ip t)) st in
  Ok (if negb (tftp_errno (tf st) =? 0) then tftp_errno (tf st) else received_len (tf st), st).
End tftp.

(** What tftp_get_error_info gives for a result of tftp: the code of the error,
    the numbers its text has, and the result; the text itself is left out. *)
Record error_info := ErrorInfo { ecode : option Z; numbers : list Z; code : Z }.

Definition tftp_get_error_info (t : tftp_st) (rc : Z) : error_info :=
  let info e ns c := ErrorInfo (Some e) ns c in
  if rc =? -1 then info 0x3003 [] (-103)
  else if rc =? -2 then info 0x3004 [len t] (-104)
  else if rc =? -3 then info 0x3009 [] (-108)
  else if rc =? -4 then info 0x3010 [] (-109)
  else if rc =? -5 then info 0x3011 [] (-110)
  else if rc =? -6 then info 0x3012 [] (-111)
  else if rc =? -7 then info 0x3013 [] (-112)
  else if rc =? -8 then info 0x3017 [] (-116)
  else if rc =? -9 then info 0x3018 [] (-117)
  else if (rc <=? -10) && (-15 <=? rc) then info 0x3005 [] (-105)
  else if rc =? -40 then info 0x3014 [bad_tftp_packets (tftp_err t)] (-113)
  else if rc =? -41 then info 0x3015 [no_packets (tftp_err t)] (-114)
  else if rc =? -42 then info 0x3016 [blocks_missed (tftp_err t); blocks_received (tftp_err t)] (-115)
  else ErrorInfo None [] rc.

(** ** The client ends *)

Lemma strchr_at_nul m s q : strchr m s 0 = Ok q -> q = 0.
Proof.
  unfold strchr. change (u8 0) with 0. generalize (walk_fuel m) as fuel. intros fuel. revert s.
  induction fuel as [|fuel IH]; intros s; cbn [strchr_loop]; [done|].
  destruct (load8 m s) as [b| |]; res_simpl; try done.
  destruct (Z.eqb_spec b 0); cbn [negb]; [congruence | apply IH].
Qed.

Lemma memcmp_terminates m p1 p2 n : terminates (memcmp m p1 p2 n).
Proof.
  unfold memcmp. generalize (Z.to_nat n) as k. intros k. revert p1 p2.
  induction k as [|k IH]; intros; cbn [memcmp_loop]; [done|].
  apply terminates_bind; [apply of_option_terminates|]. intros ? _. apply terminates_bind; [apply of_option_terminates|].
  intros ? _. by case_match.
Qed.

Lemma get_blksize_terminates packet n : terminates (get_blksize packet n).
Proof.
  unfold get_blksize, walk_fuel. cbv zeta. cbn [blksize_loop]. case_match; [done|].
  apply terminates_bind; [apply memcmp_terminates|]. intros c _. case_match.
  - apply terminates_bind; [apply strtoul_terminates | by intros []].
  - apply terminates_bind; [apply strchr_terminates|]. intros q ->%strchr_at_nul. done.
Qed.

Section ends.
Context {U : Type} `{HasTftp U} (send : list Z -> Z).
Implicit Type st : net U.

(** What the handlers leave alone: the counter of the timeouts and its bound. *)
Definition counts (u : U) : Z * Z := (no_packets (tftp_err (get_tftp u)), retries (get_tftp u)).
Definition keep_counts : relation U := fun u u' => counts u' = counts u.

#[local] Instance keep_counts_preorder : PreOrder keep_counts.
Proof. split; [done|]. intros u1 u2 u3 H1 H2. unfold keep_counts in *. congruence. Qed.

Abbreviation ends := (NetEnds.ends keep_counts).
Abbreviation shrinks := (NetEnds.shrinks keep_counts).

Context (send_ipv6 : nat -> (net U -> res (Z * net U)) -> net U -> list Z -> nat -> res (Z * net U)) (own_ip6 : list Z)
  (Hsend : sender_ends keep_counts send_ipv6).

Lemma upd_shrinks f st :
  (forall t, no_packets (tftp_err (f t)) = no_packets (tftp_err t)) -> (forall t, retries (f t) = retries t) -> shrinks st (upd f st).
Proof.
  intros Hn Hr. split_and!; try done. unfold keep_counts, counts, upd, tf. cbn [up with_up]. by rewrite get_put, Hn, Hr.
Qed.

Lemma fill_headers_terminates fn n dport : terminates (fill_headers own_ip6 fn n dport).
Proof.
  unfold fill_headers. apply terminates_bind.
  - repeat case_match; [| |done]; (apply terminates_bind; [auto with terminates | done]).
  - intros [[packet udph] n'] _. apply terminates_bind; [auto with terminates | done].
Qed.
#[local] Hint Resolve fill_headers_terminates get_blksize_terminates : terminates.

Ltac pure_step := apply ends_pure; [solve [auto with terminates] | intros ? _].

Lemma call_send_ip_ends fuel rx st packet n :
  budget st < Z.of_nat fuel -> ring_ok st -> rx_ends keep_counts (budget st) rx ->
  ends snd st (call_send_ip send send_ipv6 fuel rx st packet n).
Proof using Type*.
  intros Hf Hok Hrx. unfold call_send_ip. case_match; [|by apply Hsend].
  exact (send_ipv4_ends keep_counts send fuel rx st packet n Hf Hok Hrx).
Qed.

(** The functions that build a packet and send it. *)
Ltac sender_tac :=
  intros Hf Hok Hrx; pure_step; destruct_and?; repeat match goal with x : _ * _ |- _ => destruct x end;
  repeat pure_step; apply (ends_bind keep_counts snd); [by apply call_send_ip_ends | intros [? ?] _; by apply ends_ok].

Lemma send_ack_ends fuel rx st blckno dport :
  budget st < Z.of_nat fuel -> ring_ok st -> rx_ends keep_counts (budget st) rx ->
  ends id st (send_ack send send_ipv6 own_ip6 fuel rx st blckno dport).
Proof using Type*. unfold send_ack. sender_tac. Qed.

Lemma send_rrq_ends fuel rx st :
  budget st < Z.of_nat fuel -> ring_ok st -> rx_ends keep_counts (budget st) rx ->
  ends id st (send_rrq send send_ipv6 own_ip6 fuel rx st).
Proof using Type*. unfold send_rrq. sender_tac. Qed.

Lemma send_error_ends fuel rx st code dport :
  budget st < Z.of_nat fuel -> ring_ok st -> rx_ends keep_counts (budget st) rx ->
  ends id st (send_error send send_ipv6 own_ip6 fuel rx st code dport).
Proof using Type*. unfold send_error. sender_tac. Qed.

Lemma fail_ends st errno : ends snd st (fail st errno).
Proof using Type*. apply ends_ok. by apply upd_shrinks. Qed.

Lemma ends_upd {A} (f : tftp_st -> tftp_st) (g : A -> net U) st r :
  (forall t, no_packets (tftp_err (f t)) = no_packets (tftp_err t)) -> (forall t, retries (f t) = retries t) ->
  ends g (upd f st) r -> ends g st r.
Proof. intros Hn Hr. apply ends_trans; [exact _ | by apply upd_shrinks]. Qed.

(** Goes on from the state [s] with a field set. *)
Ltac into s := match goal with |- context [upd ?f s] => apply (ends_upd f); [done | done | set (upd f s)] end.

Lemma finish_block_ends st p : ends snd st (finish_block st p).
Proof using Type*.
  unfold finish_block. pure_step. into st.
  case_match; [by apply ends_ok, upd_shrinks|]. case_match; [apply fail_ends | by apply ends_ok].
Qed.

Lemma handle_data_ends fuel rx st p :
  budget st < Z.of_nat fuel -> ring_ok st -> rx_ends keep_counts (budget st) rx ->
  ends snd st (handle_data send send_ipv6 own_ip6 fuel rx st p).
Proof using Type*.
  intros Hf Hok Hrx. unfold handle_data. pure_step. case_match.
  - into st. pure_step. case_match; [apply fail_ends|]. do 2 pure_step.
    into n.
    apply (ends_bind keep_counts id); [by apply send_ack_ends|]. intros st2 _. apply finish_block_ends.
  - case_match; [|case_match].
    + apply (ends_bind keep_counts id); [by apply send_ack_ends|]. intros st2 _. apply ends_ok. by apply upd_shrinks.
    + apply ends_ok. by apply upd_shrinks.
    + into st. apply fail_ends.
Qed.

Lemma handle_tftp_ends : handler_ends keep_counts (handle_tftp send send_ipv6 own_ip6).
Proof using Type*.
  intros fuel rx st p n Hf Hok Hrx. unfold handle_tftp. case_match; [by apply ends_ok|]. cbv zeta.
  apply (ends_trans keep_counts snd st (start_timer st)); [exact (start_timer_shrinks keep_counts st)|].
  assert (Hb : budget (start_timer st) <= budget st) by exact (shrinks_budget keep_counts _ _ (start_timer_shrinks keep_counts st)).
  assert (Hok0 : ring_ok (start_timer st)) by done. assert (Hf0 : budget (start_timer st) < Z.of_nat fuel) by lia.
  assert (Hrx0 : rx_ends keep_counts (budget (start_timer st)) rx) by (eapply rx_ends_le; [|exact Hrx]; lia).
  set (st0 := start_timer st) in *. clearbody st0. clear Hf Hok Hrx Hb. rename Hok0 into Hok, Hf0 into Hf, Hrx0 into Hrx. pure_step.
  into st0. pure_step.
  case_match; [|case_match; [|case_match; [|case_match]]].
  - pure_step. into n0. case_match.
    + apply (ends_bind keep_counts id); [by apply send_error_ends|]. intros st3 _. apply fail_ends.
    + apply (ends_bind keep_counts id); [by apply send_ack_ends|]. intros st3 _. by apply ends_ok.
  - into n0.
    apply (ends_bind keep_counts id); [by apply send_ack_ends|]. intros st3 _. by apply ends_ok.
  - pure_step. apply fail_ends.
  - by apply handle_data_ends.
  - apply ends_ok. by apply upd_shrinks.
Qed.

Lemma handle_tftp_dun_ends st code : shrinks st (handle_tftp_dun st code).
Proof using Type*. by apply upd_shrinks. Qed.

Context (handle_dhcp handle_dns handle_dhcpv6 handle_ipv6 : nat -> (net U -> res (Z * net U)) -> net U -> ptr -> Z -> res (Z * net U))
  (Hdhcp : handler_ends keep_counts handle_dhcp) (Hdns : handler_ends keep_counts handle_dns)
  (Hdhcpv6 : handler_ends keep_counts handle_dhcpv6) (Hipv6 : handler_ends keep_counts handle_ipv6).

Abbreviation ether_in :=
  (receive_ether send handle_dhcp handle_dns handle_dhcpv6 (handle_tftp send send_ipv6 own_ip6) handle_tftp_dun handle_ipv6).

Lemma ether_in_ends depth st :
  budget st < Z.of_nat depth -> ring_ok st ->
  ends snd st (ether_in depth st) /\ forall v st', ether_in depth st = Ok (v, st') -> turns st' <= turns st.
Proof using Type*.
  intros. apply (receive_ether_ends keep_counts); try done; [apply handle_tftp_ends | apply handle_tftp_dun_ends].
Qed.

Lemma tf_upd f st : tf (upd f st) = f (tf st) :> tftp_st.
Proof. unfold tf, upd. cbn [up with_up]. by rewrite get_put. Qed.

Lemma shrinks_counts st st' : shrinks st st' ->
  no_packets (tftp_err (tf st')) = no_packets (tftp_err (tf st)) /\ retries (tf st') = retries (tf st).
Proof using Type*. intros (_ & _ & _ & K). unfold keep_counts, counts in K. unfold tf. by simplify_eq. Qed.

Lemma ether_in_rx_ends depth st : budget st < Z.of_nat depth -> rx_ends keep_counts (budget st) (ether_in depth).
Proof using Type*. intros Hd st' Hb Hok'. apply ether_in_ends; [lia | done]. Qed.

Lemma tftp_timeout_ends depth st :
  budget st < Z.of_nat depth -> ring_ok st ->
  match tftp_timeout send send_ipv6 own_ip6 handle_dhcp handle_dns handle_dhcpv6 handle_ipv6 depth st with
  | OutOfFuel => False | Fault => True | Ok st' => exists st1, shrinks st st1 /\ st' = start_timer (upd count_none st1)
  end.
Proof using Type*.
  intros Hd Hok. unfold tftp_timeout. cbv zeta. pose proof (ether_in_rx_ends depth st Hd) as Hrx.
  match goal with |- match ?r ≫= _ with _ => _ end => assert (ends id st r) as Hr end.
  { case_match; [by apply send_ack_ends|]. case_match; [by apply send_rrq_ends | by apply ends_ok]. }
  match goal with |- match ?r ≫= _ with _ => _ end => destruct r as [st1| |]; [|done|done] end.
  res_simpl. by exists st1.
Qed.

(** The turns that are left: those of the frames and the timer, and a run of the
    timer for every timeout that is left. *)
Definition loop_turns st : Z := turns st + (retries (tf st) - no_packets (tftp_err (tf st))) * (TICKS_SEC + 1).

(** The beginning of a turn takes one of them. *)
Lemma turn_ends depth st :
  budget st < Z.of_nat depth -> ring_ok st -> 0 <= no_packets (tftp_err (tf st)) <= retries (tf st) -> retries (tf st) < 2 ^ 32 - 1 ->
  let '(more, st1) := timer_left st in
  match (if more : bool then Ok st1 else tftp_timeout send send_ipv6 own_ip6 handle_dhcp handle_dns handle_dhcpv6 handle_ipv6 depth st1) with
  | OutOfFuel => False | Fault => True
  | Ok st2 => budget st2 <= budget st /\ ring_ok st2 /\ retries (tf st2) = retries (tf st) /\
      no_packets (tftp_err (tf st)) <= no_packets (tftp_err (tf st2)) <= no_packets (tftp_err (tf st)) + 1 /\
      loop_turns st2 + 1 <= loop_turns st
  end.
Proof using Type*.
  intros Hd Hok Hn Hr. pose proof (timer_left_shrinks keep_counts st) as (Hs & Hle & Hlt). pose proof (shrinks_counts _ _ Hs) as [En Er].
  pose proof (shrinks_budget _ _ _ Hs) as Hb. assert (Hok1 : ring_ok (timer_left st).2) by by apply Hs.
  destruct (timer_left st) as [more st1]. cbn [fst snd] in *. unfold loop_turns. destruct more.
  - specialize (Hlt eq_refl). rewrite En, Er. split_and!; try done; lia.
  - pose proof (tftp_timeout_ends depth st1 ltac:(lia) Hok1) as T. destruct (tftp_timeout _ _ _ _ _ _ _ _ _) as [st4| |]; try done.
    destruct T as (st2 & Hs2 & ->). destruct (shrinks_counts _ _ Hs2) as [En2 Er2].
    pose proof (start_timer_shrinks keep_counts (upd count_none st2)) as Hs3. set (st3 := start_timer _) in *.
    assert (Et : tf st3 = count_none (tf st2)) by (subst st3; change (tf (start_timer ?s)) with (tf s); apply tf_upd).
    rewrite Et. unfold count_none. cbn [retries tftp_err set_tftp_err no_packets]. rewrite En2, Er2, En, Er, u32_small by lia.
    pose proof (shrinks_budget _ _ _ Hs2) as Hb2. pose proof (shrinks_budget _ _ _ Hs3) as Hb3. change (budget (upd count_none st2)) with (budget st2) in Hb3.
    split; [lia|]. split; [apply Hs3; exact (proj1 (proj2 (proj2 Hs2)) Hok1)|]. split; [done|]. split; [lia|].
    pose proof (turns_budget st3). assert (budget st1 <= turns st1 + TICKS_SEC).
    { unfold budget, turns. pose proof (running_patience (clock (dev st1))). lia. }
    lia.
Qed.

Lemma tftp_loop_ends fuel depth st :
  budget st < Z.of_nat depth -> ring_ok st -> 0 <= no_packets (tftp_err (tf st)) <= retries (tf st) -> retries (tf st) < 2 ^ 32 - 1 ->
  loop_turns st < Z.of_nat fuel ->
  terminates (tftp_loop send send_ipv6 own_ip6 handle_dhcp handle_dns handle_dhcpv6 handle_ipv6 fuel depth st).
Proof using Type*.
  revert st. induction fuel as [|fuel IH]; intros st Hd Hok Hn Hr Hf.
  { unfold loop_turns, TICKS_SEC in Hf. pose proof (turns_budget st). lia. }
  cbn [tftp_loop]. case_match; [done|]. pose proof (turn_ends depth st Hd Hok Hn Hr) as T. destruct (timer_left st) as [more st1].
  match goal with |- terminates (?r ≫= _) => destruct r as [st2| |]; [|done|done] end.
  destruct T as (Hb2 & Hok2 & Er2 & En2 & Hf2). res_simpl.
  destruct (ether_in_ends depth st2 ltac:(lia) Hok2) as [He Ht]. destruct (receive_ether _ _ _ _ _ _ _ _ _) as [[v st3]| |]; [|done|done].
  cbn in He. specialize (Ht _ _ eq_refl). destruct (shrinks_counts _ _ He) as [En3 Er3]. res_simpl.
  case_match; [done|]. rewrite Er3, En3, Er2. destruct (Z.ltb_spec (retries (tf st)) (no_packets (tftp_err (tf st2)))); [done|].
  pose proof (shrinks_budget _ _ _ He). apply IH; [lia | by apply He | lia | lia|]. unfold loop_turns in *. rewrite En3, Er3. lia.
Qed.

(** C16: tftp ends when finitely many frames come in, whatever they are, whatever
    send does and whatever the clock shows: after the last frame the timeouts run
    up to [_retries].  Since a TFTP message sets the timer again, every frame counts
    for a run of the timer ([budget]), and so does every timeout; a server that goes on sending
    keeps the client waiting for as long ([kept_waiting]).  The protocols beside it
    must end and leave the counter of the timeouts alone. *)
Theorem tftp_ends fuel depth st fn buf _len _retries err :
  ring_ok st -> 0 <= _retries < 2 ^ 32 - 1 -> budget st < Z.of_nat depth ->
  budget st + _retries * (TICKS_SEC + 1) < Z.of_nat fuel ->
  terminates (tftp send send_ipv6 own_ip6 handle_dhcp handle_dns handle_dhcpv6 handle_ipv6 fuel depth st fn buf _len _retries err).
Proof using Type*.
  intros Hok Hr Hd Hf. unfold tftp. set (st0 := upd _ st). cbv zeta. set (st1 := start_timer st0).
  assert (E1 : tf st1 = tftp_init fn buf _len _retries (blocks_missed err) (blocks_received err)) by exact (tf_upd _ _).
  pose proof (shrinks_budget keep_counts _ _ (start_timer_shrinks keep_counts st0)) as Hb0. change (budget st0) with (budget st) in Hb0. fold st1 in Hb0.
  assert (Hs : ends id st1 (send_rrq send send_ipv6 own_ip6 depth (ether_in depth) st1)).
  { apply send_rrq_ends; [lia | exact Hok|]. apply ether_in_rx_ends. lia. }
  destruct (send_rrq _ _ _ _ _ _) as [st2| |]; [|done|done]. res_simpl.
  destruct (shrinks_counts _ _ Hs) as [En Er]. rewrite E1 in En, Er. cbn in En, Er. pose proof (shrinks_budget _ _ _ Hs) as Hb.
  apply terminates_bind; [|done]. cbn [id] in *. apply tftp_loop_ends; [lia | by apply Hs | rewrite En, Er; lia | rewrite Er; lia |].
  unfold loop_turns. rewrite En, Er. pose proof (turns_budget st2). lia.
Qed.
End ends.

(** ** A concrete client *)

Definition quiet_net (clk : list Z) : net tftp_st :=
  Net (replicate 6 0) (Routes 0x0A000001 0 null_mac_addr 0 0xFFFFFF00) (Arp 0 0 [] [] 0) 0 IPv6 [] []
    (Device [Some [1; 2; 3]; None] (Timer 0 0 clk) []) (tftp_init (FilenameIp 0 [] [] 6) [] 0 0 0 0).
Definition quiet_send_ipv6 (fuel : nat) (rx : net tftp_st -> res (Z * net tftp_st)) (st : net tftp_st) (b : list Z) (n : nat) :
  res (Z * net tftp_st) := Ok (0, st).
Definition quiet_protocol (fuel : nat) (rx : net tftp_st -> res (Z * net tftp_st)) (st : net tftp_st) (p : ptr) (n : Z) :
  res (Z * net tftp_st) := Ok (0, st).

Lemma quiet_send_ends : sender_ends keep_counts quiet_send_ipv6.
Proof. intros fuel rx st b n _ _ _. split_and!; try done. Defined.
Lemma quiet_protocol_ends : handler_ends keep_counts quiet_protocol.
Proof. intros fuel rx st p n _ _ _. split_and!; try done. Defined.

(** Witness: a client that nobody answers. *)
Lemma tftp_ends_witness :
  terminates (tftp demo_send quiet_send_ipv6 [] quiet_protocol quiet_protocol quiet_protocol quiet_protocol
    (Z.to_nat 7000) (Z.to_nat 4000) (quiet_net []) (FilenameIp 0 [] [102] 6) [] 0 3 (TftpErr 0 0 0 0)).
Proof.
  apply (tftp_ends demo_send quiet_send_ipv6 [] quiet_send_ends quiet_protocol quiet_protocol quiet_protocol quiet_protocol
    quiet_protocol_ends quiet_protocol_ends quiet_protocol_ends quiet_protocol_ends).
  - split; vm_compute; lia.
  - lia.
  - vm_compute. reflexivity.
  - vm_compute. reflexivity.
Defined.

(** What it returns: the client gives up, here with a clock that takes a second for each reading. *)
Example quiet_gives_up :
  (fun x => x.1) <$> tftp demo_send quiet_send_ipv6 (replicate 16 0) quiet_protocol quiet_protocol quiet_protocol quiet_protocol 8 5 (quiet_net (replicate 20 1000))
    (FilenameIp 0 (replicate 16 0) [102] 6) [] 0 3 (TftpErr 0 0 0 0) = Ok (-41).
Proof. vm_compute. reflexivity. Qed.

(** A file name of 207 bytes makes the request longer than the packet. *)
Example long_filename_overflows :
  (fun x => x.1) <$> tftp demo_send quiet_send_ipv6 (replicate 16 0) quiet_protocol quiet_protocol quiet_protocol quiet_protocol 8 5 (quiet_net (replicate 20 1000))
    (FilenameIp 0 (replicate 16 0) (replicate 207 102) 4) [] 0 3 (TftpErr 0 0 0 0) = Fault.
Proof. vm_compute. reflexivity. Qed.
