(* ===== verification/TftpLoad.v ===== *)
(** * lib/libnet/tftp.c: loading a file

    What the client sends, how the frames of the server reach handle_tftp, and
    that a session with a server that follows the protocol loads the file.  The
    definitions of the code are in Tftp.v. *)

From Stdlib Require Import ZArith Lia.
From stdpp Require Import base list option numbers.
From S2P Require Import Prelude CMem CString Conv Packet Timer Ipv4 Arp Udp NetEnds Tftp.

(** ** What the client sends *)

(** The headers of a message of [n] bytes. *)
Definition headers (server dport : Z) (n : nat) : list Z := udp_headers 0 server 2001 dport n.

Lemma headers_length server dport n : length (headers server dport n) = 28%nat.
Proof. apply udp_headers_length. Qed.

Lemma fill_headers_spec own_ip6 fn n dport :
  ip_ver fn = 4 ->
  fill_headers own_ip6 fn n dport = Ok (headers (server_ip fn) dport n ++ replicate 228 0, 28%nat, (28 + n)%nat).
Proof.
  intros H4. unfold fill_headers. rewrite H4. unfold fill_iphdr, fill_udphdr, wr, headers, udp_headers.
  change (IPHDR + UDPHDR + n)%nat with (28 + n)%nat. change (UDPHDR + n)%nat with (8 + n)%nat.
  destruct (be_enc4 (server_ip fn)) as (?&?&?&?&->), (be_enc2 (Z.of_nat (28 + n))) as (?&?&->),
    (be_enc2 (Z.of_nat (8 + n))) as (?&?&->), (be_enc2 dport) as (?&?&->). reflexivity.
Qed.

(** ** The client without the network *)

Definition ack_message (num : Z) : list Z := be_enc 2 ACK ++ be_enc 2 num.

Definition failed (errno : Z) (t : tftp_st) : tftp_st := set_tftp_finished 1 (set_tftp_errno errno t).

(** The step of the client for a DATA message: its state, the replies and the result. *)
Definition client_data (t : tftp_st) (num : Z) (data : list Z) : tftp_st * list (list Z) * Z :=
  match next_block t num with
  | Some b =>
      let t := clear_bad (set_block b t) in
      if len t <? received_len t + Z.of_nat (length data) then (failed (-2) t, [], -2)
      else
        let t := set_received_len (received_len t + Z.of_nat (length data))
          (set_buffer (splice (buffer t) (Z.to_nat (received_len t)) data) t) in
        if Z.of_nat (length data) <? blocksize t then (set_tftp_finished 1 t, [ack_message num], 0)
        else if (0xffff <=? block t) && (huge_load t =? 0) then (failed (-9) t, [ack_message num], -9)
        else (t, [ack_message num], 0)
  | None =>
      if num =? block t then (count_bad (set_lost_packets (s32 (lost_packets t + 1)) t), [ack_message num], 0)
      else if num <? block t then (count_bad t, [], 0)
      else (failed (-42) (set_blocks (block t + 1) num t), [], -42)
  end.

(** The client has room for what it says it has room for. *)
Record buffer_room (t : tftp_st) : Prop := {
  r_len : len t <= Z.of_nat (length (buffer t));
  r_int : len t < 2 ^ 31;
  r_received : 0 <= received_len t <= len t;
}.

(** The step for a message that is no OACK; [num] is its second word. *)
Definition client_step (t : tftp_st) (sport op num : Z) (data : list Z) : tftp_st * list (list Z) * Z :=
  let t := set_port_number (to_signed 16 sport) t in
  if op =? ACK then (set_blocksize 512 t, [ack_message 0], 0)
  else if u8 op =? ERROR then (failed (errno_of (u8 num)) t, [], errno_of (u8 num))
  else if op =? DATA then client_data t num data
  else (count_bad t, [], 0).

(** The read request fits in the packet. *)
Definition request_fits (t : tftp_st) : Prop :=
  Forall byte (filename (fn_ip t)) /\ Forall byte (blocksize_str t) /\ (length (filename (fn_ip t)) + length (blocksize_str t) <= 209)%nat.

(** The timer when a turn of the loop receives, and when it is over: [f] is what
    recv gives, a failure or a frame with a TFTP message. *)
Definition turn_clock (t : timer) : timer := let '(n, t) := get_timer t in if 0 <? n then t else set_timer TICKS_SEC t.
Definition frame_clock (f : option (list Z)) (t : timer) : timer := match f with Some _ => set_timer TICKS_SEC t | None => t end.

(** How often the timer runs out while what is in the queue comes in. *)
Fixpoint expired (q : list (option (list Z))) (t : timer) : Z :=
  match q with
  | [] => 0
  | f :: q' => (if 0 <? (get_timer t).1 then 0 else 1) + expired q' (frame_clock f (turn_clock t))
  end.

Lemma expired_nonneg q t : 0 <= expired q t.
Proof. revert t. induction q as [|f q IH]; intros t; cbn [expired]; [lia|]. specialize (IH (frame_clock f (turn_clock t))). case_match; lia. Qed.

(** The client in the middle of a file: [got] is stored, [total] bytes are to come in all. *)
Record loading (t : tftp_st) (bs b bad : Z) (got : list Z) (total : nat) : Prop := {
  l_set : buffer_set t = true;
  l_huge : huge_load t = 1;
  l_finished : tftp_finished t = 0;
  l_errno : tftp_errno t = 0;
  l_blocksize : blocksize t = bs;
  l_block : block t = b;
  l_bad : bad_tftp_packets (tftp_err t) = bad;
  l_len : len t <= Z.of_nat (length (buffer t)) /\ len t < 2 ^ 31;
  l_total : Z.of_nat total <= len t;
  l_part : (length got <= total)%nat;
  l_received : received_len t = Z.of_nat (length got);
  l_got : take (length got) (buffer t) = got;
  l_fits : request_fits t;
}.

(** The number that follows block [b]: after 65535 servers go on with 0 or 1. *)
Definition follows (b num : Z) : Prop := num = b + 1 /\ num < 65536 \/ b = 65535 /\ (num = 0 \/ num = 1).
(** The number of a block that has come before. *)
Definition repeats (b num : Z) : Prop := 0 <= num <= b /\ ~ (b = 65535 /\ num <= 1).

(** The file is in the buffer. *)
Definition loaded (t : tftp_st) (file : list Z) : Prop :=
  tftp_errno t = 0 /\ received_len t = Z.of_nat (length file) /\ take (length file) (buffer t) = file.

Lemma take_splice l i x : (i + length x <= length l)%nat -> take (i + length x) (splice l i x) = take i l ++ x.
Proof.
  intros Hl. unfold splice. rewrite app_assoc, take_app_le by (rewrite length_app, length_take; lia).
  apply take_ge. rewrite length_app, length_take. lia.
Qed.

(** The next block of the file. *)
Lemma client_next t bs b bad got total p num chunk :
  loading t bs b bad got total -> follows b num -> 0 <= b < 65536 -> (length got + length chunk <= total)%nat ->
  exists t' replies, client_data (set_port_number p t) num chunk = (t', replies, 0) /\ fn_ip t' = fn_ip t /\ retries t' = retries t /\
    no_packets (tftp_err t') = no_packets (tftp_err t) /\ bad_tftp_packets (tftp_err t') = 0 /\
    if Z.of_nat (length chunk) <? bs then tftp_finished t' = 1 /\ loaded t' (got ++ chunk)
    else loading t' bs num 0 (got ++ chunk) total.
Proof.
  intros [] Hf Hb Hc. unfold client_data. set (tp := set_port_number p t).
  assert (next_block tp num = Some num) as ->.
  { unfold next_block. change (block tp) with (block t). change (huge_load tp) with (huge_load t). rewrite l_block0, l_huge0.
    destruct Hf as [[-> ?]|[-> Hn]].
    - rewrite Z.eqb_refl. by rewrite u16_small by lia.
    - destruct Hn as [-> | ->]; reflexivity. }
  set (t1 := clear_bad (set_block num tp)). change (len t1) with (len t). change (received_len t1) with (received_len t).
  change (buffer t1) with (buffer t). rewrite l_received0.
  destruct (Z.ltb_spec (len t) (Z.of_nat (length got) + Z.of_nat (length chunk))); [lia|].
  rewrite Nat2Z.id. set (buf := splice (buffer t) (length got) chunk). set (t2 := set_received_len _ (set_buffer buf t1)).
  assert (Hbuf : take (length (got ++ chunk)) buf = got ++ chunk).
  { subst buf. rewrite length_app, take_splice by lia. by rewrite l_got0. }
  assert (Hlen : length buf = length (buffer t)) by (apply splice_length; lia).
  change (blocksize t2) with (blocksize t). rewrite l_blocksize0.
  change (huge_load t2) with (huge_load t). rewrite l_huge0, andb_false_r.
  destruct (Z.of_nat (length chunk) <? bs); eexists _, _; (split; [done|]); split_and!; try done.
  - split; [done|]. split; [|done]. cbn. rewrite length_app. lia.
  - split; try done; cbn [buffer len received_len set_received_len t2 set_buffer]; change (len t1) with (len t).
    + rewrite Hlen. tauto.
    + rewrite length_app. lia.
    + rewrite length_app. cbn. lia.
Qed.

(** A block that came before. *)
Lemma client_again t bs b bad got total p num data :
  loading t bs b bad got total -> repeats b num -> 0 <= bad < 2 ^ 32 - 1 ->
  exists t' replies, client_data (set_port_number p t) num data = (t', replies, 0) /\ fn_ip t' = fn_ip t /\ retries t' = retries t /\
    no_packets (tftp_err t') = no_packets (tftp_err t) /\ loading t' bs b (bad + 1) got total.
Proof.
  intros Hl [Hn Hw] Hbad. unfold client_data. set (tp := set_port_number p t).
  assert (next_block tp num = None) as ->.
  { unfold next_block. change (block tp) with (block t). rewrite (l_block _ _ _ _ _ _ Hl). change (huge_load tp) with (huge_load t).
    destruct (Z.eqb_spec (b + 1) num); [lia|]. destruct (Z.eqb_spec b 0xffff) as [->|]; [|done].
    destruct (Z.eqb_spec num 0), (Z.eqb_spec num 1); try lia. by rewrite andb_false_r. }
  change (block tp) with (block t). rewrite (l_block _ _ _ _ _ _ Hl).
  assert (Hb : forall t0, tftp_err t0 = tftp_err t -> bad_tftp_packets (tftp_err (count_bad t0)) = bad + 1).
  { intros t0 E. unfold count_bad. cbn. rewrite E, (l_bad _ _ _ _ _ _ Hl), u32_small by lia. done. }
  destruct (Z.eqb_spec num b) as [->|]; [|destruct (Z.ltb_spec num b); [|lia]]; eexists _, _; (split; [done|]); split_and!; try done;
    destruct Hl; split; try done; by apply Hb.
Qed.

(** ** The block size of the answer *)

Lemma array_mem_at bs : bytes_at (array_mem bs) ARRAY bs.
Proof.
  intros i b Hi. unfold array_mem. rewrite !write_bytes_lookup. cbn [length app blksize]. unfold ARRAY, BLKSIZE.
  pose proof (lookup_lt_Some _ _ _ Hi). repeat case_decide; try lia. rewrite <- Hi. f_equal. lia.
Qed.

Lemma array_mem_literal bs : bytes_at (array_mem bs) BLKSIZE (blksize ++ [0]).
Proof. apply write_bytes_at. Qed.

(** The value of the option, when blksize is the first option of the answer.  When
    it is not, get_blksize gives 0 even if it follows: strchr never finds the NUL
    that ends the name of the first option ([blksize_second_option]). *)
Lemma get_blksize_first hdr ds rest n :
  length hdr = 10%nat -> Forall (digit_in 10) ds -> 10 < n ->
  get_blksize (hdr ++ blksize ++ [0] ++ ds ++ [0] ++ rest) n = Ok (u16 (u64 (digits_value 10 ds))).
Proof.
  intros Hh Hd Hn. unfold get_blksize. set (p := hdr ++ _). set (m := array_mem p). cbv zeta. unfold walk_fuel. cbn [blksize_loop].
  pose proof (array_mem_at p) as Hb. fold m in Hb. subst p. change (blksize ++ [0] ++ ds ++ [0] ++ rest) with ((blksize ++ [0]) ++ ds ++ [0] ++ rest) in Hb.
  rewrite !bytes_at_app, Hh in Hb. destruct Hb as (_ & Hlit & Hds & Hz & _). apply bytes_at_app in Hlit. cbn [length app blksize] in Hds, Hz.
  destruct (Z.leb_spec (ARRAY + n) (ARRAY + Z.of_nat UDPHDR + 2)); [unfold UDPHDR in *; lia|].
  change (ARRAY + Z.of_nat UDPHDR + 2) with (ARRAY + Z.of_nat 10).
  destruct (memcmp_loop_spec m (ARRAY + Z.of_nat 10) BLKSIZE (blksize ++ [0]) (blksize ++ [0]) Hlit (array_mem_literal _) eq_refl)
    as (c & Ec & Hc).
  unfold memcmp. change (Z.to_nat 8) with (length (blksize ++ [0])). rewrite Ec. res_simpl.
  assert (c = 0) as -> by (apply Z.compare_eq; rewrite Hc; reflexivity). cbn [Z.eqb].
  rewrite (strtoul_value m (ARRAY + Z.of_nat 10 + 8) [] [] ds [] 10 10); try done.
  - cbn [app]. rewrite app_nil_r. apply digits_cstr; [done|]. apply bytes_at_app. split; [exact Hds|]. exact Hz.
  - cbn. destruct ds as [|b ds]; [done|]. apply Forall_cons_1 in Hd as [(d & Hb' & _) _]. cbn. unfold digit_value in Hb'. unfold is_blank.
    repeat case_match; simplify_eq; try done; lia.
  - right. by left.
Qed.

(** An answer with the option tsize before blksize. *)
Example blksize_second_option :
  get_blksize (replicate 10 0 ++ [116; 115; 105; 122; 101; 0; 53; 0] ++ blksize ++ [0; 53; 49; 50; 0]) 31 = Ok 0.
Proof. vm_compute. reflexivity. Qed.

(** The state of the client when the loop begins. *)
Lemma tftp_init_loading fn buf _len _retries missed received total :
  _len <= Z.of_nat (length buf) -> _len < 2 ^ 31 -> Z.of_nat total <= _len ->
  Forall byte (filename fn) -> (length (filename fn) <= 205)%nat ->
  loading (tftp_init fn buf _len _retries missed received) 512 0 0 [] total.
Proof.
  intros. split; try done; cbn; [lia|]. split; [done|]. split; [|cbn; lia].
  unfold max_blocksize_str. repeat constructor; lia.
Qed.

(** ** States that differ in what sending changes *)

Section load.
Context {U : Type} `{HasTftp U} (send : list Z -> Z).
Implicit Type st : net U.

Lemma send_msg fuel rx st server dport msg pad :
  known st server -> (length msg <= 227)%nat -> (length msg + length pad = 228)%nat -> Forall byte msg -> Forall byte pad ->
  exists v st' frame, send_ipv4 send fuel rx st (headers server dport (length msg) ++ msg ++ pad) (28 + length msg) = Ok (v, st') /\
    sent_only st st' /\ sent (dev st') = sent (dev st) ++ [frame] /\ brings frame dport msg.
Proof. intros. apply send_udp; done || lia. Qed.

Context (send_ipv6 : nat -> (net U -> res (Z * net U)) -> net U -> list Z -> nat -> res (Z * net U)) (own_ip6 : list Z).

(** The client asks a server over IPv4 whose hardware address is known. *)
Definition asks st : Prop := ip_ver (fn_ip (tf st)) = 4 /\ known st (server_ip (fn_ip (tf st))).

Lemma send_ack_spec fuel rx st num dport :
  asks st ->
  exists st' frame, send_ack send send_ipv6 own_ip6 fuel rx st num dport = Ok st' /\ sent_only st st' /\
    sent (dev st') = sent (dev st) ++ [frame] /\ brings frame dport (be_enc 2 ACK ++ be_enc 2 num).
Proof using Type*.
  intros [H4 Hk]. unfold send_ack. rewrite fill_headers_spec by done. res_simpl.
  set (h := headers (server_ip (fn_ip (tf st))) dport 4). assert (Hh : length h = 28%nat) by apply headers_length.
  unfold wr. change (replicate 228 0) with ([0; 0] ++ [0; 0] ++ replicate 224 0).
  pose proof (wr_bytes_app h [0; 0] ([0; 0] ++ replicate 224 0) (be_enc 2 ACK) eq_refl) as W1. rewrite Hh in W1.
  change (28 + th_opcode)%nat with 28%nat. rewrite W1. res_simpl.
  pose proof (wr_bytes_app (h ++ be_enc 2 ACK) [0; 0] (replicate 224 0) (be_enc 2 num) eq_refl) as W2.
  rewrite length_app, Hh, be_enc_length, <- !app_assoc in W2. change (28 + th_data)%nat with (28 + 2)%nat. rewrite W2. res_simpl.
  destruct (send_msg fuel rx st (server_ip (fn_ip (tf st))) dport (be_enc 2 ACK ++ be_enc 2 num) (replicate 224 0))
    as (v & st' & frame & E & Hso & Hse & Hbr); try done.
  { cbn. lia. }
  { apply Forall_app. split; apply be_enc_bytes. }
  { apply Forall_replicate. unfold byte. lia. }
  unfold call_send_ip. rewrite (k_send_ip _ _ Hk). rewrite length_app, !be_enc_length, <- !app_assoc in E.
  change (2 + 2)%nat with 4%nat in E. change (28 + 4)%nat with 32%nat in *. fold h in E. rewrite E. res_simpl. by exists st', frame.
Qed.

(** What a read request holds. *)
Definition rrq_message (t : tftp_st) : list Z :=
  be_enc 2 RRQ ++ filename (fn_ip t) ++ [0] ++ octet ++ [0] ++ blksize ++ [0] ++ blocksize_str t ++ [0].

Lemma send_rrq_spec fuel rx st :
  asks st -> Forall byte (filename (fn_ip (tf st))) -> Forall byte (blocksize_str (tf st)) ->
  (length (filename (fn_ip (tf st))) + length (blocksize_str (tf st)) <= 209)%nat ->
  exists st' frame, send_rrq send send_ipv6 own_ip6 fuel rx st = Ok st' /\ sent_only st st' /\
    sent (dev st') = sent (dev st) ++ [frame] /\ brings frame 69 (rrq_message (tf st)).
Proof using Type*.
  intros [H4 Hk] Hfb Hsb Hlen. unfold send_rrq. set (n := (_ + _ + 4 + _ + _ + 2)%nat). rewrite fill_headers_spec by done. res_simpl.
  set (h := headers (server_ip (fn_ip (tf st))) 69 n). assert (Hh : length h = 28%nat) by apply headers_length.
  set (data := filename _ ++ _). unfold wr.
  assert (Hmsg : length (rrq_message (tf st)) = n).
  { unfold rrq_message. rewrite !length_app, be_enc_length. subst n. cbn. lia. }
  assert (Hdata : (2 + length data)%nat = n).
  { rewrite <- Hmsg. unfold rrq_message. rewrite (length_app (be_enc 2 RRQ)), be_enc_length. done. }
  assert (Hn : (n <= 227)%nat) by (subst n; cbn; lia).
  replace (replicate 228 0) with ([0; 0] ++ replicate (length data) 0 ++ replicate (228 - n) 0).
  2: { change [0; 0] with (replicate 2 0). rewrite <- !replicate_add. f_equal. lia. }
  pose proof (wr_bytes_app h [0; 0] (replicate (length data) 0 ++ replicate (228 - n) 0) (be_enc 2 RRQ) eq_refl) as W1. rewrite Hh in W1.
  change (28 + th_opcode)%nat with 28%nat. rewrite W1. res_simpl.
  pose proof (wr_bytes_app (h ++ be_enc 2 RRQ) (replicate (length data) 0) (replicate (228 - n) 0) data ltac:(by rewrite length_replicate)) as W2.
  rewrite length_app, Hh, be_enc_length, <- !app_assoc in W2. change (28 + th_data)%nat with (28 + 2)%nat. rewrite W2. res_simpl.
  destruct (send_msg fuel rx st (server_ip (fn_ip (tf st))) 69 (rrq_message (tf st)) (replicate (228 - n) 0))
    as (v & st' & frame & E & Hso & Hse & Hbr); try done.
  { by rewrite Hmsg. }
  { rewrite Hmsg, length_replicate. lia. }
  { unfold rrq_message. rewrite !Forall_app. split_and!; try done; try apply be_enc_bytes; repeat constructor; lia. }
  { apply Forall_replicate. unfold byte. lia. }
  unfold call_send_ip. rewrite (k_send_ip _ _ Hk). rewrite Hmsg in E. fold h in E.
  unfold rrq_message in E. rewrite <- (app_assoc (be_enc 2 RRQ)) in E. fold data in E. rewrite E. res_simpl. by exists st', frame.
Qed.

(** ** The UDP packet *)

Abbreviation tftp_in := (handle_tftp send send_ipv6 own_ip6).
(** The UDP packet as handle_tftp reads it. *)
Definition udp_at st (sport : Z) (msg : list Z) : Prop := datagram_at st sport UDPPORT_TFTPC msg.

(** ** What the client does with a message *)

Lemma upd_moves f st : moves st (upd f st).
Proof. split; try done. by intros []. Qed.

Lemma moves_asks st st' : moves st st' -> fn_ip (tf st') = fn_ip (tf st) -> asks st -> asks st'.
Proof.
  intros [E1 E2 E3 E4 E5 _ _] Ef [H4 [? ? ? ? ?]]. unfold asks. rewrite Ef. split; [done|].
  split; [auto | by rewrite E2 | by rewrite E3 | done | by rewrite E5].
Qed.

(** [st'] is [st] with the client in the state [t], and the replies have been sent to the port. *)
Record step_to st st' (t : tftp_st) (port : Z) (replies : list (list Z)) : Prop := {
  st_moves : moves st st';
  st_tf : tf st' = t;
  st_sent : exists frames, sent (dev st') = sent (dev st) ++ frames /\ Forall2 (fun f msg => brings f port msg) frames replies;
}.

Lemma step_to_none st f port : step_to st (upd f st) (f (tf st)) port [].
Proof. split; [apply upd_moves | apply tf_upd | exists []; by rewrite app_nil_r]. Qed.

Lemma step_to_upd f st st' t port replies : step_to st st' t port replies -> step_to st (upd f st') (f t) port replies.
Proof.
  intros [Hm Ht Hs]. split; [eapply moves_trans; [exact Hm | apply upd_moves] | by rewrite tf_upd, Ht | exact Hs].
Qed.

Lemma step_to_after f st st' t port replies : step_to (upd f st) st' t port replies -> step_to st st' t port replies.
Proof. intros [Hm Ht Hs]. split; [eapply moves_trans; [apply upd_moves | exact Hm] | done | exact Hs]. Qed.

Lemma send_ack_step fuel rx st num port :
  asks st ->
  exists st', send_ack send send_ipv6 own_ip6 fuel rx st num port = Ok st' /\ step_to st st' (tf st) port [ack_message num] /\
    ether_packet st' = ether_packet st.
Proof using Type*.
  intros Ha. destruct (send_ack_spec fuel rx st num port Ha) as (st' & frame & E & Hso & Hse & Hbr).
  exists st'. split; [done|]. split; [|apply Hso]. split.
  - by apply sent_only_moves.
  - unfold tf. by rewrite (so_up _ _ Hso).
  - exists [frame]. split; [done|]. constructor; [exact Hbr | constructor].
Qed.

(** What handle_tftp reads. *)
Lemma udp_reads st sport op num data :
  0 <= sport < 65536 -> 0 <= op < 65536 -> 0 <= num < 65536 -> Z.of_nat (length data) < 65000 ->
  udp_at st sport (be_enc 2 op ++ be_enc 2 num ++ data) ->
  let p := packet_at st udp_ptr in
  rd 2 p uh_sport = Ok sport /\ rd 2 p uh_ulen = Ok (Z.of_nat (12 + length data)) /\ rd 2 p (UDPHDR + th_opcode) = Ok op /\
  rd 2 p (UDPHDR + th_data) = Ok num /\ rd_bytes (length data) p (UDPHDR + TFTPHDR) = Ok data.
Proof.
  intros Hs Ho Hn Hd (sum & rest & E). cbv zeta. rewrite E, !length_app, !be_enc_length, <- !app_assoc.
  change (8 + (2 + (2 + length data)))%nat with (12 + length data)%nat. split_and!.
  - exact (rd_app 2 [] sport _ Hs).
  - refine (rd_app 2 (be_enc 2 sport ++ be_enc 2 UDPPORT_TFTPC) (Z.of_nat (12 + length data)) _ _).
    change (256 ^ Z.of_nat 2) with 65536. lia.
  - exact (rd_app 2 (be_enc 2 sport ++ be_enc 2 UDPPORT_TFTPC ++ be_enc 2 (Z.of_nat (12 + length data)) ++ be_enc 2 sum) op _ Ho).
  - exact (rd_app 2 (be_enc 2 sport ++ be_enc 2 UDPPORT_TFTPC ++ be_enc 2 (Z.of_nat (12 + length data)) ++ be_enc 2 sum ++ be_enc 2 op) num _ Hn).
  - exact (rd_bytes_app (be_enc 2 sport ++ be_enc 2 UDPPORT_TFTPC ++ be_enc 2 (Z.of_nat (12 + length data)) ++ be_enc 2 sum ++ be_enc 2 op ++ be_enc 2 num) data rest).
Qed.

Lemma handle_data_spec fuel rx st sport num data :
  asks st -> buffer_room (tf st) -> 0 <= sport < 65536 -> 0 <= num < 65536 -> Z.of_nat (length data) < 65000 ->
  udp_at st sport (be_enc 2 DATA ++ be_enc 2 num ++ data) ->
  let '(t, replies, r) := client_data (tf st) num data in
  exists st', handle_data send send_ipv6 own_ip6 fuel rx st udp_ptr = Ok (r, st') /\
    step_to st st' t (port_number (tf st)) replies.
Proof using Type*.
  intros Ha [Hl Hi Hr] Hsp Hn Hd Hu.
  destruct (udp_reads st sport DATA num data Hsp ltac:(done) Hn Hd Hu) as (_ & Eul & _ & Enum & Edata).
  unfold handle_data, client_data. rewrite Enum. res_simpl. destruct (next_block (tf st) num) as [b|].
  - set (f1 := fun t => clear_bad (set_block b t)). change (packet_at (upd f1 st) udp_ptr) with (packet_at st udp_ptr).
    rewrite Eul. res_simpl. rewrite !tf_upd. set (t1 := f1 (tf st)).
    change (clear_bad (set_block b (tf st))) with t1. change (len t1) with (len (tf st)). change (received_len t1) with (received_len (tf st)).
    replace (received_len (tf st) + Z.of_nat (12 + length data) - 12) with (received_len (tf st) + Z.of_nat (length data)) by lia.
    destruct (Z.ltb_spec (len (tf st)) (received_len (tf st) + Z.of_nat (length data))).
    { eexists. split; [done|]. apply step_to_upd. apply (step_to_none st f1). }
    replace (Z.to_nat (u64 (Z.of_nat (12 + length data) - 12))) with (length data) by (rewrite u64_small by lia; lia).
    rewrite Edata. res_simpl. change (buffer t1) with (buffer (tf st)).
    rewrite wr_bytes_spec by lia. res_simpl. set (buf := splice (buffer (tf st)) _ data).
    set (st2 := upd (set_buffer buf) (upd f1 st)).
    assert (E2 : tf st2 = set_buffer buf t1) by (subst st2; by rewrite !tf_upd).
    assert (Ha2 : asks st2).
    { apply (moves_asks st); [|by rewrite E2 | done]. eapply moves_trans; apply upd_moves. }
    change (port_number t1) with (port_number (tf st)).
    destruct (send_ack_step fuel rx st2 num (port_number (tf st)) Ha2) as (st3 & -> & Hst & Het). res_simpl.
    rewrite E2 in Hst. apply step_to_after, step_to_after in Hst.
    unfold finish_block. assert (packet_at st3 udp_ptr = packet_at st udp_ptr) as -> by (unfold packet_at; cbn; by rewrite Het).
    rewrite Eul. res_simpl. set (f3 := fun t => set_received_len (s32 (received_len t + Z.of_nat (12 + length data) - 12)) t).
    rewrite !tf_upd, (st_tf _ _ _ _ _ Hst).
    set (t3 := set_received_len _ (set_buffer buf t1)).
    assert (E3 : f3 (set_buffer buf t1) = t3).
    { subst t3 f3. cbv beta. f_equal. change (received_len (set_buffer buf t1)) with (received_len (tf st)). rewrite s32_small by lia. lia. }
    rewrite E3. change (blocksize (f3 (set_buffer buf t1))) with (blocksize t3).
    apply (step_to_upd f3) in Hst. rewrite E3 in Hst.
    replace (Z.of_nat (12 + length data) <? blocksize t3 + 12) with (Z.of_nat (length data) <? blocksize t3)
      by (apply eq_true_iff_eq; rewrite !Z.ltb_lt; lia).
    destruct (Z.of_nat (length data) <? blocksize t3); [eexists; split; [done|]; by apply step_to_upd|].
    destruct ((0xffff <=? block t3) && (huge_load t3 =? 0)); [|by eexists].
    eexists. split; [done|]. by apply (step_to_upd (failed (-9))).
  - destruct (Z.eqb_spec num (block (tf st))) as [->|]; [|destruct (num <? block (tf st))].
    + destruct (send_ack_step fuel rx st (block (tf st)) (port_number (tf st)) Ha) as (st2 & -> & Hst & _). res_simpl.
      eexists. split; [done|]. by apply (step_to_upd (fun t => count_bad (set_lost_packets (s32 (lost_packets t + 1)) t))) in Hst.
    + eexists. split; [done|]. apply step_to_none.
    + eexists. split; [done|]. apply (step_to_upd (failed (-42))), step_to_none.
Qed.

(** Only the device and the packet array differ. *)
Lemma asks_dev st d b : asks st -> asks (with_ether (with_dev st d) b).
Proof. intros [H4 [Ha ? ? ? ?]]. split; [done|]. split; [by destruct Ha | done..]. Qed.

(** C11: what handle_tftp does with a message of the server that is no OACK, on
    every branch: it sets the timer again, goes to the state of [client_step] and sends its replies to
    the port the message came from.  The server's hardware address is known. *)
Theorem handle_tftp_step fuel rx st sport op num data size :
  asks st -> buffer_room (tf st) -> buffer_set (tf st) = true -> op <> OACK ->
  0 <= sport < 65536 -> 0 <= op < 65536 -> 0 <= num < 65536 -> Z.of_nat (length data) < 65000 ->
  udp_at st sport (be_enc 2 op ++ be_enc 2 num ++ data) ->
  let '(t, replies, r) := client_step (tf st) sport op num data in
  exists st', tftp_in fuel rx st udp_ptr size = Ok (r, st') /\ step_to (start_timer st) st' t (to_signed 16 sport) replies.
Proof using Type*.
  intros Ha Hroom Hset Hop Hsp Ho Hn Hd Hu.
  destruct (udp_reads st sport op num data Hsp Ho Hn Hd Hu) as (Esp & _ & Eop & Enum & _).
  unfold handle_tftp, client_step. rewrite Hset. cbn [negb]. cbv zeta.
  assert (Ha0 : asks (start_timer st)) by exact (asks_dev st (dev (start_timer st)) (ether_packet st) Ha).
  change (packet_at st) with (packet_at (start_timer st)) in *. change (tf st) with (tf (start_timer st)) in *. change (udp_at st) with (udp_at (start_timer st)) in Hu.
  set (st0 := start_timer st) in *. clearbody st0. clear st Ha Hset. rename st0 into st, Ha0 into Ha. rewrite Esp. res_simpl.
  set (f1 := set_port_number (to_signed 16 sport)). set (st1 := upd f1 st).
  change (packet_at st1 udp_ptr) with (packet_at st udp_ptr). rewrite Eop. res_simpl.
  assert (E1 : tf st1 = f1 (tf st)) by apply tf_upd.
  assert (Ha1 : asks st1) by (apply (moves_asks st); [apply upd_moves | by rewrite E1 | done]).
  destruct (Z.eqb_spec op OACK); [done|]. destruct (Z.eqb_spec op ACK) as [->|]; [|destruct (u8 op =? ERROR); [|destruct (Z.eqb_spec op DATA) as [->|]]].
  - assert (E2 : tf (upd (set_blocksize 512) st1) = set_blocksize 512 (f1 (tf st))) by by rewrite tf_upd, E1.
    assert (Ha2 : asks (upd (set_blocksize 512) st1)) by (apply (moves_asks st1); [apply upd_moves | by rewrite E2, E1 | done]).
    rewrite E1. change (port_number (f1 (tf st))) with (to_signed 16 sport).
    destruct (send_ack_step fuel rx _ 0 (to_signed 16 sport) Ha2) as (st2 & E & Hst & _). rewrite E. res_simpl.
    rewrite E2 in Hst. by eexists; split; [|apply step_to_after, step_to_after in Hst].
  - rewrite Enum. res_simpl. eexists. split; [done|]. apply (step_to_upd (failed _)), step_to_none.
  - pose proof (handle_data_spec fuel rx st1 sport num data Ha1) as Hdat. rewrite E1 in Hdat.
    change (udp_at st1) with (udp_at st) in Hdat. specialize (Hdat ltac:(by destruct Hroom) Hsp Hn Hd Hu).
    destruct (client_data (f1 (tf st)) num data) as [[t replies] r]. destruct Hdat as (st' & E & Hst). exists st'. split; [done|].
    by apply step_to_after in Hst.
  - eexists. split; [done|]. apply (step_to_upd count_bad), step_to_none.
Qed.

(** ** What the server sends *)

(** A frame for [mac] with a UDP message for the client, accepted by [r]. *)
Definition from_server (mac : list Z) (r : routes) (frame : list Z) (sport : Z) (msg : list Z) : Prop :=
  udp_frame mac r frame sport UDPPORT_TFTPC msg.

Context (handle_dhcp handle_dns handle_dhcpv6 handle_ipv6 : nat -> (net U -> res (Z * net U)) -> net U -> ptr -> Z -> res (Z * net U)).

Abbreviation ether_in := (receive_ether send handle_dhcp handle_dns handle_dhcpv6 tftp_in handle_tftp_dun handle_ipv6).

Lemma receive_tftp fuel st frame q sport msg :
  length (own_mac st) = 6%nat -> rxq (dev st) = Some frame :: q -> from_server (own_mac st) (rt st) frame sport msg ->
  exists b, udp_at (taken st q b) sport msg /\
    ether_in (S fuel) st = (fun x => (to_signed 8 x.1, x.2)) <$>
      tftp_in fuel (ether_in fuel) (taken st q b) udp_ptr (Z.of_nat (8 + length msg)).
Proof using Type*.
  intros Hmac Hq Hf. destruct (receive_udp send handle_dhcp handle_dns handle_dhcpv6 tftp_in handle_ipv6 handle_tftp_dun fuel st frame q sport UDPPORT_TFTPC msg Hmac Hq Hf)
    as (b & Hd & ->). exists b. split; [done|]. destruct Hf as (src & iph & sum & pad & dst & Ef & _ & _ & Hmtu & Hsp & Hdp & _).
  assert (Z.of_nat (length msg) < 1518).
  { unfold ETH_MTU_SIZE in Hmtu. rewrite Ef, !length_app, !be_enc_length in Hmtu. lia. }
  destruct (datagram_ports _ _ _ _ Hsp Hdp Hd) as [E1 E2]. unfold handle_udp.
  destruct (Z.ltb_spec (Z.of_nat (8 + length msg)) (Z.of_nat UDPHDR)); [unfold UDPHDR in *; lia|].
  rewrite E2. res_simpl. rewrite E1. res_simpl.
  change (UDPPORT_TFTPC =? UDPPORT_BOOTPC) with false. change (UDPPORT_TFTPC =? UDPPORT_DNSC) with false.
  change (UDPPORT_TFTPC =? UDPPORT_DHCPV6C) with false. change (UDPPORT_TFTPC =? UDPPORT_TFTPC) with true. cbn match.
  by rewrite s32_small by lia.
Qed.

(** ** A session *)

(** The state [t] of the client, its routes, the frames that wait and the timer. *)
Record at_state st (t : tftp_st) (mac : list Z) (r : routes) (q : list (option (list Z))) (clk : timer) : Prop := {
  at_tf : tf st = t;
  at_mac : own_mac st = mac;
  at_rt : rt st = r;
  at_asks : asks st;
  at_rxq : rxq (dev st) = q;
  at_clock : clock (dev st) = clk;
}.

Lemma at_moves st st' t t' mac r q clk :
  at_state st t mac r q clk -> moves st st' -> tf st' = t' -> fn_ip t' = fn_ip t -> at_state st' t' mac r q clk.
Proof.
  intros [E1 E2 E3 Ha E5 E6] Hm Et Ef. split; [done | ..].
  - by rewrite (m_mac _ _ Hm).
  - by rewrite (m_rt _ _ Hm).
  - apply (moves_asks st); [done | by rewrite Et, E1 | done].
  - by rewrite (m_rxq _ _ Hm).
  - by rewrite (m_clock _ _ Hm).
Qed.

Lemma at_device st t mac r q clk clk' :
  at_state st t mac r q clk -> at_state (with_dev st (Device (rxq (dev st)) clk' (sent (dev st)))) t mac r q clk'.
Proof.
  intros [E1 E2 E3 Ha E5 E6]. split; try done. exact (asks_dev st (Device (rxq (dev st)) clk' (sent (dev st))) (ether_packet st) Ha).
Qed.

Lemma at_start st t mac r q clk : at_state st t mac r q clk -> at_state (start_timer st) t mac r q (set_timer TICKS_SEC clk).
Proof. intros Hat. rewrite <- (at_clock _ _ _ _ _ _ Hat). eapply at_device, Hat. Qed.

Lemma at_taken st t mac r f q clk b : at_state st t mac r (f :: q) clk -> at_state (taken st q b) t mac r q clk.
Proof. intros [E1 E2 E3 Ha E5 E6]. split; try done. by apply asks_dev. Qed.

Abbreviation timeout := (tftp_timeout send send_ipv6 own_ip6 handle_dhcp handle_dns handle_dhcpv6 handle_ipv6).
Abbreviation loop := (tftp_loop send send_ipv6 own_ip6 handle_dhcp handle_dns handle_dhcpv6 handle_ipv6).

Lemma timeout_spec depth st t mac r q clk :
  at_state st t mac r q clk -> request_fits t ->
  exists st', timeout depth st = Ok st' /\ at_state st' (count_none t) mac r q (set_timer TICKS_SEC clk).
Proof using Type*.
  intros Hat (Hf & Hs & Hl). pose proof (at_tf _ _ _ _ _ _ Hat) as Et. unfold tftp_timeout. rewrite Et. cbv zeta.
  match goal with |- context [?r ≫= _] => assert (exists st1, r = Ok st1 /\ moves st st1 /\ tf st1 = tf st) as (st1 & -> & Hm & Ht) end.
  { case_match; [|case_match].
    - destruct (send_ack_spec depth (ether_in depth) st (block t) (port_number t) (at_asks _ _ _ _ _ _ Hat)) as (st1 & f & E & Hso & _).
      exists st1. split; [done|]. split; [by apply sent_only_moves|]. unfold tf. by rewrite (so_up _ _ Hso).
    - rewrite <- Et in Hf, Hs, Hl.
      destruct (send_rrq_spec depth (ether_in depth) st (at_asks _ _ _ _ _ _ Hat) Hf Hs Hl) as (st1 & f & E & Hso & _).
      exists st1. split; [done|]. split; [by apply sent_only_moves|]. unfold tf. by rewrite (so_up _ _ Hso).
    - exists st. by split. }
  res_simpl. eexists. split; [done|]. apply at_start. eapply at_moves; [exact Hat | eapply moves_trans; [exact Hm | apply upd_moves] | | done].
  by rewrite tf_upd, Ht, Et.
Qed.

(** A queue whose first entry is a failure of recv. *)
Lemma receive_failure fuel st q :
  rxq (dev st) = None :: q -> exists b, ether_in (S fuel) st = Ok (-1, taken st q b).
Proof using Type*.
  intros Hq. cbn [receive_ether]. unfold recv. rewrite Hq. exists (replicate ETH_MTU_SIZE 0).
  rewrite wr_bytes_spec by (cbn; lia). res_simpl. done.
Qed.

(** The beginning of a turn: the timer. *)
Lemma turn_timer depth st t mac r f q clk bs b bad got total n :
  at_state st t mac r (f :: q) clk -> loading t bs b bad got total -> 0 <= n ->
  0 <= no_packets (tftp_err t) -> no_packets (tftp_err t) + ((if 0 <? (get_timer clk).1 then 0 else 1) + n) < 2 ^ 32 ->
  exists st' t', (let '(more, st1) := timer_left st in if more : bool then Ok st1 else timeout depth st1) = Ok st' /\
    at_state st' t' mac r (f :: q) (turn_clock clk) /\ loading t' bs b bad got total /\ retries t' = retries t /\
    0 <= no_packets (tftp_err t') /\ no_packets (tftp_err t') + n = no_packets (tftp_err t) + ((if 0 <? (get_timer clk).1 then 0 else 1) + n).
Proof using Type*.
  intros Hat Hl Hn Hn0 Hsum. unfold timer_left, turn_clock. rewrite (at_clock _ _ _ _ _ _ Hat).
  pose proof (at_device st t mac r (f :: q) clk (get_timer clk).2 Hat) as Hat1. destruct (get_timer clk) as [k c]. cbn [fst snd] in *.
  set (st1 := with_dev st _) in *. destruct (0 <? k).
  - exists st1, t. split_and!; try done; lia.
  - destruct (timeout_spec depth st1 t mac r (f :: q) c Hat1 (l_fits _ _ _ _ _ _ Hl)) as (st' & -> & Hat').
    exists st', (count_none t). split; [done|]. split; [done|].
    split; [by destruct Hl|]. split; [done|]. cbn [count_none set_tftp_err tftp_err no_packets]. rewrite u32_small by lia. lia.
Qed.

Definition data_message (num : Z) (data : list Z) : list Z := be_enc 2 DATA ++ be_enc 2 num ++ data.

(** What comes in when block [b] was the last and [rest] is what is left of the
    file: every block in its turn; between them blocks that came before, at most
    [max] in a row ([bad] counts them), and failures of recv. *)
Inductive session (mac : list Z) (r : routes) (bs max : Z) : Z -> Z -> list Z -> list (option (list Z)) -> Prop :=
  | session_last b bad num sport frame rest q :
      follows b num -> Z.of_nat (length rest) < bs -> from_server mac r frame sport (data_message num rest) ->
      session mac r bs max b bad rest (Some frame :: q)
  | session_next b bad num sport frame chunk rest q :
      follows b num -> Z.of_nat (length chunk) = bs -> from_server mac r frame sport (data_message num chunk) ->
      session mac r bs max num 0 rest q -> session mac r bs max b bad (chunk ++ rest) (Some frame :: q)
  | session_again b bad num sport frame data rest q :
      repeats b num -> bad < max -> from_server mac r frame sport (data_message num data) ->
      session mac r bs max b (bad + 1) rest q -> session mac r bs max b bad rest (Some frame :: q)
  | session_failure b bad rest q :
      session mac r bs max b bad rest q -> session mac r bs max b bad rest (None :: q).

Lemma from_server_length mac r frame sport num data :
  from_server mac r frame sport (data_message num data) -> Z.of_nat (length data) < 65000 /\ 0 <= sport < 65536.
Proof.
  intros (src & iph & sum & pad & dst & Ef & _ & _ & Hmtu & Hs & _). split; [|done].
  rewrite Ef in Hmtu. unfold data_message in Hmtu. rewrite !length_app in Hmtu. unfold ETH_MTU_SIZE in Hmtu. lia.
Qed.

(** A frame with a DATA message, from the beginning of a turn on. *)
Lemma turn_data depth st t mac r frame q clk bs b bad got total sport num data :
  at_state st t mac r (Some frame :: q) clk -> loading t bs b bad got total ->
  from_server mac r frame sport (data_message num data) -> 0 <= num < 65536 ->
  let '(t', _, res) := client_data (set_port_number (to_signed 16 sport) t) num data in
  exists st', ether_in (S depth) st = Ok (to_signed 8 res, st') /\ (fn_ip t' = fn_ip t -> at_state st' t' mac r q (set_timer TICKS_SEC clk)).
Proof using Type*.
  intros Hat Hl Hf Hn. destruct (from_server_length _ _ _ _ _ _ Hf) as [Hd Hsp].
  pose proof (k_arp _ _ (proj2 (at_asks _ _ _ _ _ _ Hat))) as Harp.
  destruct (receive_tftp depth st frame q sport (data_message num data)) as (bts & Hudp & E).
  { apply Harp. }
  { apply (at_rxq _ _ _ _ _ _ Hat). }
  { by rewrite (at_mac _ _ _ _ _ _ Hat), (at_rt _ _ _ _ _ _ Hat). }
  pose proof (at_taken st t mac r (Some frame) q clk bts Hat) as Hat1. set (st1 := taken st q bts) in *.
  pose proof (at_tf _ _ _ _ _ _ Hat1) as Et.
  assert (Hroom : buffer_room (tf st1)).
  { rewrite Et. destruct Hl. split; [tauto | tauto | lia]. }
  pose proof (handle_tftp_step depth (ether_in depth) st1 sport DATA num data (Z.of_nat (8 + length (data_message num data)))
    (at_asks _ _ _ _ _ _ Hat1) Hroom) as S. rewrite Et in S.
  specialize (S (l_set _ _ _ _ _ _ Hl) ltac:(done) Hsp ltac:(done) Hn Hd Hudp).
  unfold client_step in S. change (DATA =? ACK) with false in S. change (u8 DATA =? ERROR) with false in S.
  change (DATA =? DATA) with true in S. cbn match in S.
  destruct (client_data _ num data) as [[t' replies] res]. destruct S as (st' & ES & Hst). exists st'.
  split; [by rewrite E, ES|]. intros Ef. eapply at_moves; [exact (at_start _ _ _ _ _ _ Hat1) | apply Hst | apply Hst | done].
Qed.


(** One turn of the loop: the timer, and a frame that [P] tells the outcome of. *)
Lemma turn fuel depth st t mac r f q clk bs b bad got total max (P : tftp_st -> Prop) :
  at_state st t mac r (f :: q) clk -> loading t bs b bad got total -> retries t = max -> max < 2 ^ 32 - 1 ->
  0 <= no_packets (tftp_err t) -> no_packets (tftp_err t) + expired (f :: q) clk <= max ->
  (forall st1 t1, at_state st1 t1 mac r (f :: q) (turn_clock clk) -> loading t1 bs b bad got total ->
     exists res st' t', ether_in (S depth) st1 = Ok (res, st') /\ at_state st' t' mac r q (frame_clock f (turn_clock clk)) /\ retries t' = retries t1 /\
       no_packets (tftp_err t') = no_packets (tftp_err t1) /\ bad_tftp_packets (tftp_err t') <= max /\ P t') ->
  exists st' t', loop (S fuel) (S depth) st = loop fuel (S depth) st' /\ at_state st' t' mac r q (frame_clock f (turn_clock clk)) /\ retries t' = max /\
    0 <= no_packets (tftp_err t') /\ no_packets (tftp_err t') + expired q (frame_clock f (turn_clock clk)) <= max /\ P t'.
Proof using Type*.
  intros Hat Hld Hr Hmax Hn0 Hn Hrest. cbn [expired] in Hn. pose proof (expired_nonneg q (frame_clock f (turn_clock clk))) as He.
  destruct (turn_timer (S depth) st t mac r f q clk _ _ _ _ _ _ Hat Hld He Hn0) as (st1 & t1 & E1 & Hat1 & Hld1 & Hr1 & Hn1 & En1); [lia|].
  destruct (Hrest st1 t1 Hat1 Hld1) as (res & st' & t' & E2 & Hat' & Hr' & Hn' & Hb & HP).
  exists st', t'. split; [|split_and!; try done; try lia; congruence].
  cbn [tftp_loop]. rewrite (at_tf _ _ _ _ _ _ Hat), (l_finished _ _ _ _ _ _ Hld). cbn [Z.eqb negb]. destruct (timer_left st) as [more st2].
  rewrite E1. res_simpl. rewrite E2. res_simpl. rewrite (at_tf _ _ _ _ _ _ Hat'), Hr', Hr1, Hr.
  destruct (Z.ltb_spec max (bad_tftp_packets (tftp_err t'))); [lia|].
  by destruct (Z.ltb_spec max (no_packets (tftp_err t'))); [lia|].
Qed.

Lemma follows_range b num : follows b num -> 0 <= b < 65536 -> 0 <= num < 65536.
Proof. unfold follows. lia. Qed.

Lemma loop_loads depth mac r bs max b bad rest q :
  session mac r bs max b bad rest q -> 0 <= max < 2 ^ 32 - 1 ->
  forall fuel st t clk got total, at_state st t mac r q clk -> loading t bs b bad got total -> retries t = max ->
    0 <= b < 65536 -> 0 <= bad <= max -> (length got + length rest)%nat = total ->
    0 <= no_packets (tftp_err t) -> no_packets (tftp_err t) + expired q clk <= max -> (length q < fuel)%nat ->
    exists st', loop fuel (S depth) st = Ok st' /\ loaded (tf st') (got ++ rest).
Proof using Type*.
  intros Hs Hmax. induction Hs as [b bad num sport frame rest q Hf Hl Hfs | b bad num sport frame chunk rest q Hf Hl Hfs _ IH
    | b bad num sport frame data rest q Hrep Hbad Hfs _ IH | b bad rest q _ IH];
    intros [|fuel] st t clk got total Hat Hld Hr Hb Hbm Htot Hn0 Hn Hfu; cbn [length] in *; try lia.
  - destruct (turn fuel depth st t mac r (Some frame) q clk bs b bad got total max
      (fun t' => tftp_finished t' = 1 /\ loaded t' (got ++ rest))) as (st' & t' & -> & Hat' & _ & _ & _ & Hfin & Hld'); try done; try lia.
    + intros st1 t1 Hat1 Hld1.
      pose proof (turn_data depth st1 t1 mac r frame q (turn_clock clk) bs b bad got total sport num rest Hat1 Hld1 Hfs (follows_range _ _ Hf Hb)) as T.
      destruct (client_next t1 bs b bad got total (to_signed 16 sport) num rest Hld1 Hf Hb ltac:(lia))
        as (t' & replies & Ec & Efn & Er & Enp & Ebad & Hres). rewrite Ec in T. destruct T as (st' & Ee & Hat').
      destruct (Z.ltb_spec (Z.of_nat (length rest)) bs); [|lia]. exists (to_signed 8 0), st', t'.
      split; [exact Ee|]. split; [by apply Hat'|]. split; [done|]. split; [done|]. split; [lia | exact Hres].
    + destruct fuel as [|fuel]; [lia|]. cbn [tftp_loop]. rewrite (at_tf _ _ _ _ _ _ Hat'), Hfin. cbn [Z.eqb negb].
      exists st'. split; [done|]. by rewrite (at_tf _ _ _ _ _ _ Hat').
  - rewrite length_app in Htot. destruct (turn fuel depth st t mac r (Some frame) q clk bs b bad got total max
      (fun t' => loading t' bs num 0 (got ++ chunk) total)) as (st' & t' & -> & Hat' & Hr' & Hn0' & Hn' & Hld'); try done; try lia.
    + intros st1 t1 Hat1 Hld1.
      pose proof (turn_data depth st1 t1 mac r frame q (turn_clock clk) bs b bad got total sport num chunk Hat1 Hld1 Hfs (follows_range _ _ Hf Hb)) as T.
      destruct (client_next t1 bs b bad got total (to_signed 16 sport) num chunk Hld1 Hf Hb ltac:(lia))
        as (t' & replies & Ec & Efn & Er & Enp & Ebad & Hres). rewrite Ec in T. destruct T as (st' & Ee & Hat').
      destruct (Z.ltb_spec (Z.of_nat (length chunk)) bs); [lia|]. exists (to_signed 8 0), st', t'.
      split; [exact Ee|]. split; [by apply Hat'|]. split; [done|]. split; [done|]. split; [lia | exact Hres].
    + rewrite app_assoc. eapply IH; try done; try lia; [by eapply follows_range | rewrite length_app; lia].
  - destruct (turn fuel depth st t mac r (Some frame) q clk bs b bad got total max
      (fun t' => loading t' bs b (bad + 1) got total)) as (st' & t' & -> & Hat' & Hr' & Hn0' & Hn' & Hld'); try done; try lia.
    + intros st1 t1 Hat1 Hld1. assert (Hnum : 0 <= num < 65536) by (destruct Hrep; lia).
      pose proof (turn_data depth st1 t1 mac r frame q (turn_clock clk) bs b bad got total sport num data Hat1 Hld1 Hfs Hnum) as T.
      destruct (client_again t1 bs b bad got total (to_signed 16 sport) num data Hld1 Hrep ltac:(lia))
        as (t' & replies & Ec & Efn & Er & Enp & Hres). rewrite Ec in T. destruct T as (st' & Ee & Hat').
      exists (to_signed 8 0), st', t'.
      split; [exact Ee|]. split; [by apply Hat'|]. split; [done|]. split; [done|]. split; [rewrite (l_bad _ _ _ _ _ _ Hres); lia | exact Hres].
    + eapply IH; try done; lia.
  - destruct (turn fuel depth st t mac r None q clk bs b bad got total max
      (fun t' => loading t' bs b bad got total)) as (st' & t' & -> & Hat' & Hr' & Hn0' & Hn' & Hld'); try done; try lia.
    + intros st1 t1 Hat1 Hld1. destruct (receive_failure depth st1 q (at_rxq _ _ _ _ _ _ Hat1)) as (bts & Ee).
      eexists _, _, t1. split; [exact Ee|]. split; [by eapply at_taken|]. split_and!; try done. rewrite (l_bad _ _ _ _ _ _ Hld1). lia.
    + eapply IH; try done; lia.
Qed.

(** The beginning of a session: the server gives the block size, or sends the
    first block at once, with blocks of 512 bytes. *)
Definition oack_message (ds rest : list Z) : list Z := be_enc 2 OACK ++ blksize ++ [0] ++ ds ++ [0] ++ rest.

Definition opening (mac : list Z) (r : routes) (bs : Z) (q q' : list (option (list Z))) : Prop :=
  bs = 512 /\ q' = q \/
  exists frame sport ds rest, q = Some frame :: q' /\ from_server mac r frame sport (oack_message ds rest) /\
    Forall (digit_in 10) ds /\ digits_value 10 ds = bs /\ 0 < bs <= MAX_BLOCKSIZE.

Lemma handle_oack fuel rx st sport ds rest :
  asks st -> buffer_set (tf st) = true -> 0 <= sport < 65536 -> Forall (digit_in 10) ds ->
  0 < digits_value 10 ds <= MAX_BLOCKSIZE -> Z.of_nat (length (oack_message ds rest)) < 60000 -> udp_at st sport (oack_message ds rest) ->
  exists st', tftp_in fuel rx st udp_ptr (Z.of_nat (8 + length (oack_message ds rest))) = Ok (0, st') /\
    step_to (start_timer st) st' (set_blocksize (digits_value 10 ds) (set_port_number (to_signed 16 sport) (tf st))) (to_signed 16 sport) [ack_message 0].
Proof using Type*.
  intros Ha Hset Hsp Hds Hv Hn (sum & tail & E). unfold MAX_BLOCKSIZE in *. set (n := length (oack_message ds rest)) in *.
  unfold handle_tftp. rewrite Hset. cbn [negb]. cbv zeta. pose proof (asks_dev st (dev (start_timer st)) (ether_packet st) Ha : asks (start_timer st)) as Ha0.
  change (packet_at st) with (packet_at (start_timer st)) in E. change (tf st) with (tf (start_timer st)).
  set (st0 := start_timer st) in *. clearbody st0. clear st Ha Hset. rename st0 into st, Ha0 into Ha. rewrite E. pose proof (rd_app 2 [] sport (be_enc 2 UDPPORT_TFTPC ++
    be_enc 2 (Z.of_nat (8 + n)) ++ be_enc 2 sum ++ oack_message ds rest ++ tail) Hsp) as R0. cbn [app length] in R0.
  change uh_sport with O. rewrite R0. res_simpl. set (f1 := set_port_number (to_signed 16 sport)). set (st1 := upd f1 st).
  change (packet_at st1 udp_ptr) with (packet_at st udp_ptr). rewrite E.
  assert (Eop : rd 2 (be_enc 2 sport ++ be_enc 2 UDPPORT_TFTPC ++ be_enc 2 (Z.of_nat (8 + n)) ++ be_enc 2 sum ++ oack_message ds rest ++ tail)
    (UDPHDR + th_opcode) = Ok OACK).
  { unfold oack_message. rewrite <- !app_assoc.
    exact (rd_app 2 (be_enc 2 sport ++ be_enc 2 UDPPORT_TFTPC ++ be_enc 2 (Z.of_nat (8 + n)) ++ be_enc 2 sum) OACK _ ltac:(done)). }
  rewrite Eop. res_simpl. change (OACK =? OACK) with true. cbn match. rewrite u32_small by lia.
  pose proof (get_blksize_first (be_enc 2 sport ++ be_enc 2 UDPPORT_TFTPC ++ be_enc 2 (Z.of_nat (8 + n)) ++ be_enc 2 sum ++ be_enc 2 OACK)
    ds (rest ++ tail) (Z.of_nat (8 + n))) as G. rewrite !length_app, !be_enc_length in G. unfold oack_message at 1. rewrite <- !app_assoc. rewrite <- !app_assoc in G.
  assert (10 < Z.of_nat (8 + n)) by (subst n; unfold oack_message; rewrite !length_app; cbn; lia).
  rewrite G by (done || lia). res_simpl. rewrite u64_small, u16_small by lia. set (bs := digits_value 10 ds) in *.
  destruct (Z.eqb_spec bs 0); [lia|]. destruct (Z.ltb_spec MAX_BLOCKSIZE bs); [unfold MAX_BLOCKSIZE in *; lia|]. cbn [orb].
  assert (E2 : tf (upd (set_blocksize bs) st1) = set_blocksize bs (f1 (tf st))) by (subst st1; by rewrite !tf_upd).
  assert (Ha2 : asks (upd (set_blocksize bs) st1)).
  { apply (moves_asks st); [eapply moves_trans; apply upd_moves | by rewrite E2 | done]. }
  rewrite E2. change (port_number (set_blocksize bs (f1 (tf st)))) with (to_signed 16 sport).
  destruct (send_ack_step fuel rx _ 0 (to_signed 16 sport) Ha2) as (st2 & Es & Hst & _). rewrite Es. res_simpl.
  rewrite E2 in Hst. eexists. split; [done|]. by apply step_to_after, step_to_after in Hst.
Qed.

(** A turn in which the server gives the block size. *)
Lemma turn_oack depth st t mac r frame q clk bs total sport ds rest :
  at_state st t mac r (Some frame :: q) clk -> loading t bs 0 0 [] total -> from_server mac r frame sport (oack_message ds rest) ->
  Forall (digit_in 10) ds -> 0 < digits_value 10 ds <= MAX_BLOCKSIZE ->
  exists st' t', ether_in (S depth) st = Ok (0, st') /\ at_state st' t' mac r q (set_timer TICKS_SEC clk) /\ retries t' = retries t /\
    no_packets (tftp_err t') = no_packets (tftp_err t) /\ loading t' (digits_value 10 ds) 0 0 [] total.
Proof using Type*.
  intros Hat Hl Hf Hds Hv.
  destruct (receive_tftp depth st frame q sport (oack_message ds rest)) as (bts & Hudp & E).
  { apply (k_arp _ _ (proj2 (at_asks _ _ _ _ _ _ Hat))). }
  { apply (at_rxq _ _ _ _ _ _ Hat). }
  { by rewrite (at_mac _ _ _ _ _ _ Hat), (at_rt _ _ _ _ _ _ Hat). }
  pose proof (at_taken st t mac r (Some frame) q clk bts Hat) as Hat1. set (st1 := taken st q bts) in *.
  destruct Hf as (src & iph & sum & pad & dst & Ef & _ & _ & Hmtu & Hsp & _).
  assert (Hlen : Z.of_nat (length (oack_message ds rest)) < 60000).
  { rewrite Ef, !length_app in Hmtu. unfold ETH_MTU_SIZE in Hmtu. lia. }
  destruct (handle_oack depth (ether_in depth) st1 sport ds rest (at_asks _ _ _ _ _ _ Hat1)) as (st' & E' & Hst); try done.
  { rewrite (at_tf _ _ _ _ _ _ Hat1). apply Hl. }
  rewrite (at_tf _ _ _ _ _ _ Hat1) in Hst. eexists st', _. split; [by rewrite E, E'|]. split.
  - eapply at_moves; [exact (at_start _ _ _ _ _ _ Hat1) | apply Hst | apply Hst | done].
  - split; [done|]. split; [done|]. by destruct Hl.
Qed.

(** A server that answers the request again and again keeps the client waiting, as
    long as its answers come within a second of each other: the client is in the
    loop after any number of turns, whatever the number of retries. *)
Lemma kept_waiting depth mac r frame sport ds rest n :
  from_server mac r frame sport (oack_message ds rest) -> Forall (digit_in 10) ds -> 0 < digits_value 10 ds <= MAX_BLOCKSIZE ->
  forall st t clk bs total, at_state st t mac r (replicate n (Some frame)) clk -> loading t bs 0 0 [] total ->
    0 <= no_packets (tftp_err t) <= retries t -> retries t < 2 ^ 32 - 1 -> expired (replicate n (Some frame)) clk = 0 ->
    loop n (S depth) st = OutOfFuel.
Proof using Type*.
  intros Hf Hds Hbs. induction n as [|n IH]; intros st t clk bs total Hat Hld Hn Hr He; [done|]. cbn [replicate] in *.
  destruct (turn n depth st t mac r (Some frame) (replicate n (Some frame)) clk bs 0 0 [] total (retries t)
    (fun t' => loading t' (digits_value 10 ds) 0 0 [] total)) as (st' & t' & -> & Hat' & Hr' & Hn0 & Hn' & Hld'); try done; try lia.
  - intros st1 t1 Hat1 Hld1. destruct (turn_oack depth st1 t1 _ _ frame _ _ _ _ sport ds rest Hat1 Hld1 Hf Hds Hbs)
      as (st2 & t2 & E2 & Hat2 & Hr2 & Hn2 & Hld2). exists 0, st2, t2. split_and!; try done. rewrite (l_bad _ _ _ _ _ _ Hld2). lia.
  - cbn [expired] in He. pose proof (expired_nonneg (replicate n (Some frame)) (frame_clock (Some frame) (turn_clock clk))).
    eapply IH; [exact Hat' | exact Hld' | lia | lia|]. case_match; lia.
Qed.

(** C1: loading a file.  When the hardware address of the server is known, and the
    server opens a session for the file and sends every block in its turn, with
    repetitions of blocks that came before, failures of recv and timeouts
    between them up to the number of retries, also past block 65535, then tftp
    returns the length of the file and the buffer holds it. *)
Theorem tftp_loads fuel depth st fn buf _len _retries err bs file q q' :
  ip_ver fn = 4 -> known st (server_ip fn) -> Forall byte (filename fn) -> (length (filename fn) <= 205)%nat ->
  rxq (dev st) = q -> opening (own_mac st) (rt st) bs q q' -> session (own_mac st) (rt st) bs _retries 0 0 file q' ->
  Z.of_nat (length file) <= _len -> _len <= Z.of_nat (length buf) -> _len < 2 ^ 31 -> 0 <= _retries < 2 ^ 32 - 1 ->
  expired q (set_timer TICKS_SEC (clock (dev st))) <= _retries -> (length q < fuel)%nat ->
  exists st', tftp send send_ipv6 own_ip6 handle_dhcp handle_dns handle_dhcpv6 handle_ipv6 fuel (S depth) st fn buf _len _retries err =
      Ok (Z.of_nat (length file), st') /\ take (length file) (buffer (tf st')) = file /\ buffer_set (tf st') = false.
Proof using Type*.
  intros H4 Hk Hfb Hfl Hq Hop Hses Hfile Hlen Hint Hret Hexp Hfuel. unfold tftp. cbv zeta.
  set (t0 := tftp_init fn buf _len _retries (blocks_missed err) (blocks_received err)). set (st0 := upd (fun _ => t0) st).
  assert (E0 : tf st0 = t0) by apply tf_upd.
  assert (Ha0 : asks st0) by (unfold asks; rewrite E0; split; [done|]; by destruct Hk as [[] ]).
  pose proof (asks_dev st0 (dev (start_timer st0)) (ether_packet st0) Ha0 : asks (start_timer st0)) as Ha1. change (tf st0) with (tf (start_timer st0)) in E0.
  pose proof (tftp_init_loading fn buf _len _retries (blocks_missed err) (blocks_received err) (length file) Hlen Hint Hfile Hfb Hfl) as Hld. fold t0 in Hld.
  destruct (send_rrq_spec (S depth) (ether_in (S depth)) (start_timer st0) Ha1) as (st1 & f & -> & Hso & _); try (rewrite E0; apply Hld).
  res_simpl.
  assert (Hat : at_state st1 t0 (own_mac st) (rt st) q (set_timer TICKS_SEC (clock (dev st)))).
  { eapply at_moves; [|apply sent_only_moves, Hso | unfold tf; rewrite (so_up _ _ Hso); exact E0 | done]. by split. }
  assert (exists st2, loop fuel (S depth) st1 = Ok st2 /\ loaded (tf st2) ([] ++ file)) as (st2 & -> & Her & Hrl & Hbuf).
  { destruct Hop as [[-> ->]|(frame & sport & ds & rest & -> & Hfs & Hds & <- & Hbs)].
    - eapply loop_loads; try done; cbn; lia.
    - destruct fuel as [|fuel]; [cbn in Hfuel; lia|]. cbn [length] in *.
      destruct (turn fuel depth st1 t0 (own_mac st) (rt st) (Some frame) q' (set_timer TICKS_SEC (clock (dev st))) 512 0 0 [] (length file) _retries
        (fun t' => loading t' (digits_value 10 ds) 0 0 [] (length file))) as (st2 & t2 & -> & Hat' & Hr' & Hn0 & Hn & Hld'); try done; try lia.
      + intros st3 t3 Hat3 Hld3. destruct (turn_oack depth st3 t3 _ _ frame q' _ _ _ sport ds rest Hat3 Hld3 Hfs Hds Hbs)
          as (st4 & t4 & E4 & Hat4 & Hr4 & Hn4 & Hld4). exists 0, st4, t4. split_and!; try done. rewrite (l_bad _ _ _ _ _ _ Hld4). lia.
      + eapply loop_loads; try done; cbn; lia. }
  res_simpl. match goal with |- context [upd ?f st2] => exists (upd f st2) end. rewrite !tf_upd. cbn [tftp_errno received_len buffer buffer_set]. rewrite Her. cbn [Z.eqb negb].
  split; [by rewrite Hrl|]. split; [exact Hbuf | done].
Qed.
End load.

(** ** A concrete session *)

Definition demo_client : tftp_st := tftp_init (FilenameIp 0x0A000002 [] [102] 4) [] 0 0 0 0.
Definition demo_mac : list Z := [2; 0; 0; 0; 0; 1].
Definition demo_server_mac : list Z := [2; 0; 0; 0; 0; 2].

(** A stack that knows the server 10.0.0.2. *)
Definition demo_stack (u : tftp_st) (q : list (option (list Z))) (clk : list Z) : net tftp_st :=
  let frame := replicate ETH_MTU_SIZE 0 in
  Net demo_mac demo_routes
    (Arp 0 1 (ArpEntry 0x0A000002 demo_server_mac frame 0 0 :: replicate 9 (ArpEntry 0 null_mac_addr frame 0 0)) frame 0)
    0 IPv4 frame (replicate (Z.to_nat 65536) 0) (Device q (Timer 0 0 clk) []) u.

Definition demo_send_ipv6 (fuel : nat) (rx : net tftp_st -> res (Z * net tftp_st)) (st : net tftp_st) (b : list Z) (n : nat) :
  res (Z * net tftp_st) := Ok (0, st).
Definition demo_protocol (fuel : nat) (rx : net tftp_st -> res (Z * net tftp_st)) (st : net tftp_st) (p : ptr) (n : Z) :
  res (Z * net tftp_st) := Ok (0, st).

(** A frame with a UDP message of the server. *)
Definition demo_iph (n : nat) : list Z :=
  let h := [0x45; 0; 0; Z.of_nat (28 + n); 0; 0; 0; 0; 255; 17; 0; 0] ++ be_enc 4 0x0A000002 ++ be_enc 4 0x0A000001 in
  match sum ← checksum h 0 10; wr 2 h ip_sum sum with Ok h => h | _ => [] end.
Definition demo_frame (msg : list Z) : list Z :=
  demo_mac ++ demo_server_mac ++ be_enc 2 ETHERTYPE_IP ++ demo_iph (length msg) ++ be_enc 2 1069 ++ be_enc 2 UDPPORT_TFTPC ++
  be_enc 2 (Z.of_nat (8 + length msg)) ++ be_enc 2 0 ++ msg ++ [].

Ltac frame_eval :=
  match goal with |- from_server _ _ (demo_frame ?msg) _ _ =>
    exists demo_server_mac, (demo_iph (length msg)), 0, [], 0x0A000001; split; [reflexivity|];
    split; [reflexivity|]; split; [reflexivity|]; split; [vm_compute; lia|]; split; [lia|]; split; [by vm_compute|]; split; [vm_compute; reflexivity|];
    split; [vm_compute; reflexivity|]; split; [eexists; split; vm_compute; reflexivity|]; split_and!; vm_compute; reflexivity
  end.

Definition demo_file : list Z := [1; 2; 3; 4; 5; 6; 7; 8; 9; 10].
Definition demo_oack : list Z := demo_frame (oack_message [56] []).
Definition demo_data1 : list Z := demo_frame (data_message 1 [1; 2; 3; 4; 5; 6; 7; 8]).
Definition demo_data2 : list Z := demo_frame (data_message 2 [9; 10]).
Definition demo_queue : list (option (list Z)) := [Some demo_data1; None; Some demo_data1; Some demo_data2].
Definition demo_net0 : net tftp_st := demo_stack demo_client (Some demo_oack :: demo_queue) [0; 10; 0; 10; 0; 1500; 0; 10; 0; 10; 0].

Lemma demo_known u q clk : known (demo_stack u q clk) 0x0A000002.
Proof.
  split; [|exact demo_routes_ok | reflexivity | lia|].
  - split; try (vm_compute; (reflexivity || lia)). constructor; [split; [reflexivity | split; reflexivity]|].
    apply Forall_replicate. split; [reflexivity | split; reflexivity].
  - exists O, demo_server_mac, 0x0A000002. split; [vm_compute; reflexivity|]. split; [unfold ARP_ENTRIES; lia | reflexivity].
Defined.

Lemma demo_oack_frame : from_server demo_mac demo_routes demo_oack 1069 (oack_message [56] []).
Proof. unfold demo_oack. frame_eval. Defined.
Lemma demo_data1_frame : from_server demo_mac demo_routes demo_data1 1069 (data_message 1 [1; 2; 3; 4; 5; 6; 7; 8]).
Proof. unfold demo_data1. frame_eval. Defined.
Lemma demo_data2_frame : from_server demo_mac demo_routes demo_data2 1069 (data_message 2 [9; 10]).
Proof. unfold demo_data2. frame_eval. Defined.

Lemma demo_session : session demo_mac demo_routes 8 3 0 0 demo_file demo_queue.
Proof.
  apply (session_next _ _ _ _ 0 0 1 1069 demo_data1 [1; 2; 3; 4; 5; 6; 7; 8] [9; 10]); [left; lia | reflexivity | exact demo_data1_frame|].
  apply session_failure. apply (session_again _ _ _ _ 1 0 1 1069 demo_data1 [1; 2; 3; 4; 5; 6; 7; 8]); [split; lia | lia | exact demo_data1_frame|].
  apply (session_last _ _ _ _ 1 1 2 1069 demo_data2); [left; lia | vm_compute; reflexivity | exact demo_data2_frame].
Defined.

(** Witness: a file of ten bytes in blocks of eight, the first block twice. *)
Lemma tftp_loads_witness :
  exists st', tftp demo_send demo_send_ipv6 [] demo_protocol demo_protocol demo_protocol demo_protocol 10 2 demo_net0
      (FilenameIp 0x0A000002 [] [102] 4) (replicate 16 0) 16 3 (TftpErr 0 0 0 0) = Ok (10, st') /\
    take 10 (buffer (tf st')) = demo_file.
Proof.
  destruct (tftp_loads demo_send demo_send_ipv6 [] demo_protocol demo_protocol demo_protocol demo_protocol 10 1 demo_net0
    (FilenameIp 0x0A000002 [] [102] 4) (replicate 16 0) 16 3 (TftpErr 0 0 0 0) 8 demo_file (Some demo_oack :: demo_queue) demo_queue)
    as (st' & E & B & _).
  - reflexivity.
  - exact (demo_known demo_client (Some demo_oack :: demo_queue) [0; 10; 0; 10; 0; 1500; 0; 10; 0; 10; 0]).
  - repeat constructor; cbn; lia.
  - cbn. lia.
  - reflexivity.
  - right. exists demo_oack, 1069, [56], []. split; [reflexivity|]. split; [exact demo_oack_frame|].
    split; [constructor; [exists 8; split; [reflexivity | lia] | constructor]|]. split; [reflexivity | vm_compute; split; [reflexivity | discriminate]].
  - exact demo_session.
  - vm_compute. discriminate.
  - vm_compute. discriminate.
  - lia.
  - lia.
  - vm_compute. discriminate.
  - cbn. lia.
  - exists st'. split; [exact E | exact B].
Defined.

(** A client that waits for block 1, and the packet with it. *)
Definition demo_waiting : net tftp_st :=
  with_ether (demo_stack (tftp_init (FilenameIp 0x0A000002 [] [102] 4) (replicate 16 0) 16 3 0 0) [] [])
    (replicate 34 0 ++ be_enc 2 1069 ++ be_enc 2 UDPPORT_TFTPC ++ be_enc 2 14 ++ be_enc 2 0 ++ data_message 1 [9; 10] ++ []).

(** Witness: the last block of a file is acknowledged. *)
Lemma handle_tftp_step_witness :
  exists st', handle_tftp demo_send demo_send_ipv6 [] 1 (fun st => Ok (0, st)) demo_waiting udp_ptr 14 = Ok (0, st') /\
    exists frame, sent (dev st') = [frame] /\ brings frame 1069 (ack_message 1).
Proof.
  pose proof (handle_tftp_step demo_send demo_send_ipv6 [] 1 (fun st => Ok (0, st)) demo_waiting 1069 DATA 1 [9; 10] 14) as S.
  destruct S as (st' & E & [_ _ (frames & Hs & Hf)]).
  - split; [reflexivity|]. pose proof (demo_known (tftp_init (FilenameIp 0x0A000002 [] [102] 4) (replicate 16 0) 16 3 0 0) [] []) as [Ha ? ? ? ?].
    split; [by destruct Ha | done..].
  - split; vm_compute; [discriminate | reflexivity | split; discriminate].
  - reflexivity.
  - discriminate.
  - lia.
  - unfold DATA. lia.
  - lia.
  - reflexivity.
  - exists 0, []. reflexivity.
  - exists st'. split; [exact E|]. apply Forall2_cons_inv_r in Hf as (f & fs & Hb & Hf & ->). apply Forall2_nil_inv_r in Hf as ->.
    exists f. split; [exact Hs | exact Hb].
Defined.

(** After block 65535 and block 0, a repetition of block 65535 ends the session. *)
Example wrap_duplicate :
  let t := set_block 65535 (tftp_init (FilenameIp 0x0A000002 [] [102] 4) (replicate 16 0) 16 3 0 0) in
  let '(t, _, _) := client_data t 0 [1] in (client_data t 65535 [1]).2 = -42.
Proof. reflexivity. Qed.

(** The error text says "missing block %d, expected block was %d": the first
    number is the block that was expected, the second the one that came. *)
Example missing_block_numbers :
  let t := set_block 4 (tftp_init (FilenameIp 0x0A000002 [] [102] 4) (replicate 16 0) 16 3 0 0) in
  let '(t, _, rc) := client_data t 7 [1] in numbers (tftp_get_error_info t rc) = [5; 7].
Proof. reflexivity. Qed.
