(* ===== verification/DhcpOptions.v ===== *)
(** * lib/libnet/dhcp.c: the options of DHCP messages

    The options field is the list of the bytes from its address to the end of the
    array it is in.  Against it stand the options as a list of codes with
    their data: what the functions store is the encoding of such a list, and
    what they read is its meaning. *)

From Stdlib Require Import ZArith Lia ZifyNat.
From stdpp Require Import base list gmap option numbers.
From S2P Require Import Prelude Packet.

Definition DHCPDISCOVER : Z := 1.
Definition DHCPOFFER : Z := 2.
Definition DHCPREQUEST : Z := 3.
Definition DHCPDECLINE : Z := 4.
Definition DHCPACK : Z := 5.
Definition DHCPNACK : Z := 6.
Definition DHCPRELEASE : Z := 7.
Definition DHCPINFORM : Z := 8.

Definition DHCP_MASK : Z := 1.
Definition DHCP_ROUTER : Z := 3.
Definition DHCP_DNS : Z := 6.
Definition DHCP_REQUESTED_IP : Z := 50.
Definition DHCP_OVERLOAD : Z := 52.
Definition DHCP_MSG_TYPE : Z := 53.
Definition DHCP_SERVER_ID : Z := 54.
Definition DHCP_REQUEST_LIST : Z := 55.
Definition DHCP_TFTP_SERVER : Z := 66.
Definition DHCP_BOOTFILE : Z := 67.
Definition DHCP_CLIENT_ARCH : Z := 93.
Definition DHCP_PXELINUX_CFGFILE : Z := 209.
Definition DHCP_PXELINUX_PREFIX : Z := 210.
Definition DHCP_ENDOPT : Z := 0xFF.
Definition DHCP_PADOPT : Z := 0x00.

(** The configuration of board-qemu defines DHCPARCH. *)
Definition DHCPARCH : Z := 0x0C.
Definition USE_DHCPARCH : Z := 1.

Definition dhcp_magic : list Z := [0x63; 0x82; 0x53; 0x63].

(** The arrays of the struct are lists of 256 bytes. *)
Record dhcp_options_t := DhcpOptions {
  flag : list Z; request_list : list Z; server_ID : Z; requested_IP : Z; dns_IP : Z; router_IP : Z; subnet_mask : Z;
  msg_type : Z; overload : Z; tftp_server : list Z; bootfile : list Z; client_arch : Z }.

(** memset(&opt, 0, sizeof(dhcp_options_t)) *)
Definition zero_options : dhcp_options_t :=
  DhcpOptions (replicate 256 0) (replicate 256 0) 0 0 0 0 0 0 0 (replicate 256 0) (replicate 256 0) 0.

Definition set_flag (c : Z) (o : dhcp_options_t) : dhcp_options_t :=
  DhcpOptions (<[Z.to_nat c := 1]> (flag o)) (request_list o) (server_ID o) (requested_IP o) (dns_IP o) (router_IP o) (subnet_mask o) (msg_type o) (overload o) (tftp_server o) (bootfile o) (client_arch o).
Definition set_request (c v : Z) (o : dhcp_options_t) : dhcp_options_t :=
  DhcpOptions (flag o) (<[Z.to_nat c := v]> (request_list o)) (server_ID o) (requested_IP o) (dns_IP o) (router_IP o) (subnet_mask o) (msg_type o) (overload o) (tftp_server o) (bootfile o) (client_arch o).
Definition set_server_ID (v : Z) (o : dhcp_options_t) : dhcp_options_t :=
  DhcpOptions (flag o) (request_list o) v (requested_IP o) (dns_IP o) (router_IP o) (subnet_mask o) (msg_type o) (overload o) (tftp_server o) (bootfile o) (client_arch o).
Definition set_requested_IP (v : Z) (o : dhcp_options_t) : dhcp_options_t :=
  DhcpOptions (flag o) (request_list o) (server_ID o) v (dns_IP o) (router_IP o) (subnet_mask o) (msg_type o) (overload o) (tftp_server o) (bootfile o) (client_arch o).
Definition set_dns_IP (v : Z) (o : dhcp_options_t) : dhcp_options_t :=
  DhcpOptions (flag o) (request_list o) (server_ID o) (requested_IP o) v (router_IP o) (subnet_mask o) (msg_type o) (overload o) (tftp_server o) (bootfile o) (client_arch o).
Definition set_router_IP (v : Z) (o : dhcp_options_t) : dhcp_options_t :=
  DhcpOptions (flag o) (request_list o) (server_ID o) (requested_IP o) (dns_IP o) v (subnet_mask o) (msg_type o) (overload o) (tftp_server o) (bootfile o) (client_arch o).
Definition set_subnet_mask (v : Z) (o : dhcp_options_t) : dhcp_options_t :=
  DhcpOptions (flag o) (request_list o) (server_ID o) (requested_IP o) (dns_IP o) (router_IP o) v (msg_type o) (overload o) (tftp_server o) (bootfile o) (client_arch o).
Definition set_msg_type (v : Z) (o : dhcp_options_t) : dhcp_options_t :=
  DhcpOptions (flag o) (request_list o) (server_ID o) (requested_IP o) (dns_IP o) (router_IP o) (subnet_mask o) v (overload o) (tftp_server o) (bootfile o) (client_arch o).
Definition set_overload (v : Z) (o : dhcp_options_t) : dhcp_options_t :=
  DhcpOptions (flag o) (request_list o) (server_ID o) (requested_IP o) (dns_IP o) (router_IP o) (subnet_mask o) (msg_type o) v (tftp_server o) (bootfile o) (client_arch o).
Definition set_tftp_server (v : list Z) (o : dhcp_options_t) : dhcp_options_t :=
  DhcpOptions (flag o) (request_list o) (server_ID o) (requested_IP o) (dns_IP o) (router_IP o) (subnet_mask o) (msg_type o) (overload o) v (bootfile o) (client_arch o).
Definition set_bootfile (v : list Z) (o : dhcp_options_t) : dhcp_options_t :=
  DhcpOptions (flag o) (request_list o) (server_ID o) (requested_IP o) (dns_IP o) (router_IP o) (subnet_mask o) (msg_type o) (overload o) (tftp_server o) v (client_arch o).
Definition set_client_arch (v : Z) (o : dhcp_options_t) : dhcp_options_t :=
  DhcpOptions (flag o) (request_list o) (server_ID o) (requested_IP o) (dns_IP o) (router_IP o) (subnet_mask o) (msg_type o) (overload o) (tftp_server o) (bootfile o) v.

(** pxelinux_cfgfile and pxelinux_prefix: the string a pointer points to. *)
Record pxe_st := Pxe { pxelinux_cfgfile : option (list Z); pxelinux_prefix : option (list Z) }.

(** An element of an array, and the string at its start. *)
Definition elem (l : list Z) (c : Z) : res Z := of_option (l !! Z.to_nat c).
Definition is_set (l : list Z) (c : Z) : res bool := v ← elem l c; Ok (negb (v =? 0)).
Fixpoint array_str (l : list Z) : res (list Z) :=
  match l with [] => Fault | c :: l' => if c =? 0 then Ok [] else s ← array_str l'; Ok (c :: s) end.

(** ** Encoding *)

(** The array and the offset of [options] in it. *)
Definition put_option (x : list Z * nat) (bs : list Z) : res (list Z * nat) :=
  b ← wr_bytes x.1 x.2 bs; Ok (b, (x.2 + length bs)%nat).

(** The codes whose place in the request list, from [i] on, is not zero. *)
Fixpoint request_loop (x : list Z * nat) (i : Z) (l : list Z) : res (list Z * nat) :=
  match l with
  | [] => Ok x
  | v :: l' => x ← (if negb (v =? 0) then put_option x [i] else Ok x); request_loop x (i + 1) l'
  end.

Definition put_string (x : list Z * nat) (c : Z) (array : list Z) : res (list Z * nat) :=
  s ← array_str array;
  let n := u8 (Z.of_nat (length s) + 1) in
  bs ← rd_bytes (Z.to_nat n) array 0;
  put_option x (c :: n :: bs).

Definition dhcp_encode_options (opt_field : list Z) (o : dhcp_options_t) : res (Z * list Z) :=
  b ← wr_bytes opt_field 0 dhcp_magic;
  if negb (bool_decide (msg_type o ∈ [DHCPDISCOVER; DHCPREQUEST; DHCPDECLINE; DHCPINFORM; DHCPRELEASE])) then Ok (0, b) else
  x ← put_option (b, 4%nat) [DHCP_MSG_TYPE; 1; msg_type o];
  x ← (if negb (overload o =? 0) then put_option x [DHCP_OVERLOAD; 1; overload o] else Ok x);
  f ← is_set (flag o) DHCP_REQUESTED_IP;
  x ← (if f : bool then put_option x (DHCP_REQUESTED_IP :: 4 :: be_enc 4 (requested_IP o)) else Ok x);
  f ← is_set (flag o) DHCP_SERVER_ID;
  x ← (if f : bool then put_option x (DHCP_SERVER_ID :: 4 :: be_enc 4 (server_ID o)) else Ok x);
  let sum := foldl (fun s v => u16 (s + v)) 0 (request_list o) in
  x ← (if negb (sum =? 0) then x ← put_option x [DHCP_REQUEST_LIST; u8 sum]; request_loop x 0 (request_list o) else Ok x);
  f ← is_set (flag o) DHCP_TFTP_SERVER;
  x ← (if f : bool then put_string x DHCP_TFTP_SERVER (tftp_server o) else Ok x);
  f ← is_set (flag o) DHCP_BOOTFILE;
  x ← (if f : bool then put_string x DHCP_BOOTFILE (bootfile o) else Ok x);
  f ← is_set (flag o) DHCP_CLIENT_ARCH;
  x ← (if f : bool then put_option x [DHCP_CLIENT_ARCH; 2; Z.shiftr DHCPARCH 8; Z.land DHCPARCH 0xff] else Ok x);
  x ← put_option x [DHCP_ENDOPT];
  Ok (1, x.1).

(** ** Decoding *)

(** memcpy(dst, opt_field + p + 2, opt_field[p + 1]) with a NUL after it. *)
Definition copy_string (b : list Z) (p : nat) (dst : list Z) : res (list Z) :=
  n ← rd 1 b (p + 1);
  bs ← rd_bytes (Z.to_nat n) b (p + 2);
  dst ← wr_bytes dst 0 bs;
  wr 1 dst (Z.to_nat n) 0.

Section decode.
(** Whether malloc has room for a block of a size. *)
Context (malloc_ok : Z -> bool).

Definition new_string (b : list Z) (p : nat) : res (option (list Z)) :=
  n ← rd 1 b (p + 1);
  if malloc_ok (n + 1) then bs ← rd_bytes (Z.to_nat n) b (p + 2); Ok (Some (bs ++ [0])) else Ok None.

(** The option at the offset [p]: the new structures, unless its value is
    refused, and the offset behind it. *)
Definition decode_option (b : list Z) (p : nat) (o : dhcp_options_t) (px : pxe_st) : res (option (dhcp_options_t * pxe_st * nat)) :=
  c ← rd 1 b p;
  let o := set_flag c o in
  let next (x : dhcp_options_t * pxe_st) := n ← rd 1 b (p + 1); Ok (Some (x, (p + 2 + Z.to_nat n)%nat)) in
  if c =? DHCP_OVERLOAD then v ← rd 1 b (p + 2); next (set_overload v o, px)
  else if c =? DHCP_REQUESTED_IP then v ← rd 4 b (p + 2); next (set_requested_IP v o, px)
  else if c =? DHCP_MASK then v ← rd 4 b (p + 2); next (set_subnet_mask v (set_flag DHCP_MASK o), px)
  else if c =? DHCP_DNS then v ← rd 4 b (p + 2); next (set_dns_IP v (set_flag DHCP_DNS o), px)
  else if c =? DHCP_ROUTER then v ← rd 4 b (p + 2); next (set_router_IP v (set_flag DHCP_ROUTER o), px)
  else if c =? DHCP_MSG_TYPE then
    v ← rd 1 b (p + 2);
    if (0 <? v) && (v <? 9) then next (set_msg_type v o, px) else Ok None
  else if c =? DHCP_SERVER_ID then v ← rd 4 b (p + 2); next (set_server_ID v o, px)
  else if c =? DHCP_TFTP_SERVER then s ← copy_string b p (tftp_server o); next (set_tftp_server s o, px)
  else if c =? DHCP_BOOTFILE then s ← copy_string b p (bootfile o); next (set_bootfile s o, px)
  else if c =? DHCP_CLIENT_ARCH then
    v ← rd 1 b (p + 2); w ← rd 1 b (p + 3);
    Ok (Some (set_client_arch (Z.lor (Z.land (Z.shiftl v 8) 0xFF00) (Z.land w 0xFF)) o, px, (p + 4)%nat))
  else if c =? DHCP_PXELINUX_CFGFILE then s ← new_string b p; next (o, Pxe s (pxelinux_prefix px))
  else if c =? DHCP_PXELINUX_PREFIX then s ← new_string b p; next (o, Pxe (pxelinux_cfgfile px) s)
  else if c =? DHCP_PADOPT then Ok (Some (o, px, (p + 1)%nat))
  else next (o, px).

(** Every turn reads at a higher offset. *)
Fixpoint decode_loop (fuel : nat) (b : list Z) (opt_len : Z) (p : nat) (o : dhcp_options_t) (px : pxe_st)
    : res (Z * dhcp_options_t * pxe_st) :=
  if Z.of_nat p <? opt_len then
    match fuel with
    | O => OutOfFuel
    | S fuel' =>
        c ← rd 1 b p;
        if c =? DHCP_ENDOPT then Ok (1, set_flag c o, px) else
        r ← decode_option b p o px;
        match r with
        | Some (o, px, p) => decode_loop fuel' b opt_len p o px
        | None => Ok (0, set_flag c o, px)
        end
    end
  else Ok (if Z.of_nat p =? opt_len then 1 else 0, o, px).

(** memcmp of the first four bytes stops at the first difference. *)
Fixpoint starts_with (b magic : list Z) {struct magic} : res bool :=
  match magic with
  | [] => Ok true
  | c :: magic' =>
      match b with [] => Fault | d :: b' => if d =? c then starts_with b' magic' else Ok false end
  end.

Definition dhcp_decode_options (opt_field : list Z) (opt_len : Z) (px : pxe_st) : res (Z * dhcp_options_t * pxe_st) :=
  same ← starts_with opt_field dhcp_magic;
  if same : bool then decode_loop (S (length opt_field)) opt_field opt_len 4 zero_options px
  else Ok (0, zero_options, px).
End decode.

(** ** Merging *)

(** The offset of an option; None where the function returns 0. *)
Fixpoint find_option_loop (fuel : nat) (options : list Z) (len : Z) (op_code : Z) (p : nat) : res (option nat) :=
  if Z.of_nat p <? len then
    match fuel with
    | O => OutOfFuel
    | S fuel' =>
        c ← rd 1 options p;
        if c =? op_code then Ok (Some p)
        else if c =? DHCP_ENDOPT then Ok None
        else if c =? DHCP_PADOPT then find_option_loop fuel' options len op_code (p + 1)
        else n ← rd 1 options (p + 1); find_option_loop fuel' options len op_code (p + 2 + Z.to_nat n)
    end
  else Ok None.

Definition dhcp_find_option (options : list Z) (len op_code : Z) : res (option nat) :=
  find_option_loop (S (length options)) options len op_code 0.

Definition dhcp_append_option (dst : list Z) (dst_len : Z) (new_option : list Z) : res (list Z * Z) :=
  n ← rd 1 new_option 1;
  bs ← rd_bytes (2 + Z.to_nat n) new_option 0;
  dst ← wr_bytes dst (Z.to_nat dst_len) bs;
  Ok (dst, u32 (dst_len + 2 + n)).

(** The bytes that follow the option are moved by way of a buffer of 1024 bytes. *)
Definition dhcp_combine_option (dst : list Z) (dst_len : Z) (dst_offset : nat) (new_option : list Z) : res (list Z * Z) :=
  old ← rd 1 dst (dst_offset + 1);
  let tail_len := u32 (dst_len - Z.of_nat dst_offset - 2 - old) in
  let tail := Z.to_nat (u32 (dst_len - tail_len)) in
  bs ← rd_bytes (Z.to_nat tail_len) dst tail;
  tmp_buffer ← wr_bytes (replicate (Z.to_nat 1024) 0) 0 bs;
  n ← rd 1 new_option 1;
  bs ← rd_bytes (Z.to_nat tail_len) tmp_buffer 0;
  dst ← wr_bytes dst (tail + Z.to_nat n) bs;
  bs ← rd_bytes (Z.to_nat n) new_option 2;
  dst ← wr_bytes dst tail bs;
  old ← rd 1 dst (dst_offset + 1);
  dst ← wr 1 dst (dst_offset + 1) (old + n);
  Ok (dst, u32 (dst_len + n)).

Fixpoint merge_loop (fuel : nat) (dst : list Z) (dst_len : Z) (src : list Z) (src_len : Z) (p : nat) : res (Z * list Z * Z) :=
  if Z.of_nat p <? src_len then
    match fuel with
    | O => OutOfFuel
    | S fuel' =>
        c ← rd 1 src p;
        if c =? DHCP_PADOPT then merge_loop fuel' dst dst_len src src_len (p + 1)
        else if c =? DHCP_ENDOPT then Ok (1, dst, dst_len)
        else
          found ← dhcp_find_option dst dst_len c;
          '(dst, dst_len) ← match found with
                            | Some dst_offset => dhcp_combine_option dst dst_len dst_offset (drop p src)
                            | None => dhcp_append_option dst dst_len (drop p src)
                            end;
          n ← rd 1 src (p + 1);
          merge_loop fuel' dst dst_len src src_len (p + 2 + Z.to_nat n)
    end
  else Ok (if Z.of_nat p =? src_len then 1 else 0, dst, dst_len).

Definition dhcp_merge_options (dst : list Z) (dst_len : Z) (src : list Z) (src_len : Z) : res (Z * list Z * Z) :=
  found ← dhcp_find_option dst dst_len DHCP_ENDOPT;
  let dst_len := match found with Some p => Z.of_nat p | None => dst_len end in
  merge_loop (S (length src)) dst dst_len src src_len 0.

(** ** Options as a list *)

Inductive item := Pad | Opt (c : Z) (d : list Z).

Definition enc_item (it : item) : list Z := match it with Pad => [0] | Opt c d => c :: Z.of_nat (length d) :: d end.
Definition enc (l : list item) : list Z := l ≫= enc_item.

(** An option that can be stored. *)
Definition item_ok (it : item) : Prop :=
  match it with Pad => True | Opt c d => 0 < c < 255 /\ (length d < 256)%nat /\ Forall byte d end.

(** The length of the data of an option the client looks into. *)
Definition lengths_ok (it : item) : Prop :=
  match it with
  | Pad => True
  | Opt c d =>
      (c ∈ [DHCP_OVERLOAD; DHCP_MSG_TYPE] -> (1 <= length d)%nat) /\
      (c ∈ [DHCP_REQUESTED_IP; DHCP_MASK; DHCP_DNS; DHCP_ROUTER; DHCP_SERVER_ID] -> (4 <= length d)%nat) /\
      (c = DHCP_CLIENT_ARCH -> length d = 2%nat)
  end.

(** A string in an array whose other bytes stay. *)
Definition string_in (array d : list Z) : list Z := d ++ 0 :: drop (S (length d)) array.

Lemma rd1 l p v : l !! p = Some v -> rd 1 l p = Ok v.
Proof.
  intros H. rewrite rd_spec by (apply lookup_lt_Some in H; lia). f_equal. by rewrite (drop_S _ _ _ H).
Qed.

Lemma rd1_app pre v post : rd 1 (pre ++ v :: post) (length pre) = Ok v.
Proof. apply rd1. apply list_lookup_middle. done. Qed.

Lemma rd_cons n a l p : rd n (a :: l) (S p) = rd n l p.
Proof. unfold rd. cbn [length drop]. repeat case_decide; done || lia. Qed.
Lemma rd_bytes_cons n a l p : rd_bytes n (a :: l) (S p) = rd_bytes n l p.
Proof. unfold rd_bytes. cbn [length drop]. repeat case_decide; done || lia. Qed.
Lemma rd_skip n pre l p : rd n (pre ++ l) (length pre + p) = rd n l p.
Proof. induction pre as [|a pre IH]; [done|]. cbn [app length plus]. by rewrite rd_cons. Qed.
Lemma rd_bytes_skip n pre l p : rd_bytes n (pre ++ l) (length pre + p) = rd_bytes n l p.
Proof. induction pre as [|a pre IH]; [done|]. cbn [app length plus]. by rewrite rd_bytes_cons. Qed.

(** The bytes of an option behind [pre]. *)
Section at_option.
Context (pre post d : list Z) (c : Z).
Let b := pre ++ c :: Z.of_nat (length d) :: d ++ post.

Lemma opt_code : rd 1 b (length pre) = Ok c.
Proof. apply rd1_app. Qed.
Lemma opt_len : rd 1 b (length pre + 1) = Ok (Z.of_nat (length d)).
Proof. subst b. rewrite rd_skip. by apply rd1. Qed.
Lemma opt_ip : (4 <= length d)%nat -> rd 4 b (length pre + 2) = Ok (be_dec (take 4 d)).
Proof. intros Hd. subst b. rewrite rd_skip, !rd_cons, rd_spec by (rewrite length_app; lia). rewrite drop_0. by rewrite take_app_le by lia. Qed.
Lemma opt_byte i v : d !! i = Some v -> rd 1 b (length pre + (2 + i)) = Ok v.
Proof. intros Hd. subst b. rewrite rd_skip. apply rd1. cbn. by apply lookup_app_l_Some. Qed.
Lemma opt_data : rd_bytes (Z.to_nat (Z.of_nat (length d))) b (length pre + 2) = Ok d.
Proof.
  subst b. rewrite rd_bytes_skip, !rd_bytes_cons, Nat2Z.id, rd_bytes_spec by (rewrite length_app; lia). exact (f_equal Ok (take_app_length d post)).
Qed.
End at_option.

Lemma copy_string_spec pre post d c array : (length d < 256)%nat -> length array = 256%nat ->
  copy_string (pre ++ c :: Z.of_nat (length d) :: d ++ post) (length pre) array = Ok (string_in array d).
Proof.
  intros Hd Ha. unfold copy_string. rewrite opt_len. res_simpl. rewrite opt_data. res_simpl.
  rewrite wr_bytes_spec by lia. res_simpl. rewrite Nat2Z.id, wr_spec by (rewrite splice_length; lia). f_equal.
  change (splice array 0 d) with (d ++ drop (length d) array). rewrite splice_next by (rewrite be_enc_length, length_drop; lia).
  unfold string_in. rewrite <- app_assoc, drop_drop, be_enc_length. do 2 f_equal. f_equal. lia.
Qed.

Lemma set_flag_twice c o : set_flag c (set_flag c o) = set_flag c o.
Proof. unfold set_flag. cbn. by rewrite list_insert_insert_eq. Qed.

Lemma opt_first pre post d c : (1 <= length d)%nat ->
  rd 1 (pre ++ c :: Z.of_nat (length d) :: d ++ post) (length pre + 2) = Ok (hd 0 d).
Proof. intros Hd. apply (opt_byte pre post d c 0). destruct d; [cbn in Hd; lia | done]. Qed.

Lemma arch_value v w : byte v -> byte w -> Z.lor (Z.land (Z.shiftl v 8) 0xFF00) (Z.land w 0xFF) = be_dec [v; w].
Proof.
  intros Hv Hw. unfold byte in *. change 0xFF00 with (Z.shiftl 0xFF 8). rewrite <- Z.shiftl_land.
  change 0xFF with (Z.ones 8). rewrite !Z.land_ones, !Z.mod_small by lia. rewrite Z.shiftl_mul_pow2 by lia.
  change (be_dec [v; w]) with ((0 * 256 + v) * 256 + w). rewrite <- Z.lxor_lor, <- Z.add_nocarry_lxor; [lia | |].
  all: apply Z.bits_inj'; intros k Hk; rewrite Z.land_spec, Z.bits_0; destruct (Z.ltb_spec k 8);
    [by rewrite Z.mul_pow2_bits_low by lia | rewrite (Z.bits_above_log2 w k), andb_false_r; [done | lia |];
     destruct (Z.eq_dec w 0) as [->|]; [cbn; lia | apply Z.log2_lt_pow2; [lia|]; apply Z.lt_le_trans with (2 ^ 8); [lia | apply Z.pow_le_mono_r; lia]]].
Qed.

Lemma string_in_length array d : (length d < length array)%nat -> length (string_in array d) = length array.
Proof. intros Hd. unfold string_in. rewrite length_app. cbn [length]. rewrite length_drop. lia. Qed.

Lemma enc_cons it l : enc (it :: l) = enc_item it ++ enc l.
Proof. done. Qed.
Lemma enc_app l l' : enc (l ++ l') = enc l ++ enc l'.
Proof. apply bind_app. Qed.
Lemma enc_count l : (length l <= length (enc l))%nat.
Proof. induction l as [|[|c d] l IH]; [done|..]; rewrite enc_cons, length_app; cbn [enc_item length]; lia. Qed.

(** The code of an item is at its start, and no end. *)
Lemma enc_item_code it : item_ok it -> exists c t, enc_item it = c :: t /\ c <> 255 /\ (it = Pad \/ c <> 0).
Proof. destruct it as [|c d]; [by exists 0, []; auto|]. intros [? _]. exists c, (Z.of_nat (length d) :: d). split; [done | lia]. Qed.

Section meaning.
Context (malloc_ok : Z -> bool).

(** What an option says; false if its value is refused. *)
Definition read_item (it : item) (o : dhcp_options_t) (px : pxe_st) : bool * dhcp_options_t * pxe_st :=
  match it with
  | Pad => (true, set_flag 0 o, px)
  | Opt c d =>
      let o := set_flag c o in
      let ip := be_dec (take 4 d) in
      let str := if malloc_ok (Z.of_nat (length d) + 1) then Some (d ++ [0]) else None in
      if c =? DHCP_OVERLOAD then (true, set_overload (hd 0 d) o, px)
      else if c =? DHCP_REQUESTED_IP then (true, set_requested_IP ip o, px)
      else if c =? DHCP_MASK then (true, set_subnet_mask ip o, px)
      else if c =? DHCP_DNS then (true, set_dns_IP ip o, px)
      else if c =? DHCP_ROUTER then (true, set_router_IP ip o, px)
      else if c =? DHCP_MSG_TYPE then
        if (0 <? hd 0 d) && (hd 0 d <? 9) then (true, set_msg_type (hd 0 d) o, px) else (false, o, px)
      else if c =? DHCP_SERVER_ID then (true, set_server_ID ip o, px)
      else if c =? DHCP_TFTP_SERVER then (true, set_tftp_server (string_in (tftp_server o) d) o, px)
      else if c =? DHCP_BOOTFILE then (true, set_bootfile (string_in (bootfile o) d) o, px)
      else if c =? DHCP_CLIENT_ARCH then (true, set_client_arch (be_dec d) o, px)
      else if c =? DHCP_PXELINUX_CFGFILE then (true, o, Pxe str (pxelinux_prefix px))
      else if c =? DHCP_PXELINUX_PREFIX then (true, o, Pxe (pxelinux_cfgfile px) str)
      else (true, o, px)
  end.

Fixpoint read_items (l : list item) (o : dhcp_options_t) (px : pxe_st) : bool * dhcp_options_t * pxe_st :=
  match l with
  | [] => (true, o, px)
  | it :: l' => let '(ok, o, px) := read_item it o px in if ok : bool then read_items l' o px else (false, o, px)
  end.

Definition arrays_ok (o : dhcp_options_t) : Prop :=
  length (flag o) = 256%nat /\ length (request_list o) = 256%nat /\ length (tftp_server o) = 256%nat /\ length (bootfile o) = 256%nat.

Lemma decode_item it pre post o px : item_ok it -> lengths_ok it -> arrays_ok o ->
  decode_option malloc_ok (pre ++ enc_item it ++ post) (length pre) o px =
    Ok (match read_item it o px with
        | (true, o', px') => Some (o', px', (length pre + length (enc_item it))%nat) | _ => None end).
Proof.
  destruct it as [|c d]; intros Hok Hl Ha.
  { cbn [enc_item app]. unfold decode_option. rewrite rd1_app. res_simpl. done. }
  destruct Hok as (Hc & Hd & Hb). destruct Hl as (H1 & H4 & H2). destruct Ha as (_ & _ & Ht & Hf). cbn [enc_item app]. 
  unfold decode_option, new_string. rewrite opt_code. res_simpl. cbn [read_item]. 
  rewrite !opt_len. res_simpl. rewrite !opt_data. res_simpl. rewrite !copy_string_spec by done. res_simpl.
  replace (length pre + length (c :: Z.of_nat (length d) :: d))%nat with (length pre + 2 + length d)%nat by (cbn [length]; lia).
  rewrite !Nat2Z.id.
  repeat (case_match; try done).
  all: repeat match goal with E : (?x =? _) = true |- _ => apply Z.eqb_eq in E; try subst x end.
  all: rewrite ?opt_ip by (apply H4, (bool_decide_unpack _); exact I); rewrite ?opt_first by (apply H1, (bool_decide_unpack _); exact I);
    res_simpl; rewrite ?set_flag_twice; try done.
  1, 2: case_match; simplify_eq; done.
  - specialize (H2 eq_refl). destruct d as [|v [|w [|? ?]]]; try done. apply Forall_cons_1 in Hb as [Hv Hb]. apply Forall_cons_1 in Hb as [Hw _].
    rewrite (opt_first pre post [v; w]) by (cbn; lia). res_simpl. change (length pre + 3)%nat with (length pre + (2 + 1))%nat.
    rewrite (opt_byte pre post [v; w] DHCP_CLIENT_ARCH 1 w) by done. res_simpl. cbn [hd].
    rewrite arch_value by done. replace (length pre + 2 + length [v; w])%nat with (length pre + 4)%nat by (cbn [length]; lia). done.
  - unfold DHCP_PADOPT in Hc. lia.
Qed.

Lemma set_flag_arrays c o : arrays_ok o -> arrays_ok (set_flag c o).
Proof. intros (? & ? & ? & ?). unfold arrays_ok. cbn. by rewrite length_insert. Qed.

Lemma read_item_arrays it o px : item_ok it -> arrays_ok o -> arrays_ok (read_item it o px).1.2.
Proof.
  destruct it as [|c d]; cbn [read_item]; intros Hok Ha; [by apply set_flag_arrays|]. destruct Hok as (_ & Hd & _).
  pose proof (set_flag_arrays c o Ha) as (H1 & H2 & H3 & H4).
  repeat case_match; cbn [fst snd]; unfold arrays_ok; cbn -[set_flag]; rewrite ?string_in_length by lia; done.
Qed.

Lemma read_items_arrays l : forall o px o' px', Forall item_ok l -> arrays_ok o -> read_items l o px = (true, o', px') -> arrays_ok o'.
Proof.
  induction l as [|it l IH]; intros o px o' px' Hok Ha; cbn [read_items]; [by intros [= <- <-]|]. apply Forall_cons_1 in Hok as [Hit Hok].
  pose proof (read_item_arrays it o px Hit Ha) as Ha'. destruct (read_item it o px) as [[[] o1] px1]; [|done]. by apply IH.
Qed.

(** The loop over a list of options. *)
Lemma decode_items l : forall fuel pre post len o px,
  Forall item_ok l -> Forall lengths_ok l -> arrays_ok o -> (length l <= fuel)%nat -> Z.of_nat (length (pre ++ enc l)) <= len ->
  match read_items l o px with
  | (true, o', px') =>
      decode_loop malloc_ok fuel (pre ++ enc l ++ post) len (length pre) o px =
        decode_loop malloc_ok (fuel - length l) (pre ++ enc l ++ post) len (length (pre ++ enc l)) o' px'
  | (false, o', px') => decode_loop malloc_ok fuel (pre ++ enc l ++ post) len (length pre) o px = Ok (0, o', px')
  end.
Proof.
  induction l as [|it l IH]; intros fuel pre post len o px Hok Hl Ha Hf Hlen; cbn [read_items].
  { cbn [enc mbind list_bind length]. by rewrite app_nil_r, Nat.sub_0_r. }
  apply Forall_cons_1 in Hok as [Hit Hok]. apply Forall_cons_1 in Hl as [Hli Hl]. cbn [length] in Hf. destruct fuel as [|fuel]; [lia|].
  rewrite enc_cons in *. destruct (enc_item_code it Hit) as (c & t & Ec & Hc & _). rewrite !length_app in Hlen.
  pose proof (decode_item it pre (enc l ++ post) o px Hit Hli Ha) as D. pose proof (read_item_arrays it o px Hit Ha) as Ha'.
  assert (Hlt : (Z.of_nat (length pre) <? len) = true) by (apply Z.ltb_lt; rewrite Ec in Hlen; cbn [length] in Hlen; lia).
  assert (E : forall x, decode_loop malloc_ok (S fuel) (pre ++ (enc_item it ++ enc l) ++ post) len (length pre) o px = x <->
    (r ← decode_option malloc_ok (pre ++ enc_item it ++ enc l ++ post) (length pre) o px;
     match r with Some (o, px, p) => decode_loop malloc_ok fuel (pre ++ enc_item it ++ enc l ++ post) len p o px | None => Ok (0, set_flag c o, px) end) = x).
  { intros x. rewrite <- app_assoc. cbn [decode_loop]. rewrite Hlt. rewrite Ec at 1. cbn [app]. rewrite rd1_app. res_simpl.
    rewrite (proj2 (Z.eqb_neq c DHCP_ENDOPT)) by done. done. }
  destruct (read_item it o px) as [[ok o1] px1] eqn:Ei. cbn [fst snd] in Ha'. destruct ok.
  - specialize (IH fuel (pre ++ enc_item it) post len o1 px1 Hok Hl Ha' ltac:(lia)). rewrite <- !app_assoc, (length_app pre (enc_item it)) in IH.
    specialize (IH ltac:(rewrite !length_app; lia)). 
    destruct (read_items l o1 px1) as [[[] o2] px2]; apply E; rewrite D; res_simpl; rewrite <- ?app_assoc; exact IH.
  - apply E. rewrite D. res_simpl. destruct it as [|c' d]; [done|]. injection Ec as -> <-.
    assert (o1 = set_flag c o /\ px1 = px) as [-> ->]; [|done].
    revert Ei. cbn [read_item]. repeat case_match; intros [= <- <-]; done.
Qed.

(** The end of the options: the end option, or the end of the field. *)
Definition ends_options (post : list Z) (opt_len : Z) (n : nat) : Prop :=
  Z.of_nat n < opt_len /\ (exists post', post = DHCP_ENDOPT :: post') \/ opt_len = Z.of_nat n.

(** dhcp_decode_options reads the list that the field holds. *)
Lemma decode_spec l post opt_len px : Forall item_ok l -> Forall lengths_ok l -> ends_options post opt_len (4 + length (enc l)) ->
  dhcp_decode_options malloc_ok (dhcp_magic ++ enc l ++ post) opt_len px =
    Ok (match read_items l zero_options px with
        | (true, o, px) => (1, if bool_decide (opt_len = Z.of_nat (4 + length (enc l))) then o else set_flag DHCP_ENDOPT o, px)
        | (false, o, px) => (0, o, px) end).
Proof.
  intros Hok Hl He. unfold dhcp_decode_options. cbn [starts_with dhcp_magic app]. rewrite !Z.eqb_refl. res_simpl.
  set (fuel := S _). assert (Hf : (length l < fuel)%nat) by (pose proof (enc_count l); subst fuel; cbn [length]; rewrite length_app; lia).
  clearbody fuel. 
  pose proof (decode_items l fuel dhcp_magic post opt_len zero_options px Hok Hl) as D. cbn [dhcp_magic app] in D.
  assert (Z.of_nat (length (99 :: 130 :: 83 :: 99 :: enc l)) <= opt_len) as Hlen by (cbn [length]; destruct He as [[? _] | ?]; lia).
  specialize (D ltac:(by split_and!) ltac:(lia) Hlen). change (length dhcp_magic) with 4%nat in D.
  destruct (read_items l zero_options px) as [[[] o] px']; [|by rewrite D]. rewrite D. clear D.
  change (length (99 :: 130 :: 83 :: 99 :: enc l)) with (4 + length (enc l))%nat in *.
  destruct (fuel - length l)%nat as [|k] eqn:Ek; [lia|]. cbn [decode_loop]. destruct He as [[Hlt (post' & ->)] | ->].
  - rewrite (proj2 (Z.ltb_lt _ _) Hlt). rewrite bool_decide_false by lia.
    pose proof (rd1_app (99 :: 130 :: 83 :: 99 :: enc l) DHCP_ENDOPT post') as R. cbn [app] in R.
    change (length (99 :: 130 :: 83 :: 99 :: enc l)) with (4 + length (enc l))%nat in R. rewrite R. res_simpl. done.
  - rewrite Z.ltb_irrefl, Z.eqb_refl. by rewrite bool_decide_true.
Qed.
End meaning.

(** ** What is encoded *)

(** The string in an array, with its NUL. *)
Definition nul_ended (array : list Z) : list Z := upto_nul array ++ [0].

Definition opt_if (c : bool) (it : item) : list item := if c then [it] else [].

(** The codes that are requested, from [i] on. *)
Fixpoint requested (i : Z) (l : list Z) : list Z :=
  match l with [] => [] | v :: l' => (if negb (v =? 0) then [i] else []) ++ requested (i + 1) l' end.

Definition flagged (o : dhcp_options_t) (c : Z) : bool := negb (nth (Z.to_nat c) (flag o) 0 =? 0).

(** The options of a message the client sends. *)
Definition sent_options (o : dhcp_options_t) : list item :=
  [Opt DHCP_MSG_TYPE [msg_type o]] ++
  opt_if (negb (overload o =? 0)) (Opt DHCP_OVERLOAD [overload o]) ++
  opt_if (flagged o DHCP_REQUESTED_IP) (Opt DHCP_REQUESTED_IP (be_enc 4 (requested_IP o))) ++
  opt_if (flagged o DHCP_SERVER_ID) (Opt DHCP_SERVER_ID (be_enc 4 (server_ID o))) ++
  (let codes := requested 0 (request_list o) in opt_if (negb (bool_decide (codes = []))) (Opt DHCP_REQUEST_LIST codes)) ++
  opt_if (flagged o DHCP_TFTP_SERVER) (Opt DHCP_TFTP_SERVER (nul_ended (tftp_server o))) ++
  opt_if (flagged o DHCP_BOOTFILE) (Opt DHCP_BOOTFILE (nul_ended (bootfile o))) ++
  opt_if (flagged o DHCP_CLIENT_ARCH) (Opt DHCP_CLIENT_ARCH (be_enc 2 DHCPARCH)).

(** A string of at most 254 characters in an array. *)
Definition string_ok (array : list Z) : Prop :=
  (length (upto_nul array) < 255)%nat /\ array !! length (upto_nul array) = Some 0 /\ Forall byte array.

Record sendable_options (o : dhcp_options_t) : Prop := {
  so_arrays : arrays_ok o;
  so_type : msg_type o ∈ [DHCPDISCOVER; DHCPREQUEST; DHCPDECLINE; DHCPINFORM; DHCPRELEASE];
  so_overload : byte (overload o);
  so_requests : Forall (fun v => v = 0 \/ v = 1) (request_list o);
  so_count : (length (requested 0 (request_list o)) < 256)%nat;
  so_server : string_ok (tftp_server o);
  so_file : string_ok (bootfile o) }.

Lemma array_str_spec array : array !! length (upto_nul array) = Some 0 -> array_str array = Ok (upto_nul array).
Proof.
  induction array as [|c l IH]; [done|]. cbn [upto_nul array_str]. destruct (Z.eqb_spec c 0) as [->|]; [done|].
  cbn [length lookup list_lookup]. intros H. by rewrite (IH H).
Qed.

Lemma upto_nul_take array : array !! length (upto_nul array) = Some 0 -> take (S (length (upto_nul array))) array = nul_ended array.
Proof.
  unfold nul_ended. induction array as [|c l IH]; [done|]. cbn [upto_nul]. destruct (Z.eqb_spec c 0) as [->|]; [by destruct l|].
  cbn [length lookup list_lookup]. intros H. cbn [app]. by rewrite <- (IH H).
Qed.

Lemma requested_sum i l s : Forall (fun v => v = 0 \/ v = 1) l -> 0 <= s -> s + Z.of_nat (length (requested i l)) < 65536 ->
  foldl (fun s v => u16 (s + v)) s l = s + Z.of_nat (length (requested i l)).
Proof.
  intros Hl. revert i s. induction Hl as [|v l [-> | ->] _ IH]; intros i s Hs Hb; cbn [foldl requested negb Z.eqb app length] in *; [lia|..].
  - unfold u16. rewrite Z.mod_small, (IH (i + 1)) by lia. lia.
  - unfold u16. rewrite Z.mod_small, (IH (i + 1)) by lia. lia.
Qed.

(** [out] was written to the start of the array [b]. *)
Definition written (b out : list Z) : list Z * nat := (out ++ drop (length out) b, length out).

Lemma put_option_spec b out bs : (length (out ++ bs) <= length b)%nat -> put_option (written b out) bs = Ok (written b (out ++ bs)).
Proof.
  rewrite length_app. intros H. unfold put_option, written. cbn [fst snd].
  rewrite wr_bytes_spec by (rewrite length_app, length_drop; lia). res_simpl. rewrite splice_next by (rewrite length_drop; lia).
  by rewrite drop_drop, length_app.
Qed.

Lemma put_option_if b out (c : bool) bs : (length (out ++ if c then bs else []) <= length b)%nat ->
  (if c then put_option (written b out) bs else Ok (written b out)) = Ok (written b (out ++ if c then bs else [])).
Proof. destruct c; [apply put_option_spec|]. by rewrite app_nil_r. Qed.

Lemma request_loop_spec b l : forall out i, (length (out ++ requested i l) <= length b)%nat ->
  request_loop (written b out) i l = Ok (written b (out ++ requested i l)).
Proof.
  induction l as [|v l IH]; intros out i H; cbn [request_loop requested] in *; [by rewrite app_nil_r|].
  rewrite !length_app in H. rewrite put_option_if by (rewrite length_app; lia). res_simpl. rewrite IH by (rewrite !length_app; lia).
  by rewrite <- app_assoc.
Qed.

Lemma put_string_spec b out c array : string_ok array -> length array = 256%nat ->
  (length (out ++ enc_item (Opt c (nul_ended array))) <= length b)%nat ->
  put_string (written b out) c array = Ok (written b (out ++ enc_item (Opt c (nul_ended array)))).
Proof.
  intros (Hs & H0 & _) Ha Hr. unfold put_string. rewrite array_str_spec by done. res_simpl. rewrite u8_small by lia.
  replace (Z.to_nat (Z.of_nat (length (upto_nul array)) + 1)) with (S (length (upto_nul array))) by lia.
  rewrite rd_bytes_spec by lia. res_simpl. rewrite drop_0, upto_nul_take by done.
  replace (Z.of_nat (length (upto_nul array)) + 1) with (Z.of_nat (length (nul_ended array))) by (unfold nul_ended; rewrite length_app; cbn [length]; lia).
  by apply put_option_spec.
Qed.

Lemma is_set_spec o c : length (flag o) = 256%nat -> 0 <= c < 256 -> is_set (flag o) c = Ok (flagged o c).
Proof.
  intros Hl Hc. unfold is_set, elem, flagged. destruct (lookup_lt_is_Some_2 (flag o) (Z.to_nat c)) as [v Hv]; [lia|].
  rewrite Hv. res_simpl. by rewrite (nth_lookup_Some _ _ _ _ Hv).
Qed.

Lemma enc_opt_if c it : enc (opt_if c it) = if c then enc_item it else [].
Proof. destruct c; [cbn; by rewrite app_nil_r | done]. Qed.

Lemma put_string_if b out (c : bool) code array : string_ok array -> length array = 256%nat ->
  (length (out ++ if c then enc_item (Opt code (nul_ended array)) else []) <= length b)%nat ->
  (if c then put_string (written b out) code array else Ok (written b out)) =
    Ok (written b (out ++ if c then enc_item (Opt code (nul_ended array)) else [])).
Proof. destruct c; [apply put_string_spec|]. by rewrite app_nil_r. Qed.

Lemma put_requests b out l : Forall (fun v => v = 0 \/ v = 1) l -> (length (requested 0 l) < 256)%nat ->
  let sum := foldl (fun s v => u16 (s + v)) 0 l in
  let item := if negb (bool_decide (requested 0 l = [])) then enc_item (Opt DHCP_REQUEST_LIST (requested 0 l)) else [] in
  (length (out ++ item) <= length b)%nat ->
  (if negb (sum =? 0) then x ← put_option (written b out) [DHCP_REQUEST_LIST; u8 sum]; request_loop x 0 l else Ok (written b out)) =
    Ok (written b (out ++ item)).
Proof.
  intros Hl Hc. cbv zeta. rewrite (requested_sum 0 l 0 Hl) by lia. rewrite Z.add_0_l. destruct (requested 0 l) as [|c cs] eqn:E.
  - cbn. by rewrite app_nil_r.
  - rewrite bool_decide_false by done. cbn [negb]. intros Hr. rewrite <- E in *. set (n := length (requested 0 l)) in *.
    assert (n <> 0)%nat by (subst n; by rewrite E). destruct (Z.eqb_spec (Z.of_nat n) 0); [lia|]. cbn [negb]. rewrite u8_small by lia.
    assert (Ee : enc_item (Opt DHCP_REQUEST_LIST (requested 0 l)) = [DHCP_REQUEST_LIST; Z.of_nat n] ++ requested 0 l) by done.
    rewrite Ee in *. rewrite !length_app in Hr. rewrite put_option_spec by (rewrite length_app; lia). res_simpl.
    rewrite request_loop_spec by (rewrite !length_app; lia). by rewrite <- app_assoc.
Qed.

(** dhcp_encode_options stores the magic, the options and the end. *)
Lemma encode_spec o b : sendable_options o -> (4 + length (enc (sent_options o)) + 1 <= length b)%nat ->
  dhcp_encode_options b o = Ok (1, (written b (dhcp_magic ++ enc (sent_options o) ++ [DHCP_ENDOPT])).1).
Proof.
  intros Hs Hr. destruct (so_arrays o Hs) as (Hf & _ & Ht & Hb).
  assert (Em : splice b 0 dhcp_magic = (written b dhcp_magic).1) by done.
  unfold sent_options in *. cbv zeta in *. rewrite !enc_app, !enc_opt_if in *. change (enc [Opt DHCP_MSG_TYPE [msg_type o]]) with [DHCP_MSG_TYPE; 1; msg_type o] in *.
  unfold dhcp_encode_options. rewrite wr_bytes_spec by (cbn; lia). res_simpl. rewrite Em, (bool_decide_true _ (so_type o Hs)). cbn [negb].
  change ((written b dhcp_magic).1, 4%nat) with (written b dhcp_magic).
  assert (length dhcp_magic = 4%nat) as Hm by done. generalize dependent dhcp_magic. intros magic _ Hm.
  change [DHCP_OVERLOAD; 1; overload o] with (enc_item (Opt DHCP_OVERLOAD [overload o])).
  change (DHCP_REQUESTED_IP :: 4 :: be_enc 4 (requested_IP o)) with (enc_item (Opt DHCP_REQUESTED_IP (be_enc 4 (requested_IP o)))).
  change (DHCP_SERVER_ID :: 4 :: be_enc 4 (server_ID o)) with (enc_item (Opt DHCP_SERVER_ID (be_enc 4 (server_ID o)))).
  change [DHCP_CLIENT_ARCH; 2; Z.shiftr DHCPARCH 8; Z.land DHCPARCH 0xff] with (enc_item (Opt DHCP_CLIENT_ARCH (be_enc 2 DHCPARCH))).
  rewrite !length_app in Hr.
  rewrite !is_set_spec by (done || (unfold DHCP_REQUESTED_IP, DHCP_SERVER_ID, DHCP_TFTP_SERVER, DHCP_BOOTFILE, DHCP_CLIENT_ARCH; lia)). res_simpl.
  rewrite put_option_spec by (rewrite !length_app; lia). res_simpl.
  rewrite put_option_if by (rewrite !length_app; lia). res_simpl.
  rewrite put_option_if by (rewrite !length_app; lia). res_simpl.
  rewrite put_option_if by (rewrite !length_app; lia). res_simpl.
  rewrite (put_requests b _ _ (so_requests o Hs) (so_count o Hs)) by (rewrite !length_app; lia). res_simpl.
  rewrite (put_string_if _ _ _ _ _ (so_server o Hs) Ht) by (rewrite !length_app; lia). res_simpl.
  rewrite (put_string_if _ _ _ _ _ (so_file o Hs) Hb) by (rewrite !length_app; lia). res_simpl.
  rewrite put_option_if by (rewrite !length_app; lia). res_simpl.
  rewrite put_option_spec by (rewrite !length_app; cbn [length] in *; lia). res_simpl.
  by rewrite <- !app_assoc.
Qed.

(** ** What is sent is what is read *)

Definition item_code (it : item) : Z := match it with Pad => 0 | Opt c _ => c end.
Definition codes (l : list item) : list Z := item_code <$> l.

Lemma flagged_set c c' o : length (flag o) = 256%nat -> 0 <= c < 256 -> 0 <= c' < 256 -> flagged (set_flag c o) c' = bool_decide (c = c') || flagged o c'.
Proof.
  intros Hl Hc Hc'. unfold flagged, set_flag. cbn [flag]. case_bool_decide as E; cbn [orb].
  - subst. rewrite (nth_lookup_Some _ _ _ 1); [done|]. apply list_lookup_insert_eq. lia.
  - rewrite !nth_lookup, list_lookup_insert_ne by lia. done.
Qed.

Section round_trip.
Context (malloc_ok : Z -> bool).

Lemma read_item_flag it o px : flag (read_item malloc_ok it o px).1.2 = flag (set_flag (item_code it) o).
Proof. destruct it as [|c d]; [done|]. cbn [read_item item_code]. repeat case_match; done. Qed.

(** The flags say which options there were. *)
Lemma read_items_flagged l : forall o px o' px' c, Forall item_ok l -> arrays_ok o -> 0 <= c < 256 ->
  read_items malloc_ok l o px = (true, o', px') -> flagged o' c = bool_decide (c ∈ codes l) || flagged o c.
Proof.
  induction l as [|it l IH]; intros o px o' px' c Hok Ha Hc; cbn [read_items].
  { intros [= -> ->]. by rewrite bool_decide_false by apply not_elem_of_nil. }
  apply Forall_cons_1 in Hok as [Hit Hok]. pose proof (read_item_arrays malloc_ok it o px Hit Ha) as Ha'.
  pose proof (read_item_flag it o px) as Ef. destruct (read_item malloc_ok it o px) as [[[] o1] px1]; [|done]. cbn [fst snd] in *. intros E.
  rewrite (IH o1 px1 o' px' c Hok Ha' Hc E).
  assert (E1 : flagged o1 c = bool_decide (item_code it = c) || flagged o c).
  { rewrite <- flagged_set; [unfold flagged; by rewrite Ef | apply Ha | | done]. destruct it; cbn; [lia | destruct Hit; lia]. }
  rewrite E1, orb_assoc. f_equal. change (codes (it :: l)) with (item_code it :: codes l).
  destruct (decide (c ∈ codes l)) as [Hl | Hl].
  - rewrite (bool_decide_true _ Hl), (bool_decide_true (c ∈ item_code it :: codes l)) by (rewrite elem_of_cons; auto). done.
  - rewrite (bool_decide_false _ Hl). cbn [orb]. apply bool_decide_ext. rewrite elem_of_cons. split; [auto | by intros [?|?]].
Qed.

(** A step for an option that may be there. *)
Lemma read_opt_if (c : bool) it l o px o1 : read_item malloc_ok it o px = (true, o1, px) ->
  read_items malloc_ok (opt_if c it ++ l) o px = read_items malloc_ok l (if c then o1 else o) px.
Proof. intros E. destruct c; [|done]. cbn [opt_if app read_items]. by rewrite E. Qed.

Lemma upto_nul_again array x : upto_nul (upto_nul array ++ 0 :: x) = upto_nul array.
Proof.
  induction array as [|c l IH]; [done|]. cbn [upto_nul]. destruct (Z.eqb_spec c 0) as [->|]; [done|].
  cbn [app upto_nul]. destruct (Z.eqb_spec c 0); [done|]. by rewrite IH.
Qed.

Lemma nul_ended_in array d : upto_nul (string_in d (nul_ended array)) = upto_nul array.
Proof. unfold string_in, nul_ended. rewrite <- app_assoc. apply upto_nul_again. Qed.

(** What the receiver has of the structure: each field if its option was sent. *)
Record received (o o' : dhcp_options_t) : Prop := {
  re_flags c : 0 <= c < 255 -> flagged o' c = bool_decide (c ∈ codes (sent_options o));
  re_type : msg_type o' = msg_type o;
  re_overload : overload o' = overload o;
  re_requested : requested_IP o' = if flagged o DHCP_REQUESTED_IP then requested_IP o else 0;
  re_server : server_ID o' = if flagged o DHCP_SERVER_ID then server_ID o else 0;
  re_tftp : upto_nul (tftp_server o') = if flagged o DHCP_TFTP_SERVER then upto_nul (tftp_server o) else [];
  re_file : upto_nul (bootfile o') = if flagged o DHCP_BOOTFILE then upto_nul (bootfile o) else [];
  re_arch : client_arch o' = if flagged o DHCP_CLIENT_ARCH then DHCPARCH else 0 }.

Lemma type_range o : sendable_options o -> 0 < msg_type o < 9.
Proof. intros Hs. pose proof (so_type o Hs) as Ht. unfold DHCPDISCOVER, DHCPREQUEST, DHCPDECLINE, DHCPINFORM, DHCPRELEASE in Ht. rewrite !elem_of_cons in Ht. destruct Ht as [-> | [-> | [-> | [-> | [-> | Ht]]]]]; [lia..|]. by apply not_elem_of_nil in Ht. Qed.

Lemma read_type v o px : 0 < v < 9 ->
  read_item malloc_ok (Opt DHCP_MSG_TYPE [v]) o px = (true, set_msg_type v (set_flag DHCP_MSG_TYPE o), px).
Proof. intros Hv. transitivity (if (0 <? v) && (v <? 9) then (true, set_msg_type v (set_flag DHCP_MSG_TYPE o), px) else (false, set_flag DHCP_MSG_TYPE o, px)); [done|]. by replace ((0 <? v) && (v <? 9)) with true by lia. Qed.

Lemma read_sent_options o px : sendable_options o -> 0 <= requested_IP o < 2 ^ 32 -> 0 <= server_ID o < 2 ^ 32 ->
  exists o', read_items malloc_ok (sent_options o) zero_options px = (true, o', px) /\
    msg_type o' = msg_type o /\ overload o' = overload o /\
    requested_IP o' = (if flagged o DHCP_REQUESTED_IP then requested_IP o else 0) /\
    server_ID o' = (if flagged o DHCP_SERVER_ID then server_ID o else 0) /\
    upto_nul (tftp_server o') = (if flagged o DHCP_TFTP_SERVER then upto_nul (tftp_server o) else []) /\
    upto_nul (bootfile o') = (if flagged o DHCP_BOOTFILE then upto_nul (bootfile o) else []) /\
    client_arch o' = (if flagged o DHCP_CLIENT_ARCH then DHCPARCH else 0).
Proof.
  intros Hs Hr Hi. pose proof (type_range o Hs) as Ht. unfold sent_options. cbv zeta.
  rewrite <- (app_nil_r (opt_if (flagged o DHCP_CLIENT_ARCH) _)). cbn [app read_items]. rewrite read_type by done.
  do 7 (erewrite read_opt_if by reflexivity). cbn [read_items]. eexists. split; [reflexivity|].
  assert (E4 : forall v, 0 <= v < 2 ^ 32 -> be_dec (take 4 (be_enc 4 v)) = v).
  { intros v Hv. rewrite take_ge by (by rewrite be_enc_length). rewrite be_dec_enc. by apply Z.mod_small. }
  destruct (Z.eqb_spec (overload o) 0) as [Eo | _], (flagged o DHCP_REQUESTED_IP), (flagged o DHCP_SERVER_ID), (bool_decide (requested 0 (request_list o) = [])),
    (flagged o DHCP_TFTP_SERVER), (flagged o DHCP_BOOTFILE), (flagged o DHCP_CLIENT_ARCH).
  all: cbn [negb hd msg_type overload requested_IP server_ID tftp_server bootfile client_arch set_flag set_msg_type set_overload set_requested_IP set_server_ID
    set_tftp_server set_bootfile set_client_arch zero_options].
  all: rewrite ?E4, ?nul_ended_in by done; split_and!; done.
Qed.
Lemma upto_nul_bytes array : Forall byte array -> Forall byte (upto_nul array).
Proof. induction 1 as [|c l Hc _ IH]; [constructor|]. cbn [upto_nul]. case_match; [constructor | by constructor]. Qed.

Lemma nul_ended_ok array : string_ok array -> (length (nul_ended array) < 256)%nat /\ Forall byte (nul_ended array).
Proof.
  intros (Hl & _ & Hb). unfold nul_ended. rewrite length_app. cbn [length]. split; [lia|].
  apply Forall_app. split; [by apply upto_nul_bytes | repeat constructor; lia].
Qed.

Lemma requested_bytes i l : 0 <= i -> i + Z.of_nat (length l) <= 256 -> Forall byte (requested i l).
Proof.
  revert i. induction l as [|v l IH]; intros i Hi Hl; cbn [requested length] in *; [constructor|]. apply Forall_app. split; [|apply IH; lia].
  case_match; repeat constructor; lia.
Qed.

Lemma Forall_opt_if (P : item -> Prop) c it : (c = true -> P it) -> Forall P (opt_if c it).
Proof. destruct c; [intros H; by repeat constructor; apply H | constructor]. Qed.

Lemma sent_options_ok o : sendable_options o -> Forall item_ok (sent_options o) /\ Forall lengths_ok (sent_options o).
Proof.
  intros Hs. pose proof (type_range o Hs). pose proof (so_overload o Hs). pose proof (so_count o Hs).
  destruct (nul_ended_ok _ (so_server o Hs)), (nul_ended_ok _ (so_file o Hs)). destruct (so_arrays o Hs) as (_ & Hr & _).
  pose proof (requested_bytes 0 (request_list o) ltac:(lia) ltac:(lia)).
  unfold sent_options. cbv zeta. rewrite !Forall_app. 
  split; split_and!; try (constructor; [|by constructor]); try apply Forall_opt_if; try intros _.
  all: try solve [cbn; split; [unfold DHCP_MSG_TYPE, DHCP_OVERLOAD, DHCP_REQUESTED_IP, DHCP_SERVER_ID, DHCP_REQUEST_LIST, DHCP_TFTP_SERVER, DHCP_BOOTFILE, DHCP_CLIENT_ARCH; lia|];
    split; [rewrite ?be_enc_length; cbn; lia | first [done | apply (be_enc_bytes 4) | apply (be_enc_bytes 2) | repeat constructor; unfold byte in *; lia]]].
  all: split; [|split]; intros Hc; cbn [length]; rewrite ?be_enc_length; try lia.
  all: exfalso; first [discriminate Hc | rewrite !elem_of_cons, elem_of_nil in Hc; destruct_or! Hc; done].
Qed.

Lemma flagged_zero c : flagged zero_options c = false.
Proof.
  unfold flagged. cbn [flag zero_options]. rewrite nth_lookup. destruct (replicate 256 0 !! Z.to_nat c) eqn:E; [|done].
  apply lookup_replicate_1 in E as [-> _]. done.
Qed.

Lemma encode_decode o b px : sendable_options o -> 0 <= requested_IP o < 2 ^ 32 -> 0 <= server_ID o < 2 ^ 32 ->
  (4 + length (enc (sent_options o)) + 1 <= length b)%nat ->
  exists b' o', dhcp_encode_options b o = Ok (1, b') /\ b' = (written b (dhcp_magic ++ enc (sent_options o) ++ [DHCP_ENDOPT])).1 /\
    dhcp_decode_options malloc_ok b' (Z.of_nat (length b)) px = Ok (1, o', px) /\ received o o'.
Proof.
  intros Hs Hr Hi Hb. destruct (read_sent_options o px Hs Hr Hi) as (o1 & E & ?). destruct (sent_options_ok o Hs) as [Hok Hl].
  eexists _, (set_flag DHCP_ENDOPT o1). split; [by apply encode_spec|]. split; [done|]. split.
  - cbn [written fst]. rewrite <- !app_assoc. rewrite decode_spec; [|done..|].
    + rewrite E. by rewrite bool_decide_false by lia.
    + left. split; [lia | eauto].
  - assert (Ha : arrays_ok zero_options) by by split_and!.
    destruct_and!. split; try done. intros c Hc.
    assert (length (flag o1) = 256%nat) as Hf.
    { by apply (read_items_arrays malloc_ok (sent_options o) zero_options px o1 px). }
    rewrite flagged_set by (done || (unfold DHCP_ENDOPT; lia)). rewrite (bool_decide_false (DHCP_ENDOPT = c)) by (unfold DHCP_ENDOPT; lia). cbn [orb].
    rewrite (read_items_flagged _ _ _ _ _ c Hok Ha ltac:(lia) E). rewrite flagged_zero. apply orb_false_r.
Qed.

(** The options dhcp_encode_options has a place for; of the others it sends
    nothing, whatever their flags say, and the field client_arch is not what it
    sends (flagged_not_sent below). *)
Definition can_be_sent : list Z :=
  [DHCP_MSG_TYPE; DHCP_REQUESTED_IP; DHCP_SERVER_ID; DHCP_TFTP_SERVER; DHCP_BOOTFILE; DHCP_CLIENT_ARCH].

(** A structure all of whose flagged fields can be sent. *)
Record transmittable (o : dhcp_options_t) : Prop := {
  tr_options : sendable_options o;
  tr_flags c : 0 <= c < 256 -> flagged o c = true -> c ∈ can_be_sent;
  tr_requested : 0 <= requested_IP o < 2 ^ 32;
  tr_server : 0 <= server_ID o < 2 ^ 32;
  tr_arch : flagged o DHCP_CLIENT_ARCH = true -> client_arch o = DHCPARCH }.

(** The options that are sent without a flag. *)
Definition sent_anyway (o : dhcp_options_t) (c : Z) : Prop :=
  c = DHCP_MSG_TYPE \/ (c = DHCP_OVERLOAD /\ overload o <> 0) \/
  (c = DHCP_REQUEST_LIST /\ requested 0 (request_list o) <> []).

(** What came over: the flags, and the field of every flag; the others are clear. *)
Record came_over (o o' : dhcp_options_t) : Prop := {
  co_flags c : 0 <= c < 255 -> flagged o' c = true <-> flagged o c = true \/ sent_anyway o c;
  co_type : msg_type o' = msg_type o;
  co_overload : overload o' = overload o;
  co_requested : requested_IP o' = if flagged o DHCP_REQUESTED_IP then requested_IP o else 0;
  co_server : server_ID o' = if flagged o DHCP_SERVER_ID then server_ID o else 0;
  co_tftp : upto_nul (tftp_server o') = if flagged o DHCP_TFTP_SERVER then upto_nul (tftp_server o) else [];
  co_file : upto_nul (bootfile o') = if flagged o DHCP_BOOTFILE then upto_nul (bootfile o) else [];
  co_arch : client_arch o' = if flagged o DHCP_CLIENT_ARCH then client_arch o else 0 }.

Lemma codes_opt_if (b : bool) c d e : c ∈ codes (opt_if b (Opt d e)) <-> b = true /\ c = d.
Proof.
  destruct b; cbn [opt_if codes fmap list_fmap item_code].
  - rewrite list_elem_of_singleton. tauto.
  - rewrite elem_of_nil. split; [done | by intros [??]].
Qed.

Lemma codes_sent o c : transmittable o -> 0 <= c < 256 ->
  c ∈ codes (sent_options o) <-> flagged o c = true \/ sent_anyway o c.
Proof.
  intros Ht Hc. unfold sent_options, sent_anyway. cbv zeta. unfold codes. rewrite !fmap_app. fold codes.
  repeat rewrite elem_of_app. rewrite !codes_opt_if. cbn [codes fmap list_fmap item_code]. rewrite list_elem_of_singleton.
  rewrite !negb_true_iff, Z.eqb_neq, bool_decide_eq_false. split.
  - intros H. destruct_or! H; destruct_and?; subst; tauto.
  - intros [Hf|Hs]; [|tauto]. pose proof (tr_flags _ Ht c Hc Hf) as Hin. unfold can_be_sent in Hin.
    rewrite !elem_of_cons, elem_of_nil in Hin. destruct_or! Hin; subst; tauto.
Qed.

(** C20: What dhcp_encode_options stores, dhcp_decode_options reads, for a
    structure whose flags are among the options the encoder can send and whose
    client_arch, if flagged, is the one of the configuration: the message type, the
    overload byte and every flagged field come over, the strings up to their
    NUL, and the flags are the same but for the options that need none.  The list of
    requested options is sent, and the decoder has no field for it. *)
Theorem options_roundtrip o b px : transmittable o ->
  (4 + length (enc (sent_options o)) + 1 <= length b)%nat ->
  exists b' o', dhcp_encode_options b o = Ok (1, b') /\
    dhcp_decode_options malloc_ok b' (Z.of_nat (length b)) px = Ok (1, o', px) /\ came_over o o'.
Proof.
  intros Ht Hb. destruct (encode_decode o b px (tr_options o Ht) (tr_requested o Ht) (tr_server o Ht) Hb) as (b' & o' & E & _ & E' & R).
  exists b', o'. split; [done|]. split; [done|]. destruct R as [Rf R1 R2 R3 R4 R5 R6 R7]. split; try done.
  - intros c Hc. rewrite Rf, bool_decide_eq_true by done. apply codes_sent; [done | lia].
  - rewrite R7. destruct (flagged o DHCP_CLIENT_ARCH) eqn:Ha; [|done]. symmetry. by apply tr_arch.
Qed.
End round_trip.

(** ** Merging lists *)

(** The data of an option are added to those of the first option with its code,
    if there is one. *)
Fixpoint merge_item (c : Z) (d : list Z) (l : list item) : list item :=
  match l with
  | [] => [Opt c d]
  | Opt c' d' :: l' => if c' =? c then Opt c' (d' ++ d) :: l' else Opt c' d' :: merge_item c d l'
  | Pad :: l' => Pad :: merge_item c d l'
  end.

Fixpoint merge_items (dst src : list item) : list item :=
  match src with
  | [] => dst
  | Pad :: src' => merge_items dst src'
  | Opt c d :: src' => merge_items (merge_item c d dst) src'
  end.

(** All lists on the way can be stored in [n] bytes. *)
Fixpoint mergeable (n : nat) (dst src : list item) : Prop :=
  match src with
  | [] => True
  | Pad :: src' => mergeable n dst src'
  | Opt c d :: src' =>
      let l := merge_item c d dst in (length (enc l) <= n)%nat /\ Forall item_ok l /\ mergeable n l src'
  end.

Lemma merge_item_cases c d l : 0 < c ->
  (exists l1 d' l2, l = l1 ++ Opt c d' :: l2 /\ c ∉ codes l1 /\ merge_item c d l = l1 ++ Opt c (d' ++ d) :: l2) \/
  (c ∉ codes l /\ merge_item c d l = l ++ [Opt c d]).
Proof.
  intros Hc. induction l as [|it l [(l1 & d' & l2 & -> & Hn & E) | [Hn E]]].
  - right. split; [apply not_elem_of_nil | done].
  - destruct it as [|c' x]; cbn [merge_item].
    + left. exists (Pad :: l1), d', l2. rewrite E. split; [done|]. split; [|done]. apply not_elem_of_cons. split; [cbn; lia | done].
    + destruct (Z.eqb_spec c' c) as [->|Hne].
      * left. exists [], x, (l1 ++ Opt c d' :: l2). split; [done|]. split; [apply not_elem_of_nil | done].
      * left. exists (Opt c' x :: l1), d', l2. rewrite E. split; [done|]. split; [|done]. apply not_elem_of_cons. split; [cbn; lia | done].
  - destruct it as [|c' x]; cbn [merge_item].
    + right. rewrite E. split; [|done]. apply not_elem_of_cons. split; [cbn; lia | done].
    + destruct (Z.eqb_spec c' c) as [->|Hne].
      * left. exists [], x, l. split; [done|]. split; [apply not_elem_of_nil | done].
      * right. rewrite E. split; [|done]. apply not_elem_of_cons. split; [cbn; lia | done].
Qed.

(** The search goes over options with other codes. *)
Lemma find_option_skip l : forall fuel pre post len c, Forall item_ok l -> 0 < c -> c ∉ codes l -> (length l <= fuel)%nat ->
  Z.of_nat (length (pre ++ enc l)) <= len ->
  find_option_loop fuel (pre ++ enc l ++ post) len c (length pre) =
  find_option_loop (fuel - length l) (pre ++ enc l ++ post) len c (length (pre ++ enc l)).
Proof.
  induction l as [|it l IH]; intros fuel pre post len c Hok Hc Hn Hf Hlen.
  { cbn [enc mbind list_bind length]. by rewrite app_nil_r, Nat.sub_0_r. }
  apply Forall_cons_1 in Hok as [Hit Hok]. apply not_elem_of_cons in Hn as [Hn1 Hn]. cbn [length] in Hf. destruct fuel as [|fuel]; [lia|].
  rewrite enc_cons in *. specialize (IH fuel (pre ++ enc_item it) post len c Hok Hc Hn ltac:(lia)).
  rewrite <- !app_assoc, (length_app pre (enc_item it)) in IH. rewrite !length_app in Hlen. specialize (IH ltac:(rewrite !length_app; lia)).
  cbn [length]. rewrite <- (app_assoc (enc_item it)). rewrite Nat.sub_succ, <- IH. cbn [find_option_loop].
  destruct it as [|c' d]; cbn [item_code enc_item app length] in *; rewrite rd1_app; res_simpl.
  - rewrite (proj2 (Z.ltb_lt _ _)) by lia. rewrite (proj2 (Z.eqb_neq 0 c)) by lia. done.
  - destruct Hit as [Hc' _]. rewrite (proj2 (Z.ltb_lt _ _)) by lia. rewrite (proj2 (Z.eqb_neq c' c)) by done. unfold DHCP_ENDOPT, DHCP_PADOPT.
    rewrite (proj2 (Z.eqb_neq c' 255)), (proj2 (Z.eqb_neq c' 0)) by lia. rewrite opt_len. res_simpl. f_equal. lia.
Qed.

(** What follows the options: the end option, or the end of the field. *)
Lemma find_option_end fuel pre post len c : ends_options post len (length pre) -> 0 < c -> fuel <> O ->
  find_option_loop fuel (pre ++ post) len c (length pre) =
    Ok (if bool_decide (c = DHCP_ENDOPT /\ len <> Z.of_nat (length pre)) then Some (length pre) else None).
Proof.
  intros He Hc Hf. destruct fuel as [|fuel]; [done|]. cbn [find_option_loop]. destruct He as [[Hlt (post' & ->)] | ->].
  - rewrite (proj2 (Z.ltb_lt _ _)), rd1_app by lia. res_simpl. destruct (Z.eqb_spec DHCP_ENDOPT c) as [<- | Hne].
    + rewrite bool_decide_true by (split; [done | lia]). done.
    + rewrite bool_decide_false by (intros [? _]; congruence). done.
  - rewrite Z.ltb_irrefl, bool_decide_false by (by intros [_ ?]). done.
Qed.

Lemma find_option_found l1 d l2 post len c : Forall item_ok (l1 ++ Opt c d :: l2) -> c ∉ codes l1 ->
  Z.of_nat (length (enc (l1 ++ Opt c d :: l2))) <= len ->
  dhcp_find_option (enc (l1 ++ Opt c d :: l2) ++ post) len c = Ok (Some (length (enc l1))).
Proof.
  intros Hok Hn Hlen. apply Forall_app in Hok as [Hok1 Hok2]. apply Forall_cons_1 in Hok2 as [[Hc _] _].
  rewrite enc_app, enc_cons in *. rewrite !length_app in Hlen. cbn [enc_item length] in Hlen. unfold dhcp_find_option.
  set (fuel := S _). assert (Hf : (length l1 < fuel)%nat) by (pose proof (enc_count l1); subst fuel; rewrite !length_app; lia).
  clearbody fuel. rewrite <- app_assoc.
  pose proof (find_option_skip l1 fuel [] ((enc_item (Opt c d) ++ enc l2) ++ post) len c Hok1 ltac:(lia) Hn ltac:(lia) ltac:(cbn [app]; lia)) as R.
  cbn [app length] in R. cbn [app length]. rewrite R. clear R. destruct (fuel - length l1)%nat as [|k] eqn:Ek; [lia|]. cbn [find_option_loop enc_item app].
  rewrite (proj2 (Z.ltb_lt _ _)), rd1_app by lia. res_simpl. by rewrite Z.eqb_refl.
Qed.

Lemma find_option_other l post len c : Forall item_ok l -> 0 < c -> c ∉ codes l -> ends_options post len (length (enc l)) ->
  dhcp_find_option (enc l ++ post) len c =
    Ok (if bool_decide (c = DHCP_ENDOPT /\ len <> Z.of_nat (length (enc l))) then Some (length (enc l)) else None).
Proof.
  intros Hok Hc Hn He. unfold dhcp_find_option.
  set (fuel := S _). assert (Hf : (length l < fuel)%nat) by (pose proof (enc_count l); subst fuel; rewrite !length_app; lia).
  clearbody fuel. assert (Hlen : Z.of_nat (length (enc l)) <= len) by (destruct He as [[? _] | ->]; lia).
  pose proof (find_option_skip l fuel [] post len c Hok Hc Hn ltac:(lia) Hlen) as R. cbn [app length] in R. rewrite R.
  apply find_option_end; [done | done | lia].
Qed.

Lemma written_app b out : written b out = (out ++ drop (length out) b, length out).
Proof. done. Qed.

(** The bytes of an array that starts with [out]. *)
Definition array_with (b out : list Z) : list Z := (written b out).1.

Lemma array_with_length b out : (length out <= length b)%nat -> length (array_with b out) = length b.
Proof. intros H. unfold array_with, written. cbn [fst]. rewrite length_app, length_drop. lia. Qed.

Lemma array_with_splice b out x y : (length (out ++ x) <= length b)%nat -> length y = length x ->
  splice (array_with b (out ++ x)) (length out) y = array_with b (out ++ y).
Proof.
  intros H E. unfold array_with, written. cbn [fst]. rewrite <- !app_assoc, splice_app by done. by rewrite !length_app, E.
Qed.

Lemma array_with_next b out x : (length (out ++ x) <= length b)%nat -> splice (array_with b out) (length out) x = array_with b (out ++ x).
Proof.
  rewrite length_app. intros H. unfold array_with, written. cbn [fst]. rewrite splice_next by (rewrite length_drop; lia).
  by rewrite drop_drop, length_app.
Qed.

(** dhcp_append_option *)
Lemma append_spec b l c d t : item_ok (Opt c d) -> (length (enc (l ++ [Opt c d])) <= length b)%nat -> Z.of_nat (length b) < 2 ^ 32 ->
  dhcp_append_option (array_with b (enc l)) (Z.of_nat (length (enc l))) (c :: Z.of_nat (length d) :: d ++ t) =
    Ok (array_with b (enc (l ++ [Opt c d])), Z.of_nat (length (enc (l ++ [Opt c d])))).
Proof.
  intros Hok Hb Hr. rewrite enc_app in *. change (enc [Opt c d]) with ((c :: Z.of_nat (length d) :: d) ++ []) in *. rewrite app_nil_r in *.
  rewrite length_app in Hb. cbn [length] in Hb. unfold dhcp_append_option. rewrite (rd1 _ 1 (Z.of_nat (length d))) by done. res_simpl.
  rewrite !Nat2Z.id, rd_bytes_spec by (cbn [length]; rewrite length_app; lia). res_simpl. rewrite drop_0.
  replace (take (2 + length d) (c :: Z.of_nat (length d) :: d ++ t)) with (c :: Z.of_nat (length d) :: d) by (cbn; by rewrite take_app_length).
  rewrite wr_bytes_spec by (rewrite array_with_length; cbn [length]; lia). res_simpl.
  rewrite array_with_next by (rewrite length_app; cbn [length]; lia). rewrite length_app. cbn [length]. rewrite u32_small by lia. do 2 f_equal. lia.
Qed.

Lemma splice_skip a l i y : splice (a ++ l) (length a + i) y = a ++ splice l i y.
Proof.
  unfold splice. rewrite take_app_add, <- Nat.add_assoc, drop_app_add. by rewrite <- !app_assoc.
Qed.

(** Moving the tail [q] and storing [x] before it. *)
Lemma insert_bytes a q r x : (length x <= length r)%nat ->
  splice (splice (a ++ q ++ r) (length a + length x) q) (length a) x = a ++ x ++ q ++ drop (length x) r.
Proof.
  intros Hx. rewrite splice_skip. rewrite <- (Nat.add_0_r (length a)), splice_skip. f_equal. unfold splice. rewrite take_0. cbn [app plus].
  rewrite (drop_app_length' (take _ _)) by (rewrite length_take, length_app; lia). do 2 f_equal.
  rewrite (Nat.add_comm (length x) (length q)). apply drop_app_add.
Qed.

Lemma combine_spec b l1 c d l2 x c' t : let l := l1 ++ Opt c d :: l2 in let l' := l1 ++ Opt c (d ++ x) :: l2 in
  item_ok (Opt c (d ++ x)) -> (length (enc l') <= length b)%nat -> (length b <= Z.to_nat 1024)%nat ->
  dhcp_combine_option (array_with b (enc l)) (Z.of_nat (length (enc l))) (length (enc l1)) (c' :: Z.of_nat (length x) :: x ++ t) =
    Ok (array_with b (enc l'), Z.of_nat (length (enc l'))).
Proof.
  intros l l' (Hc & Hd & _) Hb Hr. subst l l'. rewrite !enc_app, !enc_cons in *. rewrite length_app in Hd. cbn [enc_item] in *.
  set (p := enc l1) in *. set (q := enc l2) in *. clearbody p q. set (r := drop (length p + (2 + length d + length q)) b).
  assert (Lb : (length p + (2 + length d + length x + length q) <= length b)%nat) by (rewrite !length_app in Hb; cbn [length] in Hb; rewrite length_app in Hb; lia).
  clear Hb. assert (Lr : length r = (length b - (length p + (2 + length d + length q)))%nat) by (subst r; apply length_drop).
  set (a := p ++ c :: Z.of_nat (length d) :: d). assert (La : length a = (length p + 2 + length d)%nat) by (subst a; rewrite length_app; cbn [length]; lia).
  assert (E0 : array_with b (p ++ (c :: Z.of_nat (length d) :: d) ++ q) = a ++ q ++ r).
  { unfold array_with, written. cbn [fst]. subst a r. rewrite <- !app_assoc, !length_app. cbn [length]. do 5 f_equal. }
  rewrite E0. clear E0. unfold dhcp_combine_option.
  replace (length (p ++ (c :: Z.of_nat (length d) :: d) ++ q)) with (length p + 2 + length d + length q)%nat by (rewrite !length_app; cbn [length]; lia).
  assert (Ro : forall z, rd 1 (a ++ z) (length p + 1) = Ok (Z.of_nat (length d))) by (intros z; subst a; rewrite <- app_assoc; apply opt_len).
  rewrite Ro. res_simpl.
  replace (u32 (Z.of_nat (length p + 2 + length d + length q) - Z.of_nat (length p) - 2 - Z.of_nat (length d))) with (Z.of_nat (length q)) by (rewrite u32_small by lia; lia).
  replace (u32 (Z.of_nat (length p + 2 + length d + length q) - Z.of_nat (length q))) with (Z.of_nat (length a)) by (rewrite u32_small by lia; lia).
  rewrite !Nat2Z.id. rewrite rd_bytes_app. res_simpl. rewrite wr_bytes_spec by (rewrite length_replicate; lia). res_simpl.
  rewrite (rd1 _ 1 (Z.of_nat (length x))) by done. res_simpl.
  change (splice (replicate (Z.to_nat 1024) 0) 0 q) with (q ++ drop (length q) (replicate (Z.to_nat 1024) 0)).
  rewrite (rd_bytes_app [] q : forall post, rd_bytes (length q) (q ++ post) 0 = Ok q). res_simpl. rewrite Nat2Z.id, wr_bytes_spec by (rewrite !length_app; lia). res_simpl.
  rewrite (rd_bytes_app [c'; Z.of_nat (length x)] x : forall post, rd_bytes (length x) (c' :: Z.of_nat (length x) :: x ++ post) 2 = Ok x). res_simpl.
  rewrite wr_bytes_spec by (rewrite splice_length; rewrite !length_app; lia). res_simpl. rewrite insert_bytes by lia. rewrite Ro. res_simpl.
  rewrite wr_spec by (rewrite !length_app; lia). res_simpl. f_equal. f_equal.
  2: { rewrite !length_app. cbn [length]. rewrite length_app. rewrite u32_small; lia. }
  unfold array_with, written. cbn [fst]. subst a. rewrite <- !app_assoc. cbn [app].
  replace (be_enc 1 (Z.of_nat (length d) + Z.of_nat (length x))) with [Z.of_nat (length (d ++ x))].
  2: { rewrite <- (be_enc_dec [Z.of_nat (length (d ++ x))]) by (repeat constructor; rewrite length_app; lia). rewrite length_app. cbn [length]. f_equal. cbn. lia. }
  rewrite splice_skip. f_equal. unfold splice. cbn [take app drop plus length]. do 2 f_equal. rewrite <- !app_assoc. do 4 f_equal.
  rewrite drop_0. do 3 f_equal. subst r. rewrite drop_drop. f_equal. rewrite length_app. cbn [length]. rewrite !length_app. lia.
Qed.

Lemma array_found b l1 d l2 c : let l := l1 ++ Opt c d :: l2 in Forall item_ok l -> c ∉ codes l1 ->
  dhcp_find_option (array_with b (enc l)) (Z.of_nat (length (enc l))) c = Ok (Some (length (enc l1))).
Proof. intros l Hok Hn. by apply (find_option_found l1 d l2). Qed.

Lemma array_not_found b l c : Forall item_ok l -> 0 < c -> c ∉ codes l ->
  dhcp_find_option (array_with b (enc l)) (Z.of_nat (length (enc l))) c = Ok None.
Proof.
  intros Hok Hc Hn. etransitivity; [apply (find_option_other l); [done | done | done | by right]|].
  rewrite bool_decide_false by (by intros [_ ?]). done.
Qed.

(** One option of the source. *)
Lemma merge_one b l c d t len : Forall item_ok l -> item_ok (Opt c d) -> let l' := merge_item c d l in
  Forall item_ok l' -> (length (enc l') <= length b)%nat -> (length b <= Z.to_nat 1024)%nat -> len = Z.of_nat (length (enc l)) ->
  (found ← dhcp_find_option (array_with b (enc l)) len c;
   match found with
   | Some dst_offset => dhcp_combine_option (array_with b (enc l)) len dst_offset (c :: Z.of_nat (length d) :: d ++ t)
   | None => dhcp_append_option (array_with b (enc l)) len (c :: Z.of_nat (length d) :: d ++ t)
   end) = Ok (array_with b (enc l'), Z.of_nat (length (enc l'))).
Proof.
  intros Hl Hit l' Hl' Hb H1024 ->. subst l'. destruct Hit as (Hc & Hd & Hby).
  destruct (merge_item_cases c d l) as [(l1 & d' & l2 & -> & Hn & E) | [Hn E]]; [lia|..]; rewrite E in *.
  - rewrite array_found by done. res_simpl. apply combine_spec; [|done..].
    apply Forall_app in Hl' as [_ Hl']. by apply Forall_cons_1 in Hl' as [Hl' _].
  - rewrite array_not_found by (done || lia). res_simpl.
    apply append_spec; [done | done | lia].
Qed.

(** The loop over the source. *)
Lemma merge_loop_spec b s : forall fuel l pre post src_len, Forall item_ok l -> Forall item_ok s -> mergeable (length b) l s ->
  (length b <= Z.to_nat 1024)%nat -> ends_options post src_len (length (pre ++ enc s)) -> (length s < fuel)%nat ->
  merge_loop fuel (array_with b (enc l)) (Z.of_nat (length (enc l))) (pre ++ enc s ++ post) src_len (length pre) =
    Ok (1, array_with b (enc (merge_items l s)), Z.of_nat (length (enc (merge_items l s)))).
Proof.
  induction s as [|it s IH]; intros fuel l pre post src_len Hl Hs Hm H1024 He Hf; (destruct fuel as [|fuel]; [lia|]); cbn [merge_loop].
  - cbn [enc mbind list_bind app] in *. rewrite app_nil_r in He. cbn [merge_items]. destruct He as [[Hlt (post' & ->)] | ->].
    + rewrite (proj2 (Z.ltb_lt _ _)), rd1_app by done. res_simpl. done.
    + by rewrite Z.ltb_irrefl, Z.eqb_refl.
  - apply Forall_cons_1 in Hs as [Hit Hs]. rewrite enc_cons in *. cbn [length] in Hf.
    specialize (IH fuel (match it with Pad => l | Opt c d => merge_item c d l end) (pre ++ enc_item it) post src_len).
    rewrite <- !app_assoc, (length_app pre (enc_item it)) in IH.
    assert (Z.of_nat (length pre) < src_len).
    { destruct (enc_item_code it Hit) as (c & t & Ec & _). destruct He as [[? _] | ->]; rewrite !length_app, Ec in *; cbn [length] in *; lia. }
    rewrite (proj2 (Z.ltb_lt _ _)) by done. rewrite <- (app_assoc (enc_item it)). destruct it as [|c d]; cbn [enc_item app length merge_items] in *.
    + rewrite rd1_app. res_simpl. apply IH; done || lia.
    + rewrite rd1_app. res_simpl. destruct Hm as (Hb & Hl' & Hm). pose proof Hit as (Hc & _). unfold DHCP_PADOPT, DHCP_ENDOPT.
      rewrite (proj2 (Z.eqb_neq c 0)), (proj2 (Z.eqb_neq c 255)) by lia.
      rewrite drop_app_length. pose proof (merge_one b l c d (enc s ++ post) _ Hl Hit Hl' Hb H1024 eq_refl) as R.
      destruct (dhcp_find_option _ _ c) as [found| |]; [res_simpl|done..].
      destruct found as [?|]; rewrite R; res_simpl; rewrite opt_len; res_simpl; rewrite Nat2Z.id, <- Nat.add_assoc; apply IH; done || lia.
Qed.


Lemma enc_end_code l : Forall item_ok l -> DHCP_ENDOPT ∉ codes l.
Proof.
  induction 1 as [|it l Hit _ IH]; [apply not_elem_of_nil|]. apply not_elem_of_cons. split; [|done].
  destruct it as [|c d]; cbn [item_code]; unfold DHCP_ENDOPT; [done | destruct Hit; lia].
Qed.

Lemma merge_options_spec l s post dst_len post' src_len : Forall item_ok l -> Forall item_ok s ->
  mergeable (length (enc l ++ post)) l s -> (length (enc l ++ post) <= Z.to_nat 1024)%nat ->
  ends_options post dst_len (length (enc l)) -> ends_options post' src_len (length (enc s)) ->
  dhcp_merge_options (enc l ++ post) dst_len (enc s ++ post') src_len =
    Ok (1, array_with (enc l ++ post) (enc (merge_items l s)), Z.of_nat (length (enc (merge_items l s)))).
Proof.
  intros Hl Hs Hm H1024 Hd He. unfold dhcp_merge_options.
  rewrite find_option_other by (done || by apply enc_end_code). res_simpl.
  assert (Z.of_nat (length (enc l)) = match (if bool_decide (DHCP_ENDOPT = DHCP_ENDOPT /\ dst_len <> Z.of_nat (length (enc l))) then Some (length (enc l)) else None)
    with Some p => Z.of_nat p | None => dst_len end) as <-.
  { case_bool_decide as Hn; [done|]. destruct (decide (dst_len = Z.of_nat (length (enc l)))) as [->|?]; [done | by destruct Hn]. }
  assert (array_with (enc l ++ post) (enc l) = enc l ++ post) as Ea.
  { unfold array_with, written. cbn [fst]. by rewrite drop_app_length. }
  rewrite <- Ea at 1.
  apply (merge_loop_spec (enc l ++ post) s _ l [] post' src_len); [done..|].
  pose proof (enc_count s). rewrite length_app. lia.
Qed.

(** C21: dhcp_merge_options adds the options [s] of the source to the options [l] of the destination: the data of an option
    go behind those of the first option with the same code, other options behind the list, and the new length
    is that of the merged options, without the end option; the bytes behind them stay. *)
Theorem options_merged l s post dst_len post' src_len : Forall item_ok l -> Forall item_ok s ->
  mergeable (length (enc l ++ post)) l s -> (length (enc l ++ post) <= Z.to_nat 1024)%nat ->
  ends_options post dst_len (length (enc l)) -> ends_options post' src_len (length (enc s)) ->
  dhcp_merge_options (enc l ++ post) dst_len (enc s ++ post') src_len =
    Ok (1, array_with (enc l ++ post) (enc (merge_items l s)), Z.of_nat (length (enc (merge_items l s)))).
Proof. apply merge_options_spec. Qed.

(** ** Concrete messages *)

Definition text (l : list Z) : list Z := l ++ replicate (256 - length l) 0.

(** A request with an address, a server, the names [s] and [f] and four requested options. *)
Definition sample_options : dhcp_options_t :=
  DhcpOptions (<[50%nat := 1]> (<[54%nat := 1]> (<[66%nat := 1]> (replicate 256 0)))) (<[1%nat := 1]> (<[3%nat := 1]> (<[6%nat := 1]> (<[67%nat := 1]> (replicate 256 0)))))
    0x0A000001 0x0A000005 0 0 0 DHCPREQUEST 0 (text [115]) (text [102]) 0.

Lemma sample_sendable : sendable_options sample_options.
Proof.
  split; try (vm_compute; reflexivity).
  - repeat split.
  - cbn. set_solver.
  - vm_compute. split; congruence.
  - vm_compute. repeat (constructor; [by auto|]). constructor.
  - vm_compute. lia.
  - split; [vm_compute; lia|]. split; [reflexivity|]. repeat constructor; discriminate.
  - split; [vm_compute; lia|]. split; [reflexivity|]. repeat constructor; discriminate.
Defined.

Lemma sample_transmittable : transmittable sample_options.
Proof.
  split; [exact sample_sendable | | vm_compute; split; congruence | vm_compute; split; congruence | discriminate].
  intros c Hc Hf.
  assert (Forall (fun k => flagged sample_options (Z.of_nat k) = true -> Z.of_nat k ∈ can_be_sent) (seq 0 256)) as H.
  { apply (bool_decide_eq_true_1 _). vm_compute. reflexivity. }
  rewrite Forall_forall in H. specialize (H (Z.to_nat c)). rewrite Z2Nat.id in H by lia.
  apply H; [apply in_seq; lia | exact Hf].
Defined.

Lemma options_roundtrip_witness : exists b' o', dhcp_encode_options (replicate 64 0) sample_options = Ok (1, b') /\
  dhcp_decode_options (fun _ => true) b' 64 (Pxe None None) = Ok (1, o', Pxe None None) /\ came_over sample_options o'.
Proof.
  apply (options_roundtrip (fun _ => true) sample_options (replicate 64 0) (Pxe None None)).
  - exact sample_transmittable.
  - vm_compute. lia.
Defined.

(** The flags of the subnet mask, the router and the name server set, and the architecture 7:
    the first three are not sent, and the architecture that is sent is the one
    of the configuration. *)
Example flagged_not_sent :
  dhcp_encode_options (replicate 16 0)
    (DhcpOptions (<[1%nat := 1]> (<[3%nat := 1]> (<[6%nat := 1]> (<[93%nat := 1]> (replicate 256 0))))) (replicate 256 0)
       0 0 0x0A000001 0x0A000001 0xFF000000 DHCPREQUEST 0 (text []) (text []) 7) =
  Ok (1, dhcp_magic ++ [DHCP_MSG_TYPE; 1; DHCPREQUEST; DHCP_CLIENT_ARCH; 2; 0; DHCPARCH; DHCP_ENDOPT; 0; 0; 0; 0]).
Proof. reflexivity. Qed.

(** An overloaded file field adds to the file name and brings an address. *)
Lemma options_merged_witness :
  dhcp_merge_options (enc [Opt DHCP_BOOTFILE [102]; Opt DHCP_MSG_TYPE [2]] ++ [255; 7; 7; 7; 7; 7; 7; 7; 7]) 15
    (enc [Pad; Opt DHCP_BOOTFILE [103; 0]; Opt DHCP_ROUTER [10; 0; 0; 1]] ++ [255]) 12 =
  Ok (1, [67; 3; 102; 103; 0; 53; 1; 2; 3; 4; 10; 0; 0; 1; 7], 14).
Proof.
  apply (options_merged [Opt DHCP_BOOTFILE [102]; Opt DHCP_MSG_TYPE [2]] [Pad; Opt DHCP_BOOTFILE [103; 0]; Opt DHCP_ROUTER [10; 0; 0; 1]]
    [255; 7; 7; 7; 7; 7; 7; 7; 7] 15 [255] 12).
  - repeat constructor; vm_compute; try (split; congruence); try lia; congruence.
  - repeat constructor; vm_compute; try (split; congruence); try lia; congruence.
  - cbn. split; [lia|]. split; [repeat constructor; unfold DHCP_BOOTFILE, DHCP_MSG_TYPE; lia|]. split; [lia|]. split; [|done].
    repeat constructor; unfold DHCP_BOOTFILE, DHCP_MSG_TYPE, DHCP_ROUTER; lia.
  - cbn. lia.
  - left. split; [cbn; lia | by eexists].
  - left. split; [cbn; lia | by eexists].
Defined.

(** The length of a combined option is stored modulo 256: 200 bytes and 100 bytes
    give an option of 44 bytes. *)
Example combine_wraps :
  (fun x => (nth 1 x.1.2 0, x.2)) <$> dhcp_merge_options (DHCP_BOOTFILE :: 200 :: replicate 1022 65) 202 (DHCP_BOOTFILE :: 100 :: replicate 100 66) 102 =
  Ok (44, 302).
Proof. vm_compute. reflexivity. Qed.

(** An option may claim more bytes than the field has. *)
Example decode_leaves_field : dhcp_decode_options (fun _ => true) (dhcp_magic ++ [DHCP_BOOTFILE; 200]) 6 (Pxe None None) = Fault.
Proof. reflexivity. Qed.
