(* ===== verification/Dns.v ===== *)
(** * lib/libnet/dns.c: the resolver

    The static variables are the record [dns_st], a part of what the protocols
    above IPv4 keep ([HasDns]).  urltohost and hosttodomain work on C strings in
    the memory of CMem.v; dns_extract_name and handle_dns on the bytes of a
    packet, with offsets from the DNS header on. *)

From Stdlib Require Import ZArith Lia ZifyNat.
From stdpp Require Import base list gmap option numbers.
From S2P Require Import Prelude CMem CString Conv Args Packet Timer Ipv4 Arp NetEnds Tftp DhcpOptions.

Definition DNS_FLAG_MSGTYPE : Z := 0xF800.
Definition DNS_FLAG_SQUERY : Z := 0x0000.
Definition DNS_FLAG_SRESPONSE : Z := 0x8000.
Definition DNS_FLAG_RD : Z := 0x0100.
Definition DNS_FLAG_RCODE : Z := 0x000F.
Definition DNS_RCODE_NERROR : Z := 0.
Definition DNS_QTYPE_A : Z := 1.
Definition DNS_QTYPE_AAAA : Z := 0x1c.
Definition DNS_QTYPE_CNAME : Z := 5.
Definition DNS_QCLASS_IN : Z := 1.

(** struct dnshdr *)
Definition dh_id : nat := 0.
Definition dh_flags : nat := 2.
Definition dh_qdcount : nat := 4.
Definition dh_ancount : nat := 6.
Definition DNSHDR : nat := 12.

(** The arrays of names are lists of 256 bytes. *)
Record dns_st := Dns {
  dns_server_ip : Z; dns_server_ipv6 : list Z; dns_result_ip : Z; dns_result_ipv6 : list Z; dns_error : Z;
  dns_domain_name : list Z; dns_domain_cname : list Z; handle_domain_name : list Z; host_name : list Z }.

Definition set_server_ip (v : Z) (d : dns_st) : dns_st :=
  Dns v (dns_server_ipv6 d) (dns_result_ip d) (dns_result_ipv6 d) (dns_error d) (dns_domain_name d) (dns_domain_cname d) (handle_domain_name d) (host_name d).
Definition set_server_ipv6 (v : list Z) (d : dns_st) : dns_st :=
  Dns (dns_server_ip d) v (dns_result_ip d) (dns_result_ipv6 d) (dns_error d) (dns_domain_name d) (dns_domain_cname d) (handle_domain_name d) (host_name d).
Definition set_result_ip (v : Z) (d : dns_st) : dns_st :=
  Dns (dns_server_ip d) (dns_server_ipv6 d) v (dns_result_ipv6 d) (dns_error d) (dns_domain_name d) (dns_domain_cname d) (handle_domain_name d) (host_name d).
Definition set_result_ipv6 (v : list Z) (d : dns_st) : dns_st :=
  Dns (dns_server_ip d) (dns_server_ipv6 d) (dns_result_ip d) v (dns_error d) (dns_domain_name d) (dns_domain_cname d) (handle_domain_name d) (host_name d).
Definition set_dns_error (v : Z) (d : dns_st) : dns_st :=
  Dns (dns_server_ip d) (dns_server_ipv6 d) (dns_result_ip d) (dns_result_ipv6 d) v (dns_domain_name d) (dns_domain_cname d) (handle_domain_name d) (host_name d).
Definition set_domain_name (v : list Z) (d : dns_st) : dns_st :=
  Dns (dns_server_ip d) (dns_server_ipv6 d) (dns_result_ip d) (dns_result_ipv6 d) (dns_error d) v (dns_domain_cname d) (handle_domain_name d) (host_name d).
Definition set_domain_cname (v : list Z) (d : dns_st) : dns_st :=
  Dns (dns_server_ip d) (dns_server_ipv6 d) (dns_result_ip d) (dns_result_ipv6 d) (dns_error d) (dns_domain_name d) v (handle_domain_name d) (host_name d).
Definition set_handle_name (v : list Z) (d : dns_st) : dns_st :=
  Dns (dns_server_ip d) (dns_server_ipv6 d) (dns_result_ip d) (dns_result_ipv6 d) (dns_error d) (dns_domain_name d) (dns_domain_cname d) v (host_name d).
Definition set_host_name (v : list Z) (d : dns_st) : dns_st :=
  Dns (dns_server_ip d) (dns_server_ipv6 d) (dns_result_ip d) (dns_result_ipv6 d) (dns_error d) (dns_domain_name d) (dns_domain_cname d) (handle_domain_name d) v.

(** ** Names as strings *)

(** The string literals. *)
Record url_literals := UrlLiterals { colon_slashes : Z; slashes : Z; at_sign : Z; slash : Z; colon : Z }.

Definition urltohost (lit : url_literals) (m : mem) (url host_name : Z) : res (Z * mem) :=
  m ← store8 m host_name 0;
  p ← strstr m url (colon_slashes lit);
  url ← (if negb (p =? 0) then q ← strstr m url (slashes lit); Ok (q + 2) else Ok url);
  p ← strstr m url (at_sign lit);
  let url := if negb (p =? 0) then p + 1 else url in
  p ← strstr m url (slash lit);
  length1 ← (if negb (p =? 0) then Ok (u16 (p - url)) else u16 <$> strlen m url);
  p ← strstr m url (colon lit);
  length2 ← (if negb (p =? 0) then Ok (u16 (p - url)) else u16 <$> strlen m url);
  let length1 := if length2 <? length1 then length2 else length1 in
  if length1 =? 0 then Ok (0, m) else
  if 256 <=? length1 then Ok (0, m) else
  '(_, m) ← strncpy m host_name url length1;
  m ← store8 m (host_name + length1) 0;
  Ok (1, m).

(** The labels from [label] on: [host_iter] runs to the end of a label. *)
Fixpoint domain_loop (fuel : nat) (m : mem) (label host_iter domain_name domain_iter : Z) : res (Z * mem) :=
  match fuel with
  | O => OutOfFuel
  | S fuel' =>
      c ← load8 m host_iter;
      if negb (c =? DOT) && negb (c =? 0) then domain_loop fuel' m label (host_iter + 1) domain_name domain_iter else
      m ← store8 m domain_iter (host_iter - label);
      n ← load8 m domain_iter;
      if 63 <? n then m ← store8 m domain_name 0; Ok (0, m) else
      '(_, m) ← strncpy m (domain_iter + 1) label (host_iter - label);
      let domain_iter := domain_iter + 1 + (host_iter - label) in
      c ← load8 m host_iter;
      if c =? 0 then m ← store8 m domain_iter 0; Ok (1, m)
      else domain_loop fuel' m (host_iter + 1) (host_iter + 1) domain_name domain_iter
  end.

(** A character is unsigned. *)
Definition hosttodomain (m : mem) (host_name domain_name : Z) : res (Z * mem) :=
  m ← store8 m domain_name 0;
  n ← strlen m host_name;
  if 255 <? n then Ok (0, m) else
  domain_loop (walk_fuel m) m host_name host_name domain_name domain_name.

(** ** Names in packets *)

(** [tail] counts the bytes stored in [domain_name].  A length byte from 0x80 on is
    negative, and memcpy leaves every array. *)
Fixpoint extract_loop (fuel : nat) (pkt : list Z) (ptr : nat) (domain_name : list Z) (tail : nat) (next_section : option nat)
    : res (option nat * list Z) :=
  match fuel with
  | O => OutOfFuel
  | S fuel' =>
      c ← rd 1 pkt ptr;
      if Z.land c 0xC0 =? 0xC0 then
        w ← rd 2 pkt ptr;
        extract_loop fuel' pkt (Z.to_nat (Z.land w 0x3FFF)) domain_name tail (Some (ptr + 2)%nat)
      else if c =? 0 then
        domain_name ← wr 1 domain_name tail 0;
        Ok (Some (default (ptr + 1)%nat next_section), domain_name)
      else
        let n := to_signed 8 c + 1 in
        if 255 <? Z.of_nat tail + n then domain_name ← wr 1 domain_name 0 0; Ok (None, domain_name) else
        if n <? 0 then Fault else
        bs ← rd_bytes (Z.to_nat n) pkt ptr;
        domain_name ← wr_bytes domain_name tail bs;
        extract_loop fuel' pkt (ptr + Z.to_nat n) domain_name (tail + Z.to_nat n) next_section
  end.

Definition dns_extract_name (fuel : nat) (dnsh : list Z) (head : nat) (domain_name : list Z) : res (option nat * list Z) :=
  extract_loop fuel dnsh head domain_name 0 None.

(** ** Messages from the server *)

Fixpoint question_loop (fuel n : nat) (dnsh : list Z) (resp : nat) (name : list Z) : res (option nat * list Z) :=
  match n with
  | O => Ok (Some resp, name)
  | S n' =>
      '(r, name) ← dns_extract_name fuel dnsh resp name;
      match r with
      | None => Ok (None, name)
      | Some resp => question_loop fuel n' dnsh (resp + 4) name
      end
  end.

Definition same_string (a b : list Z) : res bool := x ← array_str a; y ← array_str b; Ok (bool_decide (x = y)).

(** A record of another class is not skipped. *)
Fixpoint answer_loop (fuel n : nat) (dnsh : list Z) (resp : nat) (d : dns_st) : res (Z * dns_st) :=
  match n with
  | O => Ok (0, d)
  | S n' =>
      '(r, name) ← dns_extract_name fuel dnsh resp (handle_domain_name d);
      let d := set_handle_name name d in
      match r with
      | None => Ok (-1, d)
      | Some resp =>
          class ← rd 2 dnsh (resp + 2);
          if negb (class =? DNS_QCLASS_IN) then answer_loop fuel n' dnsh resp d else
          let next d := len ← rd 2 dnsh (resp + 8); answer_loop fuel n' dnsh (resp + (Z.to_nat len + 10)) d in
          same ← same_string name (dns_domain_name d);
          same ← (if same : bool then Ok true else same_string name (dns_domain_cname d));
          if same : bool then
            type ← rd 2 dnsh resp;
            if type =? DNS_QTYPE_A then
              ip ← rd 4 dnsh (resp + 10); Ok (0, set_result_ip ip d)
            else if type =? DNS_QTYPE_CNAME then
              '(c, cname) ← dns_extract_name fuel dnsh (resp + 10) (dns_domain_cname d);
              let d := set_domain_cname cname d in
              match c with None => Ok (-1, d) | Some _ => next d end
            else if type =? DNS_QTYPE_AAAA then
              ip ← rd_bytes 16 dnsh (resp + 10); Ok (0, set_result_ipv6 ip d)
            else next d
          else next d
      end
  end.

Definition handle_response (fuel : nat) (dnsh : list Z) (d : dns_st) : res (Z * dns_st) :=
  id ← rd 2 dnsh dh_id;
  if negb (id =? 0x1234) then Ok (0, d) else
  flags ← rd 2 dnsh dh_flags;
  if negb (Z.land flags DNS_FLAG_MSGTYPE =? DNS_FLAG_SRESPONSE) then Ok (0, d) else
  if negb (Z.land flags DNS_FLAG_RCODE =? DNS_RCODE_NERROR) then Ok (0, set_dns_error 1 d) else
  qdcount ← rd 2 dnsh dh_qdcount;
  '(r, name) ← question_loop fuel (Z.to_nat qdcount) dnsh DNSHDR (handle_domain_name d);
  let d := set_handle_name name d in
  match r with
  | None => Ok (-1, d)
  | Some resp => ancount ← rd 2 dnsh dh_ancount; answer_loop fuel (Z.to_nat ancount) dnsh resp d
  end.

(** ** The resolver on the stack *)

(** The state of the resolver as a part of a larger state. *)
Class HasDns (U : Type) := {
  get_dns : U -> dns_st;
  put_dns : dns_st -> U -> U;
  get_put_dns d u : get_dns (put_dns d u) = d;
  put_get_dns u : put_dns (get_dns u) u = u;
  put_put_dns d d' u : put_dns d (put_dns d' u) = put_dns d u;
}.

#[export] Instance dns_has_dns : HasDns dns_st.
Proof. refine {| get_dns d := d; put_dns d _ := d |}; done. Defined.

(** Where the memory for a name and its text lies: the literals, the array of
    the host name, that of the domain name, and the URL. *)
Definition LITERALS : url_literals := UrlLiterals 16 24 32 36 40.
Definition HOST : Z := 1024.
Definition DOMAIN : Z := 2048.
Definition URL : Z := 4096.
Definition name_mem (url host domain : list Z) : mem :=
  let m := write_bytes ∅ 16 [58; 47; 47; 0] in
  let m := write_bytes m 24 [47; 47; 0] in
  let m := write_bytes m 32 [64; 0] in
  let m := write_bytes m 36 [47; 0] in
  let m := write_bytes m 40 [58; 0] in
  write_bytes (write_bytes (write_bytes m HOST host) DOMAIN domain) URL url.

Section dns.
Context {U : Type} `{HasDns U} (send : list Z -> Z).
Implicit Type st : net U.
Context (send_ipv6 : nat -> (net U -> res (Z * net U)) -> net U -> list Z -> nat -> res (Z * net U)) (own_ip6 : list Z).

Definition ds st : dns_st := get_dns (up st).
Definition upd_dns (f : dns_st -> dns_st) st : net U := with_up st (put_dns (f (ds st)) (up st)).

(** [ipv6] is the address the pointer points to. *)
Definition dns_init st (ip : Z) (ipv6 : list Z) (ip_version : Z) : net U :=
  upd_dns (if ip_version =? 6 then set_server_ipv6 (take 16 ipv6) else set_server_ip ip) st.

(** [fuel] bounds the names: it is an argument of the handler. *)
Definition handle_dns (name_fuel : nat) (fuel : nat) (rx : net U -> res (Z * net U)) st (packet : ptr) (packetsize : Z)
    : res (Z * net U) :=
  '(r, d) ← handle_response name_fuel (packet_at st packet) (ds st);
  Ok (r, upd_dns (fun _ => d) st).

Definition fill_dnshdr (packet : list Z) (o : nat) (domain_name : list Z) (ip_version : Z) : res (list Z) :=
  packet ← wr 2 packet (o + dh_id) 0x1234;
  packet ← wr 2 packet (o + dh_flags) (Z.lor DNS_FLAG_SQUERY DNS_FLAG_RD);
  packet ← wr 2 packet (o + dh_qdcount) 1;
  name ← array_str domain_name;
  packet ← wr_bytes packet (o + DNSHDR) (name ++ [0]);
  let qry := (o + DNSHDR + length name + 1)%nat in
  packet ← wr 2 packet qry (if ip_version =? 4 then DNS_QTYPE_A else DNS_QTYPE_AAAA);
  wr 2 packet (qry + 2) DNS_QCLASS_IN.

(** The bytes of the array that are used are cleared first. *)
Definition dns_send_query (fuel : nat) (rx : net U -> res (Z * net U)) st (domain_name : list Z) (ip_version : Z) : res (net U) :=
  name ← array_str domain_name;
  let qry_len := (length name + 5)%nat in
  let iphdr_len := if ip_version =? 4 then IPHDR else IP6HDR in
  let packetsize := (iphdr_len + UDPHDR + DNSHDR + qry_len)%nat in
  packet ← fill_dnshdr (replicate ETH_MTU_SIZE 0) (iphdr_len + UDPHDR) domain_name ip_version;
  packet ← fill_udphdr packet iphdr_len (Z.of_nat (DNSHDR + UDPHDR + qry_len)) UDPPORT_DNSC UDPPORT_DNSS;
  packet ← (if ip_version =? 4
            then fill_iphdr packet 0 (Z.of_nat (DNSHDR + UDPHDR + iphdr_len + qry_len)) IPTYPE_UDP 0 (dns_server_ip (ds st))
            else fill_ip6hdr packet 0 (Z.of_nat (DNSHDR + UDPHDR + qry_len)) IPTYPE_UDP own_ip6 (dns_server_ipv6 (ds st)));
  '(_, st) ← call_send_ip send send_ipv6 fuel rx st packet packetsize;
  Ok st.

(** What the loops look for: an error, or the address. *)
Definition dns_answer (d : dns_st) (ip_version : Z) : option (option (list Z)) :=
  if negb (dns_error d =? 0) then Some None
  else if negb (dns_result_ip d =? 0) && (ip_version =? 4) then Some (Some (be_enc 4 (dns_result_ip d)))
  else if negb (hd 0 (dns_result_ipv6 d) =? 0) && (ip_version =? 6) then Some (Some (dns_result_ipv6 d))
  else None.

(** [rx] is receive_ether: the loop over the frames of a second. *)
Fixpoint dns_wait (fuel : nat) (rx : net U -> res (Z * net U)) st (ip_version : Z) : res (option (option (list Z)) * net U) :=
  match fuel with
  | O => OutOfFuel
  | S fuel' =>
      '(_, st) ← rx st;
      match dns_answer (ds st) ip_version with
      | Some r => Ok (Some r, st)
      | None => let '(more, st) := timer_left st in if more : bool then dns_wait fuel' rx st ip_version else Ok (None, st)
      end
  end.

Fixpoint dns_ask (n fuel depth : nat) (rx : net U -> res (Z * net U)) st (ip_version : Z) : res (option (list Z) * net U) :=
  match n with
  | O => Ok (None, st)
  | S n' =>
      cname ← array_str (dns_domain_cname (ds st));
      st ← dns_send_query depth rx st (if decide (cname = []) then dns_domain_name (ds st) else dns_domain_cname (ds st)) ip_version;
      '(r, st) ← dns_wait fuel rx (start_timer st) ip_version;
      match r with Some r => Ok (r, st) | None => dns_ask n' fuel depth rx st ip_version end
  end.

(** Up to thirty requests.  None where the function returns 0. *)
Definition dns_get_ip (fuel depth : nat) (rx : net U -> res (Z * net U)) st (url : list Z) (ip_version : Z) : res (option (list Z) * net U) :=
  let m := name_mem url (host_name (ds st)) (dns_domain_name (ds st)) in
  '(r, m) ← urltohost LITERALS m URL HOST;
  host ← load_bytes m HOST 256;
  let st := upd_dns (set_host_name host) st in
  if r =? 0 then Ok (None, st) else
  '(r, m) ← hosttodomain m HOST DOMAIN;
  domain ← load_bytes m DOMAIN 256;
  let st := upd_dns (set_domain_name domain) st in
  if r =? 0 then Ok (None, st) else
  if dns_server_ip (ds st) =? 0 then Ok (None, st) else
  cname ← wr 1 (dns_domain_cname (ds st)) 0 0;
  let st := upd_dns (fun d => set_domain_cname cname (set_dns_error 0
    (if ip_version =? 6 then set_result_ipv6 (replicate 16 0) d else set_result_ip 0 d))) st in
  dns_ask 30 fuel depth rx st ip_version.
End dns.

(** ** Names as lists of labels *)

(** A name in a message, up to the NUL that ends it. *)
Definition wire (l : list (list Z)) : list Z := l ≫= fun a => Z.of_nat (length a) :: a.

Definition label_ok (a : list Z) : Prop := (0 < length a < 64)%nat /\ Forall (fun b => 0 < b < 256) a.

Lemma wire_cons a l : wire (a :: l) = Z.of_nat (length a) :: a ++ wire l.
Proof. done. Qed.

(** ** hosttodomain *)

Section hosttodomain.
Context (domain_name : Z).

(** The characters of a label are passed. *)
Lemma domain_label a : forall fuel m label p rest it, cstr m p (a ++ rest) -> DOT ∉ a ->
  domain_loop (length a + fuel) m label p domain_name it = domain_loop fuel m label (p + Z.of_nat (length a)) domain_name it.
Proof.
  induction a as [|c a IH]; intros fuel m label p rest it Hs Hn; [by rewrite Z.add_0_r|]. cbn [length plus domain_loop app] in *.
  rewrite (cstr_head _ _ _ Hs). res_simpl. cbn [hd]. apply cstr_cons in Hs as (_ & Hb & Hs). apply not_elem_of_cons in Hn as [Hne Hn].
  rewrite (proj2 (Z.eqb_neq c DOT)), (proj2 (Z.eqb_neq c 0)) by (congruence || lia). cbn [negb andb].
  rewrite (IH _ _ _ _ _ _ Hs Hn). f_equal. lia.
Qed.

(** Its end: the length is stored in front of the characters. *)
Lemma domain_dot fuel m label a rest it : cstr m label (a ++ rest) -> hd 0 rest = DOT \/ rest = [] -> (length a < 64)%nat ->
  mapped m it (2 + Z.of_nat (length a)) -> apart_from it (2 + Z.of_nat (length a)) label (a ++ rest) ->
  domain_loop (S fuel) m label (label + Z.of_nat (length a)) domain_name it =
    let m' := write_bytes m it (Z.of_nat (length a) :: a) in
    let it := it + 1 + Z.of_nat (length a) in
    if decide (rest = []) then Ok (1, write_bytes m' it [0])
    else domain_loop fuel m' (label + Z.of_nat (length a) + 1) (label + Z.of_nat (length a) + 1) domain_name it.
Proof.
  intros Hs Hr Hl Hm Ha. cbn [domain_loop]. pose proof (cstr_app_r _ _ _ _ Hs) as Hs'.
  rewrite (cstr_head _ _ _ Hs'). res_simpl.
  replace (negb (hd 0 rest =? DOT) && negb (hd 0 rest =? 0)) with false by (by destruct Hr as [-> | ->]).
  rewrite Z.add_simpl_l. rewrite (mapped_store8 _ it _ it _ Hm) by lia. res_simpl. rewrite u8_small by lia.
  set (m1 := <[it:=_]> m). assert (load8 m1 it = Ok (Z.of_nat (length a))) as -> by (unfold load8, m1; by rewrite lookup_insert_eq).
  res_simpl. rewrite (proj2 (Z.ltb_ge 63 _)) by lia. unfold apart_from in Ha. rewrite length_app in Ha.
  assert (Hf : forall m2 p s, same_outside m m2 it (it + (2 + Z.of_nat (length a))) -> cstr m p s -> label <= p -> p + Z.of_nat (length s) <= label + Z.of_nat (length (a ++ rest)) -> cstr m2 p s).
  { intros m2 p s Hso Hp H1 H2. rewrite length_app in H2. eapply cstr_frame; [exact Hso | exact Hp | lia]. }
  assert (Hs1 : cstr m1 label (a ++ rest)).
  { apply Hf; [|done|lia|lia]. intros b Hb. apply lookup_insert_ne. lia. }
  unfold strncpy. rewrite Nat2Z.id. rewrite (strncpy_loop_spec _ _ _ _ _ Hs1).
  2: { apply mapped_insert. intros b Hb. apply Hm. lia. }
  2: { rewrite length_app. lia. }
  res_simpl. rewrite <- app_assoc, take_app_length. change (write_bytes m1 (it + 1) a) with (write_bytes (<[it := Z.of_nat (length a)]> m) (it + 1) a).
  rewrite write_bytes_insert_head. set (m2 := write_bytes m it _).
  assert (Hs2 : cstr m2 (label + Z.of_nat (length a)) rest).
  { apply Hf; [|exact Hs'|lia|rewrite length_app; lia]. intros b Hb. apply write_bytes_outside. cbn [length]. lia. }
  rewrite (cstr_head _ _ _ Hs2). res_simpl. destruct (decide (rest = [])) as [-> | Hne].
  - cbn [hd Z.eqb]. rewrite (mapped_store8 _ it (2 + Z.of_nat (length a))) by (lia || by apply mapped_write_bytes). done.
  - destruct Hr as [-> | ?]; done.
Qed.

Lemma domain_loop_spec l : forall fuel m label it, l <> [] -> cstr m label (joined DOT l) -> Forall (fun a => DOT ∉ a /\ (length a < 64)%nat) l ->
  (length (joined DOT l) < fuel)%nat -> mapped m it (1 + Z.of_nat (length (wire l))) -> apart_from it (1 + Z.of_nat (length (wire l))) label (joined DOT l) ->
  domain_loop fuel m label label domain_name it = Ok (1, write_bytes m it (wire l ++ [0])).
Proof.
  induction l as [|a l IH]; intros fuel m label it Hne Hs Hl Hf Hm Ha; [done|]. apply Forall_cons_1 in Hl as [[Hn Ha64] Hl].
  rewrite wire_cons in *. unfold apart_from in Ha. cbn [length] in Hm, Ha. rewrite length_app in Hm, Ha.
  assert (Hm' : mapped m it (2 + Z.of_nat (length a))) by (intros b Hb; apply Hm; lia).
  destruct (decide (l = [])) as [-> | Hle].
  - cbn [joined wire mbind list_bind length] in *. rewrite app_nil_r in *. rewrite <- (app_nil_r a) in Hs.
    replace fuel with (length a + S (fuel - S (length a)))%nat by lia. rewrite (domain_label a _ _ _ _ _ _ Hs Hn).
    rewrite (domain_dot _ _ _ a [] _ Hs) by (auto || unfold apart_from; rewrite ?length_app; cbn [length]; lia).
    cbv zeta. rewrite decide_True by done. replace (it + 1 + Z.of_nat (length a)) with (it + Z.of_nat (length (Z.of_nat (length a) :: a))) by (cbn [length]; lia).
    by rewrite write_bytes_seq.
  - rewrite joined_cons in * by done. rewrite length_app in Hf, Ha. cbn [length] in Hf, Ha.
    replace fuel with (length a + S (fuel - S (length a)))%nat by lia. rewrite (domain_label a _ _ _ _ _ _ Hs Hn).
    rewrite (domain_dot _ _ _ a _ _ Hs) by (auto || unfold apart_from; rewrite ?length_app; cbn [length]; lia).
    cbv zeta. rewrite decide_False by done.
    replace (it + 1 + Z.of_nat (length a)) with (it + Z.of_nat (length (Z.of_nat (length a) :: a))) by (cbn [length]; lia).
    rewrite IH; [rewrite write_bytes_seq; cbn [app]; by rewrite <- app_assoc | done | | done | lia | | ].
    + apply cstr_app_r, cstr_cons in Hs as (_ & _ & Hs). eapply cstr_frame; [apply write_bytes_same_outside | exact Hs|]. cbn [length]. lia.
    + apply mapped_write_bytes. intros b Hb. cbn [length] in Hb. apply Hm. lia.
    + unfold apart_from. cbn [length]. lia.
Qed.

Lemma domain_loop_long l bad l2 : forall fuel m label it, cstr m label (joined DOT (l ++ bad :: l2)) -> Forall (fun a => DOT ∉ a /\ (length a < 64)%nat) l ->
  DOT ∉ bad -> (64 <= length bad < 256)%nat -> (length (joined DOT (l ++ bad :: l2)) < fuel)%nat ->
  mapped m it (2 + Z.of_nat (length (wire l))) -> is_Some (m !! domain_name) -> apart_from it (2 + Z.of_nat (length (wire l))) label (joined DOT (l ++ bad :: l2)) ->
  exists m', domain_loop fuel m label label domain_name it = Ok (0, m') /\ m' !! domain_name = Some 0.
Proof.
  induction l as [|a l IH]; intros fuel m label it Hs Hl Hbad Hlen Hf Hm Hd Ha; cbn [app] in *.
  - assert (exists rest, joined DOT (bad :: l2) = bad ++ rest /\ (hd 0 rest = DOT \/ rest = [])) as (rest & E & Hr).
    { destruct l2 as [|b l2]; [exists []; cbn [joined]; rewrite app_nil_r; auto|]. rewrite joined_cons by done. eauto. }
    rewrite E, length_app in *. replace fuel with (length bad + S (fuel - S (length bad)))%nat by lia. rewrite (domain_label bad _ _ _ _ _ _ Hs Hbad).
    cbn [domain_loop]. pose proof (cstr_app_r _ _ _ _ Hs) as Hs'. rewrite (cstr_head _ _ _ Hs'). res_simpl.
    replace (negb (hd 0 rest =? DOT) && negb (hd 0 rest =? 0)) with false by (by destruct Hr as [-> | ->]).
    rewrite Z.add_simpl_l, (mapped_store8 _ it _ it _ Hm) by lia. res_simpl. rewrite u8_small by lia.
    set (m1 := <[it:=_]> m). assert (load8 m1 it = Ok (Z.of_nat (length bad))) as -> by (unfold load8, m1; by rewrite lookup_insert_eq).
    res_simpl. rewrite (proj2 (Z.ltb_lt 63 _)) by lia. rewrite (mapped_store8 m1 domain_name 1); [|apply mapped_insert; intros b Hb; by replace b with domain_name by lia | lia].
    res_simpl. eexists. split; [done | apply lookup_insert_eq].
  - apply Forall_cons_1 in Hl as [[Hn Ha64] Hl]. rewrite wire_cons in *. unfold apart_from in Ha. cbn [length] in Hm, Ha. rewrite length_app in Hm, Ha.
    assert (Hm' : mapped m it (2 + Z.of_nat (length a))) by (intros b Hb; apply Hm; lia).
    rewrite joined_cons in * by (by destruct l). rewrite length_app in Hf, Ha. cbn [length] in Hf, Ha.
    replace fuel with (length a + S (fuel - S (length a)))%nat by lia. rewrite (domain_label a _ _ _ _ _ _ Hs Hn).
    rewrite (domain_dot _ _ _ a _ _ Hs) by (auto || unfold apart_from; rewrite ?length_app; cbn [length]; lia).
    cbv zeta. rewrite decide_False by done. apply IH; [ | done | done | done | lia | | | ].
    + apply cstr_app_r, cstr_cons in Hs as (_ & _ & Hs). eapply cstr_frame; [apply write_bytes_same_outside | exact Hs|]. cbn [length]. lia.
    + apply mapped_write_bytes. intros b Hb. apply Hm. lia.
    + apply elem_of_dom. rewrite write_bytes_dom; [by apply elem_of_dom|]. cbn [length]. intros b Hb. apply Hm. lia.
    + unfold apart_from. lia.
Qed.
End hosttodomain.

(** What hosttodomain stores for a host name. *)
Lemma hosttodomain_spec m host domain l : l <> [] -> cstr m host (joined DOT l) -> Forall (fun a => DOT ∉ a /\ (length a < 64)%nat) l ->
  (length (joined DOT l) < 256)%nat -> mapped m domain (1 + Z.of_nat (length (wire l))) ->
  apart_from domain (1 + Z.of_nat (length (wire l))) host (joined DOT l) ->
  hosttodomain m host domain = Ok (1, write_bytes m domain (wire l ++ [0])).
Proof.
  intros Hne Hs Hl Hlen Hm Ha. unfold hosttodomain. rewrite (mapped_store8 _ domain _ _ _ Hm) by lia. res_simpl. change (u8 0) with 0.
  set (m1 := <[domain:=0]> m). assert (Hs1 : cstr m1 host (joined DOT l)).
  { eapply (cstr_frame m _ _ _ domain (domain + 1)); [|exact Hs | unfold apart_from in Ha; lia]. intros b Hb. apply lookup_insert_ne. lia. }
  rewrite (strlen_spec _ _ _ Hs1) by lia. res_simpl. rewrite (proj2 (Z.ltb_ge 255 _)) by lia.
  rewrite (domain_loop_spec domain l _ _ _ _ Hne Hs1 Hl); [|pose proof (cstr_length _ _ _ Hs1); unfold walk_fuel; lia | by apply mapped_insert | done].
  do 2 f_equal. subst m1. apply map_eq. intros b. rewrite !write_bytes_lookup, length_app. cbn [length]. case_decide; [done|].
  apply lookup_insert_ne. lia.
Qed.

(** ** Names in a message *)

(** The name at an offset, the offset behind it, and the number of references
    its compression follows. *)
Inductive name_at (pkt : list Z) : nat -> list (list Z) -> nat -> nat -> Prop :=
  | name_end p : pkt !! p = Some 0 -> name_at pkt p [] (p + 1) 0
  | name_label p a l e j : label_ok a -> take (1 + length a) (drop p pkt) = Z.of_nat (length a) :: a ->
      name_at pkt (p + (1 + length a)) l e j -> name_at pkt p (a :: l) e j
  | name_reference p w l e j : rd 2 pkt p = Ok w -> 0xC000 <= w < 2 ^ 16 -> Forall byte (take 2 (drop p pkt)) ->
      name_at pkt (Z.to_nat (Z.land w 0x3FFF)) l e j -> name_at pkt p l (p + 2) (S j).

Lemma take_cons_lookup (l : list Z) p n v t : take n (drop p l) = v :: t -> l !! p = Some v.
Proof.
  intros E. assert (take n (drop p l) !! 0%nat = Some v) as H by by rewrite E. apply lookup_take_Some in H as [H _].
  by rewrite lookup_drop, Nat.add_0_r in H.
Qed.

(** The two upper bits of a length byte. *)
Lemma upper_bits c : byte c -> (Z.land c 0xC0 =? 0xC0) = (192 <=? c).
Proof.
  intros Hc. assert (forallb (fun k => Bool.eqb (Z.land (Z.of_nat k) 0xC0 =? 0xC0) (192 <=? Z.of_nat k)) (seq 0 256) = true) as H by reflexivity.
  rewrite forallb_forall in H. apply eqb_prop. replace c with (Z.of_nat (Z.to_nat c)) by (unfold byte in Hc; lia).
  apply H, in_seq. unfold byte in Hc. lia.
Qed.

(** The first byte of a reference. *)
Lemma reference_byte pkt p w : rd 2 pkt p = Ok w -> 0xC000 <= w < 2 ^ 16 -> Forall byte (take 2 (drop p pkt)) ->
  exists c, rd 1 pkt p = Ok c /\ (Z.land c 0xC0 =? 0xC0) = true.
Proof.
  intros [Hl ->]%rd_inv Hw Hb. destruct (take 2 (drop p pkt)) as [|c [|d [|]]] eqn:E.
  1,2,4: apply (f_equal length) in E; rewrite length_take, length_drop in E; cbn [length] in E; lia.
  exists c. split; [apply rd1; by eapply take_cons_lookup|]. apply Forall_cons_1 in Hb as [Hc Hb]. apply Forall_cons_1 in Hb as [Hd _].
  rewrite upper_bits by done. unfold byte in *. cbn in Hw. apply Z.leb_le. lia.
Qed.

Lemma extract_end fuel pkt p dom tail next : pkt !! p = Some 0 -> (tail < length dom)%nat ->
  extract_loop (S fuel) pkt p dom tail next = Ok (Some (default (p + 1)%nat next), splice dom tail [0]).
Proof. intros Hp Ht. cbn [extract_loop]. rewrite (rd1 _ _ _ Hp). res_simpl. cbn [Z.land Z.eqb]. rewrite wr_spec by lia. done. Qed.

Lemma extract_label fuel pkt p dom tail next a : label_ok a -> take (1 + length a) (drop p pkt) = Z.of_nat (length a) :: a ->
  (tail + 1 + length a <= 255)%nat -> (tail + 1 + length a <= length dom)%nat ->
  extract_loop (S fuel) pkt p dom tail next =
    extract_loop fuel pkt (p + (1 + length a)) (splice dom tail (Z.of_nat (length a) :: a)) (tail + (1 + length a)) next.
Proof.
  intros [Hl _] E Ht Hd. cbn [extract_loop]. rewrite (rd1 _ _ _ (take_cons_lookup _ _ _ _ _ E)). res_simpl.
  rewrite upper_bits by (unfold byte; lia). rewrite (proj2 (Z.leb_gt 192 _)) by lia. rewrite (proj2 (Z.eqb_neq _ 0)) by lia.
  replace (to_signed 8 (Z.of_nat (length a))) with (Z.of_nat (length a)).
  2: { unfold to_signed. rewrite Z.mod_small by lia. by rewrite (proj2 (Z.ltb_lt _ _)) by (cbn; lia). }
  rewrite (proj2 (Z.ltb_ge 255 _)), (proj2 (Z.ltb_ge _ 0)) by lia. replace (Z.to_nat (Z.of_nat (length a) + 1)) with (1 + length a)%nat by lia.
  assert (p + (1 + length a) <= length pkt)%nat.
  { apply (f_equal length) in E. rewrite length_take, length_drop in E. cbn [length] in E. lia. }
  rewrite rd_bytes_spec by lia. res_simpl. rewrite E. rewrite wr_bytes_spec by (cbn [length]; lia). done.
Qed.

Lemma extract_reference fuel pkt p dom tail next w : rd 2 pkt p = Ok w -> 0xC000 <= w < 2 ^ 16 -> Forall byte (take 2 (drop p pkt)) ->
  extract_loop (S fuel) pkt p dom tail next = extract_loop fuel pkt (Z.to_nat (Z.land w 0x3FFF)) dom tail (Some (p + 2)%nat).
Proof.
  intros Hw Hr Hb. destruct (reference_byte _ _ _ Hw Hr Hb) as (c & Ec & E). cbn [extract_loop]. rewrite Ec. res_simpl. rewrite E, Hw. done.
Qed.

(** Stores one behind the other. *)
Lemma splice_then bs t x y : (t + length x + length y <= length bs)%nat -> splice (splice bs t x) (t + length x) y = splice bs t (x ++ y).
Proof.
  intros H. apply list_eq. intros i. rewrite !splice_lookup by (rewrite ?splice_lookup, ?splice_length, ?length_app; lia). rewrite length_app.
  repeat case_decide; try lia; try done; [rewrite lookup_app_r by lia; f_equal; lia | by rewrite lookup_app_l by lia].
Qed.

(** A name is stored from [tail] on, and what is returned when there are no references. *)
Lemma extract_loop_spec pkt p l e j : name_at pkt p l e j -> forall fuel dom tail next,
  (length l + j < fuel)%nat -> (tail + length (wire l) <= 255)%nat -> length dom = 256%nat ->
  exists r, extract_loop fuel pkt p dom tail next = Ok (Some r, splice dom tail (wire l ++ [0])) /\
    (j = O -> r = default e next) /\ (j = 1%nat -> next = None -> r = e).
Proof.
  induction 1 as [p Hp | p a l e j Ha E Hn IH | p w l e j Hw Hr Hb Hn IH]; intros fuel dom tail next Hf Ht Hd; (destruct fuel as [|fuel]; [lia|]).
  - rewrite extract_end by (done || lia). eexists. split; [done|]. by split.
  - rewrite wire_cons in *. cbn [length] in *. rewrite length_app in Ht. rewrite (extract_label _ _ _ _ _ _ a) by (done || lia).
    destruct (IH fuel (splice dom tail (Z.of_nat (length a) :: a)) (tail + (1 + length a))%nat next) as (r & -> & H0 & H1); [lia | lia | rewrite splice_length; cbn [length]; lia|].
    exists r. split; [|by split]. do 2 f_equal. change (1 + length a)%nat with (length (Z.of_nat (length a) :: a)).
    rewrite splice_then by (rewrite length_app; cbn [length]; lia). cbn [app]. by rewrite <- app_assoc.
  - rewrite (extract_reference _ _ _ _ _ _ w) by done.
    destruct (IH fuel dom tail (Some (p + 2)%nat)) as (r & -> & H0 & H1); [lia | done | done|].
    exists r. split; [done|]. split; [done|]. intros [= ->] ->. by rewrite H0.
Qed.

Lemma extract_loop_long pkt p l e j : name_at pkt p l e j -> forall fuel dom tail next,
  (length l + j < fuel)%nat -> (tail <= 255 < tail + length (wire l))%nat -> length dom = 256%nat ->
  exists dom', extract_loop fuel pkt p dom tail next = Ok (None, dom') /\ dom' !! 0%nat = Some 0.
Proof.
  induction 1 as [p Hp | p a l e j Ha E Hn IH | p w l e j Hw Hr Hb Hn IH]; intros fuel dom tail next Hf Ht Hd; (destruct fuel as [|fuel]; [lia|]).
  - cbn [wire mbind list_bind length] in Ht. lia.
  - rewrite wire_cons in Ht. cbn [length] in *. rewrite length_app in Ht. destruct (decide (tail + 1 + length a <= 255)%nat).
    + rewrite (extract_label _ _ _ _ _ _ a) by (done || lia). apply IH; [lia | lia | rewrite splice_length; cbn [length]; lia].
    + destruct Ha as [Hl _]. cbn [extract_loop]. rewrite (rd1 _ _ _ (take_cons_lookup _ _ _ _ _ E)). res_simpl.
      rewrite upper_bits by (unfold byte; lia). rewrite (proj2 (Z.leb_gt 192 _)), (proj2 (Z.eqb_neq _ 0)) by lia.
      replace (to_signed 8 (Z.of_nat (length a))) with (Z.of_nat (length a)).
      2: { unfold to_signed. rewrite Z.mod_small by lia. by rewrite (proj2 (Z.ltb_lt _ _)) by (cbn; lia). }
      rewrite (proj2 (Z.ltb_lt 255 _)), wr_spec by lia. res_simpl. eexists. split; [done|].
      rewrite splice_lookup by (cbn; lia). done.
  - rewrite (extract_reference _ _ _ _ _ _ w) by done. apply IH; done || lia.
Qed.

(** The bytes of a name are a name without references. *)
Lemma wire_name_at l : forall pre post, Forall label_ok l ->
  name_at (pre ++ (wire l ++ [0]) ++ post) (length pre) l (length pre + length (wire l) + 1) 0.
Proof.
  induction l as [|a l IH]; intros pre post Hl.
  - cbn [wire mbind list_bind app length]. rewrite Nat.add_0_r. apply name_end. by apply list_lookup_middle.
  - apply Forall_cons_1 in Hl as [Ha Hl]. rewrite wire_cons. apply name_label; [done| |].
    + rewrite drop_app_length. cbn [app take plus]. f_equal. rewrite <- !app_assoc. apply take_app_length.
    + specialize (IH (pre ++ Z.of_nat (length a) :: a) post Hl). rewrite !length_app in IH. cbn [length] in *. rewrite length_app.
      replace ((pre ++ Z.of_nat (length a) :: a) ++ (wire l ++ [0]) ++ post) with (pre ++ ((Z.of_nat (length a) :: a ++ wire l) ++ [0]) ++ post) in IH.
      * replace (length pre + S (length a + length (wire l)) + 1)%nat with (length pre + S (length a) + length (wire l) + 1)%nat by lia. exact IH.
      * rewrite <- !app_assoc. cbn [app]. by rewrite <- !app_assoc.
Qed.

(** C22: hosttodomain makes of a host name, labels of up to 63 characters with dots between them, the labels with a byte for
    the length before each and a NUL behind the last (RFC 1035), and stores nothing else; dns_extract_name reads these
    bytes from a message that holds them, unchanged, and finds what follows them. *)
Theorem dns_name_roundtrip m host domain l pre post dom fuel : l <> [] -> cstr m host (joined DOT l) ->
  Forall (fun a => DOT ∉ a /\ label_ok a) l -> (length (wire l) < 256)%nat -> mapped m domain (1 + Z.of_nat (length (wire l))) ->
  apart_from domain (1 + Z.of_nat (length (wire l))) host (joined DOT l) -> length dom = 256%nat -> (length l < fuel)%nat ->
  hosttodomain m host domain = Ok (1, write_bytes m domain (wire l ++ [0])) /\
  dns_extract_name fuel (pre ++ (wire l ++ [0]) ++ post) (length pre) dom =
    Ok (Some (length pre + length (wire l) + 1)%nat, splice dom 0 (wire l ++ [0])).
Proof.
  intros Hne Hs Hl Hw Hm Ha Hd Hf.
  assert (Hj : S (length (joined DOT l)) = length (wire l)).
  { clear - Hne. induction l as [|a l IH]; [done|]. rewrite wire_cons. cbn [length]. rewrite length_app. destruct (decide (l = [])) as [-> | Hl].
    - cbn. lia.
    - rewrite joined_cons, length_app by done. cbn [length]. rewrite IH by done. lia. }
  split; [apply hosttodomain_spec; try done; [|lia]|].
  { eapply List.Forall_impl; [|exact Hl]. intros a [? [? _]]. split; [done | lia]. }
  destruct (extract_loop_spec _ _ _ _ _ (wire_name_at l pre post ltac:(eapply List.Forall_impl; [|exact Hl]; by intros a [_ ?])) fuel dom 0 None)
    as (r & E & Er & _); [lia | lia | done|]. unfold dns_extract_name. by rewrite E, Er by done.
Qed.

(** A name of a message with at most one reference is stored as its labels, and what follows it is found; a name of more than 255 bytes is
    refused, and the string is empty then. *)
Theorem dns_extract_correct pkt p l e j dom fuel : name_at pkt p l e j -> (j <= 1)%nat -> length dom = 256%nat -> (length l + 1 < fuel)%nat ->
  if decide (length (wire l) <= 255)%nat then dns_extract_name fuel pkt p dom = Ok (Some e, splice dom 0 (wire l ++ [0]))
  else exists dom', dns_extract_name fuel pkt p dom = Ok (None, dom') /\ array_str dom' = Ok [].
Proof.
  intros Hn Hj Hd Hf. unfold dns_extract_name. case_decide as Hw.
  - destruct (extract_loop_spec _ _ _ _ _ Hn fuel dom 0 None) as (r & -> & H0 & H1); [lia | lia | done|].
    destruct j as [|[|j]]; [by rewrite H0 | by rewrite H1 | lia].
  - destruct (extract_loop_long _ _ _ _ _ Hn fuel dom 0 None) as (dom' & -> & Hz); [lia | lia | done|].
    exists dom'. split; [done|]. destruct dom' as [|c dom']; [done|]. injection Hz as ->. done.
Qed.

(** A reference to itself is followed for ever. *)
Lemma reference_loop pre post dom tail next fuel : Z.of_nat (length pre) < 0x4000 ->
  extract_loop fuel (pre ++ be_enc 2 (0xC000 + Z.of_nat (length pre)) ++ post) (length pre) dom tail next = OutOfFuel.
Proof.
  intros Hl. revert next. induction fuel as [|fuel IH]; intros next; [done|]. set (pkt := pre ++ _). set (w := 0xC000 + Z.of_nat (length pre)) in *.
  assert (Hw : 0xC000 <= w < 2 ^ 16) by (subst w; lia).
  assert (Er : rd 2 pkt (length pre) = Ok w) by (apply rd_app; cbn; lia).
  rewrite (extract_reference _ _ _ _ _ _ w Er Hw).
  - assert (Z.to_nat (Z.land w 0x3FFF) = length pre) as ->; [|apply IH].
    change 0x3FFF with (Z.ones 14). rewrite Z.land_ones by lia. subst w. rewrite Z.add_mod, (Z.mod_small (Z.of_nat _)) by lia. change (0xC000 mod 2 ^ 14) with 0.
    rewrite Z.add_0_l, Z.mod_small by lia. lia.
  - subst pkt. rewrite drop_app_length. rewrite take_app_le by (rewrite be_enc_length; lia). rewrite take_ge by (by rewrite be_enc_length). apply be_enc_bytes.
Qed.

(** The second reference of a name hides the end of the first. *)
Example two_references :
  fst <$> dns_extract_name 10 [1; 97; 0; 0xC0; 0; 0xC0; 3; 9] 5 (replicate 256 0) = Ok (Some 5%nat).
Proof. reflexivity. Qed.

(** ** Answers *)

Lemma name_at_ok pkt p l e j : name_at pkt p l e j -> Forall label_ok l.
Proof. by induction 1; [|constructor|]. Qed.

Lemma wire_count l : (length l <= length (wire l))%nat.
Proof. induction l as [|a l IH]; [done|]. rewrite wire_cons. cbn [length]. rewrite length_app. lia. Qed.

Lemma wire_inj l l' : wire l = wire l' -> l = l'.
Proof.
  revert l'. induction l as [|a l IH]; intros [|b l'] E; try done. rewrite !wire_cons in E. injection E as El E.
  apply app_inj_1 in E as [-> E]; [by f_equal; apply IH | lia].
Qed.

(** The string an array holds. *)
Definition named (array : list Z) (l : list (list Z)) : Prop := length array = 256%nat /\ array_str array = Ok (wire l).

Lemma array_str_app s rest : Forall (fun b => b <> 0) s -> array_str (s ++ 0 :: rest) = Ok s.
Proof. induction 1 as [|c s Hc _ IH]; [done|]. cbn [app array_str]. by rewrite (proj2 (Z.eqb_neq c 0)), IH. Qed.

Lemma wire_no_nul l : Forall label_ok l -> Forall (fun b => b <> 0) (wire l).
Proof.
  induction 1 as [|a l [Ha Hb] _ IH]; [constructor|]. rewrite wire_cons. constructor; [lia|]. apply Forall_app. split; [|done].
  eapply List.Forall_impl; [|exact Hb]. cbn. lia.
Qed.

Lemma named_splice dom l : length dom = 256%nat -> Forall label_ok l -> (length (wire l) <= 255)%nat -> named (splice dom 0 (wire l ++ [0])) l.
Proof.
  intros Hd Hl Hw. split; [rewrite splice_length; rewrite ?length_app; cbn; lia|]. unfold splice. rewrite take_0. cbn [app]. rewrite <- app_assoc. cbn [app].
  by apply array_str_app, wire_no_nul.
Qed.

Lemma same_string_named a b l l' : named a l -> named b l' -> same_string a b = Ok (bool_decide (l = l')).
Proof.
  intros [_ Ea] [_ Eb]. unfold same_string. rewrite Ea, Eb. res_simpl. f_equal. apply bool_decide_ext. split; [apply wire_inj | by intros ->].
Qed.

Inductive rdata := RA (ip : Z) | RCname (l : list (list Z)) | RAaaa (ip6 : list Z) | ROther (type : Z).
Record rr := Rr { owner : list (list Z); data : rdata }.

(** What a resolver takes from the answers: an address, and the canonical name. *)
Fixpoint resolved (name cname : list (list Z)) (l : list rr) : option (Z + list Z) * list (list Z) :=
  match l with
  | [] => (None, cname)
  | r :: l' =>
      if bool_decide (owner r = name) || bool_decide (owner r = cname) then
        match data r with
        | RA ip => (Some (inl ip), cname)
        | RAaaa ip6 => (Some (inr ip6), cname)
        | RCname c => resolved name c l'
        | ROther _ => resolved name cname l'
        end
      else resolved name cname l'
  end.

(** A name that is read right: at most one reference, where its end matters. *)
Definition readable pkt p l e : Prop := exists j, name_at pkt p l e j /\ (j <= 1)%nat /\ (length (wire l) <= 255)%nat.

Inductive questions_at (pkt : list Z) : nat -> nat -> nat -> Prop :=
  | questions_none p : questions_at pkt p 0 p
  | questions_one p l e n p' : readable pkt p l e -> questions_at pkt (e + 4) n p' -> questions_at pkt p (S n) p'.

Definition data_at (pkt : list Z) (q : nat) (r : rdata) : Prop :=
  match r with
  | RA ip => rd 2 pkt q = Ok DNS_QTYPE_A /\ rd 4 pkt (q + 10) = Ok ip
  | RCname l => rd 2 pkt q = Ok DNS_QTYPE_CNAME /\ exists e j, name_at pkt (q + 10) l e j /\ (j <= 40)%nat /\ (length (wire l) <= 255)%nat
  | RAaaa ip6 => rd 2 pkt q = Ok DNS_QTYPE_AAAA /\ rd_bytes 16 pkt (q + 10) = Ok ip6
  | ROther t => rd 2 pkt q = Ok t /\ t <> DNS_QTYPE_A /\ t <> DNS_QTYPE_CNAME /\ t <> DNS_QTYPE_AAAA
  end.

Inductive answers_at (pkt : list Z) : nat -> list rr -> Prop :=
  | answers_none p : answers_at pkt p []
  | answers_one p r q len l : readable pkt p (owner r) q -> rd 2 pkt (q + 2) = Ok DNS_QCLASS_IN -> data_at pkt q (data r) ->
      rd 2 pkt (q + 8) = Ok len -> answers_at pkt (q + (Z.to_nat len + 10)) l -> answers_at pkt p (r :: l).

Section answers.
Context (fuel : nat) (Hfuel : (300 <= fuel)%nat) (pkt : list Z).

Lemma extract_readable p l e dom : readable pkt p l e -> length dom = 256%nat ->
  exists dom', dns_extract_name fuel pkt p dom = Ok (Some e, dom') /\ named dom' l.
Proof using Hfuel.
  intros (j & Hn & Hj & Hw) Hd. pose proof (wire_count l).
  destruct (extract_loop_spec _ _ _ _ _ Hn fuel dom 0 None) as (r & E & H0 & H1); [lia | lia | done|].
  unfold dns_extract_name. rewrite E. eexists. split; [|apply named_splice; [done | by eapply name_at_ok | done]].
  destruct j as [|[|j]]; [by rewrite H0 | by rewrite H1 | lia].
Qed.

Lemma question_loop_spec p n p' : questions_at pkt p n p' -> forall dom, length dom = 256%nat ->
  exists dom', question_loop fuel n pkt p dom = Ok (Some p', dom') /\ length dom' = 256%nat.
Proof using Hfuel.
  induction 1 as [p | p l e n p' Hr _ IH]; intros dom Hd; [by exists dom|]. cbn [question_loop].
  destruct (extract_readable _ _ _ dom Hr Hd) as (dom1 & -> & [Hd1 _]). res_simpl. by apply IH.
Qed.

(** What the answers change. *)
Record answered (d : dns_st) (found : option (Z + list Z)) (cname : list (list Z)) (d' : dns_st) : Prop := {
  an_cname : named (dns_domain_cname d') cname;
  an_ip : dns_result_ip d' = match found with Some (inl ip) => ip | _ => dns_result_ip d end;
  an_ip6 : dns_result_ipv6 d' = match found with Some (inr ip6) => ip6 | _ => dns_result_ipv6 d end;
  an_name : dns_domain_name d' = dns_domain_name d;
  an_error : dns_error d' = dns_error d;
  an_server : dns_server_ip d' = dns_server_ip d }.

Lemma answer_loop_spec l : forall p d name cname, answers_at pkt p l -> length (handle_domain_name d) = 256%nat ->
  named (dns_domain_name d) name -> named (dns_domain_cname d) cname ->
  exists d', answer_loop fuel (length l) pkt p d = Ok (0, d') /\ answered d (resolved name cname l).1 (resolved name cname l).2 d'.
Proof using Hfuel.
  induction l as [|r l IH]; intros p d name cname Ha Hh Hn Hc; [by exists d|].
  inversion Ha as [|p0 r0 q len l0 Hr Hcl Hda Hlen Hl]; subst. cbn [length answer_loop resolved].
  destruct (extract_readable _ _ _ _ Hr Hh) as (h & -> & Hown). res_simpl. set (d1 := set_handle_name h d).
  rewrite Hcl. res_simpl. cbn [Z.eqb negb DNS_QCLASS_IN].
  assert (Hskip : forall c d2, named (dns_domain_cname d2) c -> dns_domain_name d2 = dns_domain_name d -> dns_result_ip d2 = dns_result_ip d ->
    dns_result_ipv6 d2 = dns_result_ipv6 d -> dns_error d2 = dns_error d -> dns_server_ip d2 = dns_server_ip d -> length (handle_domain_name d2) = 256%nat ->
    exists d', (n ← rd 2 pkt (q + 8); answer_loop fuel (length l) pkt (q + (Z.to_nat n + 10)) d2) = Ok (0, d') /\ answered d (resolved name c l).1 (resolved name c l).2 d').
  { intros c d2 Hc2 En Ei E6 Ee Es Hh2. rewrite Hlen. res_simpl. destruct (IH _ d2 name c Hl Hh2) as (d' & E & []); [by rewrite En | done|].
    exists d'. split; [exact E|]. split; [done | by rewrite <- Ei | by rewrite <- E6 | congruence..]. }
  change (dns_domain_name d1) with (dns_domain_name d). change (dns_domain_cname d1) with (dns_domain_cname d).
  rewrite (same_string_named _ _ _ _ Hown Hn). res_simpl.
  assert ((if bool_decide (owner r = name) then Ok true else same_string h (dns_domain_cname d)) = Ok (bool_decide (owner r = name) || bool_decide (owner r = cname))) as ->.
  { case_bool_decide; [done|]. by rewrite (same_string_named _ _ _ _ Hown Hc). }
  res_simpl. destruct (_ || _); [|apply Hskip; try done; apply Hown].
  destruct (data r) as [ip | c | ip6 | t]; cbn [data_at] in Hda.
  - destruct Hda as [-> Hip]. res_simpl. cbn [Z.eqb DNS_QTYPE_A]. rewrite Hip. res_simpl. eexists. split; [done|]. by split.
  - destruct Hda as (-> & e & j & Hcn & Hj & Hw). res_simpl. cbn [Z.eqb DNS_QTYPE_A DNS_QTYPE_CNAME]. pose proof (wire_count c).
    destruct (extract_loop_spec _ _ _ _ _ Hcn fuel (dns_domain_cname d) 0 None) as (x & E & _); [lia | lia | apply Hc|].
    unfold dns_extract_name. rewrite E. res_simpl.
    apply Hskip; try done; [apply named_splice; [apply Hc | by eapply name_at_ok | done] | apply Hown].
  - destruct Hda as [-> Hip]. res_simpl. cbn [Z.eqb DNS_QTYPE_A DNS_QTYPE_CNAME DNS_QTYPE_AAAA]. rewrite Hip. res_simpl. eexists. split; [done|]. by split.
  - destruct Hda as (-> & H1 & H2 & H3). res_simpl. rewrite !(proj2 (Z.eqb_neq t _)) by done. apply Hskip; try done; apply Hown.
Qed.
End answers.

(** The header of an answer without error, and its questions. *)
Record response_to (pkt : list Z) (l : list rr) : Prop := {
  rs_id : rd 2 pkt dh_id = Ok 0x1234;
  rs_flags : exists f, rd 2 pkt dh_flags = Ok f /\ Z.land f DNS_FLAG_MSGTYPE = DNS_FLAG_SRESPONSE /\ Z.land f DNS_FLAG_RCODE = DNS_RCODE_NERROR;
  rs_sections : exists n p, rd 2 pkt dh_qdcount = Ok (Z.of_nat n) /\ questions_at pkt DNSHDR n p /\
    rd 2 pkt dh_ancount = Ok (Z.of_nat (length l)) /\ answers_at pkt p l }.

(** C14: Of the answers of a message handle_dns takes the first address of the name it asked for, or of the canonical name that the answers
    before gave, and keeps the last canonical name: what the list of the answers says. *)
Theorem handle_response_correct fuel pkt d l name cname : (300 <= fuel)%nat -> response_to pkt l -> length (handle_domain_name d) = 256%nat ->
  named (dns_domain_name d) name -> named (dns_domain_cname d) cname ->
  exists d', handle_response fuel pkt d = Ok (0, d') /\ answered d (resolved name cname l).1 (resolved name cname l).2 d'.
Proof.
  intros Hf [Hid (f & Ef & Hm & Hc) (n & p & En & Hq & Ea & Ha)] Hh Hn Hcn. unfold handle_response.
  rewrite Hid. res_simpl. rewrite Z.eqb_refl. cbn [negb]. rewrite Ef. res_simpl. rewrite Hm, Hc, !Z.eqb_refl. cbn [negb]. rewrite En. res_simpl.
  rewrite Nat2Z.id. destruct (question_loop_spec fuel Hf pkt _ _ _ Hq (handle_domain_name d) Hh) as (h & -> & Hh'). res_simpl.
  rewrite Ea. res_simpl. rewrite Nat2Z.id. destruct (answer_loop_spec fuel Hf pkt l p (set_handle_name h d) name cname Ha Hh' Hn Hcn) as (d' & E & []).
  exists d'. by split.
Qed.

(** Other messages: an answer with an error sets the error, and a message with another number, or that is no answer, changes nothing. *)
Theorem handle_response_others fuel pkt d id f : rd 2 pkt dh_id = Ok id -> rd 2 pkt dh_flags = Ok f ->
  (id <> 0x1234 \/ Z.land f DNS_FLAG_MSGTYPE <> DNS_FLAG_SRESPONSE -> handle_response fuel pkt d = Ok (0, d)) /\
  (id = 0x1234 -> Z.land f DNS_FLAG_MSGTYPE = DNS_FLAG_SRESPONSE -> Z.land f DNS_FLAG_RCODE <> DNS_RCODE_NERROR ->
    handle_response fuel pkt d = Ok (0, set_dns_error 1 d)).
Proof.
  intros Hi Hf. unfold handle_response. rewrite Hi. res_simpl. rewrite Hf. res_simpl. split.
  - intros [Hid | Hm]; [by rewrite (proj2 (Z.eqb_neq id _)) by done|]. destruct (id =? 0x1234); cbn [negb]; [|done]. by rewrite (proj2 (Z.eqb_neq _ DNS_FLAG_SRESPONSE)) by done.
  - intros -> -> Hr. rewrite !Z.eqb_refl. cbn [negb]. by rewrite (proj2 (Z.eqb_neq _ DNS_RCODE_NERROR)) by done.
Qed.

(** ** Concrete names and messages *)

Definition www : list (list Z) := [[119; 119; 119]; [97]; [98]].
Definition w2 : list (list Z) := [[119; 50]; [97]; [98]].

Lemma dns_name_roundtrip_witness :
  let m := name_mem [] (joined DOT www ++ replicate 10 0) (replicate 256 0) in
  let name := [3; 119; 119; 119; 1; 97; 1; 98; 0] in
  hosttodomain m HOST DOMAIN = Ok (1, write_bytes m DOMAIN name) /\
  dns_extract_name 9 (replicate 12 0 ++ name ++ [0; 1; 0; 1]) 12 (replicate 256 7) = Ok (Some 21%nat, splice (replicate 256 7) 0 name).
Proof.
  apply (dns_name_roundtrip (name_mem [] (joined DOT www ++ replicate 10 0) (replicate 256 0)) HOST DOMAIN www (replicate 12 0) [0; 1; 0; 1] (replicate 256 7) 9).
  - discriminate.
  - mem_compute.
  - repeat constructor; try (by apply (bool_decide_unpack _)); cbn; lia.
  - cbn. lia.
  - apply (mappedb_spec _ DOMAIN 9). vm_compute. reflexivity.
  - right. vm_compute. reflexivity.
  - reflexivity.
  - cbn. lia.
Defined.

(** An answer: a canonical name, and its address, with references to the names before. *)
Definition sample_answer : list Z :=
  [0x12; 0x34; 0x81; 0x80; 0; 1; 0; 2; 0; 0; 0; 0] ++ wire www ++ [0; 0; 1; 0; 1] ++
  [0xC0; 12; 0; 5; 0; 1; 0; 0; 0; 9; 0; 8] ++ wire w2 ++ [0] ++
  [0xC0; 37; 0; 1; 0; 1; 0; 0; 0; 9; 0; 4; 10; 0; 2; 3].

Definition sample_rrs : list rr := [Rr www (RCname w2); Rr w2 (RA 0x0A000203)].

Definition sample_dns : dns_st :=
  Dns 0x0A000201 (replicate 16 0) 0 (replicate 16 0) 0 (wire www ++ replicate 248 0) (replicate 256 0) (replicate 256 0) (replicate 256 0).

Lemma label_in (pre a post : list Z) l e j : label_ok a -> name_at (pre ++ (Z.of_nat (length a) :: a) ++ post) (length pre + (1 + length a)) l e j ->
  name_at (pre ++ (Z.of_nat (length a) :: a) ++ post) (length pre) (a :: l) e j.
Proof. intros Ha. apply name_label; [done|]. rewrite drop_app_length. cbn [app take plus]. f_equal. apply take_app_length. Qed.

Lemma www_ok : Forall label_ok www.
Proof. repeat constructor; cbn; lia. Qed.
Lemma w2_ok : Forall label_ok w2.
Proof. repeat constructor; cbn; lia. Qed.

Lemma sample_www : name_at sample_answer 12 www 21 0.
Proof. exact (wire_name_at www (take 12 sample_answer) (drop 21 sample_answer) www_ok). Qed.
Lemma sample_w2 : name_at sample_answer 37 w2 45 0.
Proof. exact (wire_name_at w2 (take 37 sample_answer) (drop 45 sample_answer) w2_ok). Qed.

Lemma reference_to pkt p q l e : name_at pkt q l e 0 -> (length (wire l) <= 255)%nat -> take 2 (drop p pkt) = [0xC0; Z.of_nat q] -> (q < 256)%nat ->
  readable pkt p l (p + 2).
Proof.
  intros Hn Hl E Hq. exists 1%nat. split; [|split; [lia | done]].
  assert (rd 2 pkt p = Ok (0xC000 + Z.of_nat q)) as Er.
  { rewrite rd_spec; [rewrite E; f_equal; cbn; lia|]. apply (f_equal length) in E. rewrite length_take, length_drop in E. cbn [length] in E. lia. }
  eapply (name_reference _ _ _ _ _ _ Er); [lia | rewrite E; repeat constructor; lia|].
  replace (Z.to_nat (Z.land (0xC000 + Z.of_nat q) 0x3FFF)) with q; [exact Hn|].
  change 0x3FFF with (Z.ones 14). rewrite Z.land_ones by lia. rewrite Z.add_mod, (Z.mod_small (Z.of_nat _)) by lia. change (0xC000 mod 2 ^ 14) with 0.
  rewrite Z.add_0_l, Z.mod_small by lia. lia.
Qed.

Lemma sample_response : response_to sample_answer sample_rrs.
Proof.
  split; [reflexivity | exists 0x8180; split_and!; reflexivity|]. exists 1%nat, 25%nat. split; [reflexivity|]. split.
  { eapply (questions_one _ 12 www 21); [exists 0%nat; split; [exact sample_www | cbn; lia] | apply questions_none]. }
  split; [reflexivity|]. eapply (answers_one _ 25 _ 27 8).
  - exact (reference_to _ 25 12 _ _ sample_www ltac:(cbn; lia) eq_refl ltac:(lia)).
  - reflexivity.
  - split; [reflexivity|]. exists 45%nat, 0%nat. split; [exact sample_w2 | cbn; lia].
  - reflexivity.
  - eapply (answers_one _ 45 _ 47 4); [exact (reference_to _ 45 37 _ _ sample_w2 ltac:(cbn; lia) eq_refl ltac:(lia)) | reflexivity | split; reflexivity | reflexivity | apply answers_none].
Qed.

Lemma handle_response_correct_witness : exists d', handle_response 300 sample_answer sample_dns = Ok (0, d') /\ dns_result_ip d' = 0x0A000203.
Proof.
  destruct (handle_response_correct 300 sample_answer sample_dns sample_rrs www []) as (d' & E & Ha).
  - lia.
  - exact sample_response.
  - reflexivity.
  - split; reflexivity.
  - split; reflexivity.
  - exists d'. split; [exact E | exact (an_ip _ _ _ _ Ha)].
Defined.

Lemma handle_response_others_witness : handle_response 9 (0x12 :: 0 :: drop 2 sample_answer) sample_dns = Ok (0, sample_dns).
Proof. apply (proj1 (handle_response_others 9 (0x12 :: 0 :: drop 2 sample_answer) sample_dns 0x1200 0x8180 eq_refl eq_refl)). left. discriminate. Defined.

Lemma dns_extract_correct_witness :
  dns_extract_name 9 sample_answer 25 (replicate 256 7) = Ok (Some 27%nat, splice (replicate 256 7) 0 (wire www ++ [0])).
Proof.
  destruct (reference_to sample_answer 25 12 www 21 sample_www ltac:(cbn; lia) eq_refl ltac:(lia)) as (j & Hn & Hj & _).
  apply (dns_extract_correct sample_answer 25 www 27 j (replicate 256 7) 9 Hn Hj eq_refl). cbn. lia.
Defined.

(** The usual answer, in which the canonical name ends with a reference: the record
    of its address is not found, since its name is passed wrongly. *)
Example nested_reference :
  (fun x => (dns_result_ip x.2, bool_decide (upto_nul (dns_domain_cname x.2) = wire w2))) <$> handle_response 300
    ([0x12; 0x34; 0x81; 0x80; 0; 1; 0; 2; 0; 0; 0; 0] ++ wire www ++ [0; 0; 1; 0; 1] ++
     [0xC0; 12; 0; 5; 0; 1; 0; 0; 0; 9; 0; 5; 2; 119; 50; 0xC0; 16] ++ [0xC0; 37; 0; 1; 0; 1; 0; 0; 0; 9; 0; 4; 10; 0; 2; 3]) sample_dns = Ok (0, true).
Proof. reflexivity. Qed.

(** A record of another class is not passed. *)
Example other_class :
  (fun x => dns_result_ip x.2) <$> handle_response 300
    ([0x12; 0x34; 0x81; 0x80; 0; 0; 0; 2; 0; 0; 0; 0] ++ [0; 0; 16; 0; 3; 0; 0; 0; 0; 0; 1; 0] ++ wire www ++ [0; 0; 1; 0; 1; 0; 0; 0; 9; 0; 4; 10; 0; 2; 3]) sample_dns
  <> Ok 0x0A000203.
Proof. discriminate. Qed.
