(* ===== verification/Dhcp.v ===== *)
(** * lib/libnet/dhcp.c: the DHCP client

    The static variables are the record [dhcp_st], a part of what the protocols
    above IPv4 keep ([HasDhcp]).  The options of the messages are those of
    DhcpOptions.v, the resolver that of Dns.v. *)

From Stdlib Require Import ZArith Lia ZifyNat.
From stdpp Require Import base list gmap option numbers.
From S2P Require Import Prelude CMem CString Conv Args Packet Timer Ipv4 Arp Udp NetEnds DhcpOptions Dns.

Definition DHCP_OVERLOAD_FILE : Z := 1.
Definition DHCP_OVERLOAD_SNAME : Z := 2.
Definition DHCP_OVERLOAD_BOTH : Z := 3.

Definition DHCP_STATE_SELECT : Z := 1.
Definition DHCP_STATE_REQUEST : Z := 2.
Definition DHCP_STATE_SUCCESS : Z := 3.
Definition DHCP_STATE_FAULT : Z := 4.

(** struct btphdr *)
Definition bt_op : nat := 0.
Definition bt_htype : nat := 1.
Definition bt_hlen : nat := 2.
Definition bt_xid : nat := 4.
Definition bt_ciaddr : nat := 12.
Definition bt_yiaddr : nat := 16.
Definition bt_siaddr : nat := 20.
Definition bt_chaddr : nat := 28.
Definition bt_sname : nat := 44.
Definition bt_file : nat := 108.
Definition bt_vend : nat := 236.
Definition BTPHDR : nat := 300.
Definition SNAME_LEN : nat := 64.
Definition FILE_LEN : nat := 128.
Definition VEND_LEN : nat := 64.

(** [response_buffer]: the bytes from the address the caller gave on. *)
Record dhcp_st := Dhcp {
  dhcp_own_ip : Z; dhcp_server_ip : Z; dhcp_siaddr_ip : Z; dhcp_filename : list Z; dhcp_tftp_name : list Z; dhcp_xid : Z;
  dhcp_pxe : pxe_st; response_buffer : option (list Z); dhcp_state : Z }.

Definition set_own_ip (v : Z) (d : dhcp_st) : dhcp_st :=
  Dhcp v (dhcp_server_ip d) (dhcp_siaddr_ip d) (dhcp_filename d) (dhcp_tftp_name d) (dhcp_xid d) (dhcp_pxe d) (response_buffer d) (dhcp_state d).
Definition set_dhcp_server_ip (v : Z) (d : dhcp_st) : dhcp_st :=
  Dhcp (dhcp_own_ip d) v (dhcp_siaddr_ip d) (dhcp_filename d) (dhcp_tftp_name d) (dhcp_xid d) (dhcp_pxe d) (response_buffer d) (dhcp_state d).
Definition set_siaddr_ip (v : Z) (d : dhcp_st) : dhcp_st :=
  Dhcp (dhcp_own_ip d) (dhcp_server_ip d) v (dhcp_filename d) (dhcp_tftp_name d) (dhcp_xid d) (dhcp_pxe d) (response_buffer d) (dhcp_state d).
Definition set_filename (v : list Z) (d : dhcp_st) : dhcp_st :=
  Dhcp (dhcp_own_ip d) (dhcp_server_ip d) (dhcp_siaddr_ip d) v (dhcp_tftp_name d) (dhcp_xid d) (dhcp_pxe d) (response_buffer d) (dhcp_state d).
Definition set_tftp_name (v : list Z) (d : dhcp_st) : dhcp_st :=
  Dhcp (dhcp_own_ip d) (dhcp_server_ip d) (dhcp_siaddr_ip d) (dhcp_filename d) v (dhcp_xid d) (dhcp_pxe d) (response_buffer d) (dhcp_state d).
Definition set_xid (v : Z) (d : dhcp_st) : dhcp_st :=
  Dhcp (dhcp_own_ip d) (dhcp_server_ip d) (dhcp_siaddr_ip d) (dhcp_filename d) (dhcp_tftp_name d) v (dhcp_pxe d) (response_buffer d) (dhcp_state d).
Definition set_pxe (v : pxe_st) (d : dhcp_st) : dhcp_st :=
  Dhcp (dhcp_own_ip d) (dhcp_server_ip d) (dhcp_siaddr_ip d) (dhcp_filename d) (dhcp_tftp_name d) (dhcp_xid d) v (response_buffer d) (dhcp_state d).
Definition set_response (v : option (list Z)) (d : dhcp_st) : dhcp_st :=
  Dhcp (dhcp_own_ip d) (dhcp_server_ip d) (dhcp_siaddr_ip d) (dhcp_filename d) (dhcp_tftp_name d) (dhcp_xid d) (dhcp_pxe d) v (dhcp_state d).
Definition set_dhcp_state (v : Z) (d : dhcp_st) : dhcp_st :=
  Dhcp (dhcp_own_ip d) (dhcp_server_ip d) (dhcp_siaddr_ip d) (dhcp_filename d) (dhcp_tftp_name d) (dhcp_xid d) (dhcp_pxe d) (response_buffer d) v.

(** The state of the client as a part of a larger state, next to that of the resolver. *)
Class HasDhcp (U : Type) `{HasDns U} := {
  get_dhcp : U -> dhcp_st;
  put_dhcp : dhcp_st -> U -> U;
  get_put_dhcp d u : get_dhcp (put_dhcp d u) = d;
  put_get_dhcp u : put_dhcp (get_dhcp u) u = u;
  put_put_dhcp d d' u : put_dhcp d (put_dhcp d' u) = put_dhcp d u;
  get_dhcp_dns d u : get_dhcp (put_dns d u) = get_dhcp u;
  get_dns_dhcp d u : get_dns (put_dhcp d u) = get_dns u;
}.

#[export] Instance pair_has_dns : HasDns (dns_st * dhcp_st).
Proof. refine {| get_dns := fst; put_dns d u := (d, u.2) |}; by repeat intros []. Defined.
#[export] Instance pair_has_dhcp : HasDhcp (dns_st * dhcp_st).
Proof. refine {| get_dhcp := snd; put_dhcp d u := (u.1, d) |}; by repeat intros []. Defined.

(** What strncpy stores: the string up to [n] characters, with NULs behind it. *)
Fixpoint strncpy_bytes (n : nat) (src : list Z) : res (list Z) :=
  match n with
  | O => Ok []
  | S n' =>
      match src with
      | [] => Fault
      | c :: src' => if c =? 0 then Ok (replicate n 0) else s ← strncpy_bytes n' src'; Ok (c :: s)
      end
  end.

(** strncpy(array, field, n) with a NUL behind it. *)
Definition copy_field (array field : list Z) (n : nat) : res (list Z) :=
  bs ← strncpy_bytes n field; array ← wr_bytes array 0 bs; wr 1 array n 0.

(** strcpy(array, src) *)
Definition strcpy_array (array src : list Z) : res (list Z) := s ← array_str src; wr_bytes array 0 (s ++ [0]).

Section dhcp.
Context {U : Type} `{HasDhcp U} (send : list Z -> Z) (malloc_ok : Z -> bool).
Implicit Type st : net U.

Definition dh st : dhcp_st := get_dhcp (up st).
Definition upd_dhcp (f : dhcp_st -> dhcp_st) st : net U := with_up st (put_dhcp (f (dh st)) (up st)).

(** ** Sending *)

(** A message in the array, up to the options: the bytes that are sent are cleared first. *)
Definition boot_request st : res (list Z) :=
  let o := (IPHDR + UDPHDR)%nat in
  packet ← wr 1 (replicate ETH_MTU_SIZE 0) (o + bt_op) 1;
  packet ← wr 1 packet (o + bt_htype) 1;
  packet ← wr 1 packet (o + bt_hlen) 6;
  packet ← wr 4 packet (o + bt_xid) (dhcp_xid (dh st));
  wr_bytes packet (o + bt_chaddr) (own_mac st).

(** The options, the headers, and send_ipv4. *)
Definition send_boot (fuel : nat) (rx : net U -> res (Z * net U)) st (packet : list Z) (opt : dhcp_options_t) (src dst : Z) : res (net U) :=
  let o := (IPHDR + UDPHDR + bt_vend)%nat in
  '(_, vend) ← dhcp_encode_options (drop o packet) opt;
  packet ← fill_udphdr (take o packet ++ vend) IPHDR (Z.of_nat (BTPHDR + UDPHDR)) UDPPORT_BOOTPC UDPPORT_BOOTPS;
  packet ← fill_iphdr packet 0 (Z.of_nat (BTPHDR + UDPHDR + IPHDR)) IPTYPE_UDP src dst;
  '(_, st) ← send_ipv4 send fuel rx st packet (IPHDR + UDPHDR + BTPHDR);
  Ok st.

Definition discover_options : dhcp_options_t :=
  set_request DHCP_CLIENT_ARCH USE_DHCPARCH (set_request DHCP_BOOTFILE 1 (set_request DHCP_TFTP_SERVER 1 (set_request DHCP_ROUTER 1
    (set_request DHCP_DNS 1 (set_request DHCP_MASK 1 (set_msg_type DHCPDISCOVER zero_options)))))).

Definition dhcp_send_discover (fuel : nat) (rx : net U -> res (Z * net U)) st : res (net U) :=
  packet ← boot_request st;
  send_boot fuel rx st packet discover_options (dhcp_own_ip (dh st)) 0xFFFFFFFF.

(** USE_DHCPARCH is 1. *)
Definition request_options (d : dhcp_st) : dhcp_options_t :=
  set_flag DHCP_CLIENT_ARCH (set_request DHCP_CLIENT_ARCH USE_DHCPARCH (set_request DHCP_PXELINUX_PREFIX 1 (set_request DHCP_PXELINUX_CFGFILE 1
    (set_request DHCP_BOOTFILE 1 (set_request DHCP_TFTP_SERVER 1 (set_request DHCP_ROUTER 1 (set_request DHCP_DNS 1 (set_request DHCP_MASK 1
      (set_flag DHCP_SERVER_ID (set_server_ID (dhcp_server_ip d) (set_flag DHCP_REQUESTED_IP (set_requested_IP (dhcp_own_ip d)
        (set_msg_type DHCPREQUEST zero_options))))))))))))).

Definition dhcp_send_request (fuel : nat) (rx : net U -> res (Z * net U)) st : res (net U) :=
  packet ← boot_request st;
  send_boot fuel rx st packet (request_options (dh st)) 0 0xFFFFFFFF.

Definition release_options (d : dhcp_st) : dhcp_options_t :=
  set_flag DHCP_SERVER_ID (set_server_ID (dhcp_server_ip d) (set_msg_type DHCPRELEASE zero_options)).

Definition dhcp_send_release (fuel : nat) (rx : net U -> res (Z * net U)) st : res (net U) :=
  packet ← boot_request st;
  packet ← wr 1 packet (IPHDR + UDPHDR + bt_file) 0;
  packet ← wr 4 packet (IPHDR + UDPHDR + bt_ciaddr) (dhcp_own_ip (dh st));
  send_boot fuel rx st packet (release_options (dh st)) (dhcp_own_ip (dh st)) (dhcp_server_ip (dh st)).

(** dhcpv4_generate_transaction_id, with the state of rand. *)
Definition dhcpv4_generate_transaction_id (_rand : Z) st : Z * net U :=
  let '(a, _rand) := rand _rand in
  let '(b, _rand) := rand _rand in
  (_rand, upd_dhcp (set_xid (u32 (Z.lxor (Z.shiftl a 16) b))) st).

(** ** Replies *)

(** The contents of the array [options] before it is written. *)
Context (options0 : list Z).

(** The source address at the pointer iph, which lies 28 headers of 20 bytes, and not
    28 bytes, before the message. *)
Definition iph_src st (packet : ptr) : res Z :=
  if decide (560 <= packet.2)%nat then rd 4 (drop (packet.2 - 560) (array_of st packet.1)) ip_src else Fault.

(** The parts of the options in the fields of the header. *)
Definition merge_fields (overload : Z) (options : list Z) (opt_len : Z) (btph : list Z) : res (Z * list Z * Z) :=
  let from_file options opt_len := dhcp_merge_options options opt_len (drop bt_file btph) (Z.of_nat FILE_LEN) in
  let from_sname options opt_len := dhcp_merge_options options opt_len (drop bt_sname btph) (Z.of_nat SNAME_LEN) in
  if overload =? DHCP_OVERLOAD_FILE then from_file options opt_len
  else if overload =? DHCP_OVERLOAD_SNAME then from_sname options opt_len
  else if overload =? DHCP_OVERLOAD_BOTH then
    '(r, options, opt_len) ← from_file options opt_len;
    if r =? 0 then Ok (0, options, opt_len) else from_sname options opt_len
  else Ok (0, options, opt_len).

(** The options of a reply; None where handle_dhcp returns -1. *)
Definition reply_options (btph : list Z) (packetsize : Z) (px : pxe_st) : res (option dhcp_options_t * pxe_st) :=
  let vend := drop bt_vend btph in
  '(r, opt, px) ← dhcp_decode_options malloc_ok vend (u32 (packetsize - Z.of_nat BTPHDR + Z.of_nat VEND_LEN)) px;
  if r =? 0 then Ok (None, px) else
  if overload opt =? 0 then Ok (Some opt, px) else
  let opt_len := u32 (packetsize - Z.of_nat BTPHDR + Z.of_nat VEND_LEN - 4) in
  bs ← rd_bytes (Z.to_nat (u32 (opt_len + 4))) vend 0;
  options ← wr_bytes options0 0 bs;
  '(r, merged, opt_len) ← merge_fields (overload opt) (drop 4 options) opt_len btph;
  if r =? 0 then Ok (None, px) else
  '(r, opt, px) ← dhcp_decode_options malloc_ok (take 4 options ++ merged) (u32 (opt_len + 4)) px;
  Ok (if r =? 0 then None else Some opt, px).

(** What BootP replies and those without a message type give. *)
Definition bootp_settings st (packet : ptr) : res (net U) :=
  let btph := packet_at st packet in
  yiaddr ← rd 4 btph bt_yiaddr;
  siaddr ← rd 4 btph bt_siaddr;
  let d := set_siaddr_ip siaddr (set_own_ip yiaddr (dh st)) in
  sname ← array_str (drop bt_sname btph);
  d ← (if negb (bool_decide (sname = [])) && (dhcp_siaddr_ip d =? 0)
       then name ← copy_field (dhcp_tftp_name d) (drop bt_sname btph) SNAME_LEN; Ok (set_tftp_name name d) else Ok d);
  file ← array_str (drop bt_file btph);
  d ← (if negb (bool_decide (file = []))
       then name ← copy_field (dhcp_filename d) (drop bt_file btph) FILE_LEN; Ok (set_filename name d) else Ok d);
  src ← iph_src st packet;
  Ok (upd_dhcp (fun _ => set_dhcp_state DHCP_STATE_SUCCESS (set_dhcp_server_ip src d)) st).

(** A DHCPACK in the state REQUEST. *)
Definition take_ack (d : dhcp_st) (opt : dhcp_options_t) (btph : list Z) : res dhcp_st :=
  yiaddr ← rd 4 btph bt_yiaddr;
  siaddr ← rd 4 btph bt_siaddr;
  let d := set_siaddr_ip siaddr (set_dhcp_server_ip (server_ID opt) (set_own_ip yiaddr d)) in
  f ← is_set (flag opt) DHCP_TFTP_SERVER;
  d ← (if f : bool then name ← strcpy_array (dhcp_tftp_name d) (tftp_server opt); Ok (set_tftp_name name d)
       else
         name ← wr 1 (dhcp_filename d) 0 0;
         let d := set_filename name d in
         if negb (overload opt =? DHCP_OVERLOAD_SNAME) && negb (overload opt =? DHCP_OVERLOAD_BOTH) && (dhcp_siaddr_ip d =? 0)
         then name ← copy_field (dhcp_tftp_name d) (drop bt_sname btph) SNAME_LEN; Ok (set_tftp_name name d)
         else Ok d);
  f ← is_set (flag opt) DHCP_BOOTFILE;
  d ← (if f : bool then name ← strcpy_array (dhcp_filename d) (bootfile opt); Ok (set_filename name d)
       else
         name ← wr 1 (dhcp_filename d) 0 0;
         let d := set_filename name d in
         if negb (overload opt =? DHCP_OVERLOAD_FILE) && negb (overload opt =? DHCP_OVERLOAD_BOTH) then
           file ← array_str (drop bt_file btph);
           if bool_decide (file = []) then Ok d
           else name ← copy_field (dhcp_filename d) (drop bt_file btph) FILE_LEN; Ok (set_filename name d)
         else Ok d);
  Ok (set_dhcp_state DHCP_STATE_SUCCESS d).

(** What follows when the client has its settings. *)
Definition configure st (opt : dhcp_options_t) (packet : ptr) (packetsize : Z) : res (net U) :=
  let st := set_ipv4_address st (dhcp_own_ip (dh st)) in
  st ← match response_buffer (dh st) with
       | None => Ok st
       | Some buffer =>
           bs ← rd_bytes (Z.to_nat (if packetsize <=? 1720 then u64 packetsize else 1720)) (packet_at st packet) 0;
           buffer ← wr_bytes buffer 0 bs;
           Ok (upd_dhcp (set_response (Some buffer)) st)
       end;
  mask ← is_set (flag opt) DHCP_MASK;
  router ← is_set (flag opt) DHCP_ROUTER;
  let st := if mask && router then set_ipv4_netmask (set_ipv4_router st (router_IP opt)) (DhcpOptions.subnet_mask opt) else st in
  dns ← is_set (flag opt) DHCP_DNS;
  Ok (if dns : bool then dns_init st (dns_IP opt) [] 4 else st).

Definition handle_dhcp (fuel : nat) (rx : net U -> res (Z * net U)) st (packet : ptr) (packetsize : Z) : res (Z * net U) :=
  let btph := packet_at st packet in
  op ← rd 1 btph bt_op;
  if negb (op =? 2) then Ok (-1, st) else
  xid ← rd 4 btph bt_xid;
  if negb (xid =? dhcp_xid (dh st)) then Ok (-1, st) else
  magic ← starts_with (drop bt_vend btph) dhcp_magic;
  if negb magic then st ← bootp_settings st packet; Ok (0, st) else
  '(opt, px) ← reply_options btph packetsize (dhcp_pxe (dh st));
  let st := upd_dhcp (set_pxe px) st in
  match opt with
  | None => Ok (-1, st)
  | Some opt =>
      let finish st := if dhcp_state (dh st) =? DHCP_STATE_SUCCESS then st ← configure st opt packet packetsize; Ok (0, st) else Ok (0, st) in
      if msg_type opt =? 0 then st ← bootp_settings st packet; finish st
      else if dhcp_state (dh st) =? DHCP_STATE_SELECT then
        if msg_type opt =? DHCPOFFER then
          yiaddr ← rd 4 btph bt_yiaddr;
          st ← dhcp_send_request fuel rx (upd_dhcp (fun d => set_dhcp_server_ip (server_ID opt) (set_own_ip yiaddr d)) st);
          Ok (0, upd_dhcp (set_dhcp_state DHCP_STATE_REQUEST) st)
        else Ok (0, st)
      else if dhcp_state (dh st) =? DHCP_STATE_REQUEST then
        if msg_type opt =? DHCPNACK then
          finish (upd_dhcp (fun d => set_dhcp_state DHCP_STATE_FAULT (set_dhcp_server_ip 0 (set_own_ip 0 d))) st)
        else if msg_type opt =? DHCPACK then
          d ← take_ack (dh st) opt btph;
          finish (upd_dhcp (fun _ => d) st)
        else finish st
      else Ok (-1, st)
  end.

(** ** The client *)

Context (handle_dhcpv6 handle_tftp handle_ipv6 : nat -> (net U -> res (Z * net U)) -> net U -> ptr -> Z -> res (Z * net U))
  (handle_tftp_dun : net U -> Z -> net U) (name_fuel : nat).

Abbreviation ether_in := (receive_ether send handle_dhcp (handle_dns name_fuel) handle_dhcpv6 handle_tftp handle_tftp_dun handle_ipv6).

(** The frames of one second; None when it is over. *)
Fixpoint attempt_loop (fuel depth : nat) st : res (option Z * net U) :=
  match fuel with
  | O => OutOfFuel
  | S fuel' =>
      '(_, st) ← ether_in depth st;
      if dhcp_state (dh st) =? DHCP_STATE_SUCCESS then Ok (Some 1, st)
      else if dhcp_state (dh st) =? DHCP_STATE_FAULT then Ok (Some 0, st)
      else let '(more, st) := timer_left st in if more : bool then attempt_loop fuel' depth st else Ok (None, st)
  end.

Definition dhcp_attempt (fuel depth : nat) st : res (Z * net U) :=
  st ← dhcp_send_discover depth (ether_in depth) st;
  let st := upd_dhcp (set_dhcp_state DHCP_STATE_SELECT) st in
  '(r, st) ← attempt_loop fuel depth (start_timer st);
  match r with
  | Some r => Ok (r, st)
  | None => '(r, st) ← attempt_loop fuel depth (start_timer st); Ok (default 0 r, st)
  end.

(** The fields of the struct filename_ip that dhcpv4 reads and sets; the file name is its array. *)
Record boot_config := BootConfig { bc_own_ip : Z; bc_server_ip : Z; bc_filename : list Z; bc_pxe : pxe_st }.

(** strtoip on the array of the name. *)
Definition name_to_ip (name : list Z) : res (option Z) :=
  let m := write_bytes (write_bytes (write_bytes ∅ 200 (replicate 16 0)) 1000 name) 20 [DOT; 0] in
  '(r, m) ← strtoip 200 20 m 1000 212;
  ip ← load_be 4 m 212;
  Ok (if r =? 0 then None else Some ip).

Definition dhcpv4 (send_ipv6 : nat -> (net U -> res (Z * net U)) -> net U -> list Z -> nat -> res (Z * net U)) (own_ip6 : list Z)
    (fuel depth : nat) st (ret_buffer : option (list Z)) (fn_ip : boot_config) : res (Z * boot_config * net U) :=
  filename ← wr 1 (dhcp_filename (dh st)) 0 0;
  tftp_name ← wr 1 (dhcp_tftp_name (dh st)) 0 0;
  let st := upd_dhcp (fun d => set_response ret_buffer (set_pxe (Pxe None None) (set_tftp_name tftp_name (set_filename filename d)))) st in
  '(r, st) ← dhcp_attempt fuel depth st;
  if r =? 0 then Ok (-1, fn_ip, st) else
  let st := if negb (bc_own_ip fn_ip =? 0) then upd_dhcp (set_own_ip (bc_own_ip fn_ip)) st else st in
  let st := if negb (bc_server_ip fn_ip =? 0) then upd_dhcp (set_siaddr_ip (bc_server_ip fn_ip)) st else st in
  c ← rd 1 (bc_filename fn_ip) 0;
  st ← (if negb (c =? 0) then name ← strcpy_array (dhcp_filename (dh st)) (bc_filename fn_ip); Ok (upd_dhcp (set_filename name) st) else Ok st);
  let store ip st :=
    name ← strcpy_array (bc_filename fn_ip) (dhcp_filename (dh st));
    Ok (0, BootConfig (dhcp_own_ip (dh st)) ip name (dhcp_pxe (dh st)), upd_dhcp (set_pxe (Pxe None None)) st) in
  name ← array_str (dhcp_tftp_name (dh st));
  if bool_decide (name = []) then
    if dhcp_siaddr_ip (dh st) =? 0 then Ok (-3, fn_ip, st) else store (dhcp_siaddr_ip (dh st)) st
  else
    ip ← name_to_ip (dhcp_tftp_name (dh st));
    match ip with
    | Some ip => store ip st
    | None =>
        '(r, st) ← dns_get_ip send send_ipv6 own_ip6 fuel depth (ether_in depth) st (dhcp_tftp_name (dh st)) 4;
        match r with
        | Some ip => store (be_dec ip) st
        | None => if dhcp_siaddr_ip (dh st) =? 0 then Ok (-4, fn_ip, st) else store (dhcp_siaddr_ip (dh st)) st
        end
    end.
End dhcp.

(** ** What the client sends *)

(** The fields of a message in front of the options. *)
Definition boot_head (xid ciaddr : Z) (mac : list Z) : list Z :=
  [1; 1; 6; 0] ++ be_enc 4 xid ++ replicate 4 0 ++ be_enc 4 ciaddr ++ replicate 12 0 ++ mac ++ replicate 202 0.
(** The options in their field. *)
Definition boot_vend (opt : dhcp_options_t) : list Z :=
  let l := dhcp_magic ++ enc (sent_options opt) ++ [DHCP_ENDOPT] in l ++ replicate (VEND_LEN - length l) 0.
Definition boot_message (xid ciaddr : Z) (mac : list Z) (opt : dhcp_options_t) : list Z := boot_head xid ciaddr mac ++ boot_vend opt.

Lemma boot_head_length xid ciaddr mac : length mac = 6%nat -> length (boot_head xid ciaddr mac) = 236%nat.
Proof. intros Hm. unfold boot_head. rewrite !length_app, !be_enc_length, !length_replicate, Hm. done. Qed.

(** Options that fit in their field. *)
Definition fits (opt : dhcp_options_t) : Prop := sendable_options opt /\ (length (enc (sent_options opt)) <= 59)%nat.

Lemma boot_vend_length opt : fits opt -> length (boot_vend opt) = 64%nat.
Proof. intros [_ Hl]. unfold boot_vend, VEND_LEN. cbv zeta. rewrite length_app, length_replicate, !length_app. cbn [length dhcp_magic] in *. lia. Qed.

Lemma enc_bytes l : Forall item_ok l -> Forall byte (enc l).
Proof.
  induction 1 as [|it l Hit _ IH]; [constructor|]. rewrite enc_cons. apply Forall_app. split; [|done].
  destruct it as [|c d]; cbn [enc_item]; [repeat constructor; lia|]. destruct Hit as (Hc & Hd & Hb). constructor; [unfold byte; lia|].
  constructor; [unfold byte; lia | done].
Qed.

Lemma boot_vend_bytes opt : fits opt -> Forall byte (boot_vend opt).
Proof.
  intros [Hs _]. unfold boot_vend. cbv zeta. rewrite !Forall_app. pose proof (enc_bytes _ (proj1 (sent_options_ok (fun _ => true) opt Hs))).
  assert (Forall byte dhcp_magic) by (unfold dhcp_magic; repeat (constructor; [unfold byte; lia|]); constructor).
  split_and!; [done | done | constructor; [unfold byte, DHCP_ENDOPT; lia | constructor] | apply Forall_replicate; unfold byte; lia].
Qed.

Lemma boot_head_bytes xid ciaddr mac : Forall byte mac -> Forall byte (boot_head xid ciaddr mac).
Proof.
  intros Hm. unfold boot_head. rewrite !Forall_app. split_and!; try apply be_enc_bytes; try done; try (apply Forall_replicate; unfold byte; lia); repeat constructor; lia.
Qed.

(** The options of the three messages fit. *)
Lemma empty_string_ok : string_ok (replicate 256 0).
Proof. split; [cbn; lia|]. split; [done|]. apply Forall_replicate. unfold byte. lia. Qed.

Ltac fits_tac :=
  split; [split; [repeat split | cbn [msg_type set_flag set_request set_server_ID set_requested_IP set_msg_type]; rewrite !elem_of_cons; tauto
                 | unfold byte; cbn; lia | vm_compute; repeat (constructor; [by auto|]); constructor | vm_compute; lia | exact empty_string_ok | exact empty_string_ok]
         | vm_compute; lia].

Lemma discover_fits : fits discover_options.
Proof. fits_tac. Qed.
Lemma request_fits_field d : fits (request_options d).
Proof. fits_tac. Qed.
Lemma release_fits d : fits (release_options d).
Proof. fits_tac. Qed.

Section sending.
Context {U : Type} `{HasDhcp U} (send : list Z -> Z).
Implicit Type st : net U.

Lemma boot_request_spec st : length (own_mac st) = 6%nat ->
  boot_request st = Ok (replicate 28 0 ++ boot_head (dhcp_xid (dh st)) 0 (own_mac st) ++ replicate (ETH_MTU_SIZE - 264) 0).
Proof.
  intros Hm. unfold boot_request, boot_head. apply list6 in Hm as (?&?&?&?&?&?&->). unfold wr.
  destruct (be_enc4 (dhcp_xid (dh st))) as (?&?&?&?&->). vm_compute. reflexivity.
Qed.

(** The message leaves as one frame. *)
Lemma send_boot_spec fuel rx st head opt src dst : known st dst -> 0 <= src < 2 ^ 32 -> src <> 1 -> length head = 236%nat -> Forall byte head -> fits opt ->
  exists st' frame, send_boot send fuel rx st (replicate 28 0 ++ head ++ replicate (ETH_MTU_SIZE - 264) 0) opt src dst = Ok st' /\
    sent_only st st' /\ sent (dev st') = sent (dev st) ++ [frame] /\ brings frame UDPPORT_BOOTPS (head ++ boot_vend opt).
Proof.
  intros Hk Hs Hs1 Hh Hb Hfit. pose proof (boot_vend_length opt Hfit) as Hv. destruct Hfit as [Hso Hl]. unfold send_boot.
  change (IPHDR + UDPHDR + bt_vend)%nat with (28 + 236)%nat. set (rest := replicate (ETH_MTU_SIZE - 264) 0). rewrite app_assoc.
  assert (H264 : length (replicate 28 0 ++ head) = (28 + 236)%nat) by (rewrite length_app, Hh; done).
  rewrite <- H264, drop_app_length, take_app_length. rewrite encode_spec; [|done|subst rest; rewrite length_replicate; unfold ETH_MTU_SIZE; lia]. res_simpl.
  set (l := dhcp_magic ++ enc (sent_options opt) ++ [DHCP_ENDOPT]).
  assert (Ll : (length l <= 64)%nat) by (subst l; rewrite !length_app; cbn [length dhcp_magic]; lia).
  assert ((written rest l).1 = boot_vend opt ++ replicate (ETH_MTU_SIZE - 328) 0) as ->.
  { unfold written, boot_vend. cbn [fst]. fold l. rewrite <- app_assoc. f_equal. subst rest. rewrite <- replicate_add, drop_replicate. f_equal. unfold VEND_LEN, ETH_MTU_SIZE. lia. }
  rewrite <- app_assoc. destruct (udp_headers_filled (replicate 28 0) (head ++ boot_vend opt ++ replicate (ETH_MTU_SIZE - 328) 0) src dst UDPPORT_BOOTPC UDPPORT_BOOTPS BTPHDR eq_refl) as [E _].
  change (Z.of_nat (8 + BTPHDR)) with (Z.of_nat (BTPHDR + UDPHDR)) in E. change (Z.of_nat (28 + BTPHDR)) with (Z.of_nat (BTPHDR + UDPHDR + IPHDR)) in E.
  destruct (fill_udphdr _ _ _ _ _) as [packet| |]; res_simpl; [|done..]. rewrite E. res_simpl.
  assert (Hm : length (head ++ boot_vend opt) = BTPHDR) by (rewrite length_app, Hh, Hv; done).
  destruct (send_udp send fuel rx st src dst UDPPORT_BOOTPC UDPPORT_BOOTPS (head ++ boot_vend opt) (replicate (ETH_MTU_SIZE - 328) 0)) as (v & st' & frame & Es & H1 & H2 & H3); try done.
  - rewrite Hm. unfold BTPHDR. lia.
  - rewrite length_replicate. unfold ETH_MTU_SIZE. lia.
  - apply Forall_app. split; [done | by apply boot_vend_bytes].
  - apply Forall_replicate. unfold byte. lia.
  - rewrite Hm, <- app_assoc in Es. change (IPHDR + UDPHDR + BTPHDR)%nat with (28 + BTPHDR)%nat. rewrite Es. res_simpl. by exists st', frame.
Qed.

Definition client_ok st : Prop := Forall byte (own_mac st) /\ 0 <= dhcp_own_ip (dh st) < 2 ^ 32 /\ dhcp_own_ip (dh st) <> 1 /\ 0 <= dhcp_server_ip (dh st) < 2 ^ 32.

(** [st'] is [st] after a frame with this message for the server. *)
Definition sends_message st st' (msg : list Z) : Prop :=
  sent_only st st' /\ exists frame, sent (dev st') = sent (dev st) ++ [frame] /\ brings frame UDPPORT_BOOTPS msg.

Lemma send_discover_spec fuel rx st : known st 0xFFFFFFFF -> client_ok st ->
  exists st', dhcp_send_discover send fuel rx st = Ok st' /\ sends_message st st' (boot_message (dhcp_xid (dh st)) 0 (own_mac st) discover_options).
Proof.
  intros Hk (Hm & Ho & Ho1 & _). unfold dhcp_send_discover. rewrite boot_request_spec by apply (a_mac _ (k_arp _ _ Hk)). res_simpl.
  destruct (send_boot_spec fuel rx st (boot_head (dhcp_xid (dh st)) 0 (own_mac st)) discover_options (dhcp_own_ip (dh st)) 0xFFFFFFFF Hk Ho Ho1)
    as (st' & frame & E & Hs & Hf & Hb); [by rewrite boot_head_length by apply (a_mac _ (k_arp _ _ Hk)) | by apply boot_head_bytes | exact discover_fits|].
  exists st'. split; [exact E|]. split; [done|]. by exists frame.
Qed.

Lemma send_request_spec fuel rx st : known st 0xFFFFFFFF -> Forall byte (own_mac st) ->
  exists st', dhcp_send_request send fuel rx st = Ok st' /\ sends_message st st' (boot_message (dhcp_xid (dh st)) 0 (own_mac st) (request_options (dh st))).
Proof.
  intros Hk Hm. unfold dhcp_send_request. rewrite boot_request_spec by apply (a_mac _ (k_arp _ _ Hk)). res_simpl.
  destruct (send_boot_spec fuel rx st (boot_head (dhcp_xid (dh st)) 0 (own_mac st)) (request_options (dh st)) 0 0xFFFFFFFF Hk)
    as (st' & frame & E & Hs & Hf & Hb); [lia | lia | by rewrite boot_head_length by apply (a_mac _ (k_arp _ _ Hk)) | by apply boot_head_bytes | apply request_fits_field|].
  exists st'. split; [exact E|]. split; [done|]. by exists frame.
Qed.

Lemma send_release_spec fuel rx st : known st (dhcp_server_ip (dh st)) -> client_ok st ->
  exists st', dhcp_send_release send fuel rx st = Ok st' /\
    sends_message st st' (boot_message (dhcp_xid (dh st)) (dhcp_own_ip (dh st)) (own_mac st) (release_options (dh st))).
Proof.
  intros Hk (Hm & Ho & Ho1 & _). unfold dhcp_send_release. pose proof (a_mac _ (k_arp _ _ Hk)) as Hl. rewrite boot_request_spec by done. cbn [mbind res_bind].
  set (p0 := replicate 28 0 ++ boot_head (dhcp_xid (dh st)) 0 (own_mac st) ++ replicate (ETH_MTU_SIZE - 264) 0).
  assert (Ew : (packet ← wr 1 p0 (IPHDR + UDPHDR + bt_file) 0; wr 4 packet (IPHDR + UDPHDR + bt_ciaddr) (dhcp_own_ip (dh st))) =
    Ok (replicate 28 0 ++ boot_head (dhcp_xid (dh st)) (dhcp_own_ip (dh st)) (own_mac st) ++ replicate (ETH_MTU_SIZE - 264) 0)).
  { subst p0. unfold boot_head, wr. clear - Hl. apply list6 in Hl as (?&?&?&?&?&?&->).
    destruct (be_enc4 (dhcp_xid (dh st))) as (?&?&?&?&->), (be_enc4 (dhcp_own_ip (dh st))) as (?&?&?&?&->). vm_compute. reflexivity. }
  clearbody p0. destruct (wr 1 p0 _ _) as [packet| |]; cbn [mbind res_bind] in *; [|done..]. rewrite Ew. cbn [mbind res_bind].
  destruct (send_boot_spec fuel rx st (boot_head (dhcp_xid (dh st)) (dhcp_own_ip (dh st)) (own_mac st)) (release_options (dh st)) (dhcp_own_ip (dh st)) (dhcp_server_ip (dh st)) Hk Ho Ho1)
    as (st' & frame & E & Hs & Hf & Hb); [by rewrite boot_head_length | by apply boot_head_bytes | apply release_fits|].
  exists st'. split; [exact E|]. split; [done|]. by exists frame.
Qed.
End sending.

(** What the server reads in a request. *)
Lemma boot_vend_read malloc_ok opt px : fits opt -> 0 <= requested_IP opt < 2 ^ 32 -> 0 <= server_ID opt < 2 ^ 32 ->
  exists o', dhcp_decode_options malloc_ok (boot_vend opt) (Z.of_nat VEND_LEN) px = Ok (1, o', px) /\ received opt o'.
Proof.
  intros [Hs Hl] Hr Hi. destruct (encode_decode malloc_ok opt (replicate VEND_LEN 0) px Hs Hr Hi) as (b' & o' & _ & -> & E & Ho).
  { rewrite length_replicate. unfold VEND_LEN. lia. }
  exists o'. split; [|done]. rewrite length_replicate in E.
  assert (boot_vend opt = (written (replicate VEND_LEN 0) (dhcp_magic ++ enc (sent_options opt) ++ [DHCP_ENDOPT])).1) as ->; [|exact E].
  unfold boot_vend, written. cbn [fst]. cbv zeta. f_equal. symmetry. apply drop_replicate.
Qed.

(** ** Strings of the replies *)

(** The string an array of 256 characters holds. *)
Definition holds_string (array s : list Z) : Prop := length array = 256%nat /\ array_str array = Ok s.

Lemma array_str_upto l : 0 ∈ l -> array_str l = Ok (upto_nul l).
Proof.
  induction l as [|c l IH]; intros H; [by apply not_elem_of_nil in H|]. cbn [array_str upto_nul]. destruct (Z.eqb_spec c 0) as [->|Hc]; [done|].
  apply elem_of_cons in H as [? | H]; [done|]. by rewrite IH.
Qed.

Lemma upto_nul_app l l' : 0 ∈ l -> upto_nul (l ++ l') = upto_nul l.
Proof.
  induction l as [|c l IH]; intros H; [by apply not_elem_of_nil in H|]. cbn [app upto_nul]. destruct (Z.eqb_spec c 0) as [->|Hc]; [done|].
  apply elem_of_cons in H as [? | H]; [done|]. by rewrite IH.
Qed.

Lemma upto_nul_free l : Forall (fun b => b <> 0) (upto_nul l).
Proof. induction l as [|c l IH]; [constructor|]. cbn [upto_nul]. destruct (Z.eqb_spec c 0); [constructor | by constructor]. Qed.

Lemma upto_nul_length l : (length (upto_nul l) <= length l)%nat.
Proof. induction l as [|c l IH]; cbn [upto_nul length]; [lia|]. case_match; cbn [length]; lia. Qed.

Lemma strncpy_bytes_spec n : forall src, (n <= length src)%nat ->
  strncpy_bytes n src = Ok (upto_nul (take n src) ++ replicate (n - length (upto_nul (take n src))) 0).
Proof.
  induction n as [|n IH]; intros src Hn; [done|]. destruct src as [|c src]; [cbn in Hn; lia|]. cbn [strncpy_bytes take upto_nul length] in *.
  destruct (c =? 0); [done|]. rewrite IH by lia. done.
Qed.

(** strncpy of a field, and the NUL behind it. *)
Lemma copy_field_spec array field n : length array = 256%nat -> (n < 256)%nat -> (n <= length field)%nat ->
  exists array', copy_field array field n = Ok array' /\ holds_string array' (upto_nul (take n field)).
Proof.
  intros Ha Hn Hf. unfold copy_field. rewrite strncpy_bytes_spec by done. res_simpl. set (s := upto_nul (take n field)).
  assert (Ls : (length s <= n)%nat) by (subst s; etransitivity; [apply upto_nul_length | rewrite length_take; lia]).
  assert (Lb : length (s ++ replicate (n - length s) 0) = n) by (rewrite length_app, length_replicate; lia).
  rewrite wr_bytes_spec by lia. res_simpl. rewrite wr_spec by (rewrite splice_length; lia). eexists. split; [done|].
  split; [by rewrite !splice_length by (rewrite ?splice_length; cbn; lia)|]. rewrite <- Lb at 2. unfold splice at 2. rewrite take_0. cbn [app].
  rewrite splice_next by (rewrite length_drop; cbn; lia). rewrite <- app_assoc. change (be_enc 1 0) with [0]. rewrite <- app_assoc.
  destruct (n - length s)%nat as [|k]; [cbn [replicate app] | cbn [replicate app]]; apply array_str_app, upto_nul_free.
Qed.

Lemma strcpy_array_spec array src s : length array = 256%nat -> array_str src = Ok s -> Forall (fun b => b <> 0) s -> (length s < 256)%nat ->
  exists array', strcpy_array array src = Ok array' /\ holds_string array' s.
Proof.
  intros Ha Hs Hf Hl. unfold strcpy_array. rewrite Hs. res_simpl. rewrite wr_bytes_spec by (rewrite length_app; cbn; lia). eexists. split; [done|].
  split; [rewrite splice_length; rewrite ?length_app; cbn; lia|]. unfold splice. rewrite take_0, <- app_assoc. by apply array_str_app.
Qed.

Section reading.
Context (malloc_ok : Z -> bool).

(** The arrays of the options end with a NUL. *)
Definition strings_ended (o : dhcp_options_t) : Prop := arrays_ok o /\ 0 ∈ tftp_server o /\ 0 ∈ bootfile o.

Lemma zero_options_ended : strings_ended zero_options.
Proof. split; [by repeat split|]. split; apply elem_of_cons; by left. Qed.

Lemma string_in_ended array d : 0 ∈ string_in array d.
Proof. unfold string_in. apply elem_of_app. right. apply elem_of_cons. by left. Qed.

Lemma read_item_ended it o px : item_ok it -> strings_ended o -> strings_ended (read_item malloc_ok it o px).1.2.
Proof.
  intros Hit (Ha & Ht & Hb). split; [by apply read_item_arrays|]. destruct it as [|c d]; [done|]. cbn [read_item].
  repeat case_match; cbn [fst snd tftp_server bootfile set_flag set_overload set_requested_IP set_subnet_mask set_dns_IP set_router_IP set_msg_type set_server_ID set_tftp_server set_bootfile set_client_arch];
    split; try done; apply string_in_ended.
Qed.

Lemma read_items_ended l : forall o px, Forall item_ok l -> strings_ended o -> strings_ended (read_items malloc_ok l o px).1.2.
Proof.
  induction l as [|it l IH]; intros o px Hl Ho; [done|]. apply Forall_cons_1 in Hl as [Hit Hl]. cbn [read_items].
  pose proof (read_item_ended it o px Hit Ho) as H1. destruct (read_item malloc_ok it o px) as [[[] o1] px1]; cbn [fst snd] in *; [by apply IH | done].
Qed.

(** The flags are those of the options, and the end option. *)
Lemma is_set_flagged o c : arrays_ok o -> 0 <= c < 256 -> is_set (flag o) c = Ok (flagged o c).
Proof. intros (Hf & _) Hc. by apply is_set_spec. Qed.

End reading.

(** ** What a reply says *)

(** The fields of a reply. *)
Record reply := Reply { r_yiaddr : Z; r_siaddr : Z; r_sname : list Z; r_file : list Z; r_options : list item }.

Definition field_length (size : Z) : Z := u32 (size - Z.of_nat BTPHDR + Z.of_nat VEND_LEN).

Record reply_at (btph : list Z) (xid size : Z) (r : reply) : Prop := {
  ra_op : rd 1 btph bt_op = Ok 2;
  ra_xid : rd 4 btph bt_xid = Ok xid;
  ra_yiaddr : rd 4 btph bt_yiaddr = Ok (r_yiaddr r);
  ra_siaddr : rd 4 btph bt_siaddr = Ok (r_siaddr r);
  ra_sname : take SNAME_LEN (drop bt_sname btph) = r_sname r /\ length (r_sname r) = SNAME_LEN;
  ra_file : take FILE_LEN (drop bt_file btph) = r_file r /\ length (r_file r) = FILE_LEN /\ 0 ∈ r_file r;
  ra_items : Forall item_ok (r_options r) /\ Forall lengths_ok (r_options r);
  ra_vend : exists post, drop bt_vend btph = dhcp_magic ++ enc (r_options r) ++ post /\ ends_options post (field_length size) (4 + length (enc (r_options r))) }.

(** The options in a field of the header. *)
Definition field_items (field : list Z) (len : nat) (l : list item) : Prop :=
  exists post, field = enc l ++ post /\ ends_options post (Z.of_nat len) (length (enc l)) /\ Forall item_ok l.

(** The list [m] of all options, for those of the options field. *)
Definition all_options (btph : list Z) (overload : Z) (l m : list item) : Prop :=
  let n := 1020%nat in
  overload = DHCP_OVERLOAD_FILE /\ (exists f, field_items (drop bt_file btph) FILE_LEN f /\ mergeable n l f /\ m = merge_items l f) \/
  overload = DHCP_OVERLOAD_SNAME /\ (exists f, field_items (drop bt_sname btph) SNAME_LEN f /\ mergeable n l f /\ m = merge_items l f) \/
  overload = DHCP_OVERLOAD_BOTH /\ (exists f f', field_items (drop bt_file btph) FILE_LEN f /\ field_items (drop bt_sname btph) SNAME_LEN f' /\
    mergeable n l f /\ mergeable n (merge_items l f) f' /\ m = merge_items (merge_items l f) f').

Lemma mergeable_ok n l f : Forall item_ok l -> (length (enc l) <= n)%nat -> mergeable n l f ->
  Forall item_ok (merge_items l f) /\ (length (enc (merge_items l f)) <= n)%nat.
Proof.
  revert l. induction f as [|[|c d] f IH]; intros l Hl Hn Hm; cbn [merge_items mergeable] in *; [done | by apply IH|].
  destruct Hm as (? & ? & ?). by apply IH.
Qed.

Lemma ends_at post n : ends_options post (Z.of_nat n) n.
Proof. by right. Qed.

(** The options in an array with something behind them. *)
Definition items_in (array : list Z) (len : Z) (l : list item) : Prop :=
  length array = 1020%nat /\ Forall item_ok l /\ exists post, array = enc l ++ post /\ ends_options post len (length (enc l)).

Lemma merge_step array len l field n f : items_in array len l -> field_items field n f -> mergeable 1020 l f ->
  exists array', dhcp_merge_options array len field (Z.of_nat n) = Ok (1, array', Z.of_nat (length (enc (merge_items l f)))) /\
    items_in array' (Z.of_nat (length (enc (merge_items l f)))) (merge_items l f).
Proof.
  intros (Ha & Hl & post & -> & He) (post' & -> & He' & Hf) Hm. rewrite length_app in Ha.
  destruct (mergeable_ok 1020 l f Hl ltac:(lia) Hm) as [Hm1 Hm2].
  rewrite (merge_options_spec l f post len post' (Z.of_nat n) Hl Hf); [|by rewrite length_app, Ha | rewrite length_app, Ha; lia | done | done].
  eexists. split; [done|]. split; [rewrite array_with_length; rewrite length_app; lia|]. split; [done|].
  eexists. split; [reflexivity | apply ends_at].
Qed.

Lemma merge_fields_spec btph v array len l m : items_in array len l -> all_options btph v l m ->
  exists array', merge_fields v array len btph = Ok (1, array', Z.of_nat (length (enc m))) /\ items_in array' (Z.of_nat (length (enc m))) m.
Proof.
  intros Hi [[-> (f & Hf & Hm & ->)] | [[-> (f & Hf & Hm & ->)] | [-> (f & f' & Hf & Hf' & Hm & Hm' & ->)]]].
  - exact (merge_step _ _ _ _ _ _ Hi Hf Hm).
  - exact (merge_step _ _ _ _ _ _ Hi Hf Hm).
  - unfold merge_fields. cbn [Z.eqb Pos.eqb DHCP_OVERLOAD_FILE DHCP_OVERLOAD_SNAME DHCP_OVERLOAD_BOTH].
    destruct (merge_step _ _ _ _ _ _ Hi Hf Hm) as (a & -> & Hi'). res_simpl. exact (merge_step _ _ _ _ _ _ Hi' Hf' Hm').
Qed.

(** Decoding keeps the settings, and may set the flag of the end option. *)
Definition same_settings (o o' : dhcp_options_t) : Prop := o' = o \/ o' = set_flag DHCP_ENDOPT o.

Section replies.
Context (malloc_ok : Z -> bool) (options0 : list Z) (Hoptions0 : length options0 = 1024%nat).

(** The settings of a reply, without and with options in other fields. *)
Definition says (btph : list Z) (size : Z) (r : reply) (px : pxe_st) (o : dhcp_options_t) (px' : pxe_st) : Prop :=
  (read_items malloc_ok (r_options r) zero_options px = (true, o, px') /\ overload o = 0) \/
  (exists o0 px0 m, read_items malloc_ok (r_options r) zero_options px = (true, o0, px0) /\ overload o0 <> 0 /\
     field_length size <= 1024 /\ field_length size <= Z.of_nat (length (drop bt_vend btph)) /\
     all_options btph (overload o0) (r_options r) m /\ Forall lengths_ok m /\ read_items malloc_ok m zero_options px0 = (true, o, px')).

Lemma reply_options_spec btph xid size r px o px' : reply_at btph xid size r -> says btph size r px o px' ->
  exists o', reply_options malloc_ok options0 btph size px = Ok (Some o', px') /\ same_settings o o'.
Proof using Hoptions0.
  intros [_ _ _ _ _ _ [Hok Hl] (post & Ev & He)] Hsay. unfold reply_options. rewrite Ev.
  change (u32 (size - Z.of_nat BTPHDR + Z.of_nat VEND_LEN)) with (field_length size). rewrite (decode_spec malloc_ok _ _ _ px Hok Hl He).
  destruct Hsay as [[Er Hov] | (o0 & px0 & m & Er & Hov & Hs & Hsd & Hall & Hlm & Em)]; rewrite Er; res_simpl; change (1 =? 0) with false; cbv iota.
  - set (o' := if bool_decide _ then o else _). assert (same_settings o o') as Hss by (subst o'; case_bool_decide; [by left | by right]).
    assert (overload o' = 0) as -> by (by destruct Hss as [-> | ->]). rewrite Z.eqb_refl. by exists o'.
  - set (o' := if bool_decide _ then o0 else _). assert (overload o' = overload o0) as -> by (subst o'; by case_bool_decide).
    rewrite (proj2 (Z.eqb_neq _ 0)) by done. rewrite Ev in Hsd. set (n := field_length size) in *.
    assert (Hn : Z.of_nat (4 + length (enc (r_options r))) <= n) by (destruct He as [[? _] | ->]; lia).
    assert (u32 (size - Z.of_nat BTPHDR + Z.of_nat VEND_LEN - 4) = n - 4) as ->.
    { subst n. unfold field_length, u32, BTPHDR, VEND_LEN in *. rewrite <- (Zminus_mod_idemp_l _ 4). apply Z.mod_small. lia. }
    replace (u32 (n - 4 + 4)) with n by (rewrite u32_small by lia; lia).
    set (k := (Z.to_nat n - (4 + length (enc (r_options r))))%nat).
    assert (Eb : rd_bytes (Z.to_nat n) (dhcp_magic ++ enc (r_options r) ++ post) 0 = Ok (dhcp_magic ++ enc (r_options r) ++ take k post)).
    { rewrite rd_bytes_spec by lia. rewrite drop_0. f_equal. replace (Z.to_nat n) with (length (dhcp_magic ++ enc (r_options r)) + k)%nat.
      - by rewrite app_assoc, take_app_add, <- app_assoc.
      - rewrite length_app. change (length dhcp_magic) with 4%nat. lia. }
    rewrite Eb. res_simpl. rewrite !length_app in Hsd. change (length dhcp_magic) with 4%nat in Hsd.
    rewrite wr_bytes_spec by (rewrite !length_app, length_take; change (length dhcp_magic) with 4%nat; lia). res_simpl.
    set (rest := drop (length (dhcp_magic ++ enc (r_options r) ++ take k post)) options0).
    change (splice options0 0 _) with ((dhcp_magic ++ enc (r_options r) ++ take k post) ++ rest). rewrite <- !app_assoc.
    change (drop 4 (dhcp_magic ++ ?x)) with x. change (take 4 (dhcp_magic ++ ?x)) with dhcp_magic.
    assert (Hi : items_in (enc (r_options r) ++ take k post ++ rest) (n - 4) (r_options r)).
    { split; [subst rest; rewrite !length_app, length_drop, ?length_app, length_take; change (length dhcp_magic) with 4%nat; lia|].
      split; [done|]. eexists. split; [reflexivity|]. destruct He as [[Hlt (p' & ->)] | ->].
      - left. split; [lia|]. destruct k as [|k'] eqn:Ek; [lia|]. cbn [take app]. by eexists.
      - right. lia. }
    destruct (merge_fields_spec btph _ _ _ _ m Hi Hall) as (a & -> & (La & Hm & post' & -> & Hp')). res_simpl. change (1 =? 0) with false. cbv iota.
    rewrite length_app in La. rewrite u32_small by lia.
    rewrite (decode_spec malloc_ok m post' _ px0 Hm Hlm), Em.
    + res_simpl. change (1 =? 0) with false. cbv iota. eexists. split; [reflexivity|]. case_bool_decide; [by left | by right].
    + destruct Hp' as [[? ?] | ?]; [left; split; [lia | done] | right; lia].
Qed.
End replies.

(** ** The client as a state machine *)

(** The name and the file a DHCPACK gives; [name] is the name there was. *)
Definition ack_name (o : dhcp_options_t) (r : reply) (name : list Z) : list Z :=
  if flagged o DHCP_TFTP_SERVER then upto_nul (tftp_server o)
  else if negb (overload o =? DHCP_OVERLOAD_SNAME) && negb (overload o =? DHCP_OVERLOAD_BOTH) && (r_siaddr r =? 0) then upto_nul (r_sname r)
  else name.
Definition ack_file (o : dhcp_options_t) (r : reply) : list Z :=
  if flagged o DHCP_BOOTFILE then upto_nul (bootfile o)
  else if negb (overload o =? DHCP_OVERLOAD_FILE) && negb (overload o =? DHCP_OVERLOAD_BOTH) then upto_nul (r_file r) else [].

(** The settings [d'] a DHCPACK gives the client that had [d]. *)
Record settled (d : dhcp_st) (o : dhcp_options_t) (r : reply) (name : list Z) (d' : dhcp_st) : Prop := {
  se_own : dhcp_own_ip d' = r_yiaddr r;
  se_server : dhcp_server_ip d' = server_ID o;
  se_siaddr : dhcp_siaddr_ip d' = r_siaddr r;
  se_name : holds_string (dhcp_tftp_name d') (ack_name o r name);
  se_file : holds_string (dhcp_filename d') (ack_file o r);
  se_state : dhcp_state d' = DHCP_STATE_SUCCESS;
  se_rest : dhcp_xid d' = dhcp_xid d /\ dhcp_pxe d' = dhcp_pxe d /\ response_buffer d' = response_buffer d }.

(** The arrays hold strings. *)
Definition arrays_hold (d : dhcp_st) (name : list Z) : Prop := holds_string (dhcp_tftp_name d) name /\ length (dhcp_filename d) = 256%nat.

Lemma same_settings_fields o o' : same_settings o o' -> strings_ended o ->
  msg_type o' = msg_type o /\ server_ID o' = server_ID o /\ overload o' = overload o /\ router_IP o' = router_IP o /\ dns_IP o' = dns_IP o /\
  DhcpOptions.subnet_mask o' = DhcpOptions.subnet_mask o /\ tftp_server o' = tftp_server o /\ bootfile o' = bootfile o /\
  forall c, 0 <= c < 255 -> is_set (flag o') c = Ok (flagged o c).
Proof.
  intros Hs ((Hf & Ha) & _). split_and!; try by destruct Hs as [-> | ->]. intros c Hc. destruct Hs as [-> | ->]; [apply is_set_spec; done || lia|].
  rewrite is_set_spec by (cbn [flag set_flag]; rewrite ?length_insert; done || lia). f_equal.
  rewrite flagged_set by (first [done | lia | unfold DHCP_ENDOPT; lia]). by rewrite bool_decide_false by (unfold DHCP_ENDOPT; lia).
Qed.

Lemma first_nul l : length l = 256%nat -> exists l', wr 1 l 0 0 = Ok l' /\ holds_string l' [].
Proof.
  intros Hl. rewrite wr_spec by lia. eexists. split; [done|]. split; [rewrite splice_length; cbn; lia | done].
Qed.

Lemma field_take n (l : list Z) f : take n l = f -> length f = n -> 0 ∈ f -> array_str l = Ok (upto_nul f) /\ (n <= length l)%nat.
Proof.
  intros E Hf Hz. assert (n <= length l)%nat by (rewrite <- E, length_take in Hf; lia). split; [|done].
  rewrite <- (take_drop n l), E, array_str_upto by (apply elem_of_app; by left). by rewrite upto_nul_app.
Qed.

Lemma upto_nul_shorter l : 0 ∈ l -> (length (upto_nul l) < length l)%nat.
Proof.
  induction l as [|c l IH]; intros H; [by apply not_elem_of_nil in H|]. cbn [upto_nul]. destruct (Z.eqb_spec c 0); cbn [length]; [lia|].
  apply elem_of_cons in H as [? | H]; [done|]. specialize (IH H). lia.
Qed.

Lemma strcpy_option array src : length array = 256%nat -> length src = 256%nat -> 0 ∈ src ->
  exists array', strcpy_array array src = Ok array' /\ holds_string array' (upto_nul src).
Proof.
  intros Ha Hl Hz. apply strcpy_array_spec; [done | by apply array_str_upto | apply upto_nul_free|]. rewrite <- Hl. by apply upto_nul_shorter.
Qed.

(** The two strings of a DHCPACK. *)
Lemma ack_name_spec d o o' btph xid size r name : reply_at btph xid size r -> same_settings o o' -> strings_ended o -> arrays_hold d name ->
  dhcp_siaddr_ip d = r_siaddr r ->
  exists d', (f ← is_set (flag o') DHCP_TFTP_SERVER;
    if f : bool then array ← strcpy_array (dhcp_tftp_name d) (tftp_server o'); Ok (set_tftp_name array d)
    else
      array ← wr 1 (dhcp_filename d) 0 0;
      let d := set_filename array d in
      if negb (overload o' =? DHCP_OVERLOAD_SNAME) && negb (overload o' =? DHCP_OVERLOAD_BOTH) && (dhcp_siaddr_ip d =? 0)
      then array ← copy_field (dhcp_tftp_name d) (drop bt_sname btph) SNAME_LEN; Ok (set_tftp_name array d)
      else Ok d) = Ok d' /\ arrays_hold d' (ack_name o r name) /\ (d' = set_filename (dhcp_filename d') (set_tftp_name (dhcp_tftp_name d') d)).
Proof.
  intros Hr Hss Hend [[Hn Hn'] Hfn] Hsi. destruct (same_settings_fields _ _ Hss Hend) as (_ & _ & Eo & _ & _ & _ & Et & _ & Efl).
  destruct Hend as ((_ & _ & Lt & _) & Zt & _). rewrite Efl by (unfold DHCP_TFTP_SERVER; lia). res_simpl. rewrite Et, Eo. unfold ack_name.
  destruct (flagged o DHCP_TFTP_SERVER).
  - destruct (strcpy_option _ _ Hn Lt Zt) as (array & -> & Ha). res_simpl. eexists. split; [done|]. split; [done|]. by destruct d.
  - destruct (first_nul _ Hfn) as (fn & -> & [Lfn _]). res_simpl. change (dhcp_siaddr_ip (set_filename fn d)) with (dhcp_siaddr_ip d). rewrite Hsi.
    destruct (_ && _ && _); [|eexists; split; [done|]; split; [done | by destruct d]].
    destruct (ra_sname _ _ _ _ Hr) as [Es Ls]. change (dhcp_tftp_name (set_filename fn d)) with (dhcp_tftp_name d).
    destruct (copy_field_spec (dhcp_tftp_name d) (drop bt_sname btph) SNAME_LEN Hn) as (array & -> & Ha);
      [unfold SNAME_LEN; lia | rewrite <- Es, length_take in Ls; lia|]. res_simpl. rewrite Es in Ha.
    eexists. split; [done|]. split; [by split | by destruct d].
Qed.

Lemma ack_file_spec d o o' btph xid size r name : reply_at btph xid size r -> same_settings o o' -> strings_ended o -> arrays_hold d name ->
  exists d', (f ← is_set (flag o') DHCP_BOOTFILE;
    if f : bool then array ← strcpy_array (dhcp_filename d) (bootfile o'); Ok (set_filename array d)
    else
      array ← wr 1 (dhcp_filename d) 0 0;
      let d := set_filename array d in
      if negb (overload o' =? DHCP_OVERLOAD_FILE) && negb (overload o' =? DHCP_OVERLOAD_BOTH) then
        file ← array_str (drop bt_file btph);
        if bool_decide (file = []) then Ok d
        else array ← copy_field (dhcp_filename d) (drop bt_file btph) FILE_LEN; Ok (set_filename array d)
      else Ok d) = Ok d' /\ holds_string (dhcp_filename d') (ack_file o r) /\ d' = set_filename (dhcp_filename d') d.
Proof.
  intros Hr Hss Hend [_ Hfn]. destruct (same_settings_fields _ _ Hss Hend) as (_ & _ & Eo & _ & _ & _ & _ & Eb & Efl).
  destruct Hend as ((_ & _ & _ & Lb) & _ & Zb). rewrite Efl by (unfold DHCP_BOOTFILE; lia). res_simpl. rewrite Eb, Eo. unfold ack_file.
  destruct (flagged o DHCP_BOOTFILE).
  - destruct (strcpy_option _ _ Hfn Lb Zb) as (array & -> & Ha). res_simpl. eexists. split; [done|]. split; [done|]. by destruct d.
  - destruct (first_nul _ Hfn) as (fn & -> & Hfn'). res_simpl.
    destruct (_ && _); [|eexists; split; [done|]; split; [done | by destruct d]].
    destruct (ra_file _ _ _ _ Hr) as (Ef & Lf & Zf). destruct (field_take _ _ _ Ef Lf Zf) as [-> Hl]. res_simpl.
    case_bool_decide as E0; [eexists; split; [done|]; split; [by rewrite E0 | by destruct d]|].
    destruct (copy_field_spec fn (drop bt_file btph) FILE_LEN) as (array & Ec & Ha); [apply Hfn' | unfold FILE_LEN; lia | done|].
    change (dhcp_filename (set_filename fn d)) with fn. rewrite Ec. res_simpl. rewrite Ef in Ha. eexists. split; [done|]. split; [done | by destruct d].
Qed.

Lemma take_ack_spec d o o' btph xid size r name : reply_at btph xid size r -> same_settings o o' -> strings_ended o -> arrays_hold d name ->
  exists d', take_ack d o' btph = Ok d' /\ settled d o r name d'.
Proof.
  intros Hr Hss Hend Ha. destruct (same_settings_fields _ _ Hss Hend) as (_ & Eid & _). unfold take_ack.
  rewrite (ra_yiaddr _ _ _ _ Hr). res_simpl. rewrite (ra_siaddr _ _ _ _ Hr). res_simpl. rewrite Eid. set (d1 := set_siaddr_ip _ _).
  destruct (ack_name_spec d1 o o' btph xid size r name Hr Hss Hend Ha eq_refl) as (d2 & E2 & Ha2 & Ed2).
  destruct (ack_file_spec d2 o o' btph xid size r _ Hr Hss Hend Ha2) as (d3 & E3 & Hf3 & Ed3).
  destruct (is_set (flag o') DHCP_TFTP_SERVER) as [f| |]; res_simpl; [|done..]. rewrite E2. res_simpl.
  destruct (is_set (flag o') DHCP_BOOTFILE) as [f'| |]; res_simpl; [|done..]. rewrite E3. res_simpl.
  eexists. split; [done|]. rewrite Ed3 in *. rewrite Ed2 in *. destruct Ha2 as [Hn _]. by split.
Qed.

(** The options of a reply have all their NULs. *)
Lemma says_ended malloc_ok btph xid size r px o px' : reply_at btph xid size r -> says malloc_ok btph size r px o px' -> strings_ended o.
Proof.
  intros [_ _ _ _ _ _ [Hok _] (post & _ & He)] [[E _] | (o0 & px0 & m & _ & _ & Hs & _ & Hall & _ & E)].
  - pose proof (read_items_ended malloc_ok (r_options r) zero_options px Hok zero_options_ended) as H. by rewrite E in H.
  - assert (Hl : (length (enc (r_options r)) <= 1020)%nat) by (destruct He as [[? _] | ?]; lia).
    assert (Forall item_ok m) as Hm.
    { destruct Hall as [[_ (f & _ & Hm & ->)] | [[_ (f & _ & Hm & ->)] | [_ (f & f' & _ & _ & Hm & Hm' & ->)]]].
      1, 2: by apply (mergeable_ok 1020 _ f Hok).
      destruct (mergeable_ok 1020 _ f Hok Hl Hm). by apply (mergeable_ok 1020 _ f'). }
    pose proof (read_items_ended malloc_ok m zero_options px0 Hm zero_options_ended) as H. by rewrite E in H.
Qed.

Section reactions.
Context {U : Type} `{HasDhcp U} (send : list Z -> Z) (malloc_ok : Z -> bool) (options0 : list Z) (Hoptions0 : length options0 = 1024%nat).
Implicit Type st : net U.

Lemma dh_upd f st : dh (upd_dhcp f st) = f (dh st).
Proof. unfold dh, upd_dhcp. cbn [up with_up]. apply get_put_dhcp. Qed.

(** The bytes of the message the caller gets. *)
Definition response_of (d : dhcp_st) (btph : list Z) (size : Z) : option (list Z) :=
  match response_buffer d with
  | Some buffer => Some (splice buffer 0 (take (Z.to_nat (Z.min size 1720)) btph))
  | None => None
  end.
Definition response_room (d : dhcp_st) (btph : list Z) (size : Z) : Prop :=
  0 <= size < 2 ^ 31 /\ size <= Z.of_nat (length btph) /\
  match response_buffer d with Some buffer => (Z.to_nat (Z.min size 1720) <= length buffer)%nat | None => True end.

(** The state with the settings of the client in use. *)
Definition configured st (o : dhcp_options_t) (response : option (list Z)) : net U :=
  let st := upd_dhcp (set_response response) (set_ipv4_address st (dhcp_own_ip (dh st))) in
  let st := if flagged o DHCP_MASK && flagged o DHCP_ROUTER then set_ipv4_netmask (set_ipv4_router st (router_IP o)) (DhcpOptions.subnet_mask o) else st in
  if flagged o DHCP_DNS then dns_init st (dns_IP o) [] 4 else st.

Lemma upd_same st d : d = dh st -> upd_dhcp (fun _ => d) st = st.
Proof. intros ->. unfold upd_dhcp, dh, with_up. rewrite put_get_dhcp. by destruct st. Qed.

Lemma configure_spec st o o' packet size : same_settings o o' -> strings_ended o -> response_room (dh st) (packet_at st packet) size ->
  configure st o' packet size = Ok (configured st o (response_of (dh st) (packet_at st packet) size)).
Proof.
  intros Hss Hend (Hs & Hl & Hb). destruct (same_settings_fields _ _ Hss Hend) as (_ & _ & _ & Er & Ed & Em & _ & _ & Efl).
  unfold configure, configured. set (st1 := set_ipv4_address st _). change (dh st1) with (dh st).
  assert (match response_buffer (dh st) with None => Ok st1 | Some buffer =>
      bs ← rd_bytes (Z.to_nat (if size <=? 1720 then u64 size else 1720)) (packet_at st1 packet) 0;
      buffer ← wr_bytes buffer 0 bs; Ok (upd_dhcp (set_response (Some buffer)) st1) end =
    Ok (upd_dhcp (set_response (response_of (dh st) (packet_at st packet) size)) st1)) as ->.
  { unfold response_of. destruct (response_buffer (dh st)) as [buffer|] eqn:Eb.
    - replace (if size <=? 1720 then u64 size else 1720) with (Z.min size 1720) by (destruct (Z.leb_spec size 1720); [rewrite u64_small|]; lia).
      change (packet_at st1 packet) with (packet_at st packet). rewrite rd_bytes_spec, drop_0 by lia. res_simpl.
      rewrite wr_bytes_spec by (rewrite length_take; lia). done.
    - f_equal. symmetry. assert (set_response None (dh st1) = dh st1) as E by (change (dh st1) with (dh st); destruct (dh st); cbn in Eb |- *; by rewrite Eb).
      unfold upd_dhcp. rewrite E. by apply (upd_same st1). }
  res_simpl. rewrite !Efl by (unfold DHCP_MASK, DHCP_ROUTER, DHCP_DNS; lia). res_simpl. by rewrite Er, Em, Ed.
Qed.

(** The reactions of the client to a reply [r] with the settings [o]; the first
    state has what the options say of PXELINUX. *)
Inductive reacts (packet : ptr) (size : Z) (r : reply) (o : dhcp_options_t) (name : list Z) st : Z -> net U -> Prop :=
  | offer_taken st' : dhcp_state (dh st) = DHCP_STATE_SELECT -> msg_type o = DHCPOFFER ->
      let st1 := upd_dhcp (fun d => set_dhcp_server_ip (server_ID o) (set_own_ip (r_yiaddr r) d)) st in
      sends_message st1 st' (boot_message (dhcp_xid (dh st)) 0 (own_mac st) (request_options (dh st1))) ->
      reacts packet size r o name st 0 (upd_dhcp (set_dhcp_state DHCP_STATE_REQUEST) st')
  | select_ignored : dhcp_state (dh st) = DHCP_STATE_SELECT -> msg_type o <> DHCPOFFER -> reacts packet size r o name st 0 st
  | nack_taken : dhcp_state (dh st) = DHCP_STATE_REQUEST -> msg_type o = DHCPNACK ->
      reacts packet size r o name st 0 (upd_dhcp (fun d => set_dhcp_state DHCP_STATE_FAULT (set_dhcp_server_ip 0 (set_own_ip 0 d))) st)
  | ack_taken d : dhcp_state (dh st) = DHCP_STATE_REQUEST -> msg_type o = DHCPACK -> settled (dh st) o r name d ->
      reacts packet size r o name st 0 (configured (upd_dhcp (fun _ => d) st) o (response_of d (packet_at st packet) size))
  | request_ignored : dhcp_state (dh st) = DHCP_STATE_REQUEST -> msg_type o <> DHCPNACK -> msg_type o <> DHCPACK -> reacts packet size r o name st 0 st
  | not_asked : dhcp_state (dh st) <> DHCP_STATE_SELECT -> dhcp_state (dh st) <> DHCP_STATE_REQUEST -> reacts packet size r o name st (-1) st.

(** The client can send a broadcast. *)
Record can_broadcast st : Prop := { cb_arp : arp_ok st; cb_rt : routes_ok (rt st); cb_send : send_ip st = IPv4; cb_mac : Forall byte (own_mac st) }.

Lemma broadcast_known st : can_broadcast st -> known st 0xFFFFFFFF.
Proof.
  intros []. split; try done. exists (arp_producer (arps st)), broadcast_mac, 0xFFFFFFFF. split; [|split; [apply cb_arp0 | done]].
  unfold resolve. replace (is_broadcast (rt st) 0xFFFFFFFF) with true by done. done.
Qed.

Lemma handle_dhcp_step fuel rx st packet size r px' o name : reply_at (packet_at st packet) (dhcp_xid (dh st)) size r ->
  says malloc_ok (packet_at st packet) size r (dhcp_pxe (dh st)) o px' -> msg_type o <> 0 ->
  can_broadcast st -> arrays_hold (dh st) name -> response_room (dh st) (packet_at st packet) size ->
  exists v st', handle_dhcp send malloc_ok options0 fuel rx st packet size = Ok (v, st') /\ reacts packet size r o name (upd_dhcp (set_pxe px') st) v st'.
Proof using Hoptions0.
  intros Hr Hsay Hty Hcb Ha Hroom. pose proof (says_ended malloc_ok _ _ _ _ _ _ _ Hr Hsay) as Hend. unfold handle_dhcp. rewrite (ra_op _ _ _ _ Hr). res_simpl. cbn [Z.eqb Pos.eqb negb].
  rewrite (ra_xid _ _ _ _ Hr). res_simpl. rewrite Z.eqb_refl. cbn [negb].
  assert (starts_with (drop bt_vend (packet_at st packet)) dhcp_magic = Ok true) as ->.
  { destruct (ra_vend _ _ _ _ Hr) as (post & -> & _). reflexivity. }
  res_simpl. cbn [negb]. destruct (reply_options_spec malloc_ok options0 Hoptions0 _ _ _ _ _ _ _ Hr Hsay) as (o' & -> & Hss). res_simpl.
  destruct (same_settings_fields _ _ Hss Hend) as (Et & Eid & _). rewrite Et, Eid. rewrite (proj2 (Z.eqb_neq _ 0) Hty).
  set (st0 := upd_dhcp (set_pxe px') st). assert (E0 : dh st0 = set_pxe px' (dh st)) by apply dh_upd.
  change (packet_at st packet) with (packet_at st0 packet) in *.
  destruct (Z.eqb_spec (dhcp_state (dh st0)) DHCP_STATE_SELECT) as [Es | Hs1].
  - destruct (Z.eqb_spec (msg_type o) DHCPOFFER) as [Eo | Ho]; [|eexists _, _; split; [done | by apply select_ignored]].
    rewrite (ra_yiaddr _ _ _ _ Hr). res_simpl. set (st1 := upd_dhcp _ st0).
    assert (Hcb1 : can_broadcast st1) by (destruct Hcb as [[] ? ? ?]; split; [split; done | done..]).
    destruct (send_request_spec send fuel rx st1 (broadcast_known _ Hcb1) (cb_mac _ Hcb1)) as (st' & -> & Hsend). res_simpl.
    eexists _, _. split; [done|]. apply offer_taken; [done | done|]. fold st1.
    assert (dhcp_xid (dh st0) = dhcp_xid (dh st1)) as -> by (subst st1; by rewrite dh_upd). exact Hsend.
  - destruct (Z.eqb_spec (dhcp_state (dh st0)) DHCP_STATE_REQUEST) as [Es | Hs2]; [|eexists _, _; split; [done | by apply not_asked]].
    destruct (Z.eqb_spec (msg_type o) DHCPNACK) as [En | Hn].
    { rewrite dh_upd. eexists _, _. split; [done | by apply nack_taken]. }
    destruct (Z.eqb_spec (msg_type o) DHCPACK) as [Ea | Hna].
    + destruct (take_ack_spec (dh st0) o o' (packet_at st0 packet) _ size r name Hr Hss Hend) as (d & -> & Hset); [by rewrite E0|]. res_simpl.
      rewrite dh_upd, (se_state _ _ _ _ _ Hset). cbn [Z.eqb Pos.eqb DHCP_STATE_SUCCESS].
      rewrite (configure_spec (upd_dhcp (fun _ => d) st0) o o' packet size Hss Hend).
      * res_simpl. rewrite dh_upd. eexists _, _. split; [done|]. by apply (ack_taken packet size r o name st0 d).
      * rewrite dh_upd. unfold response_room in *. destruct (se_rest _ _ _ _ _ Hset) as (_ & _ & ->). by rewrite E0.
    + rewrite (proj2 (Z.eqb_neq _ DHCP_STATE_SUCCESS)) by (rewrite Es; done). eexists _, _. split; [done | by apply request_ignored].
Qed.

(** C13: What handle_dhcp does with a reply to the client: an offer is answered with a request for the address that was offered, a DHCPACK gives the client
    its settings, which are put to use, a DHCPNACK ends the attempt, and other messages change nothing; in other states replies are refused. *)
Theorem handle_dhcp_refines fuel rx st packet size r px' o name : reply_at (packet_at st packet) (dhcp_xid (dh st)) size r ->
  says malloc_ok (packet_at st packet) size r (dhcp_pxe (dh st)) o px' -> msg_type o <> 0 ->
  can_broadcast st -> arrays_hold (dh st) name -> response_room (dh st) (packet_at st packet) size ->
  exists v st', handle_dhcp send malloc_ok options0 fuel rx st packet size = Ok (v, st') /\ reacts packet size r o name (upd_dhcp (set_pxe px') st) v st'.
Proof using Hoptions0. apply handle_dhcp_step. Qed.

(** A message that is no reply, or none to the client's request, is refused and changes nothing. *)
Theorem handle_dhcp_refuses fuel rx st packet size op xid : rd 1 (packet_at st packet) bt_op = Ok op -> rd 4 (packet_at st packet) bt_xid = Ok xid ->
  op <> 2 \/ xid <> dhcp_xid (dh st) -> handle_dhcp send malloc_ok options0 fuel rx st packet size = Ok (-1, st).
Proof using.
  intros Ho Hx Hne. unfold handle_dhcp. rewrite Ho. res_simpl. destruct (Z.eqb_spec op 2); cbn [negb]; [|done].
  rewrite Hx. res_simpl. by rewrite (proj2 (Z.eqb_neq _ _)) by (destruct Hne; congruence).
Qed.

(** ** An exchange *)

Context (handle_dhcpv6 handle_tftp handle_ipv6 : nat -> (net U -> res (Z * net U)) -> net U -> ptr -> Z -> res (Z * net U))
  (handle_tftp_dun : net U -> Z -> net U) (name_fuel : nat).

Abbreviation ether_in := (receive_ether send (handle_dhcp send malloc_ok options0) (handle_dns name_fuel) handle_dhcpv6 handle_tftp handle_tftp_dun handle_ipv6).

(** A message with a reply and its settings, whatever is behind it in the array. *)
Definition carries (msg : list Z) (xid : Z) (r : reply) (px : pxe_st) (o : dhcp_options_t) (px' : pxe_st) : Prop :=
  forall rest, reply_at (msg ++ rest) xid (Z.of_nat (length msg)) r /\ says malloc_ok (msg ++ rest) (Z.of_nat (length msg)) r px o px'.

(** Where the message is. *)
Definition boot_ptr : ptr := padd udp_ptr UDPHDR.

(** A frame with a reply reaches handle_dhcp. *)
Lemma receive_reply fuel st frame q msg r px' o name : can_broadcast st -> rxq (dev st) = Some frame :: q ->
  udp_frame (own_mac st) (rt st) frame UDPPORT_BOOTPS UDPPORT_BOOTPC msg -> carries msg (dhcp_xid (dh st)) r (dhcp_pxe (dh st)) o px' -> msg_type o <> 0 ->
  arrays_hold (dh st) name -> response_buffer (dh st) = None ->
  exists b v st', ether_in (S fuel) st = Ok (to_signed 8 v, st') /\ reacts boot_ptr (Z.of_nat (length msg)) r o name (upd_dhcp (set_pxe px') (taken st q b)) v st'.
Proof using Hoptions0.
  intros Hcb Hq Hf Hc Hty Ha Hnone.
  destruct (receive_udp send (handle_dhcp send malloc_ok options0) (handle_dns name_fuel) handle_dhcpv6 handle_tftp handle_ipv6 handle_tftp_dun fuel st frame q _ _ msg
    (a_mac _ (cb_arp _ Hcb)) Hq Hf) as (b & Hd & ->).
  destruct Hf as (src & iph & sum & pad & dst & Ef & _ & _ & Hmtu & Hsp & Hdp & _).
  assert (Z.of_nat (length msg) < 1518).
  { unfold ETH_MTU_SIZE in Hmtu. rewrite Ef, !length_app, !be_enc_length in Hmtu. lia. }
  destruct (datagram_ports _ _ _ _ Hsp Hdp Hd) as [E1 E2], (datagram_message _ _ _ _ Hd) as [rest Em]. unfold handle_udp.
  destruct (Z.ltb_spec (Z.of_nat (8 + length msg)) (Z.of_nat UDPHDR)); [unfold UDPHDR in *; lia|].
  rewrite E2. res_simpl. rewrite E1. res_simpl. cbn [Z.eqb Pos.eqb UDPPORT_BOOTPC UDPPORT_BOOTPS].
  replace (s32 (Z.of_nat (8 + length msg) - Z.of_nat UDPHDR)) with (Z.of_nat (length msg)) by (unfold UDPHDR; rewrite s32_small by lia; lia).
  fold boot_ptr. destruct (Hc rest) as [Hr Hsay].
  assert (Ep : packet_at (taken st q b) boot_ptr = msg ++ rest) by exact Em.
  destruct (handle_dhcp_step fuel (ether_in fuel) (taken st q b) boot_ptr (Z.of_nat (length msg)) r px' o name) as (v & st' & -> & Hre).
  - rewrite Ep. exact Hr.
  - rewrite Ep. exact Hsay.
  - done.
  - destruct Hcb as [[] ? ? ?]. split; [split; done | done..].
  - done.
  - change (dh (taken st q b)) with (dh st). unfold response_room. rewrite Hnone, Ep, length_app. lia.
  - by exists b, v, st'.
Qed.

(** A frame of the queue leaves the client able to send. *)
Lemma taken_can_broadcast st q b : can_broadcast st -> can_broadcast (taken st q b).
Proof. intros [[] ? ? ?]. split; [split; done | done..]. Qed.

Lemma upd_dhcp_can_broadcast f st : can_broadcast st -> can_broadcast (upd_dhcp f st).
Proof. intros [[] ? ? ?]. split; [split; done | done..]. Qed.

Lemma start_timer_can_broadcast st : can_broadcast st -> can_broadcast (start_timer st).
Proof. intros [[] ? ? ?]. split; [split; done | done..]. Qed.

Lemma sent_only_can_broadcast st st' : sent_only st st' -> can_broadcast st -> can_broadcast st'.
Proof. intros [E1 E2 E3 E4 _ _ _ _ _ _] [? ? ? ?]. split; [by apply E4 | by rewrite E2 | by rewrite E3 | by rewrite E1]. Qed.

(** An offer. *)
Lemma receive_offer fuel st frame q msg r px' o name : can_broadcast st -> rxq (dev st) = Some frame :: q ->
  udp_frame (own_mac st) (rt st) frame UDPPORT_BOOTPS UDPPORT_BOOTPC msg -> carries msg (dhcp_xid (dh st)) r (dhcp_pxe (dh st)) o px' ->
  dhcp_state (dh st) = DHCP_STATE_SELECT -> msg_type o = DHCPOFFER -> arrays_hold (dh st) name -> response_buffer (dh st) = None ->
  let d := set_pxe px' (set_dhcp_server_ip (server_ID o) (set_own_ip (r_yiaddr r) (dh st))) in
  exists v st' frame', ether_in (S fuel) st = Ok (v, st') /\ can_broadcast st' /\ own_mac st' = own_mac st /\ rt st' = rt st /\ rxq (dev st') = q /\
    clock (dev st') = clock (dev st) /\ dh st' = set_dhcp_state DHCP_STATE_REQUEST d /\
    sent (dev st') = sent (dev st) ++ [frame'] /\ brings frame' UDPPORT_BOOTPS (boot_message (dhcp_xid (dh st)) 0 (own_mac st) (request_options d)).
Proof using Hoptions0.
  intros Hcb Hq Hf Hc Hs Ho Ha Hn d.
  destruct (receive_reply fuel st frame q msg r px' o name Hcb Hq Hf Hc ltac:(by rewrite Ho) Ha Hn) as (b & v & st' & E & Hre).
  set (st0 := upd_dhcp (set_pxe px') (taken st q b)) in *. assert (E0 : dh st0 = set_pxe px' (dh st)) by exact (dh_upd _ (taken st q b)).
  destruct Hre as [st' _ _ st1 [Hso (fr & Hsent & Hb)] | ? Hne | Hs' | ? Hs' | Hs' | Hne]; try (rewrite E0 in Hs'; cbn in Hs'; rewrite Hs in Hs'; discriminate);
    try (by rewrite Ho in Hne); try (by rewrite E0 in Hne).
  assert (E1 : dh st1 = d) by (subst st1; by rewrite dh_upd, E0). rewrite E1, E0 in Hb.
  exists (to_signed 8 0), (upd_dhcp (set_dhcp_state DHCP_STATE_REQUEST) st'), fr. split; [exact E|].
  assert (dh st' = d) as Ed by (unfold dh; rewrite (so_up _ _ Hso); exact E1).
  split; [apply upd_dhcp_can_broadcast, (sent_only_can_broadcast st1); [done|]; by apply upd_dhcp_can_broadcast, upd_dhcp_can_broadcast, taken_can_broadcast|].
  split; [exact (so_mac _ _ Hso)|]. split; [exact (so_rt _ _ Hso)|]. split; [exact (so_rxq _ _ Hso)|]. split; [exact (so_clock _ _ Hso)|].
  split; [by rewrite dh_upd, Ed|]. split; [exact Hsent | exact Hb].
Qed.

(** A DHCPACK. *)
Lemma receive_ack fuel st frame q msg r px' o name : can_broadcast st -> rxq (dev st) = Some frame :: q ->
  udp_frame (own_mac st) (rt st) frame UDPPORT_BOOTPS UDPPORT_BOOTPC msg -> carries msg (dhcp_xid (dh st)) r (dhcp_pxe (dh st)) o px' ->
  dhcp_state (dh st) = DHCP_STATE_REQUEST -> msg_type o = DHCPACK -> arrays_hold (dh st) name -> response_buffer (dh st) = None ->
  exists v d b, settled (set_pxe px' (dh st)) o r name d /\ ether_in (S fuel) st = Ok (v, configured (upd_dhcp (fun _ => d) (taken st q b)) o None).
Proof using Hoptions0.
  intros Hcb Hq Hf Hc Hs Ho Ha Hn.
  destruct (receive_reply fuel st frame q msg r px' o name Hcb Hq Hf Hc ltac:(by rewrite Ho) Ha Hn) as (b & v & st' & E & Hre).
  set (st0 := upd_dhcp (set_pxe px') (taken st q b)) in *. assert (E0 : dh st0 = set_pxe px' (dh st)) by exact (dh_upd _ (taken st q b)).
  destruct Hre as [? Hs' | Hs' | _ Hs' | d _ _ Hset | _ _ Hne | _ Hne]; try (rewrite E0 in Hs'; cbn in Hs'; rewrite Hs in Hs'; discriminate);
    try (rewrite Ho in Hs'; discriminate); try done; try (by rewrite E0 in Hne).
  rewrite E0 in Hset. exists (to_signed 8 0), d, b. split; [done|]. rewrite E. f_equal. f_equal.
  destruct (se_rest _ _ _ _ _ Hset) as (_ & _ & Er). unfold response_of. rewrite Er. change (response_buffer (set_pxe px' (dh st))) with (response_buffer (dh st)).
  rewrite Hn. f_equal. subst st0. unfold upd_dhcp, with_up, dh. cbn [up]. by rewrite put_put_dhcp.
Qed.
(** What is set when the client has its settings. *)
Lemma configured_spec st o : response_buffer (dh st) = None ->
  let st' := configured st o None in
  dh st' = dh st /\ dev st' = dev st /\ own_ip (rt st') = dhcp_own_ip (dh st) /\
  (flagged o DHCP_MASK && flagged o DHCP_ROUTER = true -> router_ip (rt st') = router_IP o /\ Ipv4.subnet_mask (rt st') = DhcpOptions.subnet_mask o) /\
  (flagged o DHCP_DNS = true -> dns_server_ip (ds st') = dns_IP o).
Proof.
  intros Hn st'. subst st'. unfold configured. set (st1 := upd_dhcp _ _).
  assert (E1 : dh st1 = dh st).
  { subst st1. rewrite dh_upd. change (dh (set_ipv4_address st (dhcp_own_ip (dh st)))) with (dh st). destruct (dh st). cbn in Hn |- *. by rewrite Hn. }
  set (st2 := if flagged o DHCP_MASK && flagged o DHCP_ROUTER then _ else st1).
  assert (E2 : dh st2 = dh st1 /\ dev st2 = dev st1) by (subst st2; destruct (_ && _); by split). destruct E2 as [E2 D2].
  assert (E3 : own_ip (rt st2) = dhcp_own_ip (dh st)) by (subst st2; by destruct (_ && _)).
  assert (E4 : flagged o DHCP_MASK && flagged o DHCP_ROUTER = true -> router_ip (rt st2) = router_IP o /\ Ipv4.subnet_mask (rt st2) = DhcpOptions.subnet_mask o)
    by (intros E; subst st2; by rewrite E).
  destruct (flagged o DHCP_DNS).
  - split; [by rewrite <- E1, <- E2; unfold dh, dns_init, upd_dns, with_up; cbn [up]; apply get_dhcp_dns|]. split; [by rewrite <- (D2 : dev st2 = dev st)|].
    split; [done|]. split; [exact E4|]. intros _. unfold ds, dns_init, upd_dns, with_up. cbn [up]. by rewrite get_put_dns.
  - split; [by rewrite E2|]. split; [by rewrite <- (D2 : dev st2 = dev st)|]. split; [done|]. split; [exact E4 | done].
Qed.

(** C3: The exchange: dhcp_attempt sends a DHCPDISCOVER, answers the offer with a DHCPREQUEST for the address that was offered, and when the DHCPACK comes
    it returns 1 with the settings of the reply stored and in use.  The two replies are the next frames, and the second
    the timer is set to is not over between them. *)
Theorem dhcp_attempt_configures fuel depth st q f1 m1 r1 o1 px1 f2 m2 r2 o2 px2 name :
  can_broadcast st -> client_ok st -> arrays_hold (dh st) name -> response_buffer (dh st) = None ->
  rxq (dev st) = Some f1 :: Some f2 :: q -> 0 < (get_timer (set_timer TICKS_SEC (clock (dev st)))).1 ->
  udp_frame (own_mac st) (rt st) f1 UDPPORT_BOOTPS UDPPORT_BOOTPC m1 -> carries m1 (dhcp_xid (dh st)) r1 (dhcp_pxe (dh st)) o1 px1 -> msg_type o1 = DHCPOFFER ->
  udp_frame (own_mac st) (rt st) f2 UDPPORT_BOOTPS UDPPORT_BOOTPC m2 -> carries m2 (dhcp_xid (dh st)) r2 px1 o2 px2 -> msg_type o2 = DHCPACK ->
  exists st' discover request, dhcp_attempt send malloc_ok options0 handle_dhcpv6 handle_tftp handle_ipv6 handle_tftp_dun name_fuel (S (S fuel)) (S depth) st = Ok (1, st') /\
    sent (dev st') = sent (dev st) ++ [discover; request] /\
    brings discover UDPPORT_BOOTPS (boot_message (dhcp_xid (dh st)) 0 (own_mac st) discover_options) /\
    brings request UDPPORT_BOOTPS (boot_message (dhcp_xid (dh st)) 0 (own_mac st)
      (request_options (set_dhcp_server_ip (server_ID o1) (set_own_ip (r_yiaddr r1) (dh st))))) /\
    settled (set_pxe px2 (dh st)) o2 r2 name (dh st') /\ own_ip (rt st') = r_yiaddr r2 /\
    (flagged o2 DHCP_MASK && flagged o2 DHCP_ROUTER = true -> router_ip (rt st') = router_IP o2 /\ Ipv4.subnet_mask (rt st') = DhcpOptions.subnet_mask o2) /\
    (flagged o2 DHCP_DNS = true -> dns_server_ip (ds st') = dns_IP o2).
Proof using Hoptions0.
  intros Hcb Hok Ha Hn Hq Hclk Hf1 Hc1 Ho1 Hf2 Hc2 Ho2. unfold dhcp_attempt.
  destruct (send_discover_spec send (S depth) (ether_in (S depth)) st (broadcast_known _ Hcb) Hok) as (sd & -> & Hsd & discover & Hsent & Hdisc). res_simpl.
  set (sa := start_timer (upd_dhcp (set_dhcp_state DHCP_STATE_SELECT) sd)).
  assert (Ea : dh sa = set_dhcp_state DHCP_STATE_SELECT (dh st)) by (subst sa; change (dh (start_timer ?s)) with (dh s); rewrite dh_upd; unfold dh; by rewrite (so_up _ _ Hsd)).
  assert (Hcba : can_broadcast sa) by (apply start_timer_can_broadcast; by apply upd_dhcp_can_broadcast, (sent_only_can_broadcast st)).
  destruct (receive_offer depth sa f1 (Some f2 :: q) m1 r1 px1 o1 name) as (v & sb & request & E1 & Hcbb & Emac & Ert & Eq & Eclk & Edh & Esent & Hreq);
    rewrite ?Ea; try done; try (change (own_mac sa) with (own_mac sd); change (rt sa) with (rt sd); by rewrite (so_mac _ _ Hsd), (so_rt _ _ Hsd)).
  { change (rxq (dev sa)) with (rxq (dev sd)). by rewrite (so_rxq _ _ Hsd). }
  rewrite Ea in Edh, Hreq. cbn [attempt_loop]. rewrite E1. res_simpl. rewrite Edh. cbn [dhcp_state set_dhcp_state Z.eqb Pos.eqb DHCP_STATE_REQUEST DHCP_STATE_SUCCESS DHCP_STATE_FAULT].
  assert (Eclk' : 0 < (get_timer (clock (dev sb))).1).
  { rewrite Eclk. change (clock (dev sa)) with (set_timer TICKS_SEC (clock (dev sd))). by rewrite (so_clock _ _ Hsd). }
  unfold timer_left. destruct (get_timer (clock (dev sb))) as [k tm]. rewrite (proj2 (Z.ltb_lt 0 k) Eclk'). set (sc := with_dev sb _).
  change (own_mac sa) with (own_mac sd) in *. change (rt sa) with (rt sd) in *. rewrite (so_mac _ _ Hsd) in *. rewrite (so_rt _ _ Hsd) in *.
  destruct (receive_ack depth sc f2 q m2 r2 px2 o2 name) as (v' & d & b & Hset & E2).
  - destruct Hcbb as [[] ? ? ?]. split; [split; done | done..].
  - exact Eq.
  - change (own_mac sc) with (own_mac sb). change (rt sc) with (rt sb). by rewrite Emac, Ert.
  - change (dh sc) with (dh sb). by rewrite Edh.
  - change (dh sc) with (dh sb). by rewrite Edh.
  - done.
  - change (dh sc) with (dh sb). by rewrite Edh.
  - change (dh sc) with (dh sb). by rewrite Edh.
  - change (dh sc) with (dh sb) in Hset. rewrite Edh in Hset. rewrite E2. res_simpl. set (se := upd_dhcp (fun _ => d) (taken sc q b)).
    assert (Ed : dh se = d) by (subst se; by rewrite dh_upd).
    assert (Hnone : response_buffer d = None) by (destruct (se_rest _ _ _ _ _ Hset) as (_ & _ & ->); exact Hn).
    destruct (configured_spec se o2) as (Ec & Edev & Eown & Er & Edns); [by rewrite Ed|]. rewrite Ed in Ec, Eown.
    rewrite Ec, (se_state _ _ _ _ _ Hset), Z.eqb_refl. res_simpl. exists (configured se o2 None), discover, request. split; [done|].
    rewrite Edev, Ec, Eown. split.
    { change (sent (dev se)) with (sent (dev sb)). rewrite Esent. change (sent (dev sa)) with (sent (dev sd)). by rewrite Hsent, <- app_assoc. }
    split; [done|]. split; [exact Hreq|]. split; [destruct Hset as [? ? ? ? ? ? Hrest]; by split|]. split; [exact (se_own _ _ _ _ _ Hset) | done].
Qed.
End reactions.

(** What is behind a reply does not matter. *)
Lemma reply_at_app btph xid size r rest : reply_at btph xid size r -> (BTPHDR <= length btph)%nat -> reply_at (btph ++ rest) xid size r.
Proof.
  intros [Hop Hx Hy Hs [Hn Ln] (Hf & Lf & Zf) Hi (post & Ev & He)] Hl. unfold BTPHDR in Hl.
  split; rewrite ?rd_app_l by (unfold bt_op, bt_xid, bt_yiaddr, bt_siaddr; lia); try done.
  - split; [|done]. rewrite drop_app_le by (unfold bt_sname; lia). rewrite take_app_le by (rewrite length_drop; unfold SNAME_LEN, bt_sname; lia). exact Hn.
  - split; [|done]. rewrite drop_app_le by (unfold bt_file; lia). rewrite take_app_le by (rewrite length_drop; unfold FILE_LEN, bt_file; lia). exact Hf.
  - exists (post ++ rest). rewrite drop_app_le by (unfold bt_vend; lia). rewrite Ev, <- !app_assoc. split; [done|].
    destruct He as [[? (p' & ->)] | ?]; [left; split; [done | by eexists] | by right].
Qed.

(** A reply whose options are all in their field. *)
Lemma carries_plain malloc_ok msg xid r px o px' : reply_at msg xid (Z.of_nat (length msg)) r -> (BTPHDR <= length msg)%nat ->
  read_items malloc_ok (r_options r) zero_options px = (true, o, px') -> overload o = 0 -> carries malloc_ok msg xid r px o px'.
Proof. intros Hr Hl E Ho rest. split; [by apply reply_at_app | by left]. Qed.

(** ** A concrete exchange *)

Definition reply_bytes (xid : Z) (r : reply) : list Z :=
  let vend := dhcp_magic ++ enc (r_options r) ++ [DHCP_ENDOPT] in
  [2; 1; 6; 0] ++ be_enc 4 xid ++ replicate 8 0 ++ be_enc 4 (r_yiaddr r) ++ be_enc 4 (r_siaddr r) ++ replicate 20 0 ++ r_sname r ++ r_file r ++
  vend ++ replicate (VEND_LEN - length vend) 0.

Definition sample_offer : reply :=
  Reply 0x0A00020F 0x0A000202 (replicate 64 0) (102 :: replicate 127 0) [Opt DHCP_MSG_TYPE [DHCPOFFER]; Opt DHCP_SERVER_ID [10; 0; 2; 2]].
Definition sample_ack : reply :=
  Reply 0x0A00020F 0x0A000202 (replicate 64 0) (102 :: replicate 127 0)
    [Opt DHCP_MSG_TYPE [DHCPACK]; Pad; Opt DHCP_SERVER_ID [10; 0; 2; 2]; Opt DHCP_MASK [255; 255; 255; 0]; Opt DHCP_ROUTER [10; 0; 2; 1];
     Opt DHCP_DNS [10; 0; 2; 3]; Opt DHCP_TFTP_SERVER [115]].
Definition sample_offered : dhcp_options_t := (read_items (fun _ => true) (r_options sample_offer) zero_options (Pxe None None)).1.2.
Definition sample_acked : dhcp_options_t := (read_items (fun _ => true) (r_options sample_ack) zero_options (Pxe None None)).1.2.

Ltac items_eval :=
  unfold sample_offer, sample_ack; cbn [r_options];
  repeat (apply List.Forall_cons); try apply List.Forall_nil; cbn [item_ok lengths_ok]; try exact I;
  [repeat split; try lia; try (cbn; lia); repeat (apply List.Forall_cons; [unfold byte, DHCPOFFER, DHCPACK; lia|]); apply List.Forall_nil ..].
Ltac lengths_eval :=
  unfold sample_offer, sample_ack; cbn [r_options];
  repeat (apply List.Forall_cons); try apply List.Forall_nil; cbn [lengths_ok]; try exact I;
  [split_and!; intros Hc; first [cbn; lia | discriminate Hc | by apply (bool_decide_pack _) in Hc] ..].
Ltac reply_eval :=
  split; [vm_compute; reflexivity | vm_compute; reflexivity | vm_compute; reflexivity | vm_compute; reflexivity | split; vm_compute; reflexivity
  | split_and!; [vm_compute; reflexivity | reflexivity | vm_compute; apply elem_of_cons; right; apply elem_of_cons; by left]
  | split; [items_eval | lengths_eval]
  | eexists; split; [vm_compute; reflexivity|]; left; split; [vm_compute; reflexivity | by eexists]].

Lemma sample_offer_at : reply_at (reply_bytes 0x1234567 sample_offer) 0x1234567 300 sample_offer.
Proof. reply_eval. Defined.
Lemma sample_ack_at : reply_at (reply_bytes 0x1234567 sample_ack) 0x1234567 300 sample_ack.
Proof. reply_eval. Defined.

Definition sample_mac : list Z := [2; 0; 0; 0; 0; 1].
Definition sample_routes : routes := Routes 0 0 null_mac_addr 0 0.
Definition sample_client (state : Z) : dhcp_st :=
  Dhcp 0 0 0 (replicate 256 0) (replicate 256 0) 0x1234567 (Pxe None None) None state.
Definition sample_resolver : dns_st :=
  Dns 0 (replicate 16 0) 0 (replicate 16 0) 0 (replicate 256 0) (replicate 256 0) (replicate 256 0) (replicate 256 0).
Definition sample_net (ether : list Z) (q : list (option (list Z))) (state : Z) : net (dns_st * dhcp_st) :=
  Net sample_mac sample_routes
    (Arp 0 0 (replicate ARP_ENTRIES (ArpEntry 0 null_mac_addr (replicate ETH_MTU_SIZE 0) 0 0)) (replicate ETH_MTU_SIZE 0) 0)
    0 IPv4 ether (replicate (Z.to_nat 65536) 0) (Device q (Timer 0 0 []) []) (sample_resolver, sample_client state).

Lemma sample_can_broadcast ether q state : can_broadcast (sample_net ether q state).
Proof.
  split; [|vm_compute; repeat split; congruence | reflexivity | repeat (apply List.Forall_cons; [unfold byte; lia|]); apply List.Forall_nil].
  split; try (vm_compute; (reflexivity || lia)). apply Forall_replicate. split; [reflexivity | split; reflexivity].
Defined.

(** A frame of the server for the address that is offered. *)
Definition sample_iph (n : nat) : list Z :=
  let h := [0x45; 0] ++ be_enc 2 (Z.of_nat (28 + n)) ++ [0; 0; 0; 0; 255; 17; 0; 0] ++ be_enc 4 0x0A000202 ++ be_enc 4 0x0A00020F in
  match sum ← checksum h 0 10; wr 2 h ip_sum sum with Ok h => h | _ => [] end.
Definition sample_frame (msg : list Z) : list Z :=
  sample_mac ++ [2; 0; 0; 0; 0; 2] ++ be_enc 2 ETHERTYPE_IP ++ sample_iph (length msg) ++ be_enc 2 UDPPORT_BOOTPS ++ be_enc 2 UDPPORT_BOOTPC ++
  be_enc 2 (Z.of_nat (8 + length msg)) ++ be_enc 2 0 ++ msg ++ [].

Lemma sample_udp_frame msg : length msg = 300%nat -> udp_frame sample_mac sample_routes (sample_frame msg) UDPPORT_BOOTPS UDPPORT_BOOTPC msg.
Proof.
  intros Hl. exists [2; 0; 0; 0; 0; 2], (sample_iph (length msg)), 0, [], 0x0A00020F. split; [reflexivity|]. unfold sample_frame. rewrite Hl.
  split; [reflexivity|]. split; [vm_compute; reflexivity|]. split; [rewrite !length_app, Hl; vm_compute; lia|]. split; [vm_compute; split; congruence|].
  split; [vm_compute; split; congruence|]. split; [vm_compute; reflexivity|]. split; [vm_compute; reflexivity|].
  split; [eexists; split; vm_compute; reflexivity|]. split_and!; vm_compute; reflexivity.
Defined.

Definition offer_bytes : list Z := reply_bytes 0x1234567 sample_offer.
Definition ack_bytes : list Z := reply_bytes 0x1234567 sample_ack.

Lemma sample_offer_carried : carries (fun _ => true) offer_bytes 0x1234567 sample_offer (Pxe None None) sample_offered (Pxe None None).
Proof. apply carries_plain; [exact sample_offer_at | vm_compute; lia | vm_compute; reflexivity | vm_compute; reflexivity]. Defined.
Lemma sample_ack_carried : carries (fun _ => true) ack_bytes 0x1234567 sample_ack (Pxe None None) sample_acked (Pxe None None).
Proof. apply carries_plain; [exact sample_ack_at | vm_compute; lia | vm_compute; reflexivity | vm_compute; reflexivity]. Defined.

Definition sample_send (frame : list Z) : Z := Z.of_nat (length frame).
Definition sample_protocol (fuel : nat) (rx : net (dns_st * dhcp_st) -> res (Z * net (dns_st * dhcp_st))) (st : net (dns_st * dhcp_st)) (p : ptr) (n : Z) :
  res (Z * net (dns_st * dhcp_st)) := Ok (0, st).

(** Witness: the offer and the acknowledgement of 10.0.2.15, with a mask, a router, a resolver and the name of a server. *)
Lemma dhcp_attempt_configures_witness :
  exists st', dhcp_attempt sample_send (fun _ => true) (replicate 1024 0) sample_protocol sample_protocol sample_protocol (fun st _ => st) 300 2 1
      (sample_net (replicate ETH_MTU_SIZE 0) [Some (sample_frame offer_bytes); Some (sample_frame ack_bytes)] 0) = Ok (1, st') /\
    own_ip (rt st') = 0x0A00020F /\ router_ip (rt st') = 0x0A000201 /\ dns_server_ip (ds st') = 0x0A000203 /\ holds_string (dhcp_tftp_name (dh st')) [115] /\
    holds_string (dhcp_filename (dh st')) [102].
Proof.
  destruct (dhcp_attempt_configures sample_send (fun _ => true) (replicate 1024 0) eq_refl sample_protocol sample_protocol sample_protocol (fun st _ => st) 300 0 0
    (sample_net (replicate ETH_MTU_SIZE 0) [Some (sample_frame offer_bytes); Some (sample_frame ack_bytes)] 0) []
    (sample_frame offer_bytes) offer_bytes sample_offer sample_offered (Pxe None None) (sample_frame ack_bytes) ack_bytes sample_ack sample_acked (Pxe None None) [])
    as (st' & discover & request & E & _ & _ & _ & Hset & Hown & Hr & Hd).
  - apply sample_can_broadcast.
  - split; [apply (sample_can_broadcast [] [] 0) | vm_compute; repeat split; congruence].
  - split; [split; reflexivity | reflexivity].
  - reflexivity.
  - reflexivity.
  - reflexivity.
  - apply sample_udp_frame. reflexivity.
  - exact sample_offer_carried.
  - vm_compute. reflexivity.
  - apply sample_udp_frame. reflexivity.
  - exact sample_ack_carried.
  - vm_compute. reflexivity.
  - exists st'. split; [exact E|]. split; [exact Hown|]. destruct (Hr ltac:(vm_compute; reflexivity)) as [Hrt _].
    split; [exact Hrt|]. split; [exact (Hd ltac:(vm_compute; reflexivity))|]. split; [exact (se_name _ _ _ _ _ Hset) | exact (se_file _ _ _ _ _ Hset)].
Defined.

(** A reply in the array of the Ethernet layer, behind its headers. *)
Definition sample_ether (msg : list Z) : list Z := replicate 42 0 ++ msg ++ replicate (ETH_MTU_SIZE - 342) 0.

Lemma sample_packet : packet_at (sample_net (sample_ether offer_bytes) [] DHCP_STATE_SELECT) boot_ptr = offer_bytes ++ replicate (ETH_MTU_SIZE - 342) 0.
Proof. vm_compute. reflexivity. Qed.

Lemma sample_offer_here :
  let btph := packet_at (sample_net (sample_ether offer_bytes) [] DHCP_STATE_SELECT) boot_ptr in
  reply_at btph 0x1234567 300 sample_offer /\ says (fun _ => true) btph 300 sample_offer (Pxe None None) sample_offered (Pxe None None).
Proof.
  cbv zeta. rewrite sample_packet. assert (El : 300 = Z.of_nat (length offer_bytes)) by (vm_compute; reflexivity). rewrite El. apply sample_offer_carried.
Qed.

(** Witness: the offer above, in the state SELECT, is answered. *)
Lemma handle_dhcp_refines_witness :
  exists v st', handle_dhcp sample_send (fun _ => true) (replicate 1024 0) 1 (fun st => Ok (0, st)) (sample_net (sample_ether offer_bytes) [] DHCP_STATE_SELECT) boot_ptr 300 = Ok (v, st') /\
    reacts boot_ptr 300 sample_offer sample_offered [] (upd_dhcp (set_pxe (Pxe None None)) (sample_net (sample_ether offer_bytes) [] DHCP_STATE_SELECT)) v st'.
Proof.
  apply (handle_dhcp_refines sample_send (fun _ => true) (replicate 1024 0) eq_refl 1 (fun st => Ok (0, st)) (sample_net (sample_ether offer_bytes) [] DHCP_STATE_SELECT)
    boot_ptr 300 sample_offer (Pxe None None) sample_offered []).
  - exact (proj1 sample_offer_here).
  - exact (proj2 sample_offer_here).
  - vm_compute. discriminate.
  - apply sample_can_broadcast.
  - split; [split; reflexivity | reflexivity].
  - split; [lia|]. split; [rewrite sample_packet, length_app; vm_compute; discriminate | exact I].
Defined.

(** Witness: a request is no reply. *)
Lemma handle_dhcp_refuses_witness :
  handle_dhcp sample_send (fun _ => true) (replicate 1024 0) 1 (fun st => Ok (0, st)) (sample_net (sample_ether (<[0%nat := 1]> offer_bytes)) [] DHCP_STATE_SELECT) boot_ptr 300 =
    Ok (-1, sample_net (sample_ether (<[0%nat := 1]> offer_bytes)) [] DHCP_STATE_SELECT).
Proof.
  apply (handle_dhcp_refuses sample_send (fun _ => true) (replicate 1024 0) 1 (fun st => Ok (0, st))
    (sample_net (sample_ether (<[0%nat := 1]> offer_bytes)) [] DHCP_STATE_SELECT) boot_ptr 300 1 0x1234567).
  - vm_compute. reflexivity.
  - vm_compute. reflexivity.
  - left. discriminate.
Defined.

(** A BootP reply is looked for the address of its sender in front of the array. *)
Example bootp_leaves_array :
  handle_dhcp sample_send (fun _ => true) (replicate 1024 0) 1 (fun st => Ok (0, st)) (sample_net (sample_ether (take 236 offer_bytes ++ replicate 64 0)) [] DHCP_STATE_SELECT) boot_ptr 300 = Fault.
Proof. vm_compute. reflexivity. Qed.

(** Options of a long reply are copied past the end of the array of 1024 bytes. *)
Example long_options_overflow :
  reply_options (fun _ => true) (replicate 1024 0)
    (reply_bytes 1 (Reply 0 0 (replicate 64 0) (replicate 128 0) [Opt DHCP_OVERLOAD [DHCP_OVERLOAD_FILE]]) ++ replicate 1100 0) 1400 (Pxe None None) = Fault.
Proof. vm_compute. reflexivity. Qed.
