(* ===== verification/Engine.v ===== *)
(** * slof/paflof.c, prim.code: the engine of the Forth system

    Threaded code: a word is an array of cells that starts with a code field, the
    address of a piece of machine code (a label of the function engine), and goes on
    with what that code makes use of, for a colon definition the addresses of the
    code fields of its words.  [ip] points to the cell that is being executed, and
    every piece of code ends with a jump to the next one, so that the machine is
    a function from a label to the address to jump to.  Both stacks, the
    dictionary and the arrays are in one memory.

    Where the compiler and the linker put labels, arrays and words is the
    parameter [Layout]. *)

From Stdlib Require Import ZArith Lia ZifyNat.
From stdpp Require Import base list gmap option numbers strings.
From S2P Require Import Prelude CMem CString.

(** sizeof(type_u) *)
Definition CELLSIZE : Z := 8.

Definition TIBSIZE : Z := 256.
Definition POCKETSIZE : Z := 256.
Definition NUMPOCKETS : Z := 16.
Definition HASHSIZE : Z := 0x1000.

(** The labels of the function engine: those of the code fields, those of the
    primitives, and [over]. *)
Inductive label :=
| DOCOL | DODOES | DODEFER | DOALIAS | DOCON | DOVAL | DOFIELD | DOVAR | DOBUFFER
| TIB | POCKETS | EREGS | CIREGS | CISTACK | COMP_BUFFER | PAFLOF_START | HEAP_START | HEAP_END
| FDT_START | ROMFS_BASE | EPAPR_MAGIC | EPAPR_IMA_SIZE
| BRANCH | ZBRANCH | BREAKPOINT | LIT | DOTICK
| DUP | OVER | PICK | DROP | SWAP | TO_R | R_FROM | R_FETCH | DEPTH | DEPTH_STORE | RDEPTH | RDEPTH_STORE | RPICK
| PLUS | MINUS | TIMES | LSHIFT | RSHIFT | ASHIFT | AND | OR | XOR
| FETCH | STORE | C_FETCH | C_STORE | W_FETCH | W_STORE | L_FETCH | L_STORE | X_FETCH | X_STORE
| UNALIGNED_W_FETCH | UNALIGNED_W_STORE | UNALIGNED_L_FETCH | UNALIGNED_L_STORE
| LESS | U_LESS | ZERO_LESS | EQUALS | ZERO_EQUALS
| DODO | DO_QDO | DOLOOP | DO_PLUS_LOOP | DOLEAVE | DO_QLEAVE
| EXIT | SEMICOLON | EXECUTE | MOVE | FILL | COMP | STRING_CI | ZCOUNT | CLEAN_HASH | HASH_TABLE | HASH
| over.

#[export] Instance label_eq_dec : EqDecision label.
Proof. solve_decision. Defined.

(** Where things are.  [xt] is the address of the code field of a word of the
    dictionary of the engine. *)
Class Layout := {
  lab : label -> Z;
  unlab : Z -> option label;
  unlab_lab l : unlab (lab l) = Some l;
  the_data_stack : Z; the_return_stack : Z;
  stacks_apart : the_data_stack + 0x2000 <= the_return_stack \/ the_return_stack + 0x2000 <= the_data_stack;
  handler_stack : Z; c_return : Z; dummy : Z;
  the_tib : Z; the_pockets : Z; the_exception_frame : Z; the_client_frame : Z; the_client_stack : Z;
  the_comp_buffer : Z; _start_OF : Z; the_heap_start : Z; the_heap_end : Z;
  FORTH_WORDLIST_last : Z; xt_LASTWORD : Z;
  fdt_start : Z; romfs_base : Z; epapr_magic : Z; epapr_ima_size : Z; hash_table : Z;
  xt : string -> Z;
}.

(** The memory and the variables of the engine. *)
Record engine_st := Engine { emem : mem; ip : Z; cfa : Z; dp : Z; rp : Z }.

Section engine.
Context `{Layout}.
Implicit Type st : engine_st.

Definition with_mem st (m : mem) := Engine m (ip st) (cfa st) (dp st) (rp st).
Definition with_ip st (p : Z) := Engine (emem st) p (cfa st) (dp st) (rp st).
Definition with_cfa st (p : Z) := Engine (emem st) (ip st) p (dp st) (rp st).
Definition with_dp st (p : Z) := Engine (emem st) (ip st) (cfa st) p (rp st).
Definition with_rp st (p : Z) := Engine (emem st) (ip st) (cfa st) (dp st) p.

(** The cell at an address; a cell holds what is stored modulo 2^64. *)
Definition cell_at st (p : Z) : res Z := load64 (emem st) p.
Definition put_cell st (p v : Z) : res engine_st := with_mem st <$> store64 (emem st) p v.

(** ** The macros *)

Definition NEXT00 st : res (Z * engine_st) := w ← cell_at st (cfa st); Ok (w, st).
Definition NEXT0 st : res (Z * engine_st) := a ← cell_at st (ip st); NEXT00 (with_cfa st a).
Definition NEXT st : res (Z * engine_st) := NEXT0 (with_ip st (ip st + CELLSIZE)).

(** A primitive looks the next word up before its body runs. *)
Definition PRIM (body : engine_st -> res engine_st) st : res (Z * engine_st) :=
  let st := with_ip st (ip st + CELLSIZE) in
  a ← cell_at st (ip st);
  let st := with_cfa st a in
  w ← cell_at st a;
  st ← body st;
  Ok (w, st).

Definition TOS st : res Z := cell_at st (dp st).
Definition NOS st : res Z := cell_at st (dp st - CELLSIZE).
Definition set_TOS st (v : Z) : res engine_st := put_cell st (dp st) v.
Definition set_NOS st (v : Z) : res engine_st := put_cell st (dp st - CELLSIZE) v.
Definition POP st : engine_st := with_dp st (dp st - CELLSIZE).
Definition PUSH st : engine_st := with_dp st (dp st + CELLSIZE).

Definition RTOS st : res Z := cell_at st (rp st).
Definition set_RTOS st (v : Z) : res engine_st := put_cell st (rp st) v.
Definition RPOP st : engine_st := with_rp st (rp st - CELLSIZE).
Definition RPUSH st : engine_st := with_rp st (rp st + CELLSIZE).

(** PUSH; TOS = v *)
Definition push st (v : Z) : res engine_st := set_TOS (PUSH st) v.
(** RPUSH; RTOS = v *)
Definition rpush st (v : Z) : res engine_st := set_RTOS (RPUSH st) v.
(** *dp-- *)
Definition take st : res (Z * engine_st) := v ← TOS st; Ok (v, POP st).

(** NOS = f NOS TOS; POP *)
Definition binary (f : Z -> Z -> res Z) st : res engine_st :=
  a ← NOS st; b ← TOS st; v ← f a b; st ← set_NOS st v; Ok (POP st).

(** Shifting by the width or more is undefined. *)
Definition shift (f : Z -> Z -> Z) (a b : Z) : res Z := if b <? 64 then Ok (f a b) else Fault.

Definition flag (b : bool) : Z := if b then -1 else 0.

(** *(++ip) *)
Definition operand st : res (Z * engine_st) :=
  let st := with_ip st (ip st + CELLSIZE) in v ← cell_at st (ip st); Ok (v, st).
(** ip = (type_u)ip + dis *)
Definition jump st (dis : Z) : engine_st := with_ip st (u64 (ip st + dis)).

(** GET_TYPE and PUT_TYPE for types of [n] bytes. *)
Definition GET_TYPE (n : nat) st : res engine_st :=
  a ← TOS st; b ← load_be n (emem st) a; set_TOS st b.
Definition PUT_TYPE (n : nat) st : res engine_st :=
  a ← TOS st; b ← NOS st;
  let st := POP (POP st) in
  with_mem st <$> store_be n (emem st) a b.

(** UGET_TYPE and UPUT_TYPE: byte by byte. *)
Fixpoint get_bytes (n : nat) (m : mem) (a : Z) (acc : list Z) : res (list Z) :=
  match n with O => Ok acc | S n' => b ← load8 m a; get_bytes n' m (a + 1) (acc ++ [b]) end.
Definition UGET_TYPE (n : nat) st : res engine_st :=
  a ← TOS st; bs ← get_bytes n (emem st) a []; set_TOS st (be_dec bs).
Definition UPUT_TYPE (n : nat) st : res engine_st :=
  a ← TOS st; b ← NOS st;
  let st := POP (POP st) in
  with_mem st <$> store_bytes (emem st) a (be_enc n b).

(** ** Moving, filling, comparing *)

(** while (size > 0) with a copy of [n] bytes in each turn. *)
Fixpoint FWMOVE (fuel : nat) (n : nat) (m : mem) (s d size : Z) : res mem :=
  if size =? 0 then Ok m else
  match fuel with
  | O => OutOfFuel
  | S fuel' => v ← load_be n m s; m ← store_be n m d v;
               FWMOVE fuel' n m (s + Z.of_nat n) (d + Z.of_nat n) (u64 (size - Z.of_nat n))
  end.

Fixpoint BWMOVE (fuel : nat) (n : nat) (m : mem) (s d size : Z) : res mem :=
  if size =? 0 then Ok m else
  match fuel with
  | O => OutOfFuel
  | S fuel' => v ← load_be n m (s - Z.of_nat n); m ← store_be n m (d - Z.of_nat n) v;
               BWMOVE fuel' n m (s - Z.of_nat n) (d - Z.of_nat n) (u64 (size - Z.of_nat n))
  end.

Definition FWOVERLAP (s d size : Z) : bool := (s <=? d) && (d <? u64 (s + size)).

Definition MOVE_ (n : nat) (m : mem) (s d size : Z) : res mem :=
  let fuel := Z.to_nat size in
  if FWOVERLAP s d size then BWMOVE fuel n m (s + size) (d + size) size else FWMOVE fuel n m s d size.

Definition FASTMOVE (m : mem) (s d size : Z) : res mem :=
  let a := Z.land (Z.lor (Z.lor s d) size) (CELLSIZE - 1) in
  if a =? 0 then MOVE_ 8 m s d size
  else if a =? 4 then MOVE_ 4 m s d size
  else if (a =? 2) || (a =? 6) then MOVE_ 2 m s d size
  else MOVE_ 1 m s d size.

(** while ((size -= n) >= 0) *d++ = v, with a signed size. *)
Fixpoint fill_loop (fuel : nat) (n : nat) (m : mem) (d size v : Z) : res mem :=
  let size := s64 (size - Z.of_nat n) in
  if size <? 0 then Ok m else
  match fuel with
  | O => OutOfFuel
  | S fuel' => m ← store_be n m d v; fill_loop fuel' n m (d + Z.of_nat n) size v
  end.

Definition fill (m : mem) (d size c : Z) : res mem :=
  let fill_v := Z.lor c (Z.shiftl c 8) in
  let fill_v := Z.lor fill_v (u64 (Z.shiftl fill_v 16)) in
  let a := Z.land (Z.lor d (u64 size)) (CELLSIZE - 1) in
  let fuel := Z.to_nat size in
  if a =? 0 then fill_loop fuel 8 m d size (Z.lor fill_v (u64 (Z.shiftl fill_v 32)))
  else if a =? 4 then fill_loop fuel 4 m d size fill_v
  else if a =? 2 then fill_loop fuel 2 m d size fill_v
  else fill_loop fuel 1 m d size c.

(** while (len-- > 0) *)
Fixpoint comp_loop (len : nat) (m : mem) (addr1 addr2 : Z) : res Z :=
  match len with
  | O => Ok 0
  | S len' =>
      c1 ← load8 m addr1; c2 ← load8 m addr2;
      if c2 <? c1 then Ok 1 else if c1 <? c2 then Ok (-1) else comp_loop len' m (addr1 + 1) (addr2 + 1)
  end.

Fixpoint ci_loop (l1 : nat) (m : mem) (p1 p2 : Z) : res Z :=
  match l1 with
  | O => Ok (-1)
  | S l1' =>
      c1 ← load8 m p1; c2 ← load8 m p2;
      if negb (toupper c1 =? toupper c2) then Ok 0 else ci_loop l1' m (p1 + 1) (p2 + 1)
  end.

Fixpoint hash_loop (len : nat) (m : mem) (str tmp hash : Z) : res Z :=
  match len with
  | O => Ok hash
  | S len' =>
      c ← load8 m str;
      hash_loop len' m (str + 1) tmp (Z.lxor (Z.lxor (u64 (Z.shiftl hash 1)) (tolower c)) tmp)
  end.

(** ** The code at each label *)

(** DODO: the limit and the index go to the return stack. *)
Definition dodo st : res engine_st :=
  n ← NOS st; st ← rpush st n; i ← TOS st; st ← rpush st i; Ok (POP (POP st)).

Definition do_qdo st : res (Z * engine_st) :=
  '(i, st) ← take st; '(n, st) ← take st; '(dis, st) ← operand st;
  if i =? n then NEXT (jump st dis)
  else
    st ← put_cell st (rp st + CELLSIZE) n;
    let st := with_rp st (rp st + 2 * CELLSIZE) in
    st ← put_cell st (rp st) i;
    NEXT st.

Definition doloop st : res (Z * engine_st) :=
  '(dis, st) ← operand st;
  i ← RTOS st; st ← set_RTOS st (i + 1);
  i ← RTOS st; n ← cell_at st (rp st - CELLSIZE);
  if i =? n then NEXT (with_rp st (rp st - 2 * CELLSIZE)) else NEXT (jump st dis).

Definition do_plus_loop st : res (Z * engine_st) :=
  '(dis, st) ← operand st;
  lo ← RTOS st;
  '(inc, st) ← take st;
  st ← set_RTOS st (lo + inc);
  i ← RTOS st;
  let '(lo, hi) := if 0 <=? s64 inc then (lo, i) else (i, lo) in
  n ← cell_at st (rp st - CELLSIZE);
  if u64 (n - 1 - lo) <? u64 (hi - lo) then NEXT (with_rp st (rp st - 2 * CELLSIZE)) else NEXT (jump st dis).

Definition doleave st : res (Z * engine_st) :=
  '(dis, st) ← operand st; NEXT (jump (with_rp st (rp st - 2 * CELLSIZE)) dis).

Definition do_qleave st : res (Z * engine_st) :=
  '(dis, st) ← operand st; '(f, st) ← take st;
  NEXT (if negb (f =? 0) then jump (with_rp st (rp st - 2 * CELLSIZE)) dis else st).

Definition string_ci st : res engine_st :=
  l2 ← TOS st; let st := POP st in
  p2 ← TOS st; let st := POP st in
  l1 ← TOS st; let st := POP st in
  p1 ← TOS st;
  if l1 =? l2 then v ← ci_loop (Z.to_nat l1) (emem st) p1 p2; set_TOS st v else set_TOS st 0.

Definition hash st : res engine_st :=
  len ← TOS st; let st := POP st in
  str ← TOS st;
  h ← hash_loop (Z.to_nat len) (emem st) str len 0;
  set_TOS st (hash_table + u64 (Z.land h (HASHSIZE - 1) * CELLSIZE)).

(** What the code at a label does: the address it jumps to and the new state.
    The label [over] ends the function engine and has no code here. *)
Definition run (l : label) st : res (Z * engine_st) :=
  match l with
  | over => Fault
  (* code fields *)
  | DOCOL => st ← rpush st (ip st); NEXT (with_ip st (cfa st))
  | DODOES =>
      st ← rpush st (ip st); p ← cell_at st (cfa st + CELLSIZE);
      st ← push (with_ip st p) (cfa st + 2 * CELLSIZE); NEXT0 st
  | DODEFER | DOALIAS => c ← cell_at st (cfa st + CELLSIZE); NEXT00 (with_cfa st c)
  | DOCON | DOVAL => v ← cell_at st (cfa st + CELLSIZE); st ← push st v; NEXT st
  | DOFIELD => n ← TOS st; v ← cell_at st (cfa st + CELLSIZE); st ← set_TOS st (n + v); NEXT st
  | DOVAR | DOBUFFER => st ← push st (cfa st + CELLSIZE); NEXT st
  (* addresses of the machine *)
  | TIB => PRIM (fun st => push st the_tib) st
  | POCKETS => PRIM (fun st => push st the_pockets) st
  | EREGS => PRIM (fun st => push st the_exception_frame) st
  | CIREGS => PRIM (fun st => push st the_client_frame) st
  | CISTACK => PRIM (fun st => push st (the_client_stack + 0x8000)) st
  | COMP_BUFFER => PRIM (fun st => push st the_comp_buffer) st
  | PAFLOF_START => PRIM (fun st => push st _start_OF) st
  | HEAP_START => PRIM (fun st => push st the_heap_start) st
  | HEAP_END => PRIM (fun st => push st the_heap_end) st
  | FDT_START => PRIM (fun st => push st fdt_start) st
  | ROMFS_BASE => PRIM (fun st => push st romfs_base) st
  | EPAPR_MAGIC => PRIM (fun st => push st epapr_magic) st
  | EPAPR_IMA_SIZE => PRIM (fun st => push st epapr_ima_size) st
  (* branches and literals *)
  | BRANCH => '(dis, st) ← operand st; NEXT (jump st dis)
  | ZBRANCH => '(dis, st) ← operand st; f ← TOS st; NEXT (POP (if f =? 0 then jump st dis else st))
  | BREAKPOINT => st ← rpush st (ip st); NEXT (with_ip st (xt "BP"))
  | LIT | DOTICK => '(v, st) ← operand st; st ← push st v; NEXT st
  (* 1: the stacks *)
  | DUP => PRIM (fun st => x ← TOS st; push st x) st
  | OVER => PRIM (fun st => x ← NOS st; push st x) st
  | PICK => PRIM (fun st => n ← TOS st; x ← cell_at st (dp st - CELLSIZE * s64 n - CELLSIZE); set_TOS st x) st
  | DROP => PRIM (fun st => Ok (POP st)) st
  | SWAP => PRIM (fun st => x ← NOS st; y ← TOS st; st ← set_NOS st y; set_TOS st x) st
  | TO_R => PRIM (fun st => x ← TOS st; st ← rpush st x; Ok (POP st)) st
  | R_FROM => PRIM (fun st => x ← RTOS st; st ← push st x; Ok (RPOP st)) st
  | R_FETCH => PRIM (fun st => x ← RTOS st; push st x) st
  | DEPTH => PRIM (fun st => let st := PUSH st in set_TOS st ((dp st - the_data_stack) / CELLSIZE)) st
  | DEPTH_STORE => PRIM (fun st => n ← TOS st; Ok (with_dp st (the_data_stack + CELLSIZE * n - CELLSIZE))) st
  | RDEPTH => PRIM (fun st => push st ((rp st - the_return_stack) / CELLSIZE + 1)) st
  | RDEPTH_STORE =>
      PRIM (fun st => n ← TOS st; Ok (POP (with_rp st (the_return_stack + CELLSIZE * n - CELLSIZE)))) st
  | RPICK => PRIM (fun st => n ← TOS st; x ← cell_at st (rp st - CELLSIZE * s64 n); set_TOS st x) st
  (* 2: arithmetic *)
  | PLUS => PRIM (binary (fun a b => Ok (a + b))) st
  | MINUS => PRIM (binary (fun a b => Ok (a - b))) st
  | TIMES => PRIM (binary (fun a b => Ok (a * b))) st
  | LSHIFT => PRIM (binary (shift Z.shiftl)) st
  | RSHIFT => PRIM (binary (shift Z.shiftr)) st
  | ASHIFT => PRIM (binary (shift (fun a b => Z.shiftr (s64 a) b))) st
  | AND => PRIM (binary (fun a b => Ok (Z.land a b))) st
  | OR => PRIM (binary (fun a b => Ok (Z.lor a b))) st
  | XOR => PRIM (binary (fun a b => Ok (Z.lxor a b))) st
  (* 3: memory *)
  | FETCH | X_FETCH => PRIM (GET_TYPE 8) st
  | STORE | X_STORE => PRIM (PUT_TYPE 8) st
  | C_FETCH => PRIM (GET_TYPE 1) st
  | C_STORE => PRIM (PUT_TYPE 1) st
  | W_FETCH => PRIM (GET_TYPE 2) st
  | W_STORE => PRIM (PUT_TYPE 2) st
  | L_FETCH => PRIM (GET_TYPE 4) st
  | L_STORE => PRIM (PUT_TYPE 4) st
  | UNALIGNED_W_FETCH => PRIM (UGET_TYPE 2) st
  | UNALIGNED_W_STORE => PRIM (UPUT_TYPE 2) st
  | UNALIGNED_L_FETCH => PRIM (UGET_TYPE 4) st
  | UNALIGNED_L_STORE => PRIM (UPUT_TYPE 4) st
  (* 6: comparisons *)
  | LESS => PRIM (binary (fun a b => Ok (flag (s64 a <? s64 b)))) st
  | U_LESS => PRIM (binary (fun a b => Ok (flag (a <? b)))) st
  | ZERO_LESS => PRIM (fun st => a ← TOS st; set_TOS st (flag (s64 a <? 0))) st
  | EQUALS => PRIM (binary (fun a b => Ok (flag (a =? b)))) st
  | ZERO_EQUALS => PRIM (fun st => a ← TOS st; set_TOS st (flag (a =? 0))) st
  (* 8: loops, ends and calls *)
  | DODO => PRIM dodo st
  | DO_QDO => do_qdo st
  | DOLOOP => doloop st
  | DO_PLUS_LOOP => do_plus_loop st
  | DOLEAVE => doleave st
  | DO_QLEAVE => do_qleave st
  | EXIT | SEMICOLON => p ← RTOS st; NEXT (RPOP (with_ip st p))
  | EXECUTE => '(c, st) ← take st; NEXT00 (with_cfa st c)
  (* blocks of memory *)
  | MOVE =>
      PRIM (fun st =>
        n ← TOS st; let st := POP st in
        q ← TOS st; let st := POP st in
        p ← TOS st; let st := POP st in
        with_mem st <$> FASTMOVE (emem st) p q n) st
  | FILL =>
      '(c, st) ← take st; '(size, st) ← take st; '(d, st) ← take st;
      m ← fill (emem st) d (s64 size) (u8 c);
      NEXT (with_mem st m)
  | COMP =>
      '(len, st) ← take st; '(addr2, st) ← take st; '(addr1, st) ← take st;
      v ← comp_loop (Z.to_nat (s64 len)) (emem st) addr1 addr2;
      st ← push st v;
      NEXT st
  | STRING_CI => PRIM string_ci st
  | ZCOUNT => PRIM (fun st => s ← TOS st; len ← strlen (emem st) s; push st len) st
  | CLEAN_HASH => PRIM (fun st => '(_, m) ← memset (emem st) hash_table 0 (HASHSIZE * CELLSIZE); Ok (with_mem st m)) st
  | HASH_TABLE => PRIM (fun st => push st hash_table) st
  | HASH => PRIM hash st
  end.

(** One jump: the state is the address jumped to and the variables. *)
Definition step (s : Z * engine_st) : res (Z * engine_st) :=
  l ← of_option (unlab s.1); run l s.2.

(** ** The function engine *)

Definition MODE_PARAM_1 : Z := 0x1.
Definition MODE_PARAM_2 : Z := 0x2.
Definition MODE_NOP : Z := 0x4.
Definition MODE_EVAL : Z := 0x8.
Definition MODE_POP : Z := 0x10.

Definition mode_has (mode bit : Z) : bool := negb (Z.land mode bit =? 0).

(** The jumps until the label over. *)
Fixpoint jumps (fuel : nat) (s : Z * engine_st) : res engine_st :=
  if decide (unlab s.1 = Some over) then Ok s.2 else
  match fuel with
  | O => OutOfFuel
  | S fuel' => s ← step s; jumps fuel' s
  end.

(** The value is None where the function returns 0. *)
Definition finish (mode : Z) st : res (Z * engine_st) :=
  if mode_has mode MODE_POP then '(v, st) ← take st; Ok (s64 v, st) else Ok (0, st).

(** The initialisation, once: the last word of the dictionary, both stacks and
    the words for the end. *)
Definition engine_init (init_engine : bool) st : res engine_st :=
  if init_engine then Ok st else
  st ← put_cell st FORTH_WORDLIST_last xt_LASTWORD;
  st ← put_cell st dummy (lab over);
  put_cell (with_dp (with_rp st (handler_stack - CELLSIZE)) (the_data_stack - CELLSIZE)) (c_return + CELLSIZE) dummy.

(** [xt_EVALUATE] and [xt_SYSTHROW] are the first cells to be executed. *)
Definition engine (fuel : nat) (init_engine : bool) (mode param_1 param_2 xt_SYSTHROW : Z) st : res (Z * engine_st) :=
  st ← engine_init init_engine st;
  st ← (if mode_has mode MODE_PARAM_2 then push st param_2 else Ok st);
  st ← (if mode_has mode MODE_PARAM_1 then push st param_1 else Ok st);
  if mode_has mode MODE_NOP then finish mode st else
  st ← (if mode_has mode MODE_EVAL then
          st ← rpush st c_return; Ok (with_ip st (xt "EVALUATE" + CELLSIZE))
        else Ok (with_ip st xt_SYSTHROW));
  s ← NEXT0 st;
  st ← jumps fuel s;
  finish mode st.
End engine.
