(* ===== verification/Forth.v ===== *)
(** * slof/prim.code: the engine over stacks that are lists

    The machine of Engine.v keeps both stacks in memory.  Here is the machine a
    Forth programmer thinks of, with the stacks as lists, the top first, beside the
    memory; a pop of an empty stack and a push on a full one are a [Fault].  The
    theorem [run_refines] shows that the code of the engine does the steps of this machine:
    what Words.v and the files after it show of programs holds of the engine. *)

From Stdlib Require Import ZArith Lia ZifyNat.
From stdpp Require Import base list gmap option numbers strings fin_maps.
From S2P Require Import Prelude CMem CString Engine.

(** Both stacks have 0x2000 bytes (ppc64.c). *)
Definition STACK_CELLS : nat := 1024.

(** What a cell holds. *)
Definition cell (v : Z) : Prop := 0 <= v < 2 ^ 64.

Record forth_st := Forth { fm : mem; fip : Z; fcfa : Z; ds : list Z; rs : list Z }.

Section forth.
Context `{Layout}.
Implicit Type st : forth_st.

Definition fwith_mem st (m : mem) := Forth m (fip st) (fcfa st) (ds st) (rs st).
Definition fwith_ip st (p : Z) := Forth (fm st) p (fcfa st) (ds st) (rs st).
Definition fwith_cfa st (p : Z) := Forth (fm st) (fip st) p (ds st) (rs st).
Definition fwith_ds st (l : list Z) := Forth (fm st) (fip st) (fcfa st) l (rs st).
Definition fwith_rs st (l : list Z) := Forth (fm st) (fip st) (fcfa st) (ds st) l.

Definition fcell st (p : Z) : res Z := load64 (fm st) p.
Definition fNEXT00 st : res (Z * forth_st) := w ← fcell st (fcfa st); Ok (w, st).
Definition fNEXT0 st : res (Z * forth_st) := a ← fcell st (fip st); fNEXT00 (fwith_cfa st a).
Definition fNEXT st : res (Z * forth_st) := fNEXT0 (fwith_ip st (fip st + CELLSIZE)).
Definition fPRIM (body : forth_st -> res forth_st) st : res (Z * forth_st) :=
  let st := fwith_ip st (fip st + CELLSIZE) in
  a ← fcell st (fip st);
  let st := fwith_cfa st a in
  w ← fcell st a;
  st ← body st;
  Ok (w, st).
Definition foperand st : res (Z * forth_st) :=
  let st := fwith_ip st (fip st + CELLSIZE) in v ← fcell st (fip st); Ok (v, st).
Definition fjump st (dis : Z) : forth_st := fwith_ip st (u64 (fip st + dis)).

(** ** The stacks *)

Definition fpush st (v : Z) : res forth_st :=
  if decide (length (ds st) < STACK_CELLS)%nat then Ok (fwith_ds st (u64 v :: ds st)) else Fault.
(** A cell that is moved. *)
Definition fmove st (v : Z) : res forth_st :=
  if decide (length (ds st) < STACK_CELLS)%nat then Ok (fwith_ds st (v :: ds st)) else Fault.
Definition ftake st : res (Z * forth_st) :=
  match ds st with v :: l => Ok (v, fwith_ds st l) | [] => Fault end.
Definition frpush st (v : Z) : res forth_st :=
  if decide (length (rs st) < STACK_CELLS)%nat then Ok (fwith_rs st (u64 v :: rs st)) else Fault.
Definition frmove st (v : Z) : res forth_st :=
  if decide (length (rs st) < STACK_CELLS)%nat then Ok (fwith_rs st (v :: rs st)) else Fault.
Definition frtake st : res (Z * forth_st) :=
  match rs st with v :: l => Ok (v, fwith_rs st l) | [] => Fault end.
(** Both cells of a counted loop. *)
Definition frtake2 st : res (Z * Z * forth_st) := '(i, st) ← frtake st; '(n, st) ← frtake st; Ok (i, n, st).

Definition fpick (l : list Z) (n : Z) : res Z := if n <? 0 then Fault else of_option (l !! Z.to_nat n).

(** ** What the code at a label does *)

Definition funary (f : Z -> Z) st : res forth_st := '(a, st) ← ftake st; fpush st (f a).
Definition fbinary (f : Z -> Z -> res Z) st : res forth_st :=
  '(b, st) ← ftake st; '(a, st) ← ftake st; v ← f a b; fpush st v.
Definition fget (n : nat) st : res forth_st := '(a, st) ← ftake st; v ← load_be n (fm st) a; fpush st v.
Definition fput (n : nat) st : res forth_st :=
  '(a, st) ← ftake st; '(v, st) ← ftake st; fwith_mem st <$> store_be n (fm st) a v.

Definition fdo_qdo st : res (Z * forth_st) :=
  '(i, st) ← ftake st; '(n, st) ← ftake st; '(dis, st) ← foperand st;
  if i =? n then fNEXT (fjump st dis) else st ← frmove st n; st ← frmove st i; fNEXT st.

Definition floop st : res (Z * forth_st) :=
  '(dis, st) ← foperand st;
  '(i, n, st') ← frtake2 st;
  if u64 (i + 1) =? n then fNEXT st' else fNEXT (fjump (fwith_rs st' (u64 (i + 1) :: n :: rs st')) dis).

(** Whether the addition of [inc] to [i] crosses the line between [n] - 1 and [n]. *)
Definition crosses (i inc n : Z) : bool :=
  let '(lo, hi) := if 0 <=? s64 inc then (i, u64 (i + inc)) else (u64 (i + inc), i) in
  u64 (n - 1 - lo) <? u64 (hi - lo).

Definition fplus_loop st : res (Z * forth_st) :=
  '(dis, st) ← foperand st;
  '(inc, st) ← ftake st;
  '(i, n, st') ← frtake2 st;
  if crosses i inc n then fNEXT st' else fNEXT (fjump (fwith_rs st' (u64 (i + inc) :: n :: rs st')) dis).

Definition fqleave st : res (Z * forth_st) :=
  '(dis, st) ← foperand st; '(f, st) ← ftake st;
  if negb (f =? 0) then '(_, _, st) ← frtake2 st; fNEXT (fjump st dis) else fNEXT st.

Definition fstring_ci st : res forth_st :=
  '(l2, st) ← ftake st; '(p2, st) ← ftake st; '(l1, st) ← ftake st; '(p1, st) ← ftake st;
  if l1 =? l2 then v ← ci_loop (Z.to_nat l1) (fm st) p1 p2; fpush st v else fpush st 0.

Definition frun (l : label) st : res (Z * forth_st) :=
  match l with
  | over => Fault
  | DOCOL => st ← frpush st (fip st); fNEXT (fwith_ip st (fcfa st))
  | DODOES =>
      st ← frpush st (fip st); p ← fcell st (fcfa st + CELLSIZE);
      st ← fpush (fwith_ip st p) (fcfa st + 2 * CELLSIZE); fNEXT0 st
  | DODEFER | DOALIAS => c ← fcell st (fcfa st + CELLSIZE); fNEXT00 (fwith_cfa st c)
  | DOCON | DOVAL => v ← fcell st (fcfa st + CELLSIZE); st ← fpush st v; fNEXT st
  | DOFIELD => '(n, st) ← ftake st; v ← fcell st (fcfa st + CELLSIZE); st ← fpush st (n + v); fNEXT st
  | DOVAR | DOBUFFER => st ← fpush st (fcfa st + CELLSIZE); fNEXT st
  | TIB => fPRIM (fun st => fpush st the_tib) st
  | POCKETS => fPRIM (fun st => fpush st the_pockets) st
  | EREGS => fPRIM (fun st => fpush st the_exception_frame) st
  | CIREGS => fPRIM (fun st => fpush st the_client_frame) st
  | CISTACK => fPRIM (fun st => fpush st (the_client_stack + 0x8000)) st
  | COMP_BUFFER => fPRIM (fun st => fpush st the_comp_buffer) st
  | PAFLOF_START => fPRIM (fun st => fpush st _start_OF) st
  | HEAP_START => fPRIM (fun st => fpush st the_heap_start) st
  | HEAP_END => fPRIM (fun st => fpush st the_heap_end) st
  | FDT_START => fPRIM (fun st => fpush st fdt_start) st
  | ROMFS_BASE => fPRIM (fun st => fpush st romfs_base) st
  | EPAPR_MAGIC => fPRIM (fun st => fpush st epapr_magic) st
  | EPAPR_IMA_SIZE => fPRIM (fun st => fpush st epapr_ima_size) st
  | BRANCH => '(dis, st) ← foperand st; fNEXT (fjump st dis)
  | ZBRANCH => '(dis, st) ← foperand st; '(f, st) ← ftake st; fNEXT (if f =? 0 then fjump st dis else st)
  | BREAKPOINT => st ← frpush st (fip st); fNEXT (fwith_ip st (xt "BP"))
  | LIT | DOTICK => '(v, st) ← foperand st; st ← fpush st v; fNEXT st
  | DUP => fPRIM (fun st => v ← fpick (ds st) 0; fmove st v) st
  | OVER => fPRIM (fun st => v ← fpick (ds st) 1; fmove st v) st
  | PICK => fPRIM (fun st => '(n, st) ← ftake st; v ← fpick (ds st) (s64 n); fmove st v) st
  | DROP => fPRIM (fun st => '(_, st) ← ftake st; Ok st) st
  | SWAP => fPRIM (fun st => '(b, st) ← ftake st; '(a, st) ← ftake st; st ← fmove st b; fmove st a) st
  | TO_R => fPRIM (fun st => '(x, st) ← ftake st; frmove st x) st
  | R_FROM => fPRIM (fun st => '(x, st) ← frtake st; fmove st x) st
  | R_FETCH => fPRIM (fun st => x ← fpick (rs st) 0; fmove st x) st
  | DEPTH => fPRIM (fun st => fpush st (Z.of_nat (length (ds st)))) st
  | DEPTH_STORE =>
      fPRIM (fun st => n ← fpick (ds st) 0;
        let k := Z.to_nat n in
        if decide (k <= length (ds st))%nat then Ok (fwith_ds st (drop (length (ds st) - k) (ds st))) else Fault) st
  | RDEPTH => fPRIM (fun st => fpush st (Z.of_nat (length (rs st)))) st
  | RDEPTH_STORE =>
      fPRIM (fun st => '(n, st) ← ftake st;
        let k := Z.to_nat n in
        if decide (k <= length (rs st))%nat then Ok (fwith_rs st (drop (length (rs st) - k) (rs st))) else Fault) st
  | RPICK => fPRIM (fun st => '(n, st) ← ftake st; v ← fpick (rs st) (s64 n); fmove st v) st
  | PLUS => fPRIM (fbinary (fun a b => Ok (a + b))) st
  | MINUS => fPRIM (fbinary (fun a b => Ok (a - b))) st
  | TIMES => fPRIM (fbinary (fun a b => Ok (a * b))) st
  | LSHIFT => fPRIM (fbinary (shift Z.shiftl)) st
  | RSHIFT => fPRIM (fbinary (shift Z.shiftr)) st
  | ASHIFT => fPRIM (fbinary (shift (fun a b => Z.shiftr (s64 a) b))) st
  | AND => fPRIM (fbinary (fun a b => Ok (Z.land a b))) st
  | OR => fPRIM (fbinary (fun a b => Ok (Z.lor a b))) st
  | XOR => fPRIM (fbinary (fun a b => Ok (Z.lxor a b))) st
  | FETCH | X_FETCH => fPRIM (fget 8) st
  | STORE | X_STORE => fPRIM (fput 8) st
  | C_FETCH => fPRIM (fget 1) st
  | C_STORE => fPRIM (fput 1) st
  | W_FETCH | UNALIGNED_W_FETCH => fPRIM (fget 2) st
  | W_STORE | UNALIGNED_W_STORE => fPRIM (fput 2) st
  | L_FETCH | UNALIGNED_L_FETCH => fPRIM (fget 4) st
  | L_STORE | UNALIGNED_L_STORE => fPRIM (fput 4) st
  | LESS => fPRIM (fbinary (fun a b => Ok (flag (s64 a <? s64 b)))) st
  | U_LESS => fPRIM (fbinary (fun a b => Ok (flag (a <? b)))) st
  | ZERO_LESS => fPRIM (funary (fun a => flag (s64 a <? 0))) st
  | EQUALS => fPRIM (fbinary (fun a b => Ok (flag (a =? b)))) st
  | ZERO_EQUALS => fPRIM (funary (fun a => flag (a =? 0))) st
  | DODO => fPRIM (fun st => '(i, st) ← ftake st; '(n, st) ← ftake st; st ← frmove st n; frmove st i) st
  | DO_QDO => fdo_qdo st
  | DOLOOP => floop st
  | DO_PLUS_LOOP => fplus_loop st
  | DOLEAVE => '(dis, st) ← foperand st; '(_, _, st) ← frtake2 st; fNEXT (fjump st dis)
  | DO_QLEAVE => fqleave st
  | EXIT | SEMICOLON => '(p, st) ← frtake st; fNEXT (fwith_ip st p)
  | EXECUTE => '(c, st) ← ftake st; fNEXT00 (fwith_cfa st c)
  | MOVE =>
      fPRIM (fun st => '(n, st) ← ftake st; '(q, st) ← ftake st; '(p, st) ← ftake st;
        fwith_mem st <$> FASTMOVE (fm st) p q n) st
  | FILL =>
      '(c, st) ← ftake st; '(size, st) ← ftake st; '(d, st) ← ftake st;
      m ← fill (fm st) d (s64 size) (u8 c); fNEXT (fwith_mem st m)
  | COMP =>
      '(len, st) ← ftake st; '(addr2, st) ← ftake st; '(addr1, st) ← ftake st;
      v ← comp_loop (Z.to_nat (s64 len)) (fm st) addr1 addr2; st ← fpush st v; fNEXT st
  | STRING_CI => fPRIM fstring_ci st
  | ZCOUNT => fPRIM (fun st => s ← fpick (ds st) 0; n ← strlen (fm st) s; fpush st n) st
  | CLEAN_HASH => fPRIM (fun st => '(_, m) ← memset (fm st) hash_table 0 (HASHSIZE * CELLSIZE); Ok (fwith_mem st m)) st
  | HASH_TABLE => fPRIM (fun st => fpush st hash_table) st
  | HASH =>
      fPRIM (fun st => '(n, st) ← ftake st; '(s, st) ← ftake st;
        h ← hash_loop (Z.to_nat n) (fm st) s n 0;
        fpush st (hash_table + u64 (Z.land h (HASHSIZE - 1) * CELLSIZE))) st
  end.

Definition fstep (s : Z * forth_st) : res (Z * forth_st) := l ← of_option (unlab s.1); frun l s.2.

Inductive fsteps : Z * forth_st -> Z * forth_st -> Prop :=
| fsteps_refl s : fsteps s s
| fsteps_step s1 s2 s3 : fstep s1 = Ok s2 -> fsteps s2 s3 -> fsteps s1 s3.

Lemma fsteps_trans s1 s2 s3 : fsteps s1 s2 -> fsteps s2 s3 -> fsteps s1 s3.
Proof. induction 1; [done|]. intros. econstructor; eauto. Qed.

Lemma fsteps_one s1 s2 : fstep s1 = Ok s2 -> fsteps s1 s2.
Proof. intros. econstructor; [done | constructor]. Qed.
End forth.
