(* ===== verification/Dict.v ===== *)
(** * slof/prim.in, engine.in: the dictionary of the engine

    The words of the dictionary as the files list them, and the arrays of cells that ref.pl and the
    macros of prep.h make of them.  The operand of LIT is the number ([_N]), that of a
    branch is the number of cells to skip ([_O]). *)

From Stdlib Require Import ZArith Lia ZifyNat.
From stdpp Require Import base list gmap option numbers strings.
From S2P Require Import Prelude CMem Engine Forth.

(** What a definition is made of: a word, a word with its operand, a code field. *)
Inductive tok :=
| Word (name : string)
| Arg (name : string) (v : Z)
| Code (l : label).

Definition lit (v : Z) : tok := Arg "LIT" v.
Definition off (name : string) (cells : Z) : tok := Arg name (CELLSIZE * cells).
Definition zbr (cells : Z) : tok := off "0BRANCH" cells.
Definition br (cells : Z) : tok := off "BRANCH" cells.
Definition lab_ (l : label) : tok := Code l.

(** A cell: the address of a code field, a number, or the address of a label. *)
Inductive item := Xt (name : string) | Num (v : Z) | Lab (l : label).

Definition items (t : tok) : list item :=
  match t with Word w => [Xt w] | Arg w v => [Xt w; Num v] | Code l => [Lab l] end.

(** The macros of prep.h.  Cells that the system changes are given with their first
    value; the addresses in the cells of a [raw] word and the bytes of a [str] are left
    out. *)
Inductive def :=
| Cod (l : label)
| Col (immediate : bool) (body : list tok)
| Con (v : Z) | Val (v : Z) | Var (v : Z) | Dfr
| Raw (l : label)
| Str (s : string).

Record entry := Entry { ename : string; edef : def }.

Definition cod name l := Entry name (Cod l).
Definition col name body := Entry name (Col false body).
Definition imm name body := Entry name (Col true body).
Definition con name v := Entry name (Con v).
Definition val name v := Entry name (Val v).
Definition var name v := Entry name (Var v).
Definition dfr name := Entry name Dfr.
Definition raw name l := Entry name (Raw l).
Definition str name s := Entry name (Str s).

Coercion Word : string >-> tok.

Declare Scope tok_scope.
Delimit Scope tok_scope with tok.
Notation "[ ]" := (@nil tok) : tok_scope.
Notation "[ x ]" := (@cons tok x (@nil tok)) : tok_scope.
Notation "[ x ; y ; .. ; z ]" := (@cons tok x (@cons tok y .. (@cons tok z (@nil tok)) ..)) : tok_scope.
Arguments col name body%_tok.
Arguments imm name body%_tok.

Open Scope string_scope.
Open Scope Z_scope.

(** prim.in, without the three words that call the hypervisor. *)
Definition prim_in : list entry := [
  cod "TIB" TIB;
  cod "POCKETS" POCKETS;
  cod "EREGS" EREGS;
  cod "CIREGS" CIREGS;
  cod "CISTACK" CISTACK;
  cod "COMP-BUFFER" COMP_BUFFER;
  cod "PAFLOF-START" PAFLOF_START;
  cod "HEAP-START" HEAP_START;
  cod "HEAP-END" HEAP_END;
  cod "FDT-START" FDT_START;
  cod "ROMFS-BASE" ROMFS_BASE;
  cod "EPAPR-MAGIC" EPAPR_MAGIC;
  cod "EPAPR-IMA-SIZE" EPAPR_IMA_SIZE;
  cod "BRANCH" BRANCH;
  cod "0BRANCH" ZBRANCH;
  dfr "BP";
  cod "BREAKPOINT" BREAKPOINT;
  cod "LIT" LIT;
  cod "DOTICK" DOTICK;
  cod "DUP" DUP;
  cod "OVER" OVER;
  cod "PICK" PICK;
  cod "DROP" DROP;
  cod "SWAP" SWAP;
  cod ">R" TO_R;
  cod "R>" R_FROM;
  cod "R@" R_FETCH;
  cod "RPICK" RPICK;
  cod "DEPTH" DEPTH;
  cod "DEPTH!" DEPTH_STORE;
  cod "RDEPTH" RDEPTH;
  cod "RDEPTH!" RDEPTH_STORE;
  cod "+" PLUS;
  cod "-" MINUS;
  cod "*" TIMES;
  cod "LSHIFT" LSHIFT;
  cod "RSHIFT" RSHIFT;
  cod "ASHIFT" ASHIFT;
  cod "AND" AND;
  cod "OR" OR;
  cod "XOR" XOR;
  cod "@" FETCH;
  cod "!" STORE;
  cod "C@" C_FETCH;
  cod "C!" C_STORE;
  cod "W@" W_FETCH;
  cod "W!" W_STORE;
  cod "L@" L_FETCH;
  cod "L!" L_STORE;
  cod "X@" X_FETCH;
  cod "X!" X_STORE;
  cod "UNALIGNED-W@" UNALIGNED_W_FETCH;
  cod "UNALIGNED-W!" UNALIGNED_W_STORE;
  cod "UNALIGNED-L@" UNALIGNED_L_FETCH;
  cod "UNALIGNED-L!" UNALIGNED_L_STORE;
  cod "<" LESS;
  cod "U<" U_LESS;
  cod "0<" ZERO_LESS;
  cod "=" EQUALS;
  cod "0=" ZERO_EQUALS;
  cod "DODO" DODO;
  cod "DO?DO" DO_QDO;
  cod "DOLOOP" DOLOOP;
  cod "DO+LOOP" DO_PLUS_LOOP;
  cod "DOLEAVE" DOLEAVE;
  cod "DO?LEAVE" DO_QLEAVE;
  cod "EXIT" EXIT;
  cod "SEMICOLON" SEMICOLON;
  cod "EXECUTE" EXECUTE;
  cod "MOVE" MOVE;
  cod "ZCOUNT" ZCOUNT;
  con "HASH-SIZE" 4096;
  cod "HASH" HASH;
  cod "CLEAN-HASH" CLEAN_HASH;
  cod "HASH-TABLE" HASH_TABLE ].

(** engine.in.  A double quote in a name is written as in the names of the C code, _X22_;
    the name of a word with an operand without the operand stands for DO and the name. *)
Definition engine_in : list entry := [
  raw "HERE" DOVAL;
  con "-1" (-1);
  con "0" 0;
  con "1" 1;
  con "2" 2;
  con "3" 3;
  con "4" 4;
  con "8" 8;
  con "H#10" 16;
  con "H#20" 32;
  con "H#FF" 255;
  con "H#FFFF" 65535;
  con "H#FFFFFFFF" 4294967295;
  con "D#10" 10;
  con "/C" 1;
  con "/W" 2;
  con "/L" 4;
  con "/X" 8;
  con "/N" 8;
  con "CELL" 8;
  col "/C*" ["/C"; "*"];
  col "/W*" ["/W"; "*"];
  col "/L*" ["/L"; "*"];
  col "/X*" ["/X"; "*"];
  col "/N*" ["/N"; "*"];
  col "CA+" ["/C*"; "+"];
  col "WA+" ["/W*"; "+"];
  col "LA+" ["/L*"; "+"];
  col "XA+" ["/X*"; "+"];
  col "NA+" ["/N*"; "+"];
  col "CA1+" ["/C"; "+"];
  col "WA1+" ["/W"; "+"];
  col "LA1+" ["/L"; "+"];
  col "XA1+" ["/X"; "+"];
  col "NA1+" ["/N"; "+"];
  col "CHAR+" ["CA1+"];
  col "CELL+" ["NA1+"];
  col "CHAR-" ["/C"; "-"];
  col "CELL-" ["/N"; "-"];
  col "CHARS" ["/C*"];
  col "CELLS" ["/N*"];
  col "CHARS+" ["CA+"];
  col "CELLS+" ["NA+"];
  col "DOTO" ["R>"; "CELL+"; "DUP"; ">R"; "@"; "CELL+"; "!"];
  col "SLITERAL" ["R>"; "CELL+"; "DUP"; "DUP"; "C@"; "+"; lit (-8); "AND"; ">R"];
  col "?DUP" ["DUP"; zbr 1; "DUP"];
  col "TUCK" ["SWAP"; "OVER"];
  col "2DUP" ["OVER"; "OVER"];
  col "3DUP" ["2"; "PICK"; "2"; "PICK"; "2"; "PICK"];
  col "2OVER" ["3"; "PICK"; "3"; "PICK"];
  col "2DROP" ["DROP"; "DROP"];
  col "3DROP" ["DROP"; "DROP"; "DROP"];
  col "NIP" ["SWAP"; "DROP"];
  col "CLEAR" ["0"; "DEPTH!"];
  col "ROT" [">R"; "SWAP"; "R>"; "SWAP"];
  col "-ROT" ["SWAP"; ">R"; "SWAP"; "R>"];
  col "2SWAP" [">R"; "-ROT"; "R>"; "-ROT"];
  col "2ROT" [">R"; ">R"; "2SWAP"; "R>"; "R>"; "2SWAP"];
  col "ROLL" ["DUP"; "?DUP"; zbr 6; "ROT"; ">R"; "1"; "-"; br (-9); "?DUP"; zbr 6; "R>"; "-ROT"; "1"; "-";
      br (-9)];
  col "-ROLL" ["DUP"; "?DUP"; zbr 9; ">R"; "ROT"; "R>"; "SWAP"; ">R"; "1"; "-"; br (-12); "?DUP"; zbr 6; "R>";
      "SWAP"; "1"; "-"; br (-9)];
  col "2>R" ["R>"; "ROT"; ">R"; "SWAP"; ">R"; ">R"];
  col "2R>" ["R>"; "R>"; "R>"; "ROT"; ">R"; "SWAP"];
  col "2R@" ["R>"; "R>"; "R@"; "OVER"; ">R"; "ROT"; ">R"; "SWAP"];
  col "2*" ["1"; "LSHIFT"];
  col "U2/" ["1"; "RSHIFT"];
  col "2/" ["1"; "ASHIFT"];
  col "<<" ["LSHIFT"];
  col ">>" ["RSHIFT"];
  col ">>A" ["ASHIFT"];
  col "INVERT" ["-1"; "XOR"];
  col "NOT" ["INVERT"];
  con "TRUE" (-1);
  con "FALSE" 0;
  col ">" ["SWAP"; "<"];
  col "U>" ["SWAP"; "U<"];
  col "<=" [">"; "0="];
  col "<>" ["="; "0="];
  col ">=" ["<"; "0="];
  col "0<=" ["0"; "<="];
  col "0<>" ["0"; "<>"];
  col "0>" ["0"; ">"];
  col "0>=" ["0"; ">="];
  col "U<=" ["U>"; "0="];
  col "U>=" ["U<"; "0="];
  col "WITHIN" ["ROT"; "DUP"; "ROT"; ">="; zbr 3; "2DROP"; "FALSE"; "EXIT"; ">"; zbr 2; "FALSE"; "EXIT"; "TRUE"];
  col "BETWEEN" ["1"; "+"; "WITHIN"];
  col "D2*" ["2*"; "OVER"; "0<"; "-"; ">R"; "2*"; "R>"];
  col "UD2/" [">R"; "U2/"; "R@"; lit 63; "LSHIFT"; "OR"; "R>"; "U2/"];
  col "D2/" [">R"; "U2/"; "R@"; lit 63; "LSHIFT"; "OR"; "R>"; "2/"];
  col "NEGATE" ["0"; "SWAP"; "-"];
  col "ABS" ["DUP"; "0<"; zbr 1; "NEGATE"];
  col "MAX" ["2DUP"; "<"; zbr 1; "SWAP"; "DROP"];
  col "UMAX" ["2DUP"; "U<"; zbr 1; "SWAP"; "DROP"];
  col "MIN" ["2DUP"; ">"; zbr 1; "SWAP"; "DROP"];
  col "U*" ["*"];
  col "1+" ["1"; "+"];
  col "1-" ["1"; "-"];
  col "2+" ["2"; "+"];
  col "2-" ["2"; "-"];
  col "EVEN" ["1+"; "-1"; "AND"];
  col "BOUNDS" ["OVER"; "+"; "SWAP"];
  col "S>D" ["DUP"; "0<"];
  col "DNEGATE" ["INVERT"; ">R"; "NEGATE"; "DUP"; "0="; "R>"; "SWAP"; "-"];
  col "DABS" ["DUP"; "0<"; zbr 1; "DNEGATE"];
  col "M+" ["SWAP"; ">R"; "DUP"; ">R"; "+"; "DUP"; "R>"; "U<"; "R>"; "SWAP"; "-"];
  col "D+" [">R"; "M+"; "R>"; "+"];
  col "D-" ["DNEGATE"; "D+"];
  col "*'" [">R"; "DUP"; "0<"; ">R"; "D2*"; "R>"; zbr 2; "R@"; "M+"; "R>"];
  col "UM*" ["0"; "-ROT"; lit 64; "0"; "DODO"; "*'"; off "DOLOOP" (-3); "DROP"];
  col "M*" ["2DUP"; "XOR"; ">R"; ">R"; "ABS"; "R>"; "ABS"; "UM*"; "R>"; "0<"; zbr 1; "DNEGATE"];
  col "/'" [">R"; "DUP"; "0<"; ">R"; "D2*"; "R>"; "OVER"; "R@"; "U>="; "OR"; zbr 6; ">R"; "1"; "OR"; "R>"; "R@";
      "-"; "R>"];
  col "UM/MOD" [lit 64; "0"; "DODO"; "/'"; off "DOLOOP" (-3); "DROP"; "SWAP"];
  col "SM/REM" ["OVER"; ">R"; ">R"; "DABS"; "R@"; "ABS"; "UM/MOD"; "R>"; "0<"; zbr 1; "NEGATE"; "R>"; "0<"; zbr 4;
      "NEGATE"; "SWAP"; "NEGATE"; "SWAP"];
  col "FM/MOD" ["DUP"; ">R"; "2DUP"; "XOR"; "0<"; ">R"; "SM/REM"; "OVER"; "0<>"; "R>"; "AND"; zbr 6; "1-"; "SWAP";
      "R>"; "+"; "SWAP"; "EXIT"; "R>"; "DROP"];
  col "U/MOD" ["0"; "SWAP"; "UM/MOD"];
  col "/MOD" [">R"; "S>D"; "R>"; "FM/MOD"];
  col "/" ["/MOD"; "NIP"];
  col "MOD" ["/MOD"; "DROP"];
  col "*/MOD" [">R"; "M*"; "R>"; "FM/MOD"];
  col "*/" ["*/MOD"; "NIP"];
  col "WBSPLIT" ["DUP"; "H#FF"; "AND"; "SWAP"; "8"; "RSHIFT"];
  col "LWSPLIT" ["DUP"; "H#FFFF"; "AND"; "SWAP"; "H#10"; "RSHIFT"];
  col "XLSPLIT" ["DUP"; "H#FFFFFFFF"; "AND"; "SWAP"; "H#20"; "RSHIFT"];
  col "LBSPLIT" ["LWSPLIT"; ">R"; "WBSPLIT"; "R>"; "WBSPLIT"];
  col "XWSPLIT" ["XLSPLIT"; ">R"; "LWSPLIT"; "R>"; "LWSPLIT"];
  col "XBSPLIT" ["XLSPLIT"; ">R"; "LBSPLIT"; "R>"; "LBSPLIT"];
  col "BWJOIN" ["8"; "LSHIFT"; "OR"];
  col "WLJOIN" ["H#10"; "LSHIFT"; "OR"];
  col "BLJOIN" ["BWJOIN"; ">R"; "BWJOIN"; "R>"; "WLJOIN"];
  col "WBFLIP" ["WBSPLIT"; "SWAP"; "BWJOIN"];
  col "LWFLIP" ["LWSPLIT"; "SWAP"; "WLJOIN"];
  col "LXJOIN" ["H#20"; "LSHIFT"; "OR"];
  col "XLFLIP" ["XLSPLIT"; "SWAP"; "LXJOIN"];
  col "LBFLIP" ["LBSPLIT"; "SWAP"; "2SWAP"; "SWAP"; "BLJOIN"];
  col "WXJOIN" ["WLJOIN"; ">R"; "WLJOIN"; "R>"; "LXJOIN"];
  col "XWFLIP" ["XWSPLIT"; "SWAP"; "2SWAP"; "SWAP"; "WXJOIN"];
  col "BXJOIN" ["BLJOIN"; ">R"; "BLJOIN"; "R>"; "LXJOIN"];
  col "XBFLIP" ["XLSPLIT"; "LBFLIP"; "SWAP"; "LBFLIP"; "LXJOIN"];
  col "ALIGNED" ["/N"; "1-"; "+"; "/N"; "NEGATE"; "AND"];
  col "I" ["R>"; "R@"; "SWAP"; ">R"];
  col "J" ["R>"; "R>"; "R>"; "R@"; "SWAP"; ">R"; "SWAP"; ">R"; "SWAP"; ">R"];
  col "UNLOOP" ["R>"; "R>"; "R>"; "2DROP"; ">R"];
  col "+!" ["TUCK"; "@"; "+"; "SWAP"; "!"];
  cod "COMP" COMP;
  col "OFF" ["FALSE"; "SWAP"; "!"];
  col "ON" ["TRUE"; "SWAP"; "!"];
  col "<W@" ["W@"; "DUP"; lit 32768; ">="; zbr 3; lit 65536; "-"];
  col "2@" ["DUP"; "CELL+"; "@"; "SWAP"; "@"];
  col "2!" ["DUP"; ">R"; "!"; "R>"; "CELL+"; "!"];
  col "WBFLIPS" ["BOUNDS"; off "DO?DO" 8; "I"; "W@"; "WBFLIP"; "I"; "W!"; "/W"; off "DO+LOOP" (-8)];
  col "LWFLIPS" ["BOUNDS"; off "DO?DO" 8; "I"; "L@"; "LWFLIP"; "I"; "L!"; "/L"; off "DO+LOOP" (-8)];
  col "LBFLIPS" ["BOUNDS"; off "DO?DO" 8; "I"; "L@"; "LBFLIP"; "I"; "L!"; "/L"; off "DO+LOOP" (-8)];
  col "XBFLIPS" ["BOUNDS"; off "DO?DO" 8; "I"; "X@"; "XBFLIP"; "I"; "X!"; "/X"; off "DO+LOOP" (-8)];
  col "XWFLIPS" ["BOUNDS"; off "DO?DO" 8; "I"; "X@"; "XWFLIP"; "I"; "X!"; "/X"; off "DO+LOOP" (-8)];
  col "XLFLIPS" ["BOUNDS"; off "DO?DO" 8; "I"; "X@"; "XLFLIP"; "I"; "X!"; "/X"; off "DO+LOOP" (-8)];
  cod "FILL" FILL;
  col "BLANK" [lit 32; "FILL"];
  col "ERASE" [lit 0; "FILL"];
  var "CATCHER" 0;
  var "ABORT_X22_-STR" 0;
  col "CATCH" ["DEPTH"; ">R"; "CATCHER"; "@"; ">R"; "RDEPTH"; "CATCHER"; "!"; "EXECUTE"; "R>"; "CATCHER"; "!";
      "R>"; "DROP"; "0"];
  col "THROW" ["?DUP"; zbr 12; "CATCHER"; "@"; "RDEPTH!"; "R>"; "CATCHER"; "!"; "R>"; "SWAP"; ">R"; "DEPTH!";
      "DROP"; "R>"];
  col "ABORT" ["-1"; "THROW"];
  var "#TIB" 256;
  val "IB" 0;
  var "#IB" 0;
  val "SOURCE-ID" 0;
  col "SOURCE" ["IB"; "#IB"; "@"];
  var ">IN" 0;
  col "TERMINAL" ["TIB"; "DOTO"; "IB"; "#TIB"; "@"; "#IB"; "!"; "0"; "DOTO"; "SOURCE-ID"];
  con "BL" 32;
  con "BELL" 7;
  con "BS" 8;
  con "CARRET" 13;
  con "LINEFEED" 10;
  dfr "EMIT";
  dfr "CR";
  col "TYPE" ["BOUNDS"; off "DO?DO" 5; "I"; "C@"; "EMIT"; off "DOLOOP" (-5)];
  col "LL-CR" ["CARRET"; "EMIT"; "LINEFEED"; "EMIT"];
  col "SPACE" ["BL"; "EMIT"];
  col "SPACES" ["0"; off "DO?DO" 3; "SPACE"; off "DOLOOP" (-3)];
  col "COUNT" ["DUP"; "CHAR+"; "SWAP"; "C@"];
  col "PACK" ["DUP"; ">R"; "1+"; "SWAP"; "DUP"; "R@"; "C!"; "MOVE"; "R>"];
  col "UPC" ["DUP"; lit 97; lit 122; "BETWEEN"; zbr 3; lit 32; "-"];
  col "LCC" ["DUP"; lit 65; lit 90; "BETWEEN"; zbr 3; lit 32; "+"];
  dfr "KEY";
  dfr "KEY?";
  dfr "ACCEPT";
  var "SPAN" 0;
  col "EXPECT" ["ACCEPT"; "SPAN"; "!"];
  col "REFILL" ["SOURCE-ID"; "0="; zbr 7; "SOURCE"; "EXPECT"; "0"; ">IN"; "!"; "TRUE"; "EXIT"; "SOURCE-ID"; "-1";
      "="; zbr 2; "FALSE"; "EXIT"; lit 25858; "THROW"];
  var "BASE" 16;
  col "DECIMAL" ["D#10"; "BASE"; "!"];
  col "HEX" ["H#10"; "BASE"; "!"];
  col "OCTAL" ["8"; "BASE"; "!"];
  col "PAD" ["HERE"; lit 256; "+"];
  col "TODIGIT" ["DUP"; lit 9; ">"; zbr 3; lit 39; "+"; lit 48; "+"];
  col "MU/MOD" ["DUP"; ">R"; "U/MOD"; "R>"; "SWAP"; ">R"; "UM/MOD"; "R>"];
  col "<#" ["PAD"; "DUP"; "!"];
  col "HOLD" ["PAD"; "DUP"; "@"; "1-"; "TUCK"; "SWAP"; "!"; "C!"];
  col "SIGN" ["0<"; zbr 3; lit 45; "HOLD"];
  col "#" ["BASE"; "@"; "MU/MOD"; "ROT"; "TODIGIT"; "HOLD"];
  col "#S" ["#"; "2DUP"; "OR"; zbr 2; br (-7)];
  col "#>" ["2DROP"; "PAD"; "DUP"; "@"; "TUCK"; "-"];
  col "(.)" ["<#"; "DUP"; ">R"; "ABS"; "0"; "#S"; "R>"; "SIGN"; "#>"];
  col "U#" ["BASE"; "@"; "U/MOD"; "SWAP"; "TODIGIT"; "HOLD"];
  col "U#S" ["U#"; "DUP"; zbr 2; br (-6)];
  col "U#>" ["DROP"; "PAD"; "DUP"; "@"; "TUCK"; "-"];
  col "(U.)" ["<#"; "U#S"; "U#>"];
  col "." ["(.)"; "TYPE"; "SPACE"];
  col "S." ["."];
  col "U." ["(U.)"; "TYPE"; "SPACE"];
  col ".R" ["SWAP"; "(.)"; "ROT"; "2DUP"; "<"; zbr 5; "OVER"; "-"; "SPACES"; br 1; "DROP"; "TYPE"];
  col "U.R" ["SWAP"; "(U.)"; "ROT"; "2DUP"; "<"; zbr 5; "OVER"; "-"; "SPACES"; br 1; "DROP"; "TYPE"];
  col ".D" ["BASE"; "@"; "SWAP"; "DECIMAL"; "."; "BASE"; "!"];
  col ".H" ["BASE"; "@"; "SWAP"; "HEX"; "."; "BASE"; "!"];
  col ".S" ["DEPTH"; "DUP"; "0<"; zbr 2; "DROP"; "EXIT"; "0"; off "DO?DO" 8; "DEPTH"; "I"; "-"; "1-"; "PICK"; ".";
      off "DOLOOP" (-8)];
  col "?" ["@"; "."];
  col "DIGIT" ["OVER"; "UPC"; "DUP"; lit 65; lit 90; "BETWEEN"; zbr 3; lit 7; "-"; lit 48; "-"; "DUP"; "ROT"; "0";
      "SWAP"; "WITHIN"; zbr 4; "NIP"; "TRUE"; br 2; "DROP"; "FALSE"];
  col ">NUMBER" ["DUP"; "0="; zbr 1; "EXIT"; "OVER"; "C@"; "BASE"; "@"; "DIGIT"; zbr 23; "SWAP"; ">R"; "SWAP";
      ">R"; ">R"; "BASE"; "@"; "U*"; "SWAP"; "BASE"; "@"; "UM*"; "ROT"; "+"; "R>"; "0"; "D+"; "R>"; "CHAR+";
      "R>"; "1-"; br (-35); "DROP"];
  col "$NUMBER" ["DUP"; "0="; zbr 4; "DROP"; "DROP"; "TRUE"; "EXIT"; ">R"; "DUP"; ">R"; "C@"; lit 45; "="; "DUP";
      zbr 15; "R>"; "CHAR+"; "R>"; "1-"; "DUP"; "0="; zbr 5; "DROP"; "DROP"; "DROP"; "TRUE"; "EXIT"; ">R"; ">R";
      "0"; "0"; "R>"; "R>"; ">NUMBER"; "NIP"; "0="; zbr 7; "DROP"; "SWAP"; zbr 1; "NEGATE"; "FALSE"; "EXIT";
      "DROP"; "DROP"; "DROP"; "TRUE"];
  col "ALLOT" ["HERE"; "+"; "DOTO"; "HERE"];
  col "," ["HERE"; "!"; "/N"; "ALLOT"];
  col "C," ["HERE"; "C!"; "/C"; "ALLOT"];
  col "W," ["HERE"; "W!"; "/W"; "ALLOT"];
  col "L," ["HERE"; "L!"; "/L"; "ALLOT"];
  col "X," ["HERE"; "X!"; "/X"; "ALLOT"];
  col "ALIGN" ["HERE"; "/N"; "1-"; "AND"; zbr 4; "0"; "C,"; br (-10)];
  col "PLACE" ["2DUP"; "C!"; "CHAR+"; "SWAP"; "CHARS"; "BOUNDS"; off "DO?DO" 9; "DUP"; "C@"; "I"; "C!"; "CHAR+";
      "1"; "CHARS"; off "DO+LOOP" (-9); "DROP"];
  col "STRING," ["HERE"; "OVER"; "1+"; "CHARS"; "ALLOT"; "PLACE"];
  col "NOOP" [];
  raw "FORTH-WORDLIST" DODOES;
  raw "CURRENT" DOVAL;
  col "LAST" ["CURRENT"; "CELL+"];
  raw "SEARCH-ORDER" DOVAR;
  raw "CONTEXT" DOVAL;
  col "LINK>NAME" ["CELL+"];
  col "NAME>" ["CHAR+"; "DUP"; "C@"; "1+"; "CHARS+"; "ALIGNED"];
  col "LINK>" ["LINK>NAME"; "NAME>"];
  col "NAME>STRING" ["CHAR+"; "COUNT"];
  var "LATEST" 0;
  dfr "(REVEAL)";
  col "HEADER" ["ALIGN"; "HERE"; "LAST"; "@"; ","; "LATEST"; "!"; "0"; "C,"; "STRING,"; "ALIGN"];
  col "REVEAL" ["LATEST"; "@"; "LINK>NAME"; "NAME>STRING"; "(REVEAL)"; "LATEST"; "@"; "LAST"; "!"];
  cod "STRING=CI" STRING_CI;
  dfr "(FIND)";
  col "((FIND))" ["DUP"; zbr 15; ">R"; "2DUP"; "R@"; "LINK>NAME"; "NAME>STRING"; "STRING=CI"; zbr 3; "2DROP"; "R>";
      "EXIT"; "R>"; "@"; br (-18); "3DROP"; "FALSE"];
  col "(FIND-ORDER)" ["CONTEXT"; "DUP"; ">R"; "SEARCH-ORDER"; "U>="; zbr 18; "2DUP"; "R@"; "@"; "CELL+"; "@";
      "(FIND)"; "?DUP"; zbr 5; "NIP"; "NIP"; "R>"; "DROP"; "EXIT"; "R>"; "CELL-"; br (-24); "R>"; "3DROP"; "0"];
  col "($FIND)" ["(FIND-ORDER)"; "DUP"; zbr 6; "LINK>NAME"; "DUP"; "NAME>"; "SWAP"; "C@"; "TRUE"];
  col "$FIND" ["2DUP"; "($FIND)"; zbr 6; "DROP"; "NIP"; "NIP"; "TRUE"; br 1; "FALSE"];
  con "'IMMEDIATE" 1;
  col "IMMEDIATE?" ["'IMMEDIATE"; "AND"; "0<>"];
  col "IMMEDIATE" ["LAST"; "@"; "CELL+"; "DUP"; "C@"; "'IMMEDIATE"; "OR"; "SWAP"; "C!"];
  col "FINDCHAR" ["SWAP"; "0"; off "DO?DO" 24; "OVER"; "I"; "+"; "C@"; "OVER"; "DUP"; "BL"; "="; zbr 3; "<="; br 1;
      "="; zbr 6; "I"; "UNLOOP"; "NIP"; "NIP"; "TRUE"; "EXIT"; off "DOLOOP" (-24); "DROP"; "DROP"; "FALSE"];
  col "PARSE" [">R"; "IB"; ">IN"; "@"; "+"; "SPAN"; "@"; ">IN"; "@"; "-"; "2DUP"; "R>"; "FINDCHAR"; zbr 6; "NIP";
      "DUP"; "1"; "+"; br 1; "DUP"; ">IN"; "+!"];
  col "SKIPWS" ["IB"; "SPAN"; "@"; "DUP"; ">IN"; "@"; ">"; zbr 14; "OVER"; ">IN"; "@"; "+"; "C@"; "BL"; "<=";
      zbr 5; "1"; ">IN"; "+!"; br (-20); "DROP"; "DROP"];
  col "PARSE-WORD" ["SKIPWS"; "BL"; "PARSE"];
  var "WHICHPOCKET" 0;
  col "POCKET" ["POCKETS"; "WHICHPOCKET"; "@"; lit 256; "*"; "+"; "WHICHPOCKET"; "@"; "1"; "+"; "DUP"; lit 16; "=";
      zbr 2; "DROP"; "0"; "WHICHPOCKET"; "!"];
  col "WORD" ["POCKET"; ">R"; "PARSE"; "DUP"; "R@"; "C!"; "BOUNDS"; "R>"; "DUP"; "2SWAP"; off "DO?DO" 7; "CHAR+";
      "I"; "C@"; "OVER"; "C!"; off "DOLOOP" (-7); "DROP"];
  col "CHAR" ["PARSE-WORD"; "DROP"; "C@"];
  imm "(" [lit 41; "PARSE"; "2DROP"];
  imm "\" [">IN"; "@"; "1-"; ">IN"; "!"; "LINEFEED"; "PARSE"; "2DROP"];
  var "STATE" 0;
  imm "[" ["STATE"; "OFF"];
  col "]" [lit 256; "STATE"; "!"];
  col "?COMP" ["STATE"; "@"; zbr 1; "EXIT"; lit (-134); "THROW"];
  col "COMPILE," [","];
  col ":" ["PARSE-WORD"; "HEADER"; "DOTICK"; lab_ DOCOL; "COMPILE,"; "]"];
  col ":NONAME" ["ALIGN"; "HERE"; "DOTICK"; lab_ DOCOL; "COMPILE,"; "]"];
  imm ";" ["?COMP"; "DOTICK"; "SEMICOLON"; "COMPILE,"; "REVEAL"; "["];
  imm "C_X22_" ["?COMP"; lit 34; "PARSE"; "DOTICK"; "SLITERAL"; "COMPILE,"; "DUP"; "C,"; "BOUNDS"; off "DO?DO" 5;
      "I"; "C@"; "C,"; off "DOLOOP" (-5); "ALIGN"];
  imm "S_X22_" ["STATE"; "@"; zbr 5; "C_X22_"; "DOTICK"; "COUNT"; "COMPILE,"; "EXIT"; lit 34; "PARSE"; "DUP"; ">R";
      "POCKET"; "DUP"; ">R"; "SWAP"; "MOVE"; "R>"; "R>"];
  imm "Z_X22_" ["S_X22_"; "2DUP"; "+"; "0"; "SWAP"; "C!"; "DROP"];
  imm "._X22_" ["STATE"; "@"; zbr 5; "S_X22_"; "DOTICK"; "TYPE"; "COMPILE,"; "EXIT"; lit 34; "PARSE"; "TYPE"];
  imm ".(" [lit 41; "PARSE"; "TYPE"];
  col "COMPILE" ["R>"; "CELL+"; "DUP"; "@"; "COMPILE,"; ">R"];
  var "THERE" 0;
  col "+COMP" ["STATE"; "@"; "1"; "STATE"; "+!"; zbr 1; "EXIT"; "HERE"; "THERE"; "!"; "COMP-BUFFER"; "DOTO";
      "HERE"; "COMPILE"; lab_ DOCOL];
  col "-COMP" ["-1"; "STATE"; "+!"; "STATE"; "@"; zbr 1; "EXIT"; "COMPILE"; "EXIT"; "THERE"; "@"; "DOTO"; "HERE";
      "COMP-BUFFER"; "EXECUTE"];
  col "RESOLVE-ORIG" ["HERE"; "OVER"; "CELL+"; "-"; "SWAP"; "!"];
  imm "AHEAD" ["+COMP"; "DOTICK"; "BRANCH"; "COMPILE,"; "HERE"; "0"; "COMPILE,"];
  imm "IF" ["+COMP"; "DOTICK"; "0BRANCH"; "COMPILE,"; "HERE"; "0"; "COMPILE,"];
  imm "THEN" ["?COMP"; "RESOLVE-ORIG"; "-COMP"];
  imm "ELSE" ["?COMP"; "DOTICK"; "BRANCH"; "COMPILE,"; "HERE"; "0"; "COMPILE,"; "SWAP"; "RESOLVE-ORIG"];
  imm "CASE" ["+COMP"; "0"];
  imm "ENDCASE" ["?COMP"; "DOTICK"; "DROP"; "COMPILE,"; "?DUP"; zbr 5; "1-"; "SWAP"; "THEN"; br (-8); "-COMP"];
  imm "OF" ["?COMP"; "1+"; ">R"; "DOTICK"; "OVER"; "COMPILE,"; "DOTICK"; "="; "COMPILE,"; "IF"; "DOTICK"; "DROP";
      "COMPILE,"; "R>"];
  imm "ENDOF" ["?COMP"; ">R"; "ELSE"; "R>"];
  col "RESOLVE-DEST" ["HERE"; "CELL+"; "-"; "COMPILE,"];
  imm "BEGIN" ["+COMP"; "HERE"];
  imm "AGAIN" ["?COMP"; "DOTICK"; "BRANCH"; "COMPILE,"; "RESOLVE-DEST"; "-COMP"];
  imm "UNTIL" ["?COMP"; "DOTICK"; "0BRANCH"; "COMPILE,"; "RESOLVE-DEST"; "-COMP"];
  imm "WHILE" ["?COMP"; "IF"; "SWAP"];
  imm "REPEAT" ["?COMP"; "AGAIN"; "THEN"];
  var "LEAVES" 0;
  col "RESOLVE-LOOP" ["LEAVES"; "@"; "?DUP"; zbr 10; "DUP"; "@"; "SWAP"; "HERE"; "OVER"; "-"; "SWAP"; "!";
      br (-13); "HERE"; "-"; "COMPILE,"; "LEAVES"; "!"];
  imm "DO" ["+COMP"; "LEAVES"; "@"; "HERE"; "DOTICK"; "DODO"; "COMPILE,"; "0"; "LEAVES"; "!"];
  imm "?DO" ["+COMP"; "LEAVES"; "@"; "DOTICK"; "DO?DO"; "COMPILE,"; "HERE"; "HERE"; "LEAVES"; "!"; "0";
      "COMPILE,"];
  imm "LOOP" ["?COMP"; "DOTICK"; "DOLOOP"; "COMPILE,"; "RESOLVE-LOOP"; "-COMP"];
  imm "+LOOP" ["?COMP"; "DOTICK"; "DO+LOOP"; "COMPILE,"; "RESOLVE-LOOP"; "-COMP"];
  imm "LEAVE" ["?COMP"; "DOTICK"; "DOLEAVE"; "COMPILE,"; "LEAVES"; "@"; "HERE"; "LEAVES"; "!"; "COMPILE,"];
  imm "?LEAVE" ["?COMP"; "DOTICK"; "DO?LEAVE"; "COMPILE,"; "LEAVES"; "@"; "HERE"; "LEAVES"; "!"; "COMPILE,"];
  col "SAVE-SOURCE" ["R>"; "IB"; ">R"; "#IB"; "@"; ">R"; "SOURCE-ID"; ">R"; "SPAN"; "@"; ">R"; ">IN"; "@"; ">R";
      ">R"];
  col "RESTORE-SOURCE" ["R>"; "R>"; ">IN"; "!"; "R>"; "SPAN"; "!"; "R>"; "DOTO"; "SOURCE-ID"; "R>"; "#IB"; "!";
      "R>"; "DOTO"; "IB"; ">R"];
  str "OK-STR" "ok";
  str "ABORTED-STR" "Aborted";
  str "EXCEPTION-STR" "Exception #";
  str "UNKNOWN-STR" "Undefined word";
  dfr "HW-EXCEPTION-HANDLER";
  val "SHOW-STACK?" 0;
  col "SHOWSTACK" ["-1"; "DOTO"; "SHOW-STACK?"];
  col "NOSHOWSTACK" ["0"; "DOTO"; "SHOW-STACK?"];
  col "PRINT-STACK" ["SHOW-STACK?"; zbr 5; ">R"; ">R"; ".S"; "R>"; "R>"];
  col "PRINT-EXCEPTION" ["DUP"; lit (-99); "="; zbr 7; "DOTICK"; "UNKNOWN-STR"; "COUNT"; "TYPE"; "CR"; "DROP";
      "EXIT"; "DUP"; lit 256; "="; zbr 2; "DROP"; "EXIT"; "HW-EXCEPTION-HANDLER"];
  col "PRINT-STATUS" ["SPACE"; "DUP"; "0="; zbr 5; "PRINT-STACK"; "DOTICK"; "OK-STR"; br 7; "DUP"; "-1"; "=";
      zbr 6; "DOTICK"; "ABORTED-STR"; "COUNT"; "TYPE"; br 10; "DUP"; lit (-2); "="; zbr 7; "ABORT_X22_-STR"; "@";
      "COUNT"; "TYPE"; "DROP"; br 1; "PRINT-EXCEPTION"; "CR"];
  col "COMPILE-WORD" ["2DUP"; "($FIND)"; zbr 10; "IMMEDIATE?"; zbr 4; "NIP"; "NIP"; "EXECUTE"; "EXIT"; "COMPILE,";
      "2DROP"; "EXIT"; "2DUP"; "$NUMBER"; zbr 4; "TYPE"; lit (-99); "THROW"; "DOTICK"; "LIT"; "COMPILE,";
      "COMPILE,"; "2DROP"];
  col "INTERPRET-WORD" ["2DUP"; "($FIND)"; zbr 5; "DROP"; "NIP"; "NIP"; "EXECUTE"; "EXIT"; "2DUP"; "$NUMBER";
      zbr 4; "TYPE"; lit (-99); "THROW"; ">R"; "2DROP"; "R>"];
  col "INTERPRET" ["0"; ">IN"; "!"; "PARSE-WORD"; "DUP"; zbr 10; "STATE"; "@"; zbr 3; "COMPILE-WORD"; br 1;
      "INTERPRET-WORD"; br (-14); "2DROP"];
  col "EVALUATE" ["SAVE-SOURCE"; "-1"; "DOTO"; "SOURCE-ID"; "DUP"; "#IB"; "!"; "SPAN"; "!"; "DOTO"; "IB"; "DOTICK";
      "INTERPRET"; "CATCH"; "RESTORE-SOURCE"; "THROW"];
  col "EVAL" ["EVALUATE"];
  col "DOABORT_X22_" ["SWAP"; zbr 5; "ABORT_X22_-STR"; "!"; lit (-2); "THROW"; "DROP"];
  imm "ABORT_X22_" ["C_X22_"; "DOTICK"; "DOABORT_X22_"; "COMPILE,"];
  str "UNDEFINED-STR" "undefined word ";
  col "SET-UNDEFINED-WORD" ["POCKET"; ">R"; "DOTICK"; "UNDEFINED-STR"; "DUP"; "C@"; "1+"; "R@"; "SWAP"; "MOVE";
      "R@"; "DUP"; "C@"; "1+"; "+"; "SWAP"; "DUP"; "R@"; "C@"; "+"; "R@"; "C!"; "MOVE"; "R>"];
  col "'" ["PARSE-WORD"; "$FIND"; "0="; zbr 4; "SET-UNDEFINED-WORD"; "TRUE"; "SWAP"; "DOABORT_X22_"];
  col "QUIT" ["0"; "RDEPTH!"; "["; "TERMINAL"; "DEPTH"; "."; lit 62; "EMIT"; "SPACE"; "REFILL"; zbr 10; "SPACE";
      "DOTICK"; "INTERPRET"; "CATCH"; "DUP"; "PRINT-STATUS"; zbr (-17); br (-23)];
  dfr "MAP-FILE";
  dfr "UNMAP-FILE";
  dfr "WRITE-FILE";
  col "INCLUDED" ["MAP-FILE"; "2DUP"; ">R"; ">R"; "BOUNDS"; off "DO?DO" 21; "R>"; "R@"; "SWAP"; ">R"; "R@"; "-";
      "R@"; "SWAP"; "2DUP"; "LINEFEED"; "FINDCHAR"; zbr 1; "NIP"; "DUP"; ">R"; "EVALUATE"; "R>"; "1+";
      off "DO+LOOP" (-21); "R>"; "R>"; "UNMAP-FILE"];
  col "INCLUDE" ["PARSE-WORD"; "INCLUDED"];
  col "$CREATE" ["HEADER"; "DOTICK"; lab_ DODOES; "COMPILE,"; "DOTICK"; "NOOP"; "CELL+"; "COMPILE,"; "REVEAL"];
  col "CREATE" ["PARSE-WORD"; "$CREATE"];
  col "DODOES>" ["R>"; "CELL+"; "LATEST"; "@"; "LINK>"; "CELL+"; "!"];
  imm "DOES>" ["DOTICK"; "DODOES>"; "COMPILE,"];
  col "CONSTANT" ["PARSE-WORD"; "HEADER"; "DOTICK"; lab_ DOCON; "COMPILE,"; "COMPILE,"; "REVEAL"];
  col "VALUE" ["PARSE-WORD"; "HEADER"; "DOTICK"; lab_ DOVAL; "COMPILE,"; "COMPILE,"; "REVEAL"];
  col "VARIABLE" ["PARSE-WORD"; "HEADER"; "DOTICK"; lab_ DOVAR; "COMPILE,"; "0"; "COMPILE,"; "REVEAL"];
  col "BUFFER:" ["PARSE-WORD"; "HEADER"; "DOTICK"; lab_ DOBUFFER; "COMPILE,"; "ALLOT"; "REVEAL"];
  col "DEFER" ["PARSE-WORD"; "HEADER"; "DOTICK"; lab_ DODEFER; "COMPILE,"; "DOTICK"; "ABORT"; "COMPILE,";
      "REVEAL"];
  col "ALIAS" ["PARSE-WORD"; "HEADER"; "DOTICK"; lab_ DOALIAS; "COMPILE,"; "'"; "COMPILE,"; "REVEAL"];
  col "STRUCT" ["0"];
  col "END-STRUCT" ["DROP"];
  col "FIELD" ["PARSE-WORD"; "HEADER"; "DOTICK"; lab_ DOFIELD; "COMPILE,"; "OVER"; ","; "+"; "REVEAL"];
  imm "LITERAL" ["DOTICK"; "LIT"; "COMPILE,"; "COMPILE,"];
  imm "[COMPILE]" ["'"; "COMPILE,"];
  imm "POSTPONE" ["PARSE-WORD"; "2DUP"; "($FIND)"; "0="; zbr 4; "SET-UNDEFINED-WORD"; "TRUE"; "SWAP";
      "DOABORT_X22_"; "IMMEDIATE?"; "0="; zbr 6; "DOTICK"; "DOTICK"; "COMPILE,"; "COMPILE,"; "DOTICK";
      "COMPILE,"; "COMPILE,"; "2DROP"];
  imm "[CHAR]" ["CHAR"; "LITERAL"];
  imm "[']" ["'"; "DOTICK"; "DOTICK"; "COMPILE,"; "COMPILE,"];
  col "FIND" ["DUP"; "COUNT"; "($FIND)"; zbr 9; "ROT"; "DROP"; "TRUE"; "SWAP"; "IMMEDIATE?"; zbr 1; "NEGATE";
      "EXIT"; "FALSE"; "EXIT"];
  imm "TO" ["'"; "STATE"; "@"; zbr 5; "DOTICK"; "DOTO"; "COMPILE,"; "COMPILE,"; "EXIT"; "CELL+"; "!"];
  col "BEHAVIOR" ["CELL+"; "@"];
  col ">BODY" ["2"; "CELLS"; "+"];
  col "BODY>" ["2"; "CELLS"; "-"];
  imm "RECURSIVE" ["REVEAL"];
  imm "RECURSE" ["LATEST"; "@"; "LINK>"; "COMPILE,"];
  imm "d#" ["PARSE-WORD"; "BASE"; "@"; ">R"; "DECIMAL"; "EVALUATE"; "R>"; "BASE"; "!"];
  imm "h#" ["PARSE-WORD"; "BASE"; "@"; ">R"; "HEX"; "EVALUATE"; "R>"; "BASE"; "!"];
  imm "o#" ["PARSE-WORD"; "BASE"; "@"; ">R"; "OCTAL"; "EVALUATE"; "R>"; "BASE"; "!"] ].

Definition dictionary : list entry := prim_in ++ engine_in.

(** The cells of a word that nothing changes, from the code field on. *)
Definition fixed_cells (d : def) : list item :=
  match d with
  | Cod l | Raw l => [Lab l]
  | Col _ body => Lab DOCOL :: (body ≫= items) ++ [Xt "SEMICOLON"]
  | Con v => [Lab DOCON; Num v]
  | Val _ => [Lab DOVAL]
  | Var _ => [Lab DOVAR]
  | Dfr => [Lab DODEFER]
  | Str _ => []
  end.

Definition find_entry (name : string) : option entry := list_find (fun e => ename e = name) dictionary ≫= fun x => Some x.2.
Definition code_of (name : string) : option (list item) := fixed_cells ∘ edef <$> find_entry name.

(** Every word of a definition is a word of the dictionary, so that every cell of
    a definition that can be executed has a code field. *)
Definition known_item (it : item) : bool :=
  match it with Xt w => bool_decide (is_Some (find_entry w)) | _ => true end.

Example dictionary_closed : forallb (fun e => forallb known_item (fixed_cells (edef e))) dictionary = true.
Proof. vm_compute. reflexivity. Qed.

Example names_differ : NoDup (ename <$> dictionary).
Proof. apply (bool_decide_unpack _). vm_compute. exact I. Qed.
