(* ===== verification/Words.v ===== *)
(** * Running words of the dictionary

    What it means that a word of the dictionary has an effect on the stacks and the
    memory ([does]), and how the effect of a definition follows from those of its words: the
    lemmas step through the cells of a definition, [fw] applies them.  The
    machine is that of Forth.v. *)

From Stdlib Require Import ZArith Lia ZifyNat.
From stdpp Require Import base list gmap option numbers strings.
From S2P Require Import Prelude CMem Engine Forth Dict.

#[global] Arguments load_be : simpl never.
#[global] Arguments store_be : simpl never.

Lemma u64_add_u64_r a b : u64 (a + u64 b) = u64 (a + b).
Proof. apply Zplus_mod_idemp_r. Qed.

(** A truth value on the stack. *)
Definition truth (b : bool) : Z := if b then 2 ^ 64 - 1 else 0.

Lemma u64_flag b : u64 (flag b) = truth b.
Proof. by destruct b. Qed.

Lemma truth_eqb b : (truth b =? 0) = negb b.
Proof. by destruct b. Qed.

Lemma truth_cell b : cell (truth b).
Proof. unfold cell. by destruct b. Qed.

Lemma u64_is_cell v : cell (u64 v).
Proof. apply u64_range. Qed.

Lemma u64_idem v : u64 (u64 v) = u64 v.
Proof. apply Z.mod_mod. lia. Qed.

Lemma u64_opp_u64 v : u64 (- u64 v) = u64 (- v).
Proof. rewrite <- !(Z.sub_0_l). apply Zminus_mod_idemp_r. Qed.

Lemma u64_sub_u64_l a b : u64 (u64 a - b) = u64 (a - b).
Proof. apply Zminus_mod_idemp_l. Qed.

Lemma u64_add_u64_l a b : u64 (u64 a + b) = u64 (a + b).
Proof. apply Zplus_mod_idemp_l. Qed.

Lemma u64_add_s64 a b : u64 (a + s64 b) = u64 (a + b).
Proof. rewrite <- u64_add_u64_r, u64_s64. apply u64_add_u64_r. Qed.

Lemma u64_neg v : - 2 ^ 64 <= v < 0 -> u64 v = v + 2 ^ 64.
Proof. intros. unfold u64. rewrite <- (Z.mod_add _ 1) by lia. apply Z.mod_small. lia. Qed.

Lemma u64_over v : 2 ^ 64 <= v < 2 * 2 ^ 64 -> u64 v = v - 2 ^ 64.
Proof. intros. unfold u64. rewrite <- (Z.mod_add _ (-1)) by lia. apply Z.mod_small. lia. Qed.

Lemma u64_land v : u64 v = Z.land v (2 ^ 64 - 1).
Proof. unfold u64. change (2 ^ 64 - 1) with (Z.ones 64). by rewrite Z.land_ones. Qed.

(** The signed value of a cell. *)
Lemma s64_of a : cell a -> (a < 2 ^ 63 /\ s64 a = a) \/ (2 ^ 63 <= a /\ s64 a = a - 2 ^ 64).
Proof.
  unfold cell, s64, to_signed. intros Ha. rewrite Z.mod_small by done. change (2 ^ (64 - 1)) with (2 ^ 63).
  destruct (Z.ltb_spec a (2 ^ 63)); [left | right]; lia.
Qed.

(** The cell [k] of a word, the code field being cell 0. *)
Definition cell_of (name : string) (k : nat) : option item := code_of name ≫= fun l => l !! k.

(** A cell that can be executed: a word that has a code field. *)
Definition runnable (name : string) (k : nat) : bool :=
  match cell_of name k with Some (Xt w) => bool_decide (is_Some (cell_of w 0)) | _ => false end.

Section words.
Context `{Layout}.

Definition item_val (it : item) : Z := match it with Xt w => xt w | Num v => u64 v | Lab l => lab l end.

(** The address of the cell [k] of a word. *)
Definition pos (name : string) (k : nat) : Z := xt name + 8 * Z.of_nat k.

Lemma pos_S name k : pos name k + 8 = pos name (S k).
Proof. unfold pos. lia. Qed.

(** Nothing of [K] is at the [n] bytes from [p] on. *)
Definition outside (K : mem) (p : Z) (n : nat) : Prop := forall i, p <= i < p + Z.of_nat n -> K !! i = None.

(** The memory that holds the cells of the dictionary that do not change. *)
Class kernel (K : mem) : Prop := {
  k_cells name k it : cell_of name k = Some it -> load64 K (pos name k) = Ok (item_val it);
  k_range name k : is_Some (cell_of name k) -> 0 <= xt name /\ pos name (S k) + 8 <= 2 ^ 64;
  k_vars name : cell_of name 0 = Some (Lab DOVAR) \/ cell_of name 0 = Some (Lab DOVAL) -> outside K (pos name 1) 8 }.

Section effects.
Context (K : mem).

(** The cell at [i] can be executed. *)
Definition fetchable (i : Z) : Prop := (0 <= i < 2 ^ 64) /\ exists c w, load64 K i = Ok c /\ load64 K c = Ok w.

(** The machine executes the cell at [i]. *)
Definition executes (i : Z) (σ ρ : list Z) (m : mem) (s : Z * forth_st) : Prop :=
  K ⊆ m /\ exists c w, load64 K i = Ok c /\ load64 K c = Ok w /\ s = (w, Forth m i c σ ρ).

Definition place : Type := Z * list Z * list Z * mem.

(** From one cell, with stacks and memory, the machine gets to another. *)
Definition runs (a b : place) : Prop :=
  let '(i, σ, ρ, m) := a in let '(i', σ', ρ', m') := b in
  forall s, executes i σ ρ m s -> exists s', executes i' σ' ρ' m' s' /\ fsteps s s'.

(** What the execution of the code field [c] does before the machine goes on at the
    next cell. *)
Definition acts (c : Z) (σ ρ : list Z) (m : mem) (σ' ρ' : list Z) (m' : mem) : Prop :=
  forall i, 0 <= i < 2 ^ 64 -> fetchable (i + 8) -> K ⊆ m ->
  exists w s, load64 K c = Ok w /\ executes (i + 8) σ' ρ' m' s /\ fsteps (w, Forth m i c σ ρ) s.

(** The effect of a word. *)
Definition does (name : string) : list Z -> list Z -> mem -> list Z -> list Z -> mem -> Prop := acts (xt name).

End effects.

Section kernel.
Context {K : mem} {HK : kernel K}.

Lemma runs_refl a : runs K a a.
Proof. destruct a as [[[i σ] ρ] m]. intros s Hs. exists s. split; [done | constructor]. Qed.

Lemma runs_eq a b : a = b -> runs K a b.
Proof. intros ->. apply runs_refl. Qed.

Lemma runs_trans a b c : runs K a b -> runs K b c -> runs K a c.
Proof.
  destruct a as [[[? ?] ?] ?], b as [[[? ?] ?] ?], c as [[[? ?] ?] ?]. intros H1 H2 s Hs.
  destruct (H1 s Hs) as (s1 & Hs1 & St1). destruct (H2 s1 Hs1) as (s2 & Hs2 & St2).
  exists s2. split; [done|]. by eapply fsteps_trans.
Qed.

(** A step may use that the dictionary is in memory. *)
Lemma runs_kernel i σ ρ m b : (K ⊆ m -> runs K (i, σ, ρ, m) b) -> runs K (i, σ, ρ, m) b.
Proof. destruct b as [[[? ?] ?] ?]. intros Hr s Hs. apply Hr; [by destruct Hs | done]. Qed.

Lemma load_weaken m n p v : K ⊆ m -> load_be n K p = Ok v -> load_be n m p = Ok v.
Proof.
  intros Hm Hl. unfold load_be in *. destruct (load_bytes K p n) as [bs| |] eqn:E; res_simpl; try done. simplify_eq.
  apply load_bytes_inv in E as [<- Hb]. rewrite (load_bytes_spec m p bs); [done|].
  intros i b Hi. eapply lookup_weaken; [by apply Hb | done].
Qed.

Lemma cell_xt name k w : cell_of name k = Some (Xt w) -> load64 K (pos name k) = Ok (xt w).
Proof. apply (k_cells name k (Xt w)). Qed.

Lemma code_field name it : cell_of name 0 = Some it -> load64 K (xt name) = Ok (item_val it).
Proof. intros E. apply k_cells in E. unfold pos in E. by rewrite Z.add_0_r in E. Qed.

Lemma pos_range name k : is_Some (cell_of name k) -> 0 <= pos name k < 2 ^ 64 /\ pos name k + 16 <= 2 ^ 64.
Proof. intros E. apply k_range in E as [? ?]. unfold pos in *. lia. Qed.

Lemma u64_xt name it : cell_of name 0 = Some it -> u64 (xt name) = xt name.
Proof. intros E. destruct (pos_range name 0) as [Hr _]; [eauto|]. unfold pos in Hr. apply u64_small. lia. Qed.

Lemma runnable_fetchable name k : runnable name k = true -> fetchable K (pos name k).
Proof.
  unfold runnable. destruct (cell_of name k) as [[w| |]|] eqn:E; try done. intros Hw. apply bool_decide_eq_true in Hw as [it Hw].
  split; [apply pos_range; eauto|]. exists (xt w), (item_val it). split; [by apply cell_xt | by apply code_field].
Qed.

(** ** The primitives *)

Lemma acts_runs i c σ ρ m σ' ρ' m' :
  load64 K i = Ok c -> 0 <= i < 2 ^ 64 -> fetchable K (i + 8) -> acts K c σ ρ m σ' ρ' m' -> runs K (i, σ, ρ, m) (i + 8, σ', ρ', m').
Proof.
  intros Hi Hr Hf Ha s (Hm & c' & w & Hc & Hw & ->). rewrite Hc in Hi. injection Hi as ->.
  destruct (Ha i Hr Hf Hm) as (w' & s & Hw' & Hs & Hst). rewrite Hw in Hw'. injection Hw' as <-. eauto.
Qed.

(** One jump of the machine. *)
Lemma runs_step i σ ρ m l w i' σ' ρ' m' :
  load64 K i = Ok w -> load64 K w = Ok (lab l) ->
  (K ⊆ m -> exists s', executes K i' σ' ρ' m' s' /\ frun l (Forth m i w σ ρ) = Ok s') -> runs K (i, σ, ρ, m) (i', σ', ρ', m').
Proof.
  intros Hi Hw Hrun s (Hm & c & w' & Hc & Hw' & ->). rewrite Hc in Hi. injection Hi as ->. rewrite Hw in Hw'. injection Hw' as <-.
  destruct (Hrun Hm) as (s' & Hs' & E). exists s'. split; [done|]. apply fsteps_one. unfold fstep. cbn [fst snd].
  rewrite unlab_lab. done.
Qed.

Lemma acts_step c l σ ρ m σ' ρ' m' :
  load64 K c = Ok (lab l) ->
  (forall i, 0 <= i < 2 ^ 64 -> fetchable K (i + 8) -> K ⊆ m ->
    exists s, executes K (i + 8) σ' ρ' m' s /\ frun l (Forth m i c σ ρ) = Ok s) ->
  acts K c σ ρ m σ' ρ' m'.
Proof.
  intros Hc Hrun i Hi Hf Hm. destruct (Hrun i Hi Hf Hm) as (s & Hs & E). exists (lab l), s. split; [done|]. split; [done|].
  apply fsteps_one. unfold fstep. cbn [fst snd]. rewrite unlab_lab. done.
Qed.

(** The machine goes on at a cell that can be executed. *)
Lemma NEXT0_executes i σ ρ m c : K ⊆ m -> fetchable K i -> exists s, executes K i σ ρ m s /\ fNEXT0 (Forth m i c σ ρ) = Ok s.
Proof.
  intros Hm (? & c' & w & Hc & Hw). exists (w, Forth m i c' σ ρ). split; [by split; [|eauto]|].
  unfold fNEXT0, fNEXT00, fcell. cbn. rewrite (load_weaken _ _ _ _ Hm Hc). res_simpl. cbn. by rewrite (load_weaken _ _ _ _ Hm Hw).
Qed.

Lemma NEXT_executes i σ ρ m c : K ⊆ m -> fetchable K (i + 8) -> exists s, executes K (i + 8) σ ρ m s /\ fNEXT (Forth m i c σ ρ) = Ok s.
Proof. apply NEXT0_executes. Qed.

(** A word that is a primitive; what its body stores leaves the dictionary alone. *)
Lemma does_prim name l body σ ρ m σ' ρ' m' :
  cell_of name 0 = Some (Lab l) -> (forall st, frun l st = fPRIM body st) ->
  (K ⊆ m -> forall i c, body (Forth m i c σ ρ) = Ok (Forth m' i c σ' ρ') /\ K ⊆ m') ->
  does K name σ ρ m σ' ρ' m'.
Proof.
  intros Hc Hr Hb. apply code_field in Hc. apply (acts_step _ l _ _ _ _ _ _ Hc). intros i Hi (? & c & w & Hc' & Hw') Hm.
  destruct (Hb Hm (i + 8) c) as [Hb1 Hb2].
  exists (w, Forth m' (i + 8) c σ' ρ'). split; [by split; [|eauto]|].
  rewrite Hr. unfold fPRIM, fcell. cbn. change CELLSIZE with 8. rewrite (load_weaken _ _ _ _ Hm Hc'). res_simpl. cbn.
  rewrite (load_weaken _ _ _ _ Hm Hw'). res_simpl. unfold fwith_ip, fwith_cfa. cbn [fm fip fcfa ds rs]. by rewrite Hb1.
Qed.

Lemma fpush_room m i c σ ρ v : (length σ < STACK_CELLS)%nat -> fpush (Forth m i c σ ρ) v = Ok (Forth m i c (u64 v :: σ) ρ).
Proof. intros. unfold fpush. cbn [ds rs]. by rewrite decide_True. Qed.

Lemma fmove_room m i c σ ρ v : (length σ < STACK_CELLS)%nat -> fmove (Forth m i c σ ρ) v = Ok (Forth m i c (v :: σ) ρ).
Proof. intros. unfold fmove. cbn [ds rs]. by rewrite decide_True. Qed.

Lemma frpush_room m i c σ ρ v : (length ρ < STACK_CELLS)%nat -> frpush (Forth m i c σ ρ) v = Ok (Forth m i c σ (u64 v :: ρ)).
Proof. intros. unfold frpush. cbn [ds rs]. by rewrite decide_True. Qed.

Lemma frmove_room m i c σ ρ v : (length ρ < STACK_CELLS)%nat -> frmove (Forth m i c σ ρ) v = Ok (Forth m i c σ (v :: ρ)).
Proof. intros. unfold frmove. cbn [ds rs]. by rewrite decide_True. Qed.

(** A primitive that only changes the stacks. *)
Lemma does_pure name l body σ ρ m σ' ρ' :
  cell_of name 0 = Some (Lab l) -> (forall st, frun l st = fPRIM body st) ->
  (forall i c, body (Forth m i c σ ρ) = Ok (Forth m i c σ' ρ')) -> does K name σ ρ m σ' ρ' m.
Proof. intros. eapply does_prim; eauto. Qed.

Lemma fpick_0 a l : fpick (a :: l) 0 = Ok a.
Proof. reflexivity. Qed.

Lemma fpick_1 a b l : fpick (b :: a :: l) 1 = Ok a.
Proof. reflexivity. Qed.

Lemma fpick_nat l k a : l !! k = Some a -> fpick l (Z.of_nat k) = Ok a.
Proof. intros E. unfold fpick. destruct (Z.ltb_spec (Z.of_nat k) 0); [lia|]. rewrite Nat2Z.id. by rewrite E. Qed.

Lemma ftake_cons m i c a σ ρ : ftake (Forth m i c (a :: σ) ρ) = Ok (a, Forth m i c σ ρ).
Proof. reflexivity. Qed.

Lemma frtake_cons m i c a σ ρ : frtake (Forth m i c σ (a :: ρ)) = Ok (a, Forth m i c σ ρ).
Proof. reflexivity. Qed.

Ltac prim_room := cbn [length]; lia.
Ltac prim_simpl :=
  unfold funary, fbinary, fget, fput, frtake2; cbn [ds rs fm fip fcfa];
  repeat (first [rewrite ftake_cons | rewrite frtake_cons | rewrite fpick_0 | rewrite fpick_1 | rewrite fpush_room by prim_room
                | rewrite fmove_room by prim_room | rewrite frpush_room by prim_room | rewrite frmove_room by prim_room]; res_simpl; cbn [ds rs fm fip fcfa]).
Ltac prim := intros; eapply does_pure; [vm_compute; reflexivity | intros; reflexivity|]; intros; prim_simpl; try reflexivity.

Lemma does_dup a σ ρ m : (length σ + 1 < STACK_CELLS)%nat -> does K "DUP" (a :: σ) ρ m (a :: a :: σ) ρ m.
Proof. prim. Qed.
Lemma does_over a b σ ρ m : (length σ + 2 < STACK_CELLS)%nat -> does K "OVER" (b :: a :: σ) ρ m (a :: b :: a :: σ) ρ m.
Proof. prim. Qed.
Lemma does_drop a σ ρ m : does K "DROP" (a :: σ) ρ m σ ρ m.
Proof. prim. Qed.
Lemma does_swap a b σ ρ m : (length σ + 1 < STACK_CELLS)%nat -> does K "SWAP" (b :: a :: σ) ρ m (a :: b :: σ) ρ m.
Proof. prim. Qed.
Lemma does_to_r a σ ρ m : (length ρ < STACK_CELLS)%nat -> does K ">R" (a :: σ) ρ m σ (a :: ρ) m.
Proof. prim. Qed.
Lemma does_r_from a σ ρ m : (length σ < STACK_CELLS)%nat -> does K "R>" σ (a :: ρ) m (a :: σ) ρ m.
Proof. prim. Qed.
Lemma does_r_fetch a σ ρ m : (length σ < STACK_CELLS)%nat -> does K "R@" σ (a :: ρ) m (a :: σ) (a :: ρ) m.
Proof. prim. Qed.
Lemma does_plus a b σ ρ m : (length σ < STACK_CELLS)%nat -> does K "+" (b :: a :: σ) ρ m (u64 (a + b) :: σ) ρ m.
Proof. prim. Qed.
Lemma does_minus a b σ ρ m : (length σ < STACK_CELLS)%nat -> does K "-" (b :: a :: σ) ρ m (u64 (a - b) :: σ) ρ m.
Proof. prim. Qed.
Lemma does_times a b σ ρ m : (length σ < STACK_CELLS)%nat -> does K "*" (b :: a :: σ) ρ m (u64 (a * b) :: σ) ρ m.
Proof. prim. Qed.
Lemma does_minus_flag name l f a b σ ρ m :
  cell_of name 0 = Some (Lab l) -> (forall st, frun l st = fPRIM (fbinary (fun a b => Ok (flag (f a b)))) st) ->
  (length σ < STACK_CELLS)%nat -> does K name (b :: a :: σ) ρ m (truth (f a b) :: σ) ρ m.
Proof. intros. eapply does_pure; [done | done|]. intros. prim_simpl. by rewrite u64_flag. Qed.

Lemma does_less a b σ ρ m : (length σ < STACK_CELLS)%nat -> does K "<" (b :: a :: σ) ρ m (truth (s64 a <? s64 b) :: σ) ρ m.
Proof. by apply (does_minus_flag "<" LESS (fun a b => s64 a <? s64 b)). Qed.
Lemma does_u_less a b σ ρ m : (length σ < STACK_CELLS)%nat -> does K "U<" (b :: a :: σ) ρ m (truth (a <? b) :: σ) ρ m.
Proof. by apply (does_minus_flag "U<" U_LESS (fun a b => a <? b)). Qed.
Lemma does_equals a b σ ρ m : (length σ < STACK_CELLS)%nat -> does K "=" (b :: a :: σ) ρ m (truth (a =? b) :: σ) ρ m.
Proof. by apply (does_minus_flag "=" EQUALS (fun a b => a =? b)). Qed.
Lemma does_zero_equals a σ ρ m : (length σ < STACK_CELLS)%nat -> does K "0=" (a :: σ) ρ m (truth (a =? 0) :: σ) ρ m.
Proof. prim. by rewrite u64_flag. Qed.
Lemma does_zero_less a σ ρ m : (length σ < STACK_CELLS)%nat -> does K "0<" (a :: σ) ρ m (truth (s64 a <? 0) :: σ) ρ m.
Proof. prim. by rewrite u64_flag. Qed.
Lemma does_and a b σ ρ m : (length σ < STACK_CELLS)%nat -> does K "AND" (b :: a :: σ) ρ m (u64 (Z.land a b) :: σ) ρ m.
Proof. prim. Qed.
Lemma does_or a b σ ρ m : (length σ < STACK_CELLS)%nat -> does K "OR" (b :: a :: σ) ρ m (u64 (Z.lor a b) :: σ) ρ m.
Proof. prim. Qed.
Lemma does_xor a b σ ρ m : (length σ < STACK_CELLS)%nat -> does K "XOR" (b :: a :: σ) ρ m (u64 (Z.lxor a b) :: σ) ρ m.
Proof. prim. Qed.
Lemma does_lshift a b σ ρ m : b < 64 -> (length σ < STACK_CELLS)%nat -> does K "LSHIFT" (b :: a :: σ) ρ m (u64 (Z.shiftl a b) :: σ) ρ m.
Proof. intros Hb. prim. unfold shift. destruct (Z.ltb_spec b 64); [|lia]. res_simpl. prim_simpl. done. Qed.
Lemma does_rshift a b σ ρ m : b < 64 -> (length σ < STACK_CELLS)%nat -> does K "RSHIFT" (b :: a :: σ) ρ m (u64 (Z.shiftr a b) :: σ) ρ m.
Proof. intros Hb. prim. unfold shift. destruct (Z.ltb_spec b 64); [|lia]. res_simpl. prim_simpl. done. Qed.
Lemma does_ashift a b σ ρ m : b < 64 -> (length σ < STACK_CELLS)%nat -> does K "ASHIFT" (b :: a :: σ) ρ m (u64 (Z.shiftr (s64 a) b) :: σ) ρ m.
Proof. intros Hb. prim. unfold shift. destruct (Z.ltb_spec b 64); [|lia]. res_simpl. prim_simpl. done. Qed.
Lemma does_depth σ ρ m : (length σ < STACK_CELLS)%nat -> does K "DEPTH" σ ρ m (Z.of_nat (length σ) :: σ) ρ m.
Proof. prim. rewrite u64_small; [done|]. unfold STACK_CELLS in *. lia. Qed.
Lemma does_rdepth σ ρ m : (length σ < STACK_CELLS)%nat -> (length ρ <= STACK_CELLS)%nat -> does K "RDEPTH" σ ρ m (Z.of_nat (length ρ) :: σ) ρ m.
Proof. prim. rewrite u64_small; [done|]. unfold STACK_CELLS in *. lia. Qed.
Lemma does_pick k a σ ρ m : s64 k = Z.of_nat (Z.to_nat k) -> σ !! Z.to_nat k = Some a -> (length σ < STACK_CELLS)%nat ->
  does K "PICK" (k :: σ) ρ m (a :: σ) ρ m.
Proof. intros Hk Ha ?. prim. rewrite Hk, (fpick_nat _ _ _ Ha). res_simpl. by prim_simpl. Qed.
Lemma does_rpick k a σ ρ m : s64 k = Z.of_nat (Z.to_nat k) -> ρ !! Z.to_nat k = Some a -> (length σ < STACK_CELLS)%nat ->
  does K "RPICK" (k :: σ) ρ m (a :: σ) ρ m.
Proof. intros Hk Ha ?. prim. rewrite Hk, (fpick_nat _ _ _ Ha). res_simpl. by prim_simpl. Qed.
(** Cutting a stack to a depth. *)
Lemma does_rdepth_store n l ρ σ m : n = Z.of_nat (length ρ) -> does K "RDEPTH!" (n :: σ) (l ++ ρ)%list m σ ρ m.
Proof.
  intros ->. prim. rewrite Nat2Z.id, length_app. destruct (decide _) as [_ | Hn]; [|lia].
  replace (length l + length ρ - length ρ)%nat with (length l) by lia. unfold fwith_rs. cbn [fm fip fcfa ds rs]. by rewrite drop_app_length.
Qed.

Lemma does_depth_store n σ ρ m : (Z.to_nat n <= S (length σ))%nat ->
  does K "DEPTH!" (n :: σ) ρ m (drop (S (length σ) - Z.to_nat n) (n :: σ)) ρ m.
Proof. intros Hn. prim. destruct (decide _) as [_ | Hn']; [done | cbn [length] in Hn'; lia]. Qed.

Lemma does_dodo i n σ ρ m : (S (length ρ) < STACK_CELLS)%nat -> does K "DODO" (i :: n :: σ) ρ m σ (i :: n :: ρ) m.
Proof. prim. Qed.

(** ** Loads and stores *)

(** The memory after a store of [n] bytes. *)
Definition put (n : nat) (m : mem) (a v : Z) : mem := write_bytes m a (be_enc n v).

Lemma put_other n m a v p : p < a \/ a + Z.of_nat n <= p -> put n m a v !! p = m !! p.
Proof. intros Hp. unfold put. apply write_bytes_outside. rewrite be_enc_length. lia. Qed.

Lemma mapped_put n m a v p k : mapped m p k -> mapped (put n m a v) p k.
Proof. apply mapped_write_bytes. Qed.

Lemma load_put n m a v : load_be n (put n m a v) a = Ok (v mod 256 ^ Z.of_nat n).
Proof. unfold put. rewrite (load_be_spec n _ a (be_enc n v)); [by rewrite be_dec_enc | apply write_bytes_at | apply be_enc_length]. Qed.

Lemma load_put64 m a v : cell v -> load64 (put 8 m a v) a = Ok v.
Proof. intros Hv. rewrite load_put. f_equal. by apply Z.mod_small. Qed.

(** The same [n] bytes from [a] on. *)
Definition same_at (m m' : mem) (a : Z) (n : nat) : Prop := forall p, a <= p < a + Z.of_nat n -> m' !! p = m !! p.

Lemma load_same n m m' a v : same_at m m' a n -> load_be n m a = Ok v -> load_be n m' a = Ok v.
Proof.
  intros Hs Hl. unfold load_be in *. destruct (load_bytes m a n) as [bs| |] eqn:E; res_simpl; try done. simplify_eq.
  apply load_bytes_inv in E as [<- Hb]. rewrite (load_bytes_spec m' a bs); [done|].
  intros i b Hi. rewrite Hs; [by apply Hb|]. apply lookup_lt_Some in Hi. lia.
Qed.

Lemma same_at_put n m a v p k : p + Z.of_nat k <= a \/ a + Z.of_nat n <= p -> same_at m (put n m a v) p k.
Proof. intros Hp q Hq. apply put_other. lia. Qed.

Lemma outside_sub m a n v : outside K a n -> K ⊆ m -> K ⊆ put n m a v.
Proof.
  intros Ho Hm. apply map_subseteq_spec. intros p b Hp. unfold put. rewrite write_bytes_outside; [by eapply lookup_weaken|].
  rewrite be_enc_length. destruct (decide (a <= p < a + Z.of_nat n)) as [Hin|]; [|lia]. rewrite (Ho p) in Hp; [done | lia].
Qed.

Lemma does_get name l n a v v' σ ρ m :
  cell_of name 0 = Some (Lab l) -> (forall st, frun l st = fPRIM (fget n) st) ->
  load_be n m a = Ok v -> u64 v = v' -> (length σ < STACK_CELLS)%nat -> does K name (a :: σ) ρ m (v' :: σ) ρ m.
Proof. intros Hc Hr Hv <- ?. eapply does_pure; [done | done|]. intros. prim_simpl. rewrite Hv. res_simpl. by prim_simpl. Qed.

Lemma does_put name l n a v σ ρ m :
  cell_of name 0 = Some (Lab l) -> (forall st, frun l st = fPRIM (fput n) st) ->
  mapped m a (Z.of_nat n) -> outside K a n -> does K name (a :: v :: σ) ρ m σ ρ (put n m a v).
Proof.
  intros Hc Hr Hv Ho. eapply does_prim; [done | done|]. intros Hm i c. split; [|by apply outside_sub]. prim_simpl.
  by rewrite (store_be_spec n _ _ _ Hv).
Qed.

Lemma does_fetch a v v' σ ρ m : load64 m a = Ok v -> u64 v = v' -> (length σ < STACK_CELLS)%nat -> does K "@" (a :: σ) ρ m (v' :: σ) ρ m.
Proof. by apply (does_get "@" FETCH 8). Qed.
Lemma does_x_fetch a v v' σ ρ m : load64 m a = Ok v -> u64 v = v' -> (length σ < STACK_CELLS)%nat -> does K "X@" (a :: σ) ρ m (v' :: σ) ρ m.
Proof. by apply (does_get "X@" X_FETCH 8). Qed.
Lemma does_l_fetch a v v' σ ρ m : load32 m a = Ok v -> u64 v = v' -> (length σ < STACK_CELLS)%nat -> does K "L@" (a :: σ) ρ m (v' :: σ) ρ m.
Proof. by apply (does_get "L@" L_FETCH 4). Qed.
Lemma does_w_fetch a v v' σ ρ m : load16 m a = Ok v -> u64 v = v' -> (length σ < STACK_CELLS)%nat -> does K "W@" (a :: σ) ρ m (v' :: σ) ρ m.
Proof. by apply (does_get "W@" W_FETCH 2). Qed.
Lemma does_store a v σ ρ m : mapped m a 8 -> outside K a 8 -> does K "!" (a :: v :: σ) ρ m σ ρ (put 8 m a v).
Proof. by apply (does_put "!" STORE 8). Qed.
Lemma does_x_store a v σ ρ m : mapped m a 8 -> outside K a 8 -> does K "X!" (a :: v :: σ) ρ m σ ρ (put 8 m a v).
Proof. by apply (does_put "X!" X_STORE 8). Qed.
Lemma does_l_store a v σ ρ m : mapped m a 4 -> outside K a 4 -> does K "L!" (a :: v :: σ) ρ m σ ρ (put 4 m a v).
Proof. by apply (does_put "L!" L_STORE 4). Qed.
Lemma does_w_store a v σ ρ m : mapped m a 2 -> outside K a 2 -> does K "W!" (a :: v :: σ) ρ m σ ρ (put 2 m a v).
Proof. by apply (does_put "W!" W_STORE 2). Qed.

Lemma load_be_1 m a : load_be 1 m a = load8 m a.
Proof.
  unfold load_be. cbn [load_bytes]. destruct (load8 m a) as [b| |]; res_simpl; [|done|done]. f_equal.
Qed.

Lemma does_c_fetch a b σ ρ m : load8 m a = Ok b -> byte b -> (length σ < STACK_CELLS)%nat -> does K "C@" (a :: σ) ρ m (b :: σ) ρ m.
Proof.
  intros Hb ?. apply (does_get "C@" C_FETCH 1 a b); [done | done | by rewrite load_be_1|]. apply u64_small. unfold byte in *. lia.
Qed.

Lemma put_1 m a v : put 1 m a v = <[a := u8 v]> m.
Proof. unfold put. cbn [be_enc write_bytes Z.of_nat Z.pow]. by rewrite Z.div_1_r. Qed.

Lemma does_c_store a v σ ρ m : is_Some (m !! a) -> outside K a 1 -> does K "C!" (a :: v :: σ) ρ m σ ρ (<[a := u8 v]> m).
Proof.
  intros Ha ?. rewrite <- put_1. apply (does_put "C!" C_STORE 1); [done | done | | done]. intros p Hp. by replace p with a by lia.
Qed.

(** ** Data words *)

Lemma load_field name k it m : cell_of name k = Some it -> K ⊆ m -> fcell (Forth m 0 0 [] []) (pos name k) = Ok (item_val it).
Proof. intros Hc Hm. unfold fcell. cbn [fm]. by rewrite (load_weaken _ _ _ _ Hm (k_cells _ _ _ Hc)). Qed.

(** A constant. *)
Lemma does_con name v v' σ ρ m :
  cell_of name 0 = Some (Lab DOCON) -> cell_of name 1 = Some (Num v) -> u64 v = v' -> (length σ < STACK_CELLS)%nat ->
  does K name σ ρ m (v' :: σ) ρ m.
Proof.
  intros Hc Hv <- Hl. apply code_field in Hc. eapply acts_step; [exact Hc|]. intros i Hi Hf Hm. cbn [frun fcfa].
  unfold fcell. change (xt name + CELLSIZE) with (pos name 1). cbn [fm].
  rewrite (load_weaken _ _ _ _ Hm (k_cells _ _ _ Hv)). res_simpl. rewrite fpush_room by done. res_simpl. cbn [item_val].
  rewrite (u64_small (u64 v)) by apply u64_range. by apply NEXT_executes.
Qed.

(** A variable: the address of its cell. *)
Lemma does_var name σ ρ m :
  cell_of name 0 = Some (Lab DOVAR) -> (length σ < STACK_CELLS)%nat -> does K name σ ρ m (pos name 1 :: σ) ρ m.
Proof.
  intros Hc Hl. destruct (pos_range name 0) as [_ ?]; [eauto|]. destruct (k_range name 0) as [? _]; [eauto|]. apply code_field in Hc.
  eapply acts_step; [exact Hc|]. intros i Hi Hf Hm. cbn [frun fcfa].
  rewrite fpush_room by done. res_simpl. change (xt name + CELLSIZE) with (pos name 1). rewrite u64_small by (unfold pos in *; lia).
  by apply NEXT_executes.
Qed.

(** A value, whose cell holds [v]. *)
Lemma does_val name v σ ρ m :
  cell_of name 0 = Some (Lab DOVAL) -> load64 m (pos name 1) = Ok v -> cell v -> (length σ < STACK_CELLS)%nat ->
  does K name σ ρ m (v :: σ) ρ m.
Proof.
  intros Hc Hv Hv' Hl. apply code_field in Hc. eapply acts_step; [exact Hc|]. intros i Hi Hf Hm. cbn [frun fcfa].
  unfold fcell. change (xt name + CELLSIZE) with (pos name 1). cbn [fm]. rewrite Hv. res_simpl.
  rewrite fpush_room by done. res_simpl. rewrite u64_small by done. by apply NEXT_executes.
Qed.

(** A deferred word does K what the word in its cell does. *)
Lemma does_dfr name c σ ρ m σ' ρ' m' :
  cell_of name 0 = Some (Lab DODEFER) -> load64 m (pos name 1) = Ok c -> acts K c σ ρ m σ' ρ' m' -> does K name σ ρ m σ' ρ' m'.
Proof.
  intros Hc Hv Ha i Hi Hf Hm. destruct (Ha i Hi Hf Hm) as (w & s & Hw & Hs & St). exists (lab DODEFER), s.
  split; [by apply code_field in Hc|]. split; [done|]. econstructor; [|exact St].
  unfold fstep. cbn [fst snd]. rewrite unlab_lab. res_simpl. cbn [frun fcfa]. unfold fcell.
  change (xt name + CELLSIZE) with (pos name 1). cbn [fm]. rewrite Hv. res_simpl. unfold fNEXT00, fcell, fwith_cfa. cbn [fm fcfa fip ds rs].
  by rewrite (load_weaken _ _ _ _ Hm Hw).
Qed.

(** EXECUTE *)
Lemma does_execute c σ ρ m σ' ρ' m' : acts K c σ ρ m σ' ρ' m' -> does K "EXECUTE" (c :: σ) ρ m σ' ρ' m'.
Proof.
  intros Ha i Hi Hf Hm. destruct (Ha i Hi Hf Hm) as (w & s & Hw & Hs & St). exists (lab EXECUTE), s.
  split; [by apply (code_field "EXECUTE" (Lab EXECUTE))|]. split; [done|]. econstructor; [|exact St].
  unfold fstep. cbn [fst snd]. rewrite unlab_lab. res_simpl. cbn [frun]. rewrite ftake_cons. res_simpl.
  unfold fNEXT00, fcell, fwith_cfa. cbn [fm fcfa fip ds rs]. by rewrite (load_weaken _ _ _ _ Hm Hw).
Qed.

(** ** Colon definitions *)

Lemma does_col name σ ρ m σ' ρ' m' :
  cell_of name 0 = Some (Lab DOCOL) -> runnable name 1 = true -> (length ρ < STACK_CELLS)%nat ->
  (forall i, 0 <= i < 2 ^ 64 -> fetchable K (i + 8) -> runs K (pos name 1, σ, i :: ρ, m) (i + 8, σ', ρ', m')) ->
  does K name σ ρ m σ' ρ' m'.
Proof.
  intros Hc Hr Hl Hb i Hi Hf Hm. destruct (NEXT_executes (xt name) σ (i :: ρ) m (xt name)) as (s & Hs & E);
    [done | apply runnable_fetchable in Hr; exact Hr|].
  destruct (Hb i Hi Hf s Hs) as (s' & Hs' & St). exists (lab DOCOL), s'. split; [by apply code_field in Hc|]. split; [done|].
  econstructor; [|exact St]. unfold fstep. cbn [fst snd]. rewrite unlab_lab. res_simpl. cbn [frun fip].
  rewrite frpush_room by done. res_simpl. rewrite u64_small by done. exact E.
Qed.

(** A definition whose return goes elsewhere. *)
Lemma runs_col name i σ ρ m b :
  load64 K i = Ok (xt name) -> 0 <= i < 2 ^ 64 ->
  cell_of name 0 = Some (Lab DOCOL) -> runnable name 1 = true -> (length ρ < STACK_CELLS)%nat ->
  runs K (pos name 1, σ, i :: ρ, m) b -> runs K (i, σ, ρ, m) b.
Proof.
  intros Hi Hir Hc Hr Hl Hb. apply code_field in Hc. eapply runs_trans; [|exact Hb].
  eapply runs_step; [exact Hi | exact Hc|]. intros Hm. cbn [frun fip fcfa]. rewrite frpush_room by done. res_simpl.
  rewrite u64_small by done. apply NEXT_executes; [done|]. apply runnable_fetchable in Hr. exact Hr.
Qed.

(** EXECUTE of a definition, whether it returns or not. *)
Lemma step_execute_col name k w σ ρ m b :
  cell_of name k = Some (Xt "EXECUTE") -> cell_of w 0 = Some (Lab DOCOL) -> runnable w 1 = true -> (length ρ < STACK_CELLS)%nat ->
  runs K (pos w 1, σ, pos name k :: ρ, m) b -> runs K (pos name k, xt w :: σ, ρ, m) b.
Proof.
  intros Hc Hw Hr Hl Hb. eapply runs_trans; [|exact Hb]. clear b Hb. intros s (Hm & c & v & Hi & Hv & ->).
  destruct (pos_range name k) as [Hp _]; [eauto|]. apply cell_xt in Hc. rewrite Hc in Hi. injection Hi as <-.
  assert (Ex : cell_of "EXECUTE" 0 = Some (Lab EXECUTE)) by (vm_compute; reflexivity).
  rewrite (code_field _ _ Ex) in Hv. injection Hv as <-. apply code_field in Hw.
  destruct (NEXT_executes (xt w) σ (pos name k :: ρ) m (xt w)) as (s & Hs & E); [done | by apply runnable_fetchable in Hr|].
  exists s. split; [exact Hs|]. econstructor.
  - unfold fstep. cbn [fst snd]. rewrite unlab_lab. res_simpl. cbn [frun]. rewrite ftake_cons. res_simpl.
    unfold fNEXT00, fcell, fwith_cfa. cbn [fm fcfa fip ds rs]. rewrite (load_weaken _ _ _ _ Hm Hw). res_simpl. reflexivity.
  - apply fsteps_one. unfold fstep. cbn [fst snd item_val]. rewrite unlab_lab. res_simpl. cbn [frun fip].
    rewrite frpush_room by done. res_simpl. rewrite u64_small by done. exact E.
Qed.

Lemma step_word name k w σ ρ m σ' ρ' m' b :
  cell_of name k = Some (Xt w) -> runnable name (S k) = true -> does K w σ ρ m σ' ρ' m' ->
  runs K (pos name (S k), σ', ρ', m') b -> runs K (pos name k, σ, ρ, m) b.
Proof.
  intros Hc Hr Hd Hb. eapply runs_trans; [|exact Hb]. rewrite <- pos_S. eapply acts_runs; [by apply cell_xt | | | exact Hd].
  - apply pos_range. eauto.
  - rewrite pos_S. by apply runnable_fetchable.
Qed.

(** A word that has run, where the rest of the definition does not matter. *)
Lemma step_exit name k w p σ ρ m b :
  cell_of name k = Some (Xt w) -> w = "EXIT" \/ w = "SEMICOLON" -> fetchable K (p + 8) ->
  runs K (p + 8, σ, ρ, m) b -> runs K (pos name k, σ, p :: ρ, m) b.
Proof.
  intros Hc Hw Hf Hb. eapply runs_trans; [|exact Hb]. apply cell_xt in Hc.
  destruct Hw as [-> | ->]; (eapply runs_step; [exact Hc | by eapply (code_field _ (Lab _)); vm_compute|]); intros Hm; cbn [frun];
    rewrite frtake_cons; res_simpl; by apply NEXT_executes.
Qed.

Lemma step_operand name k it : cell_of name (S k) = Some it -> forall m c σ ρ, K ⊆ m ->
  foperand (Forth m (pos name k) c σ ρ) = Ok (item_val it, Forth m (pos name (S k)) c σ ρ).
Proof.
  intros Hc m c σ ρ Hm. unfold foperand, fcell, fwith_ip. cbn [fm fip fcfa ds rs]. change CELLSIZE with 8. rewrite pos_S.
  by rewrite (load_weaken _ _ _ _ Hm (k_cells _ _ _ Hc)).
Qed.

(** An operand that is pushed. *)
Lemma step_lit name k w it v σ ρ m b :
  cell_of name k = Some (Xt w) -> w = "LIT" \/ w = "DOTICK" -> cell_of name (S k) = Some it -> u64 (item_val it) = v ->
  runnable name (S (S k)) = true -> (length σ < STACK_CELLS)%nat ->
  runs K (pos name (S (S k)), v :: σ, ρ, m) b -> runs K (pos name k, σ, ρ, m) b.
Proof.
  intros Hc Hw Hv <- Hr Hl Hb. eapply runs_trans; [|exact Hb]. apply cell_xt in Hc. apply runnable_fetchable in Hr.
  destruct Hw as [-> | ->]; (eapply runs_step; [exact Hc | by eapply (code_field _ (Lab _)); vm_compute|]); intros Hm; cbn [frun];
    rewrite (step_operand _ _ _ Hv) by done; res_simpl; rewrite fpush_room by done; res_simpl; rewrite <- pos_S in Hr |- *;
    by apply NEXT_executes.
Qed.

(** The cell that a branch at cell [k] jumps to. *)
Definition branch_target (name : string) (k : nat) : option nat :=
  match cell_of name (S k) with
  | Some (Num v) =>
      let t := Z.to_nat (Z.of_nat k + 2 + v / 8) in
      if (8 * (Z.of_nat t - Z.of_nat k - 2) =? v) && (1 <=? t)%nat && runnable name t then Some t else None
  | _ => None
  end.

Lemma jump_target name k t m c σ ρ : branch_target name k = Some t ->
  exists v, cell_of name (S k) = Some (Num v) /\
  fjump (Forth m (pos name (S k)) c σ ρ) (u64 v) = Forth m (pos name t - 8) c σ ρ /\ fetchable K (pos name t).
Proof.
  unfold branch_target. destruct (cell_of name (S k)) as [[|v|]|] eqn:E; try done. cbv zeta.
  set (t' := Z.to_nat _). destruct (Z.eqb_spec (8 * (Z.of_nat t' - Z.of_nat k - 2)) v) as [Ev|]; [|done].
  destruct (1 <=? t')%nat eqn:E1; [|done]. destruct (runnable name t') eqn:Er; [|done]. cbn [andb]. intros [= <-].
  apply Nat.leb_le in E1. apply runnable_fetchable in Er. exists v. split; [done|]. split; [|done].
  unfold fjump, fwith_ip. cbn [fm fip fcfa ds rs]. f_equal. rewrite u64_add_u64_r.
  destruct Er as [Hr _]. destruct (k_range name (S k)) as [? _]; [eauto|]. rewrite u64_small; unfold pos in *; lia.
Qed.

Lemma jump_executes name k t m c σ ρ : branch_target name k = Some t -> K ⊆ m ->
  exists v, cell_of name (S k) = Some (Num v) /\ exists s, executes K (pos name t) σ ρ m s /\
  fNEXT (fjump (Forth m (pos name (S k)) c σ ρ) (u64 v)) = Ok s.
Proof.
  intros Ht Hm. destruct (jump_target _ _ _ m c σ ρ Ht) as (v & Hv & Hj & Hf). exists v. split; [done|]. rewrite Hj.
  destruct (NEXT_executes (pos name t - 8) σ ρ m c Hm) as (s & Hs & E); rewrite Z.sub_add in *; eauto.
Qed.

#[local] Ltac control Hc Hb l :=
  eapply runs_trans; [|exact Hb]; apply cell_xt in Hc;
  eapply runs_step; [exact Hc | by eapply (code_field _ (Lab l)); vm_compute|]; intros Hm; cbn [frun].
#[local] Ltac operand Hv := rewrite (step_operand _ _ _ Hv) by done; res_simpl.

Lemma step_branch name k t σ ρ m b :
  cell_of name k = Some (Xt "BRANCH") -> branch_target name k = Some t ->
  runs K (pos name t, σ, ρ, m) b -> runs K (pos name k, σ, ρ, m) b.
Proof.
  intros Hc Ht Hb. control Hc Hb BRANCH.
  destruct (jump_executes _ _ _ m (xt "BRANCH") σ ρ Ht Hm) as (v & Hv & Hs). operand Hv. exact Hs.
Qed.

Lemma skip_executes name k m c σ ρ : runnable name (S (S k)) = true -> K ⊆ m ->
  exists s, executes K (pos name (S (S k))) σ ρ m s /\ fNEXT (Forth m (pos name (S k)) c σ ρ) = Ok s.
Proof. intros Hr Hm. apply runnable_fetchable in Hr. rewrite <- pos_S in Hr |- *. by apply NEXT_executes. Qed.

Lemma step_zbranch name k t f σ ρ m b :
  cell_of name k = Some (Xt "0BRANCH") -> branch_target name k = Some t -> runnable name (S (S k)) = true ->
  runs K (pos name (if f =? 0 then t else S (S k)), σ, ρ, m) b -> runs K (pos name k, f :: σ, ρ, m) b.
Proof.
  intros Hc Ht Hr Hb. control Hc Hb ZBRANCH.
  destruct (jump_executes _ _ _ m (xt "0BRANCH") σ ρ Ht Hm) as (v & Hv & Hs). operand Hv. rewrite ftake_cons. res_simpl.
  destruct (f =? 0); [exact Hs | by apply skip_executes].
Qed.

(** Counted loops: the index and the limit are on the return stack, the index on top. *)
Lemma step_do_qdo name k t i n σ ρ m b :
  cell_of name k = Some (Xt "DO?DO") -> branch_target name k = Some t -> runnable name (S (S k)) = true ->
  (S (length ρ) < STACK_CELLS)%nat ->
  runs K (if i =? n then (pos name t, σ, ρ, m) else (pos name (S (S k)), σ, i :: n :: ρ, m)) b -> runs K (pos name k, i :: n :: σ, ρ, m) b.
Proof.
  intros Hc Ht Hr Hl Hb. destruct (i =? n) eqn:E; control Hc Hb DO_QDO; unfold fdo_qdo; rewrite ftake_cons; res_simpl;
    rewrite ftake_cons; res_simpl; destruct (jump_executes _ _ _ m (xt "DO?DO") σ ρ Ht Hm) as (v & Hv & Hs); operand Hv; rewrite E.
  - exact Hs.
  - do 2 (rewrite frmove_room by prim_room; res_simpl). by apply skip_executes.
Qed.

Lemma step_loop name k t i n σ ρ m b :
  cell_of name k = Some (Xt "DOLOOP") -> branch_target name k = Some t -> runnable name (S (S k)) = true ->
  runs K (if u64 (i + 1) =? n then (pos name (S (S k)), σ, ρ, m) else (pos name t, σ, u64 (i + 1) :: n :: ρ, m)) b ->
  runs K (pos name k, σ, i :: n :: ρ, m) b.
Proof.
  intros Hc Ht Hr Hb. destruct (u64 (i + 1) =? n) eqn:E; control Hc Hb DOLOOP; unfold floop;
    destruct (jump_executes _ _ _ m (xt "DOLOOP") σ (u64 (i + 1) :: n :: ρ) Ht Hm) as (v & Hv & Hs); operand Hv;
    unfold frtake2; rewrite frtake_cons; res_simpl; rewrite frtake_cons; res_simpl; rewrite E.
  - by apply skip_executes.
  - exact Hs.
Qed.

Lemma step_plus_loop name k t inc i n σ ρ m b :
  cell_of name k = Some (Xt "DO+LOOP") -> branch_target name k = Some t -> runnable name (S (S k)) = true ->
  runs K (if crosses i inc n then (pos name (S (S k)), σ, ρ, m) else (pos name t, σ, u64 (i + inc) :: n :: ρ, m)) b ->
  runs K (pos name k, inc :: σ, i :: n :: ρ, m) b.
Proof.
  intros Hc Ht Hr Hb. destruct (crosses i inc n) eqn:E; control Hc Hb DO_PLUS_LOOP; unfold fplus_loop;
    destruct (jump_executes _ _ _ m (xt "DO+LOOP") σ (u64 (i + inc) :: n :: ρ) Ht Hm) as (v & Hv & Hs); operand Hv;
    rewrite ftake_cons; res_simpl; unfold frtake2; rewrite frtake_cons; res_simpl; rewrite frtake_cons; res_simpl; rewrite E.
  - by apply skip_executes.
  - exact Hs.
Qed.
End kernel.
End words.

(** ** Stepping through a definition

    [fw] runs the words of the cells that follow, each by a lemma of the database [forth] on the
    effect of the word; [fw_with] by a given one.  A branch leaves the choice to the
    caller. *)

Create HintDb forth discriminated.
#[export] Hint Constants Opaque : forth.

(** Room on the stacks follows from what is known of natural numbers. *)
Ltac nat_facts :=
  repeat match goal with
  | h : (_ <= _)%nat |- _ => revert h
  | h : (_ < _)%nat |- _ => revert h
  | h : @eq nat _ _ |- _ => revert h
  end; clear; intros.
Ltac room := nat_facts; rewrite ?length_app, ?length_reverse; cbn [length]; rewrite ?length_app, ?length_reverse; cbn [length]; lia.
Ltac vm_done := vm_compute; reflexivity.
(** A side condition [u64 v = _]: a number is computed, what is known to be a cell stays. *)
Ltac u64_norm :=
  lazymatch goal with
  | |- u64 (item_val (Num _)) = _ => vm_done
  | |- u64 (item_val (Xt _)) = _ => apply u64_xt; vm_done
  | |- u64 (item_val (Lab _)) = _ => reflexivity
  | |- u64 (Zpos _) = _ => vm_done
  | |- u64 (Zneg _) = _ => vm_done
  | |- u64 Z0 = _ => vm_done
  | |- _ => first [apply u64_small; unfold cell, byte in *; lia | reflexivity]
  end.

Ltac cell_known :=
  lazymatch goal with
  | |- cell (Zpos _) => vm_compute; split; congruence
  | |- cell Z0 => vm_compute; split; congruence
  | |- _ => first [assumption | apply u64_is_cell | apply truth_cell]
  end.

#[export] Hint Extern 1 (_ < STACK_CELLS)%nat => room : forth.
#[export] Hint Extern 1 (_ <= STACK_CELLS)%nat => room : forth.
#[export] Hint Extern 1 (_ < 64) => (unfold cell in *; lia) : forth.
#[export] Hint Extern 1 (cell _) => cell_known : forth.
#[export] Hint Extern 1 (byte _) => assumption : forth.
#[export] Hint Extern 1 (load_be _ _ _ = Ok _) => eassumption : forth.
#[export] Hint Extern 1 (load8 _ _ = Ok _) => eassumption : forth.
#[export] Hint Extern 1 (u64 _ = _) => u64_norm : forth.
#[export] Hint Extern 1 (cell_of _ _ = _) => (vm_compute; reflexivity) : forth.
#[export] Hint Resolve does_dup does_over does_drop does_swap does_to_r does_r_from does_r_fetch does_plus does_minus does_times
  does_less does_u_less does_equals does_zero_equals does_zero_less does_and does_or does_xor does_lshift does_rshift does_ashift
  does_depth does_rdepth does_dodo does_fetch does_x_fetch does_l_fetch does_w_fetch does_c_fetch does_store does_c_store : forth.
(** Data words. *)
#[export] Hint Extern 2 (does _ ?name _ _ _ _ _ _) =>
  (let c := eval vm_compute in (cell_of name 0) in
   lazymatch c with
   | Some (Lab DOCON) => eapply does_con; [vm_done | vm_done | vm_done | room]
   | Some (Lab DOVAR) => eapply does_var; [vm_done | room]
   | Some (Lab DOVAL) => eapply does_val; [vm_done | eassumption | |room]
   end) : forth.

(** Running the word of a cell with a tactic for its effect. *)
Ltac either := first [left; reflexivity | right; reflexivity].
Ltac fw_with tac := eapply step_word; [vm_done | vm_done | tac | cbn [length]].
Ltac fw_word := fw_with ltac:(solve [eauto 4 with forth nocore]).
Ltac fw_zbr := eapply step_zbranch; [vm_done | vm_done | vm_done|].
Ltac fw_br := eapply step_branch; [vm_done | vm_done|].
Ltac fw_lit := eapply step_lit; [vm_done | either | vm_done | u64_norm | vm_done | room |].
Ltac cells_eq :=
  repeat first [reflexivity | lazymatch goal with |- (_, _) = (_, _) => f_equal | |- _ :: _ = _ :: _ => f_equal end];
  try lia; try (apply (f_equal u64); lia).
Ltac fw_exit := eapply step_exit; [vm_done | either | assumption | first [apply runs_refl | apply runs_eq; cells_eq]].
Ltac fw1 :=
  lazymatch goal with
  | |- runs _ (pos _ (S _), _, _, _) _ => first [fw_exit | fw_br | fw_zbr | fw_lit | fw_word]
  end.
Ltac fw := cbn [negb andb orb]; repeat fw1.
(** Up to the cell [k]. *)
Ltac fw_to k := repeat (lazymatch goal with |- runs _ (pos _ k, _, _, _) _ => fail | _ => fw1 end).
(** The start of the proof for a colon definition. *)
Ltac colon := intros; apply does_col; [vm_done | vm_done | room | intros ?i ?Hir ?Hif].
