(* ===== verification/Image.v ===== *)
(** * A dictionary in memory

    One layout of the dictionary, with the code field of every word at a multiple of 0x400, and
    the memory that holds its cells: the hypotheses of the files that run words hold of
    it. *)

From Stdlib Require Import ZArith Lia ZifyNat.
From stdpp Require Import base list gmap option numbers strings fin_maps.
From S2P Require Import Prelude CMem Engine Forth Dict Words.

Local Open Scope list_scope.

Definition labels : list label :=
  [DOCOL; DODOES; DODEFER; DOALIAS; DOCON; DOVAL; DOFIELD; DOVAR; DOBUFFER;
   TIB; POCKETS; EREGS; CIREGS; CISTACK; COMP_BUFFER; PAFLOF_START; HEAP_START; HEAP_END;
   FDT_START; ROMFS_BASE; EPAPR_MAGIC; EPAPR_IMA_SIZE; BRANCH; ZBRANCH; BREAKPOINT; LIT; DOTICK;
   DUP; OVER; PICK; DROP; SWAP; TO_R; R_FROM; R_FETCH; DEPTH; DEPTH_STORE; RDEPTH; RDEPTH_STORE; RPICK;
   PLUS; MINUS; TIMES; LSHIFT; RSHIFT; ASHIFT; AND; OR; XOR;
   FETCH; STORE; C_FETCH; C_STORE; W_FETCH; W_STORE; L_FETCH; L_STORE; X_FETCH; X_STORE;
   UNALIGNED_W_FETCH; UNALIGNED_W_STORE; UNALIGNED_L_FETCH; UNALIGNED_L_STORE;
   LESS; U_LESS; ZERO_LESS; EQUALS; ZERO_EQUALS; DODO; DO_QDO; DOLOOP; DO_PLUS_LOOP; DOLEAVE; DO_QLEAVE;
   EXIT; SEMICOLON; EXECUTE; MOVE; FILL; COMP; STRING_CI; ZCOUNT; CLEAN_HASH; HASH_TABLE; HASH; over].

Fixpoint index_of {A} `{EqDecision A} (x : A) (l : list A) : nat :=
  match l with [] => O | y :: l' => if decide (x = y) then O else S (index_of x l') end.

Lemma index_of_lookup {A} `{EqDecision A} (x : A) l k : NoDup l -> l !! k = Some x -> index_of x l = k.
Proof.
  intros Hl. revert k. induction Hl as [|y l Hy Hl IH]; intros [|k]; cbn [lookup list_lookup index_of]; [done.. | |].
  - intros [= ->]. by rewrite decide_True.
  - intros Hk. rewrite decide_False; [by rewrite (IH k)|]. intros ->. apply Hy. by eapply list_elem_of_lookup_2.
Qed.

Lemma index_of_get {A} `{EqDecision A} (x : A) l : x ∈ l -> l !! index_of x l = Some x.
Proof.
  induction l as [|y l IH]; intros Hx; [by apply not_elem_of_nil in Hx|]. cbn [index_of].
  case_decide as E; [by subst|]. cbn [lookup list_lookup]. apply IH. by apply elem_of_cons in Hx as [?|].
Qed.

Definition names : list string := ename <$> dictionary.

Definition place_of (i k : nat) : Z := 0x100000 + 0x400 * Z.of_nat i + 8 * Z.of_nat k.

Definition label_at (l : label) : Z := 0x1000 + 8 * Z.of_nat (index_of l labels).
Definition label_of (a : Z) : option label := labels !! Z.to_nat ((a - 0x1000) / 8).

Lemma label_of_at l : label_of (label_at l) = Some l.
Proof.
  unfold label_of, label_at. replace (0x1000 + 8 * Z.of_nat (index_of l labels) - 0x1000) with (Z.of_nat (index_of l labels) * 8) by lia.
  rewrite Z.div_mul, Nat2Z.id by lia. apply index_of_get. destruct l; repeat constructor.
Qed.

Definition image_layout : Layout.
Proof.
  refine {| lab := label_at; unlab := label_of; unlab_lab := label_of_at; the_data_stack := 0x10000; the_return_stack := 0x14000;
    handler_stack := 0x18000; c_return := 0x19000; dummy := 0x19010; the_tib := 0x1a000; the_pockets := 0x1b000;
    the_exception_frame := 0x1c000; the_client_frame := 0x1d000; the_client_stack := 0x20000; the_comp_buffer := 0x30000;
    _start_OF := 0x40000; the_heap_start := 0x50000; the_heap_end := 0x58000; FORTH_WORDLIST_last := 0x59000; xt_LASTWORD := 0;
    fdt_start := 0x5a000; romfs_base := 0x60000; epapr_magic := 0; epapr_ima_size := 0; hash_table := 0x70000;
    xt := fun name => place_of (index_of name names) 0 |}.
  left. lia.
Defined.

(** The bytes of the cells, word by word. *)
Definition cell_bytes (i k : nat) (it : item) : list (Z * Z) :=
  imap (fun j b => (place_of i k + Z.of_nat j, b)) (be_enc 8 (item_val (H := image_layout) it)).
Definition word_bytes (i : nat) (e : entry) : list (Z * Z) := concat (imap (cell_bytes i) (fixed_cells (edef e))).
Definition image : mem := list_to_map (concat (imap word_bytes dictionary)).

(** What the list of bytes holds. *)
Lemma image_byte a b : (a, b) ∈ concat (imap word_bytes dictionary) <->
  exists i e k it j, dictionary !! i = Some e /\ fixed_cells (edef e) !! k = Some it /\
    be_enc 8 (item_val (H := image_layout) it) !! j = Some b /\ a = place_of i k + Z.of_nat j.
Proof.
  split.
  - intros Ha. apply list_elem_of_In, in_concat in Ha as (l & Hl & Ha). apply list_elem_of_In, list_elem_of_lookup in Hl as [i Hi].
    rewrite list_lookup_imap in Hi. destruct (dictionary !! i) as [e|] eqn:Ei; [|done]. injection Hi as <-.
    apply in_concat in Ha as (l & Hl & Ha). apply list_elem_of_In, list_elem_of_lookup in Hl as [k Hk].
    rewrite list_lookup_imap in Hk. destruct (fixed_cells (edef e) !! k) as [it|] eqn:Ek; [|done]. injection Hk as <-.
    apply list_elem_of_In, list_elem_of_lookup in Ha as [j Hj]. unfold cell_bytes in Hj. rewrite list_lookup_imap in Hj.
    destruct (be_enc 8 (item_val it) !! j) as [b'|] eqn:Ej; [|done]. injection Hj as <- <-. by exists i, e, k, it, j.
  - intros (i & e & k & it & j & Hi & Hk & Hj & ->). apply list_elem_of_In, in_concat. exists (word_bytes i e). split.
    + apply list_elem_of_In, list_elem_of_lookup. exists i. by rewrite list_lookup_imap, Hi.
    + apply in_concat. exists (cell_bytes i k it). split.
      * apply list_elem_of_In, list_elem_of_lookup. exists k. by rewrite list_lookup_imap, Hk.
      * apply list_elem_of_In, list_elem_of_lookup. exists j. unfold cell_bytes. by rewrite list_lookup_imap, Hj.
Qed.

Lemma words_short : forallb (fun e => (length (fixed_cells (edef e)) <=? 126)%nat) dictionary = true.
Proof. vm_compute. reflexivity. Qed.

Lemma word_short i e : dictionary !! i = Some e -> (length (fixed_cells (edef e)) <= 126)%nat.
Proof.
  intros Hi. apply Nat.leb_le. pose proof (proj1 (forallb_forall _ _) words_short e) as Hs. apply Hs.
  apply list_elem_of_In. by eapply list_elem_of_lookup_2.
Qed.

(** No two bytes are at one address. *)
Lemma place_inj i k j i' k' j' : (k <= 126)%nat -> (k' <= 126)%nat -> (j < 8)%nat -> (j' < 8)%nat ->
  place_of i k + Z.of_nat j = place_of i' k' + Z.of_nat j' -> i = i' /\ k = k' /\ j = j'.
Proof. unfold place_of. intros. assert (i = i') as -> by lia. assert (k = k') as -> by lia. lia. Qed.

Lemma image_lookup i e k it j b : dictionary !! i = Some e -> fixed_cells (edef e) !! k = Some it ->
  be_enc 8 (item_val (H := image_layout) it) !! j = Some b -> image !! (place_of i k + Z.of_nat j) = Some b.
Proof.
  intros Hi Hk Hj. apply elem_of_list_to_map_1'; [|by apply image_byte; exists i, e, k, it, j].
  intros b' Hb. apply image_byte in Hb as (i' & e' & k' & it' & j' & Hi' & Hk' & Hj' & Ha).
  pose proof (word_short _ _ Hi). pose proof (word_short _ _ Hi'). pose proof (lookup_lt_Some _ _ _ Hk). pose proof (lookup_lt_Some _ _ _ Hk').
  pose proof (lookup_lt_Some _ _ _ Hj) as Hlj. pose proof (lookup_lt_Some _ _ _ Hj') as Hlj'. rewrite be_enc_length in Hlj, Hlj'.
  apply place_inj in Ha as (-> & -> & ->); [|lia..]. simplify_eq. done.
Qed.

Lemma image_outside p n : (forall i e k, dictionary !! i = Some e -> (k < length (fixed_cells (edef e)))%nat ->
  place_of i k + 8 <= p \/ p + Z.of_nat n <= place_of i k) -> outside image p n.
Proof.
  intros Hp a Ha. apply not_elem_of_list_to_map_1. intros Hin. apply list_elem_of_fmap in Hin as ([a' b] & Ea & Hin). cbn in Ea. subst a'.
  apply image_byte in Hin as (i & e & k & it & j & Hi & Hk & Hj & Ea). apply lookup_lt_Some in Hk, Hj. rewrite be_enc_length in Hj.
  destruct (Hp i e k Hi Hk); lia.
Qed.

(** Where the cells of a word are. *)
Lemma code_entry name l : code_of name = Some l ->
  exists i e, dictionary !! i = Some e /\ fixed_cells (edef e) = l /\ xt (Layout := image_layout) name = place_of i 0 /\ ename e = name.
Proof.
  intros Hc. apply fmap_Some in Hc as (e & He & ->). apply bind_Some in He as ([i e'] & E & He). injection He as ->.
  apply list_find_Some in E as (Hi & Hn & _). exists i, e. split; [done|]. split; [done|]. split; [|done].
  change (xt name) with (place_of (index_of name names) 0). rewrite (index_of_lookup name names i); [done | exact names_differ|].
  unfold names. by rewrite list_lookup_fmap, Hi, <- Hn.
Qed.

Lemma cell_entry name k it : cell_of name k = Some it -> exists i e,
  dictionary !! i = Some e /\ fixed_cells (edef e) !! k = Some it /\ xt (Layout := image_layout) name = place_of i 0 /\ ename e = name.
Proof.
  intros Hc. apply bind_Some in Hc as (l & E & Hk). apply code_entry in E as (i & e & Hi & <- & Hx & Hn). eauto 6.
Qed.

Lemma dictionary_length : (length dictionary <= 1000)%nat.
Proof. apply Nat.leb_le. vm_compute. reflexivity. Qed.

(** The cells of variables and values are not part of the image. *)
Lemma data_words : forallb (fun e => match fixed_cells (edef e) with
  | Lab DOVAR :: l | Lab DOVAL :: l => (length l =? 0)%nat | _ => true end) dictionary = true.
Proof. vm_compute. reflexivity. Qed.

#[local] Opaque dictionary.

Lemma data_word i e : dictionary !! i = Some e ->
  fixed_cells (edef e) !! 0%nat = Some (Lab DOVAR) \/ fixed_cells (edef e) !! 0%nat = Some (Lab DOVAL) ->
  length (fixed_cells (edef e)) = 1%nat.
Proof.
  intros Hi Hk. pose proof (proj1 (forallb_forall _ _) data_words e) as Hd.
  specialize (Hd (proj1 (list_elem_of_In _ _) (list_elem_of_lookup_2 _ _ _ Hi))).
  cbv beta in Hd. destruct (fixed_cells (edef e)) as [|it l]; cbn [lookup list_lookup] in Hk; [by destruct Hk|].
  destruct Hk as [[= ->] | [= ->]]; apply Nat.eqb_eq in Hd; cbn [length]; lia.
Qed.

Lemma image_load i e k it : dictionary !! i = Some e -> fixed_cells (edef e) !! k = Some it ->
  load64 image (place_of i k) = Ok (item_val (H := image_layout) it mod 2 ^ 64).
Proof.
  intros Hi Hk. rewrite (load_be_spec 8 _ _ (be_enc 8 (item_val (H := image_layout) it))); [by rewrite be_dec_enc | | apply be_enc_length].
  intros j b Hj. by eapply image_lookup.
Qed.

Lemma index_bound name : (index_of name names <= 1000)%nat.
Proof.
  etransitivity; [|apply dictionary_length]. rewrite <- (length_fmap ename dictionary). fold names.
  induction names as [|y l IH]; cbn [index_of length]; [done|]. case_decide; lia.
Qed.

Lemma item_cell it : cell (item_val (H := image_layout) it).
Proof.
  destruct it as [name | v | l]; cbn [item_val].
  - change (xt name) with (place_of (index_of name names) 0). pose proof (index_bound name). unfold cell, place_of. lia.
  - apply u64_is_cell.
  - change (lab l) with (label_at l). unfold cell, label_at. destruct l; vm_compute; split; congruence.
Qed.

Lemma pos_place name i k : xt (Layout := image_layout) name = place_of i 0 -> pos (H := image_layout) name k = place_of i k.
Proof. unfold pos. intros ->. unfold place_of. lia. Qed.

#[export] Instance image_kernel : kernel (H := image_layout) image.
Proof.
  split.
  - intros name k it Hc. apply cell_entry in Hc as (i & e & Hi & Hk & Hx & _). rewrite (pos_place _ i) by done.
    rewrite (image_load i e k it Hi Hk). f_equal. apply Z.mod_small, item_cell.
  - intros name k [it Hc]. apply cell_entry in Hc as (i & e & Hi & Hk & Hx & _). rewrite (pos_place _ i), Hx by done.
    pose proof (lookup_lt_Some _ _ _ Hi). pose proof (word_short _ _ Hi). pose proof (lookup_lt_Some _ _ _ Hk). pose proof dictionary_length.
    unfold place_of. lia.
  - intros name Hc. assert (exists it, cell_of name 0 = Some it /\ (it = Lab DOVAR \/ it = Lab DOVAL)) as (it & Hit & Hl) by (destruct Hc; eauto).
    apply cell_entry in Hit as (i & e & Hi & Hk & Hx & _). rewrite (pos_place _ i) by done.
    assert (H1 : length (fixed_cells (edef e)) = 1%nat) by (by eapply data_word; [eassumption | rewrite Hk; destruct Hl as [-> | ->]; auto]).
    apply image_outside. intros i' e' k' Hi' Hk'. pose proof (word_short _ _ Hi'). unfold place_of.
    destruct (decide (i' = i)) as [-> | Hne]; [simplify_eq; lia | lia].
Qed.

(** The image with [n] zero bytes from [p] on. *)
Definition image_with (p : Z) (n : nat) : mem := write_bytes image p (replicate n 0).
