(* ===== verification/EngineRefines.v ===== *)
(** * The engine does what Forth.v says

    The simulation between the machine of Engine.v, whose stacks are in memory, and that of
    Forth.v.  The memory of the engine is that of the Forth machine with both
    stack areas beside it. *)

From Stdlib Require Import ZArith Lia ZifyNat.
From stdpp Require Import base list gmap option numbers strings fin_maps.
From S2P Require Import Prelude CMem CString Engine Forth Image.

(** ** Functions of a part of the memory *)

(** What reads a part of the memory reads the same in the whole. *)
Definition reads {A} (f : mem -> res A) : Prop := forall m M v, m ⊆ M -> f m = Ok v -> f M = Ok v.

(** What changes a part of the memory does so in the whole and leaves the rest. *)
Definition frames (f : mem -> res mem) : Prop :=
  forall m k m', m ##ₘ k -> f m = Ok m' -> f (m ∪ k) = Ok (m' ∪ k) /\ m' ##ₘ k.

Lemma reads_ret {A} (v : A) : reads (fun _ => Ok v).
Proof. by intros m M w _ [= ->]. Qed.

Lemma reads_bind {A B} (f : mem -> res A) (g : A -> mem -> res B) :
  reads f -> (forall a, reads (g a)) -> reads (fun m => a ← f m; g a m).
Proof.
  intros Hf Hg m M v Hm H. apply bind_Ok_inv in H as (a & Ha & H).
  rewrite (Hf _ _ _ Hm Ha). res_simpl. by apply (Hg a m).
Qed.

Lemma reads_load8 p : reads (fun m => load8 m p).
Proof. intros m M v Hm H. unfold load8 in *. apply of_option_inv in H. by rewrite (lookup_weaken _ _ _ _ H Hm). Qed.

Lemma reads_load_bytes n p : reads (fun m => load_bytes m p n).
Proof.
  revert p. induction n as [|n IH]; intros p; cbn [load_bytes]; [apply reads_ret|].
  apply reads_bind; [apply reads_load8|]. intros b. apply reads_bind; [apply IH|]. intros bs. apply reads_ret.
Qed.

Lemma reads_fmap {A B} (h : A -> B) f : reads f -> reads (fun m => h <$> f m).
Proof.
  intros Hf m M v Hm H. destruct (f m) as [a| |] eqn:E; res_simpl; try done.
  rewrite (Hf _ _ _ Hm E). done.
Qed.

Lemma reads_load_be n p : reads (fun m => load_be n m p).
Proof. apply reads_fmap, reads_load_bytes. Qed.

Lemma frames_bind f g : frames f -> frames g -> frames (fun m => m ← f m; g m).
Proof.
  intros Hf Hg m k m' Hd H. apply bind_Ok_inv in H as (m1 & H1 & H2).
  destruct (Hf _ _ _ Hd H1) as [E1 Hd1]. destruct (Hg _ _ _ Hd1 H2) as [E2 Hd2].
  rewrite E1. by res_simpl.
Qed.

Lemma frames_read {A} (f : mem -> res A) (g : A -> mem -> res mem) :
  reads f -> (forall a, frames (g a)) -> frames (fun m => a ← f m; g a m).
Proof.
  intros Hf Hg m k m' Hd H. apply bind_Ok_inv in H as (a & H1 & H2).
  rewrite (Hf _ (m ∪ k) _ (map_union_subseteq_l m k) H1). res_simpl. by apply Hg.
Qed.

Lemma frames_store8 p v : frames (fun m => store8 m p v).
Proof.
  intros m k m' Hd H. unfold store8 in *. destruct (m !! p) as [b|] eqn:E; [|done]. simplify_eq.
  rewrite (lookup_union_Some_l _ k _ _ E). rewrite insert_union_l. split; [done|].
  apply map_disjoint_insert_l. split; [|done]. eapply map_disjoint_Some_l; done.
Qed.

Lemma frames_ret : frames (fun m => Ok m).
Proof. by intros m k m' Hd [= ->]. Qed.

Lemma frames_fail : frames (fun m => OutOfFuel).
Proof. by intros m k m' Hd [=]. Qed.

Lemma frames_store_bytes p bs : frames (fun m => store_bytes m p bs).
Proof.
  revert p. induction bs as [|b bs IH]; intros p; cbn [store_bytes]; [apply frames_ret|].
  apply (frames_bind (fun m => store8 m p b)); [apply frames_store8 | apply IH].
Qed.

Lemma frames_store_be n p v : frames (fun m => store_be n m p v).
Proof. apply frames_store_bytes. Qed.

Lemma frames_FWMOVE fuel n s d size : frames (fun m => FWMOVE fuel n m s d size).
Proof.
  revert s d size. induction fuel as [|fuel IH]; intros s d size; cbn [FWMOVE]; destruct (size =? 0);
    [apply frames_ret | apply frames_fail | apply frames_ret|].
  apply frames_read; [apply reads_load_be|]. intros v.
  apply (frames_bind (fun m => store_be n m d v)); [apply frames_store_be | apply IH].
Qed.

Lemma frames_BWMOVE fuel n s d size : frames (fun m => BWMOVE fuel n m s d size).
Proof.
  revert s d size. induction fuel as [|fuel IH]; intros s d size; cbn [BWMOVE]; destruct (size =? 0);
    [apply frames_ret | apply frames_fail | apply frames_ret|].
  apply frames_read; [apply reads_load_be|]. intros v.
  apply (frames_bind (fun m => store_be n m _ v)); [apply frames_store_be | apply IH].
Qed.

Lemma frames_FASTMOVE s d size : frames (fun m => FASTMOVE m s d size).
Proof.
  unfold FASTMOVE, MOVE_. cbv zeta. repeat case_match; first [apply frames_FWMOVE | apply frames_BWMOVE].
Qed.

Lemma frames_fill_loop fuel n d size v : frames (fun m => fill_loop fuel n m d size v).
Proof.
  revert d size. induction fuel as [|fuel IH]; intros d size; cbn [fill_loop]; cbv zeta; case_match;
    [apply frames_ret | apply frames_fail | apply frames_ret|].
  apply (frames_bind (fun m => store_be n m d v)); [apply frames_store_be | apply IH].
Qed.

Lemma frames_fill d size c : frames (fun m => fill m d size c).
Proof. unfold fill. cbv zeta. repeat case_match; apply frames_fill_loop. Qed.

Lemma frames_memset_loop c n p : frames (fun m => memset_loop m c n p).
Proof.
  revert p. induction n as [|n IH]; intros p; cbn [memset_loop]; [apply frames_ret|].
  apply (frames_bind (fun m => store8 m p (u8 c))); [apply frames_store8 | apply IH].
Qed.

Lemma reads_comp_loop len a b : reads (fun m => comp_loop len m a b).
Proof.
  revert a b. induction len as [|len IH]; intros; cbn [comp_loop]; [apply reads_ret|].
  apply reads_bind; [apply reads_load8|]. intros c1. apply reads_bind; [apply reads_load8|]. intros c2.
  repeat case_match; first [apply reads_ret | apply IH].
Qed.

Lemma reads_ci_loop len a b : reads (fun m => ci_loop len m a b).
Proof.
  revert a b. induction len as [|len IH]; intros; cbn [ci_loop]; [apply reads_ret|].
  apply reads_bind; [apply reads_load8|]. intros c1. apply reads_bind; [apply reads_load8|]. intros c2.
  repeat case_match; first [apply reads_ret | apply IH].
Qed.

Lemma reads_hash_loop len s tmp h : reads (fun m => hash_loop len m s tmp h).
Proof.
  revert s h. induction len as [|len IH]; intros; cbn [hash_loop]; [apply reads_ret|].
  apply reads_bind; [apply reads_load8|]. intros c. apply IH.
Qed.

(** More memory is more fuel. *)
Lemma strlen_loop_reads fuel fuel' m M s len v :
  m ⊆ M -> (fuel <= fuel')%nat -> strlen_loop fuel m s len = Ok v -> strlen_loop fuel' M s len = Ok v.
Proof.
  intros Hm. revert fuel' s len. induction fuel as [|fuel IH]; intros fuel' s len Hf H; [done|].
  destruct fuel' as [|fuel']; [lia|]. cbn [strlen_loop] in *. apply bind_Ok_inv in H as (b & Hb & H).
  rewrite (reads_load8 _ _ _ _ Hm Hb). res_simpl. case_match; [|done]. apply IH; [lia | done].
Qed.

Lemma reads_strlen s : reads (fun m => strlen m s).
Proof.
  intros m M v Hm. apply strlen_loop_reads; [done|]. unfold walk_fuel.
  rewrite <- !size_dom. assert (dom m ⊆ dom M) by by apply subseteq_dom. pose proof (subseteq_size (dom m) (dom M)). lia.
Qed.

(** ** Stacks in memory *)

(** The cells of a stack that starts at [base], the top first. *)
Fixpoint stack_at (m : mem) (base : Z) (l : list Z) : Prop :=
  match l with [] => True | v :: l' => load64 m (base + 8 * Z.of_nat (length l')) = Ok v /\ stack_at m base l' end.

Lemma load64_frame m m' p lo hi v :
  same_outside m m' lo hi -> p + 8 <= lo \/ hi <= p -> load64 m p = Ok v -> load64 m' p = Ok v.
Proof.
  intros Hs Hp H. unfold load_be in *. destruct (load_bytes m p 8) as [bs| |] eqn:E; res_simpl; try done. simplify_eq.
  apply load_bytes_inv in E as [Hl Hb]. rewrite <- Hl at 1.
  rewrite (load_bytes_spec m' p bs); [done|]. intros i b Hi. rewrite Hs; [by apply Hb|].
  apply lookup_lt_Some in Hi. lia.
Qed.

Lemma stack_at_frame m m' base l lo hi :
  same_outside m m' lo hi -> base + 8 * Z.of_nat (length l) <= lo \/ hi <= base -> stack_at m base l -> stack_at m' base l.
Proof.
  intros Hs. induction l as [|v l IH]; cbn [stack_at length]; [done|]. intros Hb [H1 H2]. split.
  - eapply load64_frame; [exact Hs | | exact H1]. lia.
  - apply IH; [lia | done].
Qed.

Lemma store64_ok m p v : mapped m p 8 -> exists m', store64 m p v = Ok m' /\ load64 m' p = Ok (u64 v) /\ stores m m' p (p + 8).
Proof.
  intros Hm. exists (write_bytes m p (be_enc 8 v)). split; [by apply store_be_spec|]. split.
  - rewrite (load_be_spec 8 _ p (be_enc 8 v)); [by rewrite be_dec_enc | apply write_bytes_at | apply be_enc_length].
  - apply write_bytes_stores; [| lia | rewrite be_enc_length; lia]. by rewrite be_enc_length.
Qed.

Lemma stores_mapped m m' lo hi p n : stores m m' lo hi -> mapped m p n -> mapped m' p n.
Proof. intros [_ Hd] Hm a Ha. eapply same_dom_is_Some; [symmetry; exact Hd | by apply Hm]. Qed.

Lemma stores_disjoint m m' k lo hi : stores m m' lo hi -> k ##ₘ m -> k ##ₘ m'.
Proof. intros [_ Hd] Hk. apply map_disjoint_dom. rewrite Hd. by apply map_disjoint_dom. Qed.

Lemma stack_at_lookup m base l k v : stack_at m base l -> l !! k = Some v -> load64 m (base + 8 * (Z.of_nat (length l) - Z.of_nat k - 1)) = Ok v.
Proof.
  revert k. induction l as [|w l IH]; intros [|k] Hs Hk; cbn [lookup list_lookup] in Hk; cbn [stack_at length] in *; simplify_eq.
  - destruct Hs as [Hs _]. rewrite <- Hs. f_equal. lia.
  - destruct Hs as [_ Hs]. rewrite <- (IH k Hs Hk). f_equal. lia.
Qed.

Lemma stack_at_drop m base l k : stack_at m base l -> stack_at m base (drop k l).
Proof. revert k. induction l as [|v l IH]; intros [|k] Hs; cbn [drop]; try done. apply IH. by destruct Hs. Qed.

(** ** The simulation *)

(** When [y] gives a result then [x] gives one that is related to it. *)
Definition sim {A B} (P : A -> B -> Prop) (x : res A) (y : res B) : Prop := forall b, y = Ok b -> exists a, x = Ok a /\ P a b.

Lemma sim_ret {A B} (P : A -> B -> Prop) a b : P a b -> sim P (Ok a) (Ok b).
Proof. intros H c [= <-]. eauto. Qed.

Lemma sim_bind {A B A' B'} (P : A -> B -> Prop) (Q : A' -> B' -> Prop) x y f g :
  sim P x y -> (forall a b, P a b -> sim Q (f a) (g b)) -> sim Q (x ≫= f) (y ≫= g).
Proof.
  intros H Hf c Hc. apply bind_Ok_inv in Hc as (b & Hb & Hc). destruct (H b Hb) as (a & Ha & Hp).
  rewrite Ha. by apply (Hf a b Hp).
Qed.

(** The second machine alone takes a step. *)
Lemma sim_right {A B B'} (Q : A -> B' -> Prop) x (y : res B) g :
  (forall b, y = Ok b -> sim Q x (g b)) -> sim Q x (y ≫= g).
Proof. intros H c Hc. apply bind_Ok_inv in Hc as (b & Hb & Hc). by apply (H b Hb). Qed.

(** The first machine takes a step whose result is known. *)
Lemma sim_left {A A' B} (Q : A' -> B -> Prop) (x : res A) f y a : x = Ok a -> sim Q (f a) y -> sim Q (x ≫= f) y.
Proof. intros -> H. exact H. Qed.

Lemma sim_fmap {A B A' B'} (P : A -> B -> Prop) (Q : A' -> B' -> Prop) x y f g :
  sim P x y -> (forall a b, P a b -> Q (f a) (g b)) -> sim Q (f <$> x) (g <$> y).
Proof.
  intros H Hf c Hc. destruct y as [b| |]; res_simpl; try done. simplify_eq. destruct (H b eq_refl) as (a & -> & Hp).
  exists (f a). split; [done | by apply Hf].
Qed.

Lemma sim_fault {A B} (P : A -> B -> Prop) x : sim P x (@Fault B).
Proof. by intros b [=]. Qed.

Section refines.
Context `{Layout}.

(** The areas of both stacks are in [stk]. *)
Record rep (c : engine_st) (a : forth_st) (stk : mem) : Prop := {
  r_disjoint : fm a ##ₘ stk;
  r_mem : emem c = fm a ∪ stk;
  r_ip : ip c = fip a;
  r_cfa : cfa c = fcfa a;
  r_dp : dp c = the_data_stack + 8 * Z.of_nat (length (ds a)) - 8;
  r_rp : rp c = the_return_stack + 8 * Z.of_nat (length (rs a)) - 8;
  r_dlen : (length (ds a) <= STACK_CELLS)%nat;
  r_rlen : (length (rs a) <= STACK_CELLS)%nat;
  r_ds : stack_at stk the_data_stack (ds a);
  r_rs : stack_at stk the_return_stack (rs a);
  r_dcells : Forall cell (ds a);
  r_rcells : Forall cell (rs a);
  r_dmap : mapped stk the_data_stack 0x2000;
  r_rmap : mapped stk the_return_stack 0x2000 }.

Definition simulates (c : engine_st) (a : forth_st) : Prop := exists stk, rep c a stk.
(** The same address to jump to as well. *)
Definition at_same (x : Z * engine_st) (y : Z * forth_st) : Prop := x.1 = y.1 /\ simulates x.2 y.2.
Definition with_value {A} (x : A * engine_st) (y : A * forth_st) : Prop := x.1 = y.1 /\ simulates x.2 y.2.

(** ** The operations *)

Lemma sim_reads {A} c a (f : mem -> res A) : simulates c a -> reads f -> sim eq (f (emem c)) (f (fm a)).
Proof.
  intros [stk Hr] Hf v Hv. exists v. split; [|done]. rewrite (r_mem _ _ _ Hr).
  by apply (Hf (fm a)), Hv; apply map_union_subseteq_l.
Qed.

Lemma sim_cell c a p : simulates c a -> sim eq (cell_at c p) (fcell a p).
Proof. intros Hs. apply (sim_reads c a (fun m => load64 m p) Hs), reads_load_be. Qed.

Lemma sim_frames c a f : simulates c a -> frames f -> sim simulates (with_mem c <$> f (emem c)) (fwith_mem a <$> f (fm a)).
Proof.
  intros [stk [Hd Hm]] Hf b Hb. destruct (f (fm a)) as [m'| |] eqn:E; res_simpl; try done. simplify_eq.
  destruct (Hf _ stk _ Hd E) as [E' Hd']. rewrite Hm, E'. res_simpl. eexists. split; [done|]. by exists stk.
Qed.

(** A cell of one of the stacks is stored. *)
Lemma rep_put c a stk base n v :
  rep c a stk -> (base = the_data_stack \/ base = the_return_stack) -> (n < STACK_CELLS)%nat ->
  exists stk', store64 (emem c) (base + 8 * Z.of_nat n) v = Ok (fm a ∪ stk') /\
    load64 stk' (base + 8 * Z.of_nat n) = Ok (u64 v) /\ fm a ##ₘ stk' /\
    stores stk stk' (base + 8 * Z.of_nat n) (base + 8 * Z.of_nat n + 8).
Proof.
  intros [] Hb Hn. unfold STACK_CELLS in *. set (p := base + _).
  assert (Hp : mapped stk p 8) by (destruct Hb as [-> | ->]; [eapply mapped_sub; [exact r_dmap0 | unfold p; lia..] | eapply mapped_sub; [exact r_rmap0 | unfold p; lia..]]).
  destruct (store64_ok stk p v Hp) as (stk' & E & Hl & Hst). exists stk'.
  destruct (frames_store_be 8 p v stk (fm a) stk') as [E' Hd']; [done | done|].
  split; [|split; [done|split; [done|done]]]. rewrite r_mem0, map_union_comm, E' by done. by rewrite map_union_comm.
Qed.

Lemma u64_cell v : cell (u64 v).
Proof. apply u64_range. Qed.

Lemma cell_u64 v : cell v -> u64 v = v.
Proof. apply u64_small. Qed.

Lemma stack_at_insert m m' base l k v :
  stack_at m base l -> stores m m' (base + 8 * (Z.of_nat (length l) - Z.of_nat k - 1)) (base + 8 * (Z.of_nat (length l) - Z.of_nat k - 1) + 8) ->
  load64 m' (base + 8 * (Z.of_nat (length l) - Z.of_nat k - 1)) = Ok v -> (k < length l)%nat -> stack_at m' base (<[k := v]> l).
Proof.
  intros Hs Hst Hl. revert k Hs Hst Hl. induction l as [|w l IH]; intros [|k] Hs Hst Hl Hk; cbn [length] in Hk; try lia; cbn [stack_at length] in *.
  - change (stack_at m' base (v :: l)). destruct Hs as [_ Hs]. split; [rewrite <- Hl; f_equal; lia|].
    eapply stack_at_frame; [apply Hst | | exact Hs]. lia.
  - change (stack_at m' base (w :: <[k := v]> l)). cbn [stack_at]. destruct Hs as [Hw Hs]. rewrite length_insert. split.
    + eapply load64_frame; [apply Hst | | exact Hw]. lia.
    + replace (Z.of_nat (S (length l)) - Z.of_nat (S k) - 1) with (Z.of_nat (length l) - Z.of_nat k - 1) in * by lia.
      apply IH; try done. lia.
Qed.

Lemma stack_at_other m m' base base' l n :
  stack_at m base l -> stores m m' (base' + 8 * Z.of_nat n) (base' + 8 * Z.of_nat n + 8) ->
  (n < STACK_CELLS)%nat -> (length l <= STACK_CELLS)%nat -> base + 0x2000 <= base' \/ base' + 0x2000 <= base -> stack_at m' base l.
Proof. intros Hs [Hso _] ???. eapply stack_at_frame; [exact Hso | | exact Hs]. unfold STACK_CELLS in *. lia. Qed.

(** A cell of the data stack, counted from the top, is replaced. *)
Lemma put_ds c a k v p :
  simulates c a -> (k < length (ds a))%nat -> p = the_data_stack + 8 * (Z.of_nat (length (ds a)) - Z.of_nat k - 1) ->
  exists c', put_cell c p v = Ok c' /\ simulates c' (fwith_ds a (<[k := u64 v]> (ds a))).
Proof.
  intros [stk Hr] Hk ->. pose proof Hr as []. set (n := (length (ds a) - k - 1)%nat).
  destruct (rep_put c a stk the_data_stack n v Hr) as (stk' & E & Hl & Hd & Hst); [by left | lia |].
  replace (8 * Z.of_nat n) with (8 * (Z.of_nat (length (ds a)) - Z.of_nat k - 1)) in * by lia.
  unfold put_cell. rewrite E. res_simpl. eexists. split; [done|]. exists stk'. pose proof stacks_apart.
  split; cbn [with_mem fwith_ds emem fm ip fip cfa fcfa dp ds rp rs]; rewrite ?length_insert; try done.
  - by eapply stack_at_insert.
  - eapply (stack_at_other _ _ _ the_data_stack _ n); [done | | lia | done | lia].
    by replace (8 * Z.of_nat n) with (8 * (Z.of_nat (length (ds a)) - Z.of_nat k - 1)) by lia.
  - apply Forall_insert; [done | apply u64_cell].
  - by eapply stores_mapped.
  - by eapply stores_mapped.
Qed.

Lemma put_rs c a k v p :
  simulates c a -> (k < length (rs a))%nat -> p = the_return_stack + 8 * (Z.of_nat (length (rs a)) - Z.of_nat k - 1) ->
  exists c', put_cell c p v = Ok c' /\ simulates c' (fwith_rs a (<[k := u64 v]> (rs a))).
Proof.
  intros [stk Hr] Hk ->. pose proof Hr as []. set (n := (length (rs a) - k - 1)%nat).
  destruct (rep_put c a stk the_return_stack n v Hr) as (stk' & E & Hl & Hd & Hst); [by right | lia |].
  replace (8 * Z.of_nat n) with (8 * (Z.of_nat (length (rs a)) - Z.of_nat k - 1)) in * by lia.
  unfold put_cell. rewrite E. res_simpl. eexists. split; [done|]. exists stk'. pose proof stacks_apart.
  split; cbn [with_mem fwith_rs emem fm ip fip cfa fcfa dp ds rp rs]; rewrite ?length_insert; try done.
  - eapply (stack_at_other _ _ _ the_return_stack _ n); [done | | lia | done | lia].
    by replace (8 * Z.of_nat n) with (8 * (Z.of_nat (length (rs a)) - Z.of_nat k - 1)) by lia.
  - by eapply stack_at_insert.
  - apply Forall_insert; [done | apply u64_cell].
  - by eapply stores_mapped.
  - by eapply stores_mapped.
Qed.

(** The pointers alone move. *)
Lemma move_dp c a l p :
  simulates c a -> (exists k, l = drop k (ds a)) -> p = the_data_stack + 8 * Z.of_nat (length l) - 8 ->
  simulates (with_dp c p) (fwith_ds a l).
Proof.
  intros [stk []] [k ->] ->. exists stk. split; try done; cbn [fwith_ds ds]; [rewrite length_drop; lia | by apply stack_at_drop | by apply Forall_drop].
Qed.

Lemma move_rp c a l p :
  simulates c a -> (exists k, l = drop k (rs a)) -> p = the_return_stack + 8 * Z.of_nat (length l) - 8 ->
  simulates (with_rp c p) (fwith_rs a l).
Proof.
  intros [stk []] [k ->] ->. exists stk. split; try done; cbn [fwith_rs rs]; [rewrite length_drop; lia | by apply stack_at_drop | by apply Forall_drop].
Qed.

Lemma push_ok c a v :
  simulates c a -> (length (ds a) < STACK_CELLS)%nat -> exists c', push c v = Ok c' /\ simulates c' (fwith_ds a (u64 v :: ds a)).
Proof.
  intros [stk Hr] Hl. pose proof Hr as []. pose proof stacks_apart.
  destruct (rep_put c a stk the_data_stack (length (ds a)) v Hr) as (stk' & E & Hv & Hd & Hst); [by left|done|].
  unfold push, set_TOS, put_cell. cbn [PUSH with_dp emem dp]. rewrite r_dp0. change CELLSIZE with 8.
  replace (the_data_stack + 8 * Z.of_nat (length (ds a)) - 8 + 8) with (the_data_stack + 8 * Z.of_nat (length (ds a))) by lia.
  rewrite E. res_simpl. eexists. split; [done|]. exists stk'.
  split; cbn [PUSH with_mem with_dp fwith_ds emem fm ip fip cfa fcfa dp ds rp rs length stack_at]; try done.
  - rewrite r_dp0. change CELLSIZE with 8. lia.
  - split; [done|]. eapply stack_at_frame; [apply Hst | | done]. lia.
  - eapply (stack_at_other _ _ _ the_data_stack _ (length (ds a))); [done | done | done | done | lia].
  - by constructor; [apply u64_cell|].
  - by eapply stores_mapped.
  - by eapply stores_mapped.
Qed.

Lemma rpush_ok c a v :
  simulates c a -> (length (rs a) < STACK_CELLS)%nat -> exists c', rpush c v = Ok c' /\ simulates c' (fwith_rs a (u64 v :: rs a)).
Proof.
  intros [stk Hr] Hl. pose proof Hr as []. pose proof stacks_apart.
  destruct (rep_put c a stk the_return_stack (length (rs a)) v Hr) as (stk' & E & Hv & Hd & Hst); [by right|done|].
  unfold rpush, set_RTOS, put_cell. cbn [RPUSH with_rp emem rp]. rewrite r_rp0. change CELLSIZE with 8.
  replace (the_return_stack + 8 * Z.of_nat (length (rs a)) - 8 + 8) with (the_return_stack + 8 * Z.of_nat (length (rs a))) by lia.
  rewrite E. res_simpl. eexists. split; [done|]. exists stk'.
  split; cbn [RPUSH with_mem with_rp fwith_rs emem fm ip fip cfa fcfa dp ds rp rs length stack_at]; try done.
  - rewrite r_rp0. change CELLSIZE with 8. lia.
  - eapply (stack_at_other _ _ _ the_return_stack _ (length (rs a))); [done | done | done | done | lia].
  - split; [done|]. eapply stack_at_frame; [apply Hst | | done]. lia.
  - by constructor; [apply u64_cell|].
  - by eapply stores_mapped.
  - by eapply stores_mapped.
Qed.

Lemma ds_load c a k v p :
  simulates c a -> ds a !! k = Some v -> p = the_data_stack + 8 * (Z.of_nat (length (ds a)) - Z.of_nat k - 1) -> cell_at c p = Ok v.
Proof.
  intros [stk []] Hk ->. unfold cell_at. rewrite r_mem0, map_union_comm by done.
  eapply reads_load_be; [apply map_union_subseteq_l|]. by apply stack_at_lookup.
Qed.

Lemma rs_load c a k v p :
  simulates c a -> rs a !! k = Some v -> p = the_return_stack + 8 * (Z.of_nat (length (rs a)) - Z.of_nat k - 1) -> cell_at c p = Ok v.
Proof.
  intros [stk []] Hk ->. unfold cell_at. rewrite r_mem0, map_union_comm by done.
  eapply reads_load_be; [apply map_union_subseteq_l|]. by apply stack_at_lookup.
Qed.

Lemma sim_dp c a : simulates c a -> dp c = the_data_stack + 8 * Z.of_nat (length (ds a)) - 8.
Proof. by intros [stk []]. Qed.
Lemma sim_rp c a : simulates c a -> rp c = the_return_stack + 8 * Z.of_nat (length (rs a)) - 8.
Proof. by intros [stk []]. Qed.
Lemma sim_ip c a : simulates c a -> ip c = fip a.
Proof. by intros [stk []]. Qed.
Lemma sim_cfa c a : simulates c a -> cfa c = fcfa a.
Proof. by intros [stk []]. Qed.
Lemma sim_cells c a : simulates c a -> Forall cell (ds a) /\ Forall cell (rs a).
Proof. by intros [stk []]. Qed.

Lemma sim_with_ip c a p q : simulates c a -> p = q -> simulates (with_ip c p) (fwith_ip a q).
Proof. intros [stk []] ->. exists stk. by split. Qed.
Lemma sim_with_cfa c a p q : simulates c a -> p = q -> simulates (with_cfa c p) (fwith_cfa a q).
Proof. intros [stk []] ->. exists stk. by split. Qed.

(** Taking and pushing, as the code does it. *)
Lemma sim_TOS c a : simulates c a -> sim (fun v x => v = x.1 /\ simulates (POP c) x.2) (TOS c) (ftake a).
Proof.
  intros Hs [v a'] E. unfold ftake in E. destruct (ds a) as [|w l] eqn:El; [done|]. simplify_eq. exists v. split.
  - unfold TOS. eapply (ds_load c a 0); [done | by rewrite El | rewrite (sim_dp _ _ Hs), El; cbn [length]; lia].
  - split; [done|]. apply move_dp; [done | exists 1%nat; by rewrite El |].
    rewrite (sim_dp _ _ Hs), El. change CELLSIZE with 8. cbn [length]. lia.
Qed.

Lemma sim_take c a : simulates c a -> sim with_value (take c) (ftake a).
Proof.
  intros Hs. unfold take. rewrite <- (bind_ret (ftake a)). eapply sim_bind; [by apply sim_TOS|].
  intros v [w a'] [-> Hp]. apply sim_ret. by split.
Qed.

Lemma sim_RTOS c a : simulates c a -> sim (fun v x => v = x.1 /\ simulates (RPOP c) x.2) (RTOS c) (frtake a).
Proof.
  intros Hs [v a'] E. unfold frtake in E. destruct (rs a) as [|w l] eqn:El; [done|]. simplify_eq. exists v. split.
  - unfold RTOS. eapply (rs_load c a 0); [done | by rewrite El | rewrite (sim_rp _ _ Hs), El; cbn [length]; lia].
  - split; [done|]. apply move_rp; [done | exists 1%nat; by rewrite El |].
    rewrite (sim_rp _ _ Hs), El. change CELLSIZE with 8. cbn [length]. lia.
Qed.

Lemma sim_push c a v w : simulates c a -> v = w -> sim simulates (push c v) (fpush a w).
Proof.
  intros Hs -> b E. unfold fpush in E. case_decide; [|done]. simplify_eq. by apply push_ok.
Qed.

Lemma sim_rpush c a v w : simulates c a -> v = w -> sim simulates (rpush c v) (frpush a w).
Proof.
  intros Hs -> b E. unfold frpush in E. case_decide; [|done]. simplify_eq. by apply rpush_ok.
Qed.

Lemma sim_move c a v w : simulates c a -> v = w -> cell w -> sim simulates (push c v) (fmove a w).
Proof.
  intros Hs -> Hc b E. unfold fmove in E. case_decide; [|done]. simplify_eq.
  pose proof (push_ok c a w) as Hp. rewrite (cell_u64 w Hc) in Hp. by apply Hp.
Qed.

Lemma sim_rmove c a v w : simulates c a -> v = w -> cell w -> sim simulates (rpush c v) (frmove a w).
Proof.
  intros Hs -> Hc b E. unfold frmove in E. case_decide; [|done]. simplify_eq.
  pose proof (rpush_ok c a w) as Hp. rewrite (cell_u64 w Hc) in Hp. by apply Hp.
Qed.

(** ** The macros of the code *)

Lemma sim_NEXT00 c a : simulates c a -> sim at_same (NEXT00 c) (fNEXT00 a).
Proof.
  intros Hs. unfold NEXT00, fNEXT00. rewrite (sim_cfa _ _ Hs). eapply sim_bind; [by apply sim_cell|].
  intros w ? <-. by apply sim_ret.
Qed.

Lemma sim_NEXT0 c a : simulates c a -> sim at_same (NEXT0 c) (fNEXT0 a).
Proof.
  intros Hs. unfold NEXT0, fNEXT0. rewrite (sim_ip _ _ Hs). eapply sim_bind; [by apply sim_cell|].
  intros w ? <-. by apply sim_NEXT00, sim_with_cfa.
Qed.

Lemma sim_NEXT c a : simulates c a -> sim at_same (NEXT c) (fNEXT a).
Proof. intros Hs. by apply sim_NEXT0, sim_with_ip; [|rewrite (sim_ip _ _ Hs)]. Qed.

Lemma sim_PRIM c a body fbody :
  simulates c a -> (forall c a, simulates c a -> sim simulates (body c) (fbody a)) -> sim at_same (PRIM body c) (fPRIM fbody a).
Proof.
  intros Hs Hb. unfold PRIM, fPRIM. cbv zeta. rewrite (sim_ip _ _ Hs).
  assert (Hs1 : simulates (with_ip c (fip a + CELLSIZE)) (fwith_ip a (fip a + CELLSIZE))) by by apply sim_with_ip.
  change (ip (with_ip c (fip a + CELLSIZE))) with (fip a + CELLSIZE).
  eapply sim_bind; [by apply sim_cell|]. intros w ? <-.
  assert (Hs2 : simulates (with_cfa (with_ip c (fip a + CELLSIZE)) w) (fwith_cfa (fwith_ip a (fip a + CELLSIZE)) w)) by by apply sim_with_cfa.
  eapply sim_bind; [by apply sim_cell|]. intros x ? <-. eapply sim_bind; [by apply Hb|]. intros. by apply sim_ret.
Qed.

Lemma sim_operand c a : simulates c a -> sim with_value (operand c) (foperand a).
Proof.
  intros Hs. unfold operand, foperand. cbv zeta. rewrite (sim_ip _ _ Hs).
  assert (Hs1 : simulates (with_ip c (fip a + CELLSIZE)) (fwith_ip a (fip a + CELLSIZE))) by by apply sim_with_ip.
  eapply sim_bind; [by apply sim_cell|]. intros w ? <-. apply sim_ret. by split.
Qed.

Lemma sim_jump c a v w : simulates c a -> v = w -> simulates (jump c v) (fjump a w).
Proof. intros Hs ->. by apply sim_with_ip; [|rewrite (sim_ip _ _ Hs)]. Qed.

(** ** The bodies of the primitives *)

(** The cell [k] of a stack, and that it is a cell. *)
Lemma fpick_lookup l n v : fpick l n = Ok v -> 0 <= n /\ l !! Z.to_nat n = Some v.
Proof. unfold fpick. destruct (Z.ltb_spec n 0); [done|]. intros E%of_option_inv. done. Qed.

Lemma sim_fpick c a n p :
  simulates c a -> p = dp c - CELLSIZE * n -> sim (fun v w => v = w /\ cell w) (cell_at c p) (fpick (ds a) n).
Proof.
  intros Hs -> v E. apply fpick_lookup in E as [Hn E]. exists v. split; [|split; [done|]].
  - eapply ds_load; [done | exact E |]. rewrite (sim_dp _ _ Hs). change CELLSIZE with 8. lia.
  - eapply Forall_lookup_1; [apply (proj1 (sim_cells _ _ Hs)) | exact E].
Qed.

Lemma sim_frpick c a n p :
  simulates c a -> p = rp c - CELLSIZE * n -> sim (fun v w => v = w /\ cell w) (cell_at c p) (fpick (rs a) n).
Proof.
  intros Hs -> v E. apply fpick_lookup in E as [Hn E]. exists v. split; [|split; [done|]].
  - eapply rs_load; [done | exact E |]. rewrite (sim_rp _ _ Hs). change CELLSIZE with 8. lia.
  - eapply Forall_lookup_1; [apply (proj2 (sim_cells _ _ Hs)) | exact E].
Qed.

(** The top cell is replaced where the list is popped and pushed. *)
Lemma sim_set_TOS c a v a' w w' :
  simulates c a -> ftake a = Ok (v, a') -> w = w' -> sim simulates (set_TOS c w) (fpush a' w').
Proof.
  intros Hs E -> b Hb. unfold ftake in E. destruct (ds a) as [|u l] eqn:El; [done|]. simplify_eq.
  unfold fpush in Hb. case_decide; [|done]. simplify_eq.
  destruct (put_ds c a 0 w' (dp c) Hs) as (c' & E & Hc); [rewrite El; cbn; lia | rewrite (sim_dp _ _ Hs); lia |].
  exists c'. split; [exact E|]. by rewrite El in Hc.
Qed.

Lemma ftake_cell c a v a' : simulates c a -> ftake a = Ok (v, a') -> cell v.
Proof.
  intros Hs E. unfold ftake in E. destruct (ds a) eqn:El; [done|]. simplify_eq.
  pose proof (proj1 (sim_cells _ _ Hs)) as Hc. rewrite El in Hc. by apply Forall_cons_1 in Hc as [].
Qed.

Lemma frtake_cell c a v a' : simulates c a -> frtake a = Ok (v, a') -> cell v.
Proof.
  intros Hs E. unfold frtake in E. destruct (rs a) eqn:El; [done|]. simplify_eq.
  pose proof (proj2 (sim_cells _ _ Hs)) as Hc. rewrite El in Hc. by apply Forall_cons_1 in Hc as [].
Qed.

Lemma sim_replace c a v a' w :
  simulates c a -> ftake a = Ok (v, a') -> cell w -> sim simulates (set_TOS c w) (fmove a' w).
Proof.
  intros Hs E Hw. pose proof (sim_set_TOS c a v a' w w Hs E eq_refl) as H1. unfold fmove. unfold fpush in H1.
  by rewrite (cell_u64 w Hw) in H1.
Qed.

(** Two cells are replaced by one. *)
Lemma sim_binary c a f : simulates c a -> sim simulates (binary f c) (fbinary f a).
Proof.
  intros Hs x Hx. unfold fbinary, ftake in Hx. destruct (ds a) as [|v [|u l]] eqn:El; try done. res_simpl.
  cbn [fwith_ds ds mbind res_bind] in Hx. apply bind_Ok_inv in Hx as (w & Ef & Hx).
  unfold fpush in Hx. case_decide; [|done]. simplify_eq.
  unfold binary, NOS, TOS.
  assert (Hdp : dp c = the_data_stack + 8 * Z.of_nat (length l) + 8) by (rewrite (sim_dp _ _ Hs), El; cbn [length]; lia).
  rewrite (ds_load c a 1 u (dp c - CELLSIZE) Hs) by (rewrite ?El, ?Hdp; unfold CELLSIZE; cbn [length]; done || lia).
  rewrite (ds_load c a 0 v (dp c) Hs) by (rewrite ?El, ?Hdp; unfold CELLSIZE; cbn [length]; done || lia). res_simpl.
  rewrite Ef. res_simpl.
  destruct (put_ds c a 1 w (dp c - CELLSIZE) Hs) as (c' & E & Hc); [rewrite El; cbn; lia | rewrite El, Hdp; change CELLSIZE with 8; cbn [length]; lia |].
  unfold set_NOS. rewrite E. res_simpl. eexists. split; [done|].
  rewrite El in Hc. assert (Hdp' : dp c' = dp c) by (rewrite (sim_dp _ _ Hc), Hdp; cbn [fwith_ds ds insert list_insert length]; lia).
  unfold POP. refine (move_dp c' _ (u64 w :: l) _ Hc _ _); [by exists 1%nat|]. rewrite Hdp', Hdp. change CELLSIZE with 8. cbn [length]. lia.
Qed.

Lemma sim_unary c a f : simulates c a -> sim simulates (v ← TOS c; set_TOS c (f v)) (funary f a).
Proof.
  intros Hs. unfold funary. intros x Hx. apply bind_Ok_inv in Hx as ([v a'] & Ht & Hx).
  destruct (sim_TOS c a Hs _ Ht) as (w & -> & -> & _). res_simpl. by eapply (sim_set_TOS c a).
Qed.

Lemma sim_GET n c a : simulates c a -> sim simulates (GET_TYPE n c) (fget n a).
Proof.
  intros Hs. unfold GET_TYPE, fget. intros x Hx. apply bind_Ok_inv in Hx as ([v a'] & Ht & Hx).
  destruct (sim_TOS c a Hs _ Ht) as (w & -> & -> & _). res_simpl. revert x Hx.
  assert (Em : fm a' = fm a) by (unfold ftake in Ht; destruct (ds a); by simplify_eq). rewrite Em.
  eapply sim_bind; [apply (sim_reads c a (fun m => load_be n m v) Hs), reads_load_be|]. intros b ? <-. by eapply (sim_set_TOS c a).
Qed.

Lemma sim_PUT n c a : simulates c a -> sim simulates (PUT_TYPE n c) (fput n a).
Proof.
  intros Hs. unfold PUT_TYPE, fput. intros x Hx. apply bind_Ok_inv in Hx as ([p a1] & H1 & Hx).
  destruct (sim_TOS c a Hs _ H1) as (? & -> & -> & Hs1). res_simpl. apply bind_Ok_inv in Hx as ([v a2] & H2 & Hx).
  destruct (sim_TOS _ a1 Hs1 _ H2) as (? & E & -> & Hs2). change (NOS c) with (TOS (POP c)). rewrite E. res_simpl. cbv zeta.
  revert x Hx. change (emem c) with (emem (POP (POP c))). by apply (sim_frames _ _ (fun m => store_be n m p v)), frames_store_be.
Qed.

(** Byte by byte is the same. *)
Lemma get_bytes_spec n m p acc : get_bytes n m p acc = (fun bs => acc ++ bs) <$> load_bytes m p n.
Proof.
  revert p acc. induction n as [|n IH]; intros p acc; cbn [get_bytes load_bytes]; res_simpl; [by rewrite app_nil_r|].
  destruct (load8 m p) as [b| |]; res_simpl; [|done|done]. rewrite IH.
  destruct (load_bytes m (p + 1) n); res_simpl; [|done|done]. by rewrite <- app_assoc.
Qed.

Lemma sim_UGET n c a : simulates c a -> sim simulates (UGET_TYPE n c) (fget n a).
Proof.
  intros Hs. assert (UGET_TYPE n c = GET_TYPE n c) as ->; [|by apply sim_GET].
  unfold UGET_TYPE, GET_TYPE, load_be. destruct (TOS c); res_simpl; [|done|done]. rewrite get_bytes_spec.
  by destruct (load_bytes _ _ _).
Qed.

Lemma sim_UPUT n c a : simulates c a -> sim simulates (UPUT_TYPE n c) (fput n a).
Proof. apply sim_PUT. Qed.

Lemma sim_depth c a : simulates c a -> sim simulates (let c := PUSH c in set_TOS c ((dp c - the_data_stack) / CELLSIZE)) (fpush a (Z.of_nat (length (ds a)))).
Proof.
  intros Hs. cbv zeta. apply (sim_push c a _ _ Hs). cbn [PUSH with_dp dp]. rewrite (sim_dp _ _ Hs). change CELLSIZE with 8.
  replace (_ - _) with (Z.of_nat (length (ds a)) * 8) by lia. by apply Z.div_mul.
Qed.

Lemma sim_rdepth c a : simulates c a -> sim simulates (push c ((rp c - the_return_stack) / CELLSIZE + 1)) (fpush a (Z.of_nat (length (rs a)))).
Proof.
  intros Hs. apply (sim_push c a _ _ Hs). rewrite (sim_rp _ _ Hs). change CELLSIZE with 8.
  replace (_ - _) with ((Z.of_nat (length (rs a)) - 1) * 8) by lia. rewrite Z.div_mul by done. lia.
Qed.

(** ** The larger pieces *)

Lemma sim_docol c a : simulates c a -> sim at_same (run DOCOL c) (frun DOCOL a).
Proof.
  intros Hs. cbn [run frun]. eapply sim_bind; [by apply sim_rpush, sim_ip|]. intros c1 a1 Hs1.
  by apply sim_NEXT, sim_with_ip, sim_cfa.
Qed.

Lemma sim_dodoes c a : simulates c a -> sim at_same (run DODOES c) (frun DODOES a).
Proof.
  intros Hs. cbn [run frun]. eapply sim_bind; [by apply sim_rpush, sim_ip|]. intros c1 a1 Hs1.
  rewrite (sim_cfa _ _ Hs1). eapply sim_bind; [by apply sim_cell|]. intros p ? <-.
  eapply sim_bind; [apply sim_push; [by apply sim_with_ip | done]|]. intros c2 a2 Hs2. by apply sim_NEXT0.
Qed.

Lemma sim_dofield c a : simulates c a -> sim at_same (run DOFIELD c) (frun DOFIELD a).
Proof.
  intros Hs. cbn [run frun]. intros x Hx. apply bind_Ok_inv in Hx as ([v a'] & Ht & Hx).
  destruct (sim_TOS c a Hs _ Ht) as (w & -> & -> & _). res_simpl. cbn [fst]. revert x Hx.
  assert (fm a' = fm a /\ fcfa a' = fcfa a) as [Em Ec] by (unfold ftake in Ht; destruct (ds a); by simplify_eq).
  unfold fcell. rewrite Em, Ec, (sim_cfa _ _ Hs). eapply sim_bind; [by apply (sim_cell c a)|]. intros p ? <-.
  eapply sim_bind; [by eapply (sim_set_TOS c a)|]. intros. by apply sim_NEXT.
Qed.

Lemma sim_dodo c a : simulates c a ->
  sim simulates (dodo c) ('(i, a) ← ftake a; '(n, a) ← ftake a; a ← frmove a n; frmove a i).
Proof.
  intros Hs x Hx. apply bind_Ok_inv in Hx as ([i a1] & H1 & Hx). apply bind_Ok_inv in Hx as ([n a2] & H2 & Hx).
  destruct (sim_TOS c a Hs _ H1) as (? & Ei & -> & Hs1). destruct (sim_TOS _ a1 Hs1 _ H2) as (? & En & -> & Hs2).
  unfold dodo. change (NOS c) with (TOS (POP c)). rewrite En. res_simpl. cbn [fst] in *.
  pose proof (ftake_cell _ _ _ _ Hs H1) as Hi. pose proof (ftake_cell _ _ _ _ Hs1 H2) as Hn.
  assert (Hr1 : rs a2 = rs a) by (unfold ftake in *; destruct (ds a); [done|]; simplify_eq; cbn in H2; destruct l; by simplify_eq).
  unfold frmove in Hx. rewrite Hr1 in Hx. case_decide as D1; [|done]. res_simpl. cbn [rs fwith_rs length] in Hx. case_decide as D2; [|done]. simplify_eq.
  destruct (rpush_ok c a n Hs D1) as (c1 & -> & Hc1). res_simpl. rewrite (cell_u64 n Hn) in Hc1.
  assert (T1 : ftake (fwith_rs a (n :: rs a)) = Ok (i, fwith_rs a1 (n :: rs a))).
  { unfold ftake in *. cbn [fwith_rs ds]. destruct (ds a); by simplify_eq. }
  destruct (sim_TOS c1 _ Hc1 _ T1) as (? & -> & -> & _). res_simpl. cbn [fst].
  destruct (rpush_ok c1 _ i Hc1) as (c2 & -> & Hc2); [exact D2|]. res_simpl. rewrite (cell_u64 i Hi) in Hc2.
  eexists. split; [done|].
  assert (Hds : ds a2 = drop 2 (ds a)) by (unfold ftake in *; destruct (ds a); [done|]; simplify_eq; cbn in H2; destruct l; by simplify_eq).
  pose proof (sim_dp _ _ Hc2) as Hdp. cbn [fwith_rs ds] in Hdp.
  assert (Hlen : (2 <= length (ds a))%nat) by (unfold ftake in *; destruct (ds a); [done|]; simplify_eq; cbn in H2; destruct l; [done|]; cbn; lia).
  assert (Em : fwith_rs (fwith_rs a2 (n :: rs a)) (i :: n :: rs a) = fwith_ds (fwith_rs (fwith_rs a (n :: rs a)) (i :: n :: rs a)) (drop 2 (ds a))).
  { unfold ftake in *. destruct (ds a) as [|? [|]]; simplify_eq; try done. cbn in H2. by simplify_eq. }
  rewrite Em. unfold POP. refine (move_dp c2 _ _ _ Hc2 _ _); [by exists 2%nat|].
  cbn [with_dp dp]. rewrite Hdp, length_drop. unfold CELLSIZE. lia.
Qed.

(** The index of a loop is replaced. *)
Lemma sim_index c a i n l v :
  simulates c a -> rs a = i :: n :: l ->
  RTOS c = Ok i /\ exists c', set_RTOS c v = Ok c' /\ simulates c' (fwith_rs a (u64 v :: n :: l)) /\
    RTOS c' = Ok (u64 v) /\ cell_at c' (rp c' - CELLSIZE) = Ok n /\
    simulates (with_rp c' (rp c' - 2 * CELLSIZE)) (fwith_rs a l).
Proof.
  intros Hs El. pose proof (sim_rp _ _ Hs) as Hrp. rewrite El in Hrp. cbn [length] in Hrp. split.
  { eapply (rs_load c a 0); [done | by rewrite El | rewrite El; cbn [length]; lia]. }
  destruct (put_rs c a 0 v (rp c) Hs) as (c' & E & Hc); [rewrite El; cbn; lia | rewrite El; cbn [length]; lia |].
  rewrite El in Hc. exists c'. split; [done|]. split; [done|].
  pose proof (sim_rp _ _ Hc) as Hrp'. cbn [fwith_rs rs insert list_insert length] in Hrp'. split_and!.
  - eapply (rs_load c' _ 0); [exact Hc | done | cbn [fwith_rs rs insert list_insert length]; lia].
  - eapply (rs_load c' _ 1); [exact Hc | done | cbn [fwith_rs rs insert list_insert length]; unfold CELLSIZE; lia].
  - refine (move_rp c' _ l _ Hc _ _); [by exists 2%nat|]. rewrite Hrp'. unfold CELLSIZE. lia.
Qed.

Lemma frtake2_inv a x : frtake2 a = Ok x -> exists i n l, rs a = i :: n :: l /\ x = (i, n, fwith_rs a l).
Proof.
  unfold frtake2, frtake. destruct (rs a) as [|i [|n l]] eqn:E; res_simpl; cbn [fwith_rs rs]; try done.
  intros. res_simpl. simplify_eq. by exists i, n, l.
Qed.

Lemma sim_doloop c a : simulates c a -> sim at_same (doloop c) (floop a).
Proof.
  intros Hs. unfold doloop, floop. eapply sim_bind; [by apply sim_operand|]. intros [dis c1] [dis' a1] [E Hs1]. cbn in E, Hs1. subst dis'.
  apply sim_right. intros [[i n] a2] (? & ? & l & El & [= <- <- ->])%frtake2_inv.
  destruct (sim_index c1 a1 i n l (i + 1) Hs1 El) as (E0 & c2 & E1 & Hs2 & E2 & E3 & Hs3).
  eapply sim_left; [exact E0|]. eapply sim_left; [exact E1|]. eapply sim_left; [exact E2|]. eapply sim_left; [exact E3|].
  case_match; [by apply sim_NEXT | by apply sim_NEXT, sim_jump].
Qed.

Lemma sim_plus_loop c a : simulates c a -> sim at_same (do_plus_loop c) (fplus_loop a).
Proof.
  intros Hs. unfold do_plus_loop, fplus_loop. eapply sim_bind; [by apply sim_operand|].
  intros [dis c1] [dis' a1] [E Hs1]. cbn in E, Hs1. subst dis'.
  apply sim_right. intros [inc a2] Ht. apply sim_right. intros [[i n] a3] (? & ? & l & El & [= <- <- ->])%frtake2_inv.
  assert (Er : rs a1 = rs a2) by (unfold ftake in Ht; destruct (ds a1); by simplify_eq).
  destruct (sim_take c1 a1 Hs1 _ Ht) as ([v c2] & E1 & [Ev Hs2]). cbn in Ev, Hs2. subst v.
  destruct (sim_index c1 a1 i n l 0 Hs1) as [E0 _]; [by rewrite Er|].
  destruct (sim_index c2 a2 i n l (i + inc) Hs2 El) as (_ & c3 & E3 & Hs3 & E4 & E5 & Hs4).
  eapply sim_left; [exact E0|]. eapply sim_left; [exact E1|]. eapply sim_left; [exact E3|]. eapply sim_left; [exact E4|].
  unfold crosses. destruct (0 <=? s64 inc).
  all: eapply sim_left; [exact E5|]; case_match; [by apply sim_NEXT | by apply sim_NEXT, sim_jump].
Qed.

Lemma sim_leave c a l : simulates c a -> (exists i n, rs a = i :: n :: l) -> simulates (with_rp c (rp c - 2 * CELLSIZE)) (fwith_rs a l).
Proof.
  intros Hs (i & n & El). refine (move_rp c a l _ Hs _ _); [exists 2%nat; by rewrite El|].
  rewrite (sim_rp _ _ Hs), El. unfold CELLSIZE. cbn [length]. lia.
Qed.

Lemma sim_doleave c a : simulates c a -> sim at_same (run DOLEAVE c) (frun DOLEAVE a).
Proof.
  intros Hs. cbn [run frun]. unfold doleave. eapply sim_bind; [by apply sim_operand|].
  intros [dis c1] [dis' a1] [E Hs1]. cbn in E, Hs1. subst dis'.
  apply sim_right. intros [[i n] a2] (? & ? & l & El & [= <- <- ->])%frtake2_inv.
  apply sim_NEXT, sim_jump; [|done]. apply sim_leave; [done | eauto].
Qed.

Lemma sim_qleave c a : simulates c a -> sim at_same (do_qleave c) (fqleave a).
Proof.
  intros Hs. unfold do_qleave, fqleave. eapply sim_bind; [by apply sim_operand|].
  intros [dis c1] [dis' a1] [E Hs1]. cbn in E, Hs1. subst dis'.
  eapply sim_bind; [by apply sim_take|]. intros [f c2] [f' a2] [E Hs2]. cbn in E, Hs2. subst f'.
  destruct (negb (f =? 0)); [|by apply sim_NEXT].
  apply sim_right. intros [[i n] a3] (? & ? & l & El & [= <- <- ->])%frtake2_inv.
  apply sim_NEXT, sim_jump; [|done]. apply sim_leave; [done | eauto].
Qed.

Lemma sim_qdo c a : simulates c a -> sim at_same (do_qdo c) (fdo_qdo a).
Proof.
  intros Hs. unfold do_qdo, fdo_qdo. apply sim_right. intros [i a1] H1. apply sim_right. intros [n a2] H2.
  destruct (sim_take c a Hs _ H1) as ([? c1] & E1 & [E Hs1]). cbn in E, Hs1. subst.
  destruct (sim_take c1 a1 Hs1 _ H2) as ([? c2] & E2 & [E Hs2]). cbn in E, Hs2. subst.
  eapply sim_left; [exact E1|]. eapply sim_left; [exact E2|]. cbn [fst].
  eapply sim_bind; [by apply sim_operand|]. intros [dis c3] [dis' a3] [E Hs3]. cbn in E, Hs3. subst dis'.
  destruct (i =? n); [by apply sim_NEXT, sim_jump|].
  apply sim_right. intros a4 E4. unfold frmove in E4. case_decide as D4; [|done]. simplify_eq.
  apply sim_right. intros a5 E5. unfold frmove in E5. case_decide as D5; [|done]. simplify_eq.
  destruct (rpush_ok c3 a3 n Hs3 D4) as (c4 & P4 & Hs4). rewrite cell_u64 in Hs4 by by eapply (ftake_cell c1).
  destruct (rpush_ok c4 _ i Hs4 D5) as (c5 & P5 & Hs5). rewrite cell_u64 in Hs5 by by eapply (ftake_cell c).
  unfold rpush, set_RTOS, put_cell in P4, P5. cbn [RPUSH with_rp rp emem] in P4, P5. unfold put_cell.
  destruct (store64 (emem c3) (rp c3 + CELLSIZE) n) as [m4| |]; res_simpl; try done. injection P4 as <-.
  cbn [RPUSH with_mem with_rp emem rp] in P5 |- *. replace (rp c3 + CELLSIZE + CELLSIZE) with (rp c3 + 2 * CELLSIZE) in P5 by lia.
  destruct (store64 m4 (rp c3 + 2 * CELLSIZE) i) as [m5| |]; res_simpl; try done. injection P5 as <-.
  assert (with_mem (with_rp (with_mem c3 m4) (rp c3 + 2 * CELLSIZE)) m5 = with_mem (RPUSH (with_mem (RPUSH c3) m4)) m5) as ->.
  { unfold with_mem, RPUSH, with_rp. cbn. f_equal. lia. }
  by apply sim_NEXT.
Qed.

Lemma sim_return c a : simulates c a -> sim at_same (run EXIT c) (frun EXIT a).
Proof.
  intros Hs. cbn [run frun]. apply sim_right. intros [p a1] H1.
  destruct (sim_RTOS c a Hs _ H1) as (v & E1 & -> & Hs1). eapply sim_left; [exact E1|]. cbn [fst].
  apply sim_NEXT. change (RPOP (with_ip c p)) with (with_ip (RPOP c) p). by apply sim_with_ip.
Qed.

Lemma sim_execute c a : simulates c a -> sim at_same (run EXECUTE c) (frun EXECUTE a).
Proof.
  intros Hs. cbn [run frun]. eapply sim_bind; [by apply sim_take|]. intros [v c1] [? a1] [E Hs1]. cbn in E, Hs1. subst.
  by apply sim_NEXT00, sim_with_cfa.
Qed.

(** The arguments on the stack, taken one after the other. *)
Ltac take_args :=
  repeat match goal with
  | Hs : simulates ?c ?a |- sim _ _ (ftake ?a ≫= _) =>
      apply sim_right; let x := fresh "x" in let a' := fresh "a" in let Ht := fresh "Ht" in intros [x a'] Ht;
      let v := fresh "v" in let E := fresh "E" in let Hs' := fresh "Hs" in
      destruct (sim_TOS c a Hs _ Ht) as (v & E & Hv & Hs'); cbn [fst snd] in Hv, Hs'; subst v
  end.

Lemma sim_move_block c a : simulates c a -> sim at_same (run MOVE c) (frun MOVE a).
Proof.
  intros Hs. cbn [run frun]. apply (sim_PRIM _ _ _ _ Hs). clear c a Hs. intros c a Hs. cbv zeta. take_args.
  eapply sim_left; [exact E|]. eapply sim_left; [exact E0|]. eapply sim_left; [exact E1|].
  apply (sim_frames (POP (POP (POP c))) _ (fun m => FASTMOVE m x1 x0 x) Hs2), frames_FASTMOVE.
Qed.

Lemma sim_fill c a : simulates c a -> sim at_same (run FILL c) (frun FILL a).
Proof.
  intros Hs. cbn [run frun]. eapply sim_bind; [by apply sim_take|]. intros [x c1] [? a1] [E Hs1]. cbn in E, Hs1. subst.
  eapply sim_bind; [by apply sim_take|]. intros [y c2] [? a2] [E Hs2]. cbn in E, Hs2. subst.
  eapply sim_bind; [by apply sim_take|]. intros [p c3] [? a3] [E Hs3]. cbn in E, Hs3. subst. cbn [fst snd].
  intros r Hr. apply bind_Ok_inv in Hr as (m & Em & Hr).
  destruct (sim_frames c3 a3 (fun m => fill m z1 (s64 z0) (u8 z)) Hs3 (frames_fill _ _ _) (fwith_mem a3 m)) as (c' & E & Hs4).
  { by rewrite Em. }
  destruct (fill (emem c3) _ _ _) as [M| |]; res_simpl; try done. simplify_eq. by apply (sim_NEXT _ _ Hs4).
Qed.

Lemma sim_comp c a : simulates c a -> sim at_same (run COMP c) (frun COMP a).
Proof.
  intros Hs. cbn [run frun]. eapply sim_bind; [by apply sim_take|]. intros [x c1] [? a1] [E Hs1]. cbn in E, Hs1. subst.
  eapply sim_bind; [by apply sim_take|]. intros [y c2] [? a2] [E Hs2]. cbn in E, Hs2. subst.
  eapply sim_bind; [by apply sim_take|]. intros [p c3] [? a3] [E Hs3]. cbn in E, Hs3. subst. cbn [fst snd].
  eapply sim_bind; [apply (sim_reads c3 a3 (fun m => comp_loop (Z.to_nat (s64 z)) m z1 z0) Hs3), reads_comp_loop|].
  intros v ? <-. eapply sim_bind; [by apply sim_push|]. intros. by apply sim_NEXT.
Qed.

Lemma sim_string_ci c a : simulates c a -> sim simulates (string_ci c) (fstring_ci a).
Proof.
  intros Hs. unfold string_ci, fstring_ci. cbv zeta. apply sim_right. intros [l2 a1] T1.
  destruct (sim_TOS c a Hs _ T1) as (? & E1 & -> & Hs1). apply sim_right. intros [p2 a2] T2.
  destruct (sim_TOS _ a1 Hs1 _ T2) as (? & E2 & -> & Hs2). apply sim_right. intros [l1 a3] T3.
  destruct (sim_TOS _ a2 Hs2 _ T3) as (? & E3 & -> & Hs3). apply sim_right. intros [p1 a4] T4.
  destruct (sim_TOS _ a3 Hs3 _ T4) as (? & E4 & -> & _). cbn [fst] in *.
  eapply sim_left; [exact E1|]. eapply sim_left; [exact E2|]. eapply sim_left; [exact E3|]. eapply sim_left; [exact E4|].
  destruct (l1 =? l2); [|by eapply (sim_set_TOS _ a3)].
  assert (Em : fm a4 = fm a3) by (unfold ftake in T4; destruct (ds a3); by simplify_eq). rewrite Em.
  eapply sim_bind; [apply (sim_reads _ a3 (fun m => ci_loop (Z.to_nat l1) m p1 p2) Hs3), reads_ci_loop|].
  intros v ? <-. by eapply (sim_set_TOS _ a3).
Qed.

Lemma sim_hash c a : simulates c a -> sim simulates (hash c)
  ('(n, a) ← ftake a; '(s, a) ← ftake a; h ← hash_loop (Z.to_nat n) (fm a) s n 0;
   fpush a (hash_table + u64 (Z.land h (HASHSIZE - 1) * CELLSIZE))).
Proof.
  intros Hs. unfold hash. cbv zeta. apply sim_right. intros [n a1] T1.
  destruct (sim_TOS c a Hs _ T1) as (? & E1 & -> & Hs1). apply sim_right. intros [s a2] T2.
  destruct (sim_TOS _ a1 Hs1 _ T2) as (? & E2 & -> & _). cbn [fst] in *.
  eapply sim_left; [exact E1|]. eapply sim_left; [exact E2|].
  assert (Em : fm a2 = fm a1) by (unfold ftake in T2; destruct (ds a1); by simplify_eq). rewrite Em.
  eapply sim_bind; [apply (sim_reads _ a1 (fun m => hash_loop (Z.to_nat n) m s n 0) Hs1), reads_hash_loop|].
  intros v ? <-. by eapply (sim_set_TOS _ a1).
Qed.

(** The primitives on the stacks that have no lemma of their own. *)
Lemma sim_swap c a : simulates c a ->
  sim simulates (x ← NOS c; y ← TOS c; c ← set_NOS c y; set_TOS c x) ('(b, a) ← ftake a; '(x, a) ← ftake a; a ← fmove a b; fmove a x).
Proof.
  intros Hs r Hr. unfold ftake in Hr. destruct (ds a) as [|b [|x l]] eqn:El; res_simpl; try done.
  cbn [fwith_ds ds mbind res_bind] in Hr. unfold fmove in Hr. repeat (case_decide; res_simpl; try done). simplify_eq.
  pose proof (sim_dp _ _ Hs) as Hdp. rewrite El in Hdp. cbn [length] in Hdp.
  destruct (sim_cells _ _ Hs) as [Hc _]. rewrite El in Hc. apply Forall_cons_1 in Hc as [Hb Hc]. apply Forall_cons_1 in Hc as [Hx _].
  unfold NOS, TOS. rewrite (ds_load c a 1 x (dp c - CELLSIZE) Hs) by (rewrite ?El, ?Hdp; unfold CELLSIZE; cbn [length]; done || lia).
  rewrite (ds_load c a 0 b (dp c) Hs) by (rewrite ?El, ?Hdp; unfold CELLSIZE; cbn [length]; done || lia). res_simpl.
  destruct (put_ds c a 1 b (dp c - CELLSIZE) Hs) as (c1 & E1 & Hs1); [rewrite El; cbn; lia | rewrite El, Hdp; unfold CELLSIZE; cbn [length]; lia|].
  unfold set_NOS. rewrite E1. res_simpl. rewrite El, (cell_u64 b Hb) in Hs1.
  destruct (put_ds c1 _ 0 x (dp c1) Hs1) as (c2 & E2 & Hs2); [cbn; lia | rewrite (sim_dp _ _ Hs1); cbn [fwith_ds ds insert list_insert length]; lia |].
  exists c2. split; [exact E2|]. rewrite (cell_u64 x Hx) in Hs2. exact Hs2.
Qed.

Lemma sim_depth_store c a : simulates c a ->
  sim simulates (n ← TOS c; Ok (with_dp c (the_data_stack + CELLSIZE * n - CELLSIZE)))
    (n ← fpick (ds a) 0; let k := Z.to_nat n in
     if decide (k <= length (ds a))%nat then Ok (fwith_ds a (drop (length (ds a) - k) (ds a))) else Fault).
Proof.
  intros Hs. eapply sim_bind; [by apply sim_fpick; [|lia]|]. intros n ? [<- Hn]. cbv zeta. case_decide; [|apply sim_fault].
  apply sim_ret, (move_dp c a _ _ Hs); [eauto|]. rewrite length_drop. destruct Hn. unfold CELLSIZE. lia.
Qed.

Lemma sim_rdepth_store c a : simulates c a ->
  sim simulates (n ← TOS c; Ok (POP (with_rp c (the_return_stack + CELLSIZE * n - CELLSIZE))))
    ('(n, a) ← ftake a; let k := Z.to_nat n in
     if decide (k <= length (rs a))%nat then Ok (fwith_rs a (drop (length (rs a) - k) (rs a))) else Fault).
Proof.
  intros Hs. apply sim_right. intros [n a1] T. destruct (sim_TOS c a Hs _ T) as (? & E & -> & Hs1). cbn [fst] in *.
  eapply sim_left; [exact E|]. cbv zeta. pose proof (ftake_cell _ _ _ _ Hs T) as [Hn _]. case_decide; [|apply sim_fault]. apply sim_ret.
  change (POP (with_rp c ?p)) with (with_rp (POP c) p). apply (move_rp _ a1 _ _ Hs1); [eauto|].
  rewrite length_drop. unfold CELLSIZE. lia.
Qed.

Lemma sim_pick c a : simulates c a ->
  sim simulates (n ← TOS c; x ← cell_at c (dp c - CELLSIZE * s64 n - CELLSIZE); set_TOS c x)
    ('(n, a) ← ftake a; v ← fpick (ds a) (s64 n); fmove a v).
Proof.
  intros Hs. apply sim_right. intros [n a1] T. destruct (sim_TOS c a Hs _ T) as (? & E & -> & Hs1). cbn [fst] in *.
  eapply sim_left; [exact E|]. eapply sim_bind.
  { apply (sim_fpick (POP c) a1 (s64 n) _ Hs1). cbn [POP with_dp dp]. lia. }
  intros v ? [<- Hv]. by eapply (sim_replace c a).
Qed.

Lemma sim_rpick c a : simulates c a ->
  sim simulates (n ← TOS c; x ← cell_at c (rp c - CELLSIZE * s64 n); set_TOS c x)
    ('(n, a) ← ftake a; v ← fpick (rs a) (s64 n); fmove a v).
Proof.
  intros Hs. apply sim_right. intros [n a1] T. destruct (sim_TOS c a Hs _ T) as (? & E & -> & Hs1). cbn [fst] in *.
  eapply sim_left; [exact E|]. eapply sim_bind; [by apply (sim_frpick (POP c) a1 (s64 n))|].
  intros v ? [<- Hv]. by eapply (sim_replace c a).
Qed.

Lemma sim_to_r c a : simulates c a ->
  sim simulates (x ← TOS c; c ← rpush c x; Ok (POP c)) ('(x, a) ← ftake a; frmove a x).
Proof.
  intros Hs r Hr. apply bind_Ok_inv in Hr as ([x a1] & T & Hr). destruct (sim_TOS c a Hs _ T) as (? & -> & -> & _). cbn [fst] in *. res_simpl.
  unfold frmove in Hr. case_decide as D; [|done]. simplify_eq. pose proof (ftake_cell _ _ _ _ Hs T) as Hx.
  unfold ftake in T. destruct (ds a) as [|y l] eqn:El; [done|]. simplify_eq.
  destruct (rpush_ok c a x Hs D) as (c1 & -> & Hs1). res_simpl. rewrite (cell_u64 x Hx) in Hs1. eexists. split; [done|].
  refine (move_dp c1 _ l _ Hs1 _ _); [exists 1%nat; cbn; by rewrite El|].
  rewrite (sim_dp _ _ Hs1). cbn [fwith_rs ds]. rewrite El. unfold CELLSIZE. cbn [length]. lia.
Qed.

Lemma sim_r_from c a : simulates c a ->
  sim simulates (x ← RTOS c; c ← push c x; Ok (RPOP c)) ('(x, a) ← frtake a; fmove a x).
Proof.
  intros Hs r Hr. apply bind_Ok_inv in Hr as ([x a1] & T & Hr). destruct (sim_RTOS c a Hs _ T) as (? & -> & -> & _). cbn [fst] in *. res_simpl.
  unfold fmove in Hr. case_decide as D; [|done]. simplify_eq. pose proof (frtake_cell _ _ _ _ Hs T) as Hx.
  unfold frtake in T. destruct (rs a) as [|y l] eqn:El; [done|]. simplify_eq.
  destruct (push_ok c a x Hs D) as (c1 & -> & Hs1). res_simpl. rewrite (cell_u64 x Hx) in Hs1. eexists. split; [done|].
  refine (move_rp c1 _ l _ Hs1 _ _); [exists 1%nat; cbn; by rewrite El|].
  rewrite (sim_rp _ _ Hs1). cbn [fwith_ds rs]. rewrite El. unfold CELLSIZE. cbn [length]. lia.
Qed.

Lemma sim_memset c a p v n : simulates c a ->
  sim simulates ('(_, m) ← memset (emem c) p v n; Ok (with_mem c m)) ('(_, m) ← memset (fm a) p v n; Ok (fwith_mem a m)).
Proof.
  intros Hs x Hx. unfold memset in *. apply bind_Ok_inv in Hx as ([q m] & Em & Hx). apply bind_Ok_inv in Em as (m1 & Em & E). simplify_eq.
  destruct (sim_frames c a _ Hs (frames_memset_loop v (Z.to_nat n) q) (fwith_mem a m)) as (c' & E & Hs4).
  { by rewrite Em. }
  destruct (memset_loop (emem c) _ _ _) as [M| |]; res_simpl; try done. simplify_eq. by eexists.
Qed.

Create HintDb sims.
Hint Resolve sim_docol sim_dodoes sim_dofield sim_doloop sim_plus_loop sim_doleave sim_qleave sim_qdo sim_return sim_execute
  sim_move_block sim_fill sim_comp sim_NEXT : sims.
Hint Resolve sim_binary sim_unary sim_GET sim_PUT sim_UGET sim_UPUT sim_dodo sim_swap sim_depth sim_rdepth sim_depth_store
  sim_rdepth_store sim_string_ci sim_hash sim_pick sim_rpick sim_to_r sim_r_from : sims.

(** What the code at a label does is what Forth.v says. *)
Lemma run_refines l c a : simulates c a -> sim at_same (run l c) (frun l a).
Proof.
  intros Hs. destruct l; try (by auto with sims); try exact (sim_return c a Hs); cbn [run frun]; try apply sim_fault; try (by auto with sims);
    try (apply (sim_PRIM _ _ _ _ Hs); clear c a Hs; intros c a Hs; try (by auto with sims); try by apply sim_push).
  - rewrite (sim_cfa _ _ Hs). eapply sim_bind; [by apply sim_cell|]. intros p ? <-. by apply sim_NEXT00, sim_with_cfa.
  - rewrite (sim_cfa _ _ Hs). eapply sim_bind; [by apply sim_cell|]. intros p ? <-. by apply sim_NEXT00, sim_with_cfa.
  - rewrite (sim_cfa _ _ Hs). eapply sim_bind; [by apply sim_cell|]. intros p ? <-.
    eapply sim_bind; [by apply sim_push|]. auto with sims.
  - rewrite (sim_cfa _ _ Hs). eapply sim_bind; [by apply sim_cell|]. intros p ? <-.
    eapply sim_bind; [by apply sim_push|]. auto with sims.
  - rewrite (sim_cfa _ _ Hs). eapply sim_bind; [by apply sim_push|]. auto with sims.
  - rewrite (sim_cfa _ _ Hs). eapply sim_bind; [by apply sim_push|]. auto with sims.
  - eapply sim_bind; [by apply sim_operand|]. intros [v c1] [? a1] [[= <-] Hs1]. by apply sim_NEXT, sim_jump.
  - eapply sim_bind; [by apply sim_operand|]. intros [v c1] [? a1] [[= <-] Hs1].
    eapply sim_bind; [by apply sim_TOS|]. intros f [? a2] [-> Hs2]. cbn [fst snd] in *. apply sim_NEXT.
    case_match; [by apply (sim_jump (POP c1)) | done].
  - eapply sim_bind; [by apply sim_rpush, sim_ip|]. intros. by apply sim_NEXT, sim_with_ip.
  - eapply sim_bind; [by apply sim_operand|]. intros [v c1] [? a1] [[= <-] Hs1].
    eapply sim_bind; [by apply sim_push|]. auto with sims.
  - eapply sim_bind; [by apply sim_operand|]. intros [v c1] [? a1] [[= <-] Hs1].
    eapply sim_bind; [by apply sim_push|]. auto with sims.
  - eapply sim_bind; [by apply sim_fpick; [|lia]|]. intros v ? [<- Hv]. by apply sim_move.
  - eapply sim_bind; [by apply sim_fpick|]. intros v ? [<- Hv]. by apply sim_move.
  - apply sim_right. intros [x a1] T. destruct (sim_TOS c a Hs _ T) as (? & E & -> & Hs1). by apply sim_ret.
  - eapply sim_bind; [by apply sim_frpick; [|lia]|]. intros v ? [<- Hv]. by apply sim_move.
  - eapply sim_bind; [by apply sim_fpick; [|lia]|]. intros v ? [<- Hv].
    eapply sim_bind; [apply (sim_reads c a (fun m => strlen m v) Hs), reads_strlen|]. intros n ? <-. by apply sim_push.
  - by apply sim_memset.
Qed.

(** A jump of the engine is a jump of Forth.v, also many of them. *)
Lemma step_refines x y : at_same x y -> sim at_same (step x) (fstep y).
Proof.
  destruct x as [w c], y as [w' a]. intros [E Hs]. cbn in E, Hs. subst w'. unfold step, fstep. cbn [fst snd].
  destruct (unlab w) as [l|]; res_simpl; [by apply run_refines | apply sim_fault].
Qed.

Inductive steps : Z * engine_st -> Z * engine_st -> Prop :=
| steps_refl s : steps s s
| steps_step s1 s2 s3 : step s1 = Ok s2 -> steps s2 s3 -> steps s1 s3.

(** The jumps up to the label over. *)
Lemma jumps_refine y y' : fsteps y y' -> unlab y'.1 = Some over -> forall x, at_same x y ->
  exists fuel c, jumps fuel x = Ok c /\ simulates c y'.2.
Proof.
  induction 1 as [y|y1 y2 y3 Hy _ IH]; intros Ho x Hx.
  - exists 0%nat, x.2. destruct Hx as [E Hs]. rewrite <- E in Ho. split; [|done]. cbn [jumps]. by rewrite decide_True.
  - destruct (step_refines x y1 Hx y2 Hy) as (x2 & Hx2 & Hs2). destruct (IH Ho x2 Hs2) as (fuel & c & Hj & Hc).
    exists (S fuel), c. split; [|done]. cbn [jumps]. destruct (decide (unlab x.1 = Some over)) as [E|_].
    + unfold step in Hx2. rewrite E in Hx2. done.
    + rewrite Hx2. exact Hj.
Qed.

Lemma jumps_more fuel fuel' s c : jumps fuel s = Ok c -> (fuel <= fuel')%nat -> jumps fuel' s = Ok c.
Proof.
  revert fuel' s. induction fuel as [|fuel IH]; intros fuel' s Hj Hf.
  - cbn [jumps] in Hj. destruct (decide (unlab s.1 = Some over)) as [E|]; [|done]. destruct fuel'; cbn [jumps]; by rewrite decide_True.
  - destruct fuel' as [|fuel']; [lia|]. cbn [jumps] in *. destruct (decide (unlab s.1 = Some over)); [done|].
    apply bind_Ok_inv in Hj as (s' & Hs & Hj). rewrite Hs. res_simpl. apply IH; [done | lia].
Qed.

(** ** Every state of Forth.v is the state of an engine *)

Lemma stack_exists l m base : mapped m base 0x2000 -> (length l <= STACK_CELLS)%nat -> Forall cell l ->
  exists m', stack_at m' base l /\ stores m m' base (base + 8 * Z.of_nat (length l)).
Proof.
  intros Hm Hl Hc. induction Hc as [|v l Hv Hc IH]; cbn [length] in *.
  - exists m. split; [done | apply stores_refl].
  - destruct IH as (m1 & Hs & Hst); [lia|]. destruct (store64_ok m1 (base + 8 * Z.of_nat (length l)) v) as (m2 & _ & Hl2 & Hst2).
    { eapply stores_mapped; [exact Hst|]. eapply mapped_sub; [exact Hm | lia|]. unfold STACK_CELLS in *. lia. }
    exists m2. split.
    + cbn [stack_at]. split; [by rewrite Hl2, cell_u64|]. eapply stack_at_frame; [apply Hst2 | left; lia | exact Hs].
    + eapply stores_trans; [eapply stores_mono; [exact Hst | lia | lia] | eapply stores_mono; [exact Hst2 | lia | lia]].
Qed.

(** An area of [n] bytes. *)
Lemma area_exists p q n : p + Z.of_nat n <= q \/ q + Z.of_nat n <= p -> exists m : mem, mapped m p (Z.of_nat n) /\ mapped m q (Z.of_nat n) /\
  forall a, is_Some (m !! a) -> p <= a < p + Z.of_nat n \/ q <= a < q + Z.of_nat n.
Proof.
  intros Hpq. exists (write_bytes (write_bytes ∅ p (replicate n 0)) q (replicate n 0)). split; [|split].
  - apply mapped_write_bytes. rewrite <- (length_replicate n 0) at 2. apply bytes_at_mapped, write_bytes_at.
  - rewrite <- (length_replicate n 0) at 2. rewrite length_replicate. rewrite <- (length_replicate n 0) at 3. apply bytes_at_mapped, write_bytes_at.
  - intros a [b Hb]. destruct (decide (q <= a < q + Z.of_nat n)) as [|Hq]; [by right|]. rewrite write_bytes_outside in Hb by (rewrite length_replicate; lia).
    destruct (decide (p <= a < p + Z.of_nat n)) as [|Hp]; [by left|]. rewrite write_bytes_outside in Hb by (rewrite length_replicate; lia). done.
Qed.

Lemma simulated a : (length (ds a) <= STACK_CELLS)%nat -> (length (rs a) <= STACK_CELLS)%nat -> Forall cell (ds a) -> Forall cell (rs a) ->
  (forall p, the_data_stack <= p < the_data_stack + 0x2000 \/ the_return_stack <= p < the_return_stack + 0x2000 -> fm a !! p = None) ->
  exists c, simulates c a.
Proof.
  intros Hd Hr Hdc Hrc Hm. pose proof stacks_apart as Hap.
  destruct (area_exists the_data_stack the_return_stack (Z.to_nat 0x2000)) as (m0 & Hm1 & Hm2 & Hm3); [lia|]. rewrite Z2Nat.id in * by lia.
  destruct (stack_exists (ds a) m0 the_data_stack) as (m1 & Hs1 & Hst1); try done.
  destruct (stack_exists (rs a) m1 the_return_stack) as (m2 & Hs2 & Hst2); try done; [by eapply stores_mapped|].
  assert (Hst : dom m2 = dom m0) by (destruct Hst1 as [_ <-], Hst2 as [_ <-]; done).
  exists (Engine (fm a ∪ m2) (fip a) (fcfa a) (the_data_stack + 8 * Z.of_nat (length (ds a)) - 8) (the_return_stack + 8 * Z.of_nat (length (rs a)) - 8)), m2.
  split; try done.
  - apply map_disjoint_spec. intros p x y Hx Hy. assert (is_Some (m0 !! p)) as Hp by (eapply same_dom_is_Some; [exact Hst | eauto]).
    rewrite (Hm p (Hm3 p Hp)) in Hx. done.
  - eapply stack_at_frame; [apply Hst2 | | exact Hs1]. unfold STACK_CELLS in *. lia.
  - eapply stores_mapped; [exact Hst2|]. by eapply stores_mapped.
  - eapply stores_mapped; [exact Hst2|]. by eapply stores_mapped.
Qed.
End refines.

(** C4: The function engine does what the machine with list stacks does: when that machine gets
    from a state to the label over, the jumps of the engine from any state that represents it
    end there too, and the final state of the engine represents the final one, whatever the
    fuel beyond some number of jumps. *)
Theorem engine_refines `{Layout} y y' x :
  fsteps y y' -> unlab y'.1 = Some over -> at_same x y ->
  exists n, forall fuel, (n <= fuel)%nat -> exists c, jumps fuel x = Ok c /\ simulates c y'.2.
Proof.
  intros Hy Ho Hx. destruct (jumps_refine y y' Hy Ho x Hx) as (n & c & Hj & Hc). exists n. intros fuel Hf.
  exists c. split; [by eapply jumps_more | done].
Qed.

(** DUP and the end. *)
Definition dup_memory : mem := write_bytes ∅ 0x19008 (be_enc 8 0x19010 ++ be_enc 8 (label_at over))%list.

Lemma engine_refines_witness : exists x, at_same (H := image_layout) x (label_at DUP, Forth dup_memory 0x19000 0 [7] []) /\
  exists n, forall fuel, (n <= fuel)%nat -> exists c, jumps (H := image_layout) fuel x = Ok c /\
    simulates (H := image_layout) c (Forth dup_memory 0x19008 0x19010 [7; 7] []).
Proof.
  destruct (simulated (H := image_layout) (Forth dup_memory 0x19000 0 [7] [])) as [c Hc].
  { unfold STACK_CELLS. cbn [length ds]. lia. } { unfold STACK_CELLS. cbn [length rs]. lia. }
  { repeat constructor; vm_compute; congruence. } { constructor. }
  { intros p Hp. apply write_bytes_outside. cbn in Hp |- *. lia. }
  exists (label_at DUP, c). split; [by split|].
  apply (engine_refines (H := image_layout) (label_at DUP, Forth dup_memory 0x19000 0 [7] []) (label_at over, Forth dup_memory 0x19008 0x19010 [7; 7] [])
    (label_at DUP, c)); [|vm_compute; reflexivity | by split].
  apply fsteps_one. vm_compute. reflexivity.
Defined.
