(* ===== verification/StackWords.v ===== *)
(** * slof/engine.in: stack manipulation, comparison and plain arithmetic *)

From Stdlib Require Import ZArith Lia ZifyNat.
From stdpp Require Import base list gmap option numbers strings.
From S2P Require Import Prelude CMem Engine Forth Dict Words Image.

Local Open Scope list_scope.

Notation roomy n σ := (length σ + n <= STACK_CELLS)%nat.

Section stack.
Context `{Layout} {K : mem} {HK : kernel K}.

(** ** Stack manipulation *)

Lemma does_tuck a b σ ρ m : roomy 3 σ -> roomy 1 ρ -> does K "TUCK" (b :: a :: σ) ρ m (b :: a :: b :: σ) ρ m.
Proof. colon. fw. Qed.
Lemma does_2dup a b σ ρ m : roomy 4 σ -> roomy 1 ρ -> does K "2DUP" (b :: a :: σ) ρ m (b :: a :: b :: a :: σ) ρ m.
Proof. colon. fw. Qed.
Lemma does_2drop a b σ ρ m : roomy 1 ρ -> does K "2DROP" (b :: a :: σ) ρ m σ ρ m.
Proof. colon. fw. Qed.
Lemma does_3drop a b c σ ρ m : roomy 1 ρ -> does K "3DROP" (c :: b :: a :: σ) ρ m σ ρ m.
Proof. colon. fw. Qed.
Lemma does_nip a b σ ρ m : roomy 2 σ -> roomy 1 ρ -> does K "NIP" (b :: a :: σ) ρ m (b :: σ) ρ m.
Proof. colon. fw. Qed.
Lemma does_rot a b c σ ρ m : roomy 3 σ -> roomy 2 ρ -> does K "ROT" (c :: b :: a :: σ) ρ m (a :: c :: b :: σ) ρ m.
Proof. colon. fw. Qed.
Lemma does_minus_rot a b c σ ρ m : roomy 3 σ -> roomy 2 ρ -> does K "-ROT" (c :: b :: a :: σ) ρ m (b :: a :: c :: σ) ρ m.
Proof. colon. fw. Qed.
#[local] Hint Resolve does_rot does_minus_rot does_nip : forth.
Lemma does_2swap a b c d σ ρ m : roomy 4 σ -> roomy 4 ρ -> does K "2SWAP" (d :: c :: b :: a :: σ) ρ m (b :: a :: d :: c :: σ) ρ m.
Proof. colon. fw. Qed.
Lemma does_2_to_r a b σ ρ m : roomy 3 σ -> roomy 4 ρ -> does K "2>R" (b :: a :: σ) ρ m σ (b :: a :: ρ) m.
Proof. colon. fw. Qed.
Lemma does_qdup a σ ρ m : roomy 2 σ -> roomy 1 ρ -> does K "?DUP" (a :: σ) ρ m (if a =? 0 then a :: σ else a :: a :: σ) ρ m.
Proof. colon. fw. destruct (a =? 0); fw. Qed.
Lemma does_i i σ ρ m : roomy 2 σ -> roomy 2 ρ -> does K "I" σ (i :: ρ) m (i :: σ) (i :: ρ) m.
Proof. colon. fw. Qed.

(** ** Comparison *)

Lemma does_greater a b σ ρ m : roomy 2 σ -> roomy 1 ρ -> does K ">" (b :: a :: σ) ρ m (truth (s64 b <? s64 a) :: σ) ρ m.
Proof. colon. fw. Qed.
Lemma does_u_greater a b σ ρ m : roomy 2 σ -> roomy 1 ρ -> does K "U>" (b :: a :: σ) ρ m (truth (b <? a) :: σ) ρ m.
Proof. colon. fw. Qed.
#[local] Hint Resolve does_greater does_u_greater : forth.
Lemma does_le a b σ ρ m : roomy 2 σ -> roomy 2 ρ -> does K "<=" (b :: a :: σ) ρ m (truth (s64 a <=? s64 b) :: σ) ρ m.
Proof. colon. fw. by rewrite truth_eqb, Z.ltb_antisym, negb_involutive. Qed.
Lemma does_ge a b σ ρ m : roomy 2 σ -> roomy 2 ρ -> does K ">=" (b :: a :: σ) ρ m (truth (s64 b <=? s64 a) :: σ) ρ m.
Proof. colon. fw. by rewrite truth_eqb, Z.ltb_antisym, negb_involutive. Qed.
Lemma does_ne a b σ ρ m : roomy 2 σ -> roomy 2 ρ -> does K "<>" (b :: a :: σ) ρ m (truth (negb (a =? b)) :: σ) ρ m.
Proof. colon. fw. by rewrite truth_eqb. Qed.
Lemma does_u_ge a b σ ρ m : roomy 2 σ -> roomy 2 ρ -> does K "U>=" (b :: a :: σ) ρ m (truth (b <=? a) :: σ) ρ m.
Proof. colon. fw. by rewrite truth_eqb, Z.ltb_antisym, negb_involutive. Qed.
#[local] Hint Resolve does_ne does_le does_ge : forth.
Lemma does_zero_ne a σ ρ m : roomy 2 σ -> roomy 3 ρ -> does K "0<>" (a :: σ) ρ m (truth (negb (a =? 0)) :: σ) ρ m.
Proof. colon. fw. Qed.

#[local] Hint Resolve does_2drop : forth.
(** Between signed bounds, the upper one left out. *)
Lemma does_within x lo hi σ ρ m : roomy 5 σ -> roomy 3 ρ ->
  does K "WITHIN" (hi :: lo :: x :: σ) ρ m (truth ((s64 lo <=? s64 x) && (s64 x <? s64 hi)) :: σ) ρ m.
Proof.
  colon. fw. rewrite truth_eqb, Z.leb_antisym, negb_involutive. destruct (s64 x <? s64 hi); fw; rewrite ?andb_true_r, ?andb_false_r; [|done].
  rewrite truth_eqb, Z.leb_antisym. destruct (s64 x <? s64 lo); fw.
Qed.
#[local] Hint Resolve does_within : forth.
Lemma does_between x lo hi σ ρ m : roomy 5 σ -> roomy 4 ρ ->
  does K "BETWEEN" (hi :: lo :: x :: σ) ρ m (truth ((s64 lo <=? s64 x) && (s64 x <? s64 (u64 (hi + 1)))) :: σ) ρ m.
Proof. colon. fw. Qed.

(** ** Single-cell arithmetic *)

Lemma does_negate a σ ρ m : roomy 2 σ -> roomy 1 ρ -> does K "NEGATE" (a :: σ) ρ m (u64 (- a) :: σ) ρ m.
Proof. colon. fw. Qed.
#[local] Hint Resolve does_negate : forth.
Lemma does_abs a σ ρ m : roomy 2 σ -> roomy 2 ρ -> cell a -> does K "ABS" (a :: σ) ρ m (Z.abs (s64 a) :: σ) ρ m.
Proof.
  colon. fw. rewrite truth_eqb. destruct (s64_of a H2) as [[? Es] | [? Es]]; rewrite Es; unfold cell in *.
  - destruct (Z.ltb_spec a 0); [lia|]. fw.
  - destruct (Z.ltb_spec (a - 2 ^ 64) 0); [|lia]. fw. rewrite u64_neg by lia. repeat f_equal. lia.
Qed.
Lemma does_invert a σ ρ m : roomy 2 σ -> roomy 1 ρ -> does K "INVERT" (a :: σ) ρ m (u64 (- a - 1) :: σ) ρ m.
Proof.
  colon. fw. rewrite !u64_land. apply Z.bits_inj'. intros k Hk.
  replace (- a - 1) with (Z.lnot a) by (unfold Z.lnot; lia). rewrite !Z.land_spec, Z.lxor_spec, Z.lnot_spec by lia.
  change 18446744073709551615 with (2 ^ 64 - 1). by destruct (Z.testbit a k), (Z.testbit (2 ^ 64 - 1) k).
Qed.
Lemma does_one_plus a σ ρ m : roomy 2 σ -> roomy 1 ρ -> does K "1+" (a :: σ) ρ m (u64 (a + 1) :: σ) ρ m.
Proof. colon. fw. Qed.
Lemma does_one_minus a σ ρ m : roomy 2 σ -> roomy 1 ρ -> does K "1-" (a :: σ) ρ m (u64 (a - 1) :: σ) ρ m.
Proof. colon. fw. Qed.
Lemma does_bounds a n σ ρ m : roomy 3 σ -> roomy 1 ρ -> does K "BOUNDS" (n :: a :: σ) ρ m (a :: u64 (a + n) :: σ) ρ m.
Proof. colon. fw. Qed.
Lemma does_na1_plus a σ ρ m : roomy 2 σ -> roomy 1 ρ -> does K "NA1+" (a :: σ) ρ m (u64 (a + 8) :: σ) ρ m.
Proof. colon. fw. Qed.
Lemma does_ca1_plus a σ ρ m : roomy 2 σ -> roomy 1 ρ -> does K "CA1+" (a :: σ) ρ m (u64 (a + 1) :: σ) ρ m.
Proof. colon. fw. Qed.
#[local] Hint Resolve does_na1_plus does_ca1_plus does_one_plus : forth.
Lemma does_cell_plus a σ ρ m : roomy 2 σ -> roomy 2 ρ -> does K "CELL+" (a :: σ) ρ m (u64 (a + 8) :: σ) ρ m.
Proof. colon. fw. Qed.
Lemma does_char_plus a σ ρ m : roomy 2 σ -> roomy 2 ρ -> does K "CHAR+" (a :: σ) ρ m (u64 (a + 1) :: σ) ρ m.
Proof. colon. fw. Qed.
(** EVEN clears no bit. *)
Lemma does_even a σ ρ m : roomy 2 σ -> roomy 2 ρ -> does K "EVEN" (a :: σ) ρ m (u64 (a + 1) :: σ) ρ m.
Proof. colon. fw. rewrite <- u64_land, !u64_idem. done. Qed.

(** ** Moving a cell up and down the stack *)

Lemma eqb_of_nat_S n : (Z.of_nat (S n) =? 0) = false.
Proof. apply Z.eqb_neq. lia. Qed.

Lemma u64_pred_nat n : (n < STACK_CELLS)%nat -> u64 (Z.of_nat (S n) - 1) = Z.of_nat n.
Proof. unfold STACK_CELLS. intros. rewrite u64_small; lia. Qed.

Lemma eqb_of_nat_O : (Z.of_nat 0 =? 0) = true.
Proof. reflexivity. Qed.

#[local] Ltac count := rewrite ?eqb_of_nat_S, ?eqb_of_nat_O.
#[local] Ltac fw_qdup := fw_with ltac:(apply does_qdup; room); count; fw1; count; fw.

Lemma roll_down u l x σ ρ m : roomy 5 (l ++ σ) -> roomy 4 (l ++ ρ) ->
  runs K (pos "ROLL" 2, Z.of_nat (length l) :: u :: l ++ x :: σ, ρ, m) (pos "ROLL" 11, u :: x :: σ, reverse l ++ ρ, m).
Proof.
  revert ρ. induction l as [|y l IH]; intros ρ; rewrite ?length_app; cbn [length app]; intros Hσ Hρ.
  - fw_qdup. apply runs_refl.
  - fw_qdup. rewrite u64_pred_nat by lia. rewrite reverse_cons, <- app_assoc. apply IH; room.
Qed.

Lemma roll_up i l x σ ρ m : fetchable K (i + 8) -> roomy 5 (l ++ σ) -> roomy 4 (l ++ ρ) ->
  runs K (pos "ROLL" 11, Z.of_nat (length l) :: x :: σ, l ++ i :: ρ, m) (i + 8, x :: reverse l ++ σ, ρ, m).
Proof.
  intros Hf. revert σ. induction l as [|y l IH]; intros σ; rewrite ?length_app; cbn [length app]; intros Hσ Hρ.
  - fw_qdup.
  - fw_qdup. rewrite u64_pred_nat by lia. rewrite reverse_cons, <- app_assoc. apply IH; room.
Qed.

Lemma minus_roll_down u l x σ ρ m : roomy 5 (l ++ σ) -> roomy 4 (l ++ ρ) ->
  runs K (pos "-ROLL" 2, Z.of_nat (length l) :: u :: x :: l ++ σ, ρ, m) (pos "-ROLL" 14, u :: x :: σ, reverse l ++ ρ, m).
Proof.
  revert ρ. induction l as [|y l IH]; intros ρ; rewrite ?length_app; cbn [length app]; intros Hσ Hρ.
  - fw_qdup. apply runs_refl.
  - fw_qdup. rewrite u64_pred_nat by lia. rewrite reverse_cons, <- app_assoc. apply IH; room.
Qed.

Lemma minus_roll_up i l σ ρ m : fetchable K (i + 8) -> roomy 5 (l ++ σ) -> roomy 4 (l ++ ρ) ->
  runs K (pos "-ROLL" 14, Z.of_nat (length l) :: σ, l ++ i :: ρ, m) (i + 8, reverse l ++ σ, ρ, m).
Proof.
  intros Hf. revert σ. induction l as [|y l IH]; intros σ; rewrite ?length_app; cbn [length app]; intros Hσ Hρ.
  - fw_qdup.
  - fw_qdup. rewrite u64_pred_nat by lia. rewrite reverse_cons, <- app_assoc. apply IH; room.
Qed.

Lemma does_roll l x σ ρ m : roomy 6 (l ++ σ) -> roomy 5 (l ++ ρ) ->
  does K "ROLL" (Z.of_nat (length l) :: l ++ x :: σ) ρ m (x :: l ++ σ) ρ m.
Proof.
  rewrite !length_app. colon. fw. eapply runs_trans; [apply roll_down; room|]. rewrite <- (length_reverse l).
  eapply runs_trans; [apply roll_up; [done | room | room]|]. rewrite reverse_involutive. apply runs_refl.
Qed.

Lemma does_minus_roll l x σ ρ m : roomy 6 (l ++ σ) -> roomy 5 (l ++ ρ) ->
  does K "-ROLL" (Z.of_nat (length l) :: x :: l ++ σ) ρ m (l ++ x :: σ) ρ m.
Proof.
  rewrite !length_app. colon. fw. eapply runs_trans; [apply minus_roll_down; room|]. rewrite <- (length_reverse l).
  eapply runs_trans; [apply minus_roll_up; [done | room | room]|]. rewrite reverse_involutive. apply runs_refl.
Qed.
End stack.

#[export] Hint Resolve does_tuck does_2dup does_2drop does_3drop does_nip does_rot does_minus_rot does_2swap does_2_to_r does_i
  does_greater does_u_greater does_le does_ge does_ne does_u_ge does_zero_ne does_within does_between
  does_negate does_abs does_invert does_one_plus does_one_minus does_bounds does_na1_plus does_ca1_plus does_cell_plus does_char_plus : forth.

(** A word that makes [results] of [args], the top of the stack first, and leaves all else alone; [p] and [q] are the cells of
    both stacks it needs. *)
Definition computes `{Layout} (K : mem) (name : string) (p q : nat) (args results : list Z) : Prop :=
  forall σ ρ m, roomy p σ -> roomy q ρ -> does K name (args ++ σ) ρ m (results ++ σ) ρ m.

(** ROLL takes the cell below [l] to the top, -ROLL takes the top below [l]; both leave
    everything else, also the return stack, as it was.  So each undoes the other. *)
Theorem roll_correct `{Layout} (K : mem) `{!kernel K} l x :
  computes K "ROLL" (6 + length l) (5 + length l) (Z.of_nat (length l) :: l ++ [x]) (x :: l) /\
  computes K "-ROLL" (6 + length l) (5 + length l) (Z.of_nat (length l) :: x :: l) (l ++ [x]).
Proof.
  split; intros σ ρ m Hσ Hρ; cbn [app]; rewrite <- app_assoc; cbn [app]; [apply does_roll | apply does_minus_roll]; rewrite length_app; lia.
Qed.

Lemma roll_correct_witness :
  computes (H := image_layout) image "ROLL" 8 7 [2; 10; 20; 30] [30; 10; 20] /\
  computes (H := image_layout) image "-ROLL" 8 7 [2; 30; 10; 20] [10; 20; 30].
Proof. exact (roll_correct (H := image_layout) image [10; 20] 30). Defined.
