(* ===== verification/Doubles.v ===== *)
(** * Arithmetic of double-cell numbers

    A double number [d] is kept modulo 2^128 in two cells, the upper one ([hi64])
    on top of the lower one ([lo64]). *)

From Stdlib Require Import ZArith Lia ZifyNat.
From stdpp Require Import base list gmap option numbers strings.
From S2P Require Import Prelude CMem Engine Forth Dict Words.

Local Open Scope list_scope.

Definition lo64 (d : Z) : Z := u64 d.
Definition hi64 (d : Z) : Z := u64 (d / 2 ^ 64).

Lemma cell_lo64 d : cell (lo64 d).
Proof. apply u64_range. Qed.

Lemma cell_hi64 d : cell (hi64 d).
Proof. apply u64_range. Qed.

(** Cells from doubles and back. *)
Lemma hi_lo hi lo : cell hi -> cell lo -> hi64 (hi * 2 ^ 64 + lo) = hi /\ lo64 (hi * 2 ^ 64 + lo) = lo.
Proof.
  unfold cell, hi64, lo64, u64. intros Hh Hl. rewrite Z.div_add_l, (Z.div_small lo), Z.add_0_r by lia. split.
  - by apply Z.mod_small.
  - rewrite Z.add_comm, Z.mod_add by lia. by apply Z.mod_small.
Qed.

Lemma hi64_lo64 d : hi64 d * 2 ^ 64 + lo64 d = d mod 2 ^ 128.
Proof.
  unfold hi64, lo64, u64. change (2 ^ 128) with (2 ^ 64 * 2 ^ 64).
  rewrite Z.rem_mul_r by lia. lia.
Qed.

(** A double and its cells. *)
Lemma double_split d : exists q, d = hi64 d * 2 ^ 64 + lo64 d + q * 2 ^ 128 /\ cell (hi64 d) /\ cell (lo64 d).
Proof.
  exists (d / 2 ^ 128). rewrite hi64_lo64. split; [|split; [apply cell_hi64 | apply cell_lo64]].
  pose proof (Z.div_mod d (2 ^ 128)). lia.
Qed.

(** What the cells of [d] are, by a computation modulo 2^128. *)
Lemma double_cells d hi lo k : cell lo -> hi * 2 ^ 64 + lo = d + k * 2 ^ 128 -> u64 hi = hi64 d /\ lo = lo64 d.
Proof.
  unfold cell, hi64, lo64, u64. intros Hl E.
  replace d with (lo + (hi - k * 2 ^ 64) * 2 ^ 64) by (change (2 ^ 128) with (2 ^ 64 * 2 ^ 64) in E; lia).
  rewrite Z.div_add, Z.mod_add, (Z.div_small lo), (Z.mod_small lo) by lia. split; [|done].
  rewrite <- (Z.mod_add hi (- k)) by lia. f_equal. lia.
Qed.

(** The sign of a double. *)
Lemma hi64_sign d : 0 <= d < 2 ^ 128 -> (s64 (hi64 d) <? 0) = (2 ^ 127 <=? d).
Proof.
  intros Hd. destruct (double_split d) as (q & E & Hh & Hl). destruct (s64_of _ Hh) as [[? Es] | [? Es]]; rewrite Es; unfold cell in *.
  - destruct (Z.ltb_spec (hi64 d) 0), (Z.leb_spec (2 ^ 127) d); lia.
  - destruct (Z.ltb_spec (hi64 d - 2 ^ 64) 0), (Z.leb_spec (2 ^ 127) d); lia.
Qed.

(** ** Multiplication by shifting and adding *)

Definition mul_step (n d : Z) : Z := 2 * d + (if s64 (hi64 d) <? 0 then n else 0).

(** The lowest bit of [a / 2 ^ j]. *)
Lemma bit_split a j : 0 <= j -> exists b, 0 <= b <= 1 /\ a / 2 ^ j = 2 * (a / 2 ^ (j + 1)) + b /\ a mod 2 ^ (j + 1) = b * 2 ^ j + a mod 2 ^ j.
Proof.
  intros Hj. exists ((a / 2 ^ j) mod 2). pose proof (Z.mod_pos_bound (a / 2 ^ j) 2). split; [lia|].
  rewrite Z.pow_add_r by lia. change (2 ^ 1) with 2. pose proof (Z.pow_pos_nonneg 2 j). split.
  - rewrite <- Z.div_div by lia. apply Z.div_mod. lia.
  - rewrite Z.rem_mul_r by lia. lia.
Qed.

Lemma hi64_mod d : hi64 (d mod 2 ^ 128) = hi64 d.
Proof. rewrite <- hi64_lo64. apply hi_lo; [apply cell_hi64 | apply cell_lo64]. Qed.

Lemma mul_step_arith b X Y n Q :
  0 <= b <= 1 -> 0 <= X <= 2 ^ 127 - Q -> 0 <= Y < Q -> 0 <= 2 * Y + b * n < 2 * Q ->
  (2 * (b * 2 ^ 127 + X + Y) + (if 2 ^ 127 <=? b * 2 ^ 127 + X + Y then n else 0)) mod 2 ^ 128 = 2 * X + 2 * Y + b * n.
Proof.
  intros Hb HX HY HN. assert (b = 0 \/ b = 1) as [-> | ->] by lia.
  - destruct (Z.leb_spec (2 ^ 127) (0 * 2 ^ 127 + X + Y)); [lia|]. rewrite Z.mod_small; lia.
  - destruct (Z.leb_spec (2 ^ 127) (1 * 2 ^ 127 + X + Y)); [|lia]. symmetry. apply (Z.mod_unique_pos _ _ 1); lia.
Qed.

Lemma mul_steps a n k : cell a -> cell n -> (k <= 64)%nat ->
  Nat.iter k (mul_step n) (a * 2 ^ 64) mod 2 ^ 128 =
    (a mod 2 ^ (64 - Z.of_nat k)) * 2 ^ (64 + Z.of_nat k) + (a / 2 ^ (64 - Z.of_nat k)) * n.
Proof.
  intros Ha Hn. induction k as [|k IH]; intros Hk; unfold cell in *.
  - change (Nat.iter 0 _ ?x) with x. change (64 - Z.of_nat 0) with 64. change (64 + Z.of_nat 0) with 64.
    rewrite (Z.mod_small a), (Z.div_small a), (Z.mod_small (a * 2 ^ 64)) by lia. lia.
  - specialize (IH ltac:(lia)). rewrite Nat.iter_succ. set (d := Nat.iter k (mul_step n) (a * 2 ^ 64)) in *.
    set (j := 64 - Z.of_nat (S k)). replace (64 - Z.of_nat k) with (j + 1) in IH by lia.
    destruct (bit_split a j) as (b & Hb & Eq & Er); [lia|]. rewrite Er in IH. rewrite Eq.
    set (A := a / 2 ^ (j + 1)) in *. set (r := a mod 2 ^ j) in *. set (P := 2 ^ j) in *.
    replace (64 + Z.of_nat (S k)) with (64 + Z.of_nat k + 1) by lia. rewrite (Z.pow_add_r 2 (64 + Z.of_nat k) 1) by lia.
    set (Q := 2 ^ (64 + Z.of_nat k)) in *. change (2 ^ 1) with 2.
    assert (EPQ : P * Q = 2 ^ 127) by (unfold P, Q; rewrite <- Z.pow_add_r by lia; f_equal; lia).
    assert (HP : 0 < P) by (apply Z.pow_pos_nonneg; lia). assert (HQ : 0 < Q) by (apply Z.pow_pos_nonneg; lia).
    assert (Hr : 0 <= r < P) by (apply Z.mod_pos_bound; lia).
    assert (HA : 0 <= A /\ (A + 1) * 2 ^ 64 <= Q).
    { unfold Q. rewrite Z.pow_add_r by lia. rewrite Z.mul_comm. split; [apply Z.div_pos; lia|]. apply Z.mul_le_mono_nonneg_l; [lia|].
      apply Z.le_succ_l. apply Z.div_lt_upper_bound; [lia|]. rewrite <- Z.pow_add_r by lia. replace (j + 1 + Z.of_nat k) with 64 by lia. lia. }
    unfold mul_step. rewrite <- (hi64_mod d), hi64_sign by (apply Z.mod_pos_bound; lia).
    rewrite <- Zplus_mod_idemp_l, <- Zmult_mod_idemp_r, Zplus_mod_idemp_l, IH.
    replace (r * (Q * 2) + (2 * A + b) * n) with (2 * (r * Q) + 2 * (A * n) + b * n) by ring.
    replace ((b * P + r) * Q + A * n) with (b * 2 ^ 127 + r * Q + A * n) by (rewrite <- EPQ; ring).
    assert (HAn : 0 <= A * n <= A * 2 ^ 64) by (split; [apply Z.mul_nonneg_nonneg | apply Z.mul_le_mono_nonneg_l]; lia).
    assert (HrQ : 0 <= r * Q <= (P - 1) * Q) by (split; [apply Z.mul_nonneg_nonneg | apply Z.mul_le_mono_nonneg_r]; lia).
    assert (Hbn : 0 <= b * n <= 1 * n) by (split; [apply Z.mul_nonneg_nonneg | apply Z.mul_le_mono_nonneg_r]; lia).
    rewrite Z.mul_sub_distr_r, EPQ in HrQ. apply (mul_step_arith b _ _ n Q); lia.
Qed.

(** A number is added with its carry. *)
Lemma m_plus_carry d n : cell n ->
  u64 (hi64 d - truth (u64 (lo64 d + n) <? n)) = hi64 (d + n) /\ u64 (lo64 d + n) = lo64 (d + n).
Proof.
  intros Hn. destruct (double_split d) as (q & E & Hh & Hl). unfold cell in *.
  destruct (Z.lt_ge_cases (lo64 d + n) (2 ^ 64)).
  - rewrite (u64_small (lo64 d + n)) by lia. destruct (Z.ltb_spec (lo64 d + n) n); [lia|]. cbn [truth].
    apply (double_cells _ _ _ (- q)); unfold cell; lia.
  - rewrite (u64_over (lo64 d + n)) by lia. destruct (Z.ltb_spec (lo64 d + n - 2 ^ 64) n); [|lia]. unfold truth.
    apply (double_cells _ _ _ (- q - 1)); unfold cell; lia.
Qed.

(** A double is doubled. *)
Lemma d_2times_carry d :
  u64 (u64 (Z.shiftl (hi64 d) 1) - truth (s64 (lo64 d) <? 0)) = hi64 (2 * d) /\ u64 (Z.shiftl (lo64 d) 1) = lo64 (2 * d).
Proof.
  destruct (double_split d) as (q & E & Hh & Hl). rewrite !Z.shiftl_mul_pow2 by lia. change (2 ^ 1) with 2.
  assert (Eh : forall b, u64 (u64 (hi64 d * 2) - b) = u64 (hi64 d * 2 - b)) by (intros; apply Zminus_mod_idemp_l). rewrite Eh. clear Eh.
  destruct (s64_of _ Hl) as [[? Es] | [? Es]]; rewrite Es; unfold cell in *.
  - destruct (Z.ltb_spec (lo64 d) 0); [lia|]. cbn [truth]. rewrite (u64_small (lo64 d * 2)) by lia.
    apply (double_cells _ _ _ (- 2 * q)); unfold cell; lia.
  - destruct (Z.ltb_spec (lo64 d - 2 ^ 64) 0); [|lia]. unfold truth. rewrite (u64_over (lo64 d * 2)) by lia.
    apply (double_cells _ _ _ (- 2 * q - 1)); unfold cell; lia.
Qed.

Lemma double_mod d d' : d mod 2 ^ 128 = d' -> hi64 d = hi64 d' /\ lo64 d = lo64 d'.
Proof. intros <-. rewrite <- hi64_lo64. destruct (hi_lo _ _ (cell_hi64 d) (cell_lo64 d)) as [E1 E2]. by rewrite E1, E2. Qed.


(** ** Signs *)

Lemma s64_double a : cell a -> truth (s64 a <? 0) = hi64 (s64 a) /\ a = lo64 (s64 a).
Proof.
  intros Ha. assert (E : forall b, truth b = u64 (truth b)) by (by intros []). rewrite E.
  destruct (s64_of a Ha) as [[? Es] | [? Es]]; rewrite Es; unfold cell in *.
  - destruct (Z.ltb_spec a 0); [lia|]. apply (double_cells _ _ _ 0); unfold cell, truth; lia.
  - destruct (Z.ltb_spec (a - 2 ^ 64) 0); [|lia]. apply (double_cells _ _ _ 1); unfold cell, truth; lia.
Qed.

Lemma dnegate_carry d : u64 (u64 (- hi64 d - 1) - truth (u64 (- lo64 d) =? 0)) = hi64 (- d) /\ u64 (- lo64 d) = lo64 (- d).
Proof.
  destruct (double_split d) as (q & E & Hh & Hl).
  assert (Eh : forall b, u64 (u64 (- hi64 d - 1) - b) = u64 (- hi64 d - 1 - b)) by (intros; apply Zminus_mod_idemp_l). rewrite Eh. clear Eh.
  unfold cell in *. destruct (Z.eq_dec (lo64 d) 0) as [El | El].
  - rewrite El in *. change (u64 (-0)) with 0. change (truth (0 =? 0)) with (2 ^ 64 - 1). apply (double_cells _ _ _ (q - 1)); unfold cell; lia.
  - rewrite (u64_neg (- lo64 d)) by lia. destruct (Z.eqb_spec (- lo64 d + 2 ^ 64) 0); [lia|]. unfold truth.
    apply (double_cells _ _ _ q); unfold cell; lia.
Qed.

(** The sign of a double in the signed range. *)
Lemma hi64_signed d : - 2 ^ 127 <= d < 2 ^ 127 -> (s64 (hi64 d) <? 0) = (d <? 0).
Proof.
  intros Hd. rewrite <- hi64_mod, hi64_sign by (apply Z.mod_pos_bound; lia).
  destruct (Z.ltb_spec d 0).
  - rewrite <- (Z.mod_add _ 1), Z.mod_small by lia. apply Z.leb_le. lia.
  - rewrite Z.mod_small by lia. apply Z.leb_gt. lia.
Qed.

Lemma cell_sign a : cell a -> (s64 a <? 0) = Z.testbit a 63.
Proof.
  intros Ha. rewrite Z.testbit_odd, Z.shiftr_div_pow2 by lia. unfold cell in *.
  destruct (s64_of a Ha) as [[? ->] | [? ->]].
  - rewrite Z.div_small by lia. apply Z.ltb_ge. lia.
  - assert (a / 2 ^ 63 = 1) as ->; [|apply Z.ltb_lt; lia]. symmetry. apply (Z.div_unique _ _ _ (a - 2 ^ 63)); lia.
Qed.

Lemma xor_sign a b : cell a -> cell b -> (s64 (u64 (Z.lxor a b)) <? 0) = xorb (s64 a <? 0) (s64 b <? 0).
Proof.
  intros Ha Hb. rewrite !cell_sign by (done || apply u64_is_cell). rewrite u64_land, Z.land_spec, Z.lxor_spec.
  change (Z.testbit (2 ^ 64 - 1) 63) with true. apply andb_true_r.
Qed.

Lemma truth_or a b : u64 (Z.lor (truth a) (truth b)) = truth (a || b).
Proof. by destruct a, b. Qed.

Lemma truth_and a b : u64 (Z.land (truth a) (truth b)) = truth (a && b).
Proof. by destruct a, b. Qed.

(** ** Division by shifting and subtracting *)

Definition div_step (n d : Z) : Z :=
  2 * d + (if (s64 (hi64 d) <? 0) || (n <=? hi64 (2 * d)) then 1 - n * 2 ^ 64 else 0).

Lemma lor_1_even x : Z.lor (2 * x) 1 = 2 * x + 1.
Proof.
  rewrite <- Z.lxor_lor, Z.add_nocarry_lxor; [done | |]; change 1 with (Z.ones 1); rewrite Z.land_ones by lia;
    change (2 ^ 1) with 2; rewrite Z.mul_comm; apply Z.mod_mul; lia.
Qed.

Lemma div_step_cells d n : u64 (hi64 (2 * d) - n) = hi64 (2 * d + (1 - n * 2 ^ 64)) /\
  u64 (Z.lor (lo64 (2 * d)) 1) = lo64 (2 * d + (1 - n * 2 ^ 64)).
Proof.
  destruct (double_split (2 * d)) as (q & E & Hh & Hl). assert (exists x, lo64 (2 * d) = 2 * x) as [x Ex].
  { exists (d - 2 ^ 63 * hi64 (2 * d) - q * 2 ^ 127). lia. }
  rewrite Ex, lor_1_even, <- Ex. unfold cell in *. rewrite (u64_small (lo64 (2 * d) + 1)) by lia.
  apply (double_cells _ _ _ (- q)); unfold cell; lia.
Qed.

(** The carry of a step and the comparison decide whether the divisor is subtracted. *)
Lemma div_step_arith h b R n : 0 <= h < n -> n < 2 ^ 64 -> 0 <= b <= 1 -> 0 <= R < 2 ^ 63 ->
  let V := h * 2 ^ 64 + b * 2 ^ 63 + R in
  div_step n V mod 2 ^ 128 = (if n <=? 2 * h + b then (2 * h + b - n) * 2 ^ 64 + 2 * R + 1 else (2 * h + b) * 2 ^ 64 + 2 * R).
Proof.
  intros Hh Hn Hb HR V. unfold div_step. rewrite hi64_sign by (unfold V; lia).
  assert (E2 : hi64 (2 * V) = u64 (2 * h + b)).
  { symmetry. apply (double_cells _ _ (2 * R) 0); unfold cell, V; lia. }
  rewrite E2. destruct (Z.leb_spec (2 ^ 127) V) as [Hc | Hc]; cbn [orb].
  - destruct (Z.leb_spec n (2 * h + b)); [|unfold V in *; lia]. rewrite Z.mod_small; unfold V in *; lia.
  - rewrite u64_small by (unfold V in *; lia). destruct (Z.leb_spec n (2 * h + b)); rewrite Z.mod_small; unfold V in *; lia.
Qed.

Lemma div_step_mod n d : div_step n (d mod 2 ^ 128) mod 2 ^ 128 = div_step n d mod 2 ^ 128.
Proof.
  unfold div_step. rewrite hi64_mod. assert (hi64 (2 * (d mod 2 ^ 128)) = hi64 (2 * d)) as ->.
  { rewrite <- hi64_mod, Zmult_mod_idemp_r, hi64_mod. done. }
  by rewrite <- Zplus_mod_idemp_l, Zmult_mod_idemp_r, Zplus_mod_idemp_l.
Qed.

Lemma div_steps D n k : cell n -> 0 <= D < n * 2 ^ 64 -> (k <= 64)%nat ->
  Nat.iter k (div_step n) D mod 2 ^ 128 =
    ((D / 2 ^ (64 - Z.of_nat k)) mod n) * 2 ^ 64 + (D mod 2 ^ (64 - Z.of_nat k)) * 2 ^ Z.of_nat k + (D / 2 ^ (64 - Z.of_nat k)) / n.
Proof.
  intros Hn HD. unfold cell in *. assert (H0 : 0 < n) by nia. induction k as [|k IH]; intros Hk.
  - change (Nat.iter 0 _ ?x) with x. change (64 - Z.of_nat 0) with 64. change (2 ^ Z.of_nat 0) with 1.
    assert (D / 2 ^ 64 < n) by (apply Z.div_lt_upper_bound; lia). assert (0 <= D / 2 ^ 64) by (apply Z.div_pos; lia).
    rewrite (Z.mod_small (D / 2 ^ 64)), (Z.div_small (D / 2 ^ 64)), Z.mod_small by lia.
    pose proof (Z.div_mod D (2 ^ 64)). lia.
  - specialize (IH ltac:(lia)). rewrite Nat.iter_succ. rewrite <- div_step_mod, IH. clear IH.
    set (j := 64 - Z.of_nat (S k)). replace (64 - Z.of_nat k) with (j + 1) by lia.
    destruct (bit_split D j) as (b & Hb & Eq & Er); [lia|]. rewrite Er, Eq.
    set (X := D / 2 ^ (j + 1)) in *. set (r := D mod 2 ^ j) in *.
    replace (Z.of_nat (S k)) with (Z.of_nat k + 1) by lia. rewrite (Z.pow_add_r 2 (Z.of_nat k) 1) by lia. change (2 ^ 1) with 2.
    set (Q := 2 ^ Z.of_nat k) in *. set (P := 2 ^ j) in *.
    assert (EPQ : P * Q = 2 ^ 63) by (unfold P, Q; rewrite <- Z.pow_add_r by lia; f_equal; lia).
    assert (HQ : 0 < Q) by (apply Z.pow_pos_nonneg; lia). assert (HP : 0 < P) by (apply Z.pow_pos_nonneg; lia).
    assert (Hr : 0 <= r < P) by (apply Z.mod_pos_bound; lia).
    assert (Hq : 0 <= X / n < Q).
    { split; [apply Z.div_pos; [apply Z.div_pos|]; lia|]. apply Z.div_lt_upper_bound; [lia|]. apply Z.div_lt_upper_bound; [lia|].
      rewrite (Z.mul_comm n), Z.mul_assoc. unfold Q. rewrite <- Z.pow_add_r by lia. replace (j + 1 + Z.of_nat k) with 64 by lia. lia. }
    assert (HrQ : 0 <= r * Q <= (P - 1) * Q) by (split; [apply Z.mul_nonneg_nonneg | apply Z.mul_le_mono_nonneg_r]; lia).
    rewrite Z.mul_sub_distr_r, EPQ in HrQ. pose proof (Z.mod_pos_bound X n H0) as Hh.
    replace ((b * P + r) * Q) with (b * (P * Q) + r * Q) by ring. rewrite EPQ.
    replace (X mod n * 2 ^ 64 + (b * 2 ^ 63 + r * Q) + X / n) with (X mod n * 2 ^ 64 + b * 2 ^ 63 + (r * Q + X / n)) by ring.
    rewrite div_step_arith by lia. pose proof (Z.div_mod X n) as EX.
    destruct (Z.leb_spec n (2 * (X mod n) + b)).
    + rewrite <- (Z.div_unique (2 * X + b) n (2 * (X / n) + 1) (2 * (X mod n) + b - n)), <- (Z.mod_unique (2 * X + b) n (2 * (X / n) + 1) (2 * (X mod n) + b - n)) by lia. lia.
    + rewrite <- (Z.div_unique (2 * X + b) n (2 * (X / n)) (2 * (X mod n) + b)), <- (Z.mod_unique (2 * X + b) n (2 * (X / n)) (2 * (X mod n) + b)) by lia. lia.
Qed.

Lemma s64_bounds a : cell a -> - 2 ^ 63 <= s64 a < 2 ^ 63.
Proof. intros Ha. destruct (s64_of a Ha) as [[? ->] | [? ->]]; unfold cell in *; lia. Qed.

Lemma cell_abs a : cell a -> cell (Z.abs (s64 a)).
Proof. intros Ha. pose proof (s64_bounds a Ha). unfold cell. lia. Qed.

Lemma product_sign a b : (if xorb (a <? 0) (b <? 0) then - (Z.abs a * Z.abs b) else Z.abs a * Z.abs b) = a * b.
Proof. destruct (Z.ltb_spec a 0), (Z.ltb_spec b 0); cbn [xorb]; nia. Qed.

Lemma product_range a b : cell a -> cell b -> - 2 ^ 126 <= s64 a * s64 b <= 2 ^ 126.
Proof. intros Ha Hb. pose proof (s64_bounds a Ha). pose proof (s64_bounds b Hb). nia. Qed.

(** Division of magnitudes, and the signs that truncation gives. *)
Lemma truncated_signs d n : n <> 0 ->
  Z.quot d n = (if xorb (d <? 0) (n <? 0) then - (Z.abs d / Z.abs n) else Z.abs d / Z.abs n) /\
  Z.rem d n = (if d <? 0 then - (Z.abs d mod Z.abs n) else Z.abs d mod Z.abs n).
Proof.
  intros Hn. rewrite <- Z.quot_div_nonneg, <- Z.rem_mod_nonneg by lia.
  destruct (Z.ltb_spec d 0), (Z.ltb_spec n 0); cbn [xorb];
    rewrite ?(Z.abs_neq d), ?(Z.abs_neq n), ?(Z.abs_eq d), ?(Z.abs_eq n) by lia;
    rewrite ?Z.quot_opp_opp, ?Z.quot_opp_l, ?Z.quot_opp_r, ?Z.rem_opp_opp, ?Z.rem_opp_l, ?Z.rem_opp_r by lia; lia.
Qed.

(** Floored division out of truncated division. *)
Lemma floored d n : n <> 0 ->
  d / n = Z.quot d n - (if negb (Z.rem d n =? 0) && xorb (d <? 0) (n <? 0) then 1 else 0) /\
  d mod n = Z.rem d n + (if negb (Z.rem d n =? 0) && xorb (d <? 0) (n <? 0) then n else 0).
Proof.
  intros Hn. pose proof (Z.quot_rem d n Hn) as E. pose proof (Z.rem_bound_abs d n Hn) as Hb. pose proof (Z.rem_sign_mul d n Hn) as Hs.
  set (q := Z.quot d n) in *. set (r := Z.rem d n) in *.
  assert (Hr : if d <? 0 then r <= 0 else 0 <= r) by (destruct (Z.ltb_spec d 0); nia).
  set (c := negb (r =? 0) && xorb (d <? 0) (n <? 0)).
  assert (Hc : 0 <= r + (if c then n else 0) < n \/ n < r + (if c then n else 0) <= 0).
  { unfold c. destruct (Z.eqb_spec r 0), (Z.ltb_spec d 0), (Z.ltb_spec n 0); cbn [negb andb xorb]; lia. }
  assert (Ed : d = n * (q - (if c then 1 else 0)) + (r + (if c then n else 0))) by (destruct c; lia).
  split; [symmetry; by apply (Z.div_unique _ _ _ (r + (if c then n else 0))) | symmetry; by apply (Z.mod_unique _ _ (q - (if c then 1 else 0)))].
Qed.

(** Division of a double in two steps. *)
Lemma long_division d n : 0 <= d < 2 ^ 128 -> cell n -> n <> 0 ->
  let e := (hi64 d mod n) * 2 ^ 64 + lo64 d in
  0 <= e < n * 2 ^ 64 /\ hi64 e = hi64 d mod n /\ lo64 e = lo64 d /\
  hi64 d / n = hi64 (d / n) /\ e / n = lo64 (d / n) /\ e mod n = d mod n.
Proof.
  intros Hd Hn H0 e. pose proof (cell_hi64 d) as Hh. pose proof (cell_lo64 d) as Hl.
  pose proof (hi64_lo64 d) as E. rewrite Z.mod_small in E by done. unfold cell in *.
  pose proof (Z.mod_pos_bound (hi64 d) n) as Hr. pose proof (Z.div_mod (hi64 d) n H0) as Em. pose proof (Z.div_pos (hi64 d) n).
  assert (Hq : hi64 d / n < 2 ^ 64) by (apply Z.div_lt_upper_bound; nia).
  destruct (hi_lo (hi64 d mod n) (lo64 d)) as [E1 E2]; [unfold cell; lia | done|].
  assert (He : 0 <= e < n * 2 ^ 64) by (unfold e; lia).
  assert (Ee : d = (hi64 d / n * 2 ^ 64) * n + e) by (unfold e; lia).
  assert (Heq : 0 <= e / n < 2 ^ 64) by (split; [apply Z.div_pos | apply Z.div_lt_upper_bound]; lia).
  assert (Ed : d / n = hi64 d / n * 2 ^ 64 + e / n) by (rewrite Ee at 1; apply Z.div_add_l; done).
  destruct (hi_lo (hi64 d / n) (e / n)) as [E3 E4]; [unfold cell; lia | done|]. rewrite Ed.
  repeat split; try done; try lia.
Qed.

(** Sums and products of doubles out of their cells. *)
Lemma d_plus_cells d e : u64 (hi64 (d + lo64 e) + hi64 e) = hi64 (d + e) /\ lo64 (d + lo64 e) = lo64 (d + e).
Proof.
  destruct (double_split (d + lo64 e)) as (q & E & Hh & Hl), (double_split e) as (r & E' & Hh' & Hl').
  apply (double_cells _ _ _ (- q - r)); [done|]. lia.
Qed.

Lemma d_times_cells d b : u64 (hi64 (lo64 d * b) + u64 (hi64 d * b)) = hi64 (d * b) /\ lo64 (lo64 d * b) = lo64 (d * b).
Proof.
  rewrite u64_add_u64_r. destruct (double_split (lo64 d * b)) as (q & E & Hh & Hl), (double_split d) as (r & E' & _).
  apply (double_cells _ _ _ (- q - r * b)); [done|].
  assert (d * b = hi64 d * b * 2 ^ 64 + lo64 d * b + r * b * 2 ^ 128) by (rewrite E' at 1; ring). lia.
Qed.
