(* ===== verification/DoubleWords.v ===== *)
(** * slof/engine.in: double-cell numbers, multiplication and division *)

From Stdlib Require Import ZArith Lia ZifyNat.
From stdpp Require Import base list gmap option numbers strings.
From S2P Require Import Prelude CMem Engine Forth Dict Words Image StackWords Doubles.

Local Open Scope list_scope.

#[export] Hint Resolve cell_lo64 cell_hi64 cell_abs : forth.

Section double.
Context `{Layout} {K : mem} {HK : kernel K}.


Lemma does_m_plus n d σ ρ m : roomy 4 σ -> roomy 3 ρ -> cell n ->
  does K "M+" (n :: hi64 d :: lo64 d :: σ) ρ m (hi64 (d + n) :: lo64 (d + n) :: σ) ρ m.
Proof. intros Hσ Hρ Hn. destruct (m_plus_carry d n Hn) as [<- <-]. colon. fw. Qed.


Lemma does_2_times a σ ρ m : roomy 2 σ -> roomy 1 ρ -> does K "2*" (a :: σ) ρ m (u64 (Z.shiftl a 1) :: σ) ρ m.
Proof. colon. fw. Qed.
#[local] Hint Resolve does_2_times does_m_plus : forth.

Lemma does_d_2times d σ ρ m : roomy 4 σ -> roomy 3 ρ -> does K "D2*" (hi64 d :: lo64 d :: σ) ρ m (hi64 (2 * d) :: lo64 (2 * d) :: σ) ρ m.
Proof. intros Hσ Hρ. destruct (d_2times_carry d) as [<- <-]. colon. fw. Qed.
#[local] Hint Resolve does_d_2times : forth.

Lemma does_mul_step n d σ ρ m : roomy 6 σ -> roomy 6 ρ -> cell n ->
  does K "*'" (n :: hi64 d :: lo64 d :: σ) ρ m (n :: hi64 (mul_step n d) :: lo64 (mul_step n d) :: σ) ρ m.
Proof. colon. fw. unfold mul_step. rewrite truth_eqb. destruct (s64 (hi64 d) <? 0); rewrite ?Z.add_0_r; fw. Qed.

Lemma does_div_step n d σ ρ m : roomy 6 σ -> roomy 6 ρ -> cell n ->
  does K "/'" (n :: hi64 d :: lo64 d :: σ) ρ m (n :: hi64 (div_step n d) :: lo64 (div_step n d) :: σ) ρ m.
Proof.
  colon. fw. rewrite truth_or, truth_eqb. unfold div_step. destruct ((s64 (hi64 d) <? 0) || (n <=? hi64 (2 * d))).
  - destruct (div_step_cells d n) as [<- <-]. fw.
  - rewrite Z.add_0_r. fw.
Qed.

(** 64 rounds of [word], whose cell is the cell [k] of [name]. *)
Lemma rounds name word k f n σ ρ m :
  cell_of name k = Some (Xt word) -> cell_of name (S k) = Some (Xt "DOLOOP") -> branch_target name (S k) = Some k ->
  runnable name (S k) = true -> runnable name (S (S (S k))) = true -> 
  (forall d i, does K word (n :: hi64 d :: lo64 d :: σ) (i :: 64 :: ρ) m (n :: hi64 (f d) :: lo64 (f d) :: σ) (i :: 64 :: ρ) m) ->
  forall r d, (r < 64)%nat ->
  runs K (pos name k, n :: hi64 d :: lo64 d :: σ, Z.of_nat (63 - r) :: 64 :: ρ, m)
    (pos name (S (S (S k))), n :: hi64 (Nat.iter (S r) f d) :: lo64 (Nat.iter (S r) f d) :: σ, ρ, m).
Proof.
  intros Hk Hl Hb Hr1 Hr3 Hd r. induction r as [|r IH]; intros d Hr; (eapply step_word; [exact Hk | exact Hr1 | apply Hd|]);
    eapply step_loop; [done | exact Hb | done | | done | exact Hb | done |].
  - apply runs_refl.
  - rewrite u64_small by lia. destruct (Z.eqb_spec (Z.of_nat (63 - S r) + 1) 64); [lia|].
    replace (Z.of_nat (63 - S r) + 1) with (Z.of_nat (63 - r)) by lia. rewrite Nat.iter_succ_r. apply IH; lia.
Qed.

(** All 64 of them. *)
Lemma all_rounds name word k f n d e σ ρ m b :
  cell_of name k = Some (Xt word) -> cell_of name (S k) = Some (Xt "DOLOOP") -> branch_target name (S k) = Some k ->
  runnable name (S k) = true -> runnable name (S (S (S k))) = true ->
  (forall d i, does K word (n :: hi64 d :: lo64 d :: σ) (i :: 64 :: ρ) m (n :: hi64 (f d) :: lo64 (f d) :: σ) (i :: 64 :: ρ) m) ->
  Nat.iter 64 f d mod 2 ^ 128 = e -> 
  runs K (pos name (S (S (S k))), n :: hi64 e :: lo64 e :: σ, ρ, m) b ->
  runs K (pos name k, n :: hi64 d :: lo64 d :: σ, 0 :: 64 :: ρ, m) b.
Proof.
  intros ?????? He Hb. apply double_mod in He as [E1 E2]. rewrite <- E1, <- E2 in Hb. eapply runs_trans; [|exact Hb].
  apply (rounds name word k f n σ ρ m) with (r := 63%nat); done || lia.
Qed.

(** Multiplication of cells to a double. *)
Lemma does_um_times a b σ ρ m : roomy 6 σ -> roomy 9 ρ -> cell a -> cell b ->
  does K "UM*" (b :: a :: σ) ρ m (hi64 (a * b) :: lo64 (a * b) :: σ) ρ m.
Proof.
  intros Hσ Hρ Ha Hb. pose proof (mul_steps a b 64 Ha Hb (le_n _)) as E. change (64 - Z.of_nat 64) with 0 in E.
  change (2 ^ 0) with 1 in E. rewrite Z.mod_1_r, Z.div_1_r, Z.mul_0_l, Z.add_0_l in E.
  destruct (hi_lo a 0 Ha) as [Ea Z0]; [done|]. rewrite Z.add_0_r in Ea, Z0. colon. fw.
  pose proof (all_rounds "UM*" "*'" 7 (mul_step b) b (a * 2 ^ 64)) as L. rewrite Ea, Z0 in L. eapply L; clear L; [vm_done..| |exact E|].
  - intros. apply does_mul_step; [room | room | done].
  - fw.
Qed.

(** Division of a double by a cell: the quotient above the remainder. *)
Lemma does_um_mod d n σ ρ m : roomy 6 σ -> roomy 9 ρ -> cell n -> 0 <= d < n * 2 ^ 64 ->
  does K "UM/MOD" (n :: hi64 d :: lo64 d :: σ) ρ m (d / n :: d mod n :: σ) ρ m.
Proof.
  intros Hσ Hρ Hn Hd. pose proof (div_steps d n 64 Hn Hd (le_n _)) as E. change (64 - Z.of_nat 64) with 0 in E.
  change (2 ^ 0) with 1 in E. rewrite Z.mod_1_r, Z.div_1_r, Z.mul_0_l, Z.add_0_r in E. unfold cell in *.
  assert (0 < n) by nia. pose proof (Z.mod_pos_bound d n). assert (cell (d / n)).
  { split; [apply Z.div_pos; lia | apply Z.div_lt_upper_bound; lia]. }
  destruct (hi_lo (d mod n) (d / n)) as [E1 E2]; [unfold cell; lia | done|].
  colon. fw. eapply (all_rounds "UM/MOD" "/'" 5 (div_step n) n d); [vm_done..| |exact E|].
  - intros. apply does_div_step; [room | room | done].
  - rewrite E1, E2. fw.
Qed.
#[local] Hint Resolve does_um_times : forth.

(** ** Signed doubles *)

Lemma does_s_to_d a σ ρ m : roomy 3 σ -> roomy 1 ρ -> cell a ->
  does K "S>D" (a :: σ) ρ m (hi64 (s64 a) :: lo64 (s64 a) :: σ) ρ m.
Proof. intros ? ? Ha. destruct (s64_double a Ha) as [<- <-]. colon. fw. Qed.

Lemma does_dnegate d σ ρ m : roomy 4 σ -> roomy 3 ρ ->
  does K "DNEGATE" (hi64 d :: lo64 d :: σ) ρ m (hi64 (- d) :: lo64 (- d) :: σ) ρ m.
Proof. intros ? ?. destruct (dnegate_carry d) as [<- <-]. colon. fw. Qed.
#[local] Hint Resolve does_s_to_d does_dnegate : forth.

Lemma does_dabs d σ ρ m : roomy 4 σ -> roomy 4 ρ -> - 2 ^ 127 <= d < 2 ^ 127 ->
  does K "DABS" (hi64 d :: lo64 d :: σ) ρ m (hi64 (Z.abs d) :: lo64 (Z.abs d) :: σ) ρ m.
Proof.
  intros ? ? Hd. colon. fw. rewrite hi64_signed, truth_eqb by done. destruct (Z.ltb_spec d 0); fw.
Qed.
#[local] Hint Resolve does_dabs : forth.

(** The signed product. *)
Lemma does_m_times a b σ ρ m : roomy 6 σ -> roomy 12 ρ -> cell a -> cell b ->
  does K "M*" (b :: a :: σ) ρ m (hi64 (s64 a * s64 b) :: lo64 (s64 a * s64 b) :: σ) ρ m.
Proof.
  intros ? ? Ha Hb. rewrite <- (product_sign (s64 a) (s64 b)). colon. fw. rewrite xor_sign, truth_eqb by done.
  destruct (xorb _ _); fw.
Qed.
#[local] Hint Resolve does_m_times : forth.

(** Truncated division. *)
Lemma does_sm_rem d n σ ρ m : roomy 6 σ -> roomy 12 ρ -> cell n -> - 2 ^ 127 <= d < 2 ^ 127 -> Z.abs d < Z.abs (s64 n) * 2 ^ 64 ->
  does K "SM/REM" (n :: hi64 d :: lo64 d :: σ) ρ m (u64 (Z.quot d (s64 n)) :: u64 (Z.rem d (s64 n)) :: σ) ρ m.
Proof.
  intros ? ? Hn Hd Ha. destruct (truncated_signs d (s64 n)) as [Eq Er]; [lia|]. rewrite Eq, Er. clear Eq Er.
  pose proof (s64_bounds n Hn). assert (Hq : cell (Z.abs d / Z.abs (s64 n))).
  { split; [apply Z.div_pos; lia | apply Z.div_lt_upper_bound; lia]. }
  pose proof (Z.mod_pos_bound (Z.abs d) (Z.abs (s64 n))) as Hr.
  colon. do 6 fw1. fw_with ltac:(apply does_um_mod; [room | room | by apply cell_abs | lia]).
  generalize dependent (Z.abs d mod Z.abs (s64 n)). generalize dependent (Z.abs d / Z.abs (s64 n)). intros q Hq r Hr.
  assert (Er : u64 r = r) by (apply u64_small; lia). assert (Eq : u64 q = q) by (apply u64_small; exact Hq).
  fw. rewrite truth_eqb. destruct (s64 n <? 0); fw; rewrite hi64_signed, truth_eqb by done; destruct (d <? 0); fw;
    cbn [xorb]; rewrite ?u64_opp_u64, ?Z.opp_involutive; congruence.
Qed.

(** Floored division. *)
Lemma does_fm_mod d n σ ρ m : roomy 8 σ -> roomy 15 ρ -> cell n -> - 2 ^ 127 <= d < 2 ^ 127 -> Z.abs d < Z.abs (s64 n) * 2 ^ 64 ->
  does K "FM/MOD" (n :: hi64 d :: lo64 d :: σ) ρ m (u64 (d / s64 n) :: u64 (d mod s64 n) :: σ) ρ m.
Proof.
  intros ? ? Hn Hd Ha. destruct (floored d (s64 n)) as [Eq Er]; [lia|]. rewrite Eq, Er. clear Eq Er.
  colon. fw. fw_with ltac:(apply does_sm_rem; [room | room | assumption..]). fw.
  rewrite xor_sign, hi64_signed, truth_and, truth_eqb by (done || apply cell_hi64).
  assert (E0 : (u64 (Z.rem d (s64 n)) =? 0) = (Z.rem d (s64 n) =? 0)).
  { pose proof (s64_bounds n Hn). pose proof (Z.rem_bound_abs d (s64 n)). destruct (Z.eqb_spec (Z.rem d (s64 n)) 0) as [-> | Hne]; [done|].
    apply Z.eqb_neq. destruct (Z.lt_ge_cases (Z.rem d (s64 n)) 0); [rewrite u64_neg by lia | rewrite u64_small by lia]; lia. }
  rewrite E0. set (c := negb (Z.rem d (s64 n) =? 0) && xorb (d <? 0) (s64 n <? 0)). 
  destruct c; fw; rewrite ?u64_sub_u64_l, ?u64_add_u64_l, ?u64_add_s64, ?Z.sub_0_r, ?Z.add_0_r; done.
Qed.

(** ** Division *)

Lemma s64_nonzero n : cell n -> n <> 0 -> s64 n <> 0.
Proof. intros Hn. destruct (s64_of n Hn) as [[? ->] | [? ->]]; unfold cell in *; lia. Qed.

Lemma does_slash_mod a n σ ρ m : roomy 8 σ -> roomy 17 ρ -> cell a -> cell n -> n <> 0 ->
  does K "/MOD" (n :: a :: σ) ρ m (u64 (s64 a / s64 n) :: u64 (s64 a mod s64 n) :: σ) ρ m.
Proof.
  intros ? ? Ha Hn H0. pose proof (s64_nonzero n Hn H0). pose proof (s64_bounds a Ha).
  colon. fw. fw_with ltac:(apply does_fm_mod; [room | room | exact Hn | lia | lia]). fw.
Qed.

Lemma does_times_slash_mod a b n σ ρ m : roomy 8 σ -> roomy 17 ρ -> cell a -> cell b -> cell n ->
  Z.abs (s64 a * s64 b) < Z.abs (s64 n) * 2 ^ 64 ->
  does K "*/MOD" (n :: b :: a :: σ) ρ m (u64 (s64 a * s64 b / s64 n) :: u64 ((s64 a * s64 b) mod s64 n) :: σ) ρ m.
Proof.
  intros ? ? Ha Hb Hn Hd. pose proof (product_range a b Ha Hb).
  colon. fw. fw_with ltac:(apply does_fm_mod; [room | room | exact Hn | lia | exact Hd]). fw.
Qed.
#[local] Hint Resolve does_slash_mod does_times_slash_mod : forth.

Lemma does_slash a n σ ρ m : roomy 8 σ -> roomy 18 ρ -> cell a -> cell n -> n <> 0 ->
  does K "/" (n :: a :: σ) ρ m (u64 (s64 a / s64 n) :: σ) ρ m.
Proof. colon. fw_with ltac:(apply does_slash_mod; [room | room | done..]). fw. Qed.

Lemma does_mod a n σ ρ m : roomy 8 σ -> roomy 18 ρ -> cell a -> cell n -> n <> 0 ->
  does K "MOD" (n :: a :: σ) ρ m (u64 (s64 a mod s64 n) :: σ) ρ m.
Proof. colon. fw_with ltac:(apply does_slash_mod; [room | room | done..]). fw. Qed.

Lemma does_times_slash a b n σ ρ m : roomy 8 σ -> roomy 18 ρ -> cell a -> cell b -> cell n ->
  Z.abs (s64 a * s64 b) < Z.abs (s64 n) * 2 ^ 64 ->
  does K "*/" (n :: b :: a :: σ) ρ m (u64 (s64 a * s64 b / s64 n) :: σ) ρ m.
Proof. colon. fw_with ltac:(apply does_times_slash_mod; [room | room | assumption..]). fw. Qed.

(** ** Division of unsigned numbers *)

Lemma double_of_cell a : cell a -> hi64 a = 0 /\ lo64 a = a.
Proof. intros Ha. apply (hi_lo 0 a); [done | done]. Qed.

Lemma does_u_slash_mod a n σ ρ m : roomy 7 σ -> roomy 10 ρ -> cell a -> cell n -> n <> 0 ->
  does K "U/MOD" (n :: a :: σ) ρ m (a / n :: a mod n :: σ) ρ m.
Proof.
  intros ? ? Ha Hn H0. destruct (double_of_cell a Ha) as [Eh El]. pose proof (does_um_mod a n σ) as L. rewrite Eh, El in L.
  colon. fw. fw_with ltac:(apply L; [room | room | done | unfold cell in *; lia]). fw.
Qed.

(** A double is divided by a number: the quotient, a double, above the remainder. *)
Lemma does_mu_slash_mod d n σ ρ m : roomy 9 σ -> roomy 12 ρ -> 0 <= d < 2 ^ 128 -> cell n -> n <> 0 ->
  does K "MU/MOD" (n :: hi64 d :: lo64 d :: σ) ρ m (hi64 (d / n) :: lo64 (d / n) :: d mod n :: σ) ρ m.
Proof.
  intros ? ? Hd Hn H0. destruct (long_division d n Hd Hn H0) as (He & Eh & El & Eq1 & Eq0 & Er).
  set (e := hi64 d mod n * 2 ^ 64 + lo64 d) in *. clearbody e. rewrite <- Eq1, <- Eq0, <- Er.
  pose proof (does_um_mod e n σ) as L. rewrite Eh, El in L.
  colon. fw. fw_with ltac:(apply does_u_slash_mod; [room | room | apply cell_hi64 | exact Hn | exact H0]). fw.
Qed.
End double.

#[export] Hint Resolve does_2_times does_m_plus does_d_2times does_um_times does_s_to_d does_dnegate does_dabs does_m_times : forth.

(** The cells of a double. *)
Definition double (d : Z) : list Z := [hi64 d; lo64 d].

(** C19: Multiplication is exact: UM* of two cells is their product and M* that of their signed values, as
    doubles, although both are made of shifts and additions of 64 bits. *)
Theorem multiplication_correct `{Layout} (K : mem) `{!kernel K} a b : cell a -> cell b ->
  (computes K "UM*" 6 12 [b; a] (double (a * b)) /\ hi64 (a * b) * 2 ^ 64 + lo64 (a * b) = a * b) /\
  computes K "M*" 6 12 [b; a] (double (s64 a * s64 b)).
Proof.
  intros Ha Hb. split; [split; [intros σ ρ m Hσ Hρ; apply does_um_times; done || lia|] | intros σ ρ m Hσ Hρ; by apply does_m_times].
  rewrite hi64_lo64. apply Z.mod_small. unfold cell in *. nia.
Qed.

Lemma multiplication_correct_witness :
  cell (2 ^ 64 - 1) /\
  (computes (H := image_layout) image "UM*" 6 12 [2 ^ 64 - 1; 2 ^ 64 - 1] (double ((2 ^ 64 - 1) * (2 ^ 64 - 1))) /\
   hi64 ((2 ^ 64 - 1) * (2 ^ 64 - 1)) * 2 ^ 64 + lo64 ((2 ^ 64 - 1) * (2 ^ 64 - 1)) = (2 ^ 64 - 1) * (2 ^ 64 - 1)) /\
  computes (H := image_layout) image "M*" 6 12 [2 ^ 64 - 1; 2 ^ 64 - 1] (double (s64 (2 ^ 64 - 1) * s64 (2 ^ 64 - 1))).
Proof.
  assert (C : cell (2 ^ 64 - 1)) by (unfold cell; lia). split; [exact C|].
  apply (multiplication_correct (H := image_layout) image (2 ^ 64 - 1) (2 ^ 64 - 1) C C).
Defined.

(** A word whose results are a quotient, on the top, and a remainder. *)
Definition divides `{Layout} (K : mem) (name : string) (args : list Z) (quotient remainder : Z) : Prop :=
  computes K name 8 18 args [quotient; remainder].

(** C6: Division: UM/MOD of a double whose quotient fits in a cell, /MOD of every divisor but zero and with every
    sign rounding down, and */MOD, which keeps the whole product on the way. *)
Theorem division_correct `{Layout} (K : mem) `{!kernel K} a b n : cell a -> cell b -> cell n -> n <> 0 ->
  (a < n -> divides K "UM/MOD" [n; a; b] ((a * 2 ^ 64 + b) / n) ((a * 2 ^ 64 + b) mod n)) /\
  divides K "U/MOD" [n; a] (a / n) (a mod n) /\
  divides K "/MOD" [n; a] (u64 (s64 a / s64 n)) (u64 (s64 a mod s64 n)) /\
  (Z.abs (s64 a * s64 b) < Z.abs (s64 n) * 2 ^ 64 ->
   divides K "*/MOD" [n; b; a] (u64 (s64 a * s64 b / s64 n)) (u64 ((s64 a * s64 b) mod s64 n))).
Proof.
  intros Ha Hb Hn H0. split; [|split; [|split]].
  - intros Hlt σ ρ m Hσ Hρ. destruct (hi_lo a b Ha Hb) as [Eh El].
    pose proof (does_um_mod (K := K) (a * 2 ^ 64 + b) n σ ρ m) as D. rewrite Eh, El in D.
    apply D; try lia; [done|]. unfold cell in *. nia.
  - intros σ ρ m Hσ Hρ. apply does_u_slash_mod; done || lia.
  - intros σ ρ m Hσ Hρ. apply does_slash_mod; done || lia.
  - intros Hp σ ρ m Hσ Hρ. apply does_times_slash_mod; done || lia.
Qed.

(** 7 and 5 with the divisor -2. *)
Lemma division_correct_witness :
  cell (2 ^ 64 - 2) /\
  (7 < 2 ^ 64 - 2 -> divides (H := image_layout) image "UM/MOD" [2 ^ 64 - 2; 7; 5] ((7 * 2 ^ 64 + 5) / (2 ^ 64 - 2)) ((7 * 2 ^ 64 + 5) mod (2 ^ 64 - 2))) /\
  divides (H := image_layout) image "U/MOD" [2 ^ 64 - 2; 7] (7 / (2 ^ 64 - 2)) (7 mod (2 ^ 64 - 2)) /\
  divides (H := image_layout) image "/MOD" [2 ^ 64 - 2; 7] (u64 (s64 7 / s64 (2 ^ 64 - 2))) (u64 (s64 7 mod s64 (2 ^ 64 - 2))) /\
  (Z.abs (s64 7 * s64 5) < Z.abs (s64 (2 ^ 64 - 2)) * 2 ^ 64 ->
   divides (H := image_layout) image "*/MOD" [2 ^ 64 - 2; 5; 7] (u64 (s64 7 * s64 5 / s64 (2 ^ 64 - 2))) (u64 ((s64 7 * s64 5) mod s64 (2 ^ 64 - 2)))).
Proof.
  assert (C : cell (2 ^ 64 - 2)) by (unfold cell; lia). split; [exact C|].
  apply (division_correct (H := image_layout) image 7 5 (2 ^ 64 - 2)); [unfold cell; lia | unfold cell; lia | exact C | lia].
Defined.
