(* ===== verification/Catch.v ===== *)
(** * slof/engine.in: CATCH and THROW

    CATCH keeps the depth of the data stack and the cell of CATCHER on the return stack,
    and in CATCHER the depth of the return stack, which is where THROW goes back to. *)

From Stdlib Require Import ZArith Lia ZifyNat.
From stdpp Require Import base list gmap option numbers strings.
From S2P Require Import Prelude CMem Engine Forth Dict Words Image StackWords.

Local Open Scope list_scope.

Section catch.
Context `{Layout} {K : mem} {HK : kernel K}.

(** The variable of the innermost handler. *)
Definition CATCHER_at : Z := pos "CATCHER" 1.

(** What CATCH leaves on the return stack for the word it executes, called at the cell [a]. *)
Definition catch_frame (a old : Z) (σ ρ : list Z) : list Z := old :: Z.of_nat (S (length σ)) :: a :: ρ.

(** The memory that the word starts with. *)
Definition catch_mem (m : mem) (ρ : list Z) : mem := put 8 m CATCHER_at (Z.of_nat (length ρ + 3)).

Lemma catcher_outside : outside K CATCHER_at 8.
Proof. apply k_vars. left. vm_done. Qed.

Lemma does_catcher σ ρ m : (length σ < STACK_CELLS)%nat -> does K "CATCHER" σ ρ m (CATCHER_at :: σ) ρ m.
Proof. apply does_var. vm_done. Qed.

(** Up to the execution of the word. *)
Lemma catch_enters a c old σ ρ m b :
  load64 K a = Ok (xt "CATCH") -> 0 <= a < 2 ^ 64 -> roomy 3 σ -> roomy 4 ρ ->
  load64 m CATCHER_at = Ok old -> cell old -> mapped m CATCHER_at 8 ->
  runs K (pos "CATCH" 9, c :: σ, catch_frame a old σ ρ, catch_mem m ρ) b -> runs K (a, c :: σ, ρ, m) b.
Proof.
  intros Ha Hr Hσ Hρ Hc Ho Hm Hb. eapply runs_col; [exact Ha | exact Hr | vm_done | vm_done | room|].
  assert (Ho' := catcher_outside).
  fw.
  unfold catch_mem, catch_frame in Hb. by replace (length ρ + 3)%nat with (S (S (S (length ρ)))) in Hb by lia.
Qed.

(** A word that comes back. *)
Lemma catch_leaves a old σ ρ σ' m : fetchable K (a + 8) -> roomy 3 σ' -> roomy 4 ρ -> mapped m CATCHER_at 8 ->
  runs K (pos "CATCH" 10, σ', catch_frame a old σ ρ, m) (a + 8, 0 :: σ', ρ, put 8 m CATCHER_at old).
Proof. intros Hf Hσ Hρ Hm. unfold catch_frame. assert (Ho := catcher_outside). fw. Qed.

(** THROW of zero does nothing. *)
Lemma does_throw_0 σ ρ m : roomy 2 σ -> roomy 3 ρ -> does K "THROW" (0 :: σ) ρ m σ ρ m.
Proof. colon. fw_with ltac:(apply does_qdup; room). cbn [Z.eqb]. fw. cbn [Z.eqb]. fw. Qed.

(** The cells that the stack had. *)
Lemma drop_throw k (n : Z) s : (k <= length s)%nat -> exists x, drop k (n :: s) = x :: drop k s.
Proof.
  destruct k as [|k]; intros Hk; [by exists n|]. cbn [drop]. destruct (lookup_lt_is_Some_2 s k) as [x Hx]; [lia|].
  exists x. by apply drop_S.
Qed.

Lemma throw_unwinds a b n old l σ ρ σ' m :
  load64 K b = Ok (xt "THROW") -> 0 <= b < 2 ^ 64 -> fetchable K (a + 8) -> n <> 0 -> cell old ->
  roomy 4 σ' -> roomy 3 (l ++ catch_frame a old σ ρ) -> (length σ <= length σ')%nat ->
  mapped m CATCHER_at 8 -> load64 m CATCHER_at = Ok (Z.of_nat (length ρ + 3)) ->
  runs K (b, n :: σ', l ++ catch_frame a old σ ρ, m) (a + 8, n :: drop (length σ' - length σ) σ', ρ, put 8 m CATCHER_at old).
Proof.
  intros Hb Hbr Hf Hn Ho Hσ Hl Hle Hm Hc. unfold catch_frame in Hl. rewrite length_app in Hl. cbn [length] in Hl. assert (Hout := catcher_outside).
  unfold catch_frame. eapply runs_col; [exact Hb | exact Hbr | vm_done | vm_done | room|].
  fw_with ltac:(apply does_qdup; room). rewrite (proj2 (Z.eqb_neq n 0) Hn). fw. rewrite (proj2 (Z.eqb_neq n 0) Hn).
  fw_with ltac:(apply does_catcher; room).
  fw_with ltac:(eapply does_fetch; [exact Hc | apply u64_small; unfold STACK_CELLS in *; lia | room]).
  fw_with ltac:(rewrite app_comm_cons; apply does_rdepth_store; cbn [length]; lia).
  fw.
  fw_with ltac:(apply does_depth_store; rewrite Nat2Z.id; lia). rewrite Nat2Z.id.
  replace (S (length σ') - S (length σ))%nat with (length σ' - length σ)%nat by lia.
  destruct (drop_throw (length σ' - length σ) (Z.of_nat (S (length σ))) σ') as [x ->]; [lia|]. 
  assert (length (drop (length σ' - length σ) σ') <= length σ')%nat by (rewrite length_drop; lia). fw.
Qed.

(** C7: CATCH of a word that comes back, and of one that gets to a THROW while it is the innermost
    handler, however deep in calls and with however much on the stack. *)
Theorem catch_correct a c old σ ρ m :
  load64 K a = Ok (xt "CATCH") -> 0 <= a < 2 ^ 64 -> fetchable K (a + 8) -> roomy 3 σ -> roomy 4 ρ ->
  load64 m CATCHER_at = Ok old -> cell old -> mapped m CATCHER_at 8 ->
  (forall σ' m', roomy 3 σ' -> mapped m' CATCHER_at 8 ->
    runs K (pos "CATCH" 9, c :: σ, catch_frame a old σ ρ, catch_mem m ρ) (pos "CATCH" 10, σ', catch_frame a old σ ρ, m') ->
    runs K (a, c :: σ, ρ, m) (a + 8, 0 :: σ', ρ, put 8 m' CATCHER_at old)) /\
  (forall b n l σ' m', load64 K b = Ok (xt "THROW") -> 0 <= b < 2 ^ 64 -> n <> 0 ->
    roomy 4 σ' -> roomy 3 (l ++ catch_frame a old σ ρ) -> (length σ <= length σ')%nat ->
    mapped m' CATCHER_at 8 -> load64 m' CATCHER_at = Ok (Z.of_nat (length ρ + 3)) ->
    runs K (pos "CATCH" 9, c :: σ, catch_frame a old σ ρ, catch_mem m ρ) (b, n :: σ', l ++ catch_frame a old σ ρ, m') ->
    runs K (a, c :: σ, ρ, m) (a + 8, n :: drop (length σ' - length σ) σ', ρ, put 8 m' CATCHER_at old)).
Proof.
  intros Ha Hr Hf Hσ Hρ Hc Ho Hm. split.
  - intros σ' m' Hσ' Hm' Hb. eapply catch_enters; try eassumption. eapply runs_trans; [exact Hb|]. by apply catch_leaves.
  - intros b n l σ' m' Hb Hbr Hn Hσ' Hl Hle Hm' Hc' Hrun. eapply catch_enters; try eassumption. eapply runs_trans; [exact Hrun|].
    by apply throw_unwinds.
Qed.
End catch.

(** The CATCH of EVALUATE with the word ABORT, which throws -1. *)
Definition catch_cell : Z := pos (H := image_layout) "EVALUATE" 14.
Definition catcher_memory : mem := image_with (CATCHER_at (H := image_layout)) 8.

Lemma catcher_memory_cell : load64 catcher_memory (CATCHER_at (H := image_layout)) = Ok 0 /\ mapped catcher_memory (CATCHER_at (H := image_layout)) 8.
Proof.
  assert (Hm : bytes_at catcher_memory (CATCHER_at (H := image_layout)) (replicate 8 0)) by apply write_bytes_at. split.
  - by rewrite (load_be_spec 8 _ _ (replicate 8 0)).
  - exact (bytes_at_mapped _ _ _ Hm).
Qed.

Lemma abort_throws σ ρ m : roomy 3 σ -> roomy 3 ρ ->
  runs (H := image_layout) image (pos (H := image_layout) "CATCH" 9, xt (Layout := image_layout) "ABORT" :: σ, ρ, m)
    (pos (H := image_layout) "ABORT" 2, 2 ^ 64 - 1 :: σ, pos (H := image_layout) "CATCH" 9 :: ρ, m).
Proof.
  intros Hσ Hρ. eapply step_execute_col; [vm_done | vm_done | vm_done | room|].
  eapply step_word; [vm_done | vm_done | eapply does_con; [vm_done | vm_done | vm_done | room]|]. apply runs_refl.
Qed.

Lemma catch_correct_witness : exists m',
  runs (H := image_layout) image (catch_cell, [xt (Layout := image_layout) "ABORT"; 5; 6], [], catcher_memory)
    (catch_cell + 8, [2 ^ 64 - 1; 5; 6], [], m').
Proof.
  destruct catcher_memory_cell as [Hl Hm].
  destruct (catch_correct (H := image_layout) (K := image) catch_cell (xt (Layout := image_layout) "ABORT") 0 [5; 6] [] catcher_memory) as [_ Ht].
  - apply cell_xt. vm_done.
  - apply pos_range. eexists. vm_done.
  - unfold catch_cell. rewrite pos_S. apply runnable_fetchable. vm_done.
  - unfold STACK_CELLS. cbn. lia.
  - unfold STACK_CELLS. cbn. lia.
  - exact Hl.
  - unfold cell. lia.
  - exact Hm.
  - eexists. apply (Ht (pos (H := image_layout) "ABORT" 2) (2 ^ 64 - 1) [pos (H := image_layout) "CATCH" 9] [5; 6] (catch_mem (H := image_layout) catcher_memory [])).
    + apply cell_xt. vm_done.
    + apply pos_range. eexists. vm_done.
    + lia.
    + unfold STACK_CELLS. cbn. lia.
    + unfold STACK_CELLS. cbn. lia.
    + cbn. lia.
    + by apply mapped_put.
    + apply load_put64. unfold cell. cbn. lia.
    + apply abort_throws; unfold STACK_CELLS; cbn; lia.
Defined.
