(* ===== verification/NumberWords.v ===== *)
(** * slof/engine.in: numbers as text *)

From Stdlib Require Import ZArith Lia ZifyNat.
From stdpp Require Import base list gmap option numbers strings.
From S2P Require Import Prelude CMem Engine Forth Dict Words Image StackWords Doubles DoubleWords.

Local Open Scope list_scope.

(** ** Digits *)

Definition upc (c : Z) : Z := if (97 <=? c) && (c <=? 122) then c - 32 else c.

(** The digit that a character is, as DIGIT has it. *)
Definition fdigit (base c : Z) : option Z :=
  let u := upc c in
  let d := (if (65 <=? u) && (u <=? 90) then u - 7 else u) - 48 in
  if (0 <=? d) && (d <? base) then Some d else None.

Definition todigit (d : Z) : Z := if 9 <? d then d + 87 else d + 48.

Lemma fdigit_todigit base d : 0 <= d < base -> base <= 36 -> fdigit base (todigit d) = Some d.
Proof.
  intros Hd Hb. unfold fdigit, todigit, upc. destruct (Z.ltb_spec 9 d).
  - destruct (Z.leb_spec 97 (d + 87)), (Z.leb_spec (d + 87) 122); try lia. cbn [andb].
    destruct (Z.leb_spec 65 (d + 87 - 32)), (Z.leb_spec (d + 87 - 32) 90); try lia. cbn [andb].
    destruct (Z.leb_spec 0 (d + 87 - 32 - 7 - 48)), (Z.ltb_spec (d + 87 - 32 - 7 - 48) base); try lia. cbn [andb]. f_equal. lia.
  - destruct (Z.leb_spec 97 (d + 48)); try lia. cbn [andb].
    destruct (Z.leb_spec 65 (d + 48)); try lia. cbn [andb].
    destruct (Z.leb_spec 0 (d + 48 - 48)), (Z.ltb_spec (d + 48 - 48) base); try lia. cbn [andb]. f_equal. lia.
Qed.

Section digits.
Context `{Layout} {K : mem} {HK : kernel K}.

(** Comparison of numbers that are small. *)
Lemma does_between_small x lo hi σ ρ m : roomy 5 σ -> roomy 4 ρ -> 0 <= x < 2 ^ 62 -> 0 <= lo < 2 ^ 62 -> 0 <= hi < 2 ^ 62 ->
  does K "BETWEEN" (hi :: lo :: x :: σ) ρ m (truth ((lo <=? x) && (x <=? hi)) :: σ) ρ m.
Proof.
  intros ? ? Hx Hlo Hhi. pose proof (does_between x lo hi σ ρ m) as D. rewrite (u64_small (hi + 1)), !s64_small in D by lia.
  replace (x <? hi + 1) with (x <=? hi) in D; [by apply D|]. destruct (Z.leb_spec x hi), (Z.ltb_spec x (hi + 1)); lia.
Qed.

Ltac between := fw_with ltac:(apply does_between_small; [room | room | unfold byte in *; lia..]).

Lemma does_upc c σ ρ m : roomy 7 σ -> roomy 5 ρ -> byte c -> does K "UPC" (c :: σ) ρ m (upc c :: σ) ρ m.
Proof.
  intros ? ? Hc. unfold byte, upc in *. colon. do 3 fw1. between. fw. rewrite truth_eqb.
  destruct (Z.leb_spec 97 c), (Z.leb_spec c 122); fw. rewrite u64_small by lia. done.
Qed.

Lemma upc_byte c : byte c -> byte (upc c).
Proof. unfold byte, upc. destruct (Z.leb_spec 97 c), (Z.leb_spec c 122); cbn [andb]; lia. Qed.

Lemma does_digit base c σ ρ m : roomy 9 σ -> roomy 6 ρ -> byte c -> 2 <= base <= 36 ->
  does K "DIGIT" (base :: c :: σ) ρ m
    (match fdigit base c with Some d => truth true :: d :: σ | None => truth false :: c :: σ end) ρ m.
Proof.
  intros ? ? Hc Hb. unfold fdigit. pose proof (upc_byte c Hc) as Hu. set (u := upc c) in *.
  colon. fw1. fw_with ltac:(apply does_upc; [room | room | done]). fold u. clearbody u. do 3 fw1. between. fw. rewrite truth_eqb.
  unfold byte in *.
  set (e := if (65 <=? u) && (u <=? 90) then u - 7 else u). assert (He : 0 <= e < 256).
  { unfold e. destruct (Z.leb_spec 65 u), (Z.leb_spec u 90); cbn [andb]; lia. }
  assert (Hrun : runs K (pos "DIGIT" 14, e :: base :: c :: σ, i :: ρ, m) (i + 8, match (if (0 <=? e - 48) && (e - 48 <? base) then Some (e - 48) else None) with
     Some d => truth true :: d :: σ | None => truth false :: c :: σ end, ρ, m)).
  { clearbody e. assert (Es : s64 (u64 (e - 48)) = e - 48 /\ s64 base = base).
    { rewrite (s64_small base) by lia. split; [|done]. destruct (Z.lt_ge_cases e 48).
      - rewrite u64_neg by lia. destruct (s64_of (e - 48 + 2 ^ 64)) as [[? ->] | [? ->]]; unfold cell; lia.
      - rewrite u64_small, s64_small by lia. done. }
    destruct Es as [Es Eb]. fw. rewrite Es, Eb, truth_eqb. change (s64 0) with 0.
    destruct (Z.leb_spec 0 (e - 48)), (Z.ltb_spec (e - 48) base); fw. rewrite u64_small by lia. done. }
  revert Hrun. unfold e. destruct (Z.leb_spec 65 u), (Z.leb_spec u 90); cbn [andb negb]; intros Hrun; [|exact Hrun..].
  do 2 fw1. rewrite u64_small by lia. exact Hrun.
Qed.

Lemma does_todigit d σ ρ m : roomy 3 σ -> roomy 3 ρ -> 0 <= d < 36 -> does K "TODIGIT" (d :: σ) ρ m (todigit d :: σ) ρ m.
Proof.
  intros ? ? Hd. unfold todigit. colon. fw. rewrite !s64_small, truth_eqb by lia. destruct (Z.ltb_spec 9 d); fw;
  rewrite ?(u64_small (d + 39)) by lia; rewrite u64_small by lia; cells_eq.
Qed.

Lemma does_d_plus d e σ ρ m : roomy 5 σ -> roomy 5 ρ ->
  does K "D+" (hi64 e :: lo64 e :: hi64 d :: lo64 d :: σ) ρ m (hi64 (d + e) :: lo64 (d + e) :: σ) ρ m.
Proof. intros ? ?. destruct (d_plus_cells d e) as [<- <-]. colon. fw. Qed.

Lemma does_d_plus_cell d v σ ρ m : roomy 5 σ -> roomy 5 ρ -> cell v ->
  does K "D+" (0 :: v :: hi64 d :: lo64 d :: σ) ρ m (hi64 (d + v) :: lo64 (d + v) :: σ) ρ m.
Proof. intros ? ? Hv. destruct (double_of_cell v Hv) as [Eh El]. pose proof (does_d_plus d v σ ρ m) as D. rewrite Eh, El in D. by apply D. Qed.

Lemma does_u_times a b σ ρ m : roomy 2 σ -> roomy 1 ρ -> does K "U*" (b :: a :: σ) ρ m (u64 (a * b) :: σ) ρ m.
Proof. colon. fw. Qed.
End digits.

#[export] Hint Resolve does_upc does_todigit does_d_plus_cell does_u_times : forth.

(** ** Text to number *)

(** The longest start of digits, added to a number, and what is left. *)
Fixpoint number_prefix (base d : Z) (s : list Z) : Z * list Z :=
  match s with
  | [] => (d, [])
  | c :: s' => match fdigit base c with Some v => number_prefix base (d * base + v) s' | None => (d, s) end
  end.

Lemma number_prefix_length base d s : (length (number_prefix base d s).2 <= length s)%nat.
Proof.
  revert d. induction s as [|c s IH]; intros d; cbn [number_prefix length]; [done|].
  destruct (fdigit base c); [|done]. specialize (IH (d * base + z)). lia.
Qed.

Section number.
Context `{Layout} {K : mem} {HK : kernel K}.

Definition BASE_at : Z := pos "BASE" 1.

Lemma fdigit_range base c v : fdigit base c = Some v -> 0 <= v < base.
Proof.
  unfold fdigit. cbv zeta. destruct (Z.leb_spec 0 ((if (65 <=? upc c) && (upc c <=? 90) then upc c - 7 else upc c) - 48)), 
    (Z.ltb_spec ((if (65 <=? upc c) && (upc c <=? 90) then upc c - 7 else upc c) - 48) base); cbn [andb]; intros [= <-]; lia.
Qed.

(** The address of a text, its bytes and the number base. *)
Record text (m : mem) (base a : Z) (s : list Z) : Prop := {
  t_base : load64 m BASE_at = Ok base;
  t_range : 2 <= base <= 36;
  t_bytes : bytes_at m a s;
  t_byte : Forall byte s;
  t_addr : 0 <= a /\ a + Z.of_nat (length s) < 2 ^ 63 }.

Lemma text_cons m base a c s : text m base a (c :: s) -> load8 m a = Ok c /\ byte c /\ text m base (a + 1) s.
Proof.
  intros [? ? Hb Hf Ha]. apply bytes_at_cons in Hb as [Hc Hb]. cbn [length] in Ha. pose proof (Forall_inv Hf). pose proof (Forall_inv_tail Hf).
  unfold load8. rewrite Hc. split; [done|]. split; [done|]. split; try done. lia.
Qed.

Lemma to_number_runs m base s : forall a d σ ρ i, text m base a s -> fetchable K (i + 8) -> roomy 14 σ -> roomy 16 ρ ->
  runs K (pos ">NUMBER" 1, Z.of_nat (length s) :: a :: hi64 d :: lo64 d :: σ, i :: ρ, m)
    (i + 8, let '(e, s') := number_prefix base d s in
      Z.of_nat (length s') :: a + Z.of_nat (length s - length s') :: hi64 e :: lo64 e :: σ, ρ, m).
Proof.
  induction s as [|c s IH]; intros a d σ ρ i Ht Hf Hσ Hρ; cbn [number_prefix length].
  - fw. rewrite truth_eqb, eqb_of_nat_O. fw.
  - destruct (text_cons _ _ _ _ _ Ht) as (Hc & Hbc & Ht'). pose proof (t_base _ _ _ _ Ht) as Hb. pose proof (t_range _ _ _ _ Ht) as Hr.
    unfold BASE_at in Hb.
    fw. rewrite truth_eqb, eqb_of_nat_S. fw.
    fw_with ltac:(apply does_digit; [room | room | done | done]).
    destruct (fdigit base c) as [v|] eqn:Ev.
    + pose proof (fdigit_range _ _ _ Ev) as Hv. assert (Hcv : cell v) by (unfold cell; lia). assert (Hcb : cell base) by (unfold cell; lia).
      destruct (d_times_cells d base) as [Eh' El'].
      fw1. rewrite truth_eqb. cbn [negb]. do 14 fw1. rewrite Eh', El'. fw_to 1%nat.
      pose proof (t_addr _ _ _ _ Ht) as Ha. cbn [length] in Ha. rewrite u64_small by lia.
      rewrite u64_small by lia. replace (Z.of_nat (S (length s)) - 1) with (Z.of_nat (length s)) by lia.
      eapply runs_trans; [apply IH; done|]. apply runs_eq.
      pose proof (number_prefix_length base (d * base + v) s) as Hl. destruct (number_prefix base (d * base + v) s) as [e s'].
      cbn [snd] in Hl. cells_eq.
    + fw1. rewrite truth_eqb. fw.
Qed.

Lemma does_to_number m base s a d σ ρ : text m base a s -> roomy 14 σ -> roomy 17 ρ ->
  does K ">NUMBER" (Z.of_nat (length s) :: a :: hi64 d :: lo64 d :: σ) ρ m
    (let '(e, s') := number_prefix base d s in
     Z.of_nat (length s') :: a + Z.of_nat (length s - length s') :: hi64 e :: lo64 e :: σ) ρ m.
Proof. intros Ht ? ?. colon. apply to_number_runs; [done | done | room | room]. Qed.

(** The number that a text stands for: digits in the number base with an optional
    sign. *)
Definition unsigned_text (base : Z) (s : list Z) : option Z :=
  match number_prefix base 0 s with (v, []) => Some v | _ => None end.
Definition number_text (base : Z) (s : list Z) : option Z :=
  match s with
  | [] => None
  | c :: s' =>
      if c =? 45 then match s' with [] => None | _ => Z.opp <$> unsigned_text base s' end
      else unsigned_text base s
  end.

(** From the digits on; [neg] says whether there was a sign. *)
Lemma number_tail neg m base s a σ ρ i : text m base a s -> fetchable K (i + 8) -> roomy 16 σ -> roomy 19 ρ ->
  runs K (pos "$NUMBER" 34, truth neg :: σ, a :: Z.of_nat (length s) :: i :: ρ, m)
    (i + 8, match unsigned_text base s with
            | Some v => truth false :: u64 (if neg then - v else v) :: σ | None => truth true :: σ end, ρ, m).
Proof.
  intros Ht Hf Hσ Hρ. fw. 
  pose proof (does_to_number m base s a 0 (truth neg :: σ)) as D. change (hi64 0) with 0 in D. change (lo64 0) with 0 in D.
  fw_with ltac:(apply D; [done | room | room]). clear D. unfold unsigned_text. 
  destruct (number_prefix base 0 s) as [v [|c s']]; cbn [length]; fw; rewrite truth_eqb, ?eqb_of_nat_O, ?eqb_of_nat_S; fw.
  rewrite truth_eqb. unfold lo64. destruct neg; fw. by rewrite u64_opp_u64.
Qed.

Lemma does_number m base s a σ ρ : text m base a s -> roomy 18 σ -> roomy 20 ρ ->
  does K "$NUMBER" (Z.of_nat (length s) :: a :: σ) ρ m
    (match number_text base s with Some v => truth false :: u64 v :: σ | None => truth true :: σ end) ρ m.
Proof.
  intros Ht Hσ Hρ. colon. destruct s as [|c s]; cbn [length number_text].
  { fw. rewrite truth_eqb, eqb_of_nat_O. fw. }
  destruct (text_cons _ _ _ _ _ Ht) as (Hc & Hbc & Ht'). fw. rewrite truth_eqb, eqb_of_nat_S. fw. rewrite truth_eqb.
  destruct (Z.eqb_spec c 45) as [-> | Hne]; cbn [negb].
  - pose proof (t_addr _ _ _ _ Ht) as Ha. cbn [length] in Ha.
    do 4 fw1. rewrite u64_small by lia. rewrite u64_small by lia. replace (Z.of_nat (S (length s)) - 1) with (Z.of_nat (length s)) by lia.
    destruct s as [|c s]; cbn [length]; fw; rewrite truth_eqb, ?eqb_of_nat_O, ?eqb_of_nat_S; cbn [negb]; fw_to 34%nat.
    pose proof (number_tail true m base (c :: s) (a + 1) σ ρ i Ht' Hif) as T.
    eapply runs_trans; [apply T; room|]. apply runs_eq. by destruct (unsigned_text base (c :: s)).
  - eapply runs_trans; [apply (number_tail false m base (c :: s) a σ ρ i Ht Hif); room|]. apply runs_refl.
Qed.
End number.

(** ** Number to text *)

Section output.
Context `{Layout} {K : mem} {HK : kernel K}.

Definition HERE_at : Z := pos "HERE" 1.

(** The text that is being made, [s], ends at PAD, which holds the address of its first byte. *)
Record pad (m : mem) (base h : Z) (s : list Z) : Prop := {
  p_here : load64 m HERE_at = Ok h;
  p_base : load64 m BASE_at = Ok base;
  p_range : 2 <= base <= 36;
  p_addr : 0 <= h /\ h + 264 < 2 ^ 63;
  p_mapped : mapped m (h + 190) 74;
  p_outside : outside K (h + 190) 74;
  p_apart : HERE_at + 8 <= h + 190 \/ h + 264 <= HERE_at;
  p_apart' : BASE_at + 8 <= h + 190 \/ h + 264 <= BASE_at;
  p_first : load64 m (h + 256) = Ok (h + 256 - Z.of_nat (length s));
  p_bytes : bytes_at m (h + 256 - Z.of_nat (length s)) s;
  p_room : (length s <= 66)%nat }.

(** The memory after a character is put before the text. *)
Definition held (m : mem) (p c q : Z) : mem := <[q := u8 c]> (put 8 m p q).

Lemma held_other m p c q a : (a < p \/ p + 8 <= a) -> a <> q -> held m p c q !! a = m !! a.
Proof. intros Ha Hq. unfold held. rewrite lookup_insert_ne by done. apply put_other. lia. Qed.

Lemma held_mapped m p c q a n : mapped m a n -> mapped (held m p c q) a n.
Proof. intros Hm. by apply mapped_insert, mapped_put. Qed.

Lemma pad_hold m base h s c : pad m base h s -> (length s < 66)%nat -> byte c ->
  pad (held m (h + 256) c (h + 256 - Z.of_nat (S (length s)))) base h (c :: s).
Proof.
  intros Hp Hl Hc. destruct Hp. set (q := h + 256 - Z.of_nat (S (length s))).
  assert (Hsame : forall a n, a + Z.of_nat n <= h + 190 \/ h + 264 <= a -> same_at m (held m (h + 256) c q) a n).
  { intros a n Ha p Hp. apply held_other; lia. }
  split; try done.
  - eapply load_same; [apply (Hsame _ 8%nat); lia | done].
  - eapply load_same; [apply (Hsame _ 8%nat); lia | done].
  - by apply held_mapped.
  - cbn [length]. fold q. eapply load_same; [|apply (load_put64 m (h + 256) q); unfold cell; lia].
    intros p Hp. unfold held. rewrite lookup_insert_ne by lia. done.
  - cbn [length]. fold q. apply bytes_at_cons. split.
    + unfold held. rewrite lookup_insert, decide_True by done. f_equal. apply u8_small. exact Hc.
    + intros i b Hi. pose proof (lookup_lt_Some _ _ _ Hi). rewrite held_other by lia. rewrite <- (p_bytes0 i b Hi). f_equal. lia.
Qed.

Lemma does_pad h σ ρ m : load64 m HERE_at = Ok h -> 0 <= h /\ h + 264 < 2 ^ 63 -> roomy 2 σ -> roomy 2 ρ ->
  does K "PAD" σ ρ m (h + 256 :: σ) ρ m.
Proof.
  intros Hh Hr ? ?. colon. fw_with ltac:(apply does_val; [vm_done | exact Hh | unfold cell; lia | room]). fw. rewrite u64_small by lia. cells_eq.
Qed.

Lemma does_hold base h s c σ ρ m : pad m base h s -> (length s < 66)%nat -> roomy 6 σ -> roomy 4 ρ ->
  does K "HOLD" (c :: σ) ρ m σ ρ (held m (h + 256) c (h + 256 - Z.of_nat (S (length s)))).
Proof.
  intros Hp Hl ? ?. destruct Hp. colon. fw_with ltac:(apply (does_pad h); [done | lia | room | room]).
  fw_with ltac:(apply does_dup; room). fw_with ltac:(eapply does_fetch; [exact p_first0 | apply u64_small; lia | room]). fw.
  set (q := h + 256 - Z.of_nat (S (length s))). replace (h + 256 - Z.of_nat (length s) - 1) with q by lia. rewrite (u64_small q) by lia.
  fw_with ltac:(apply does_store; [by eapply mapped_sub; [exact p_mapped0 | lia..] | intros p Hp; apply p_outside0; lia]).
  fw_with ltac:(apply does_c_store; [apply (mapped_put 8 m (h + 256) q (h + 190) 74 p_mapped0); lia | intros p Hp; apply p_outside0; lia]).
  fw.
Qed.

(** The start of a text. *)
Record pad_free (m : mem) (base h : Z) : Prop := {
  f_here : load64 m HERE_at = Ok h;
  f_base : load64 m BASE_at = Ok base;
  f_range : 2 <= base <= 36;
  f_addr : 0 <= h /\ h + 264 < 2 ^ 63;
  f_mapped : mapped m (h + 190) 74;
  f_outside : outside K (h + 190) 74;
  f_apart : HERE_at + 8 <= h + 190 \/ h + 264 <= HERE_at;
  f_apart' : BASE_at + 8 <= h + 190 \/ h + 264 <= BASE_at }.

Lemma pad_start m base h : pad_free m base h -> pad (put 8 m (h + 256) (h + 256)) base h [].
Proof.
  intros []. split; try done.
  - eapply load_same; [apply same_at_put; lia | done].
  - eapply load_same; [apply same_at_put; lia | done].
  - by apply mapped_put.
  - cbn [length]. rewrite Z.sub_0_r. apply load_put64. unfold cell. lia.
  - cbn [length]. lia.
Qed.

Lemma does_start base h σ ρ m : pad_free m base h -> roomy 4 σ -> roomy 3 ρ -> does K "<#" σ ρ m σ ρ (put 8 m (h + 256) (h + 256)).
Proof.
  intros [] ? ?. colon. fw_with ltac:(apply (does_pad h); [done | lia | room | room]). fw_with ltac:(apply does_dup; room).
  fw_with ltac:(apply does_store; [by eapply mapped_sub; [exact f_mapped0 | lia..] | intros p Hp; apply f_outside0; lia]). fw.
Qed.

(** The end: address and length. *)
Lemma pad_ends name a base h s x σ ρ m : name = "U#>" /\ a = [x] \/ (exists y, name = "#>" /\ a = [x; y]) ->
  pad m base h s -> roomy 6 σ -> roomy 3 ρ ->
  does K name (a ++ σ) ρ m (Z.of_nat (length s) :: h + 256 - Z.of_nat (length s) :: σ) ρ m.
Proof.
  intros Hn [] ? ?. destruct Hn as [[-> ->] | (y & -> & ->)]; cbn [app]; colon; fw1;
    (fw_with ltac:(apply (does_pad h); [done | lia | room | room])); (fw_with ltac:(apply does_dup; room));
    (fw_with ltac:(eapply does_fetch; [exact p_first0 | apply u64_small; lia | room])); fw; rewrite u64_small by lia; cells_eq.
Qed.
End output.

(** The digits of a number, without leading zeros. *)
Fixpoint unumber (fuel : nat) (base n : Z) : list Z :=
  match fuel with
  | O => []
  | S f => (if n / base =? 0 then [] else unumber f base (n / base)) ++ [todigit (n mod base)]
  end.

(** A sign where the number is negative. *)
Definition snumber (base n : Z) : list Z := (if n <? 0 then [45] else []) ++ unumber 64 base (Z.abs n).

Lemma number_prefix_snoc base d t v c x :
  number_prefix base d t = (v, []) -> fdigit base c = Some x -> number_prefix base d (t ++ [c]) = (v * base + x, []).
Proof.
  intros Ht Hc. revert d Ht. induction t as [|c' t IH]; intros d; cbn [number_prefix app].
  - intros [= ->]. by rewrite Hc.
  - destruct (fdigit base c'); [apply IH | done].
Qed.

Lemma unumber_value fuel base n : 2 <= base <= 36 -> 0 <= n < base ^ Z.of_nat fuel -> fuel <> 0%nat ->
  number_prefix base 0 (unumber fuel base n) = (n, []).
Proof.
  intros Hb. revert n. induction fuel as [|f IH]; intros n Hn Hf; [done|]. cbn [unumber].
  pose proof (Z.mod_pos_bound n base) as Hm. pose proof (Z.div_mod n base) as Hd.
  assert (Hx : fdigit base (todigit (n mod base)) = Some (n mod base)) by (apply fdigit_todigit; lia).
  destruct (Z.eqb_spec (n / base) 0) as [E | E].
  - cbn [app number_prefix]. rewrite Hx. f_equal. lia.
  - assert (0 <= n / base) by (apply Z.div_pos; lia).
    assert (Hq : n / base < base ^ Z.of_nat f).
    { apply Z.div_lt_upper_bound; [lia|]. rewrite Nat2Z.inj_succ, Z.pow_succ_r in Hn by lia. lia. }
    rewrite (number_prefix_snoc _ _ _ (n / base) _ (n mod base)); [f_equal; lia | | done].
    apply IH; [lia|]. intros ->. change (base ^ Z.of_nat 0) with 1 in Hq. lia.
Qed.

Lemma todigit_byte d : 0 <= d < 36 -> byte (todigit d) /\ todigit d <> 45.
Proof. intros Hd. unfold byte, todigit. destruct (Z.ltb_spec 9 d); lia. Qed.

Lemma unumber_bytes fuel base n : 2 <= base <= 36 -> Forall (fun c => byte c /\ c <> 45) (unumber fuel base n).
Proof.
  intros Hb. revert n. induction fuel as [|f IH]; intros n; cbn [unumber]; [constructor|]. apply Forall_app. split.
  - destruct (n / base =? 0); [constructor | apply IH].
  - constructor; [|constructor]. apply todigit_byte. pose proof (Z.mod_pos_bound n base). lia.
Qed.

(** Digits without a sign are read as the number. *)
Lemma unumber_text fuel base n : 2 <= base <= 36 -> 0 <= n < base ^ Z.of_nat (S fuel) -> number_text base (unumber (S fuel) base n) = Some n.
Proof.
  intros Hb Hn. pose proof (unumber_bytes (S fuel) base n Hb) as Hf. pose proof (unumber_value (S fuel) base n Hb Hn) as Hv.
  unfold number_text. destruct (unumber (S fuel) base n) as [|c t] eqn:E.
  - cbn [unumber] in E. by destruct (if n / base =? 0 then [] else unumber fuel base (n / base)).
  - apply Forall_inv in Hf as [_ Hc]. destruct (Z.eqb_spec c 45); [done|]. unfold unsigned_text. by rewrite Hv.
Qed.

Lemma unumber_length fuel base n : (length (unumber fuel base n) <= fuel)%nat.
Proof.
  revert n. induction fuel as [|f IH]; intros n; cbn [unumber]; [done|]. rewrite length_app. cbn [length].
  destruct (n / base =? 0); cbn [length]; [lia|]. specialize (IH (n / base)). lia.
Qed.

Lemma unumber_S fuel base n : exists c t, unumber (S fuel) base n = c :: t.
Proof. cbn [unumber]. destruct (if n / base =? 0 then [] else unumber fuel base (n / base)) as [|c t]; cbn [app]; eauto. Qed.

Section convert.
Context `{Layout} {K : mem} {HK : kernel K}.

(** [t] was put before the text [s]. *)
Definition grown (m m' : mem) (base h : Z) (s t : list Z) : Prop :=
  pad (K := K) m' base h (t ++ s) /\ same_outside m m' (h + 190) (h + 264).

Lemma held_grown m base h s c : pad (K := K) m base h s -> (length s < 66)%nat -> byte c ->
  grown m (held m (h + 256) c (h + 256 - Z.of_nat (S (length s)))) base h s [c].
Proof.
  intros Hp Hl Hc. split; [by apply pad_hold|]. intros a Ha. destruct Hp. apply held_other; lia.
Qed.

Lemma grown_trans m m1 m2 base h s t t' : grown m m1 base h s t -> grown m1 m2 base h (t ++ s) t' -> grown m m2 base h s (t' ++ t).
Proof. intros [Hp Hs] [Hp' Hs']. split; [by rewrite <- app_assoc | by eapply same_outside_trans]. Qed.

Lemma does_u_digit base h s n m : pad (K := K) m base h s -> (length s < 66)%nat -> cell n ->
  exists m', grown m m' base h s [todigit (n mod base)] /\
    forall σ ρ, roomy 9 σ -> roomy 12 ρ -> does K "U#" (n :: σ) ρ m (n / base :: σ) ρ m'.
Proof.
  intros Hp Hl Hn. pose proof (p_base _ _ _ _ Hp) as Hb. pose proof (p_range _ _ _ _ Hp) as Hr. unfold BASE_at in Hb.
  pose proof (Z.mod_pos_bound n base) as Hm. eexists. split; [apply held_grown; [done | done | apply todigit_byte; lia]|].
  colon. do 2 fw1. fw_with ltac:(apply does_u_slash_mod; [room | room | done | unfold cell; lia | lia]). fw1.
  fw_with ltac:(apply does_todigit; [room | room | lia]). fw_with ltac:(eapply does_hold; [done | done | room | room]). fw.
Qed.

(** The digits that the rest of the loop makes. *)
Lemma unumber_more k base n : 2 <= base <= 36 -> 0 <= n < base ^ Z.of_nat (S k) ->
  n / base = 0 /\ unumber (S k) base n = [todigit (n mod base)] \/
  exists k', k = S k' /\ n / base <> 0 /\ 0 <= n / base < base ^ Z.of_nat k /\ n / base <= n /\
    unumber (S k) base n = unumber k base (n / base) ++ [todigit (n mod base)].
Proof.
  intros Hb Hn. assert (0 <= n / base) by (apply Z.div_pos; lia).
  assert (Hq : n / base < base ^ Z.of_nat k).
  { apply Z.div_lt_upper_bound; [lia|]. rewrite Nat2Z.inj_succ, Z.pow_succ_r in Hn by lia. lia. }
  change (unumber (S k) base n) with ((if n / base =? 0 then [] else unumber k base (n / base)) ++ [todigit (n mod base)]).
  destruct (Z.eqb_spec (n / base) 0) as [E | E]; [by left|]. right. destruct k as [|k]; [change (base ^ Z.of_nat 0) with 1 in Hq; lia|].
  exists k. repeat split; try done. apply Z.div_le_upper_bound; nia.
Qed.

Lemma u_digits_run base h k : forall s n m, pad (K := K) m base h s -> (length s + S k <= 66)%nat -> 0 <= n < base ^ Z.of_nat (S k) -> cell n ->
  exists m', grown m m' base h s (unumber (S k) base n) /\
    forall σ ρ, roomy 9 σ -> roomy 12 ρ -> runs K (pos "U#S" 1, n :: σ, ρ, m) (pos "U#S" 7, 0 :: σ, ρ, m').
Proof.
  induction k as [|k IH]; intros s n m Hp Hl Hn Hc; pose proof (p_range _ _ _ _ Hp) as Hr;
    destruct (does_u_digit base h s n m Hp) as (m1 & Hg & Hd); try done; try lia;
    destruct (unumber_more _ base n Hr Hn) as [[E Eu] | (k' & Ek & Hne & Hq & Hle & Eu)]; try done; rewrite Eu.
  1, 2: exists m1; split; [done|]; intros; fw_with ltac:(apply Hd; room); rewrite E; fw; apply runs_refl.
  destruct (IH (todigit (n mod base) :: s) (n / base) m1) as (m2 & Hg2 & Hrun); try done; try room.
  { by destruct Hg. }
  { unfold cell in *. lia. }
  exists m2. split; [by eapply grown_trans|]. intros. fw_with ltac:(apply Hd; room). fw_to 3%nat. fw1.
  rewrite (proj2 (Z.eqb_neq _ 0) Hne). fw1. by apply Hrun.
Qed.

Lemma pow_64 base : 2 <= base -> 2 ^ 64 <= base ^ Z.of_nat 64.
Proof. intros. apply Z.pow_le_mono_l. lia. Qed.

(** An unsigned number as text. *)
Lemma u_text base h n m : pad_free (K := K) m base h -> cell n ->
  exists m', pad (K := K) m' base h (unumber 64 base n) /\ same_outside m m' (h + 190) (h + 264) /\
    let t := unumber 64 base n in
    forall σ ρ, roomy 9 σ -> roomy 14 ρ ->
    does K "(U.)" (n :: σ) ρ m (Z.of_nat (length t) :: h + 256 - Z.of_nat (length t) :: σ) ρ m'.
Proof.
  intros Hf Hn. pose proof (f_range _ _ _ Hf) as Hr. pose proof (pow_64 base ltac:(lia)) as H64.
  assert (Hs : same_outside m (put 8 m (h + 256) (h + 256)) (h + 190) (h + 264)) by (intros a Ha; apply put_other; lia).
  destruct (u_digits_run base h 63 [] n (put 8 m (h + 256) (h + 256))) as (m' & Hg & Hrun).
  { by apply pad_start. } { cbn [length]. lia. } { unfold cell in *. lia. } { done. }
  destruct Hg as [Hg Hs']. rewrite app_nil_r in Hg. exists m'. split; [done|]. split; [by eapply same_outside_trans|]. cbv zeta.
  colon. fw_with ltac:(apply (does_start base h); [done | room | room]).
  fw_with ltac:(apply does_col; [vm_done | vm_done | room | intros j Hj Hjf; eapply runs_trans; [apply Hrun; room | fw]]).
  fw_with ltac:(apply (pad_ends "U#>" [0] base h (unumber 64 base n) 0); [by left | exact Hg | room | room]). fw.
Qed.

(** The same with double cells: # and #S. *)
Lemma does_digit_out base h s d m : pad (K := K) m base h s -> (length s < 66)%nat -> 0 <= d < 2 ^ 128 ->
  exists m', grown m m' base h s [todigit (d mod base)] /\
    forall σ ρ, roomy 12 σ -> roomy 13 ρ -> does K "#" (hi64 d :: lo64 d :: σ) ρ m (hi64 (d / base) :: lo64 (d / base) :: σ) ρ m'.
Proof.
  intros Hp Hl Hd. pose proof (p_base _ _ _ _ Hp) as Hb. pose proof (p_range _ _ _ _ Hp) as Hr. unfold BASE_at in Hb.
  pose proof (Z.mod_pos_bound d base) as Hm. eexists. split; [apply held_grown; [done | done | apply todigit_byte; lia]|].
  colon. do 2 fw1. fw_with ltac:(apply does_mu_slash_mod; [room | room | done | unfold cell; lia | lia]). fw1.
  fw_with ltac:(apply does_todigit; [room | room | lia]). fw_with ltac:(eapply does_hold; [done | done | room | room]). fw.
Qed.

Lemma u64_lor a b : cell a -> cell b -> u64 (Z.lor a b) = Z.lor a b.
Proof.
  intros Ha Hb. unfold cell in *. unfold u64. rewrite <- Z.land_ones, Z.land_lor_distr_l, !Z.land_ones by lia. by rewrite !Z.mod_small by lia.
Qed.

Lemma or_zero d : 0 <= d < 2 ^ 128 -> (u64 (Z.lor (lo64 d) (hi64 d)) =? 0) = (d =? 0).
Proof.
  intros Hd. rewrite u64_lor by (apply cell_lo64 || apply cell_hi64). pose proof (hi64_lo64 d) as E. rewrite Z.mod_small in E by lia.
  destruct (Z.eqb_spec d 0) as [-> | Hne]; [reflexivity|]. apply Z.eqb_neq. rewrite Z.lor_eq_0_iff. lia.
Qed.

Lemma digits_run base h k : forall s d m, pad (K := K) m base h s -> (length s + S k <= 66)%nat -> 0 <= d < base ^ Z.of_nat (S k) -> d < 2 ^ 128 ->
  exists m', grown m m' base h s (unumber (S k) base d) /\
    forall σ ρ, roomy 12 σ -> roomy 13 ρ -> runs K (pos "#S" 1, hi64 d :: lo64 d :: σ, ρ, m) (pos "#S" 8, 0 :: 0 :: σ, ρ, m').
Proof.
  induction k as [|k IH]; intros s d m Hp Hl Hd Hc; pose proof (p_range _ _ _ _ Hp) as Hr;
    destruct (does_digit_out base h s d m Hp) as (m1 & Hg & Hw); try done; try lia;
    destruct (unumber_more _ base d Hr Hd) as [[E Eu] | (k' & Ek & Hne & Hq & Hle & Eu)]; try done; rewrite Eu.
  1, 2: exists m1; split; [done|]; intros; fw_with ltac:(apply Hw; room); rewrite E; fw; apply runs_refl.
  destruct (IH (todigit (d mod base) :: s) (d / base) m1) as (m2 & Hg2 & Hrun); try done; try room.
  { by destruct Hg. }
  { lia. }
  exists m2. split; [by eapply grown_trans|]. intros. fw_with ltac:(apply Hw; room). fw_to 4%nat. fw1.
  rewrite or_zero by lia. rewrite (proj2 (Z.eqb_neq _ 0) Hne). fw1. by apply Hrun.
Qed.

(** The sign of a cell. *)
Lemma does_sign base h s n m : pad (K := K) m base h s -> (length s < 66)%nat -> cell n ->
  exists m', grown m m' base h s (if s64 n <? 0 then [45] else []) /\
    forall σ ρ, roomy 6 σ -> roomy 5 ρ -> does K "SIGN" (n :: σ) ρ m σ ρ m'.
Proof.
  intros Hp Hl Hn. destruct (Z.ltb_spec (s64 n) 0) as [Hs | Hs].
  - eexists. split; [apply held_grown; [done | done | unfold byte; lia]|]. colon. fw. rewrite truth_eqb, (proj2 (Z.ltb_lt _ _) Hs). cbn [negb]. fw_to 6%nat.
    fw_with ltac:(eapply does_hold; [done | done | room | room]). fw.
  - exists m. split; [by split|]. colon. fw. rewrite truth_eqb, (proj2 (Z.ltb_ge _ _) Hs). cbn [negb]. fw.
Qed.

(** A signed number as text. *)
Lemma s_text base h n m : pad_free (K := K) m base h -> cell n ->
  exists m', pad (K := K) m' base h (snumber base (s64 n)) /\ same_outside m m' (h + 190) (h + 264) /\
    let t := snumber base (s64 n) in
    forall σ ρ, roomy 14 σ -> roomy 16 ρ ->
    does K "(.)" (n :: σ) ρ m (Z.of_nat (length t) :: h + 256 - Z.of_nat (length t) :: σ) ρ m'.
Proof.
  intros Hf Hn. pose proof (f_range _ _ _ Hf) as Hr. pose proof (pow_64 base ltac:(lia)) as H64. pose proof (cell_abs n Hn) as Ha.
  destruct (double_of_cell _ Ha) as [Eh El].
  assert (Hs : same_outside m (put 8 m (h + 256) (h + 256)) (h + 190) (h + 264)) by (intros a Hb; apply put_other; lia).
  destruct (digits_run base h 63 [] (Z.abs (s64 n)) (put 8 m (h + 256) (h + 256))) as (m1 & Hg & Hrun).
  { by apply pad_start. } { cbn [length]. lia. } { unfold cell in *. lia. } { unfold cell in *. lia. }
  rewrite Eh, El in Hrun. destruct Hg as [Hg Hs1]. rewrite app_nil_r in Hg.
  destruct (does_sign base h (unumber 64 base (Z.abs (s64 n))) n m1 Hg) as (m2 & [Hg2 Hs2] & Hsign); [pose proof (unumber_length 64 base (Z.abs (s64 n))); lia | done|].
  exists m2. split; [done|]. split; [eapply same_outside_trans; [|exact Hs2]; by eapply same_outside_trans|]. cbv zeta.
  colon. fw_with ltac:(apply (does_start base h); [done | room | room]). fw_to 6%nat.
  fw_with ltac:(apply does_col; [vm_done | vm_done | room | intros j Hj Hjf; eapply runs_trans; [apply Hrun; room | fw]]).
  fw1. fw_with ltac:(apply Hsign; room).
  fw_with ltac:(apply (pad_ends "#>" [0; 0] base h (snumber base (s64 n)) 0); [right; by exists 0 | exact Hg2 | room | room]). fw.
Qed.

Lemma snumber_text base v : 2 <= base <= 36 -> - 2 ^ 63 <= v < 2 ^ 63 -> number_text base (snumber base v) = Some v.
Proof.
  intros Hb Hv. unfold snumber. pose proof (pow_64 base ltac:(lia)) as H64. destruct (Z.ltb_spec v 0).
  - pose proof (unumber_value 64 base (- v) Hb) as Hu. destruct (unumber_S 63 base (- v)) as (c & t & E). unfold number_text. cbn [app].
    rewrite Z.eqb_refl, (Z.abs_neq v), E by lia. rewrite E in Hu. unfold unsigned_text. rewrite Hu by lia. cbn. f_equal. lia.
  - rewrite Z.abs_eq by lia. cbn [app]. apply unumber_text; [done|]. lia.
Qed.

(** A text at PAD is read as its number. *)
Lemma pad_read base h t v m σ ρ : pad (K := K) m base h t -> Forall byte t -> number_text base t = Some v -> roomy 18 σ -> roomy 20 ρ ->
  does K "$NUMBER" (Z.of_nat (length t) :: h + 256 - Z.of_nat (length t) :: σ) ρ m (truth false :: u64 v :: σ) ρ m.
Proof.
  intros Hp Ht Hv Hσ Hρ. assert (Hx : text m base (h + 256 - Z.of_nat (length t)) t) by (destruct Hp; split; try done; lia).
  pose proof (does_number m base _ _ σ ρ Hx Hσ Hρ) as D. by rewrite Hv in D.
Qed.

Lemma unumber_byte base n : 2 <= base <= 36 -> Forall byte (unumber 64 base n).
Proof. intros Hb. eapply Forall_impl; [by apply (unumber_bytes 64 base n)|]. by intros c [? _]. Qed.

Lemma snumber_byte base v : 2 <= base <= 36 -> Forall byte (snumber base v).
Proof.
  intros Hb. unfold snumber. apply Forall_app. split; [|by apply unumber_byte]. destruct (v <? 0); repeat constructor; lia.
Qed.

(** [name] makes the text [t] of a cell, and the text is read as the cell. *)
Definition reads_back (name : string) (m : mem) (h n : Z) (t : list Z) : Prop :=
  exists m' a l, bytes_at m' a t /\ l = Z.of_nat (length t) /\ same_outside m m' (h + 190) (h + 264) /\
    forall σ ρ, roomy 18 σ -> roomy 20 ρ ->
    does K name (n :: σ) ρ m (l :: a :: σ) ρ m' /\ does K "$NUMBER" (l :: a :: σ) ρ m' (truth false :: n :: σ) ρ m'.

(** C39: The text of a number, unsigned or signed, is read as the number. *)
Theorem number_roundtrip base h n m : pad_free (K := K) m base h -> cell n ->
  reads_back "(U.)" m h n (unumber 64 base n) /\ reads_back "(.)" m h n (snumber base (s64 n)).
Proof.
  intros Hf Hn. pose proof (f_range _ _ _ Hf) as Hr. pose proof (pow_64 base ltac:(lia)) as H64. split.
  - destruct (u_text base h n m Hf Hn) as (m' & Hp & Hs & Hd). exists m'. eexists _, _. split; [by apply (p_bytes _ _ _ _ Hp)|].
    split; [done|]. split; [done|]. intros σ ρ Hσ Hρ. split; [apply Hd; room|].
    rewrite <- (u64_small n) at 3 by done. apply (pad_read base h); [done | by apply unumber_byte | | done..].
    apply unumber_text; [done|]. unfold cell in *. lia.
  - destruct (s_text base h n m Hf Hn) as (m' & Hp & Hs & Hd). exists m'. eexists _, _. split; [by apply (p_bytes _ _ _ _ Hp)|].
    split; [done|]. split; [done|]. intros σ ρ Hσ Hρ. split; [apply Hd; room|].
    pose proof (pad_read base h (snumber base (s64 n)) (s64 n) m' σ ρ Hp) as D.
    assert (E : u64 (s64 n) = n) by (unfold cell in *; destruct (s64_of n Hn) as [[? ->] | [? ->]]; unfold u64; lia).
    rewrite E in D. apply D; [by apply snumber_byte | apply snumber_text; [done | by apply s64_bounds] | done..].
Qed.
End convert.

(** DIGIT takes the characters between the digits and the letters for digits. *)
Lemma digit_colon : fdigit 16 58 = Some 10 /\ fdigit 16 63 = Some 15 /\ fdigit 16 65 = Some 10.
Proof. vm_compute. done. Qed.

(** C15: Every text is told to be a number or not, and a number has the value of its digits in the number base,
    modulo 2^64, the sign included; no text makes the machine fail. *)
Theorem number_correct `{Layout} (K : mem) `{!kernel K} m base s a σ ρ : text m base a s -> roomy 18 σ -> roomy 20 ρ ->
  does K "$NUMBER" (Z.of_nat (length s) :: a :: σ) ρ m
    (match number_text base s with Some v => truth false :: u64 v :: σ | None => truth true :: σ end) ρ m.
Proof. apply does_number. Qed.

(** The memory [m] with the cells of HERE and BASE at [ph] and [pb], free bytes for the output and the text [s]. *)
Definition with_numbers (m : mem) (ph pb base : Z) (s : list Z) : mem :=
  write_bytes (write_bytes (put 8 (put 8 m ph 0x80000) pb base) (0x80000 + 190) (replicate 74 0)) 0x90000 s.

Lemma with_numbers_cells m ph pb base s : (length s <= 1000)%nat -> cell base -> 0x100000 <= ph -> ph + 8 <= pb ->
  load64 (with_numbers m ph pb base s) ph = Ok 0x80000 /\ load64 (with_numbers m ph pb base s) pb = Ok base.
Proof.
  intros Hl Hb Hh Hp. assert (Hs : forall a, 0x100000 <= a -> same_at (put 8 (put 8 m ph 0x80000) pb base) (with_numbers m ph pb base s) a 8).
  { intros a Ha q Hq. unfold with_numbers. rewrite write_bytes_outside by lia. apply write_bytes_outside. rewrite length_replicate. lia. }
  split; (eapply load_same; [apply Hs; lia|]).
  - eapply load_same; [apply same_at_put; lia|]. apply load_put64. unfold cell. lia.
  - by apply load_put64.
Qed.

Lemma with_numbers_pad m ph pb base : mapped (with_numbers m ph pb base []) (0x80000 + 190) 74.
Proof.
  pose proof (bytes_at_mapped _ _ _ (write_bytes_at (put 8 (put 8 m ph 0x80000) pb base) (0x80000 + 190) (replicate 74 0))) as L.
  rewrite length_replicate in L. exact L.
Qed.

(** The memory of the examples: the dictionary ends at 0x80000 and [s] is at 0x90000. *)
Definition number_memory (base : Z) (s : list Z) : mem :=
  with_numbers image (HERE_at (H := image_layout)) (BASE_at (H := image_layout)) base s.

Lemma here_base : HERE_at (H := image_layout) = 1125384 /\ BASE_at (H := image_layout) = 1320968.
Proof. split; vm_compute; reflexivity. Qed.

Lemma number_memory_cells base s : (length s <= 1000)%nat -> cell base ->
  load64 (number_memory base s) (HERE_at (H := image_layout)) = Ok 0x80000 /\ load64 (number_memory base s) (BASE_at (H := image_layout)) = Ok base.
Proof. intros Hl Hb. destruct here_base. apply with_numbers_cells; [done | done | lia | lia]. Qed.

Lemma image_high p n : p + Z.of_nat n <= 0x100000 -> outside image p n.
Proof. intros Hp. apply image_outside. intros i e k _ _. right. unfold place_of. lia. Qed.

Lemma number_memory_text base s : 2 <= base <= 36 -> (length s <= 1000)%nat -> Forall byte s -> text (H := image_layout) (number_memory base s) base 0x90000 s.
Proof.
  intros Hb Hl Hs. destruct (number_memory_cells base s) as [_ Hc]; [done | unfold cell; lia|].
  split; [exact Hc | exact Hb | apply write_bytes_at | exact Hs | lia].
Qed.

Lemma number_memory_pad base : 2 <= base <= 36 -> pad_free (H := image_layout) (K := image) (number_memory base []) base 0x80000.
Proof.
  intros Hb. destruct here_base as [Eh Eb]. destruct (number_memory_cells base []) as [Hh Hc]; [apply Nat.le_0_l | unfold cell; lia|].
  split; [exact Hh | exact Hc | exact Hb | split; [discriminate | reflexivity] | apply with_numbers_pad | apply image_high; lia | right; rewrite Eh; lia | right; rewrite Eb; lia].
Qed.

(** "-1f" in hexadecimal. *)
Lemma number_correct_witness :
  text (H := image_layout) (number_memory 16 [45; 49; 102]) 16 0x90000 [45; 49; 102] /\
  does (H := image_layout) image "$NUMBER" [3; 0x90000] [] (number_memory 16 [45; 49; 102]) [0; 2 ^ 64 - 31] [] (number_memory 16 [45; 49; 102]).
Proof.
  assert (T : text (H := image_layout) (number_memory 16 [45; 49; 102]) 16 0x90000 [45; 49; 102]).
  { apply number_memory_text; [lia | cbn; lia | repeat constructor; lia]. }
  split; [exact T|]. apply (number_correct (H := image_layout) image (number_memory 16 [45; 49; 102]) 16 [45; 49; 102] 0x90000 [] [] T);
    unfold STACK_CELLS; cbn; lia.
Defined.

(** -1234 in decimal. *)
Lemma number_roundtrip_witness :
  reads_back (H := image_layout) (K := image) "(U.)" (number_memory 10 []) 0x80000 (2 ^ 64 - 1234) (unumber 64 10 (2 ^ 64 - 1234)) /\
  reads_back (H := image_layout) (K := image) "(.)" (number_memory 10 []) 0x80000 (2 ^ 64 - 1234) [45; 49; 50; 51; 52].
Proof.
  apply (number_roundtrip (H := image_layout) (K := image) 10 0x80000 (2 ^ 64 - 1234) (number_memory 10 [])); [|unfold cell; lia].
  apply number_memory_pad. lia.
Defined.
